(* ===== verification/_CoqProject ===== *)
-Q . S2P
Prelude.v
Text.v
Utf8.v
Wire.v
Codec.v
Messages.v
Negotiate.v
Halter.v
Idle.v
Window.v
Buffer.v
Channel.v
Timers.v
ChannelFacts.v
Mux.v
MuxFacts.v
Cipher.v
CipherFacts.v
Transport.v
TransportFacts.v
Kex.v
KexFacts.v
Handshake.v
HandshakeFacts.v
Auth.v
AuthFacts.v
Keys.v
KeysFacts.v
Signers.v
Certs.v
CertsFacts.v
KeyFiles.v
KeyFilesFacts.v
KnownHosts.v
KnownHostsFacts.v
Agent.v
AgentFacts.v
AgentWire.v
AgentWireFacts.v
Terminal.v
TerminalFacts.v
TerminalScreen.v
Session.v
SessionFacts.v
Forward.v
ForwardFacts.v
Client.v
ClientFacts.v
Setup.v
SetupFacts.v
AgentForward.v
AgentForwardFacts.v
