(* ===== verification/Prelude.v ===== *)
(** * xcryptossh: a verification library for the SSH implementation

    xcryptossh is an SSH client and server library in Go.  A connection is a
    stack: bytes on a network connection; a [transport] that frames, encrypts
    and authenticates packets; a [handshakeTransport] that negotiates
    algorithms and runs (and re-runs) key exchanges under the traffic of
    concurrent writers; user authentication, with keys and certificates; and a
    [mux] that carries many flow-controlled [channel]s, each with buffers,
    windows, idle timers and a [Halter] for orderly shutdown.  On top of it are
    the client with its dispatcher of incoming channels, sessions, forwarding,
    the agent, the known_hosts database and the line editor of the terminal.
    This library models those parts, each in a file of its own, and proves
    what makes them correct.

    ** The files

    Shared:
    - Prelude.v (this file): bytes, fixed-width integers, slices, big-endian
      numbers, Go errors and outcomes ([Ret], [Fail], [Panic]), strings, the
      tactics and the hint databases.
    - Text.v, Utf8.v: the string functions of Go that are used (splitting,
      trimming, decimal numbers, base64, [net.SplitHostPort], UTF-8).

    Encoding:
    - Wire.v: the encoders and parsers of common.go and messages.go
      ([appendU32] ... [parseString], [parseInt], [marshalInt]).
    - Codec.v: [Marshal] and [Unmarshal] of messages.go.  Go's reflection is a
      description of a struct (its name, its [sshtype] tag and the kinds of its
      fields); the class [SSHMessage] ties a record to its description, the
      classes [FieldCodec] and [StructCodec] say that a field kind, a struct,
      survives encoding and decoding.
    - Messages.v: every message struct of messages.go, [decode], and
      [buildDataSignedForAuth] of common.go.

    The connection:
    - Negotiate.v: the algorithm tables, [findAgreedAlgorithms], [rekeyBytes],
      [Config.SetDefaults] of common.go, cipher.go and mac.go.
    - Halter.v: halter.go.  Halters form a graph with a mutex each; taking a
      mutex that is held is [HDeadlock].  [MAD] is a step relation.
    - Idle.v: idle.go, one step per event of the timer's goroutine.
    - Window.v: the send window of common.go; [reserve] is cut where it waits.
    - Buffer.v: buffer.go, a linked list of shared cells, against a byte queue.
    - Channel.v, ChannelFacts.v: channel.go as computations in a state monad
      that can finish, block or panic; reachable states under any operations.
    - Timers.v: the timeouts, deadlines and extended streams of channel.go.
    - Mux.v, MuxFacts.v: mux.go over a heap of channels.
    - Cipher.v, CipherFacts.v: the three packet ciphers of cipher.go and the
      MACs of mac.go; the class [LawfulCipher] is what the transport relies on.
    - Transport.v, TransportFacts.v: transport.go: sequence numbers, pending
      key changes, key derivation, the version exchange.
    - Kex.v, KexFacts.v: kex.go, with the signature functions of certs.go,
      server.go and client.go; the class [LawfulKex] is what the handshake
      relies on.
    - Handshake.v, HandshakeFacts.v: handshake.go: writers, read loop and kex
      loop as interleaved steps over the shared state, its mutex and its Go
      channels.
    - Auth.v, AuthFacts.v: [serverAuthenticate] of server.go and
      [clientAuthenticate] of client_auth.go with their methods.
    - Setup.v, SetupFacts.v: [NewClientConn], [NewServerConn] and the
      handshakes of client.go and server.go, which call the parts above in
      order; the host key checks; connection.go.

    Keys:
    - Keys.v, KeysFacts.v: public keys and certificates of keys.go and certs.go
      with their encodings and parsers.
    - Signers.v: signers and private key files of keys.go.
    - Certs.v, CertsFacts.v: [CertChecker] and [SignCert] of certs.go.
    - KeyFiles.v, KeyFilesFacts.v: authorized_keys and known_hosts lines.
    - KnownHosts.v, KnownHostsFacts.v: knownhosts/knownhosts.go.

    The agent:
    - Agent.v, AgentFacts.v: the interface [Agent] as a class, and the keyring
      of agent/keyring.go as an instance.
    - AgentWire.v, AgentWireFacts.v: agent/client.go and agent/server.go; the
      class [Conn] is what they need of a connection.
    - AgentForward.v, AgentForwardFacts.v: agent/forward.go, in the world of a
      client.

    On top of a connection:
    - Session.v, SessionFacts.v: session.go; the class [SessionChannel] is what
      it needs of a channel, which Channel.v provides.
    - Forward.v, ForwardFacts.v: tcpip.go and streamlocal.go; the class
      [ForwardConn] is what they need of a connection, which Mux.v provides.
    - Client.v, ClientFacts.v: the goroutines that client.go and tcpip.go start,
      as steps of one world.
    - Terminal.v, TerminalFacts.v, TerminalScreen.v: terminal/terminal.go, its
      refinement of a line editor, and what its output shows on a screen.

    ** How the model corresponds to the code

    Definitions keep the names of the functions they translate; where two
    functions share a name the model adds the component ([spc_readPacket],
    [gcm_readPacket]).  Machine integers are integers in their range with the
    conversions written out ([u32], [i64], [z2b]).  A Go function that returns
    an error returns [Fail]; an index out of range, a nil dereference, a send
    on a closed channel, or an explicit panic is [Panic] (or the crash result
    of the monad of channels and mux).  Code that waits (a condition variable,
    a Go channel, a mutex) is either cut into steps at the point where it
    waits (windows, buffers, timers, the handshake, the copies of a session,
    the goroutines of a client and of the agent's forwarding, the terminal at
    its reads) or reports that it blocks (channels, mux, halters, listeners),
    so that theorems can quantify over everything that other goroutines do in
    between.

    Block ciphers, stream ciphers, AEADs, hashes, elliptic curves, RSA, DSA,
    PEM and X.509, HMAC, IP addresses as text, the callbacks of the
    configurations, random sources, files and the network are parameters:
    arguments of the definitions or the classes [KeyLib], [SignLib],
    [RSALib], [IPLib] and [ErrText].  What is assumed of them is named
    ([lib_ok], [aead_ok], [ec_good], [x25519_good], [dh_good], [signer_ok],
    [LawfulKeyLib], [IPLaws]) and each theorem that needs it has a witness with a
    concrete instance.

    ** What the theorems show

    - Encoding: [Unmarshal] inverts [Marshal] for every message, [decode]
      dispatches to the right struct and never panics, integers of either sign
      survive, and the blob signed for authentication determines everything it
      is meant to bind.
    - Negotiation: the algorithms agreed are the client's first choice that the
      server has, for each of the eight lists.
    - Packets: a packet written is read back unchanged by each cipher; with a
      MAC nothing is delivered that was not authenticated; GCM nonces do not
      repeat; the transport delivers every sequence of packets, across key
      changes; keys are derived as RFC 4253 says.
    - Key exchange and handshake: the two ends of every method agree; the two
      ends of [enterKeyExchange] end with the same keys, algorithms and session
      identifier; in every interleaving the wire follows the rekeying protocol
      and loses or reorders nothing; nothing reaches the upper layers before
      the first exchange has succeeded; the session identifier never changes.
    - Authentication and set-up: whoever gets in satisfied the configuration by
      a request on this connection; passwords are limited; the server
      terminates, and the only panic it can end with is one of a key's own
      [Verify]; a key that is accepted gets its user in, from
      [NewClientConn] to [NewServerConn]; a connection is only returned for an
      authenticated user, and a failure closes the network connection.
    - Channels and mux: no reachable operation panics (but for timeouts and
      deadlines of less than ten nanoseconds, which are excluded), data arrives in order
      and within the window, a close is the last message, opening connects the
      two ends with matching windows, the end of the loop closes everything.
    - Timers, windows, buffers, halters: exact timeouts, conservation of the
      window, refinement of a queue, stop requests that reach exactly what is
      downstream.
    - Keys and certificates: what is encoded is read back, what is accepted is
      well formed; the checker accepts exactly the certificates that are within
      their limits and signed by an authority, and of those that [SignCert]
      signed exactly the ones within their limits; the signature covers every
      field; key files are read back.
    - Known hosts: the matcher agrees with a reference definition, [check]
      accepts exactly what the first matching lines say, lines that are written
      are read back.
    - Agent: the keyring refines an agent whose keys have no order; a call
      through client and server has the effect of the call on the agent
      ([Signers] that of [List]); all
      forwarded channels are served by one agent, in one order; the relay to a
      socket neither loses nor invents bytes, and closes after both ends.
    - Sessions: [Wait] returns nil only for status zero with all streams copied
      to their end; exit statuses, signals and requests are what was sent.
    - Clients and forwarding: from the first goroutine that [NewClient] starts,
      before the handlers of forwarded connections are registered, every incoming
      channel meets exactly one fate, in order, and a listener receives exactly
      the connections to its address.
    - Terminal: keys refine a line editor, typed lines are read back, nothing
      panics while completions are well formed and widths are not negative, and
      the screen shows the prompt and the line.
    - Where the code does not do what it means to, the theorem says what it
      does: among others a stop request that leaves the handshake's mutex
      locked, algorithms that differ by direction, a past deadline and a GCM
      packet that crash the process, a read deadline after which no write
      succeeds, a listener that cannot be closed while nobody accepts, a failed
      agent forwarding that stops the dispatcher of a client.

    ** Bounds

    Recursion that is not structural has fuel, and the theorems show that the
    fuel suffices: the bytes of input for [transport.readPacket], for the
    parsers of keys within certificates, for the lines of key files, and for
    the keys and the reads of the terminal; the packets left for the authentication loops;
    the bytes wanted for [generateKeyMaterial]; the number of halters for
    [RequestStop]; the elements and bytes of a buffer for [Read]; the length of
    the data for [WriteExtended] and of the line for [writeLine]; the binary
    digits of a number for its decimal text.  [ListenTCP] and the workaround
    that calls it again need a depth of two.

    ** What is not modelled

    The system calls of the terminal package (util*.go), the access to the
    runtime clock (mono.go), debug output and logging callbacks (util.go,
    verbose.go, AuthLogCallback, [printPacket]), accessors that only return a
    field (the addresses, versions and halters of connections and channels,
    [Waitmsg]), the [String] methods that only serve messages, and code for
    tests.  Three waits of the code are one step of the model: the completion
    callback of the terminal, around which the code gives up its mutex, runs
    within its key; a turn of [ServeAgent] on a forwarded channel reads, calls
    the agent and writes; and a timer's goroutine is taken to answer a stop
    request before the ten seconds after which [AttemptOK] and [Stop] panic.
    The world of a client is not composed with the mux below it: the
    channels that arrive are events, as are the data and the errors of reads
    and writes of sockets and streams; a panic of the connection in [Reject] or
    [Reply] ends the world and is not blamed on the client ([mux_forward_safe]:
    the mux has none for the channels it has handed out). *)

From Stdlib Require Export Strings.Byte ZArith Lia.
From stdpp Require Export base gmap strings numbers list.

#[global] Open Scope Z_scope.

(** ** Bytes and Go strings *)

(** A Go [[]byte] and a Go [string] are both byte sequences. *)
Abbreviation bytes := (list byte).

#[global] Instance byte_eq_decision : EqDecision byte := Byte.byte_eq_dec.

#[global] Program Instance byte_countable : Countable byte :=
  inj_countable Byte.to_N Byte.of_N _.
Next Obligation. intros x. apply Byte.of_to_N. Qed.

(** The value of a byte, and the conversion [byte(z)] of Go, which keeps the
    low eight bits. *)
Definition b2z (b : byte) : Z := Z.of_N (Byte.to_N b).

Definition z2b (z : Z) : byte :=
  match Byte.of_N (Z.to_N (z mod 256)) with Some b => b | None => "000"%byte end.

(** A Go string literal. *)
Definition str (s : string) : bytes := String.list_byte_of_string s.

(** Conversions to the fixed-width unsigned types of Go. *)
Definition u8 (z : Z) : Z := z mod 2 ^ 8.
Definition u16 (z : Z) : Z := z mod 2 ^ 16.
Definition u32 (z : Z) : Z := z mod 2 ^ 32.
Definition u64 (z : Z) : Z := z mod 2 ^ 64.

(** Conversion to [int64] (and to [int] on a 64-bit platform). *)
Definition i64 (z : Z) : Z := (z + 2 ^ 63) mod 2 ^ 64 - 2 ^ 63.

(** Go's [len]. *)
Definition zlen {A} (l : list A) : Z := Z.of_nat (length l).

(** Slicing with integer bounds: [l[:n]] and [l[n:]] where [0 <= n <= len l]
    (callers check the bound; out of range is a panic there). *)
Definition ztake {A} (n : Z) (l : list A) : list A := take (Z.to_nat n) l.
Definition zdrop {A} (n : Z) (l : list A) : list A := drop (Z.to_nat n) l.

(** Big-endian numbers: [be_encode n z] is the [n] low bytes of [z], most
    significant first; [be_decode] is the value of a byte sequence. *)
Fixpoint be_encode (n : nat) (z : Z) : bytes :=
  match n with
  | O => []
  | S m => z2b (z / 256 ^ Z.of_nat m) :: be_encode m z
  end.

Fixpoint be_decode_acc (acc : Z) (l : bytes) : Z :=
  match l with
  | [] => acc
  | b :: l' => be_decode_acc (acc * 256 + b2z b) l'
  end.

Definition be_decode (l : bytes) : Z := be_decode_acc 0 l.

(** ** Errors and outcomes *)

(** Arguments of a formatted error. *)
Inductive fmtarg :=
| FNum (z : Z)
| FNums (l : list Z)
| FStr (s : bytes)
| FStrs (l : list bytes).

(** Go's [error] values: the two sentinels of package [io] that the code tests
    for, the timeout error of idle.go, and errors with a text. *)
Inductive error :=
| EOF
| ErrUnexpectedEOF
| ErrTimeout (msg : bytes)
| Errorf (fmt : string) (args : list fmtarg).

Definition errNew (text : string) : error := Errorf text [].

#[global] Instance fmtarg_eq_decision : EqDecision fmtarg.
Proof. solve_decision. Defined.

#[global] Instance error_eq_decision : EqDecision error.
Proof. solve_decision. Defined.

(** What a call does: it returns a value, returns a non-nil error, or panics. *)
Inductive outcome (A : Type) :=
| Ret (a : A)
| Fail (e : error)
| Panic (why : string).
Arguments Ret {A} _.
Arguments Fail {A} _.
Arguments Panic {A} _.

#[global] Instance outcome_eq_decision `{EqDecision A} : EqDecision (outcome A).
Proof. solve_decision. Defined.

Definition obind {A B} (m : outcome A) (k : A -> outcome B) : outcome B :=
  match m with
  | Ret a => k a
  | Fail e => Fail e
  | Panic w => Panic w
  end.

Declare Scope outcome_scope.
Delimit Scope outcome_scope with outcome.
Notation "'let?' x := m 'in' k" := (obind m (fun x => k))
  (at level 10, x pattern, m at level 100, k at level 200) : outcome_scope.
#[global] Open Scope outcome_scope.

(** [Some]-or-error, for the [(v, ok)] results of Go. *)
Definition ok_or {A} (o : option A) (e : error) : outcome A :=
  match o with Some a => Ret a | None => Fail e end.

Definition panics {A} (m : outcome A) : bool :=
  match m with Panic _ => true | _ => false end.

(** ** String operations of the Go library *)

(** [bytes.Split(s, sep)] and [strings.Split(s, sep)] for a one-byte
    separator: never empty. *)
Fixpoint split_byte (sep : byte) (s : bytes) : list bytes :=
  match s with
  | [] => [[]]
  | c :: s' =>
      if Byte.eqb c sep then [] :: split_byte sep s'
      else match split_byte sep s' with
           | [] => [[c]]
           | w :: ws => (c :: w) :: ws
           end
  end.

(** The words with the separator between them. *)
Fixpoint join_byte (sep : byte) (ws : list bytes) : bytes :=
  match ws with
  | [] => []
  | [w] => w
  | w :: ws' => w ++ sep :: join_byte sep ws'
  end.

Definition is_digit (c : byte) : bool := (48 <=? b2z c) && (b2z c <=? 57).

Fixpoint digits_value (acc : Z) (s : bytes) : option Z :=
  match s with
  | [] => Some acc
  | c :: s' => if is_digit c then digits_value (acc * 10 + (b2z c - 48)) s' else None
  end.

(** [strconv.Atoi] on a 64-bit platform: an optional sign, at least one
    decimal digit, and a value that fits. *)
Definition atoi (s : bytes) : option Z :=
  let parse_body neg body :=
    match body with
    | [] => None
    | _ => match digits_value 0 body with
           | Some v =>
               let v := if neg : bool then - v else v in
               if (- 2 ^ 63 <=? v) && (v <? 2 ^ 63) then Some v else None
           | None => None
           end
    end in
  match s with
  | [] => None
  | c :: s' =>
      if Byte.eqb c "-"%byte then parse_body true s'
      else if Byte.eqb c "+"%byte then parse_body false s'
      else parse_body false s
  end.

(** ** Tactics *)

(** Break the first [match]/[if] of the goal or of a hypothesis, as often as
    possible, closing contradictory branches. *)
Ltac split_match :=
  repeat (case_match; simplify_eq/=; try done).

(** Boolean comparisons become propositions; then linear arithmetic. *)
Ltac b2p :=
  repeat match goal with
  | H : (_ && _) = true |- _ => apply andb_true_iff in H as [? ?]
  | H : (_ || _) = false |- _ => apply orb_false_iff in H as [? ?]
  | H : (_ <? _) = true |- _ => apply Z.ltb_lt in H
  | H : (_ <? _) = false |- _ => apply Z.ltb_ge in H
  | H : (_ <=? _) = true |- _ => apply Z.leb_le in H
  | H : (_ <=? _) = false |- _ => apply Z.leb_gt in H
  | H : (_ =? _) = true |- _ => apply Z.eqb_eq in H
  | H : (_ =? _) = false |- _ => apply Z.eqb_neq in H
  | H : negb _ = true |- _ => apply negb_true_iff in H
  | H : negb _ = false |- _ => apply negb_false_iff in H
  end.

(** Linear arithmetic with division and remainder by constants. *)
Ltac dlia := Z.to_euclidean_division_equations; lia.

(** A decidable closed proposition, by evaluation. *)
Ltac decide_vm := apply (bool_decide_unpack _); vm_compute; exact I.

Ltac unwrap := unfold u8, u16, u32, u64, i64 in *.

Create HintDb ssh discriminated.
Create Rewrite HintDb ssh_len.

(** ** Lemmas on bytes *)

Lemma b2z_range b : 0 <= b2z b < 256.
Proof. unfold b2z. pose proof (Byte.to_N_bounded b). lia. Qed.

Lemma z2b_b2z b : z2b (b2z b) = b.
Proof.
  unfold z2b. rewrite Z.mod_small by apply b2z_range.
  unfold b2z. rewrite N2Z.id. by rewrite Byte.of_to_N.
Qed.

Lemma b2z_z2b z : b2z (z2b z) = z mod 256.
Proof.
  unfold z2b. pose proof (Z.mod_pos_bound z 256 ltac:(lia)) as Hm.
  pose proof (Byte.to_of_N_option_map (Z.to_N (z mod 256))) as H.
  destruct (Byte.of_N _) as [b|]; simpl in H.
  - destruct (_ <=? _)%N; simplify_eq. unfold b2z. rewrite H. lia.
  - destruct (_ <=? _)%N eqn:E; [done|]. apply N.leb_gt in E. lia.
Qed.

Lemma b2z_inj a b : b2z a = b2z b -> a = b.
Proof. intros H. rewrite <- (z2b_b2z a), <- (z2b_b2z b). by rewrite H. Qed.

Lemma b2z_z2b_small z : 0 <= z < 256 -> b2z (z2b z) = z.
Proof. intros. rewrite b2z_z2b. by apply Z.mod_small. Qed.

Lemma z2b_mod z : z2b (z mod 256) = z2b z.
Proof. unfold z2b. by rewrite Z.mod_mod by lia. Qed.

Lemma byte_eqb_true a b : Byte.eqb a b = true <-> a = b.
Proof.
  split; intros H; [by apply Byte.byte_dec_bl | by apply Byte.byte_dec_lb].
Qed.

Lemma byte_eqb_refl b : Byte.eqb b b = true.
Proof. by apply byte_eqb_true. Qed.

Lemma byte_eqb_false a b : Byte.eqb a b = false <-> a <> b.
Proof.
  rewrite <- byte_eqb_true. destruct (Byte.eqb a b); naive_solver.
Qed.

(** ** Lemmas on widths *)

Lemma u32_range z : 0 <= u32 z < 2 ^ 32.
Proof. apply Z.mod_pos_bound. lia. Qed.

Lemma u64_range z : 0 <= u64 z < 2 ^ 64.
Proof. apply Z.mod_pos_bound. lia. Qed.

Lemma u32_small z : 0 <= z < 2 ^ 32 -> u32 z = z.
Proof. apply Z.mod_small. Qed.

Lemma u64_small z : 0 <= z < 2 ^ 64 -> u64 z = z.
Proof. apply Z.mod_small. Qed.

#[export] Hint Resolve b2z_range u32_range u64_range : ssh.

(** ** Lemmas on lengths and slices *)

Lemma zlen_nonneg {A} (l : list A) : 0 <= zlen l.
Proof. unfold zlen. lia. Qed.

Lemma zlen_nil {A} : zlen (@nil A) = 0.
Proof. done. Qed.

Lemma zlen_cons {A} (x : A) l : zlen (x :: l) = 1 + zlen l.
Proof. unfold zlen. simpl. lia. Qed.

Lemma zlen_app {A} (l k : list A) : zlen (l ++ k) = zlen l + zlen k.
Proof. unfold zlen. rewrite length_app. lia. Qed.

Lemma zlen_zero {A} (l : list A) : zlen l = 0 -> l = [].
Proof. destruct l; [done|]. rewrite zlen_cons. pose proof (zlen_nonneg l). lia. Qed.

Lemma zlen_ztake {A} n (l : list A) :
  0 <= n <= zlen l -> zlen (ztake n l) = n.
Proof. unfold zlen, ztake. rewrite length_take. lia. Qed.

Lemma zlen_zdrop {A} n (l : list A) :
  0 <= n <= zlen l -> zlen (zdrop n l) = zlen l - n.
Proof. unfold zlen, zdrop. rewrite length_drop. lia. Qed.

Lemma ztake_zdrop {A} n (l : list A) : ztake n l ++ zdrop n l = l.
Proof. apply take_drop. Qed.

Lemma ztake_app_zlen {A} (l k : list A) : ztake (zlen l) (l ++ k) = l.
Proof. unfold ztake, zlen. rewrite Nat2Z.id. apply take_app_length. Qed.

Lemma zdrop_app_zlen {A} (l k : list A) : zdrop (zlen l) (l ++ k) = k.
Proof. unfold zdrop, zlen. rewrite Nat2Z.id. apply drop_app_length. Qed.

Lemma ztake_all {A} n (l : list A) : zlen l <= n -> ztake n l = l.
Proof. unfold ztake, zlen. intros. apply take_ge. lia. Qed.

Lemma zdrop_all {A} n (l : list A) : zlen l <= n -> zdrop n l = [].
Proof. unfold zdrop, zlen. intros. apply drop_ge. lia. Qed.

Lemma zdrop_0 {A} (l : list A) : zdrop 0 l = l.
Proof. done. Qed.

Lemma zdrop_zdrop {A} n m (l : list A) :
  0 <= n -> 0 <= m -> zdrop n (zdrop m l) = zdrop (m + n) l.
Proof. intros. unfold zdrop. rewrite drop_drop. f_equal. lia. Qed.

#[export] Hint Rewrite @zlen_nil @zlen_cons @zlen_app @ztake_app_zlen @zdrop_app_zlen : ssh_len.

(** ** Big-endian numbers *)

Lemma be_encode_length n z : length (be_encode n z) = n.
Proof. induction n; simpl; congruence. Qed.

Lemma zlen_be_encode n z : zlen (be_encode n z) = Z.of_nat n.
Proof. unfold zlen. by rewrite be_encode_length. Qed.

#[export] Hint Rewrite @zlen_be_encode : ssh_len.

Lemma be_decode_acc_app acc l k :
  be_decode_acc acc (l ++ k) = be_decode_acc (be_decode_acc acc l) k.
Proof. revert acc. induction l; intros; simpl; auto. Qed.

Lemma be_decode_acc_shift acc l :
  be_decode_acc acc l = acc * 256 ^ zlen l + be_decode l.
Proof.
  unfold be_decode. revert acc. induction l as [|b l IH]; intros acc.
  - rewrite zlen_nil. simpl. lia.
  - rewrite zlen_cons. simpl. rewrite IH, (IH (0 * 256 + b2z b)).
    rewrite Z.pow_add_r by (pose proof (zlen_nonneg l); lia). lia.
Qed.

Lemma be_decode_cons b l : be_decode (b :: l) = b2z b * 256 ^ zlen l + be_decode l.
Proof. unfold be_decode at 1. simpl. by rewrite be_decode_acc_shift. Qed.

Lemma be_decode_range l : 0 <= be_decode l < 256 ^ zlen l.
Proof.
  induction l as [|b l IH]; [done|].
  rewrite be_decode_cons, zlen_cons. pose proof (b2z_range b). pose proof (zlen_nonneg l).
  rewrite Z.pow_add_r by lia. nia.
Qed.

Lemma be_decode_encode n z : be_decode (be_encode n z) = z mod 256 ^ Z.of_nat n.
Proof.
  induction n as [|n IH].
  - simpl. by rewrite Z.mod_1_r.
  - simpl be_encode. rewrite be_decode_cons, IH, b2z_z2b, zlen_be_encode.
    replace (Z.of_nat (S n)) with (Z.of_nat n + 1) by lia.
    rewrite Z.pow_add_r by lia. rewrite Z.pow_1_r.
    rewrite (Z.rem_mul_r z (256 ^ Z.of_nat n) 256) by lia. lia.
Qed.

Lemma be_decode_encode_small n z :
  0 <= z < 256 ^ Z.of_nat n -> be_decode (be_encode n z) = z.
Proof. intros. rewrite be_decode_encode. by apply Z.mod_small. Qed.

Lemma be_encode_mod n z : be_encode n (z mod 256 ^ Z.of_nat n) = be_encode n z.
Proof.
  assert (Hgen : forall m k, (m <= k)%nat ->
    be_encode m (z mod 256 ^ Z.of_nat k) = be_encode m z); [|by apply Hgen].
  intros m k Hm. induction m as [|m IH]; [done|]. simpl. rewrite IH by lia. f_equal.
  rewrite <- (z2b_mod (z / _)), <- (z2b_mod (_ / _)). f_equal.
  replace (Z.of_nat k) with (Z.of_nat m + 1 + (Z.of_nat k - Z.of_nat m - 1)) by lia.
  rewrite !Z.pow_add_r by lia. rewrite Z.pow_1_r.
  rewrite <- Z.mul_assoc, Z.rem_mul_r by lia.
  rewrite (Z.mul_comm (256 ^ Z.of_nat m)), Z.div_add by lia.
  rewrite (Z.div_small (z mod _)) by (apply Z.mod_pos_bound; lia). rewrite Z.add_0_l.
  set (q := z / 256 ^ Z.of_nat m).
  apply Z.mod_mod_divide. exists (256 ^ (Z.of_nat k - Z.of_nat m - 1)). lia.
Qed.

Lemma be_encode_decode l : be_encode (length l) (be_decode l) = l.
Proof.
  induction l as [|b l IH]; [done|]. simpl. rewrite be_decode_cons.
  change (256 ^ zlen l) with (256 ^ Z.of_nat (length l)). f_equal.
  - rewrite Z.div_add_l by lia.
    rewrite Z.div_small by apply be_decode_range. rewrite Z.add_0_r. apply z2b_b2z.
  - rewrite <- be_encode_mod, Z.add_comm, Z.mod_add by lia.
    by rewrite Z.mod_small by apply be_decode_range.
Qed.

(** ** Splitting and joining *)

Lemma split_byte_no_sep sep w : sep ∉ w -> split_byte sep w = [w].
Proof.
  induction w as [|c w IH]; [done|]. intros H. simpl.
  assert (Byte.eqb c sep = false) as -> by (apply byte_eqb_false; set_solver).
  rewrite IH by set_solver. done.
Qed.

Lemma split_byte_app sep w s :
  sep ∉ w -> split_byte sep (w ++ sep :: s) = w :: split_byte sep s.
Proof.
  induction w as [|c w IH]; intros H; simpl.
  - by rewrite byte_eqb_refl.
  - assert (Byte.eqb c sep = false) as -> by (apply byte_eqb_false; set_solver).
    rewrite IH by set_solver. done.
Qed.

Lemma split_byte_ne sep s : split_byte sep s <> [].
Proof.
  destruct s as [|c s]; simpl; [done|]. destruct (Byte.eqb c sep); [done|].
  by destruct (split_byte sep s).
Qed.

Lemma split_join sep ws :
  ws <> [] -> Forall (fun w => sep ∉ w) ws -> split_byte sep (join_byte sep ws) = ws.
Proof.
  induction ws as [|w ws IH]; [done|]. intros _ [Hw Hws]%Forall_cons.
  destruct ws as [|w' ws]; [by rewrite split_byte_no_sep|].
  change (join_byte sep (w :: w' :: ws)) with (w ++ sep :: join_byte sep (w' :: ws)).
  rewrite split_byte_app by done. by rewrite IH.
Qed.

Lemma join_split sep s : join_byte sep (split_byte sep s) = s.
Proof.
  induction s as [|c s IH]; [done|]. simpl. destruct (Byte.eqb c sep) eqn:E.
  - apply byte_eqb_true in E. subst.
    destruct (split_byte sep s) as [|w ws] eqn:E'; [by apply split_byte_ne in E'|].
    simpl in *. by rewrite IH.
  - destruct (split_byte sep s) as [|w ws] eqn:E'; [by apply split_byte_ne in E'|].
    destruct ws; simpl in *; by rewrite IH.
Qed.

(** ** Outcomes *)

Lemma obind_ret {A B} (m : outcome A) (k : A -> outcome B) b :
  obind m k = Ret b -> exists a, m = Ret a /\ k a = Ret b.
Proof. destruct m; simpl; intros; [eauto | done | done]. Qed.

Lemma Ret_inj {A} (a b : A) : Ret a = Ret b -> a = b.
Proof. by intros [=]. Qed.
