(* ===== verification/Text.v ===== *)
(** * Text: the string functions of the Go library that key files use

    [base64.StdEncoding] and [base64.RawStdEncoding], [bytes.TrimSpace],
    [bytes.Fields], [bytes.IndexByte], [bytes.IndexAny], [strings.Contains] and
    [net.SplitHostPort], as keys.go, agent/client.go and knownhosts.go use them,
    with the lemmas on them that the components share. *)

From S2P Require Import Prelude.

(** ** Searching *)

(** The part before the first byte that satisfies [f] and the rest from it on;
    [None] when there is none ([bytes.IndexByte], [bytes.IndexAny] with ASCII
    characters). *)
Fixpoint cutAt (f : byte -> bool) (s : bytes) : option (bytes * bytes) :=
  match s with
  | [] => None
  | c :: s' =>
      if f c then Some ([], s)
      else match cutAt f s' with
           | Some (a, b) => Some (c :: a, b)
           | None => None
           end
  end.

Definition isBlank (c : byte) : bool := Byte.eqb c " " || Byte.eqb c "009".

Definition has (c : byte) (s : bytes) : bool := existsb (Byte.eqb c) s.

(** [strings.HasPrefix]. *)
Fixpoint hasPrefix (p s : bytes) : bool :=
  match p, s with
  | [], _ => true
  | a :: p', b :: s' => Byte.eqb a b && hasPrefix p' s'
  | _ :: _, [] => false
  end.

(** [strings.Contains]. *)
Fixpoint contains (p s : bytes) : bool :=
  hasPrefix p s || match s with [] => false | _ :: s' => contains p s' end.

(** ** White space

    [unicode.IsSpace] on UTF-8: the ASCII spaces, U+0085 and U+00A0 (two
    bytes), and the spaces U+1680, U+2000 to U+200A, U+2028, U+2029, U+202F,
    U+205F and U+3000 (three bytes).  No byte that starts one of these encodings
    occurs inside another rune, so that looking at bytes finds the same
    positions as decoding runes. *)

Definition space1 (a : byte) : bool := ((9 <=? b2z a) && (b2z a <=? 13)) || (b2z a =? 32).

Definition space2 (a b : byte) : bool := (b2z a =? 0xC2) && ((b2z b =? 0x85) || (b2z b =? 0xA0)).

Definition space3 (a b c : byte) : bool :=
  ((b2z a =? 0xE1) && (b2z b =? 0x9A) && (b2z c =? 0x80)) ||
  ((b2z a =? 0xE2) && (b2z b =? 0x80) &&
     ((b2z c <=? 0x8A) && (0x80 <=? b2z c) || (b2z c =? 0xA8) || (b2z c =? 0xA9) || (b2z c =? 0xAF))) ||
  ((b2z a =? 0xE2) && (b2z b =? 0x81) && (b2z c =? 0x9F)) ||
  ((b2z a =? 0xE3) && (b2z b =? 0x80) && (b2z c =? 0x80)).

Fixpoint trimLeft (s : bytes) : bytes :=
  match s with
  | [] => []
  | a :: s1 =>
      if space1 a then trimLeft s1
      else match s1 with
           | [] => s
           | b :: s2 =>
               if space2 a b then trimLeft s2
               else match s2 with
                    | [] => s
                    | c :: s3 => if space3 a b c then trimLeft s3 else s
                    end
           end
  end.

(** On the reversed string. *)
Fixpoint trimRev (s : bytes) : bytes :=
  match s with
  | [] => []
  | a :: s1 =>
      if space1 a then trimRev s1
      else match s1 with
           | [] => s
           | b :: s2 =>
               if space2 b a then trimRev s2
               else match s2 with
                    | [] => s
                    | c :: s3 => if space3 c b a then trimRev s3 else s
                    end
           end
  end.

Definition trimSpace (s : bytes) : bytes := reverse (trimRev (reverse (trimLeft s))).

(** [bytes.Fields]; [cur] is the field so far, in reverse. *)
Definition emit (cur : bytes) (fs : list bytes) : list bytes :=
  match cur with [] => fs | _ => reverse cur :: fs end.

Fixpoint fieldsFrom (cur s : bytes) : list bytes :=
  match s with
  | [] => emit cur []
  | a :: s1 =>
      if space1 a then emit cur (fieldsFrom [] s1)
      else match s1 with
           | [] => emit (a :: cur) []
           | b :: s2 =>
               if space2 a b then emit cur (fieldsFrom [] s2)
               else match s2 with
                    | [] => fieldsFrom (a :: cur) s1
                    | c :: s3 =>
                        if space3 a b c then emit cur (fieldsFrom [] s3) else fieldsFrom (a :: cur) s1
                    end
           end
  end.

Definition fields (s : bytes) : list bytes := fieldsFrom [] s.

(** ** Base64 *)

Definition b64char (v : Z) : byte :=
  if v <? 26 then z2b (65 + v)
  else if v <? 52 then z2b (97 + (v - 26))
  else if v <? 62 then z2b (48 + (v - 52))
  else if v =? 62 then "+" else "/".

Definition b64val (c : byte) : option Z :=
  let n := b2z c in
  if (65 <=? n) && (n <=? 90) then Some (n - 65)
  else if (97 <=? n) && (n <=? 122) then Some (n - 97 + 26)
  else if (48 <=? n) && (n <=? 57) then Some (n - 48 + 52)
  else if n =? 43 then Some 62
  else if n =? 47 then Some 63
  else None.

Definition b64pad : byte := "=".

(** [EncodeToString]; [pad] is the padding, empty for the raw encoding. *)
Fixpoint b64encode (pad : bool) (s : bytes) : bytes :=
  match s with
  | [] => []
  | [a] =>
      let v := b2z a * 65536 in
      b64char (v / 262144) :: b64char (v / 4096 mod 64) :: (if pad then [b64pad; b64pad] else [])
  | [a; b] =>
      let v := b2z a * 65536 + b2z b * 256 in
      b64char (v / 262144) :: b64char (v / 4096 mod 64) :: b64char (v / 64 mod 64)
        :: (if pad then [b64pad] else [])
  | a :: b :: c :: s' =>
      let v := b2z a * 65536 + b2z b * 256 + b2z c in
      b64char (v / 262144) :: b64char (v / 4096 mod 64) :: b64char (v / 64 mod 64) :: b64char (v mod 64)
        :: b64encode pad s'
  end.

Definition errBase64 : error := errNew "illegal base64 data".

(** The quanta of four characters that are left when line ends are skipped. *)
Fixpoint b64quanta (s : bytes) : outcome bytes :=
  match s with
  | [] => Ret []
  | c0 :: c1 :: c2 :: c3 :: s' =>
      match b64val c0, b64val c1 with
      | Some v0, Some v1 =>
          if Byte.eqb c2 b64pad then
            if Byte.eqb c3 b64pad && bool_decide (s' = []) then Ret [z2b (v0 * 4 + v1 / 16)]
            else Fail errBase64
          else
            match b64val c2 with
            | None => Fail errBase64
            | Some v2 =>
                if Byte.eqb c3 b64pad then
                  if bool_decide (s' = []) then Ret [z2b (v0 * 4 + v1 / 16); z2b (v1 mod 16 * 16 + v2 / 4)]
                  else Fail errBase64
                else
                  match b64val c3 with
                  | None => Fail errBase64
                  | Some v3 =>
                      let? rest := b64quanta s' in
                      Ret (z2b (v0 * 4 + v1 / 16) :: z2b (v1 mod 16 * 16 + v2 / 4) :: z2b (v2 mod 4 * 64 + v3) :: rest)
                  end
            end
      | _, _ => Fail errBase64
      end
  | _ => Fail errBase64
  end.

Definition isLineEnd (c : byte) : bool := (b2z c =? 10) || (b2z c =? 13).

Definition b64decode (s : bytes) : outcome bytes := b64quanta (filter (fun c => isLineEnd c = false) s).

(** ** Network addresses *)

Definition colon : byte := ":".
Definition lbracket : byte := "[".
Definition rbracket : byte := "]".

(** The text before and after the last colon. *)
Definition cutLastColon (s : bytes) : option (bytes * bytes) :=
  match cutAt (Byte.eqb colon) (reverse s) with
  | Some (port, _ :: host) => Some (reverse host, reverse port)
  | _ => None
  end.

Definition addrErr (why : string) (addr : bytes) : outcome (bytes * bytes) :=
  Fail (Errorf why [FStr addr]).

(** [net.SplitHostPort]. *)
Definition splitHostPort (hostport : bytes) : outcome (bytes * bytes) :=
  match cutLastColon hostport with
  | None => addrErr "missing port in address" hostport
  | Some (beforeLast, port) =>
      if hasPrefix [lbracket] hostport then
        match cutAt (Byte.eqb rbracket) hostport with
        | None => addrErr "missing ']' in address" hostport
        | Some (open, after) =>
            let host := drop 1 open in
            let tail := drop 1 after in
            if bool_decide (tail = []) then addrErr "missing port in address" hostport
            else if bool_decide (open ++ [rbracket] = beforeLast) then
              if has lbracket (host ++ after) then addrErr "unexpected '[' in address" hostport
              else if has rbracket tail then addrErr "unexpected ']' in address" hostport
              else Ret (host, port)
            else if hasPrefix [colon] tail then addrErr "too many colons in address" hostport
            else addrErr "missing port in address" hostport
        end
      else if has colon beforeLast then addrErr "too many colons in address" hostport
      else if has lbracket hostport then addrErr "unexpected '[' in address" hostport
      else if has rbracket hostport then addrErr "unexpected ']' in address" hostport
      else Ret (beforeLast, port)
  end.

(** ** Lemmas on searching *)

Lemma cutAt_spec f s :
  match cutAt f s with
  | None => Forall (fun c => f c = false) s
  | Some (a, b) => s = a ++ b /\ Forall (fun c => f c = false) a /\ exists c b', b = c :: b' /\ f c = true
  end.
Proof.
  induction s as [|c s IH]; simpl; [done|].
  destruct (f c) eqn:E; [naive_solver|].
  destruct (cutAt f s) as [[a b]|]; [destruct IH as (-> & ? & ?)|]; simpl; eauto.
Qed.

Lemma cutAt_app f a c b :
  Forall (fun x => f x = false) a -> f c = true -> cutAt f (a ++ c :: b) = Some (a, c :: b).
Proof.
  intros Ha Hc. induction Ha as [|x a Hx Ha IH]; simpl; [by rewrite Hc|]. by rewrite Hx, IH.
Qed.

Lemma cutAt_none f s : Forall (fun x => f x = false) s -> cutAt f s = None.
Proof. induction 1 as [|x s Hx Hs IH]; simpl; [done|]. by rewrite Hx, IH. Qed.

Lemma has_false c s : has c s = false <-> Forall (fun x => Byte.eqb c x = false) s.
Proof.
  unfold has. induction s as [|x s IH]; simpl; [done|].
  rewrite orb_false_iff, Forall_cons_iff, IH. done.
Qed.

Lemma has_app c s t : has c (s ++ t) = has c s || has c t.
Proof. apply existsb_app. Qed.

Lemma has_In c s : has c s = true <-> c ∈ s.
Proof.
  unfold has. rewrite existsb_exists, list_elem_of_In. split.
  - by intros (x & Hx & ->%byte_eqb_true).
  - intros H. exists c. by rewrite byte_eqb_refl.
Qed.

(** ** Lemmas on base64 *)

Lemma three_ind (P : bytes -> Prop) :
  P [] -> (forall a, P [a]) -> (forall a b, P [a; b]) ->
  (forall a b c s, P s -> P (a :: b :: c :: s)) -> forall s, P s.
Proof.
  intros H0 H1 H2 H3. refine (fix go s := _). destruct s as [|a [|b [|c s]]]; [done..|]. apply H3, go.
Qed.

(** The characters of an encoding. *)
Definition b64ok (c : byte) : bool := match b64val c with Some _ => true | None => Byte.eqb c b64pad end.

Lemma b64val_char v : 0 <= v < 64 -> b64val (b64char v) = Some v.
Proof.
  intros Hv. unfold b64char, b64val.
  repeat case_match; b2p; simplify_eq; rewrite ?b2z_z2b_small in * by lia; simpl in *; try done; f_equal; try lia.
Qed.

Lemma b64char_not_pad v : 0 <= v < 64 -> Byte.eqb (b64char v) b64pad = false.
Proof.
  intros Hv. apply byte_eqb_false. intros E. pose proof (b64val_char v Hv) as H. by rewrite E in H.
Qed.

Lemma b64ok_char v : 0 <= v < 64 -> b64ok (b64char v) = true.
Proof. intros. unfold b64ok. by rewrite b64val_char. Qed.

Lemma b64encode_ok pad s : Forall (fun c => b64ok c = true) (b64encode pad s).
Proof.
  induction s as [|a|a b|a b c s IH] using three_ind; cbn [b64encode];
    try (pose proof (b2z_range a)); try (pose proof (b2z_range b)); try (pose proof (b2z_range c));
    repeat (apply Forall_cons; split); try done; try (by destruct pad; repeat constructor); apply b64ok_char; dlia.
Qed.

(** Nothing in an encoding is white space or a separator of a key file. *)
Lemma b64ok_plain c : b64ok c = true ->
  space1 c = false /\ 33 <= b2z c < 128 /\ isLineEnd c = false /\ isBlank c = false /\ Byte.eqb c "|" = false.
Proof. destruct c; vm_compute; intros; split_and!; congruence. Qed.

Lemma z2b_eq b x : x = b2z b -> z2b x = b.
Proof. intros ->. apply z2b_b2z. Qed.

Lemma b64quanta_encode s : b64quanta (b64encode true s) = Ret s.
Proof.
  induction s as [|a|a b|a b c s IH] using three_ind; [done|..]; cbn [b64encode b64quanta];
    pose proof (b2z_range a) as Ha; try (pose proof (b2z_range b) as Hb); try (pose proof (b2z_range c) as Hc);
    rewrite !b64val_char by dlia.
  - rewrite (byte_eqb_refl b64pad). simpl. do 2 f_equal. apply z2b_eq. dlia.
  - rewrite b64char_not_pad by dlia. rewrite byte_eqb_refl. simpl. do 2 f_equal; [|f_equal].
    + apply z2b_eq. dlia.
    + apply z2b_eq. dlia.
  - rewrite !b64char_not_pad by dlia. rewrite IH. cbn [obind]. do 2 f_equal; [|f_equal; [|f_equal]].
    + apply z2b_eq. dlia.
    + apply z2b_eq. dlia.
    + apply z2b_eq. dlia.
Qed.

Lemma b64quanta_not_panic s : panics (b64quanta s) = false.
Proof.
  induction s as [s IH] using (induction_ltof1 _ (@length byte)); unfold ltof in IH.
  destruct s as [|c0 [|c1 [|c2 [|c3 s]]]]; try done. cbn [b64quanta].
  destruct (b64val c0), (b64val c1); try done.
  destruct (Byte.eqb c2 b64pad); [by destruct (_ && _)|]. destruct (b64val c2); [|done].
  destruct (Byte.eqb c3 b64pad); [by destruct (bool_decide _)|]. destruct (b64val c3); [|done].
  specialize (IH s). destruct (b64quanta s); try done. apply IH. simpl. lia.
Qed.

Lemma b64decode_not_panic s : panics (b64decode s) = false.
Proof. apply b64quanta_not_panic. Qed.

Lemma filter_all {A} (P : A -> Prop) `{forall x, Decision (P x)} l : Forall P l -> filter P l = l.
Proof. induction 1; [done|]. rewrite filter_cons_True by done. by f_equal. Qed.

Lemma b64decode_encode s : b64decode (b64encode true s) = Ret s.
Proof.
  unfold b64decode. rewrite filter_all; [apply b64quanta_encode|].
  eapply Forall_impl; [apply b64encode_ok|]. intros c Hc. by apply b64ok_plain.
Qed.

(** ** Lemmas on white space *)

(** An ASCII character that is not white space. *)
Definition solid (c : byte) : bool := (33 <=? b2z c) && (b2z c <? 128).

Lemma solid_plain c : solid c = true ->
  space1 c = false /\ (forall b, space2 c b = false /\ space2 b c = false) /\
  (forall a b, space3 c a b = false /\ space3 a b c = false) /\ isBlank c = false /\ isLineEnd c = false.
Proof.
  unfold solid. intros Hc. b2p. unfold space1, space2, space3, isBlank, isLineEnd.
  assert (E : forall n, ~ 33 <= n < 128 -> (b2z c =? n) = false) by (intros; lia).
  assert (E' : forall a, ~ 33 <= b2z a < 128 -> Byte.eqb c a = false).
  { intros a Ha. apply byte_eqb_false. intros ->. lia. }
  rewrite !E by lia. rewrite !E' by (intros [Hx _]; by vm_compute in Hx).
  replace ((9 <=? b2z c) && (b2z c <=? 13)) with false by lia.
  replace (b2z c <=? 0x8A) with true by lia. replace (0x80 <=? b2z c) with false by lia.
  split_and!; try done; intros; split; rewrite ?andb_false_r; done.
Qed.

Lemma trimLeft_solid c s : solid c = true -> trimLeft (c :: s) = c :: s.
Proof.
  intros (H1 & H2 & H3 & _)%solid_plain. destruct s as [|b [|d s]]; simpl; rewrite H1; [done|..].
  - by rewrite (proj1 (H2 b)).
  - by rewrite (proj1 (H2 b)), (proj1 (H3 b d)).
Qed.

Lemma trimRev_solid c s : solid c = true -> trimRev (c :: s) = c :: s.
Proof.
  intros (H1 & H2 & H3 & _)%solid_plain. destruct s as [|b [|d s]]; simpl; rewrite H1; [done|..].
  - by rewrite (proj2 (H2 b)).
  - by rewrite (proj2 (H2 b)), (proj2 (H3 d b)).
Qed.

(** Text that starts and ends with such a character. *)
Definition framed (s : bytes) : Prop :=
  (exists c s', s = c :: s' /\ solid c = true) /\ (exists s' c, s = s' ++ [c] /\ solid c = true).

Lemma trimSpace_framed s : framed s -> trimSpace s = s.
Proof.
  intros [(c & s' & Hs & Hc) (s'' & d & Hd & Hsd)]. unfold trimSpace.
  rewrite Hs, trimLeft_solid, <- Hs, Hd, reverse_snoc by done. rewrite trimRev_solid by done.
  by rewrite reverse_cons, reverse_involutive.
Qed.

Lemma trimSpace_blank c s : space1 c = true -> trimSpace (c :: s) = trimSpace s.
Proof. intros Hc. unfold trimSpace. simpl. by rewrite Hc. Qed.

Lemma trimSpace_nil : trimSpace [] = [].
Proof. done. Qed.

Lemma framed_solids s : s <> [] -> Forall (fun c => solid c = true) s -> framed s.
Proof.
  intros Hne Hs. split.
  - destruct s as [|c s]; [done|]. apply Forall_cons in Hs as [? _]. eauto.
  - destruct s as [|c s _] using rev_ind; [done|]. apply Forall_app in Hs as [_ [? _]%Forall_cons]. eauto.
Qed.

Lemma framed_ends s c d : head s = Some c -> last s = Some d -> solid c = true -> solid d = true -> framed s.
Proof.
  intros Hh [s' ->]%last_Some Hc Hd. split; [|by eauto]. destruct (s' ++ [d]) as [|x l]; [done|].
  simplify_eq/=. eauto.
Qed.

Lemma framed_app a b : framed a -> framed b -> forall m, framed (a ++ m ++ b).
Proof.
  intros [(c & a' & -> & Hc) _] [_ (b' & d & -> & Hd)] m. split.
  - by exists c, (a' ++ m ++ b' ++ [d]).
  - exists ((c :: a') ++ m ++ b'), d. by rewrite <- !app_assoc.
Qed.

Lemma b64ok_solid c : b64ok c = true -> solid c = true.
Proof. intros (_ & ? & _)%b64ok_plain. unfold solid. lia. Qed.

Lemma b64encode_solid pad s : Forall (fun c => solid c = true) (b64encode pad s).
Proof. eapply Forall_impl; [apply b64encode_ok|]. apply b64ok_solid. Qed.

Lemma b64encode_nil pad s : b64encode pad s = [] -> s = [].
Proof. destruct s as [|a [|b [|c s]]]; [done|..]; simpl; by intros. Qed.

Lemma solids_no_blank s : Forall (fun c => solid c = true) s -> Forall (fun c => isBlank c = false) s.
Proof. intros Hs. eapply Forall_impl; [exact Hs|]. intros c Hc. by apply solid_plain in Hc as (_ & _ & _ & ? & _). Qed.

(** ** Hosts and ports *)

Lemma cutLastColon_app h p : has colon p = false -> cutLastColon (h ++ colon :: p) = Some (h, p).
Proof.
  intros Hp%has_false. unfold cutLastColon. rewrite reverse_app, reverse_cons, <- app_assoc. cbn [app].
  rewrite cutAt_app by (done || by apply Forall_reverse). by rewrite !reverse_involutive.
Qed.

Lemma splitHostPort_plain h p :
  has lbracket h = false -> has rbracket h = false -> has colon h = false ->
  has lbracket p = false -> has rbracket p = false -> has colon p = false ->
  splitHostPort (h ++ colon :: p) = Ret (h, p).
Proof.
  intros Hl Hr Hc Hpl Hpr Hpc. unfold splitHostPort. rewrite cutLastColon_app by done.
  assert (E : hasPrefix [lbracket] (h ++ colon :: p) = false).
  { destruct h as [|c h]; [done|]. cbn [app hasPrefix]. unfold has in Hl. cbn [existsb] in Hl.
    apply orb_false_iff in Hl as [-> _]. done. }
  rewrite E, Hc. cbn [negb]. unfold has in *. rewrite !existsb_app. cbn [existsb].
  rewrite Hl, Hr, Hpl, Hpr. done.
Qed.

Lemma splitHostPort_brackets h p :
  has lbracket h = false -> has rbracket h = false ->
  has lbracket p = false -> has rbracket p = false -> has colon p = false ->
  splitHostPort ([lbracket] ++ h ++ [rbracket; colon] ++ p) = Ret (h, p).
Proof.
  intros Hl Hr Hpl Hpr Hpc. unfold splitHostPort.
  replace ([lbracket] ++ h ++ [rbracket; colon] ++ p) with (([lbracket] ++ h ++ [rbracket]) ++ colon :: p)
    by by rewrite <- !app_assoc.
  rewrite cutLastColon_app by done. cbn [app hasPrefix]. change (Byte.eqb lbracket lbracket && true) with true. cbn iota.
  replace (lbracket :: (h ++ [rbracket]) ++ colon :: p) with ((lbracket :: h) ++ rbracket :: colon :: p)
    by by cbn; rewrite <- !app_assoc.
  rewrite cutAt_app; [|apply Forall_cons; split; [done | by apply has_false]|done].
  cbn [drop app]. rewrite drop_0. rewrite bool_decide_false, bool_decide_true by done.
  unfold has in *. rewrite existsb_app. cbn [existsb]. rewrite Hl, Hpl, Hpr. done.
Qed.
