(* ===== verification/Utf8.v ===== *)
(** * UTF-8 as the terminal uses it

    The package unicode/utf8 and the conversions between strings and runes:
    [utf8.DecodeRune], [utf8.FullRune], [[]rune(s)], [string(runes)].  A rune is
    a number; what is no rune is encoded as U+FFFD. *)

From S2P Require Import Prelude.

Definition RuneError : Z := 0xFFFD.

(** A rune that has an encoding of its own. *)
Definition validRune (r : Z) : bool :=
  ((0 <=? r) && (r <? 0xD800)) || ((0xDFFF <? r) && (r <=? 0x10FFFF)).

Definition encodeValid (r : Z) : bytes :=
  if r <? 0x80 then [z2b r]
  else if r <? 0x800 then [z2b (0xC0 + r / 64); z2b (0x80 + r mod 64)]
  else if r <? 0x10000 then [z2b (0xE0 + r / 4096); z2b (0x80 + r / 64 mod 64); z2b (0x80 + r mod 64)]
  else [z2b (0xF0 + r / 262144); z2b (0x80 + r / 4096 mod 64); z2b (0x80 + r / 64 mod 64); z2b (0x80 + r mod 64)].

Definition encodeRune (r : Z) : bytes := if validRune r then encodeValid r else encodeValid RuneError.

(** [string(runes)]. *)
Definition encodeRunes (rs : list Z) : bytes := concat (map encodeRune rs).

(** The size that a first byte announces and the range of the second byte;
    [None] for a byte that starts nothing. *)
Definition firstByte (b : byte) : option (Z * Z * Z) :=
  let x := b2z b in
  if x <? 0x80 then Some (1, 0x80, 0xBF)
  else if x <? 0xC2 then None
  else if x <? 0xE0 then Some (2, 0x80, 0xBF)
  else if x =? 0xE0 then Some (3, 0xA0, 0xBF)
  else if x =? 0xED then Some (3, 0x80, 0x9F)
  else if x <? 0xF0 then Some (3, 0x80, 0xBF)
  else if x =? 0xF0 then Some (4, 0x90, 0xBF)
  else if x <? 0xF4 then Some (4, 0x80, 0xBF)
  else if x =? 0xF4 then Some (4, 0x80, 0x8F)
  else None.

Definition inRange (lo hi : Z) (b : byte) : bool := (lo <=? b2z b) && (b2z b <=? hi).

Definition continues (b : byte) : bool := inRange 0x80 0xBF b.

(** [utf8.DecodeRune]: the rune and the bytes after it; a byte that does not
    belong to an encoding is one [RuneError]. *)
Definition decodeRune (p : bytes) : Z * bytes :=
  match p with
  | [] => (RuneError, [])
  | b0 :: rest =>
      let bad := (RuneError, rest) in
      match firstByte b0, rest with
      | None, _ => bad
      | Some (size, lo, hi), _ =>
          if size =? 1 then (b2z b0, rest)
          else match rest with
               | [] => bad
               | b1 :: rest1 =>
                   if negb (inRange lo hi b1) then bad
                   else if size =? 2 then ((b2z b0 - 0xC0) * 64 + (b2z b1 - 0x80), rest1)
                   else match rest1 with
                        | [] => bad
                        | b2 :: rest2 =>
                            if negb (continues b2) then bad
                            else if size =? 3 then
                              ((b2z b0 - 0xE0) * 4096 + (b2z b1 - 0x80) * 64 + (b2z b2 - 0x80), rest2)
                            else match rest2 with
                                 | [] => bad
                                 | b3 :: rest3 =>
                                     if negb (continues b3) then bad
                                     else ((b2z b0 - 0xF0) * 262144 + (b2z b1 - 0x80) * 4096 + (b2z b2 - 0x80) * 64
                                             + (b2z b3 - 0x80), rest3)
                                 end
                        end
               end
      end
  end.

(** [utf8.FullRune]: whether more bytes cannot change the first rune. *)
Definition fullRune (p : bytes) : bool :=
  match p with
  | [] => false
  | b0 :: rest =>
      match firstByte b0 with
      | None => true
      | Some (size, lo, hi) =>
          if size <=? zlen p then true
          else match rest with
               | [] => false
               | b1 :: rest1 =>
                   if negb (inRange lo hi b1) then true
                   else match rest1 with [] => false | b2 :: _ => negb (continues b2) end
               end
      end
  end.

(** [[]rune(s)]; the fuel is the length. *)
Fixpoint decodeLoop (fuel : nat) (s : bytes) : list Z :=
  match s, fuel with
  | [], _ => []
  | _, O => []
  | _, S fuel => let '(r, rest) := decodeRune s in r :: decodeLoop fuel rest
  end.

Definition decodeRunes (s : bytes) : list Z := decodeLoop (length s) s.

(** [utf8.RuneCount]. *)
Definition runeCount (s : bytes) : Z := zlen (decodeRunes s).

(** ** Decoding what was encoded *)

Lemma decodeRune_shorter b s r rest : decodeRune (b :: s) = (r, rest) -> exists u, b :: s = b :: u ++ rest.
Proof.
  unfold decodeRune. intros Hd. repeat case_match; simplify_eq;
    first [exists []; reflexivity | eexists [_]; reflexivity | eexists [_; _]; reflexivity | eexists [_; _; _]; reflexivity].
Qed.

Lemma decodeRune_length b s r rest : decodeRune (b :: s) = (r, rest) -> (length rest < length (b :: s))%nat.
Proof. intros (u & E)%decodeRune_shorter. rewrite E. simpl. rewrite length_app. lia. Qed.

Lemma encodeValid_cons r : exists b u, encodeValid r = b :: u.
Proof. unfold encodeValid. repeat case_match; eauto. Qed.

(** Compares numbers that are bytes with constants. *)
Ltac utf8_solve :=
  repeat match goal with
         | |- context[?a <? ?b] => (replace (a <? b) with true by (symmetry; apply Z.ltb_lt; dlia)) || (replace (a <? b) with false by (symmetry; apply Z.ltb_ge; dlia))
         | |- context[?a <=? ?b] => (replace (a <=? b) with true by (symmetry; apply Z.leb_le; dlia)) || (replace (a <=? b) with false by (symmetry; apply Z.leb_gt; dlia))
         | |- context[?a =? ?b] => (replace (a =? b) with true by (symmetry; apply Z.eqb_eq; dlia)) || (replace (a =? b) with false by (symmetry; apply Z.eqb_neq; dlia))
         end; cbn [negb andb orb].

(** The bytes of an encoding, as numbers. *)
Ltac utf8_bytes := rewrite ?b2z_z2b_small by dlia.

Lemma decode_encode_1 r rest : 0 <= r < 0x80 -> decodeRune (z2b r :: rest) = (r, rest) /\ fullRune (z2b r :: rest) = true.
Proof.
  intros Hr. unfold decodeRune, fullRune, firstByte. utf8_bytes. utf8_solve. split; [done|].
  rewrite zlen_cons. pose proof (zlen_nonneg rest). utf8_solve. done.
Qed.

Lemma decode_encode_2 r rest : 0x80 <= r < 0x800 ->
  decodeRune (z2b (0xC0 + r / 64) :: z2b (0x80 + r mod 64) :: rest) = (r, rest) /\
  fullRune (z2b (0xC0 + r / 64) :: z2b (0x80 + r mod 64) :: rest) = true.
Proof.
  intros Hr. unfold decodeRune, fullRune, firstByte, inRange. utf8_bytes. rewrite !zlen_cons. pose proof (zlen_nonneg rest).
  utf8_solve. split; [f_equal; dlia | done].
Qed.

Lemma decode_encode_3 r rest : 0x800 <= r < 0x10000 -> r < 0xD800 \/ 0xDFFF < r ->
  decodeRune (z2b (0xE0 + r / 4096) :: z2b (0x80 + r / 64 mod 64) :: z2b (0x80 + r mod 64) :: rest) = (r, rest) /\
  fullRune (z2b (0xE0 + r / 4096) :: z2b (0x80 + r / 64 mod 64) :: z2b (0x80 + r mod 64) :: rest) = true.
Proof.
  intros Hr Hs. unfold decodeRune, fullRune, firstByte, inRange, continues, inRange. utf8_bytes. rewrite !zlen_cons. pose proof (zlen_nonneg rest).
  destruct (decide (r < 0x1000)); [utf8_solve; split; [f_equal; dlia | done]|].
  destruct (decide (0xD000 <= r < 0xD800)); [utf8_solve; split; [f_equal; dlia | done]|].
  destruct (decide (r < 0xD000)); utf8_solve; (split; [f_equal; dlia | done]).
Qed.

Lemma decode_encode_4 r rest : 0x10000 <= r <= 0x10FFFF ->
  decodeRune (z2b (0xF0 + r / 262144) :: z2b (0x80 + r / 4096 mod 64) :: z2b (0x80 + r / 64 mod 64) :: z2b (0x80 + r mod 64) :: rest) = (r, rest) /\
  fullRune (z2b (0xF0 + r / 262144) :: z2b (0x80 + r / 4096 mod 64) :: z2b (0x80 + r / 64 mod 64) :: z2b (0x80 + r mod 64) :: rest) = true.
Proof.
  intros Hr. unfold decodeRune, fullRune, firstByte, inRange, continues, inRange. utf8_bytes. rewrite !zlen_cons. pose proof (zlen_nonneg rest).
  destruct (decide (r < 0x40000)); [utf8_solve; split; [f_equal; dlia | done]|].
  destruct (decide (0x100000 <= r)); utf8_solve; (split; [f_equal; dlia | done]).
Qed.

Lemma validRune_spec r : validRune r = true <-> 0 <= r < 0xD800 \/ 0xDFFF < r <= 0x10FFFF.
Proof. unfold validRune. rewrite orb_true_iff, !andb_true_iff, Z.ltb_lt, !Z.leb_le, !Z.ltb_lt. lia. Qed.

Lemma decode_encode r rest : validRune r = true ->
  decodeRune (encodeRune r ++ rest) = (r, rest) /\ fullRune (encodeRune r ++ rest) = true.
Proof.
  intros Hv. unfold encodeRune. rewrite Hv. apply validRune_spec in Hv. unfold encodeValid.
  destruct (Z.ltb_spec r 0x80); [by apply decode_encode_1; lia|].
  destruct (Z.ltb_spec r 0x800); [by apply decode_encode_2; lia|].
  destruct (Z.ltb_spec r 0x10000); [by apply decode_encode_3; lia|]. by apply decode_encode_4; lia.
Qed.

Lemma encodeRune_cons r : exists b u, encodeRune r = b :: u.
Proof. unfold encodeRune. destruct (validRune r); apply encodeValid_cons. Qed.

Lemma encodeRunes_app a b : encodeRunes (a ++ b) = encodeRunes a ++ encodeRunes b.
Proof. unfold encodeRunes. by rewrite map_app, concat_app. Qed.

(** Valid runes are read back. *)
Lemma decodeRunes_encode rs : Forall (fun r => validRune r = true) rs -> decodeRunes (encodeRunes rs) = rs.
Proof.
  intros Hrs. unfold decodeRunes.
  enough (H : forall fuel, (length (encodeRunes rs) <= fuel)%nat -> decodeLoop fuel (encodeRunes rs) = rs) by by apply H.
  induction Hrs as [|r rs Hr _ IH]; intros fuel Hf; [by destruct fuel|].
  unfold encodeRunes in *. cbn [map concat] in *. destruct (encodeRune_cons r) as (b & u & E).
  rewrite length_app, E in Hf. destruct fuel as [|fuel]; [simpl in Hf; lia|].
  destruct (decode_encode r (concat (map encodeRune rs)) Hr) as [Hd _].
  rewrite E in Hd |- *. cbn [decodeLoop app] in *. rewrite Hd. f_equal. apply IH. simpl in Hf. lia.
Qed.

(** A part of an encoding is not taken for a rune. *)
Lemma partial_rune r s u : validRune r = true -> encodeRune r = s ++ u -> s <> [] -> u <> [] ->
  fullRune s = false /\ exists b v, s = b :: v /\ 0xC2 <= b2z b.
Proof.
  intros Hv. unfold encodeRune. rewrite Hv. apply validRune_spec in Hv. unfold encodeValid.
  assert (Hn : forall A (a : A) (l k : list A), [a] = l ++ k -> l <> [] -> k <> [] -> False).
  { intros A a [|x [|y l]] [|z k] E Hl Hk; try done; cbn in E; simplify_eq. }
  intros E Hs Hu. destruct (Z.ltb_spec r 0x80); [by destruct (Hn _ _ _ _ E Hs Hu)|].
  destruct s as [|b0 s]; [done|]. destruct (Z.ltb_spec r 0x800).
  { destruct s as [|b1 s]; cbn [app] in E; simplify_eq; [|by destruct s, u].
    split; [|do 2 eexists; split; [done|]; utf8_bytes; dlia]. unfold fullRune, firstByte. utf8_bytes. cbn [zlen length]. utf8_solve. done. }
  destruct (Z.ltb_spec r 0x10000).
  - cbn [app] in E. injection E as <- E.
    split; [|do 2 eexists; split; [done|]; utf8_bytes; dlia]. unfold fullRune, firstByte, inRange. utf8_bytes.
    destruct s as [|b1 [|b2 s]]; cbn [app] in E; simplify_eq; [..|by destruct s, u]; utf8_bytes; cbn [zlen length];
      (destruct (decide (r < 0x1000)); [utf8_solve; done|]; destruct (decide (0xD000 <= r < 0xD800)); [utf8_solve; done|];
       destruct (decide (r < 0xD000)); utf8_solve; done).
  - cbn [app] in E. injection E as <- E.
    split; [|do 2 eexists; split; [done|]; utf8_bytes; dlia]. unfold fullRune, firstByte, inRange, continues, inRange. utf8_bytes.
    destruct s as [|b1 [|b2 [|b3 s]]]; cbn [app] in E; simplify_eq; [..|by destruct s, u]; utf8_bytes; cbn [zlen length];
      (destruct (decide (r < 0x40000)); [utf8_solve; done|]; destruct (decide (0x100000 <= r)); utf8_solve; done).
Qed.

Lemma decodeRune_valid p r rest : decodeRune p = (r, rest) -> validRune r = true.
Proof.
  intros Hd. apply validRune_spec. destruct p as [|b0 p]; [injection Hd as <- <-; unfold RuneError; lia|]. unfold decodeRune, firstByte in Hd.
  pose proof (b2z_range b0). unfold RuneError, continues, inRange in Hd.
  repeat case_match; simplify_eq; b2p; try lia;
    repeat match goal with b : byte |- _ => first [match goal with _ : 0 <= b2z b < 256 |- _ => fail 1 end | pose proof (b2z_range b)] end; b2p; lia.
Qed.
