(* ===== verification/Wire.v ===== *)
(** * Wire format primitives

    The encoders and parsers of common.go ([appendU16] ... [appendBool]) and
    of messages.go ([parseString], [parseNameList], [parseInt],
    [parseUint32], [parseUint64], [intLength], [marshalUint32],
    [marshalUint64], [marshalInt], [writeInt], [writeString],
    [stringLength], [marshalString]), with the lemmas through which the struct
    codec of Messages.v uses them: what each encoder appends, and what each
    parser accepts in front of any continuation.

    A parser returns [None] where the Go function returns [ok = false].  A
    function that writes into a slice [to] returns the contents of that slice
    after the call together with the slice it returns. *)

From S2P Require Import Prelude.

(** ** Encoders of common.go *)

Definition appendU16 (buf : bytes) (n : Z) : bytes :=
  buf ++ [z2b (Z.shiftr n 8); z2b n].

Definition appendU32 (buf : bytes) (n : Z) : bytes :=
  buf ++ [z2b (Z.shiftr n 24); z2b (Z.shiftr n 16); z2b (Z.shiftr n 8); z2b n].

Definition appendU64 (buf : bytes) (n : Z) : bytes :=
  buf ++ [z2b (Z.shiftr n 56); z2b (Z.shiftr n 48); z2b (Z.shiftr n 40); z2b (Z.shiftr n 32);
          z2b (Z.shiftr n 24); z2b (Z.shiftr n 16); z2b (Z.shiftr n 8); z2b n].

Definition appendInt (buf : bytes) (n : Z) : bytes := appendU32 buf (u32 n).

Definition appendString (buf : bytes) (s : bytes) : bytes :=
  let buf := appendU32 buf (u32 (zlen s)) in
  buf ++ s.

Definition appendBool (buf : bytes) (b : bool) : bytes :=
  if b then buf ++ [z2b 1] else buf ++ [z2b 0].

(** ** Big integers of package math/big *)

Definition bitLen (n : Z) : Z := if n =? 0 then 0 else Z.log2 (Z.abs n) + 1.

(** [Int.Bytes]: the absolute value, big endian, with no leading zero. *)
Definition bigBytes (n : Z) : bytes :=
  be_encode (Z.to_nat ((bitLen n + 7) / 8)) (Z.abs n).

Definition bnot (b : byte) : byte := z2b (Z.lxor (b2z b) 255).

(** ** Parsers of messages.go *)

Definition parseString (input : bytes) : option (bytes * bytes) :=
  if zlen input <? 4 then None
  else
    let length := be_decode (ztake 4 input) in
    let input := zdrop 4 input in
    if u32 (zlen input) <? length then None
    else Some (ztake length input, zdrop length input).

Definition comma : byte := ",".

Definition parseNameList (input : bytes) : option (list bytes * bytes) :=
  match parseString input with
  | None => None
  | Some (contents, rest) =>
      if zlen contents =? 0 then Some ([], rest)
      else Some (split_byte comma contents, rest)
  end.

Definition parseInt (input : bytes) : option (Z * bytes) :=
  match parseString input with
  | None => None
  | Some (contents, rest) =>
      let negative :=
        match contents with
        | [] => false
        | c :: _ => Z.land (b2z c) 0x80 =? 0x80
        end in
      if negative then
        let notBytes := map bnot contents in
        Some (- (be_decode notBytes + 1), rest)
      else Some (be_decode contents, rest)
  end.

Definition parseUint32 (input : bytes) : option (Z * bytes) :=
  if zlen input <? 4 then None
  else Some (be_decode (ztake 4 input), zdrop 4 input).

Definition parseUint64 (input : bytes) : option (Z * bytes) :=
  if zlen input <? 8 then None
  else Some (be_decode (ztake 8 input), zdrop 8 input).

(** ** Writers of messages.go *)

Definition intLength (n : Z) : Z :=
  let length := 4 in
  if n <? 0 then
    let nMinus1 := - n - 1 in
    let bl := bitLen nMinus1 in
    let length := if bl mod 8 =? 0 then length + 1 else length in
    length + (bl + 7) / 8
  else if n =? 0 then length
  else
    let bl := bitLen n in
    let length := if bl mod 8 =? 0 then length + 1 else length in
    length + (bl + 7) / 8.

(** [binary.BigEndian.PutUint32/PutUint64] on a slice, then the slice after it;
    a short slice is a panic. *)
Definition marshalUint32 (to : bytes) (n : Z) : outcome (bytes * bytes) :=
  if zlen to <? 4 then Panic "index out of range"
  else Ret (be_encode 4 n ++ zdrop 4 to, zdrop 4 to).

Definition marshalUint64 (to : bytes) (n : Z) : outcome (bytes * bytes) :=
  if zlen to <? 8 then Panic "index out of range"
  else Ret (be_encode 8 n ++ zdrop 8 to, zdrop 8 to).

(** [to[0] = pad; to = to[1:]] when [need], then [copy(to, body)]: the bytes
    written and the slice that is left. *)
Definition pad_copy (need : bool) (pad : byte) (body to : bytes) : outcome (bytes * bytes) :=
  let? (written, to) :=
    if need then
      match to with
      | [] => Panic "index out of range"
      | _ :: to' => Ret ([pad], to')
      end
    else Ret ([], to) in
  let nBytes := Z.min (zlen to) (zlen body) in
  Ret (written ++ ztake nBytes body, zdrop nBytes to).

Definition lengthBytes (length : Z) : bytes :=
  [z2b (Z.shiftr length 24); z2b (Z.shiftr length 16); z2b (Z.shiftr length 8); z2b length].

Definition marshalInt (to : bytes) (n : Z) : outcome (bytes * bytes) :=
  if zlen to <? 4 then Panic "slice bounds out of range"
  else
    let to := zdrop 4 to in
    let? (written, to) :=
      if n <? 0 then
        let nMinus1 := - n - 1 in
        let body := map bnot (bigBytes nMinus1) in
        let need := match body with
                    | [] => true
                    | c :: _ => Z.land (b2z c) 0x80 =? 0
                    end in
        pad_copy need "255"%byte body to
      else if n =? 0 then Ret ([], to)
      else
        let body := bigBytes n in
        let need := match body with
                    | [] => false
                    | c :: _ => negb (Z.land (b2z c) 0x80 =? 0)
                    end in
        pad_copy need "000"%byte body to in
    Ret (lengthBytes (zlen written) ++ written ++ to, to).

(** What [writeInt] passes to the writer. *)
Definition writeInt (n : Z) : outcome bytes :=
  let buf := repeat "000"%byte (Z.to_nat (intLength n)) in
  let? (buf, _) := marshalInt buf n in
  Ret buf.

(** What the two writes of [writeString] pass to the writer. *)
Definition writeString (s : bytes) : bytes := lengthBytes (zlen s) ++ s.

Definition stringLength (n : Z) : Z := 4 + n.

Definition marshalString (to s : bytes) : outcome (bytes * bytes) :=
  if zlen to <? 4 then Panic "index out of range"
  else
    let to := zdrop 4 to in
    let nBytes := Z.min (zlen to) (zlen s) in
    if zlen to <? zlen s then Panic "slice bounds out of range"
    else Ret (lengthBytes (zlen s) ++ ztake nBytes s ++ zdrop nBytes to, zdrop (zlen s) to).

(** ** Encoders as big-endian numbers *)

Lemma shiftr_be n k s : 0 <= k -> s = 8 * k -> Z.shiftr n s = n / 256 ^ k.
Proof. intros ? ->. rewrite Z.shiftr_div_pow2 by lia. by rewrite Z.pow_mul_r by lia. Qed.

Lemma lengthBytes_be n : lengthBytes n = be_encode 4 n.
Proof.
  unfold lengthBytes. simpl be_encode.
  rewrite (shiftr_be n 3 24), (shiftr_be n 2 16), (shiftr_be n 1 8) by lia.
  change (256 ^ Z.of_nat 0) with 1. by rewrite Z.div_1_r.
Qed.

Lemma appendU32_be buf n : appendU32 buf n = buf ++ be_encode 4 n.
Proof. unfold appendU32. by rewrite <- lengthBytes_be. Qed.

Lemma appendU64_be buf n : appendU64 buf n = buf ++ be_encode 8 n.
Proof.
  unfold appendU64. simpl be_encode.
  rewrite (shiftr_be n 7 56), (shiftr_be n 6 48), (shiftr_be n 5 40), (shiftr_be n 4 32),
    (shiftr_be n 3 24), (shiftr_be n 2 16), (shiftr_be n 1 8) by lia.
  by rewrite Z.div_1_r.
Qed.

Lemma be_encode_u32 n : be_encode 4 (u32 n) = be_encode 4 n.
Proof. exact (be_encode_mod 4 n). Qed.

Lemma be_encode_u64 n : be_encode 8 (u64 n) = be_encode 8 n.
Proof. exact (be_encode_mod 8 n). Qed.

Lemma appendString_be buf s : appendString buf s = buf ++ be_encode 4 (zlen s) ++ s.
Proof.
  unfold appendString. rewrite appendU32_be, be_encode_u32. by rewrite <- app_assoc.
Qed.

Lemma writeString_be s : writeString s = be_encode 4 (zlen s) ++ s.
Proof. unfold writeString. by rewrite lengthBytes_be. Qed.

(** ** Parsers: what they accept *)

Lemma ztake_app {A} (l k : list A) n : n = zlen l -> ztake n (l ++ k) = l.
Proof. intros ->. apply ztake_app_zlen. Qed.

Lemma zdrop_app {A} (l k : list A) n : n = zlen l -> zdrop n (l ++ k) = k.
Proof. intros ->. apply zdrop_app_zlen. Qed.

Lemma parseUint32_be n rest :
  0 <= n < 2 ^ 32 -> parseUint32 (be_encode 4 n ++ rest) = Some (n, rest).
Proof.
  intros. unfold parseUint32. rewrite zlen_app, zlen_be_encode.
  pose proof (zlen_nonneg rest). case_match; b2p; [lia|].
  rewrite ztake_app, zdrop_app by (by rewrite zlen_be_encode).
  by rewrite be_decode_encode_small by lia.
Qed.

Lemma parseUint64_be n rest :
  0 <= n < 2 ^ 64 -> parseUint64 (be_encode 8 n ++ rest) = Some (n, rest).
Proof.
  intros. unfold parseUint64. rewrite zlen_app, zlen_be_encode.
  pose proof (zlen_nonneg rest). case_match; b2p; [lia|].
  rewrite ztake_app, zdrop_app by (by rewrite zlen_be_encode).
  by rewrite be_decode_encode_small by lia.
Qed.

Lemma parseUint32_prefix input n rest :
  parseUint32 input = Some (n, rest) ->
  input = be_encode 4 n ++ rest /\ 0 <= n < 2 ^ 32.
Proof.
  unfold parseUint32. case_match; b2p; intros; simplify_eq.
  assert (Hl : length (ztake 4 input) = 4%nat)
    by (unfold ztake; unfold zlen in *; rewrite length_take; lia).
  pose proof (be_decode_encode 4) as _. split.
  - rewrite <- Hl at 1. rewrite be_encode_decode. by rewrite ztake_zdrop.
  - pose proof (be_decode_range (ztake 4 input)) as Hr. unfold zlen in Hr.
    rewrite Hl in Hr. exact Hr.
Qed.

Lemma parseUint64_prefix input n rest :
  parseUint64 input = Some (n, rest) -> exists used, input = used ++ rest.
Proof.
  unfold parseUint64. case_match; intros; simplify_eq.
  exists (ztake 8 input). by rewrite ztake_zdrop.
Qed.

Lemma parseString_be s rest :
  zlen (s ++ rest) < 2 ^ 32 ->
  parseString (be_encode 4 (zlen s) ++ s ++ rest) = Some (s, rest).
Proof.
  intros Hlen. unfold parseString. rewrite zlen_app, zlen_be_encode.
  pose proof (zlen_nonneg (s ++ rest)). pose proof (zlen_nonneg s). pose proof (zlen_nonneg rest).
  rewrite zlen_app in *. case_match; b2p; [lia|].
  rewrite ztake_app, zdrop_app by (by rewrite zlen_be_encode).
  rewrite be_decode_encode_small, zlen_app, u32_small by lia.
  case_match; b2p; [lia|].
  by rewrite ztake_app, zdrop_app.
Qed.

(** A parsed string is announced by its length and is followed by the rest. *)
Lemma parseString_sound input s rest :
  parseString input = Some (s, rest) ->
  input = be_encode 4 (zlen s) ++ s ++ rest /\ zlen s < 2 ^ 32.
Proof.
  intros H. pose proof (parseUint32_prefix input) as Hp.
  unfold parseString in H. unfold parseUint32 in Hp.
  destruct (zlen input <? 4); [done|].
  set (n := be_decode (ztake 4 input)) in *.
  destruct (Hp n _ eq_refl) as [Hin Hn]. clear Hp.
  case_match; b2p; simplify_eq.
  assert (Hle : n <= zlen (zdrop 4 input)).
  { etrans; [eassumption|]. apply Z.mod_le; [apply zlen_nonneg | lia]. }
  rewrite zlen_ztake by lia. split; [|lia]. rewrite ztake_zdrop. exact Hin.
Qed.

(** ** Multi-precision integers *)

Lemma land_top b : Z.land (b2z b) 0x80 = if 128 <=? b2z b then 128 else 0.
Proof. by destruct b. Qed.

Lemma bnot_value b : b2z (bnot b) = 255 - b2z b.
Proof. by destruct b. Qed.

Lemma bnot_invol b : bnot (bnot b) = b.
Proof. by destruct b. Qed.

Lemma map_bnot_invol l : map bnot (map bnot l) = l.
Proof. induction l; simpl; [done|]. by rewrite bnot_invol, IHl. Qed.

Lemma bitLen_bounds n : 0 < n -> 2 ^ (bitLen n - 1) <= n < 2 ^ bitLen n.
Proof.
  intros. unfold bitLen. case_match; b2p; [lia|]. rewrite Z.abs_eq by lia.
  replace (Z.log2 n + 1 - 1) with (Z.log2 n) by lia.
  replace (Z.log2 n + 1) with (Z.succ (Z.log2 n)) by lia. by apply Z.log2_spec.
Qed.

Lemma bitLen_pos n : 0 < n -> 1 <= bitLen n.
Proof. intros. unfold bitLen. case_match; b2p; [lia|]. pose proof (Z.log2_nonneg (Z.abs n)). lia. Qed.

Lemma bigBytes_zlen n : 0 <= n -> zlen (bigBytes n) = (bitLen n + 7) / 8.
Proof.
  intros. unfold bigBytes. rewrite zlen_be_encode.
  assert (0 <= bitLen n) by (destruct (decide (n = 0)) as [->|]; [done|]; pose proof (bitLen_pos n); lia).
  apply Z2Nat.id, Z.div_pos; lia.
Qed.

Lemma bigBytes_decode n : 0 <= n -> be_decode (bigBytes n) = n.
Proof.
  intros Hn. destruct (decide (n = 0)) as [->|]; [done|].
  unfold bigBytes. rewrite Z.abs_eq by lia. apply be_decode_encode_small.
  pose proof (bitLen_bounds n ltac:(lia)). pose proof (bitLen_pos n ltac:(lia)).
  rewrite Z2Nat.id by dlia. replace 256 with (2 ^ 8) by lia. rewrite <- Z.pow_mul_r by dlia.
  split; [lia|]. eapply Z.lt_le_trans; [apply H|]. apply Z.pow_le_mono_r; dlia.
Qed.

Lemma pow256 k : 0 <= k -> 256 ^ k = 2 ^ (8 * k).
Proof. intros. by rewrite Z.pow_mul_r by lia. Qed.

(** The first byte of [bigBytes n] has its top bit set exactly when the bit
    length is a multiple of eight. *)
Lemma bigBytes_top n : 0 < n ->
  exists c l, bigBytes n = c :: l /\ (128 <=? b2z c) = (bitLen n mod 8 =? 0).
Proof.
  intros Hn. pose proof (bigBytes_zlen n ltac:(lia)) as Hlen.
  pose proof (bigBytes_decode n ltac:(lia)) as Hdec.
  pose proof (bitLen_pos n Hn). pose proof (bitLen_bounds n Hn) as [Hlo Hhi].
  destruct (bigBytes n) as [|c l]; [rewrite zlen_nil in Hlen; dlia|].
  exists c, l. split; [done|]. rewrite zlen_cons in Hlen. rewrite be_decode_cons in Hdec.
  pose proof (be_decode_range l) as Hr. pose proof (zlen_nonneg l). pose proof (b2z_range c).
  rewrite pow256 in * by lia.
  apply eq_true_iff_eq. rewrite Z.leb_le, Z.eqb_eq. split; intros Hc.
  - assert (2 ^ (8 * zlen l + 7) <= n) by (rewrite Z.pow_add_r by lia; nia).
    assert (8 * zlen l + 7 < bitLen n) by (apply (Z.pow_lt_mono_r_iff 2); lia). dlia.
  - assert (8 * zlen l + 7 <= bitLen n - 1) by dlia.
    assert (2 ^ (8 * zlen l + 7) <= n) as Hge
      by (etrans; [|exact Hlo]; apply Z.pow_le_mono_r; lia).
    rewrite Z.pow_add_r in Hge by lia. nia.
Qed.

Lemma be_decode_map_bnot l : be_decode (map bnot l) = 256 ^ zlen l - 1 - be_decode l.
Proof.
  induction l as [|b l IH]; [done|]. simpl map.
  rewrite !be_decode_cons, IH, bnot_value, zlen_cons.
  replace (zlen (map bnot l)) with (zlen l) by (unfold zlen; by rewrite length_map).
  rewrite Z.pow_add_r by (pose proof (zlen_nonneg l); lia). lia.
Qed.

(** The contents (the string payload) of the encoding of [n]. *)
Definition mpint_contents (n : Z) : bytes :=
  if n <? 0 then
    let body := map bnot (bigBytes (- n - 1)) in
    if bitLen (- n - 1) mod 8 =? 0 then "255"%byte :: body else body
  else if n =? 0 then []
  else if bitLen n mod 8 =? 0 then "000"%byte :: bigBytes n else bigBytes n.

Lemma zlen_map {A B} (f : A -> B) l : zlen (map f l) = zlen l.
Proof. unfold zlen. by rewrite length_map. Qed.

Lemma mpint_contents_zlen n : 4 + zlen (mpint_contents n) = intLength n.
Proof.
  unfold mpint_contents, intLength.
  repeat case_match; b2p; rewrite ?zlen_cons, ?zlen_map, ?bigBytes_zlen, ?zlen_nil by lia; lia.
Qed.

Lemma pad_copy_exact (need : bool) pad body to :
  zlen to = (if need then 1 else 0) + zlen body ->
  pad_copy need pad body to = Ret ((if need then [pad] else []) ++ body, []).
Proof.
  intros Hlen. unfold pad_copy. pose proof (zlen_nonneg body). destruct need; simpl.
  - destruct to as [|x to]; [rewrite zlen_nil in Hlen; lia|]. rewrite zlen_cons in Hlen. simpl.
    rewrite Z.min_l, ztake_all, zdrop_all by lia. done.
  - rewrite Z.min_l, ztake_all, zdrop_all by lia. done.
Qed.

(** In a slice of [intLength n] bytes, [marshalInt] writes exactly the length
    and the contents, and nothing is left. *)
Lemma marshalInt_exact to n :
  zlen to = intLength n ->
  marshalInt to n = Ret (be_encode 4 (zlen (mpint_contents n)) ++ mpint_contents n, []).
Proof.
  intros Hto. pose proof (mpint_contents_zlen n) as Hc. pose proof (zlen_nonneg (mpint_contents n)).
  unfold marshalInt. case_match; b2p; [lia|].
  assert (Hd : zlen (zdrop 4 to) = zlen (mpint_contents n)) by (rewrite zlen_zdrop; lia).
  rewrite <- lengthBytes_be. unfold mpint_contents in *.
  destruct (n <? 0) eqn:Hneg; b2p.
  - set (m := - n - 1) in *. destruct (decide (m = 0)) as [->|Hm].
    + rewrite pad_copy_exact; [done|]. rewrite Hd. done.
    + destruct (bigBytes_top m ltac:(lia)) as (c & l & Hbb & Htop).
      rewrite Hbb in *. cbn [map] in *. rewrite land_top, bnot_value.
      assert (Hn : ((if 128 <=? 255 - b2z c then 128 else 0) =? 0) = (bitLen m mod 8 =? 0)).
      { rewrite <- Htop. repeat case_match; b2p; simpl; try done; lia. }
      rewrite Hn, pad_copy_exact by (rewrite Hd; destruct (bitLen m mod 8 =? 0); rewrite ?zlen_cons; lia).
      simpl. rewrite app_nil_r. by destruct (bitLen m mod 8 =? 0).
  - destruct (n =? 0) eqn:Hz; b2p; [simpl; by rewrite (zlen_zero _ Hd)|].
    destruct (bigBytes_top n ltac:(lia)) as (c & l & Hbb & Htop).
    rewrite Hbb in *. rewrite land_top.
    assert (Hn : negb ((if 128 <=? b2z c then 128 else 0) =? 0) = (bitLen n mod 8 =? 0)).
    { rewrite <- Htop. by destruct (128 <=? b2z c). }
    rewrite Hn, pad_copy_exact by (rewrite Hd; destruct (bitLen n mod 8 =? 0); rewrite ?zlen_cons; lia).
    simpl. rewrite app_nil_r. by destruct (bitLen n mod 8 =? 0).
Qed.

Lemma writeInt_value n :
  writeInt n = Ret (be_encode 4 (zlen (mpint_contents n)) ++ mpint_contents n).
Proof.
  unfold writeInt. rewrite marshalInt_exact; [done|].
  unfold zlen. rewrite repeat_length. pose proof (mpint_contents_zlen n).
  pose proof (zlen_nonneg (mpint_contents n)). lia.
Qed.

(** The sign test and the value of [parseInt] on the contents of [n]. *)
Lemma parse_mpint_contents n :
  (if match mpint_contents n with
      | [] => false
      | c :: _ => Z.land (b2z c) 0x80 =? 0x80
      end
   then - (be_decode (map bnot (mpint_contents n)) + 1)
   else be_decode (mpint_contents n)) = n.
Proof.
  unfold mpint_contents. destruct (n <? 0) eqn:Hneg; b2p.
  - destruct (decide (n = -1)) as [->|Hm]; [done|]. set (m := - n - 1).
    destruct (bigBytes_top m ltac:(lia)) as (c & l & Hbb & Htop).
    pose proof (bigBytes_decode m ltac:(lia)) as Hdec. rewrite Hbb in *.
    rewrite <- Htop. destruct (128 <=? b2z c) eqn:Hc.
    + replace (map bnot (_ :: map bnot (c :: l))) with ("000"%byte :: c :: l)
        by (cbn [map]; by rewrite bnot_invol, map_bnot_invol).
      change (Z.land (b2z "255"%byte) 128 =? 128) with true. cbv iota.
      rewrite be_decode_cons, Hdec. change (b2z "000"%byte) with 0. lia.
    + cbn [map]. rewrite land_top, bnot_value, bnot_invol, map_bnot_invol, Hdec. b2p.
      destruct (128 <=? 255 - b2z c) eqn:?; b2p; [|lia]. simpl. lia.
  - destruct (n =? 0) eqn:Hz; b2p; [subst; done|].
    destruct (bigBytes_top n ltac:(lia)) as (c & l & Hbb & Htop).
    pose proof (bigBytes_decode n ltac:(lia)) as Hdec. rewrite Hbb in *.
    rewrite <- Htop. destruct (128 <=? b2z c) eqn:Hc.
    + change (Z.land (b2z "000"%byte) 128 =? 128) with false.
      cbv iota. rewrite be_decode_cons, Hdec. change (b2z "000"%byte) with 0. lia.
    + rewrite land_top, Hc. done.
Qed.

Lemma parseInt_be n rest :
  zlen (mpint_contents n ++ rest) < 2 ^ 32 ->
  parseInt (be_encode 4 (zlen (mpint_contents n)) ++ mpint_contents n ++ rest) = Some (n, rest).
Proof.
  intros. unfold parseInt. rewrite parseString_be by done.
  pose proof (parse_mpint_contents n) as Hp.
  destruct (match mpint_contents n with [] => false | _ => _ end); by rewrite Hp.
Qed.

Lemma parseInt_prefix input n rest :
  parseInt input = Some (n, rest) -> exists used, input = used ++ rest.
Proof.
  unfold parseInt. destruct (parseString input) as [[s r]|] eqn:E; [|done].
  apply parseString_sound in E as [-> _]. intros H.
  exists (be_encode 4 (zlen s) ++ s). rewrite <- app_assoc.
  destruct (match s with [] => false | _ => _ end); by simplify_eq.
Qed.

Lemma parseNameList_prefix input l rest :
  parseNameList input = Some (l, rest) -> exists used, input = used ++ rest.
Proof.
  unfold parseNameList. destruct (parseString input) as [[s r]|] eqn:E; [|done].
  apply parseString_sound in E as [-> _]. intros H.
  exists (be_encode 4 (zlen s) ++ s). rewrite <- app_assoc.
  destruct (zlen s =? 0); by simplify_eq.
Qed.

(** A list of names that survives the comma-separated encoding: no name holds
    a comma, and the list is not the one empty name (which encodes like the
    empty list). *)
Definition names_ok (l : list bytes) : Prop :=
  Forall (fun w => comma ∉ w) l /\ l <> [[]].

Lemma join_byte_nil sep ws : join_byte sep ws = [] -> ws = [] \/ ws = [[]].
Proof.
  destruct ws as [|w [|w' ws]]; simpl; [by left| intros ->; by right |].
  intros H. by apply app_eq_nil in H as [_ ?].
Qed.

Lemma parseNameList_be l rest :
  names_ok l -> zlen (join_byte comma l ++ rest) < 2 ^ 32 ->
  parseNameList (be_encode 4 (zlen (join_byte comma l)) ++ join_byte comma l ++ rest)
  = Some (l, rest).
Proof.
  intros [Hl Hne] Hlen. unfold parseNameList. rewrite parseString_be by done.
  destruct (zlen _ =? 0) eqn:E; b2p.
  - apply zlen_zero, join_byte_nil in E as [-> | ->]; done.
  - rewrite split_join; [done| |done]. intros ->. done.
Qed.

(** ** Properties *)

(** the multi-precision integer codec is exact and loses nothing.  For
    every integer [n] (of either sign, whose encoding fits in a packet of less
    than 2^32 bytes), [writeInt n] does not panic, produces [intLength n]
    bytes, and [parseInt] reads [n] back in front of any continuation. *)
Theorem mpint_roundtrip (n : Z) (rest : bytes) :
  intLength n + zlen rest < 2 ^ 32 ->
  exists buf, writeInt n = Ret buf /\ zlen buf = intLength n /\
    parseInt (buf ++ rest) = Some (n, rest).
Proof.
  intros Hlen. exists (be_encode 4 (zlen (mpint_contents n)) ++ mpint_contents n).
  pose proof (mpint_contents_zlen n). rewrite writeInt_value, <- app_assoc.
  autorewrite with ssh_len. split_and!; [done | lia |].
  apply parseInt_be. rewrite zlen_app. lia.
Qed.

Lemma mpint_roundtrip_witness :
  exists buf, writeInt (-129) = Ret buf /\ zlen buf = intLength (-129) /\
    parseInt (buf ++ str "tail") = Some (-129, str "tail").
Proof. apply (mpint_roundtrip (-129) (str "tail")). vm_compute. reflexivity. Defined.

(** the string parser accepts exactly the strings the encoder produces:
    on inputs shorter than 2^32 bytes, [parseString] returns [(s, rest)] if
    and only if the input is [appendString nil s] followed by [rest]. *)
Theorem parseString_iff (input s rest : bytes) :
  zlen input < 2 ^ 32 ->
  parseString input = Some (s, rest) <-> input = appendString [] s ++ rest.
Proof.
  intros Hlen. rewrite appendString_be, app_nil_l, <- app_assoc. split.
  - intros H. by apply parseString_sound in H as [-> _].
  - intros ->. apply parseString_be. autorewrite with ssh_len in Hlen. rewrite zlen_app. lia.
Qed.

Lemma parseString_iff_witness :
  parseString (appendString [] (str "ssh-rsa") ++ str "x") = Some (str "ssh-rsa", str "x").
Proof. apply (parseString_iff (appendString [] (str "ssh-rsa") ++ str "x")); reflexivity. Defined.

(** a name list without commas in its names survives the comma-separated
    encoding, except that the list of one empty name is read back as the empty
    list. *)
Theorem nameList_roundtrip (l : list bytes) (rest : bytes) :
  Forall (fun w => comma ∉ w) l ->
  zlen (join_byte comma l) + zlen rest < 2 ^ 32 ->
  parseNameList (appendString [] (join_byte comma l) ++ rest)
  = Some (if decide (l = [[]]) then [] else l, rest).
Proof.
  intros Hl Hlen. rewrite appendString_be, app_nil_l, <- app_assoc.
  destruct (decide (l = [[]])) as [->|Hne].
  - apply (parseNameList_be [] rest); [|done]. split; [constructor | done].
  - apply parseNameList_be; [done|]. by rewrite zlen_app.
Qed.

Lemma nameList_roundtrip_witness :
  parseNameList (appendString [] (join_byte comma [str "aes128-ctr"; str "none"]) ++ [])
  = Some (if decide ([str "aes128-ctr"; str "none"] = [[]]) then [] else [str "aes128-ctr"; str "none"], []).
Proof.
  apply (nameList_roundtrip [str "aes128-ctr"; str "none"] []); [|reflexivity].
  decide_vm.
Defined.
