(* ===== verification/Codec.v ===== *)
(** * The struct codec of messages.go

    [Marshal] and [Unmarshal] walk a Go struct by reflection.  Here a struct
    type is a description ([structType]: its name, the [sshtype] tag of its
    first field, its fields with their reflected kinds), a struct value is the
    tuple of its fields ([struct_val]), and a message type is an instance of
    [SSHMessage], which ties a record to its description.

    [FieldCodec] and [StructCodec] state what the struct codec needs of a kind
    and of a field list: the encoding appended by [Marshal] and that
    [Unmarshal] reads it back.  The theorems on [Marshal]/[Unmarshal] are proved
    against these two classes; Messages.v gets them for every message type by
    instance search. *)

From S2P Require Import Prelude Wire.

(** ** Reflected types *)

(** The kinds the two switches distinguish.  [KArrayOther], [KSliceOther] and
    [KPtrOther] are an array, slice or pointer of an element type that is not
    handled, [KOther] any kind with no case. *)
Inductive kind :=
| KBool
| KArray (n : nat)
| KArrayOther
| KUint64
| KUint32
| KUint8
| KString
| KBytes (rest : bool)
| KNameList
| KSliceOther
| KBigInt
| KPtrOther
| KOther.

Definition kind_type (k : kind) : Type :=
  match k with
  | KBool => bool
  | KArray _ => bytes
  | KUint64 | KUint32 | KUint8 => Z
  | KString | KBytes _ => bytes
  | KNameList => list bytes
  | KBigInt => Z
  | _ => unit
  end.

Record structType := StructType {
  st_name : string;
  st_sshtype : string;
  st_fields : list (string * kind)
}.

Fixpoint struct_val (fs : list (string * kind)) : Type :=
  match fs with
  | [] => unit
  | (_, k) :: fs' => (kind_type k * struct_val fs')%type
  end.

Class SSHMessage (T : Type) := {
  typeOf : structType;
  fieldsOf : T -> struct_val (st_fields typeOf);
  ofFields : struct_val (st_fields typeOf) -> T;
  ofFields_fieldsOf : forall m, ofFields (fieldsOf m) = m
}.
Arguments typeOf T {_}.

(** ** Errors *)

Definition parseError (tag : Z) : error :=
  Errorf "ssh: parse error in message type %d" [FNum tag].

Definition unexpectedMessageError (expected got : Z) : error :=
  Errorf "ssh: unexpected message type %d (expected %d)" [FNum got; FNum expected].

Definition errShortRead : error := errNew "ssh: short read".

Definition fieldError (t field : string) (problem : string) : error :=
  Errorf "ssh: unmarshal error for field %s of type %s%s"
    [FStr (str field); FStr (str t);
     FStr (match problem with EmptyString => [] | _ => str ": " ++ str problem end)].

(** ** Type tags *)

(** [structType.Field(0)] panics on a struct without fields; tags that are not
    numbers are skipped. *)
Definition typeTags (t : structType) : outcome (list Z) :=
  match st_fields t with
  | [] => Panic "reflect: Field index out of bounds"
  | _ => Ret (omap (fun tag => u8 <$> atoi tag) (split_byte "|" (str (st_sshtype t))))
  end.

(** ** Unmarshal *)

Definition unmarshalField (tname fname : string) (k : kind) (data : bytes)
  : outcome (kind_type k * bytes) :=
  match k with
  | KBool =>
      match data with
      | [] => Fail errShortRead
      | b :: data' => Ret (negb (b2z b =? 0), data')
      end
  | KArray n =>
      if zlen data <? Z.of_nat n then Fail errShortRead
      else Ret (take n data, drop n data)
  | KArrayOther => Fail (fieldError tname fname "array of unsupported type")
  | KUint64 => ok_or (parseUint64 data) errShortRead
  | KUint32 => ok_or (parseUint32 data) errShortRead
  | KUint8 =>
      match data with
      | [] => Fail errShortRead
      | b :: data' => Ret (b2z b, data')
      end
  | KString => ok_or (parseString data) (fieldError tname fname "")
  | KBytes true => Ret (data, [])
  | KBytes false => ok_or (parseString data) errShortRead
  | KNameList => ok_or (parseNameList data) errShortRead
  | KSliceOther => Fail (fieldError tname fname "slice of unsupported type")
  | KBigInt => ok_or (parseInt data) errShortRead
  | KPtrOther => Fail (fieldError tname fname "pointer to unsupported type")
  | KOther => Fail (fieldError tname fname "unsupported type")
  end.

Fixpoint unmarshalFields (tname : string) (fs : list (string * kind)) (data : bytes)
  : outcome (struct_val fs * bytes) :=
  match fs with
  | [] => Ret (tt, data)
  | (fname, k) :: fs' =>
      let? (v, data) := unmarshalField tname fname k data in
      let? (vs, data) := unmarshalFields tname fs' data in
      Ret ((v, vs), data)
  end.

Definition Unmarshal (t : structType) (data : bytes) : outcome (struct_val (st_fields t)) :=
  let? expectedTypes := typeTags t in
  let expectedType := default 0 (head expectedTypes) in
  match data with
  | [] => Fail (parseError expectedType)
  | d0 :: data' =>
      let? data :=
        match expectedTypes with
        | [] => Ret data
        | _ =>
            let goodType := existsb (fun e => (0 <? e) && (b2z d0 =? e)) expectedTypes in
            if goodType then Ret data'
            else Fail (Errorf "ssh: unexpected message type %d (expected one of %v)"
                         [FNum (b2z d0); FNums expectedTypes])
        end in
      let? (v, data) := unmarshalFields (st_name t) (st_fields t) data in
      if negb (zlen data =? 0) then Fail (parseError expectedType) else Ret v
  end.

(** ** Marshal *)

Definition marshalField (out : bytes) (k : kind) : kind_type k -> outcome bytes :=
  match k with
  | KBool => fun v => Ret (out ++ [if v then z2b 1 else z2b 0])
  | KArray n => fun v => Ret (out ++ take n v)
  | KArrayOther => fun _ => Panic "array of non-uint8"
  | KUint32 => fun v => Ret (appendU32 out (u32 v))
  | KUint64 => fun v => Ret (appendU64 out (u64 v))
  | KUint8 => fun v => Ret (out ++ [z2b v])
  | KString => fun s => Ret (appendInt out (zlen s) ++ s)
  | KBytes rest => fun s =>
      let out := if rest then out else appendInt out (zlen s) in
      Ret (out ++ s)
  | KNameList => fun l =>
      match l with
      | [] => Ret (appendU32 out 0)
      | _ =>
          let names := join_byte comma l in
          Ret (out ++ be_encode 4 (u32 (zlen names)) ++ names)
      end
  | KSliceOther => fun _ => Panic "slice of unknown type"
  | KBigInt => fun n =>
      let needed := intLength n in
      let? (buf, _) := marshalInt (repeat "000"%byte (Z.to_nat needed)) n in
      Ret (out ++ buf)
  | KPtrOther => fun _ => Panic "pointer to unknown type"
  | KOther => fun _ => Ret out
  end.

Fixpoint marshalFields (out : bytes) (fs : list (string * kind)) : struct_val fs -> outcome bytes :=
  match fs with
  | [] => fun _ => Ret out
  | (_, k) :: fs' => fun '(v, vs) =>
      let? out := marshalField out k v in
      marshalFields out fs' vs
  end.

Definition marshalStruct (out : bytes) (t : structType) (v : struct_val (st_fields t))
  : outcome bytes :=
  let? msgTypes := typeTags t in
  let out := match msgTypes with [] => out | tag :: _ => out ++ [z2b tag] end in
  marshalFields out (st_fields t) v.

Definition Marshal {T} `{SSHMessage T} (msg : T) : outcome bytes :=
  marshalStruct [] (typeOf T) (fieldsOf msg).

(** [Unmarshal(data, &msg)] for a message type. *)
Definition unmarshalMsg (T : Type) `{SSHMessage T} (data : bytes) : outcome T :=
  let? v := Unmarshal (typeOf T) data in
  Ret (ofFields v).

(** ** What the codec needs of a kind and of a field list *)

Class FieldCodec (k : kind) := {
  field_ok : kind_type k -> Prop;
  field_enc : kind_type k -> bytes;
  marshalField_enc : forall out v, marshalField out k v = Ret (out ++ field_enc v);
  unmarshalField_enc : forall tn fn v rest, field_ok v -> zlen (field_enc v ++ rest) < 2 ^ 32 ->
    unmarshalField tn fn k (field_enc v ++ rest) = Ret (v, rest)
}.
Arguments field_ok k {_} _.
Arguments field_enc k {_} _.

Class StructCodec (fs : list (string * kind)) := {
  struct_ok : struct_val fs -> Prop;
  struct_enc : struct_val fs -> bytes;
  marshalFields_enc : forall out v, marshalFields out fs v = Ret (out ++ struct_enc v);
  unmarshalFields_enc : forall tn v, struct_ok v -> zlen (struct_enc v) < 2 ^ 32 ->
    unmarshalFields tn fs (struct_enc v) = Ret (v, [])
}.
Arguments struct_ok fs {_} _.
Arguments struct_enc fs {_} _.

(** *** The kinds *)

#[export] Program Instance bool_codec : FieldCodec KBool := {|
  field_ok _ := True;
  field_enc v := [if v then z2b 1 else z2b 0]
|}.
Next Obligation. done. Qed.
Next Obligation. intros tn fn [] rest _ _; done. Qed.

#[export] Program Instance array_codec n : FieldCodec (KArray n) := {|
  field_ok v := length v = n;
  field_enc v := take n v
|}.
Next Obligation. done. Qed.
Next Obligation.
  intros n tn fn v rest Hv _. simpl in *. rewrite take_ge by lia.
  destruct (zlen (v ++ rest) <? Z.of_nat n) eqn:E; b2p.
  - rewrite zlen_app in E. pose proof (zlen_nonneg rest). unfold zlen in *. lia.
  - by rewrite <- Hv, take_app_length, drop_app_length.
Qed.

#[export] Program Instance uint32_codec : FieldCodec KUint32 := {|
  field_ok v := 0 <= v < 2 ^ 32;
  field_enc v := be_encode 4 v
|}.
Next Obligation. intros out v. simpl. by rewrite appendU32_be, be_encode_u32. Qed.
Next Obligation. intros tn fn v rest Hv _. unfold unmarshalField. by rewrite parseUint32_be. Qed.

#[export] Program Instance uint64_codec : FieldCodec KUint64 := {|
  field_ok v := 0 <= v < 2 ^ 64;
  field_enc v := be_encode 8 v
|}.
Next Obligation.
  intros out v. unfold marshalField. by rewrite appendU64_be, be_encode_u64.
Qed.
Next Obligation. intros tn fn v rest Hv _. unfold unmarshalField. by rewrite parseUint64_be. Qed.

#[export] Program Instance uint8_codec : FieldCodec KUint8 := {|
  field_ok v := 0 <= v < 256;
  field_enc v := [z2b v]
|}.
Next Obligation. done. Qed.
Next Obligation. intros tn fn v rest Hv _. simpl in *. by rewrite b2z_z2b_small. Qed.

Lemma appendInt_be out n : appendInt out n = out ++ be_encode 4 n.
Proof. unfold appendInt. by rewrite appendU32_be, be_encode_u32. Qed.

Lemma string_body_lt s rest :
  zlen ((be_encode 4 (zlen s) ++ s) ++ rest) < 2 ^ 32 -> zlen (s ++ rest) < 2 ^ 32.
Proof. autorewrite with ssh_len. lia. Qed.

#[export] Program Instance string_codec : FieldCodec KString := {|
  field_ok _ := True;
  field_enc s := be_encode 4 (zlen s) ++ s
|}.
Next Obligation.
  intros out s. unfold marshalField. by rewrite appendInt_be, <- app_assoc.
Qed.
Next Obligation.
  intros tn fn s rest _ Hl. unfold unmarshalField.
  by rewrite <- app_assoc, parseString_be by by apply string_body_lt.
Qed.

#[export] Program Instance bytes_codec : FieldCodec (KBytes false) := {|
  field_ok _ := True;
  field_enc s := be_encode 4 (zlen s) ++ s
|}.
Next Obligation.
  intros out s. unfold marshalField. by rewrite appendInt_be, <- app_assoc.
Qed.
Next Obligation.
  intros tn fn s rest _ Hl. unfold unmarshalField.
  by rewrite <- app_assoc, parseString_be by by apply string_body_lt.
Qed.

#[export] Program Instance namelist_codec : FieldCodec KNameList := {|
  field_ok l := names_ok l;
  field_enc l := be_encode 4 (zlen (join_byte comma l)) ++ join_byte comma l
|}.
Next Obligation.
  intros out [|w l]; unfold marshalField.
  - by rewrite appendU32_be.
  - by rewrite be_encode_u32.
Qed.
Next Obligation.
  intros tn fn l rest Hok Hl. unfold unmarshalField.
  by rewrite <- app_assoc, parseNameList_be by (done || by apply string_body_lt).
Qed.

#[export] Program Instance bigint_codec : FieldCodec KBigInt := {|
  field_ok _ := True;
  field_enc n := be_encode 4 (zlen (mpint_contents n)) ++ mpint_contents n
|}.
Next Obligation.
  intros out n. unfold marshalField. pose proof (writeInt_value n) as H.
  unfold writeInt in H. destruct (marshalInt _ n) as [[buf ?]| |]; by simplify_eq/=.
Qed.
Next Obligation.
  intros tn fn n rest _ Hl. unfold unmarshalField.
  by rewrite <- app_assoc, parseInt_be by by apply string_body_lt.
Qed.

(** *** Field lists: a [rest] field may only come last *)

#[export] Program Instance struct_nil_codec : StructCodec [] := {|
  struct_ok _ := True;
  struct_enc _ := []
|}.
Next Obligation. intros out v. simpl. by rewrite app_nil_r. Qed.
Next Obligation. intros tn [] _ _. done. Qed.

#[export] Program Instance struct_cons_codec f k fs `{FieldCodec k, StructCodec fs} :
  StructCodec ((f, k) :: fs) := {|
  struct_ok v := field_ok k (fst v) /\ struct_ok fs (snd v);
  struct_enc v := field_enc k (fst v) ++ struct_enc fs (snd v)
|}.
Next Obligation.
  intros f k fs ?? out [v vs]. cbn [marshalFields fst snd]. rewrite marshalField_enc. simpl.
  by rewrite marshalFields_enc, app_assoc.
Qed.
Next Obligation.
  intros f k fs ?? tn [v vs] [Hv Hvs] Hl. cbn [unmarshalFields fst snd] in *.
  rewrite unmarshalField_enc by done. simpl.
  rewrite unmarshalFields_enc; [done..|].
  rewrite zlen_app in Hl. pose proof (zlen_nonneg (field_enc k v)). lia.
Qed.

#[export] Program Instance struct_rest_codec f : StructCodec [(f, KBytes true)] := {|
  struct_ok _ := True;
  struct_enc v := fst v
|}.
Next Obligation. intros f out [v []]. done. Qed.
Next Obligation. intros f tn [v []] _ _. done. Qed.

(** ** Lemmas on Marshal and Unmarshal *)

Definition tag_bytes (tags : list Z) : bytes :=
  match tags with [] => [] | t :: _ => [z2b t] end.

Section Structs.
Context (t : structType) `{!StructCodec (st_fields t)}.
Implicit Types v : struct_val (st_fields t).

Lemma marshalStruct_value tags v :
  typeTags t = Ret tags -> marshalStruct [] t v = Ret (tag_bytes tags ++ struct_enc (st_fields t) v).
Proof.
  intros Ht. unfold marshalStruct. rewrite Ht. cbn [obind].
  rewrite marshalFields_enc. by destruct tags.
Qed.

(** A struct without a tag. *)
Lemma Unmarshal_untagged v :
  typeTags t = Ret [] -> struct_enc (st_fields t) v <> [] -> zlen (struct_enc (st_fields t) v) < 2 ^ 32 ->
  struct_ok (st_fields t) v -> Unmarshal t (struct_enc (st_fields t) v) = Ret v.
Proof.
  intros Ht Hne Hl Hok. unfold Unmarshal. rewrite Ht. cbn [obind].
  destruct (struct_enc _ _) as [|d0 data'] eqn:E; [done|]. rewrite <- E. cbn [obind].
  by rewrite unmarshalFields_enc by (try done; rewrite E; lia).
Qed.

(** A struct with a tag: any of the tags it accepts will do. *)
Lemma Unmarshal_tagged tags tag v :
  typeTags t = Ret tags -> In tag tags -> 0 < tag < 256 -> zlen (struct_enc (st_fields t) v) < 2 ^ 32 ->
  struct_ok (st_fields t) v -> Unmarshal t (z2b tag :: struct_enc (st_fields t) v) = Ret v.
Proof.
  intros Ht Hin Hpos Hl Hok. unfold Unmarshal. rewrite Ht. cbn [obind].
  destruct tags as [|t0 tags]; [done|].
  replace (existsb _ (t0 :: tags)) with true.
  2: { symmetry. apply existsb_exists. exists tag. split; [done|].
       rewrite b2z_z2b_small by lia. apply andb_true_iff. lia. }
  cbn [obind]. by rewrite unmarshalFields_enc by done.
Qed.
End Structs.

Section Messages.
Context {T : Type} `{SSHMessage T} `{!StructCodec (st_fields (typeOf T))}.

(** A message within the limits of the format. *)
Definition msg_ok (m : T) : Prop := struct_ok (st_fields (typeOf T)) (fieldsOf m).

Lemma Marshal_value tags (m : T) :
  typeTags (typeOf T) = Ret tags ->
  Marshal m = Ret (tag_bytes tags ++ struct_enc (st_fields (typeOf T)) (fieldsOf m)).
Proof. apply marshalStruct_value. Qed.

Lemma Unmarshal_value tags (m : T) p :
  typeTags (typeOf T) = Ret tags -> Forall (fun t => 0 < t < 256) tags ->
  Marshal m = Ret p -> p <> [] -> zlen p < 2 ^ 32 -> msg_ok m ->
  unmarshalMsg T p = Ret m.
Proof.
  intros Ht Hpos Hm Hne Hl Hok. rewrite (Marshal_value tags) in Hm by done. simplify_eq.
  unfold unmarshalMsg. rewrite zlen_app in Hl. pose proof (zlen_nonneg (tag_bytes tags)).
  assert (zlen (struct_enc (st_fields (typeOf T)) (fieldsOf m)) < 2 ^ 32) by lia.
  destruct tags as [|t tags]; simpl in *.
  - rewrite Unmarshal_untagged by done. cbn [obind]. by rewrite ofFields_fieldsOf.
  - apply Forall_cons_iff in Hpos as [Ht0 _].
    rewrite (Unmarshal_tagged _ (t :: tags)) by (done || by left). cbn [obind]. by rewrite ofFields_fieldsOf.
Qed.
End Messages.

Arguments msg_ok {T _ _} _.

(** *** Parsing never panics and never reads past its input *)

Lemma unmarshalField_prefix tn fn k data v rest :
  unmarshalField tn fn k data = Ret (v, rest) -> exists used, data = used ++ rest.
Proof.
  destruct k as [|n| | | | | |[]| | | | |]; simpl; try done.
  - destruct data as [|b data]; [done|]. intros; simplify_eq. by exists [b].
  - destruct (zlen data <? Z.of_nat n); [done|]. intros; simplify_eq.
    exists (take n data). by rewrite take_drop.
  - destruct (parseUint64 data) as [[u r]|] eqn:E; [|done]. simpl. intros; simplify_eq.
    by eapply parseUint64_prefix.
  - destruct (parseUint32 data) as [[u r]|] eqn:E; [|done]. simpl. intros; simplify_eq.
    apply parseUint32_prefix in E as [-> _]. eauto.
  - destruct data as [|b data]; [done|]. intros; simplify_eq. by exists [b].
  - destruct (parseString data) as [[u r]|] eqn:E; [|done]. simpl. intros; simplify_eq.
    apply parseString_sound in E as [-> _]. eexists. by rewrite app_assoc.
  - intros; simplify_eq. eexists. by rewrite app_nil_r.
  - destruct (parseString data) as [[u r]|] eqn:E; [|done]. simpl. intros; simplify_eq.
    apply parseString_sound in E as [-> _]. eexists. by rewrite app_assoc.
  - destruct (parseNameList data) as [[u r]|] eqn:E; [|done]. simpl. intros; simplify_eq.
    by eapply parseNameList_prefix.
  - destruct (parseInt data) as [[u r]|] eqn:E; [|done]. simpl. intros; simplify_eq.
    by eapply parseInt_prefix.
Qed.

Lemma ok_or_not_panic {A} (o : option A) e : panics (ok_or o e) = false.
Proof. by destruct o. Qed.

Lemma obind_not_panic {A B} (m : outcome A) (k : A -> outcome B) :
  panics m = false -> (forall a, m = Ret a -> panics (k a) = false) -> panics (obind m k) = false.
Proof. destruct m; naive_solver. Qed.

Lemma unmarshalField_not_panic tn fn k data : panics (unmarshalField tn fn k data) = false.
Proof.
  destruct k as [|n| | | | | |[]| | | | |]; simpl; try done; try apply ok_or_not_panic.
  - by destruct data.
  - by destruct (_ <? _).
  - by destruct data.
Qed.

Lemma unmarshalFields_not_panic tn fs data : panics (unmarshalFields tn fs data) = false.
Proof.
  revert data. induction fs as [|[f k] fs IH]; intros data; [done|]. simpl.
  apply obind_not_panic; [apply unmarshalField_not_panic|]. intros [v d] _.
  apply obind_not_panic; [apply IH|]. by intros [vs d'] _.
Qed.

Lemma Unmarshal_not_panic t data : st_fields t <> [] -> panics (Unmarshal t data) = false.
Proof.
  intros Hne. unfold Unmarshal. apply obind_not_panic.
  - unfold typeTags. by destruct (st_fields t).
  - intros tags _. destruct data as [|d0 data]; [done|].
    apply obind_not_panic; [destruct tags; [done|]; by destruct (existsb _ _)|].
    intros d _. apply obind_not_panic; [apply unmarshalFields_not_panic|].
    intros [v r] _. by destruct (negb _).
Qed.

(** *** What a parsed struct satisfies *)

(** Numbers are within their width. *)
Definition field_range (k : kind) : kind_type k -> Prop :=
  match k with
  | KUint64 => fun v => 0 <= v < 2 ^ 64
  | KUint32 => fun v => 0 <= v < 2 ^ 32
  | KUint8 => fun v => 0 <= v < 2 ^ 8
  | _ => fun _ => True
  end.

Fixpoint struct_range (fs : list (string * kind)) : struct_val fs -> Prop :=
  match fs with
  | [] => fun _ => True
  | (_, k) :: fs' => fun '(v, vs) => field_range k v /\ struct_range fs' vs
  end.

(** The bytes of its strings. *)
Definition field_size (k : kind) : kind_type k -> nat :=
  match k with
  | KString | KBytes _ => fun v : bytes => length v
  | _ => fun _ => O
  end.

Fixpoint struct_size (fs : list (string * kind)) : struct_val fs -> nat :=
  match fs with
  | [] => fun _ => O
  | (_, k) :: fs' => fun '(v, vs) => (field_size k v + struct_size fs' vs)%nat
  end.

Lemma be_decode_width (n : nat) (input : bytes) :
  Z.of_nat n <= zlen input -> 0 <= be_decode (ztake (Z.of_nat n) input) < 256 ^ Z.of_nat n.
Proof.
  intros Hl. pose proof (be_decode_range (ztake (Z.of_nat n) input)) as Hr.
  by rewrite zlen_ztake in Hr by lia.
Qed.

Lemma unmarshalField_range tn fn k data v rest :
  unmarshalField tn fn k data = Ret (v, rest) -> field_range k v.
Proof.
  destruct k; try done; cbn [unmarshalField field_range].
  - unfold parseUint64. destruct (zlen data <? 8) eqn:E; [done|]. b2p. intros; simplify_eq/=.
    by apply (be_decode_width 8).
  - unfold parseUint32. destruct (zlen data <? 4) eqn:E; [done|]. b2p. intros; simplify_eq/=.
    by apply (be_decode_width 4).
  - destruct data as [|b data]; [done|]. intros; simplify_eq. apply b2z_range.
Qed.

Lemma unmarshalField_size tn fn k data v rest :
  unmarshalField tn fn k data = Ret (v, rest) -> (field_size k v + length rest <= length data)%nat.
Proof.
  intros Hu. destruct (unmarshalField_prefix _ _ _ _ _ _ Hu) as [used Hd].
  destruct k as [|n| | | | | |[]| | | | |]; try (subst data; cbn [field_size]; rewrite length_app; lia).
  - cbn [unmarshalField] in Hu. destruct (parseString data) as [[u r]|] eqn:E; [|done]. simplify_eq/=.
    apply parseString_sound in E as [-> _]. rewrite !length_app. lia.
  - simplify_eq/=. by rewrite app_nil_r, Nat.add_0_r.
  - cbn [unmarshalField] in Hu. destruct (parseString data) as [[u r]|] eqn:E; [|done]. simplify_eq/=.
    apply parseString_sound in E as [-> _]. rewrite !length_app. lia.
Qed.

Lemma unmarshalFields_sound tn fs data v rest :
  unmarshalFields tn fs data = Ret (v, rest) ->
  struct_range fs v /\ (struct_size fs v + length rest <= length data)%nat.
Proof.
  revert data v rest. induction fs as [|[f k] fs IH]; intros data v rest Hu; cbn [unmarshalFields] in Hu.
  - simplify_eq/=. by split.
  - apply obind_ret in Hu as ([x d] & Hx & Hu). apply obind_ret in Hu as ([xs d'] & Hxs & Hu).
    simplify_eq. destruct (IH _ _ _ Hxs) as [Hr Hs]. cbn [struct_range struct_size].
    pose proof (unmarshalField_size _ _ _ _ _ _ Hx). split; [|lia].
    split; [by eapply unmarshalField_range | done].
Qed.

(** A parsed struct has its numbers in range and no more bytes than the input. *)
Lemma Unmarshal_sound t data v :
  Unmarshal t data = Ret v ->
  struct_range (st_fields t) v /\ (struct_size (st_fields t) v <= length data)%nat.
Proof.
  unfold Unmarshal. intros Hu. apply obind_ret in Hu as (tags & _ & Hu). destruct data as [|d0 data]; [done|].
  apply obind_ret in Hu as (d & Hd & Hu). apply obind_ret in Hu as ([x r] & Hx & Hu).
  destruct (negb (zlen r =? 0)); [done|]. simplify_eq. apply unmarshalFields_sound in Hx as [Hr Hs]. split; [done|].
  assert (length d <= length (d0 :: data))%nat; [|lia].
  destruct tags; [by simplify_eq|]. destruct (existsb _ _); simplify_eq/=. lia.
Qed.

(** ** Properties *)

(** [Unmarshal] inverts [Marshal] for every message type whose fields have
    supported kinds (with a [rest] field only at the end): a message within the
    limits of the format (numbers in their width, arrays of their length, name
    lists without commas), whose packet is not empty and shorter than 2^32
    bytes, is read back unchanged from the bytes [Marshal] produced. *)
Theorem Unmarshal_Marshal (T : Type) `{SSHMessage T} `{!StructCodec (st_fields (typeOf T))}
    (tags : list Z) (m : T) (p : bytes) :
  typeTags (typeOf T) = Ret tags -> Forall (fun t => 0 < t < 256) tags ->
  Marshal m = Ret p -> p <> [] -> zlen p < 2 ^ 32 -> msg_ok m ->
  unmarshalMsg T p = Ret m.
Proof. apply Unmarshal_value. Qed.

(** A value of an untagged struct is read back. *)
Lemma plain_struct_roundtrip t `{!StructCodec (st_fields t)} v : typeTags t = Ret [] -> struct_ok (st_fields t) v ->
  struct_enc (st_fields t) v <> [] -> zlen (struct_enc (st_fields t) v) < 2 ^ 32 ->
  exists p, marshalStruct [] t v = Ret p /\ Unmarshal t p = Ret v.
Proof.
  intros Ht Hok Hne Hl. exists (struct_enc (st_fields t) v). split; [by rewrite (marshalStruct_value _ []) | by apply Unmarshal_untagged].
Qed.
