(* ===== verification/Messages.v ===== *)
(** * SSH messages (messages.go)

    The message numbers, the message structs with their struct types, and
    [decode], which picks the struct for a packet by its first byte.  Also
    [buildDataSignedForAuth] of common.go, the blob a client signs to prove
    possession of a key, which is an encoding of the same kind.

    Each record is the Go struct of the same name (its fields are prefixed with
    the struct's name); the [SSHMessage] instance ties it to the description
    that reflection gives, and the [StructCodec] of its fields is found by
    instance search. *)

From S2P Require Import Prelude Wire Codec.

(** ** Message numbers *)

Definition msgIgnore : Z := 2.
Definition msgUnimplemented : Z := 3.
Definition msgDebug : Z := 4.
Definition msgNewKeys : Z := 21.
Definition msgUserAuthSuccess : Z := 52.
Definition msgUserAuthBanner : Z := 53.
Definition msgDisconnect : Z := 1.
Definition msgKexInit : Z := 20.
Definition msgKexDHInit : Z := 30.
Definition msgKexECDHInit : Z := 30.
Definition msgKexECDHReply : Z := 31.
Definition msgKexDHReply : Z := 31.
Definition msgServiceRequest : Z := 5.
Definition msgServiceAccept : Z := 6.
Definition msgUserAuthRequest : Z := 50.
Definition msgUserAuthFailure : Z := 51.
Definition msgUserAuthInfoRequest : Z := 60.
Definition msgUserAuthInfoResponse : Z := 61.
Definition msgChannelOpen : Z := 90.
Definition msgChannelExtendedData : Z := 95.
Definition msgChannelData : Z := 94.
Definition msgChannelOpenConfirm : Z := 91.
Definition msgChannelOpenFailure : Z := 92.
Definition msgChannelRequest : Z := 98.
Definition msgChannelSuccess : Z := 99.
Definition msgChannelFailure : Z := 100.
Definition msgChannelClose : Z := 97.
Definition msgChannelEOF : Z := 96.
Definition msgGlobalRequest : Z := 80.
Definition msgRequestSuccess : Z := 81.
Definition msgRequestFailure : Z := 82.
Definition msgChannelWindowAdjust : Z := 93.
Definition msgUserAuthPubKeyOk : Z := 60.

(** ** Message structs *)

Record disconnectMsg := mk_disconnectMsg {
  disconnectMsg_Reason : Z;
  disconnectMsg_Message : bytes;
  disconnectMsg_Language : bytes
}.

Definition disconnectMsg_struct : structType :=
  StructType "disconnectMsg" "1"
    [("Reason", KUint32);
     ("Message", KString);
     ("Language", KString)].

#[export] Instance disconnectMsg_message : SSHMessage disconnectMsg := {|
  typeOf := disconnectMsg_struct;
  fieldsOf m := (disconnectMsg_Reason m, (disconnectMsg_Message m, (disconnectMsg_Language m, tt)));
  ofFields '(v0, (v1, (v2, _))) := mk_disconnectMsg v0 v1 v2;
  ofFields_fieldsOf m := match m with mk_disconnectMsg _ _ _ => eq_refl end
|}.

Record kexInitMsg := mk_kexInitMsg {
  kexInitMsg_Cookie : bytes;
  kexInitMsg_KexAlgos : list bytes;
  kexInitMsg_ServerHostKeyAlgos : list bytes;
  kexInitMsg_CiphersClientServer : list bytes;
  kexInitMsg_CiphersServerClient : list bytes;
  kexInitMsg_MACsClientServer : list bytes;
  kexInitMsg_MACsServerClient : list bytes;
  kexInitMsg_CompressionClientServer : list bytes;
  kexInitMsg_CompressionServerClient : list bytes;
  kexInitMsg_LanguagesClientServer : list bytes;
  kexInitMsg_LanguagesServerClient : list bytes;
  kexInitMsg_FirstKexFollows : bool;
  kexInitMsg_Reserved : Z
}.

Definition kexInitMsg_struct : structType :=
  StructType "kexInitMsg" "20"
    [("Cookie", KArray 16);
     ("KexAlgos", KNameList);
     ("ServerHostKeyAlgos", KNameList);
     ("CiphersClientServer", KNameList);
     ("CiphersServerClient", KNameList);
     ("MACsClientServer", KNameList);
     ("MACsServerClient", KNameList);
     ("CompressionClientServer", KNameList);
     ("CompressionServerClient", KNameList);
     ("LanguagesClientServer", KNameList);
     ("LanguagesServerClient", KNameList);
     ("FirstKexFollows", KBool);
     ("Reserved", KUint32)].

#[export] Instance kexInitMsg_message : SSHMessage kexInitMsg := {|
  typeOf := kexInitMsg_struct;
  fieldsOf m := (kexInitMsg_Cookie m, (kexInitMsg_KexAlgos m, (kexInitMsg_ServerHostKeyAlgos m, (kexInitMsg_CiphersClientServer m, (kexInitMsg_CiphersServerClient m, (kexInitMsg_MACsClientServer m, (kexInitMsg_MACsServerClient m, (kexInitMsg_CompressionClientServer m, (kexInitMsg_CompressionServerClient m, (kexInitMsg_LanguagesClientServer m, (kexInitMsg_LanguagesServerClient m, (kexInitMsg_FirstKexFollows m, (kexInitMsg_Reserved m, tt)))))))))))));
  ofFields '(v0, (v1, (v2, (v3, (v4, (v5, (v6, (v7, (v8, (v9, (v10, (v11, (v12, _))))))))))))) := mk_kexInitMsg v0 v1 v2 v3 v4 v5 v6 v7 v8 v9 v10 v11 v12;
  ofFields_fieldsOf m := match m with mk_kexInitMsg _ _ _ _ _ _ _ _ _ _ _ _ _ => eq_refl end
|}.

Record kexDHInitMsg := mk_kexDHInitMsg {
  kexDHInitMsg_X : Z
}.

Definition kexDHInitMsg_struct : structType :=
  StructType "kexDHInitMsg" "30"
    [("X", KBigInt)].

#[export] Instance kexDHInitMsg_message : SSHMessage kexDHInitMsg := {|
  typeOf := kexDHInitMsg_struct;
  fieldsOf m := (kexDHInitMsg_X m, tt);
  ofFields '(v0, _) := mk_kexDHInitMsg v0;
  ofFields_fieldsOf m := match m with mk_kexDHInitMsg _ => eq_refl end
|}.

Record kexECDHInitMsg := mk_kexECDHInitMsg {
  kexECDHInitMsg_ClientPubKey : bytes
}.

Definition kexECDHInitMsg_struct : structType :=
  StructType "kexECDHInitMsg" "30"
    [("ClientPubKey", KBytes false)].

#[export] Instance kexECDHInitMsg_message : SSHMessage kexECDHInitMsg := {|
  typeOf := kexECDHInitMsg_struct;
  fieldsOf m := (kexECDHInitMsg_ClientPubKey m, tt);
  ofFields '(v0, _) := mk_kexECDHInitMsg v0;
  ofFields_fieldsOf m := match m with mk_kexECDHInitMsg _ => eq_refl end
|}.

Record kexECDHReplyMsg := mk_kexECDHReplyMsg {
  kexECDHReplyMsg_HostKey : bytes;
  kexECDHReplyMsg_EphemeralPubKey : bytes;
  kexECDHReplyMsg_Signature : bytes
}.

Definition kexECDHReplyMsg_struct : structType :=
  StructType "kexECDHReplyMsg" "31"
    [("HostKey", KBytes false);
     ("EphemeralPubKey", KBytes false);
     ("Signature", KBytes false)].

#[export] Instance kexECDHReplyMsg_message : SSHMessage kexECDHReplyMsg := {|
  typeOf := kexECDHReplyMsg_struct;
  fieldsOf m := (kexECDHReplyMsg_HostKey m, (kexECDHReplyMsg_EphemeralPubKey m, (kexECDHReplyMsg_Signature m, tt)));
  ofFields '(v0, (v1, (v2, _))) := mk_kexECDHReplyMsg v0 v1 v2;
  ofFields_fieldsOf m := match m with mk_kexECDHReplyMsg _ _ _ => eq_refl end
|}.

Record kexDHReplyMsg := mk_kexDHReplyMsg {
  kexDHReplyMsg_HostKey : bytes;
  kexDHReplyMsg_Y : Z;
  kexDHReplyMsg_Signature : bytes
}.

Definition kexDHReplyMsg_struct : structType :=
  StructType "kexDHReplyMsg" "31"
    [("HostKey", KBytes false);
     ("Y", KBigInt);
     ("Signature", KBytes false)].

#[export] Instance kexDHReplyMsg_message : SSHMessage kexDHReplyMsg := {|
  typeOf := kexDHReplyMsg_struct;
  fieldsOf m := (kexDHReplyMsg_HostKey m, (kexDHReplyMsg_Y m, (kexDHReplyMsg_Signature m, tt)));
  ofFields '(v0, (v1, (v2, _))) := mk_kexDHReplyMsg v0 v1 v2;
  ofFields_fieldsOf m := match m with mk_kexDHReplyMsg _ _ _ => eq_refl end
|}.

Record serviceRequestMsg := mk_serviceRequestMsg {
  serviceRequestMsg_Service : bytes
}.

Definition serviceRequestMsg_struct : structType :=
  StructType "serviceRequestMsg" "5"
    [("Service", KString)].

#[export] Instance serviceRequestMsg_message : SSHMessage serviceRequestMsg := {|
  typeOf := serviceRequestMsg_struct;
  fieldsOf m := (serviceRequestMsg_Service m, tt);
  ofFields '(v0, _) := mk_serviceRequestMsg v0;
  ofFields_fieldsOf m := match m with mk_serviceRequestMsg _ => eq_refl end
|}.

Record serviceAcceptMsg := mk_serviceAcceptMsg {
  serviceAcceptMsg_Service : bytes
}.

Definition serviceAcceptMsg_struct : structType :=
  StructType "serviceAcceptMsg" "6"
    [("Service", KString)].

#[export] Instance serviceAcceptMsg_message : SSHMessage serviceAcceptMsg := {|
  typeOf := serviceAcceptMsg_struct;
  fieldsOf m := (serviceAcceptMsg_Service m, tt);
  ofFields '(v0, _) := mk_serviceAcceptMsg v0;
  ofFields_fieldsOf m := match m with mk_serviceAcceptMsg _ => eq_refl end
|}.

Record userAuthRequestMsg := mk_userAuthRequestMsg {
  userAuthRequestMsg_User : bytes;
  userAuthRequestMsg_Service : bytes;
  userAuthRequestMsg_Method : bytes;
  userAuthRequestMsg_Payload : bytes
}.

Definition userAuthRequestMsg_struct : structType :=
  StructType "userAuthRequestMsg" "50"
    [("User", KString);
     ("Service", KString);
     ("Method", KString);
     ("Payload", KBytes true)].

#[export] Instance userAuthRequestMsg_message : SSHMessage userAuthRequestMsg := {|
  typeOf := userAuthRequestMsg_struct;
  fieldsOf m := (userAuthRequestMsg_User m, (userAuthRequestMsg_Service m, (userAuthRequestMsg_Method m, (userAuthRequestMsg_Payload m, tt))));
  ofFields '(v0, (v1, (v2, (v3, _)))) := mk_userAuthRequestMsg v0 v1 v2 v3;
  ofFields_fieldsOf m := match m with mk_userAuthRequestMsg _ _ _ _ => eq_refl end
|}.

Record userAuthSuccessMsg := mk_userAuthSuccessMsg {}.

Record userAuthFailureMsg := mk_userAuthFailureMsg {
  userAuthFailureMsg_Methods : list bytes;
  userAuthFailureMsg_PartialSuccess : bool
}.

Definition userAuthFailureMsg_struct : structType :=
  StructType "userAuthFailureMsg" "51"
    [("Methods", KNameList);
     ("PartialSuccess", KBool)].

#[export] Instance userAuthFailureMsg_message : SSHMessage userAuthFailureMsg := {|
  typeOf := userAuthFailureMsg_struct;
  fieldsOf m := (userAuthFailureMsg_Methods m, (userAuthFailureMsg_PartialSuccess m, tt));
  ofFields '(v0, (v1, _)) := mk_userAuthFailureMsg v0 v1;
  ofFields_fieldsOf m := match m with mk_userAuthFailureMsg _ _ => eq_refl end
|}.

Record userAuthInfoRequestMsg := mk_userAuthInfoRequestMsg {
  userAuthInfoRequestMsg_User : bytes;
  userAuthInfoRequestMsg_Instruction : bytes;
  userAuthInfoRequestMsg_DeprecatedLanguage : bytes;
  userAuthInfoRequestMsg_NumPrompts : Z;
  userAuthInfoRequestMsg_Prompts : bytes
}.

Definition userAuthInfoRequestMsg_struct : structType :=
  StructType "userAuthInfoRequestMsg" "60"
    [("User", KString);
     ("Instruction", KString);
     ("DeprecatedLanguage", KString);
     ("NumPrompts", KUint32);
     ("Prompts", KBytes true)].

#[export] Instance userAuthInfoRequestMsg_message : SSHMessage userAuthInfoRequestMsg := {|
  typeOf := userAuthInfoRequestMsg_struct;
  fieldsOf m := (userAuthInfoRequestMsg_User m, (userAuthInfoRequestMsg_Instruction m, (userAuthInfoRequestMsg_DeprecatedLanguage m, (userAuthInfoRequestMsg_NumPrompts m, (userAuthInfoRequestMsg_Prompts m, tt)))));
  ofFields '(v0, (v1, (v2, (v3, (v4, _))))) := mk_userAuthInfoRequestMsg v0 v1 v2 v3 v4;
  ofFields_fieldsOf m := match m with mk_userAuthInfoRequestMsg _ _ _ _ _ => eq_refl end
|}.

Record channelOpenMsg := mk_channelOpenMsg {
  channelOpenMsg_ChanType : bytes;
  channelOpenMsg_PeersId : Z;
  channelOpenMsg_PeersWindow : Z;
  channelOpenMsg_MaxPacketSize : Z;
  channelOpenMsg_TypeSpecificData : bytes
}.

Definition channelOpenMsg_struct : structType :=
  StructType "channelOpenMsg" "90"
    [("ChanType", KString);
     ("PeersId", KUint32);
     ("PeersWindow", KUint32);
     ("MaxPacketSize", KUint32);
     ("TypeSpecificData", KBytes true)].

#[export] Instance channelOpenMsg_message : SSHMessage channelOpenMsg := {|
  typeOf := channelOpenMsg_struct;
  fieldsOf m := (channelOpenMsg_ChanType m, (channelOpenMsg_PeersId m, (channelOpenMsg_PeersWindow m, (channelOpenMsg_MaxPacketSize m, (channelOpenMsg_TypeSpecificData m, tt)))));
  ofFields '(v0, (v1, (v2, (v3, (v4, _))))) := mk_channelOpenMsg v0 v1 v2 v3 v4;
  ofFields_fieldsOf m := match m with mk_channelOpenMsg _ _ _ _ _ => eq_refl end
|}.

Record channelDataMsg := mk_channelDataMsg {
  channelDataMsg_PeersId : Z;
  channelDataMsg_Length : Z;
  channelDataMsg_Rest : bytes
}.

Definition channelDataMsg_struct : structType :=
  StructType "channelDataMsg" "94"
    [("PeersId", KUint32);
     ("Length", KUint32);
     ("Rest", KBytes true)].

#[export] Instance channelDataMsg_message : SSHMessage channelDataMsg := {|
  typeOf := channelDataMsg_struct;
  fieldsOf m := (channelDataMsg_PeersId m, (channelDataMsg_Length m, (channelDataMsg_Rest m, tt)));
  ofFields '(v0, (v1, (v2, _))) := mk_channelDataMsg v0 v1 v2;
  ofFields_fieldsOf m := match m with mk_channelDataMsg _ _ _ => eq_refl end
|}.

Record channelOpenConfirmMsg := mk_channelOpenConfirmMsg {
  channelOpenConfirmMsg_PeersId : Z;
  channelOpenConfirmMsg_MyId : Z;
  channelOpenConfirmMsg_MyWindow : Z;
  channelOpenConfirmMsg_MaxPacketSize : Z;
  channelOpenConfirmMsg_TypeSpecificData : bytes
}.

Definition channelOpenConfirmMsg_struct : structType :=
  StructType "channelOpenConfirmMsg" "91"
    [("PeersId", KUint32);
     ("MyId", KUint32);
     ("MyWindow", KUint32);
     ("MaxPacketSize", KUint32);
     ("TypeSpecificData", KBytes true)].

#[export] Instance channelOpenConfirmMsg_message : SSHMessage channelOpenConfirmMsg := {|
  typeOf := channelOpenConfirmMsg_struct;
  fieldsOf m := (channelOpenConfirmMsg_PeersId m, (channelOpenConfirmMsg_MyId m, (channelOpenConfirmMsg_MyWindow m, (channelOpenConfirmMsg_MaxPacketSize m, (channelOpenConfirmMsg_TypeSpecificData m, tt)))));
  ofFields '(v0, (v1, (v2, (v3, (v4, _))))) := mk_channelOpenConfirmMsg v0 v1 v2 v3 v4;
  ofFields_fieldsOf m := match m with mk_channelOpenConfirmMsg _ _ _ _ _ => eq_refl end
|}.

Record channelOpenFailureMsg := mk_channelOpenFailureMsg {
  channelOpenFailureMsg_PeersId : Z;
  channelOpenFailureMsg_Reason : Z;
  channelOpenFailureMsg_Message : bytes;
  channelOpenFailureMsg_Language : bytes
}.

Definition channelOpenFailureMsg_struct : structType :=
  StructType "channelOpenFailureMsg" "92"
    [("PeersId", KUint32);
     ("Reason", KUint32);
     ("Message", KString);
     ("Language", KString)].

#[export] Instance channelOpenFailureMsg_message : SSHMessage channelOpenFailureMsg := {|
  typeOf := channelOpenFailureMsg_struct;
  fieldsOf m := (channelOpenFailureMsg_PeersId m, (channelOpenFailureMsg_Reason m, (channelOpenFailureMsg_Message m, (channelOpenFailureMsg_Language m, tt))));
  ofFields '(v0, (v1, (v2, (v3, _)))) := mk_channelOpenFailureMsg v0 v1 v2 v3;
  ofFields_fieldsOf m := match m with mk_channelOpenFailureMsg _ _ _ _ => eq_refl end
|}.

Record channelRequestMsg := mk_channelRequestMsg {
  channelRequestMsg_PeersId : Z;
  channelRequestMsg_Request : bytes;
  channelRequestMsg_WantReply : bool;
  channelRequestMsg_RequestSpecificData : bytes
}.

Definition channelRequestMsg_struct : structType :=
  StructType "channelRequestMsg" "98"
    [("PeersId", KUint32);
     ("Request", KString);
     ("WantReply", KBool);
     ("RequestSpecificData", KBytes true)].

#[export] Instance channelRequestMsg_message : SSHMessage channelRequestMsg := {|
  typeOf := channelRequestMsg_struct;
  fieldsOf m := (channelRequestMsg_PeersId m, (channelRequestMsg_Request m, (channelRequestMsg_WantReply m, (channelRequestMsg_RequestSpecificData m, tt))));
  ofFields '(v0, (v1, (v2, (v3, _)))) := mk_channelRequestMsg v0 v1 v2 v3;
  ofFields_fieldsOf m := match m with mk_channelRequestMsg _ _ _ _ => eq_refl end
|}.

Record channelRequestSuccessMsg := mk_channelRequestSuccessMsg {
  channelRequestSuccessMsg_PeersId : Z
}.

Definition channelRequestSuccessMsg_struct : structType :=
  StructType "channelRequestSuccessMsg" "99"
    [("PeersId", KUint32)].

#[export] Instance channelRequestSuccessMsg_message : SSHMessage channelRequestSuccessMsg := {|
  typeOf := channelRequestSuccessMsg_struct;
  fieldsOf m := (channelRequestSuccessMsg_PeersId m, tt);
  ofFields '(v0, _) := mk_channelRequestSuccessMsg v0;
  ofFields_fieldsOf m := match m with mk_channelRequestSuccessMsg _ => eq_refl end
|}.

Record channelRequestFailureMsg := mk_channelRequestFailureMsg {
  channelRequestFailureMsg_PeersId : Z
}.

Definition channelRequestFailureMsg_struct : structType :=
  StructType "channelRequestFailureMsg" "100"
    [("PeersId", KUint32)].

#[export] Instance channelRequestFailureMsg_message : SSHMessage channelRequestFailureMsg := {|
  typeOf := channelRequestFailureMsg_struct;
  fieldsOf m := (channelRequestFailureMsg_PeersId m, tt);
  ofFields '(v0, _) := mk_channelRequestFailureMsg v0;
  ofFields_fieldsOf m := match m with mk_channelRequestFailureMsg _ => eq_refl end
|}.

Record channelCloseMsg := mk_channelCloseMsg {
  channelCloseMsg_PeersId : Z
}.

Definition channelCloseMsg_struct : structType :=
  StructType "channelCloseMsg" "97"
    [("PeersId", KUint32)].

#[export] Instance channelCloseMsg_message : SSHMessage channelCloseMsg := {|
  typeOf := channelCloseMsg_struct;
  fieldsOf m := (channelCloseMsg_PeersId m, tt);
  ofFields '(v0, _) := mk_channelCloseMsg v0;
  ofFields_fieldsOf m := match m with mk_channelCloseMsg _ => eq_refl end
|}.

Record channelEOFMsg := mk_channelEOFMsg {
  channelEOFMsg_PeersId : Z
}.

Definition channelEOFMsg_struct : structType :=
  StructType "channelEOFMsg" "96"
    [("PeersId", KUint32)].

#[export] Instance channelEOFMsg_message : SSHMessage channelEOFMsg := {|
  typeOf := channelEOFMsg_struct;
  fieldsOf m := (channelEOFMsg_PeersId m, tt);
  ofFields '(v0, _) := mk_channelEOFMsg v0;
  ofFields_fieldsOf m := match m with mk_channelEOFMsg _ => eq_refl end
|}.

Record globalRequestMsg := mk_globalRequestMsg {
  globalRequestMsg_Type : bytes;
  globalRequestMsg_WantReply : bool;
  globalRequestMsg_Data : bytes
}.

Definition globalRequestMsg_struct : structType :=
  StructType "globalRequestMsg" "80"
    [("Type", KString);
     ("WantReply", KBool);
     ("Data", KBytes true)].

#[export] Instance globalRequestMsg_message : SSHMessage globalRequestMsg := {|
  typeOf := globalRequestMsg_struct;
  fieldsOf m := (globalRequestMsg_Type m, (globalRequestMsg_WantReply m, (globalRequestMsg_Data m, tt)));
  ofFields '(v0, (v1, (v2, _))) := mk_globalRequestMsg v0 v1 v2;
  ofFields_fieldsOf m := match m with mk_globalRequestMsg _ _ _ => eq_refl end
|}.

Record globalRequestSuccessMsg := mk_globalRequestSuccessMsg {
  globalRequestSuccessMsg_Data : bytes
}.

Definition globalRequestSuccessMsg_struct : structType :=
  StructType "globalRequestSuccessMsg" "81"
    [("Data", KBytes true)].

#[export] Instance globalRequestSuccessMsg_message : SSHMessage globalRequestSuccessMsg := {|
  typeOf := globalRequestSuccessMsg_struct;
  fieldsOf m := (globalRequestSuccessMsg_Data m, tt);
  ofFields '(v0, _) := mk_globalRequestSuccessMsg v0;
  ofFields_fieldsOf m := match m with mk_globalRequestSuccessMsg _ => eq_refl end
|}.

Record globalRequestFailureMsg := mk_globalRequestFailureMsg {
  globalRequestFailureMsg_Data : bytes
}.

Definition globalRequestFailureMsg_struct : structType :=
  StructType "globalRequestFailureMsg" "82"
    [("Data", KBytes true)].

#[export] Instance globalRequestFailureMsg_message : SSHMessage globalRequestFailureMsg := {|
  typeOf := globalRequestFailureMsg_struct;
  fieldsOf m := (globalRequestFailureMsg_Data m, tt);
  ofFields '(v0, _) := mk_globalRequestFailureMsg v0;
  ofFields_fieldsOf m := match m with mk_globalRequestFailureMsg _ => eq_refl end
|}.

Record windowAdjustMsg := mk_windowAdjustMsg {
  windowAdjustMsg_PeersId : Z;
  windowAdjustMsg_AdditionalBytes : Z
}.

Definition windowAdjustMsg_struct : structType :=
  StructType "windowAdjustMsg" "93"
    [("PeersId", KUint32);
     ("AdditionalBytes", KUint32)].

#[export] Instance windowAdjustMsg_message : SSHMessage windowAdjustMsg := {|
  typeOf := windowAdjustMsg_struct;
  fieldsOf m := (windowAdjustMsg_PeersId m, (windowAdjustMsg_AdditionalBytes m, tt));
  ofFields '(v0, (v1, _)) := mk_windowAdjustMsg v0 v1;
  ofFields_fieldsOf m := match m with mk_windowAdjustMsg _ _ => eq_refl end
|}.

Record userAuthPubKeyOkMsg := mk_userAuthPubKeyOkMsg {
  userAuthPubKeyOkMsg_Algo : bytes;
  userAuthPubKeyOkMsg_PubKey : bytes
}.

Definition userAuthPubKeyOkMsg_struct : structType :=
  StructType "userAuthPubKeyOkMsg" "60"
    [("Algo", KString);
     ("PubKey", KBytes false)].

#[export] Instance userAuthPubKeyOkMsg_message : SSHMessage userAuthPubKeyOkMsg := {|
  typeOf := userAuthPubKeyOkMsg_struct;
  fieldsOf m := (userAuthPubKeyOkMsg_Algo m, (userAuthPubKeyOkMsg_PubKey m, tt));
  ofFields '(v0, (v1, _)) := mk_userAuthPubKeyOkMsg v0 v1;
  ofFields_fieldsOf m := match m with mk_userAuthPubKeyOkMsg _ _ => eq_refl end
|}.

(** ** Decoding a packet *)

(** What [decode] returns: a pointer to one of these structs. *)
Inductive message :=
| M_disconnectMsg (m : disconnectMsg)
| M_serviceRequestMsg (m : serviceRequestMsg)
| M_serviceAcceptMsg (m : serviceAcceptMsg)
| M_kexInitMsg (m : kexInitMsg)
| M_kexDHInitMsg (m : kexDHInitMsg)
| M_kexDHReplyMsg (m : kexDHReplyMsg)
| M_userAuthRequestMsg (m : userAuthRequestMsg)
| M_userAuthSuccessMsg (m : userAuthSuccessMsg)
| M_userAuthFailureMsg (m : userAuthFailureMsg)
| M_userAuthPubKeyOkMsg (m : userAuthPubKeyOkMsg)
| M_globalRequestMsg (m : globalRequestMsg)
| M_globalRequestSuccessMsg (m : globalRequestSuccessMsg)
| M_globalRequestFailureMsg (m : globalRequestFailureMsg)
| M_channelOpenMsg (m : channelOpenMsg)
| M_channelDataMsg (m : channelDataMsg)
| M_channelOpenConfirmMsg (m : channelOpenConfirmMsg)
| M_channelOpenFailureMsg (m : channelOpenFailureMsg)
| M_windowAdjustMsg (m : windowAdjustMsg)
| M_channelEOFMsg (m : channelEOFMsg)
| M_channelCloseMsg (m : channelCloseMsg)
| M_channelRequestMsg (m : channelRequestMsg)
| M_channelRequestSuccessMsg (m : channelRequestSuccessMsg)
| M_channelRequestFailureMsg (m : channelRequestFailureMsg).

Definition decode (packet : bytes) : outcome message :=
  match packet with
  | [] => Panic "index out of range"
  | p0 :: _ =>
      let t := b2z p0 in
      if t =? msgDisconnect then (let? m := unmarshalMsg disconnectMsg packet in Ret (M_disconnectMsg m)) else
      if t =? msgServiceRequest then (let? m := unmarshalMsg serviceRequestMsg packet in Ret (M_serviceRequestMsg m)) else
      if t =? msgServiceAccept then (let? m := unmarshalMsg serviceAcceptMsg packet in Ret (M_serviceAcceptMsg m)) else
      if t =? msgKexInit then (let? m := unmarshalMsg kexInitMsg packet in Ret (M_kexInitMsg m)) else
      if t =? msgKexDHInit then (let? m := unmarshalMsg kexDHInitMsg packet in Ret (M_kexDHInitMsg m)) else
      if t =? msgKexDHReply then (let? m := unmarshalMsg kexDHReplyMsg packet in Ret (M_kexDHReplyMsg m)) else
      if t =? msgUserAuthRequest then (let? m := unmarshalMsg userAuthRequestMsg packet in Ret (M_userAuthRequestMsg m)) else
      if t =? msgUserAuthSuccess then Ret (M_userAuthSuccessMsg mk_userAuthSuccessMsg) else
      if t =? msgUserAuthFailure then (let? m := unmarshalMsg userAuthFailureMsg packet in Ret (M_userAuthFailureMsg m)) else
      if t =? msgUserAuthPubKeyOk then (let? m := unmarshalMsg userAuthPubKeyOkMsg packet in Ret (M_userAuthPubKeyOkMsg m)) else
      if t =? msgGlobalRequest then (let? m := unmarshalMsg globalRequestMsg packet in Ret (M_globalRequestMsg m)) else
      if t =? msgRequestSuccess then (let? m := unmarshalMsg globalRequestSuccessMsg packet in Ret (M_globalRequestSuccessMsg m)) else
      if t =? msgRequestFailure then (let? m := unmarshalMsg globalRequestFailureMsg packet in Ret (M_globalRequestFailureMsg m)) else
      if t =? msgChannelOpen then (let? m := unmarshalMsg channelOpenMsg packet in Ret (M_channelOpenMsg m)) else
      if t =? msgChannelData then (let? m := unmarshalMsg channelDataMsg packet in Ret (M_channelDataMsg m)) else
      if t =? msgChannelOpenConfirm then (let? m := unmarshalMsg channelOpenConfirmMsg packet in Ret (M_channelOpenConfirmMsg m)) else
      if t =? msgChannelOpenFailure then (let? m := unmarshalMsg channelOpenFailureMsg packet in Ret (M_channelOpenFailureMsg m)) else
      if t =? msgChannelWindowAdjust then (let? m := unmarshalMsg windowAdjustMsg packet in Ret (M_windowAdjustMsg m)) else
      if t =? msgChannelEOF then (let? m := unmarshalMsg channelEOFMsg packet in Ret (M_channelEOFMsg m)) else
      if t =? msgChannelClose then (let? m := unmarshalMsg channelCloseMsg packet in Ret (M_channelCloseMsg m)) else
      if t =? msgChannelRequest then (let? m := unmarshalMsg channelRequestMsg packet in Ret (M_channelRequestMsg m)) else
      if t =? msgChannelSuccess then (let? m := unmarshalMsg channelRequestSuccessMsg packet in Ret (M_channelRequestSuccessMsg m)) else
      if t =? msgChannelFailure then (let? m := unmarshalMsg channelRequestFailureMsg packet in Ret (M_channelRequestFailureMsg m)) else
      Fail (unexpectedMessageError 0 t)
  end.

(** [Marshal] on a decoded message; [userAuthSuccessMsg] has no field for
    reflection to take the tag from. *)
Definition marshalMessage (m : message) : outcome bytes :=
  match m with
  | M_disconnectMsg m => Marshal m
  | M_serviceRequestMsg m => Marshal m
  | M_serviceAcceptMsg m => Marshal m
  | M_kexInitMsg m => Marshal m
  | M_kexDHInitMsg m => Marshal m
  | M_kexDHReplyMsg m => Marshal m
  | M_userAuthRequestMsg m => Marshal m
  | M_userAuthSuccessMsg _ => Panic "reflect: Field index out of bounds"
  | M_userAuthFailureMsg m => Marshal m
  | M_userAuthPubKeyOkMsg m => Marshal m
  | M_globalRequestMsg m => Marshal m
  | M_globalRequestSuccessMsg m => Marshal m
  | M_globalRequestFailureMsg m => Marshal m
  | M_channelOpenMsg m => Marshal m
  | M_channelDataMsg m => Marshal m
  | M_channelOpenConfirmMsg m => Marshal m
  | M_channelOpenFailureMsg m => Marshal m
  | M_windowAdjustMsg m => Marshal m
  | M_channelEOFMsg m => Marshal m
  | M_channelCloseMsg m => Marshal m
  | M_channelRequestMsg m => Marshal m
  | M_channelRequestSuccessMsg m => Marshal m
  | M_channelRequestFailureMsg m => Marshal m
  end.

(** The number a message of each type starts with. *)
Definition messageNumber (m : message) : Z :=
  match m with
  | M_disconnectMsg _ => msgDisconnect
  | M_serviceRequestMsg _ => msgServiceRequest
  | M_serviceAcceptMsg _ => msgServiceAccept
  | M_kexInitMsg _ => msgKexInit
  | M_kexDHInitMsg _ => msgKexDHInit
  | M_kexDHReplyMsg _ => msgKexDHReply
  | M_userAuthRequestMsg _ => msgUserAuthRequest
  | M_userAuthSuccessMsg _ => msgUserAuthSuccess
  | M_userAuthFailureMsg _ => msgUserAuthFailure
  | M_userAuthPubKeyOkMsg _ => msgUserAuthPubKeyOk
  | M_globalRequestMsg _ => msgGlobalRequest
  | M_globalRequestSuccessMsg _ => msgRequestSuccess
  | M_globalRequestFailureMsg _ => msgRequestFailure
  | M_channelOpenMsg _ => msgChannelOpen
  | M_channelDataMsg _ => msgChannelData
  | M_channelOpenConfirmMsg _ => msgChannelOpenConfirm
  | M_channelOpenFailureMsg _ => msgChannelOpenFailure
  | M_windowAdjustMsg _ => msgChannelWindowAdjust
  | M_channelEOFMsg _ => msgChannelEOF
  | M_channelCloseMsg _ => msgChannelClose
  | M_channelRequestMsg _ => msgChannelRequest
  | M_channelRequestSuccessMsg _ => msgChannelSuccess
  | M_channelRequestFailureMsg _ => msgChannelFailure
  end.

(** A message within the limits of the format. *)
Definition message_ok (m : message) : Prop :=
  match m with
  | M_disconnectMsg m => msg_ok m
  | M_serviceRequestMsg m => msg_ok m
  | M_serviceAcceptMsg m => msg_ok m
  | M_kexInitMsg m => msg_ok m
  | M_kexDHInitMsg m => msg_ok m
  | M_kexDHReplyMsg m => msg_ok m
  | M_userAuthRequestMsg m => msg_ok m
  | M_userAuthSuccessMsg _ => True
  | M_userAuthFailureMsg m => msg_ok m
  | M_userAuthPubKeyOkMsg m => msg_ok m
  | M_globalRequestMsg m => msg_ok m
  | M_globalRequestSuccessMsg m => msg_ok m
  | M_globalRequestFailureMsg m => msg_ok m
  | M_channelOpenMsg m => msg_ok m
  | M_channelDataMsg m => msg_ok m
  | M_channelOpenConfirmMsg m => msg_ok m
  | M_channelOpenFailureMsg m => msg_ok m
  | M_windowAdjustMsg m => msg_ok m
  | M_channelEOFMsg m => msg_ok m
  | M_channelCloseMsg m => msg_ok m
  | M_channelRequestMsg m => msg_ok m
  | M_channelRequestSuccessMsg m => msg_ok m
  | M_channelRequestFailureMsg m => msg_ok m
  end.

(** ** The data signed for public key authentication *)

Record signedAuthData := mk_signedAuthData {
  signed_Session : bytes;
  signed_Type : Z;
  signed_User : bytes;
  signed_Service : bytes;
  signed_Method : bytes;
  signed_Sign : bool;
  signed_Algo : bytes;
  signed_PubKey : bytes
}.

Definition signedAuthData_struct : structType :=
  StructType "" ""
    [("Session", KBytes false); ("Type", KUint8); ("User", KString); ("Service", KString);
     ("Method", KString); ("Sign", KBool); ("Algo", KBytes false); ("PubKey", KBytes false)].

#[export] Instance signedAuthData_message : SSHMessage signedAuthData := {|
  typeOf := signedAuthData_struct;
  fieldsOf m := (signed_Session m, (signed_Type m, (signed_User m, (signed_Service m,
    (signed_Method m, (signed_Sign m, (signed_Algo m, (signed_PubKey m, tt))))))));
  ofFields '(a, (b, (c, (d, (e, (f, (g, (h, _)))))))) := mk_signedAuthData a b c d e f g h;
  ofFields_fieldsOf m := match m with mk_signedAuthData _ _ _ _ _ _ _ _ => eq_refl end
|}.

Definition buildDataSignedForAuth (sessionId : bytes) (req : userAuthRequestMsg)
    (algo pubKey : bytes) : outcome bytes :=
  let data := mk_signedAuthData sessionId msgUserAuthRequest (userAuthRequestMsg_User req)
    (userAuthRequestMsg_Service req) (userAuthRequestMsg_Method req) true algo pubKey in
  Marshal data.

(** ** Lemmas *)

Lemma b2z_z2b_tag t : 0 < t < 256 -> b2z (z2b t) = t.
Proof. intros. apply b2z_z2b_small. lia. Qed.

Lemma unmarshalMsg_wrap_not_panic {T B} `{SSHMessage T} (f : T -> B) p :
  st_fields (typeOf T) <> [] -> panics (let? m := unmarshalMsg T p in Ret (f m)) = false.
Proof.
  intros. apply obind_not_panic; [|done].
  apply obind_not_panic; [by apply Unmarshal_not_panic | done].
Qed.

(** The first byte of a marshalled message is its number. *)
Lemma marshalMessage_number m p :
  marshalMessage m = Ret p -> exists p', p = z2b (messageNumber m) :: p'.
Proof.
  destruct m; simpl; try done;
    (erewrite Marshal_value by reflexivity); intros; simplify_eq; eexists; reflexivity.
Qed.

Lemma decode_number p m : decode p = Ret m -> exists p0 p', p = p0 :: p' /\ b2z p0 = messageNumber m.
Proof.
  destruct p as [|p0 p']; [done|]. unfold decode. intros Hd. exists p0, p'. split; [done|].
  repeat match type of Hd with
  | (if ?t =? ?c then _ else _) = _ =>
      destruct (Z.eqb_spec t c) as [E|_];
      [first [ apply obind_ret in Hd as (? & _ & Hd) | idtac ]; injection Hd as <-; exact E |]
  end.
  done.
Qed.

Lemma decode_not_panic p0 p : panics (decode (p0 :: p)) = false.
Proof.
  unfold decode. cbv zeta.
  repeat match goal with
  | |- panics (if ?c then _ else _) = false =>
      destruct c; [first [ reflexivity | by apply unmarshalMsg_wrap_not_panic ] |]
  end.
  done.
Qed.

Lemma decode_ret_ok m p :
  marshalMessage m = Ret p -> message_ok m -> zlen p < 2 ^ 32 -> decode p = Ret m.
Proof.
  intros Hm Hok Hl. destruct (marshalMessage_number _ _ Hm) as [p' ->].
  unfold decode.
  destruct m; simpl in Hm, Hok; try done; cbn [messageNumber] in *;
    rewrite b2z_z2b_tag by (vm_compute; split; reflexivity); cbv delta [Z.eqb]; cbn -[unmarshalMsg];
    (erewrite Unmarshal_value by (done || reflexivity || (repeat constructor; vm_compute; reflexivity)));
    reflexivity.
Qed.

(** ** Properties *)

Definition example_open : channelOpenMsg :=
  mk_channelOpenMsg (str "session") 3 2097152 32768 (str "x").

Lemma Unmarshal_Marshal_witness :
  exists p, Marshal example_open = Ret p /\ unmarshalMsg channelOpenMsg p = Ret example_open.
Proof.
  eexists. split; [vm_compute; reflexivity|].
  eapply (Unmarshal_Marshal channelOpenMsg [90]); try reflexivity; try done.
  repeat constructor.
Defined.

(** C23: decoding a packet recovers the message: for every message type
    that [decode] dispatches to, within the limits of the format and with a
    packet shorter than 2^32 bytes, [decode] of the packet [Marshal] produces
    is that very message, so the first byte always selects the right struct. *)
Theorem decode_Marshal (m : message) (p : bytes) :
  marshalMessage m = Ret p -> message_ok m -> zlen p < 2 ^ 32 ->
  decode p = Ret m.
Proof. apply decode_ret_ok. Qed.

Lemma decode_Marshal_witness :
  decode (default [] (match marshalMessage (M_channelOpenMsg example_open) with
                      | Ret p => Some p | _ => None end))
  = Ret (M_channelOpenMsg example_open).
Proof.
  apply (decode_Marshal (M_channelOpenMsg example_open)).
  - reflexivity.
  - vm_compute. repeat split; discriminate.
  - reflexivity.
Defined.

(** [decode] is total on packets: for every non-empty packet it returns a
    message or an error and never panics, and a returned message has the
    number the packet starts with.  (On an empty packet it panics: callers
    never pass one.) *)
Theorem decode_total (p0 : byte) (p : bytes) :
  panics (decode (p0 :: p)) = false /\ panics (decode []) = true /\
  forall m, decode (p0 :: p) = Ret m -> messageNumber m = b2z p0.
Proof.
  split_and!; [apply decode_not_panic | done |].
  intros m (q & q' & ? & Hq)%decode_number. congruence.
Qed.

(** the data signed for public key authentication determines everything
    it is meant to bind: two requests with the same signed blob agree on the
    session identifier, user, service, method, algorithm and public key. *)
Theorem signed_data_binding (sid sid' algo algo' key key' : bytes)
    (req req' : userAuthRequestMsg) (p : bytes) :
  buildDataSignedForAuth sid req algo key = Ret p ->
  buildDataSignedForAuth sid' req' algo' key' = Ret p ->
  zlen p < 2 ^ 32 ->
  sid = sid' /\ algo = algo' /\ key = key' /\
  userAuthRequestMsg_User req = userAuthRequestMsg_User req' /\
  userAuthRequestMsg_Service req = userAuthRequestMsg_Service req' /\
  userAuthRequestMsg_Method req = userAuthRequestMsg_Method req'.
Proof.
  intros H H' Hl. unfold buildDataSignedForAuth in *.
  assert (Hne : p <> []).
  { intros ->. erewrite Marshal_value in H by reflexivity. by simplify_eq. }
  eapply (Unmarshal_value (T := signedAuthData) []) in H, H'; try done;
    try (split_and!; done || (vm_compute; done)).
  rewrite H in H'. by simplify_eq.
Qed.

Lemma signed_data_binding_witness :
  let req := mk_userAuthRequestMsg (str "u") (str "ssh-connection") (str "publickey") [] in
  str "sid" = str "sid" /\ str "ssh-rsa" = str "ssh-rsa" /\ str "k" = str "k" /\
  userAuthRequestMsg_User req = userAuthRequestMsg_User req /\
  userAuthRequestMsg_Service req = userAuthRequestMsg_Service req /\
  userAuthRequestMsg_Method req = userAuthRequestMsg_Method req.
Proof.
  intros req.
  eapply (signed_data_binding (str "sid") (str "sid") (str "ssh-rsa") (str "ssh-rsa")
            (str "k") (str "k") req req); [vm_compute; reflexivity..|].
  vm_compute. reflexivity.
Defined.
