(* ===== verification/Negotiate.v ===== *)
(** * Algorithm negotiation and configuration (common.go)

    The algorithm tables, [findCommon], [findAgreedAlgorithms],
    [directionAlgorithms.rekeyBytes] and [Config.SetDefaults].  A Go slice that
    may be nil (the lists of [Config]) is an [option].  The algorithm names come
    from kex.go, keys.go, certs.go and transport.go, the cipher and MAC tables
    from cipher.go and mac.go (key sizes only: the constructors they also hold
    belong to Cipher.v). *)

From S2P Require Import Prelude Wire Codec Messages.

(** ** Algorithm names *)

Definition compressionNone : bytes := str "none".
Definition serviceUserAuth : bytes := str "ssh-userauth".
Definition serviceSSH : bytes := str "ssh-connection".

Definition kexAlgoDH1SHA1 : bytes := str "diffie-hellman-group1-sha1".
Definition kexAlgoDH14SHA1 : bytes := str "diffie-hellman-group14-sha1".
Definition kexAlgoECDH256 : bytes := str "ecdh-sha2-nistp256".
Definition kexAlgoECDH384 : bytes := str "ecdh-sha2-nistp384".
Definition kexAlgoECDH521 : bytes := str "ecdh-sha2-nistp521".
Definition kexAlgoCurve25519SHA256 : bytes := str "curve25519-sha256@libssh.org".

Definition KeyAlgoRSA : bytes := str "ssh-rsa".
Definition KeyAlgoDSA : bytes := str "ssh-dss".
Definition KeyAlgoECDSA256 : bytes := str "ecdsa-sha2-nistp256".
Definition KeyAlgoECDSA384 : bytes := str "ecdsa-sha2-nistp384".
Definition KeyAlgoECDSA521 : bytes := str "ecdsa-sha2-nistp521".
Definition KeyAlgoED25519 : bytes := str "ssh-ed25519".

Definition CertAlgoRSAv01 : bytes := str "ssh-rsa-cert-v01@openssh.com".
Definition CertAlgoDSAv01 : bytes := str "ssh-dss-cert-v01@openssh.com".
Definition CertAlgoECDSA256v01 : bytes := str "ecdsa-sha2-nistp256-cert-v01@openssh.com".
Definition CertAlgoECDSA384v01 : bytes := str "ecdsa-sha2-nistp384-cert-v01@openssh.com".
Definition CertAlgoECDSA521v01 : bytes := str "ecdsa-sha2-nistp521-cert-v01@openssh.com".
Definition CertAlgoED25519v01 : bytes := str "ssh-ed25519-cert-v01@openssh.com".

Definition gcmCipherID : bytes := str "aes128-gcm@openssh.com".
Definition aes128cbcID : bytes := str "aes128-cbc".
Definition tripledescbcID : bytes := str "3des-cbc".

(** ** Preference lists *)

Definition supportedCiphers : list bytes :=
  [str "aes128-ctr"; str "aes192-ctr"; str "aes256-ctr"; str "aes128-gcm@openssh.com";
   str "arcfour256"; str "arcfour128"].

Definition supportedKexAlgos : list bytes :=
  [kexAlgoCurve25519SHA256; kexAlgoECDH256; kexAlgoECDH384; kexAlgoECDH521;
   kexAlgoDH14SHA1; kexAlgoDH1SHA1].

Definition supportedHostKeyAlgos : list bytes :=
  [CertAlgoRSAv01; CertAlgoDSAv01; CertAlgoECDSA256v01;
   CertAlgoECDSA384v01; CertAlgoECDSA521v01; CertAlgoED25519v01;
   KeyAlgoECDSA256; KeyAlgoECDSA384; KeyAlgoECDSA521;
   KeyAlgoRSA; KeyAlgoDSA; KeyAlgoED25519].

Definition supportedMACs : list bytes :=
  [str "hmac-sha2-256-etm@openssh.com"; str "hmac-sha2-256"; str "hmac-sha1"; str "hmac-sha1-96"].

Definition supportedCompressions : list bytes := [compressionNone].

(** ** Tables of cipher.go and mac.go *)

Record streamCipherMode := StreamCipherMode {
  cm_keySize : Z;
  cm_ivSize : Z;
  cm_skip : Z
}.

Definition aes_BlockSize : Z := 16.
Definition des_BlockSize : Z := 8.

Definition cipherModes : list (bytes * streamCipherMode) :=
  [(str "aes128-ctr", StreamCipherMode 16 aes_BlockSize 0);
   (str "aes192-ctr", StreamCipherMode 24 aes_BlockSize 0);
   (str "aes256-ctr", StreamCipherMode 32 aes_BlockSize 0);
   (str "arcfour128", StreamCipherMode 16 0 1536);
   (str "arcfour256", StreamCipherMode 32 0 1536);
   (str "arcfour", StreamCipherMode 16 0 0);
   (gcmCipherID, StreamCipherMode 16 12 0);
   (aes128cbcID, StreamCipherMode 16 aes_BlockSize 0);
   (tripledescbcID, StreamCipherMode 24 des_BlockSize 0)].

Record macMode := MacMode {
  mac_keySize : Z;
  mac_etm : bool
}.

Definition macModes : list (bytes * macMode) :=
  [(str "hmac-sha2-256-etm@openssh.com", MacMode 32 true);
   (str "hmac-sha2-256", MacMode 32 false);
   (str "hmac-sha1", MacMode 20 false);
   (str "hmac-sha1-96", MacMode 20 false)].

(** A Go map literal as an association list: indexing it. *)
Fixpoint mapGet {V} (m : list (bytes * V)) (k : bytes) : option V :=
  match m with
  | [] => None
  | (k', v) :: m' => if decide (k = k') then Some v else mapGet m' k
  end.

(** ** Choosing an algorithm *)

(** The loops over the two lists. *)
Fixpoint firstCommon (client server : list bytes) : option bytes :=
  match client with
  | [] => None
  | c :: client' => if bool_decide (c ∈ server) then Some c else firstCommon client' server
  end.

Definition findCommon (what : string) (client server : list bytes) : outcome bytes :=
  match firstCommon client server with
  | Some c => Ret c
  | None => Fail (Errorf "ssh: no common algorithm for %s; client offered: %v, server offered: %v"
                    [FStr (str what); FStrs client; FStrs server])
  end.

Record directionAlgorithms := DirectionAlgorithms {
  da_Cipher : bytes;
  da_MAC : bytes;
  da_Compression : bytes
}.

Definition rekeyBytes (a : directionAlgorithms) : Z :=
  if bool_decide (da_Cipher a ∈
       [str "aes128-ctr"; str "aes192-ctr"; str "aes256-ctr"; gcmCipherID; aes128cbcID])
  then 16 * 2 ^ 32
  else 2 ^ 30.

Record algorithms := Algorithms {
  alg_kex : bytes;
  alg_hostKey : bytes;
  alg_w : directionAlgorithms;
  alg_r : directionAlgorithms
}.

Definition findAgreedAlgorithms (clientKexInit serverKexInit : kexInitMsg) : outcome algorithms :=
  let? kex := findCommon "key exchange"
    (kexInitMsg_KexAlgos clientKexInit) (kexInitMsg_KexAlgos serverKexInit) in
  let? hostKey := findCommon "host key"
    (kexInitMsg_ServerHostKeyAlgos clientKexInit) (kexInitMsg_ServerHostKeyAlgos serverKexInit) in
  let? wCipher := findCommon "client to server cipher"
    (kexInitMsg_CiphersClientServer clientKexInit) (kexInitMsg_CiphersClientServer serverKexInit) in
  let? rCipher := findCommon "server to client cipher"
    (kexInitMsg_CiphersServerClient clientKexInit) (kexInitMsg_CiphersServerClient serverKexInit) in
  let? wMAC := findCommon "client to server MAC"
    (kexInitMsg_MACsClientServer clientKexInit) (kexInitMsg_MACsClientServer serverKexInit) in
  let? rMAC := findCommon "server to client MAC"
    (kexInitMsg_MACsServerClient clientKexInit) (kexInitMsg_MACsServerClient serverKexInit) in
  let? wCompression := findCommon "client to server compression"
    (kexInitMsg_CompressionClientServer clientKexInit)
    (kexInitMsg_CompressionClientServer serverKexInit) in
  let? rCompression := findCommon "server to client compression"
    (kexInitMsg_CompressionServerClient clientKexInit)
    (kexInitMsg_CompressionServerClient serverKexInit) in
  Ret (Algorithms kex hostKey (DirectionAlgorithms wCipher wMAC wCompression)
         (DirectionAlgorithms rCipher rMAC rCompression)).

(** ** Configuration *)

Definition minRekeyThreshold : Z := 256.
Definition maxInt64 : Z := 2 ^ 63 - 1.

(** [Rand] and [Halt] are objects of the caller, by name, or those that
    [SetDefaults] puts in their place: the system's source of random bytes, and a
    fresh [Halter]. *)
Inductive object := Given (n : nat) | Fresh.

#[global] Instance object_eq_decision : EqDecision object.
Proof. solve_decision. Defined.

(** A field that may be nil is an [option]. *)
Record Config := mkConfig {
  Rand : option object;
  RekeyThreshold : Z;
  KeyExchanges : option (list bytes);
  Ciphers : option (list bytes);
  MACs : option (list bytes);
  Halt : option object
}.

Definition setRekeyThreshold (r : Z) : Z :=
  if r =? 0 then r
  else if r <? minRekeyThreshold then minRekeyThreshold
  else if maxInt64 <=? r then maxInt64
  else r.

(** [append] on a nil slice: the result is nil when nothing was appended. *)
Definition nilIfEmpty (l : list bytes) : option (list bytes) :=
  match l with [] => None | _ => Some l end.

Definition SetDefaults (c : Config) : Config :=
  let ciphers0 := default supportedCiphers (Ciphers c) in
  let ciphers := filter (fun name => is_Some (mapGet cipherModes name)) ciphers0 in
  mkConfig (Some (default Fresh (Rand c))) (setRekeyThreshold (RekeyThreshold c))
    (Some (default supportedKexAlgos (KeyExchanges c)))
    (nilIfEmpty ciphers)
    (Some (default supportedMACs (MACs c)))
    (Some (default Fresh (Halt c))).

(** ** Lemmas *)

(** What "the preferred common algorithm" means: the first of the client's list
    that the server also lists. *)
Definition preferred (client server : list bytes) (c : bytes) : Prop :=
  exists before after, client = before ++ c :: after /\ c ∈ server /\
    Forall (fun x => x ∉ server) before.

Lemma firstCommon_preferred client server c : firstCommon client server = Some c <-> preferred client server c.
Proof.
  induction client as [|x client IH]; simpl.
  - split; [done|]. intros (before & after & H & _). by destruct before.
  - case_bool_decide as Hx; [split|].
    + intros; simplify_eq. by exists [], client.
    + intros ([|b before] & after & H & Hc & Hb); simplify_eq/=; [done|].
      by apply Forall_cons_iff in Hb as [? _].
    + rewrite IH. split; intros (before & after & H & Hc & Hb).
      * exists (x :: before), after. split_and!; [by rewrite H| done | by constructor].
      * destruct before as [|b before]; simplify_eq/=; [done|].
        apply Forall_cons_iff in Hb as [_ Hb]. by exists before, after.
Qed.

Lemma findCommon_preferred what client server c :
  findCommon what client server = Ret c <-> preferred client server c.
Proof. rewrite <- firstCommon_preferred. unfold findCommon. destruct (firstCommon client server); naive_solver. Qed.

Lemma firstCommon_none client server : firstCommon client server = None <-> Forall (fun x => x ∉ server) client.
Proof.
  induction client as [|x client IH]; simpl; [by split|]. rewrite Forall_cons_iff, <- IH. case_bool_decide; naive_solver.
Qed.

Lemma findCommon_fail what client server :
  (exists e, findCommon what client server = Fail e) <-> Forall (fun x => x ∉ server) client.
Proof. rewrite <- firstCommon_none. unfold findCommon. destruct (firstCommon client server); naive_solver. Qed.

Lemma findCommon_not_panic what client server : panics (findCommon what client server) = false.
Proof. unfold findCommon. by destruct (firstCommon client server). Qed.

Lemma mapGet_elem {V} (m : list (bytes * V)) k v : mapGet m k = Some v -> (k, v) ∈ m.
Proof.
  induction m as [|[k' v'] m IH]; simpl; [done|].
  case_decide; intros; simplify_eq; [left | right; auto].
Qed.

(** ** Properties *)

(** C33: algorithm negotiation picks what the protocol asks for.  The key
    exchange, host key, cipher, MAC and compression algorithms that
    [findAgreedAlgorithms] returns are each the first entry of the client's list
    that the server's list also holds, direction by direction, and it returns
    them exactly when every one of the eight pairs of lists has such an entry. *)
Theorem findAgreedAlgorithms_correct (c s : kexInitMsg) (a : algorithms) :
  findAgreedAlgorithms c s = Ret a <->
  preferred (kexInitMsg_KexAlgos c) (kexInitMsg_KexAlgos s) (alg_kex a) /\
  preferred (kexInitMsg_ServerHostKeyAlgos c) (kexInitMsg_ServerHostKeyAlgos s) (alg_hostKey a) /\
  preferred (kexInitMsg_CiphersClientServer c) (kexInitMsg_CiphersClientServer s) (da_Cipher (alg_w a)) /\
  preferred (kexInitMsg_CiphersServerClient c) (kexInitMsg_CiphersServerClient s) (da_Cipher (alg_r a)) /\
  preferred (kexInitMsg_MACsClientServer c) (kexInitMsg_MACsClientServer s) (da_MAC (alg_w a)) /\
  preferred (kexInitMsg_MACsServerClient c) (kexInitMsg_MACsServerClient s) (da_MAC (alg_r a)) /\
  preferred (kexInitMsg_CompressionClientServer c) (kexInitMsg_CompressionClientServer s)
    (da_Compression (alg_w a)) /\
  preferred (kexInitMsg_CompressionServerClient c) (kexInitMsg_CompressionServerClient s)
    (da_Compression (alg_r a)).
Proof.
  unfold findAgreedAlgorithms. split.
  - intros H. repeat (apply obind_ret in H as (? & ?%findCommon_preferred & H)).
    injection H as <-. simpl. auto 10.
  - destruct a as [k h [wc wm wz] [rc rm rz]]; simpl.
    intros (H1 & H2 & H3 & H4 & H5 & H6 & H7 & H8).
    apply (findCommon_preferred "key exchange") in H1.
    apply (findCommon_preferred "host key") in H2.
    apply (findCommon_preferred "client to server cipher") in H3.
    apply (findCommon_preferred "server to client cipher") in H4.
    apply (findCommon_preferred "client to server MAC") in H5.
    apply (findCommon_preferred "server to client MAC") in H6.
    apply (findCommon_preferred "client to server compression") in H7.
    apply (findCommon_preferred "server to client compression") in H8.
    by rewrite H1; simpl; rewrite H2; simpl; rewrite H3; simpl; rewrite H4; simpl;
      rewrite H5; simpl; rewrite H6; simpl; rewrite H7; simpl; rewrite H8.
Qed.

(** A [kexInitMsg] whose lists for the two directions are the same, as
    [sendKexInit] builds it. *)
Definition symmetric_init (m : kexInitMsg) : Prop :=
  kexInitMsg_CiphersClientServer m = kexInitMsg_CiphersServerClient m /\
  kexInitMsg_MACsClientServer m = kexInitMsg_MACsServerClient m /\
  kexInitMsg_CompressionClientServer m = kexInitMsg_CompressionServerClient m.

Lemma findCommon_what what what' client server c :
  findCommon what client server = Ret c -> findCommon what' client server = Ret c.
Proof. by rewrite !findCommon_preferred. Qed.

(** between two peers that offer the same lists for both directions (as
    this implementation always does), the agreed read and write algorithms are
    the same, so each side's choice of [w] for writing and [r] for reading
    matches the other side's. *)
Theorem symmetric_agreement (c s : kexInitMsg) (a : algorithms) :
  symmetric_init c -> symmetric_init s -> findAgreedAlgorithms c s = Ret a ->
  alg_w a = alg_r a.
Proof.
  intros (Hc1 & Hc2 & Hc3) (Hs1 & Hs2 & Hs3) H. unfold findAgreedAlgorithms in H.
  apply obind_ret in H as (kex & _ & H). apply obind_ret in H as (hk & _ & H).
  apply obind_ret in H as (wc & E1 & H). apply obind_ret in H as (rc & E2 & H).
  apply obind_ret in H as (wm & E3 & H). apply obind_ret in H as (rm & E4 & H).
  apply obind_ret in H as (wz & E5 & H). apply obind_ret in H as (rz & E6 & H).
  injection H as <-. simpl. rewrite Hc1, Hs1 in E1. rewrite Hc2, Hs2 in E3. rewrite Hc3, Hs3 in E5.
  eapply findCommon_what in E1. rewrite E1 in E2.
  eapply findCommon_what in E3. rewrite E3 in E4.
  eapply findCommon_what in E5. rewrite E5 in E6. by simplify_eq.
Qed.

Definition example_init (hostKeys ciphersCS ciphersSC : list bytes) : kexInitMsg :=
  mk_kexInitMsg (repeat "000"%byte 16) supportedKexAlgos hostKeys ciphersCS ciphersSC
    supportedMACs supportedMACs supportedCompressions supportedCompressions [] [] false 0.

Lemma symmetric_agreement_witness :
  exists a, findAgreedAlgorithms
              (example_init supportedHostKeyAlgos supportedCiphers supportedCiphers)
              (example_init [KeyAlgoRSA] supportedCiphers supportedCiphers) = Ret a /\
    alg_w a = alg_r a.
Proof.
  eexists. split; [vm_compute; reflexivity|].
  eapply (symmetric_agreement
            (example_init supportedHostKeyAlgos supportedCiphers supportedCiphers)
            (example_init [KeyAlgoRSA] supportedCiphers supportedCiphers));
    [split_and!; reflexivity | split_and!; reflexivity | vm_compute; reflexivity].
Defined.

(** after [SetDefaults] a configuration is usable: the rekey threshold is 0
    (the cipher's default) or between 256 and 2^63-1 (so the conversion to
    [int64] in the thresholds keeps it), the key exchange and MAC lists, the
    random source and the halter are set,
    and every cipher left has an implementation in [cipherModes]. *)
Theorem SetDefaults_valid (c : Config) :
  0 <= RekeyThreshold c < 2 ^ 64 ->
  let c' := SetDefaults c in
  (RekeyThreshold c' = 0 \/ minRekeyThreshold <= RekeyThreshold c' <= maxInt64) /\
  i64 (RekeyThreshold c') = RekeyThreshold c' /\
  is_Some (KeyExchanges c') /\ is_Some (MACs c') /\ is_Some (Rand c') /\ is_Some (Halt c') /\
  forall name, name ∈ default [] (Ciphers c') ->
    is_Some (mapGet cipherModes name) /\ name ∈ default supportedCiphers (Ciphers c).
Proof.
  intros Hr c'. unfold c', SetDefaults. cbn [Rand RekeyThreshold KeyExchanges Ciphers MACs Halt].
  assert (Hthr : setRekeyThreshold (RekeyThreshold c) = 0 \/
                 minRekeyThreshold <= setRekeyThreshold (RekeyThreshold c) <= maxInt64).
  { unfold setRekeyThreshold, minRekeyThreshold, maxInt64. repeat case_match; b2p; lia. }
  split_and!; [done | | done | done | done | done |].
  - unfold i64, minRekeyThreshold, maxInt64 in *. rewrite Z.mod_small; lia.
  - intros name Hn.
    apply (list_elem_of_filter (fun name => is_Some (mapGet cipherModes name))).
    unfold nilIfEmpty in Hn. destruct (filter _ _) eqn:E; [by apply not_elem_of_nil in Hn | done].
Qed.

Lemma SetDefaults_valid_witness :
  let c' := SetDefaults (mkConfig None 17 None (Some [str "rot13"; str "arcfour"]) None None) in
  (RekeyThreshold c' = 0 \/ minRekeyThreshold <= RekeyThreshold c' <= maxInt64) /\
  i64 (RekeyThreshold c') = RekeyThreshold c' /\
  is_Some (KeyExchanges c') /\ is_Some (MACs c') /\ is_Some (Rand c') /\ is_Some (Halt c') /\
  forall name, name ∈ default [] (Ciphers c') ->
    is_Some (mapGet cipherModes name) /\
    name ∈ default supportedCiphers (Some [str "rot13"; str "arcfour"]).
Proof.
  apply (SetDefaults_valid (mkConfig None 17 None (Some [str "rot13"; str "arcfour"]) None None)).
  simpl. lia.
Defined.

Lemma setRekeyThreshold_idem r : setRekeyThreshold (setRekeyThreshold r) = setRekeyThreshold r.
Proof. unfold setRekeyThreshold, minRekeyThreshold, maxInt64. repeat case_match; b2p; lia. Qed.

(** setting defaults twice changes nothing, unless the first call rejected
    every configured cipher: it then leaves a nil list, which a second call
    replaces with the default ciphers. *)
Theorem SetDefaults_idempotent (c : Config) :
  SetDefaults (SetDefaults c) =
  if decide (Ciphers (SetDefaults c) = None)
  then mkConfig (Rand (SetDefaults c)) (RekeyThreshold (SetDefaults c)) (KeyExchanges (SetDefaults c))
         (Some supportedCiphers) (MACs (SetDefaults c)) (Halt (SetDefaults c))
  else SetDefaults c.
Proof.
  unfold SetDefaults. cbn [Rand RekeyThreshold KeyExchanges Ciphers MACs Halt]. rewrite setRekeyThreshold_idem.
  set (l := filter _ (default supportedCiphers (Ciphers c))). case_decide as Hnil.
  - rewrite Hnil. simpl default. f_equal.
  - destruct l as [|x l'] eqn:E; [done|]. simpl default. f_equal.
    replace (filter _ (x :: l')) with (x :: l'); [done|].
    rewrite <- E. unfold l. by rewrite list_filter_filter_r.
Qed.
