(* ===== verification/Halter.v ===== *)
(** * Lifecycles (halter.go)

    [IdemCloseChan] and the tree of [Halter]s: requesting a stop reaches every
    halter downstream, and a halter is done only after those downstream of it.
    Halters refer to each other, so they live in a heap of addresses.
    [RequestStop] recurses while it holds the halter's mutex; the model keeps
    the set of mutexes the caller holds, since Go's are not reentrant: locking
    one of them again is a deadlock.  [MAD], which ties a context to a halter,
    is the step function of its goroutine. *)

From S2P Require Import Prelude.

(** ** Channels that close once *)

(** [closed] is the flag and also whether the Go channel [Chan] is closed. *)
Record IdemCloseChan := mkIdem { ic_closed : bool }.

Definition NewIdemCloseChan : IdemCloseChan := mkIdem false.
Definition Reinit (c : IdemCloseChan) : IdemCloseChan := mkIdem false.

Definition ErrAlreadyClosed : error := errNew "Chan already closed".

Definition Close (c : IdemCloseChan) : option error * IdemCloseChan :=
  if negb (ic_closed c) then (None, mkIdem true) else (Some ErrAlreadyClosed, c).

Definition IsClosed (c : IdemCloseChan) : bool := ic_closed c.

(** ** Halters *)

Record Halter := mkHalter {
  hl_ready : IdemCloseChan;
  hl_done : IdemCloseChan;
  hl_reqStop : IdemCloseChan;
  hl_err : option error;
  hl_upstream : gset nat;
  hl_downstream : gset nat
}.

Abbreviation heap := (gmap nat Halter).

Definition NewHalter : Halter :=
  mkHalter NewIdemCloseChan NewIdemCloseChan NewIdemCloseChan None ∅ ∅.

Definition SetErr (e : option error) (h : Halter) : Halter :=
  mkHalter (hl_ready h) (hl_done h) (hl_reqStop h) e (hl_upstream h) (hl_downstream h).
Definition with_upstream (u : gset nat) (h : Halter) : Halter :=
  mkHalter (hl_ready h) (hl_done h) (hl_reqStop h) (hl_err h) u (hl_downstream h).
Definition with_downstream (d : gset nat) (h : Halter) : Halter :=
  mkHalter (hl_ready h) (hl_done h) (hl_reqStop h) (hl_err h) (hl_upstream h) d.
Definition closeReqStop (h : Halter) : Halter :=
  mkHalter (hl_ready h) (hl_done h) (Close (hl_reqStop h)).2 (hl_err h) (hl_upstream h) (hl_downstream h).
Definition closeDone (h : Halter) : Halter :=
  mkHalter (hl_ready h) (Close (hl_done h)).2 (hl_reqStop h) (hl_err h) (hl_upstream h) (hl_downstream h).
Definition MarkReady (h : Halter) : Halter :=
  mkHalter (Close (hl_ready h)).2 (hl_done h) (hl_reqStop h) (hl_err h) (hl_upstream h) (hl_downstream h).

(** Update the halter at an address; a nil pointer is no halter. *)
Definition upd (a : nat) (f : Halter -> Halter) (m : heap) : heap := alter f a m.

Definition addUpstream (a u : nat) (m : heap) : heap :=
  upd a (fun h => with_upstream (hl_upstream h ∪ {[u]}) h) m.
Definition removeUpstream (a u : nat) (m : heap) : heap :=
  upd a (fun h => with_upstream (hl_upstream h ∖ {[u]}) h) m.

Definition AddDownstream (a d : nat) (m : heap) : heap :=
  addUpstream d a (upd a (fun h => with_downstream (hl_downstream h ∪ {[d]}) h) m).
Definition RemoveDownstream (a d : nat) (m : heap) : heap :=
  removeUpstream d a (upd a (fun h => with_downstream (hl_downstream h ∖ {[d]}) h) m).

Record RunStatus := mkRunStatus {
  rs_Ready : bool;
  rs_StopRequested : bool;
  rs_Done : bool;
  rs_Err : option error
}.

Definition Status (h : Halter) : RunStatus :=
  mkRunStatus (IsClosed (hl_ready h)) (IsClosed (hl_reqStop h)) (IsClosed (hl_done h))
    (if IsClosed (hl_done h) then hl_err h else None).

(** ** Stopping *)

(** How a call ends: it returns, it waits for ever on a mutex its own goroutine
    holds, it waits for a halter that is not done, or the fuel of the recursion
    ran out. *)
Inductive hres :=
| HRet (m : heap)
| HDeadlock
| HWait
| HFuel.

(** The loop over the downstream halters, given the recursive call. *)
Fixpoint stopEach (stop : nat -> heap -> hres) (ds : list nat) (m : heap) : hres :=
  match ds with
  | [] => HRet m
  | d :: ds' =>
      match stop d m with
      | HRet m' => stopEach stop ds' m'
      | other => other
      end
  end.

(** [held] are the mutexes the calling goroutine holds. *)
Fixpoint RequestStop (fuel : nat) (held : gset nat) (a : nat) (m : heap) : hres :=
  match fuel with
  | O => HFuel
  | S fuel' =>
      let m := upd a closeReqStop m in
      if decide (a ∈ held) then HDeadlock
      else
        match m !! a with
        | None => HRet m
        | Some h => stopEach (RequestStop fuel' ({[a]} ∪ held)) (elements (hl_downstream h)) m
        end
  end.

(** Wait for each downstream halter to be done and leave its upstream set. *)
Fixpoint waitEach (a : nat) (ds : list nat) (m : heap) : hres :=
  match ds with
  | [] => HRet m
  | d :: ds' =>
      match m !! d with
      | Some h => if IsClosed (hl_done h) then waitEach a ds' (removeUpstream d a m) else HWait
      | None => HWait
      end
  end.

Definition waitForDownstreamDone (a : nat) (m : heap) : hres :=
  match m !! a with
  | Some h => waitEach a (elements (hl_downstream h)) m
  | None => HRet m
  end.

Definition MarkDone (fuel : nat) (a : nat) (m : heap) : hres :=
  match RequestStop fuel ∅ a m with
  | HRet m =>
      match waitForDownstreamDone a m with
      | HRet m => HRet (upd a closeDone m)
      | other => other
      end
  | other => other
  end.

Definition MarkDoneNoBlock (fuel : nat) (a : nat) (m : heap) : hres :=
  match RequestStop fuel ∅ a m with
  | HRet m => HRet (upd a closeDone m)
  | other => other
  end.

(** ** Mutual assured destruction *)

(** The goroutine of [MAD]: which channels it still listens to, whether the
    cancel function is still to be called, and the context and halter it ties
    together. *)
Record madState := mkMad {
  md_cchan : bool;
  md_hchan : bool;
  md_cancel : bool;
  md_cDone : bool;
  md_hDone : bool;
  md_ctxCancelled : bool;
  md_reqStop : bool;
  md_done : bool
}.

Definition newMad (hasCancel : bool) : madState := mkMad true true hasCancel false false false false false.

(** The ready cases of its [select]. *)
Inductive madCase := MadCtx | MadReqStop | MadDone.

Definition madReady (c : madCase) (s : madState) : bool :=
  match c with
  | MadCtx => md_cchan s && md_ctxCancelled s
  | MadReqStop => md_hchan s && md_reqStop s
  | MadDone => md_hchan s && md_done s
  end.

Definition madStep (c : madCase) (s : madState) : madState :=
  match c with
  | MadCtx => mkMad false (md_hchan s) (md_cancel s) true (md_hDone s) (md_ctxCancelled s) true true
  | MadReqStop | MadDone =>
      mkMad (md_cchan s) false false (md_cDone s) true (md_ctxCancelled s || md_cancel s) (md_reqStop s) (md_done s)
  end.

Definition madReturned (s : madState) : bool := md_cDone s && md_hDone s.

(** ** Lemmas *)

Inductive reaches (m : heap) (a : nat) : nat -> Prop :=
| reach_refl : reaches m a a
| reach_step b h d : reaches m a b -> m !! b = Some h -> d ∈ hl_downstream h -> reaches m a d.

(** A rank that decreases downstream: the halters form no cycle. *)
Definition ranked (rank : nat -> nat) (m : heap) : Prop :=
  forall a h d, m !! a = Some h -> d ∈ hl_downstream h -> (rank d < rank a)%nat.

(** [m'] is [m] with a stop requested exactly at the addresses in [P]. *)
Definition stopped (P : nat -> Prop) (m m' : heap) : Prop :=
  forall x, (m' !! x = m !! x \/ m' !! x = closeReqStop <$> m !! x) /\
    (P x -> m' !! x = closeReqStop <$> m !! x) /\ (~ P x -> m' !! x = m !! x).

Lemma closeReqStop_idem h : closeReqStop (closeReqStop h) = closeReqStop h.
Proof. destruct h as [? ? [[]] ? ? ?]; done. Qed.

Lemma closeReqStop_fmap_idem (o : option Halter) : closeReqStop <$> (closeReqStop <$> o) = closeReqStop <$> o.
Proof. destruct o; simpl; [by rewrite closeReqStop_idem | done]. Qed.

Lemma stopped_none m : stopped (fun _ => False) m m.
Proof. intros x. split_and!; auto. done. Qed.

Lemma stopped_trans P Q m m1 m2 :
  stopped P m m1 -> stopped Q m1 m2 -> stopped (fun x => P x \/ Q x) m m2.
Proof.
  intros H1 H2 x. destruct (H1 x) as (A1 & B1 & C1), (H2 x) as (A2 & B2 & C2). split_and!.
  - destruct A1 as [E1|E1], A2 as [E2|E2]; rewrite E2, E1, ?closeReqStop_fmap_idem; auto.
  - intros [HP|HQ].
    + rewrite (B1 HP) in *. destruct A2 as [->| ->]; by rewrite ?closeReqStop_fmap_idem.
    + rewrite (B2 HQ). destruct A1 as [->| ->]; by rewrite ?closeReqStop_fmap_idem.
  - intros HN. rewrite C2, C1; naive_solver.
Qed.

Lemma stopped_ext P Q m m' : (forall x, P x <-> Q x) -> stopped P m m' -> stopped Q m m'.
Proof. intros HPQ H x. destruct (H x) as (? & ? & ?). rewrite <- HPQ. by split_and!. Qed.

(** Requesting stops does not change who is downstream of whom. *)
Lemma stopped_downstream P m m' x h' :
  stopped P m m' -> m' !! x = Some h' -> exists h, m !! x = Some h /\ hl_downstream h' = hl_downstream h.
Proof.
  intros H Hx. destruct (H x) as ([E|E] & _); rewrite Hx in E; [by exists h'|].
  destruct (m !! x) as [h|]; simplify_eq/=. by exists h.
Qed.

Lemma stopped_downstream_inv P m m' x h :
  stopped P m m' -> m !! x = Some h -> exists h', m' !! x = Some h' /\ hl_downstream h' = hl_downstream h.
Proof.
  intros H Hx. destruct (H x) as ([E|E] & _); rewrite Hx in E; simpl in E; eexists; by split.
Qed.

Lemma stopped_reaches P m m' a x : stopped P m m' -> reaches m' a x <-> reaches m a x.
Proof.
  intros H. split; induction 1 as [|b h d _ IH Hb Hd]; try constructor.
  - destruct (stopped_downstream _ _ _ _ _ H Hb) as (h0 & ? & Eq). rewrite Eq in Hd. by eapply reach_step.
  - destruct (stopped_downstream_inv _ _ _ _ _ H Hb) as (h0 & ? & Eq). rewrite <- Eq in Hd. by eapply reach_step.
Qed.

Lemma stopped_ranked P rank m m' : stopped P m m' -> ranked rank m -> ranked rank m'.
Proof.
  intros H Hr a h d Ha Hd. destruct (stopped_downstream _ _ _ _ _ H Ha) as (h0 & ? & Eq).
  rewrite Eq in Hd. eauto.
Qed.

Lemma reaches_head m a x :
  reaches m a x -> x = a \/ exists h d, m !! a = Some h /\ d ∈ hl_downstream h /\ reaches m d x.
Proof.
  induction 1 as [|b h d _ [->|(h0 & d0 & ? & ? & ?)] Hb Hd]; [by left | right | right].
  - exists h, d. split_and!; try done. constructor.
  - exists h0, d0. split_and!; try done. by eapply reach_step.
Qed.

Lemma reaches_cons m a h d x : m !! a = Some h -> d ∈ hl_downstream h -> reaches m d x -> reaches m a x.
Proof.
  intros Ha Hd. induction 1 as [|b h0 d0 _ IH Hb Hd0]; (eapply reach_step; [|done|done]); [constructor | done].
Qed.

(** The loop, when the recursive call does what it should. *)
Lemma stopEach_spec rank stop ds m :
  ranked rank m ->
  (forall d m, d ∈ ds -> ranked rank m -> exists m', stop d m = HRet m' /\ stopped (reaches m d) m m') ->
  exists m', stopEach stop ds m = HRet m' /\ stopped (fun x => exists d, d ∈ ds /\ reaches m d x) m m'.
Proof.
  revert m. induction ds as [|d ds IH]; intros m Hr Hstop.
  - exists m. split; [done|]. eapply stopped_ext; [|apply stopped_none]. intros x. split; [done|].
    by intros (d & Hd%not_elem_of_nil & _).
  - destruct (Hstop d m) as (m1 & E & H1); [set_solver | done |]. simpl. rewrite E.
    destruct (IH m1) as (m2 & E2 & H2); [by eapply stopped_ranked | intros; apply Hstop; [set_solver | done] |].
    exists m2. split; [done|]. eapply stopped_ext; [|by eapply stopped_trans].
    intros x. setoid_rewrite (stopped_reaches _ _ _ _ _ H1). set_solver.
Qed.

Lemma upd_stopped a m : stopped (fun x => x = a) m (upd a closeReqStop m).
Proof.
  intros x. unfold upd. destruct (decide (x = a)) as [->|Hne].
  - rewrite lookup_alter_eq. split_and!; [by right | done | done].
  - rewrite lookup_alter_ne by done. split_and!; [by left | done | done].
Qed.

Lemma RequestStop_spec rank fuel held a m :
  ranked rank m -> (rank a < fuel)%nat -> (forall x, x ∈ held -> (rank a < rank x)%nat) ->
  exists m', RequestStop fuel held a m = HRet m' /\ stopped (reaches m a) m m'.
Proof.
  revert held a m. induction fuel as [|fuel IH]; intros held a m Hr Hf Hh; [lia|].
  cbn [RequestStop]. rewrite decide_False by (intros Ha%Hh; lia).
  pose proof (upd_stopped a m) as H0. set (m0 := upd a closeReqStop m) in *.
  assert (Hr0 : ranked rank m0) by by eapply stopped_ranked.
  destruct (m0 !! a) as [h|] eqn:Ea.
  - destruct (stopEach_spec rank (RequestStop fuel ({[a]} ∪ held)) (elements (hl_downstream h)) m0 Hr0) as (m1 & E & H1).
    { intros d m' Hd%elem_of_elements Hr'. pose proof (Hr0 _ _ _ Ea Hd). apply IH; [done | lia |].
      intros x [->%elem_of_singleton | Hx%Hh]%elem_of_union; lia. }
    exists m1. split; [done|]. eapply stopped_ext; [|by eapply stopped_trans]. intros x. cbn beta.
    rewrite <- (stopped_reaches _ _ _ a x H0). setoid_rewrite elem_of_elements. split.
    + intros [->|(d & Hd & Hx)]; [constructor | by eapply reaches_cons].
    + intros [->|(h0 & d & Eh & Hd & Hx)]%reaches_head; [by left|]. right. simplify_eq. eauto.
  - exists m0. split; [done|]. eapply stopped_ext; [|exact H0]. intros x. split; [intros ->; constructor|].
    intros [->|(h0 & d & Eh & _)]%reaches_head; [done|].
    destruct (stopped_downstream_inv _ _ _ _ _ H0 Eh) as (? & ? & _). congruence.
Qed.

(** Waiting leaves the flags alone. *)
Lemma waitEach_frame a ds m m' :
  waitEach a ds m = HRet m' ->
  forall x, (fun h => hl_reqStop h) <$> m' !! x = (fun h => hl_reqStop h) <$> m !! x.
Proof.
  revert m. induction ds as [|d ds IH]; intros m H x; simpl in H; [by simplify_eq|].
  destruct (m !! d) as [h|] eqn:Ed; [|done]. destruct (IsClosed (hl_done h)); [|done].
  rewrite (IH _ H x). unfold removeUpstream, upd. destruct (decide (x = d)) as [->|Hne].
  - by rewrite lookup_alter_eq, Ed.
  - by rewrite lookup_alter_ne.
Qed.

Lemma waitEach_spec a ds m m' :
  waitEach a ds m = HRet m' ->
  (forall d, d ∈ ds -> exists h, m !! d = Some h /\ IsClosed (hl_done h) = true) /\
  forall x, (fun h => IsClosed (hl_done h)) <$> m' !! x = (fun h => IsClosed (hl_done h)) <$> m !! x.
Proof.
  revert m. induction ds as [|d ds IH]; intros m H; simpl in H.
  { simplify_eq. split; [|done]. by intros d Hd%not_elem_of_nil. }
  destruct (m !! d) as [h|] eqn:Ed; [|done]. destruct (IsClosed (hl_done h)) eqn:Ec; [|done].
  apply IH in H as [H1 H2].
  assert (Hsame : forall x, (fun h => IsClosed (hl_done h)) <$> removeUpstream d a m !! x
                            = (fun h => IsClosed (hl_done h)) <$> m !! x).
  { intros x. unfold removeUpstream, upd. destruct (decide (x = d)) as [->|Hne].
    - rewrite lookup_alter_eq, Ed. done.
    - by rewrite lookup_alter_ne. }
  split.
  - intros x [->|Hx]%elem_of_cons; [by exists h|]. destruct (H1 x Hx) as (h' & E & Hc).
    specialize (Hsame x). rewrite E in Hsame. destruct (m !! x) as [h0|]; simplify_eq/=. exists h0. split; congruence.
  - intros x. by rewrite H2.
Qed.

(** Whatever the halters look like, a request that returns has only set stop
    flags, the caller's among them. *)
Definition only_stops (m m' : heap) : Prop :=
  forall x, m' !! x = m !! x \/ m' !! x = closeReqStop <$> m !! x.

Lemma only_stops_trans m m1 m2 : only_stops m m1 -> only_stops m1 m2 -> only_stops m m2.
Proof.
  intros H1 H2 x. destruct (H1 x) as [E1|E1], (H2 x) as [E2|E2]; rewrite E2, E1, ?closeReqStop_fmap_idem; auto.
Qed.

Lemma stopEach_only stop ds m m' :
  (forall d m m', stop d m = HRet m' -> only_stops m m') -> stopEach stop ds m = HRet m' -> only_stops m m'.
Proof.
  intros Hs. revert m. induction ds as [|d ds IH]; intros m H; simpl in H; [simplify_eq; by left|].
  destruct (stop d m) as [m1| | |] eqn:E; try done. eapply only_stops_trans; [by eapply Hs | by apply IH].
Qed.

Lemma RequestStop_only fuel held a m m' :
  RequestStop fuel held a m = HRet m' -> only_stops m m' /\ m' !! a = closeReqStop <$> m !! a.
Proof.
  revert held a m m'. induction fuel as [|fuel IH]; intros held a m m' H; [done|]. cbn [RequestStop] in H.
  destruct (decide (a ∈ held)); [done|]. pose proof (upd_stopped a m) as H0. set (m0 := upd a closeReqStop m) in *.
  assert (Ho : only_stops m m0) by (intros x; apply (H0 x)).
  assert (Ha : m0 !! a = closeReqStop <$> m !! a) by (by apply (H0 a)).
  destruct (m0 !! a) as [h|] eqn:Ea.
  - apply stopEach_only in H; [|intros d m1 m2 E; by apply IH in E as [? _]].
    split; [by eapply only_stops_trans|]. rewrite <- Ha. destruct (H a) as [-> | ->]; [by rewrite Ea|].
    rewrite Ea, Ha. apply closeReqStop_fmap_idem.
  - simplify_eq. rewrite Ea. by split.
Qed.

(** ** Properties *)

(** a stop request reaches exactly the halters downstream.  On halters
    without a cycle (a rank decreases downstream), [RequestStop] terminates
    without deadlock although it recurses with mutexes held, also where two
    paths lead to the same halter; afterwards a stop is requested at every
    halter that can be reached from the caller, and nothing else has changed. *)
Theorem request_stop_reaches (rank : nat -> nat) (fuel a : nat) (m : heap) :
  ranked rank m -> (rank a < fuel)%nat ->
  exists m', RequestStop fuel ∅ a m = HRet m' /\
    (forall x, reaches m a x -> m' !! x = closeReqStop <$> m !! x) /\
    (forall x, ~ reaches m a x -> m' !! x = m !! x).
Proof.
  intros Hr Hf. destruct (RequestStop_spec rank fuel ∅ a m Hr Hf) as (m' & E & H); [set_solver|].
  exists m'. split; [done|]. split; intros x; apply (H x).
Qed.

(** A diamond: 0 is upstream of 1 and 2, which are both upstream of 3. *)
Definition diamond : heap :=
  AddDownstream 2 3 (AddDownstream 1 3 (AddDownstream 0 2 (AddDownstream 0 1
    (<[0%nat := NewHalter]> (<[1%nat := NewHalter]> (<[2%nat := NewHalter]>
      (<[3%nat := NewHalter]> (<[4%nat := NewHalter]> ∅)))))))).

Lemma ranked_decidable rank m :
  map_Forall (fun a h => set_Forall (fun d => (rank d < rank a)%nat) (hl_downstream h)) m -> ranked rank m.
Proof. intros H a h d Ha Hd. by apply (H a h Ha d). Qed.

Lemma request_stop_reaches_witness :
  exists m', RequestStop 6 ∅ 1 diamond = HRet m' /\ m' !! 3%nat = closeReqStop <$> diamond !! 3%nat.
Proof.
  destruct (request_stop_reaches (fun x => (5 - x)%nat) 6 1 diamond) as (m' & H & H1 & _).
  - apply ranked_decidable. decide_vm.
  - simpl. lia.
  - exists m'. split; [assumption|]. apply H1.
    eapply (reach_step _ _ 1%nat); [constructor | vm_compute; reflexivity | decide_vm].
Defined.

(** in a cycle, [RequestStop] deadlocks: the second visit waits for the
    mutex the first one holds.  (AddDownstream accepts such a cycle.) *)
Theorem cycle_deadlocks (m : heap) (a b : nat) (ha hb : Halter) (fuel : nat) :
  a <> b -> m !! a = Some ha -> m !! b = Some hb ->
  hl_downstream ha = {[b]} -> hl_downstream hb = {[a]} -> (2 < fuel)%nat ->
  RequestStop fuel ∅ a m = HDeadlock.
Proof.
  intros Hne Ha Hb Da Db Hf. destruct fuel as [|[|[|fuel]]]; try lia.
  cbn [RequestStop]. rewrite decide_False by set_solver. unfold upd. rewrite lookup_alter_eq, Ha.
  cbn [fmap option_fmap option_map]. change (hl_downstream (closeReqStop ha)) with (hl_downstream ha).
  rewrite Da, elements_singleton. cbn [stopEach]. rewrite decide_False by set_solver.
  rewrite lookup_alter_eq, lookup_alter_ne, Hb by done.
  cbn [fmap option_fmap option_map]. change (hl_downstream (closeReqStop hb)) with (hl_downstream hb).
  rewrite Db, elements_singleton. cbn [stopEach]. by rewrite decide_True by set_solver.
Qed.

Definition twoCycle : heap :=
  AddDownstream 1 0 (AddDownstream 0 1 (<[0%nat := NewHalter]> (<[1%nat := NewHalter]> ∅))).

Lemma cycle_deadlocks_witness : RequestStop 10 ∅ 0 twoCycle = HDeadlock.
Proof.
  eapply (cycle_deadlocks twoCycle 0 1); [done | vm_compute; reflexivity | vm_compute; reflexivity
    | apply leibniz_equiv; decide_vm | apply leibniz_equiv; decide_vm | lia].
Defined.

(** a halter is done only after everything directly downstream is: when
    [MarkDone] returns, every downstream halter was already done, and the
    halter itself is done and asked to stop. *)
Theorem mark_done_after_downstream (fuel a : nat) (m m' : heap) (h : Halter) :
  m !! a = Some h -> MarkDone fuel a m = HRet m' ->
  (forall d, d ∈ hl_downstream h -> exists hd, m' !! d = Some hd /\ IsClosed (hl_done hd) = true) /\
  exists h', m' !! a = Some h' /\ IsClosed (hl_done h') = true /\ IsClosed (hl_reqStop h') = true.
Proof.
  intros Ha H. unfold MarkDone in H. destruct (RequestStop fuel ∅ a m) as [m1| | |] eqn:E; try done.
  apply RequestStop_only in E as [Ho E]. unfold waitForDownstreamDone in H. rewrite E, Ha in H. simpl in H.
  destruct (waitEach a _ m1) as [m2| | |] eqn:Ew; try done. injection H as <-.
  assert (Hds : only_stops m1 m1) by by left.
  pose proof (waitEach_frame a _ _ _ Ew) as Hf. apply waitEach_spec in Ew as [Hd Hs]. split.
  - intros d Hin. destruct (Hd d) as (hd & Ed & Hc); [by apply elem_of_elements|].
    specialize (Hs d). rewrite Ed in Hs. destruct (m2 !! d) as [h2|] eqn:E2; simplify_eq/=.
    unfold upd. destruct (decide (d = a)) as [->|Hne].
    + rewrite lookup_alter_eq, E2. eexists. split; [done|]. unfold closeDone, Close. simpl.
      by destruct (ic_closed _) eqn:?.
    + rewrite lookup_alter_ne, E2 by done. eexists. split; [done|]. congruence.
  - specialize (Hf a). rewrite E, Ha in Hf. destruct (m2 !! a) as [h2|] eqn:E2; simplify_eq/=.
    unfold upd. rewrite lookup_alter_eq, E2. eexists. split; [done|]. unfold closeDone, Close, IsClosed. simpl.
    split; [by destruct (ic_closed (hl_done h2)) eqn:?|]. rewrite Hf. unfold Close.
    by destruct (ic_closed (hl_reqStop h)) eqn:?.
Qed.

Definition doneLeaf : heap :=
  match MarkDone 5 3 diamond with HRet m => m | _ => diamond end.

Lemma mark_done_after_downstream_witness :
  exists m', MarkDone 6 1 doneLeaf = HRet m' /\
    exists h', m' !! 1%nat = Some h' /\ IsClosed (hl_done h') = true /\ IsClosed (hl_reqStop h') = true.
Proof.
  eexists. split; [vm_compute; reflexivity|].
  eapply (mark_done_after_downstream 6 1 doneLeaf); [vm_compute; reflexivity | vm_compute; reflexivity].
Defined.

(** Runs of the [MAD] goroutine, interleaved with the rest of the program. *)
Inductive madReach (hasCancel : bool) : madState -> Prop :=
| mad_init : madReach hasCancel (newMad hasCancel)
| mad_ctx s : madReach hasCancel s ->
    madReach hasCancel (mkMad (md_cchan s) (md_hchan s) (md_cancel s) (md_cDone s) (md_hDone s) true (md_reqStop s) (md_done s))
| mad_halt s q d : madReach hasCancel s ->
    madReach hasCancel (mkMad (md_cchan s) (md_hchan s) (md_cancel s) (md_cDone s) (md_hDone s) (md_ctxCancelled s)
      (md_reqStop s || q) (md_done s || d))
| mad_run s c : madReach hasCancel s -> madReturned s = false -> madReady c s = true ->
    madReach hasCancel (madStep c s).

(** a context and a halter tied by [MAD] go down together: whenever the
    goroutine has nothing left to do (no case of its [select] is ready, or it
    has returned), then a cancelled context means the halter is stopped and
    done, and a halter that is stopped or done means the context is cancelled
    (given a cancel function). *)
Theorem mad_mutual (s : madState) :
  madReach true s -> (madReturned s = true \/ forall c, madReady c s = false) ->
  (md_ctxCancelled s = true -> md_reqStop s = true /\ md_done s = true) /\
  (md_reqStop s = true \/ md_done s = true -> md_ctxCancelled s = true).
Proof.
  intros Hr Hq.
  assert (Hinv : (md_cchan s = false -> md_reqStop s = true /\ md_done s = true) /\
                 (md_hchan s = false -> md_ctxCancelled s = true) /\
                 (md_hchan s = true -> md_cancel s = true) /\
                 (md_cDone s = true -> md_cchan s = false) /\ (md_hDone s = true -> md_hchan s = false)).
  { clear Hq. induction Hr as [|s _ IH|s q d _ IH|s c _ IH Hn Hc]; [done|naive_solver| |].
    - destruct IH as (I1 & I2 & I3 & I4 & I5). split_and!; simpl; try done.
      intros H. destruct (I1 H) as [-> ->]. done.
    - destruct IH as (I1 & I2 & I3 & I4 & I5). destruct c; simpl in *.
      + apply andb_true_iff in Hc as [? ?]. by split_and!.
      + apply andb_true_iff in Hc as [Hh ?]. rewrite (I3 Hh), orb_true_r. by split_and!.
      + apply andb_true_iff in Hc as [Hh ?]. rewrite (I3 Hh), orb_true_r. by split_and!. }
  destruct Hinv as (I1 & I2 & I3 & I4 & I5). destruct Hq as [Hret|Hq].
  - unfold madReturned in Hret. apply andb_true_iff in Hret as [Hc Hh]. split; auto.
  - pose proof (Hq MadCtx) as H1. pose proof (Hq MadReqStop) as H2. pose proof (Hq MadDone) as H3. simpl in *. split.
    + intros Hc. rewrite Hc, andb_true_r in H1. auto.
    + intros [Hc|Hc]; [rewrite Hc, andb_true_r in H2 | rewrite Hc, andb_true_r in H3]; auto.
Qed.

Lemma mad_mutual_witness :
  md_ctxCancelled (madStep MadReqStop (mkMad true true true false false false true false)) = true.
Proof.
  assert (Hr : madReach true (madStep MadCtx (madStep MadReqStop (mkMad true true true false false false true false)))).
  { apply mad_run; [|reflexivity|reflexivity]. apply mad_run; [|reflexivity|reflexivity].
    apply (mad_halt true (newMad true) true false). constructor. }
  destruct (mad_mutual _ Hr (or_introl eq_refl)) as [_ H]. apply H. left. reflexivity.
Defined.
