(* ===== verification/Idle.v ===== *)
(** * Idle timers (idle.go, and the deadline arithmetic of channel.go)

    An [IdleTimer] is a goroutine ([backgroundStart]) that owns the timeout
    duration and the heartbeat ticker and serves requests over channels, plus
    fields that callers update atomically.  The state here is both together;
    [backgroundEvent] is one round of the goroutine's [select] for the case that
    became ready, and the methods are the callers' side.  Times are nanoseconds
    of the monotonic clock, passed in where the code reads it.

    The text of a raised timeout is built by [fmt.Sprintf] and starts with
    "timing out", so it is never empty: [timeOutRaised] is [None] for the empty
    string and [Some] of the numbers in the text otherwise.

    [AttemptOK] (one-shot) and [Stop] wait for the goroutine to be done, and panic
    when that takes ten seconds.  The goroutine answers a stop request in its next
    round, and no round of it waits for anything but its [select]; how long a round
    takes is a matter of the scheduler, so the wait always ends here and the panic
    is left out. *)

From S2P Require Import Prelude.

Record IdleTimer := mkIdleTimer {
  it_dur : Z;
  it_atomicdur : Z;
  it_lastStart : Z;
  it_lastOK : Z;
  it_heartbeat : option Z;
  it_timeOutRaised : option (Z * Z * Z);
  it_callbacks : list nat;
  it_isOneshot : bool;
  it_stopRequested : bool;
  it_done : bool
}.

(** ** Field updates *)

Definition with_lastStart (v : Z) (t : IdleTimer) : IdleTimer :=
  mkIdleTimer (it_dur t) (it_atomicdur t) v (it_lastOK t) (it_heartbeat t)
    (it_timeOutRaised t) (it_callbacks t) (it_isOneshot t) (it_stopRequested t) (it_done t).

Definition with_lastOK (v : Z) (t : IdleTimer) : IdleTimer :=
  mkIdleTimer (it_dur t) (it_atomicdur t) (it_lastStart t) v (it_heartbeat t)
    (it_timeOutRaised t) (it_callbacks t) (it_isOneshot t) (it_stopRequested t) (it_done t).

Definition with_raised (v : option (Z * Z * Z)) (t : IdleTimer) : IdleTimer :=
  mkIdleTimer (it_dur t) (it_atomicdur t) (it_lastStart t) (it_lastOK t) (it_heartbeat t)
    v (it_callbacks t) (it_isOneshot t) (it_stopRequested t) (it_done t).

Definition with_callbacks (v : list nat) (t : IdleTimer) : IdleTimer :=
  mkIdleTimer (it_dur t) (it_atomicdur t) (it_lastStart t) (it_lastOK t) (it_heartbeat t)
    (it_timeOutRaised t) v (it_isOneshot t) (it_stopRequested t) (it_done t).

Definition with_heartbeat (v : option Z) (t : IdleTimer) : IdleTimer :=
  mkIdleTimer (it_dur t) (it_atomicdur t) (it_lastStart t) (it_lastOK t) v
    (it_timeOutRaised t) (it_callbacks t) (it_isOneshot t) (it_stopRequested t) (it_done t).

(** [dur = d; atomic.StoreInt64(&t.atomicdur, int64(dur))]. *)
Definition with_dur (d : Z) (t : IdleTimer) : IdleTimer :=
  mkIdleTimer d d (it_lastStart t) (it_lastOK t) (it_heartbeat t)
    (it_timeOutRaised t) (it_callbacks t) (it_isOneshot t) (it_stopRequested t) (it_done t).

Definition with_oneshot (t : IdleTimer) : IdleTimer :=
  mkIdleTimer (it_dur t) (it_atomicdur t) (it_lastStart t) (it_lastOK t) (it_heartbeat t)
    (it_timeOutRaised t) (it_callbacks t) true (it_stopRequested t) (it_done t).

Definition with_stop (t : IdleTimer) : IdleTimer :=
  mkIdleTimer (it_dur t) (it_atomicdur t) (it_lastStart t) (it_lastOK t) (it_heartbeat t)
    (it_timeOutRaised t) (it_callbacks t) (it_isOneshot t) true (it_done t).

Definition with_done (t : IdleTimer) : IdleTimer :=
  mkIdleTimer (it_dur t) (it_atomicdur t) (it_lastStart t) (it_lastOK t) None
    (it_timeOutRaised t) (it_callbacks t) (it_isOneshot t) true true.

(** ** The ticker *)

Definition factor : Z := 10.

(** [time.NewTicker] panics on a period that is not positive. *)
Definition newTicker (period : Z) : outcome Z :=
  if period <=? 0 then Panic "non-positive interval for NewTicker" else Ret period.

(** Go's integer division truncates towards zero. *)
Definition startHeartbeat (t : IdleTimer) : outcome IdleTimer :=
  let? p := newTicker (Z.quot (it_dur t) factor) in
  Ret (with_heartbeat (Some p) t).

Definition NewIdleTimer (callback : option nat) (dur : Z) : outcome IdleTimer :=
  let t := mkIdleTimer dur dur 0 0 None None
             (match callback with Some f => [f] | None => [] end) false false false in
  if 0 <? dur then startHeartbeat t else Ret t.

(** ** Status *)

(** [IdleStatus]: is an attempt outstanding for longer than the timeout? *)
Definition IdleStatus (mnow : Z) (t : IdleTimer) : bool :=
  let todur := it_atomicdur t in
  if (todur <=? 0) || (it_lastStart t <=? 0) || (it_lastStart t <=? it_lastOK t) then false
  else
    let since := mnow - it_lastStart t in
    todur <? since.

(** ** The background goroutine *)

(** The case of the [select] that became ready. *)
Inductive event :=
| EvReqStop
| EvTimedOutQuery
| EvSetCallback (f : nat)
| EvAddCallback (f : nat)
| EvGetIdleTimeout
| EvSetIdleTimeout (newdur : Z)
| EvHeartbeat (mnow : Z).

Definition handleSetIdleTimeout (newdur : Z) (t : IdleTimer) : outcome IdleTimer :=
  let t := with_lastStart (-1) (with_raised None t) in
  if 0 <? it_dur t then
    if newdur =? it_dur t then Ret t
    else if newdur <=? 0 then
      Ret (with_heartbeat None (with_dur newdur t))
    else
      let? t := startHeartbeat (with_dur newdur t) in
      Ret (with_lastStart (-1) t)
  else
    if newdur <=? 0 then Ret (with_dur 0 t)
    else
      let? t := startHeartbeat (with_dur newdur t) in
      Ret (with_lastStart (-1) t).

(** On a heartbeat: the new state and the callbacks that are started, each on
    a goroutine of its own. *)
Definition handleHeartbeat (mnow : Z) (t : IdleTimer) : outcome (IdleTimer * list nat) :=
  if it_dur t =? 0 then Panic "should be impossible to get heartbeat.C on dur == 0"
  else if IdleStatus mnow t then
    let since := mnow - it_lastStart t in
    let t := with_raised (Some (it_dur t, since, it_atomicdur t)) t in
    let t := with_heartbeat None t in
    match it_callbacks t with
    | [] => Panic "IdleTimer.timeoutCallback was never set! call t.addTimeoutCallback() first"
    | fs => Ret (t, fs)
    end
  else Ret (t, []).

(** One round of the loop; the ticker's case is only ready while a heartbeat is
    running, and nothing is ready after the goroutine has returned. *)
Definition backgroundEvent (e : event) (t : IdleTimer) : outcome (IdleTimer * list nat) :=
  if it_done t then Ret (t, [])
  else
    match e with
    | EvReqStop => Ret (if it_stopRequested t then with_done t else t, [])
    | EvTimedOutQuery => Ret (t, [])
    | EvSetCallback f => Ret (with_callbacks [f] t, [])
    | EvAddCallback f => Ret (with_callbacks (it_callbacks t ++ [f]) t, [])
    | EvGetIdleTimeout => Ret (t, [])
    | EvSetIdleTimeout newdur =>
        let? t := handleSetIdleTimeout newdur t in
        Ret (t, [])
    | EvHeartbeat mnow =>
        match it_heartbeat t with
        | None => Ret (t, [])
        | Some _ => handleHeartbeat mnow t
        end
    end.

(** ** The callers' side *)

Definition BeginAttempt (mnow : Z) (t : IdleTimer) : IdleTimer := with_lastStart mnow t.

(** A one-shot timer is shut down by the first success: the goroutine sees the
    request and marks itself done, which the caller waits for. *)
Definition AttemptOK (mnow : Z) (t : IdleTimer) : IdleTimer :=
  if it_isOneshot t then with_done (with_stop t)
  else with_lastOK mnow t.

Definition Stop (t : IdleTimer) : IdleTimer := with_done (with_stop t).

(** Once a stop was requested, the request may be dropped. *)
Definition SetIdleTimeout (dur : Z) (t : IdleTimer) : outcome IdleTimer :=
  if it_stopRequested t then Ret t
  else
    let? (t, _) := backgroundEvent (EvSetIdleTimeout dur) t in
    Ret t.

Definition SetOneshotIdleTimeout (dur : Z) (t : IdleTimer) : outcome IdleTimer :=
  SetIdleTimeout dur (with_oneshot t).

(** A nil function is refused with a panic. *)
Definition AddTimeoutCallback (f : option nat) (t : IdleTimer) : outcome IdleTimer :=
  match f with
  | None => Panic "cannot call addTimeoutCallback with nil function!"
  | Some f =>
      if it_stopRequested t then Ret t
      else
        let? (t, _) := backgroundEvent (EvAddCallback f) t in
        Ret t
  end.

Definition setTimeoutCallback (f : nat) (t : IdleTimer) : outcome IdleTimer :=
  if it_stopRequested t then Ret t
  else
    let? (t, _) := backgroundEvent (EvSetCallback f) t in
    Ret t.

(** Once a stop was requested, the answer is the zero value. *)
Definition GetIdleTimeout (t : IdleTimer) : Z := if it_stopRequested t then 0 else it_dur t.

Definition LastOKLastStartAndMonoNow (mnow : Z) (t : IdleTimer) : Z * Z * Z := (it_lastOK t, it_lastStart t, mnow).

(** The answer on the [TimedOut] channel. *)
Definition queryTimedOut (t : IdleTimer) : option (Z * Z * Z) := it_timeOutRaised t.

(** [channel.setDeadline] for the timer of one direction: [tm] is [None] for the
    zero time. *)
Definition nanosecond : Z := 1.

Definition setDeadline (now : Z) (tm : option Z) (t : IdleTimer) : outcome IdleTimer :=
  match tm with
  | None => SetOneshotIdleTimeout 0 t
  | Some tm =>
      let dur := if negb (now <? tm) then nanosecond else tm - now in
      SetOneshotIdleTimeout dur t
  end.

(** ** Runs *)

(** What happens to a timer: a round of its goroutine or a caller's update. *)
Inductive action :=
| ABackground (e : event)
| ABegin (mnow : Z)
| AOK (mnow : Z)
| AOneshot
| AReqStop.

Definition act (a : action) (t : IdleTimer) : outcome (IdleTimer * list nat) :=
  match a with
  | ABackground e => backgroundEvent e t
  | ABegin mnow => Ret (BeginAttempt mnow t, [])
  | AOK mnow => Ret (AttemptOK mnow t, [])
  | AOneshot => Ret (with_oneshot t, [])
  | AReqStop => Ret (with_stop t, [])
  end.

(** A step of the timer, with the callbacks it starts. *)
Inductive step : IdleTimer -> IdleTimer -> Prop :=
| step_act a t t' fs : act a t = Ret (t', fs) -> step t t'.

Definition reachable (t : IdleTimer) : Prop :=
  exists cb dur t0, NewIdleTimer cb dur = Ret t0 /\ rtc step t0 t.

(** ** Invariant *)

(** The two copies of the duration agree, and a heartbeat only runs with a
    positive duration and period. *)
Definition idle_inv (t : IdleTimer) : Prop :=
  it_atomicdur t = it_dur t /\
  match it_heartbeat t with
  | None => True
  | Some p => 0 < it_dur t /\ p = Z.quot (it_dur t) factor /\ 0 < p
  end.

Ltac idle_unfold :=
  unfold idle_inv, startHeartbeat, newTicker, with_lastStart, with_lastOK, with_raised,
    with_callbacks, with_heartbeat, with_dur, with_oneshot, with_stop, with_done in *;
  cbn [it_dur it_atomicdur it_lastStart it_lastOK it_heartbeat it_timeOutRaised it_callbacks
       it_isOneshot it_stopRequested it_done obind] in *.

Lemma startHeartbeat_inv t t' :
  it_atomicdur t = it_dur t -> startHeartbeat t = Ret t' -> idle_inv t'.
Proof.
  intros Hd H. idle_unfold. case_match; b2p; simpl in H; simplify_eq; simpl.
  split_and!; try done. unfold factor in *.
  destruct (Z.le_gt_cases (it_dur t) 0) as [Hle|]; [|done].
  pose proof (Z.quot_opp_l (- it_dur t) 10 ltac:(lia)). rewrite Z.opp_involutive in *.
  pose proof (Z.quot_pos (- it_dur t) 10 ltac:(lia) ltac:(lia)). lia.
Qed.

Lemma with_lastStart_inv v t : idle_inv t -> idle_inv (with_lastStart v t).
Proof. done. Qed.

Lemma handleSetIdleTimeout_inv d t t' :
  idle_inv t -> handleSetIdleTimeout d t = Ret t' -> idle_inv t'.
Proof.
  intros Ht H. unfold handleSetIdleTimeout in H.
  destruct (0 <? it_dur _) eqn:E1; [destruct (d =? it_dur _)|]; [by simplify_eq|..];
    destruct (d <=? 0); simplify_eq; try done;
    try (apply obind_ret in H as (t1 & H1 & H); simplify_eq;
         apply with_lastStart_inv; by eapply startHeartbeat_inv in H1).
  split; [done|]. idle_unfold. destruct (it_heartbeat t) as [p|]; [|done].
  destruct Ht as [_ (? & _)]. b2p. lia.
Qed.

Lemma handleHeartbeat_inv now t t' fs :
  idle_inv t -> handleHeartbeat now t = Ret (t', fs) -> idle_inv t'.
Proof.
  intros Ht H. unfold handleHeartbeat in H.
  destruct (it_dur t =? 0); [done|]. destruct (IdleStatus now t); [|by simplify_eq].
  destruct (it_callbacks _); [done|]. simplify_eq. split; [apply Ht | done].
Qed.

Lemma act_inv a t t' fs : idle_inv t -> act a t = Ret (t', fs) -> idle_inv t'.
Proof.
  intros Ht H. destruct a as [e| | | |]; simpl in H; simplify_eq; try done.
  - unfold backgroundEvent in H. destruct (it_done t); [by simplify_eq|].
    destruct e; simplify_eq; try done.
    + destruct (it_stopRequested t); [|done]. by destruct Ht.
    + apply obind_ret in H as (t1 & H1 & H). simplify_eq. by eapply handleSetIdleTimeout_inv.
    + destruct (it_heartbeat t); [by eapply handleHeartbeat_inv | by simplify_eq].
  - unfold AttemptOK. destruct (it_isOneshot t); [|done]. by destruct Ht.
Qed.

Lemma NewIdleTimer_inv cb dur t : NewIdleTimer cb dur = Ret t -> idle_inv t.
Proof.
  unfold NewIdleTimer. destruct (0 <? dur); intros H; [|by simplify_eq].
  by eapply startHeartbeat_inv in H.
Qed.

Lemma reachable_inv t : reachable t -> idle_inv t.
Proof.
  intros (cb & dur & t0 & H0 & Hr). apply NewIdleTimer_inv in H0.
  induction Hr as [|t1 t2 t3 [a ? ? fs Ha] _ IH]; [done|]. apply IH. by eapply act_inv.
Qed.

(** *** Timers that do not panic *)

(** A timer with a callback, as the channels have them. *)
Definition timer_ok (t : IdleTimer) : Prop := idle_inv t /\ it_callbacks t <> [].

(** The durations for which [time.NewTicker] gets a positive period, and the
    deadlines that become such a duration. *)
Definition tickable (dur : Z) : bool := (dur <=? 0) || (factor <=? dur).
Definition deadlineTickable (now : Z) (tm : option Z) : bool :=
  match tm with None => true | Some tm => now + factor <=? tm end.

Lemma timer_ok_BeginAttempt now t : timer_ok t -> timer_ok (BeginAttempt now t).
Proof. done. Qed.

Lemma timer_ok_with_stop t : timer_ok t -> timer_ok (with_stop t).
Proof. done. Qed.

Lemma timer_ok_Stop t : timer_ok t -> timer_ok (Stop t).
Proof. by intros [[? _] ?]. Qed.

Lemma timer_ok_AttemptOK now t : timer_ok t -> timer_ok (AttemptOK now t).
Proof. intros Ht. unfold AttemptOK. destruct (it_isOneshot t); [by apply timer_ok_Stop | done]. Qed.

Lemma startHeartbeat_ok t : factor <= it_dur t -> exists t', startHeartbeat t = Ret t' /\ it_callbacks t' = it_callbacks t.
Proof.
  intros Hd. idle_unfold. destruct (Z.quot (it_dur t) factor <=? 0) eqn:E; b2p.
  - pose proof (Z.quot_le_mono factor (it_dur t) factor). unfold factor in *. change (10 ÷ 10) with 1 in *. lia.
  - eexists. done.
Qed.

Lemma handleSetIdleTimeout_ok dur t : tickable dur = true ->
  exists t', handleSetIdleTimeout dur t = Ret t' /\ it_callbacks t' = it_callbacks t.
Proof.
  intros Hd. unfold tickable in Hd. apply orb_true_iff in Hd. unfold handleSetIdleTimeout.
  destruct (0 <? it_dur _); [destruct (dur =? it_dur _); [eauto|]|]; (destruct (dur <=? 0) eqn:E; [eauto|]); b2p;
    (destruct (startHeartbeat_ok (with_dur dur (with_lastStart (-1) (with_raised None t)))) as (t' & -> & Hc);
      [cbn; lia | cbn [obind]; eauto]).
Qed.

Lemma SetIdleTimeout_ok dur t : tickable dur = true -> timer_ok t -> exists t', SetIdleTimeout dur t = Ret t' /\ timer_ok t'.
Proof.
  intros Hd [Ht Hc]. unfold SetIdleTimeout, backgroundEvent. destruct (it_stopRequested t); [by exists t|].
  destruct (it_done t); [by exists t|]. destruct (handleSetIdleTimeout_ok dur t Hd) as (t' & E & Hc').
  exists t'. rewrite E. cbn [obind]. split; [done|]. split; [by eapply handleSetIdleTimeout_inv | by rewrite Hc'].
Qed.

Lemma setDeadline_ok now tm t : deadlineTickable now tm = true -> timer_ok t ->
  exists t', setDeadline now tm t = Ret t' /\ timer_ok t'.
Proof.
  intros Hd Ht. unfold setDeadline, SetOneshotIdleTimeout. destruct tm as [tm|]; [|by apply SetIdleTimeout_ok].
  apply SetIdleTimeout_ok; [|done]. cbn in Hd. unfold tickable, factor in *. b2p.
  replace (now <? tm) with true by lia. cbn [negb]. lia.
Qed.

(** A tick of the heartbeat, for the caller that does not look at the callbacks. *)
Definition heartbeat (mnow : Z) (t : IdleTimer) : outcome IdleTimer :=
  let? (t, _) := backgroundEvent (EvHeartbeat mnow) t in Ret t.

Lemma heartbeat_ok mnow t : timer_ok t -> exists t', heartbeat mnow t = Ret t' /\ timer_ok t'.
Proof.
  intros [Ht Hc]. unfold heartbeat, backgroundEvent. destruct (it_done t); [by exists t|].
  destruct (it_heartbeat t) as [p|] eqn:Eh; [|by exists t].
  assert (Hp := proj2 Ht). rewrite Eh in Hp. unfold handleHeartbeat. replace (it_dur t =? 0) with false by lia.
  destruct (IdleStatus mnow t); [|by exists t]. cbn [it_callbacks with_heartbeat with_raised].
  destruct (it_callbacks t) eqn:Ec; [done|]. cbn [obind]. eexists. split; [done|].
  split; [split; [apply Ht | done] |]. cbn. by rewrite Ec.
Qed.

(** The condition under which [IdleStatus] reports a timeout. *)
Lemma IdleStatus_iff mnow t :
  IdleStatus mnow t = true <->
  0 < it_atomicdur t /\ 0 < it_lastStart t /\ it_lastOK t < it_lastStart t /\
  it_atomicdur t < mnow - it_lastStart t.
Proof.
  unfold IdleStatus.
  destruct (it_atomicdur t <=? 0) eqn:E1, (it_lastStart t <=? 0) eqn:E2,
    (it_lastStart t <=? it_lastOK t) eqn:E3; b2p; cbn [orb]; rewrite ?Z.ltb_lt;
    split; intros; first [done | lia | exfalso; lia].
Qed.

(** ** Properties *)

(** the "should be impossible" panic of the timer goroutine is impossible:
    in every reachable state a heartbeat is only running while the duration is
    positive, and its period is a tenth of that duration, so handling a
    heartbeat either works or, if no callback was ever registered, panics for
    that reason alone. *)
Theorem heartbeat_never_on_zero_dur (t : IdleTimer) (p mnow : Z) :
  reachable t -> it_heartbeat t = Some p ->
  0 < it_dur t /\ 0 < p /\ p = Z.quot (it_dur t) factor /\
  (it_callbacks t <> [] -> exists t' fs, handleHeartbeat mnow t = Ret (t', fs)).
Proof.
  intros Hr Hp. destruct (reachable_inv t Hr) as [Hd Hh]. rewrite Hp in Hh.
  destruct Hh as (? & -> & ?). split_and!; try done. intros Hcb. unfold handleHeartbeat.
  destruct (it_dur t =? 0) eqn:E; b2p; [lia|]. destruct (IdleStatus mnow t); [|eauto].
  cbn. destruct (it_callbacks t); [done | eauto].
Qed.

(** A timer of 100 ns with one callback. *)
Definition example_timer : IdleTimer := mkIdleTimer 100 100 0 0 (Some 10) None [7%nat] false false false.

Lemma heartbeat_never_on_zero_dur_witness :
  0 < it_dur example_timer /\ 0 < 10 /\ 10 = Z.quot (it_dur example_timer) factor /\
  (it_callbacks example_timer <> [] ->
   exists t' fs, handleHeartbeat 5 example_timer = Ret (t', fs)).
Proof.
  apply (heartbeat_never_on_zero_dur example_timer 10 5); [|reflexivity].
  exists (Some 7%nat), 100, example_timer. split; [reflexivity | apply rtc_refl].
Defined.

(** a heartbeat raises a timeout exactly when it should.  With a callback
    registered and a heartbeat running in a reachable state, handling a
    heartbeat at time [mnow] raises the timeout and starts every callback if an
    attempt began, no success was recorded since, and more than the timeout
    duration has passed; otherwise it changes nothing and starts nothing. *)
Theorem heartbeat_timeout_exact (t : IdleTimer) (mnow : Z) :
  reachable t -> it_heartbeat t <> None -> it_done t = false -> it_callbacks t <> [] ->
  backgroundEvent (EvHeartbeat mnow) t =
  if decide (0 < it_lastStart t /\ it_lastOK t < it_lastStart t /\
             it_dur t < mnow - it_lastStart t)
  then Ret (with_heartbeat None
              (with_raised (Some (it_dur t, mnow - it_lastStart t, it_dur t)) t),
            it_callbacks t)
  else Ret (t, []).
Proof.
  intros Hr Hh Hd Hcb. destruct (reachable_inv t Hr) as [Ha Hi].
  unfold backgroundEvent. rewrite Hd. destruct (it_heartbeat t) as [p|]; [|done].
  unfold handleHeartbeat. destruct (it_dur t =? 0) eqn:E; b2p; [lia|].
  pose proof (IdleStatus_iff mnow t) as Hs. rewrite Ha in Hs.
  destruct (IdleStatus mnow t); case_decide as Hc; try done.
  - rewrite Ha. cbn. by destruct (it_callbacks t).
  - destruct Hc. destruct Hs as [Hs _]. specialize (Hs eq_refl). tauto.
  - destruct Hs as [_ Hs]. by discriminate Hs; tauto.
Qed.

Definition started_timer : IdleTimer := BeginAttempt 5 example_timer.

Lemma heartbeat_timeout_exact_witness :
  backgroundEvent (EvHeartbeat 200) started_timer =
  if decide (0 < it_lastStart started_timer /\ it_lastOK started_timer < it_lastStart started_timer /\
             it_dur started_timer < 200 - it_lastStart started_timer)
  then Ret (with_heartbeat None
              (with_raised (Some (it_dur started_timer, 200 - it_lastStart started_timer, it_dur started_timer))
                 started_timer),
            it_callbacks started_timer)
  else Ret (started_timer, []).
Proof.
  apply (heartbeat_timeout_exact started_timer 200); try done.
  exists (Some 7%nat), 100, example_timer. split; [reflexivity|].
  apply rtc_once. apply (step_act (ABegin 5) _ _ []). reflexivity.
Defined.

(** An action that may re-arm the timer: a new timeout other than [d]. *)
Definition changes_dur (d : Z) (a : action) : Prop :=
  match a with ABackground (EvSetIdleTimeout d') => d' <> d | _ => False end.

(** A timer that has a positive duration [d] but no heartbeat and no raised
    timeout. *)
Definition disarmed (d : Z) (t : IdleTimer) : Prop :=
  0 < d /\ it_dur t = d /\ it_heartbeat t = None /\ it_timeOutRaised t = None.

Lemma act_disarmed d a t t' fs :
  disarmed d t -> ~ changes_dur d a -> act a t = Ret (t', fs) -> disarmed d t' /\ fs = [].
Proof.
  intros (Hd & Ht & Hh & Hr) Hc H. destruct a as [e| | | |]; simpl in *; simplify_eq; try done.
  - unfold backgroundEvent in H. destruct (it_done t); [by simplify_eq|].
    destruct e; simplify_eq; try done.
    + split; [|done]. by destruct (it_stopRequested t).
    + destruct (decide (newdur = it_dur t)) as [->|]; [|done].
      unfold handleSetIdleTimeout in H. cbn [it_dur with_lastStart with_raised] in H.
      rewrite (proj2 (Z.ltb_lt _ _) Hd), Z.eqb_refl in H. by simplify_eq/=.
    + rewrite Hh in H. by simplify_eq.
  - split; [|done]. unfold AttemptOK. by destruct (it_isOneshot t).
Qed.

(** setting the same timeout again after it fired leaves the timer dead.
    Once a timeout of duration [d] was raised (which stops the heartbeat),
    [SetIdleTimeout d] clears the raised timeout but, because the duration did
    not change, does not start a heartbeat: from then on no sequence of
    actions, short of setting a different duration, ever raises a timeout or
    starts a callback, however long the connection is idle. *)
Theorem rearm_same_dur_never_fires (t t1 : IdleTimer) (d now : Z) (info : Z * Z * Z) :
  0 < d -> it_dur t = d -> it_heartbeat t = None -> it_timeOutRaised t = Some info ->
  it_stopRequested t = false -> it_done t = false ->
  SetIdleTimeout d t = Ret t1 ->
  forall t2, rtc (fun x y => exists a fs, ~ changes_dur d a /\ act a x = Ret (y, fs)) t1 t2 ->
  queryTimedOut t2 = None /\
  forall a t3 fs, ~ changes_dur d a -> act a t2 = Ret (t3, fs) -> fs = [].
Proof.
  intros Hd Ht Hh _ Hs Hdn H1 t2 Hrtc.
  assert (Hdis : disarmed d t1).
  { unfold SetIdleTimeout, backgroundEvent in H1. rewrite Hs, Hdn in H1.
    unfold handleSetIdleTimeout in H1. cbn [it_dur with_lastStart with_raised] in H1.
    rewrite Ht, (proj2 (Z.ltb_lt _ _) Hd), Z.eqb_refl in H1. by simplify_eq/=. }
  clear -Hdis Hrtc. induction Hrtc as [t1|t1 t1' t2 (a & fs & Hc & Ha) _ IH].
  - split; [apply Hdis|]. intros a t3 fs Hc Ha. by eapply act_disarmed in Ha as [_ ?].
  - apply IH. by eapply act_disarmed in Ha as [? _].
Qed.

Definition fired_timer : IdleTimer :=
  mkIdleTimer 100 100 5 0 None (Some (100, 195, 100)) [7%nat] false false false.

Lemma rearm_same_dur_never_fires_witness :
  backgroundEvent (EvHeartbeat 200) started_timer = Ret (fired_timer, [7%nat]) /\
  exists t1, SetIdleTimeout 100 fired_timer = Ret t1 /\ queryTimedOut t1 = None.
Proof.
  split; [reflexivity|]. eexists. split; [reflexivity|].
  eapply (rearm_same_dur_never_fires fired_timer _ 100 0 (100, 195, 100)); try done.
Defined.

(** a deadline that is already past crashes the process.  [setDeadline]
    with a time at or before now asks for a timeout of one nanosecond, and the
    timer goroutine then creates a ticker with a tenth of that, a period of
    zero, for which [time.NewTicker] panics. *)
Theorem past_deadline_panics (t : IdleTimer) (now tm : Z) :
  tm <= now -> it_dur t <> nanosecond -> it_stopRequested t = false -> it_done t = false ->
  panics (setDeadline now (Some tm) t) = true.
Proof.
  intros Hle Hd Hs Hdn. unfold setDeadline, SetOneshotIdleTimeout, SetIdleTimeout, backgroundEvent.
  rewrite (proj2 (Z.ltb_ge now tm)) by done. cbn [negb with_oneshot it_stopRequested it_done].
  rewrite Hs, Hdn. unfold handleSetIdleTimeout. idle_unfold.
  destruct (0 <? it_dur t); [|done].
  destruct (nanosecond =? it_dur t) eqn:E; b2p; [congruence | done].
Qed.

Lemma past_deadline_panics_witness :
  panics (setDeadline 50 (Some 20) (mkIdleTimer 0 0 0 0 None None [7%nat] false false false)) = true.
Proof. apply (past_deadline_panics _ 50 20); done. Defined.

(** a deadline in the future arms the timer.  With at least ten
    nanoseconds to go, [setDeadline] does not panic, clears a raised timeout,
    and leaves a heartbeat running with the remaining time as the duration. *)
Theorem future_deadline_arms (t : IdleTimer) (now tm : Z) :
  idle_inv t -> now + 10 <= tm -> it_dur t <> tm - now ->
  it_stopRequested t = false -> it_done t = false ->
  exists t', setDeadline now (Some tm) t = Ret t' /\ idle_inv t' /\
    it_dur t' = tm - now /\ it_heartbeat t' = Some (Z.quot (tm - now) factor) /\
    it_timeOutRaised t' = None /\ it_isOneshot t' = true.
Proof.
  intros Hi Hle Hd Hs Hdn. unfold setDeadline, SetOneshotIdleTimeout, SetIdleTimeout, backgroundEvent.
  rewrite (proj2 (Z.ltb_lt now tm)) by lia. cbn [negb with_oneshot it_stopRequested it_done].
  rewrite Hs, Hdn. unfold handleSetIdleTimeout. idle_unfold. unfold factor.
  assert (0 < Z.quot (tm - now) 10) by (apply Z.quot_str_pos; lia).
  rewrite (proj2 (Z.leb_gt (tm - now) 0)) by lia.
  rewrite (proj2 (Z.leb_gt (Z.quot (tm - now) 10) 0)) by lia.
  destruct (0 <? it_dur t); [destruct (tm - now =? it_dur t) eqn:E; b2p; [congruence|]|];
    (eexists; split; [reflexivity|]; simpl; split_and!; reflexivity || lia).
Qed.

Lemma future_deadline_arms_witness :
  exists t', setDeadline 50 (Some 1050) (mkIdleTimer 0 0 0 0 None None [7%nat] false false false) = Ret t' /\
    idle_inv t' /\ it_dur t' = 1050 - 50 /\ it_heartbeat t' = Some (Z.quot (1050 - 50) factor) /\
    it_timeOutRaised t' = None /\ it_isOneshot t' = true.
Proof. apply (future_deadline_arms _ 50 1050); try done; simpl; lia. Defined.
