(* ===== verification/Window.v ===== *)
(** * The flow-control window (common.go, type window)

    The window is shared between the reader goroutine, which adds to it, and
    the writers, which reserve from it.  Every method holds the window's lock
    except while it waits on the condition variable, so the atomic steps are:
    [add], [close], the part of [reserve] up to its first wait ([reserveEnter]),
    and the part from a wake-up to the next wait ([reserveWake]).  [reserve]
    composes them for one caller, given what the other goroutines do each time
    it waits. *)

From S2P Require Import Prelude.

(** Which case of a [select] on the idle timer fired: the timer's answer on
    [TimedOut] (empty when no timeout was raised), or its stop request. *)
Inductive timerAnswer :=
| AnsTimedOut (msg : bytes)
| AnsReqStop.

Record window := mkWindow {
  win : Z;
  writeWaiters : Z;
  wclosed : bool
}.

Definition newWindow : window := mkWindow 0 0 false.

Definition add (n : Z) (w : window) : bool * window :=
  if n =? 0 then (true, w)
  else if u32 (win w + n) <? n then (false, w)
  else (true, mkWindow (u32 (win w + n)) (writeWaiters w) (wclosed w)).

Definition close (w : window) : window := mkWindow (win w) (writeWaiters w) true.

Definition reserveShouldReturn (q : timerAnswer) : option error :=
  match q with
  | AnsTimedOut [] => None
  | AnsTimedOut msg => Some (ErrTimeout msg)
  | AnsReqStop => Some EOF
  end.

(** A call that returned, with what it returned, or that waits. *)
Inductive rstep :=
| RDone (num : Z) (err : option error) (w : window)
| RWait (w : window).

(** The loop test and what follows the loop. *)
Definition reserveLoop (n : Z) (w : window) : rstep :=
  if (win w =? 0) && negb (wclosed w) then RWait w
  else
    let n := if win w <? n then win w else n in
    RDone n (if wclosed w then Some EOF else None)
      (mkWindow (u32 (win w - n)) (writeWaiters w - 1) (wclosed w)).

Definition reserveEnter (n : Z) (q : timerAnswer) (w : window) : rstep :=
  match reserveShouldReturn q with
  | Some e => RDone 0 (Some e) w
  | None => reserveLoop n (mkWindow (win w) (writeWaiters w + 1) (wclosed w))
  end.

Definition reserveWake (n : Z) (q : timerAnswer) (w : window) : rstep :=
  match reserveShouldReturn q with
  | Some e => RDone 0 (Some e) w
  | None => reserveLoop n w
  end.

(** What another goroutine does to the window at one of its atomic steps. *)
Inductive winop :=
| WAdd (n : Z)
| WClose
| WEnter (n : Z) (q : timerAnswer)
| WWake (n : Z) (q : timerAnswer).

Definition rstep_window (r : rstep) : window :=
  match r with RDone _ _ w => w | RWait w => w end.

Definition winop_step (o : winop) (w : window) : window :=
  match o with
  | WAdd n => (add n w).2
  | WClose => close w
  | WEnter n q => rstep_window (reserveEnter n q w)
  | WWake n q => rstep_window (reserveWake n q w)
  end.

Definition winops (os : list winop) (w : window) : window := foldl (fun w o => winop_step o w) w os.

(** The rest of a call that waits: at each wake-up, the steps of the others
    since the wait began and the timer's answer.  [None]: still waiting. *)
Fixpoint reserveResume (n : Z) (wakes : list (list winop * timerAnswer)) (w : window)
  : option (Z * option error * window) :=
  match wakes with
  | [] => None
  | (os, q) :: wakes' =>
      match reserveWake n q (winops os w) with
      | RDone num err w' => Some (num, err, w')
      | RWait w' => reserveResume n wakes' w'
      end
  end.

Definition reserve (n : Z) (q : timerAnswer) (wakes : list (list winop * timerAnswer)) (w : window)
  : option (Z * option error * window) :=
  match reserveEnter n q w with
  | RDone num err w' => Some (num, err, w')
  | RWait w' => reserveResume n wakes w'
  end.

(** ** Lemmas *)

Definition window_ok (w : window) : Prop := 0 <= win w < 2 ^ 32.

Definition winop_ok (o : winop) : Prop :=
  match o with
  | WAdd n | WEnter n _ | WWake n _ => 0 <= n < 2 ^ 32
  | WClose => True
  end.

(** [add] succeeds exactly when the sum fits in 32 bits, and is then exact. *)
Lemma add_spec n w :
  window_ok w -> 0 <= n < 2 ^ 32 ->
  add n w = if win w + n <? 2 ^ 32
            then (true, mkWindow (win w + n) (writeWaiters w) (wclosed w))
            else (false, w).
Proof.
  unfold window_ok, add. intros Hw Hn.
  destruct (n =? 0) eqn:E0; b2p.
  - subst. rewrite Z.add_0_r, (proj2 (Z.ltb_lt _ _)) by lia. by destruct w.
  - destruct (win w + n <? 2 ^ 32) eqn:E; b2p.
    + rewrite u32_small by lia. by rewrite (proj2 (Z.ltb_ge _ _)) by lia.
    + assert (Hu : u32 (win w + n) = win w + n - 2 ^ 32).
      { unfold u32. rewrite <- (Z.mod_add _ (-1)) by lia. apply Z.mod_small. lia. }
      by rewrite Hu, (proj2 (Z.ltb_lt _ _)) by lia.
Qed.

Lemma reserveLoop_spec n w num err w' :
  window_ok w -> 0 <= n < 2 ^ 32 -> reserveLoop n w = RDone num err w' ->
  num = Z.min n (win w) /\ win w' = win w - num /\ wclosed w' = wclosed w /\
  err = (if wclosed w then Some EOF else None) /\ (wclosed w = false -> 0 < win w).
Proof.
  unfold window_ok, reserveLoop. intros Hw Hn H.
  destruct (win w =? 0) eqn:E0, (wclosed w) eqn:Ec; simpl in H; try done;
    destruct (win w <? n) eqn:El; injection H as <- <- <-; cbn; b2p;
    rewrite u32_small by lia; split_and!; done || lia.
Qed.

Lemma reserveLoop_wait n w w' : reserveLoop n w = RWait w' -> w' = w /\ win w = 0 /\ wclosed w = false.
Proof.
  unfold reserveLoop. destruct (win w =? 0) eqn:E, (wclosed w); simpl; intros; simplify_eq.
  by b2p.
Qed.

(** The part of the window granted by a step. *)
Definition granted (r : rstep) : Z := match r with RDone num _ _ => num | RWait _ => 0 end.

Lemma reserveLoop_granted n w :
  window_ok w -> 0 <= n < 2 ^ 32 ->
  0 <= granted (reserveLoop n w) <= n /\
  win (rstep_window (reserveLoop n w)) = win w - granted (reserveLoop n w) /\
  window_ok (rstep_window (reserveLoop n w)).
Proof.
  intros Hw Hn. destruct (reserveLoop n w) as [num err w'|w'] eqn:E; simpl.
  - apply reserveLoop_spec in E as (-> & Hw' & _); [|done..]. unfold window_ok in *. lia.
  - apply reserveLoop_wait in E as (-> & _). unfold window_ok in *. lia.
Qed.

(** What each atomic step adds to the window and takes from it. *)
Definition winop_added (o : winop) (w : window) : Z :=
  match o with WAdd n => if (add n w).1 then n else 0 | _ => 0 end.

Definition winop_granted (o : winop) (w : window) : Z :=
  match o with
  | WEnter n q => granted (reserveEnter n q w)
  | WWake n q => granted (reserveWake n q w)
  | _ => 0
  end.

Lemma winop_step_account o w :
  window_ok w -> winop_ok o ->
  window_ok (winop_step o w) /\ 0 <= winop_added o w /\ 0 <= winop_granted o w /\
  win (winop_step o w) = win w + winop_added o w - winop_granted o w.
Proof.
  intros Hw Ho. destruct o as [n| |n q|n q]; simpl in *.
  - rewrite add_spec by done. unfold window_ok in *.
    destruct (win w + n <? 2 ^ 32) eqn:E; b2p; simpl; lia.
  - unfold window_ok in *. simpl. lia.
  - unfold reserveEnter. destruct (reserveShouldReturn q); simpl; [unfold window_ok in *; lia|].
    set (w1 := mkWindow _ _ _). destruct (reserveLoop_granted n w1) as (? & -> & ?); [done..|].
    change (win w1) with (win w). split_and!; [done | lia..].
  - unfold reserveWake. destruct (reserveShouldReturn q); simpl; [unfold window_ok in *; lia|].
    destruct (reserveLoop_granted n w) as (? & -> & ?); [done..|]. split_and!; [done | lia..].
Qed.

(** The totals over a run. *)
Fixpoint total_added (os : list winop) (w : window) : Z :=
  match os with [] => 0 | o :: os' => winop_added o w + total_added os' (winop_step o w) end.

Fixpoint total_granted (os : list winop) (w : window) : Z :=
  match os with [] => 0 | o :: os' => winop_granted o w + total_granted os' (winop_step o w) end.

Lemma winops_account os w :
  window_ok w -> Forall winop_ok os ->
  window_ok (winops os w) /\ win (winops os w) = win w + total_added os w - total_granted os w.
Proof.
  revert w. induction os as [|o os IH]; intros w Hw Hos; simpl; [split; [done | lia]|].
  apply Forall_cons_iff in Hos as [Ho Hos].
  destruct (winop_step_account o w Hw Ho) as (Hw' & _ & _ & Heq).
  destruct (IH (winop_step o w) Hw' Hos) as [? ->]. split; [done | lia].
Qed.

Lemma winops_ok os w : window_ok w -> Forall winop_ok os -> window_ok (winops os w).
Proof. intros. by apply winops_account. Qed.

(** A call that returns without error was granted a part of the window. *)
Lemma reserveWake_grant n q w num w' :
  window_ok w -> 0 < n < 2 ^ 32 -> reserveWake n q w = RDone num None w' ->
  0 < num <= n /\ num <= win w /\ win w' = win w - num.
Proof.
  unfold reserveWake. intros Hw Hn. destruct (reserveShouldReturn q); [done|]. intros H.
  apply reserveLoop_spec in H as (-> & -> & _ & Herr & Hpos); [|done|lia].
  unfold window_ok in *. destruct (wclosed w); [done|]. specialize (Hpos eq_refl). lia.
Qed.

Lemma reserveResume_grant n wakes w num w' :
  window_ok w -> 0 < n < 2 ^ 32 -> Forall (fun wk => Forall winop_ok wk.1) wakes ->
  reserveResume n wakes w = Some (num, None, w') -> 0 < num <= n.
Proof.
  revert w. induction wakes as [|[os q] wakes IH]; intros w Hw Hn Hok H; simpl in H; [done|].
  apply Forall_cons_iff in Hok as [Hos Hok]. simpl in Hos.
  assert (Hw1 : window_ok (winops os w)) by by apply winops_ok.
  destruct (reserveWake n q (winops os w)) as [num' err' w''|w''] eqn:E.
  - simplify_eq. by apply reserveWake_grant in E as (? & _).
  - apply (IH w''); try done. unfold reserveWake in E.
    destruct (reserveShouldReturn q); [done|]. by apply reserveLoop_wait in E as (-> & _).
Qed.

(** [reserve] that returns without error. *)
Lemma reserve_grant n q wakes w w' num :
  window_ok w -> 0 < n < 2 ^ 32 -> Forall (fun wk => Forall winop_ok wk.1) wakes ->
  reserve n q wakes w = Some (num, None, w') ->
  0 < num <= n.
Proof.
  intros Hw Hn Hok H. unfold reserve in H.
  set (w1 := mkWindow (win w) (writeWaiters w + 1) (wclosed w)).
  assert (Henter : forall r, reserveEnter n q w = r ->
            (exists e, r = RDone 0 (Some e) w) \/ r = reserveWake n (AnsTimedOut []) w1).
  { intros r <-. unfold reserveEnter. destruct (reserveShouldReturn q); [left; eauto | by right]. }
  destruct (reserveEnter n q w) as [num' err' w2|w2] eqn:E.
  - destruct (Henter _ eq_refl) as [[e He]|He]; [by simplify_eq|]. simplify_eq.
    symmetry in He. by apply reserveWake_grant in He as (? & _).
  - destruct (Henter _ eq_refl) as [[e He]|He]; [done|].
    symmetry in He. cbn in He. apply reserveLoop_wait in He as (-> & _).
    by eapply reserveResume_grant in H.
Qed.

(** ** Properties *)

(** C29: flow control never over-commits.  Starting from an empty window,
    after any interleaving of window updates from the peer, closing, and
    reservations by any number of writers, what the writers were granted in
    total is exactly what the peer added (as far as [add] accepted it) minus
    what is left, and what is left fits in 32 bits: writers are never granted
    more than the peer allowed, and no grant is lost to wrap-around. *)
Theorem window_conservation (os : list winop) :
  Forall winop_ok os ->
  total_granted os newWindow + win (winops os newWindow) = total_added os newWindow /\
  0 <= win (winops os newWindow) < 2 ^ 32.
Proof.
  intros Hos. destruct (winops_account os newWindow ltac:(by unfold window_ok) Hos) as [? ->].
  split; [simpl; lia|]. by rewrite <- (proj2 (winops_account os newWindow ltac:(by unfold window_ok) Hos)).
Qed.

Definition example_ops : list winop :=
  [WAdd 10; WEnter 4 (AnsTimedOut []); WEnter 100 (AnsTimedOut []); WEnter 5 (AnsTimedOut []);
   WAdd (2 ^ 32 - 1); WAdd 1; WWake 5 (AnsTimedOut [])].

Lemma window_conservation_witness :
  total_granted example_ops newWindow + win (winops example_ops newWindow)
  = total_added example_ops newWindow /\
  0 <= win (winops example_ops newWindow) < 2 ^ 32.
Proof.
  apply (window_conservation example_ops). repeat constructor; vm_compute; discriminate.
Defined.

(** a successful [reserve] makes progress: whatever the other goroutines
    do while it waits, a call for [n > 0] bytes that returns without error
    reserved at least one and at most [n] bytes. *)
Theorem reserve_progress (n : Z) (q : timerAnswer) (wakes : list (list winop * timerAnswer))
    (w w' : window) (num : Z) :
  window_ok w -> 0 < n < 2 ^ 32 -> Forall (fun wk => Forall winop_ok wk.1) wakes ->
  reserve n q wakes w = Some (num, None, w') ->
  0 < num <= n.
Proof. apply reserve_grant. Qed.

Lemma reserve_progress_witness :
  exists w', reserve 7 (AnsTimedOut []) [([WAdd 3], AnsTimedOut [])] newWindow = Some (3, None, w') /\
    0 < 3 <= 7.
Proof.
  eexists. split; [reflexivity|].
  eapply (reserve_progress 7 (AnsTimedOut []) [([WAdd 3], AnsTimedOut [])] newWindow);
    [unfold window_ok; simpl; lia | lia | | reflexivity].
  repeat constructor; vm_compute; discriminate.
Defined.
