(* ===== verification/Buffer.v ===== *)
(** * The read buffer (buffer.go)

    A [buffer] is a linked list of [element]s, shared between the goroutine that
    appends ([write], [eof]) and the one that reads ([Read]).  The heap of
    elements is modelled: an element is a cell of [bheap] named by a location,
    [head] and [tail] are locations, and reading mutates the head's slice and
    moves the head, as the code does.

    [Read] holds the lock except while it waits; [readPass] is one pass from
    taking the lock to returning or waiting, and [Read] resumes after each
    wait.  The contract is the byte queue of [absBuffer]: a simulation relation
    ([buffer_repr]) ties a linked buffer to the queue it stands for. *)

From S2P Require Import Prelude Window.

Record element := mkElement {
  ebuf : bytes;
  enext : option nat
}.

Record buffer := mkBuffer {
  bheap : gmap nat element;
  bhead : nat;
  btail : nat;
  bclosed : bool;
  bfresh : nat
}.

Definition newBuffer : buffer := mkBuffer {[ 0%nat := mkElement [] None ]} 0 0 false 1.

(** [e := &element{buf: buf}; b.tail.next = e; b.tail = e]. *)
Definition write (data : bytes) (b : buffer) : outcome buffer :=
  match bheap b !! btail b with
  | None => Panic "nil pointer dereference"
  | Some t =>
      let e := bfresh b in
      Ret (mkBuffer (<[e := mkElement data None]> (<[btail b := mkElement (ebuf t) (Some e)]> (bheap b)))
             (bhead b) e (bclosed b) (S e))
  end.

Definition eof (b : buffer) : buffer := mkBuffer (bheap b) (bhead b) (btail b) true (bfresh b).

(** The outcome of one pass of [Read]: returned with the bytes copied and the
    error, or waiting for the producer. *)
Inductive readResult :=
| RdDone (data : bytes) (err : option error) (b : buffer)
| RdWait (b : buffer)
| RdPanic.

(** The loop of [Read]: [want] is what is left of the caller's slice, [out]
    what was copied, [q] the timer's answer if it is asked.  [None]: out of
    fuel. *)
Fixpoint readLoop (fuel want : nat) (out : bytes) (q : timerAnswer) (b : buffer)
  : option readResult :=
  match fuel with
  | O => None
  | S fuel' =>
      match want with
      | O => Some (RdDone out None b)
      | S _ =>
          match bheap b !! bhead b with
          | None => Some RdPanic
          | Some h =>
              match ebuf h with
              | _ :: _ =>
                  let r := Nat.min want (length (ebuf h)) in
                  readLoop fuel' (want - r) (out ++ take r (ebuf h)) q
                    (mkBuffer (<[bhead b := mkElement (drop r (ebuf h)) (enext h)]> (bheap b))
                       (bhead b) (btail b) (bclosed b) (bfresh b))
              | [] =>
                  if negb (Nat.eqb (bhead b) (btail b)) then
                    match enext h with
                    | None => Some RdPanic
                    | Some n => readLoop fuel' want out q
                                  (mkBuffer (bheap b) n (btail b) (bclosed b) (bfresh b))
                    end
                  else if negb (Nat.eqb (length out) 0) then Some (RdDone out None b)
                  else if bclosed b then Some (RdDone [] (Some EOF) b)
                  else match q with
                       | AnsTimedOut (_ :: _ as msg) => Some (RdDone [] (Some (ErrTimeout msg)) b)
                       | _ => Some (RdWait b)
                       end
              end
          end
      end
  end.

(** Two rounds for each element (copy, then advance) and one to return. *)
Definition readFuel (b : buffer) : nat := 2 * size (bheap b) + 2.

Definition readPass (want : nat) (q : timerAnswer) (b : buffer) : option readResult :=
  readLoop (readFuel b) want [] q b.

(** What the producer does while the reader waits. *)
Inductive bufop :=
| BWrite (data : bytes)
| BEof.

Definition bufop_step (o : bufop) (b : buffer) : outcome buffer :=
  match o with BWrite data => write data b | BEof => Ret (eof b) end.

Fixpoint bufops (os : list bufop) (b : buffer) : outcome buffer :=
  match os with
  | [] => Ret b
  | o :: os' => let? b := bufop_step o b in bufops os' b
  end.

(** [Read] of a slice of length [want], given the producer's steps and the
    timer's answer at each wake-up. *)
Fixpoint Read (want : nat) (q : timerAnswer) (wakes : list (list bufop * timerAnswer)) (b : buffer)
  : option readResult :=
  match readPass want q b with
  | Some (RdWait b1) =>
      match wakes with
      | [] => Some (RdWait b1)
      | (os, q') :: wakes' =>
          match bufops os b1 with
          | Ret b2 => Read want q' wakes' b2
          | _ => Some RdPanic
          end
      end
  | r => r
  end.

(** ** The contract: a byte queue *)

Record absBuffer := mkAbs {
  adata : bytes;
  aclosed : bool
}.

Definition absWrite (data : bytes) (a : absBuffer) : absBuffer := mkAbs (adata a ++ data) (aclosed a).
Definition absEof (a : absBuffer) : absBuffer := mkAbs (adata a) true.

Inductive absResult :=
| AbsDone (data : bytes) (err : option error) (a : absBuffer)
| AbsWait (a : absBuffer).

Definition absRead (want : nat) (q : timerAnswer) (a : absBuffer) : absResult :=
  match want, adata a with
  | O, _ => AbsDone [] None a
  | _, [] =>
      if aclosed a then AbsDone [] (Some EOF) a
      else match q with
           | AnsTimedOut (_ :: _ as msg) => AbsDone [] (Some (ErrTimeout msg)) a
           | _ => AbsWait a
           end
  | _, data => AbsDone (take want data) None (mkAbs (drop want data) (aclosed a))
  end.

(** ** The simulation relation *)

(** The cells from [l] to the tail [tl], with their contents. *)
Inductive chain (h : gmap nat element) (tl : nat) : nat -> list (nat * bytes) -> Prop :=
| chain_last buf : h !! tl = Some (mkElement buf None) -> chain h tl tl [(tl, buf)]
| chain_cons l buf l' cs :
    h !! l = Some (mkElement buf (Some l')) -> l <> tl -> chain h tl l' cs ->
    chain h tl l ((l, buf) :: cs).

Definition contents (cs : list (nat * bytes)) : bytes := concat (map snd cs).

Definition wf_buffer (b : buffer) (cs : list (nat * bytes)) : Prop :=
  chain (bheap b) (btail b) (bhead b) cs /\ NoDup (map fst cs) /\
  forall l, is_Some (bheap b !! l) -> (l < bfresh b)%nat.

Definition buffer_repr (b : buffer) (a : absBuffer) : Prop :=
  exists cs, wf_buffer b cs /\ adata a = contents cs /\ aclosed a = bclosed b.

(** ** Lemmas on chains *)

Lemma chain_ne h tl l cs : chain h tl l cs -> cs <> [].
Proof. by destruct 1. Qed.

Lemma chain_dom h tl l cs x : chain h tl l cs -> x ∈ map fst cs -> is_Some (h !! x).
Proof.
  induction 1 as [buf H|l buf l' cs H Hne Hc IH]; simpl; intros Hx.
  - apply list_elem_of_singleton in Hx as ->. by rewrite H.
  - apply elem_of_cons in Hx as [-> | Hx]; [by rewrite H | auto].
Qed.

Lemma chain_tail_in h tl l cs : chain h tl l cs -> tl ∈ map fst cs.
Proof. induction 1; simpl; set_solver. Qed.

Lemma chain_insert_other h tl l cs x e :
  chain h tl l cs -> x ∉ map fst cs -> chain (<[x:=e]> h) tl l cs.
Proof.
  induction 1 as [buf H|l buf l' cs H Hne Hc IH]; simpl; intros Hx.
  - apply chain_last. rewrite lookup_insert_ne by set_solver. done.
  - apply chain_cons with l'; [rewrite lookup_insert_ne by set_solver; done | done |].
    apply IH. set_solver.
Qed.

(** Appending a fresh cell after the tail. *)
Lemma chain_extend h tl l cs e data :
  chain h tl l cs -> NoDup (map fst cs) -> e ∉ map fst cs ->
  exists buf nx, h !! tl = Some (mkElement buf nx) /\
    chain (<[e := mkElement data None]> (<[tl := mkElement buf (Some e)]> h)) e l (cs ++ [(e, data)]).
Proof.
  induction 1 as [buf H|l buf l' cs H Hne Hc IH]; simpl; intros Hnd He.
  - exists buf, None. split; [done|].
    assert (e <> tl) by set_solver.
    apply chain_cons with e; [|done|].
    + by rewrite lookup_insert_ne, lookup_insert_eq.
    + apply chain_last. by rewrite lookup_insert_eq.
  - apply NoDup_cons in Hnd as [Hl Hnd]. destruct IH as (b' & nx & Htl & IH); [done | set_solver |].
    exists b', nx. split; [done|]. apply chain_cons with l'.
    + rewrite lookup_insert_ne by set_solver. by rewrite lookup_insert_ne.
    + set_solver.
    + done.
Qed.

Lemma chain_length_size h tl l cs :
  chain h tl l cs -> NoDup (map fst cs) -> (length cs <= size h)%nat.
Proof.
  intros Hc Hnd. rewrite <- (length_map fst cs).
  assert (Hsub : (list_to_set (map fst cs) : gset nat) ⊆ dom h).
  { intros x Hx. apply elem_of_list_to_set in Hx. apply elem_of_dom. by eapply chain_dom. }
  apply subseteq_size in Hsub. rewrite size_list_to_set in Hsub by done.
  by rewrite size_dom in Hsub.
Qed.

(** ** One pass of the reader against the queue *)

Definition readResult_repr (out : bytes) (r : readResult) (a : absResult) : Prop :=
  match r, a with
  | RdDone data err b, AbsDone data' err' a => data = out ++ data' /\ err = err' /\ buffer_repr b a
  | RdWait b, AbsWait a => buffer_repr b a
  | _, _ => False
  end.

(** With something copied already, an empty queue ends the pass. *)
Definition absRead_from (out : bytes) (want : nat) (q : timerAnswer) (a : absBuffer) : absResult :=
  match out, adata a with
  | _ :: _, [] => AbsDone [] None a
  | _, _ => absRead want q a
  end.

Lemma contents_cons l buf cs : contents ((l, buf) :: cs) = buf ++ contents cs.
Proof. done. Qed.

(** Once something was copied, a pass takes what is there and never waits. *)
Lemma absRead_from_nonempty out want q d c :
  out <> [] -> absRead_from out want q (mkAbs d c) = AbsDone (take want d) None (mkAbs (drop want d) c).
Proof. destruct out, d, want; done. Qed.

Lemma absRead_data out want q x d c :
  absRead_from out (S want) q (mkAbs (x :: d) c)
  = AbsDone (take (S want) (x :: d)) None (mkAbs (drop (S want) (x :: d)) c).
Proof. by destruct out. Qed.

(** Replacing the slice of the head cell. *)
Lemma wf_set_head b buf buf' nx cs :
  wf_buffer b ((bhead b, buf) :: cs) -> bheap b !! bhead b = Some (mkElement buf nx) ->
  wf_buffer (mkBuffer (<[bhead b := mkElement buf' nx]> (bheap b)) (bhead b) (btail b) (bclosed b) (bfresh b))
    ((bhead b, buf') :: cs).
Proof.
  intros (Hc & Hnd & Hf) Hh. simpl in Hnd. apply NoDup_cons in Hnd as [Hni Hnd].
  split_and!; simpl; [|by apply NoDup_cons|].
  - inversion Hc as [? H Heq1|? ? l' ? H Hne Hc']; subst.
    + rewrite <- Heq1 in *. rewrite H in Hh. simplify_eq. apply chain_last. by rewrite lookup_insert_eq.
    + rewrite H in Hh. simplify_eq.
      apply chain_cons with l'; [by rewrite lookup_insert_eq | done | by apply chain_insert_other].
  - intros l Hl. apply Hf. destruct (decide (l = bhead b)) as [-> |]; [by rewrite Hh|].
    by rewrite lookup_insert_ne in Hl.
Qed.

(** The head of a well-formed buffer. *)
Lemma wf_head b cs :
  wf_buffer b cs ->
  exists buf cs', cs = (bhead b, buf) :: cs' /\
    ((cs' = [] /\ bhead b = btail b /\ bheap b !! bhead b = Some (mkElement buf None)) \/
     (exists l', bhead b <> btail b /\ bheap b !! bhead b = Some (mkElement buf (Some l')) /\
        wf_buffer (mkBuffer (bheap b) l' (btail b) (bclosed b) (bfresh b)) cs')).
Proof.
  intros (Hc & Hnd & Hf). inversion Hc as [buf H Heq|l buf l' cs' H Hne Hc']; subst.
  - exists buf, []. split; [done|]. by left.
  - eexists _, cs'. split; [done|]. right. exists l'. split_and!; try done.
    simpl in Hnd. by apply NoDup_cons in Hnd as [_ ?].
Qed.

Definition measure (cs : list (nat * bytes)) : nat :=
  2 * length cs + match cs with (_, _ :: _) :: _ => 1 | _ => 0 end.

Lemma readLoop_correct fuel want out q b cs :
  wf_buffer b cs -> (measure cs <= fuel)%nat ->
  exists r, readLoop fuel want out q b = Some r /\
    readResult_repr out r (absRead_from out want q (mkAbs (contents cs) (bclosed b))).
Proof.
  revert want out b cs. induction fuel as [|fuel IH]; intros want out b cs Hwf Hfuel.
  { destruct (wf_head b cs Hwf) as (? & ? & -> & _). unfold measure in Hfuel. simpl in Hfuel. lia. }
  destruct (wf_head b cs Hwf) as (buf & cs' & -> & Hhead).
  destruct want as [|want].
  { eexists. split; [done|].
    replace (absRead_from out 0 q _) with (AbsDone [] None (mkAbs (contents ((bhead b, buf) :: cs')) (bclosed b)))
      by (by destruct out, (contents ((bhead b, buf) :: cs')) eqn:E; unfold absRead_from; simpl; rewrite ?E).
    simpl. rewrite app_nil_r. split_and!; try done. by eexists. }
  assert (exists nx, bheap b !! bhead b = Some (mkElement buf nx)) as [nx Hnx]
    by (destruct Hhead as [(_ & _ & H)|(l' & _ & H & _)]; eauto).
  destruct buf as [|x buf].
  - destruct Hhead as [(-> & Heq & Hh)|(l' & Hne & Hh & Hwf')].
    + (* the queue is empty *)
      simpl readLoop. rewrite Hh. simpl. rewrite Heq, Nat.eqb_refl. simpl.
      destruct out as [|o out]; simpl.
      * destruct (bclosed b) eqn:Ec.
        -- eexists. split; [done|]. simpl. split; [done|]. split; [done|].
           exists [(bhead b, [])]. by rewrite Ec.
        -- assert (buffer_repr b (mkAbs (contents [(bhead b, [])]) false))
             by (exists [(bhead b, [])]; by rewrite Ec).
           destruct q as [[|m msg]|]; (eexists; split; [done|]); simpl; done.
      * eexists. split; [done|]. simpl. rewrite app_nil_r. split_and!; try done. by eexists.
    + (* advance to the next element *)
      simpl readLoop. rewrite Hh. simpl.
      rewrite (proj2 (Nat.eqb_neq _ _) Hne). simpl.
      apply (IH (S want) out _ cs' Hwf'). unfold measure in *. simpl in *.
      destruct cs' as [|[? [|? ?]] ?]; simpl in *; lia.
  - (* copy from the head *)
    cbn [readLoop]. rewrite Hnx. cbn [ebuf enext].
    set (r := Nat.min (S want) (length (x :: buf))).
    pose proof (wf_set_head b _ (drop r (x :: buf)) nx cs' Hwf Hnx) as Hwf'.
    rewrite contents_cons, <- app_comm_cons, absRead_data, app_comm_cons.
    destruct (decide (S want <= length (x :: buf))%nat) as [Hle|Hgt].
    + (* the caller's slice is full *)
      replace (S want - r)%nat with 0%nat by lia. replace r with (S want) in * by lia.
      destruct fuel as [|fuel]; [unfold measure in Hfuel; simpl in Hfuel; lia|].
      eexists. split; [done|]. rewrite take_app_le, drop_app_le by lia.
      split_and!; try done. by exists ((bhead b, drop (S want) (x :: buf)) :: cs').
    + (* the element is used up *)
      replace r with (length (x :: buf)) in * by lia.
      rewrite drop_all in Hwf'. rewrite take_ge by lia. rewrite drop_all.
      destruct (IH (S want - length (x :: buf))%nat (out ++ x :: buf) _ _ Hwf') as (res & Hres & Hrepr).
      { unfold measure in *. simpl in *. lia. }
      exists res. split; [exact Hres|].
      rewrite absRead_from_nonempty in Hrepr by (by destruct out).
      rewrite contents_cons, app_nil_l in Hrepr. cbn [bclosed] in Hrepr.
      destruct res as [data err b'| |]; [|done..]. destruct Hrepr as (-> & -> & Hb').
      rewrite take_app_ge, drop_app_ge by lia. rewrite <- app_assoc. done.
Qed.

Lemma wf_readFuel b cs : wf_buffer b cs -> (measure cs <= readFuel b)%nat.
Proof.
  intros (Hc & Hnd & _). pose proof (chain_length_size _ _ _ _ Hc Hnd). unfold measure, readFuel.
  destruct cs as [|[? [|? ?]] ?]; simpl in *; lia.
Qed.

Lemma readPass_refines want q b a :
  buffer_repr b a ->
  exists r, readPass want q b = Some r /\ readResult_repr [] r (absRead want q a).
Proof.
  intros (cs & Hwf & Hd & Hcl). destruct a as [d c]. simpl in *. subst.
  destruct (readLoop_correct (readFuel b) want [] q b cs Hwf (wf_readFuel b cs Hwf)) as (r & Hr & Hrepr).
  exists r. split; [exact Hr|]. done.
Qed.

Lemma write_refines data b a :
  buffer_repr b a -> exists b', write data b = Ret b' /\ buffer_repr b' (absWrite data a).
Proof.
  intros (cs & (Hc & Hnd & Hf) & Hd & Hcl).
  assert (He : bfresh b ∉ map fst cs).
  { intros Hin. eapply chain_dom in Hin; [|done]. apply Hf in Hin. lia. }
  destruct (chain_extend _ _ _ _ (bfresh b) data Hc Hnd He) as (buf & nx & Htl & Hc').
  unfold write. rewrite Htl. eexists. split; [done|].
  exists (cs ++ [(bfresh b, data)]). split; [split_and!; simpl | split; simpl; [|done]].
  - exact Hc'.
  - rewrite map_app. simpl. apply NoDup_app. split_and!; [done | set_solver | apply NoDup_singleton].
  - intros l Hl. destruct (decide (l = bfresh b)) as [-> |]; [lia|].
    rewrite lookup_insert_ne in Hl by done.
    assert (l < bfresh b)%nat; [|lia]. apply Hf.
    destruct (decide (l = btail b)) as [-> |]; [by rewrite Htl | by rewrite lookup_insert_ne in Hl].
  - unfold contents. rewrite map_app, concat_app. simpl. by rewrite app_nil_r, Hd.
Qed.

Lemma eof_refines b a : buffer_repr b a -> buffer_repr (eof b) (absEof a).
Proof. intros (cs & Hwf & Hd & _). exists cs. split_and!; done. Qed.

Lemma newBuffer_repr : buffer_repr newBuffer (mkAbs [] false).
Proof.
  exists [(0%nat, [])]. split; [split_and!; [|apply NoDup_singleton|] | done].
  - apply chain_last. done.
  - intros l [e He]. simpl in *. apply lookup_singleton_Some in He as [<- _]. lia.
Qed.

(** ** Runs of the producer and the reader *)

(** An operation on the buffer: a producer step, or one pass of a [Read]. *)
Inductive op :=
| OpWrite (data : bytes)
| OpEof
| OpRead (want : nat) (q : timerAnswer).

(** Run the operations; the result is the bytes the reads returned, in order,
    and the final buffer. *)
Fixpoint run (os : list op) (b : buffer) : option (bytes * buffer) :=
  match os with
  | [] => Some ([], b)
  | OpWrite data :: os' =>
      match write data b with Ret b' => run os' b' | _ => None end
  | OpEof :: os' => run os' (eof b)
  | OpRead want q :: os' =>
      match readPass want q b with
      | Some (RdDone data _ b') =>
          match run os' b' with Some (out, b'') => Some (data ++ out, b'') | None => None end
      | Some (RdWait b') => run os' b'
      | _ => None
      end
  end.

Fixpoint written (os : list op) : bytes :=
  match os with
  | [] => []
  | OpWrite data :: os' => data ++ written os'
  | _ :: os' => written os'
  end.

Lemma absRead_split want q a :
  match absRead want q a with
  | AbsDone data _ a' => adata a = data ++ adata a' /\ aclosed a' = aclosed a /\ (length data <= want)%nat
  | AbsWait a' => a' = a
  end.
Proof.
  destruct a as [[|x d] c], want as [|want]; simpl; try (by repeat split; lia).
  - destruct c; simpl; [by repeat split; lia|].
    destruct q as [[|m msg]|]; simpl; first [reflexivity | by repeat split; lia].
  - rewrite take_drop. split_and!; [done..|]. rewrite length_take. lia.
Qed.

Lemma run_fifo os b a :
  buffer_repr b a ->
  exists out b' a', run os b = Some (out, b') /\ buffer_repr b' a' /\
    adata a ++ written os = out ++ adata a'.
Proof.
  revert b a. induction os as [|o os IH]; intros b a Hr.
  { exists [], b, a. simpl. by rewrite app_nil_r. }
  destruct o as [data| |want q]; simpl.
  - destruct (write_refines data b a Hr) as (b1 & -> & Hr1).
    destruct (IH b1 _ Hr1) as (out & b' & a' & -> & Hr' & Heq).
    exists out, b', a'. split_and!; try done. rewrite <- Heq. simpl. by rewrite app_assoc.
  - apply (IH (eof b) (absEof a)). by apply eof_refines.
  - destruct (readPass_refines want q b a Hr) as (r & -> & Hrr).
    pose proof (absRead_split want q a) as Hsp.
    destruct r as [data err b1|b1|], (absRead want q a) as [data' err' a1|a1]; simpl in Hrr; try done.
    + destruct Hrr as (-> & -> & Hr1). destruct Hsp as (Hd & _ & _).
      destruct (IH b1 a1 Hr1) as (out & b' & a' & -> & Hr' & Heq).
      exists (data' ++ out), b', a'. split_and!; try done.
      by rewrite Hd, <- app_assoc, Heq, app_assoc.
    + subst. apply (IH b1 a Hrr).
Qed.

(** ** Properties *)

(** C28: the linked buffer implements a byte queue.  From a buffer that stands
    for the queue [a], a pass of [Read] always terminates and does what the
    queue does: with data it returns the first [want] bytes and removes them;
    with none it reports end of file once closed, the timer's message if a
    timeout was raised, and otherwise waits without changing anything.  [write]
    and [eof] do not fail and append to, respectively close, the queue. *)
Theorem buffer_refines_queue (b : buffer) (a : absBuffer) :
  buffer_repr b a ->
  (forall want q, exists r, readPass want q b = Some r /\ readResult_repr [] r (absRead want q a)) /\
  (forall data, exists b', write data b = Ret b' /\ buffer_repr b' (absWrite data a)) /\
  buffer_repr (eof b) (absEof a).
Proof.
  intros Hr. split_and!; [| |by apply eof_refines].
  - intros want q. by apply readPass_refines.
  - intros data. by apply write_refines.
Qed.

Lemma buffer_refines_queue_witness :
  (forall want q, exists r, readPass want q newBuffer = Some r /\
     readResult_repr [] r (absRead want q (mkAbs [] false))) /\
  (forall data, exists b', write data newBuffer = Ret b' /\
     buffer_repr b' (absWrite data (mkAbs [] false))) /\
  buffer_repr (eof newBuffer) (absEof (mkAbs [] false)).
Proof.
  apply (buffer_refines_queue newBuffer (mkAbs [] false)).
  exists [(0%nat, [])]. split; [split_and!; [|apply NoDup_singleton|] | split; reflexivity].
  - apply chain_last. reflexivity.
  - intros l [e He]. simpl in *. apply lookup_singleton_Some in He as [<- _]. lia.
Defined.

(** data is delivered in order and nothing is lost or duplicated: after
    any sequence of writes, reads (of any sizes) and [eof] on a new buffer, no
    operation has failed, and the bytes the reads returned followed by what is
    still buffered are exactly the bytes written. *)
Theorem buffer_fifo (os : list op) :
  exists out b a, run os newBuffer = Some (out, b) /\ buffer_repr b a /\
    written os = out ++ adata a.
Proof.
  destruct (run_fifo os newBuffer (mkAbs [] false) newBuffer_repr) as (out & b & a & ? & ? & ?).
  by exists out, b, a.
Qed.
