(* ===== verification/Channel.v ===== *)
(** * Channels (channel.go)

    One SSH channel: its state, the operations its user calls ([Accept],
    [Reject], [Read], [Write], [CloseWrite], [Close], [SendRequest],
    [ackRequest]) and what the connection's reader goroutine does to it
    ([handlePacket], [handleData], [close]).

    An operation runs in the small state monad [ST]: its state is the channel
    together with the two parts of the mux it touches, the packets handed to the
    connection and the identifiers removed from the channel list.  An operation
    is done, blocked (on a full Go channel, an empty buffer or an exhausted
    window) or panics; Go errors are returned values.  What comes from outside
    an operation is its environment [Env]: the clock, the idle timers' answer,
    whether the connection fails, whether the mux was asked to stop, and which
    ready case a [select] takes.

    [packetPool] only recycles allocations and is left out; the flow-control
    window, the buffers and the timers are those of Window.v, Buffer.v and
    Idle.v. *)

From S2P Require Import Prelude Wire Codec Messages Idle Window Buffer.

(** ** Go channels *)

Definition chanSize : Z := 16.

Record gochan (A : Type) := mkGochan {
  gq : list A;
  gclosed : bool
}.
Arguments mkGochan {A} _ _.
Arguments gq {A} _.
Arguments gclosed {A} _.

Definition newGochan {A} : gochan A := mkGochan [] false.

(** ** Requests and directions *)

Record Request := mkRequest {
  req_Type : bytes;
  req_WantReply : bool;
  req_Payload : bytes;
  req_onChannel : bool
}.

Definition Prohibited : Z := 1.
Definition ConnectionFailed : Z := 2.
Definition UnknownChannelType : Z := 3.
Definition ResourceShortage : Z := 4.

Inductive channelDirection := channelInbound | channelOutbound.

Definition minPacketLength : Z := 9.
Definition channelMaxPacket : Z := Z.shiftl 1 15.
Definition channelWindowSize : Z := 64 * channelMaxPacket.

(** [min(a uint32, b int)]. *)
Definition min (a b : Z) : Z := if a <? u32 b then a else u32 b.

(** ** State *)

Record channel := mkChannel {
  ch_chanType : bytes;
  ch_extraData : bytes;
  ch_localId : Z;
  ch_remoteId : Z;
  ch_maxIncomingPayload : Z;
  ch_maxRemotePayload : Z;
  ch_decided : bool;
  ch_direction : channelDirection;
  ch_msg : gochan message;
  ch_incomingRequests : gochan Request;
  ch_sentEOF : bool;
  ch_remoteWin : window;
  ch_pending : buffer;
  ch_extPending : buffer;
  ch_myWindow : Z;
  ch_sentClose : bool;
  ch_hasClosed : bool;
  ch_idleR : IdleTimer;
  ch_idleW : IdleTimer;
  ch_stopRequested : bool;
  ch_done : bool
}.

Definition set_localId (v : Z) (c : channel) : channel :=
  mkChannel (ch_chanType c) (ch_extraData c) v (ch_remoteId c) (ch_maxIncomingPayload c)
    (ch_maxRemotePayload c) (ch_decided c) (ch_direction c) (ch_msg c) (ch_incomingRequests c)
    (ch_sentEOF c) (ch_remoteWin c) (ch_pending c) (ch_extPending c) (ch_myWindow c) (ch_sentClose
    c) (ch_hasClosed c) (ch_idleR c) (ch_idleW c) (ch_stopRequested c) (ch_done c).

Definition set_remoteId (v : Z) (c : channel) : channel :=
  mkChannel (ch_chanType c) (ch_extraData c) (ch_localId c) v (ch_maxIncomingPayload c)
    (ch_maxRemotePayload c) (ch_decided c) (ch_direction c) (ch_msg c) (ch_incomingRequests c)
    (ch_sentEOF c) (ch_remoteWin c) (ch_pending c) (ch_extPending c) (ch_myWindow c) (ch_sentClose
    c) (ch_hasClosed c) (ch_idleR c) (ch_idleW c) (ch_stopRequested c) (ch_done c).

Definition set_maxIncomingPayload (v : Z) (c : channel) : channel :=
  mkChannel (ch_chanType c) (ch_extraData c) (ch_localId c) (ch_remoteId c) v (ch_maxRemotePayload
    c) (ch_decided c) (ch_direction c) (ch_msg c) (ch_incomingRequests c) (ch_sentEOF c)
    (ch_remoteWin c) (ch_pending c) (ch_extPending c) (ch_myWindow c) (ch_sentClose c) (ch_hasClosed
    c) (ch_idleR c) (ch_idleW c) (ch_stopRequested c) (ch_done c).

Definition set_maxRemotePayload (v : Z) (c : channel) : channel :=
  mkChannel (ch_chanType c) (ch_extraData c) (ch_localId c) (ch_remoteId c) (ch_maxIncomingPayload
    c) v (ch_decided c) (ch_direction c) (ch_msg c) (ch_incomingRequests c) (ch_sentEOF c)
    (ch_remoteWin c) (ch_pending c) (ch_extPending c) (ch_myWindow c) (ch_sentClose c) (ch_hasClosed
    c) (ch_idleR c) (ch_idleW c) (ch_stopRequested c) (ch_done c).

Definition set_decided (v : bool) (c : channel) : channel :=
  mkChannel (ch_chanType c) (ch_extraData c) (ch_localId c) (ch_remoteId c) (ch_maxIncomingPayload
    c) (ch_maxRemotePayload c) v (ch_direction c) (ch_msg c) (ch_incomingRequests c) (ch_sentEOF c)
    (ch_remoteWin c) (ch_pending c) (ch_extPending c) (ch_myWindow c) (ch_sentClose c) (ch_hasClosed
    c) (ch_idleR c) (ch_idleW c) (ch_stopRequested c) (ch_done c).

Definition set_msg (v : gochan message) (c : channel) : channel :=
  mkChannel (ch_chanType c) (ch_extraData c) (ch_localId c) (ch_remoteId c) (ch_maxIncomingPayload
    c) (ch_maxRemotePayload c) (ch_decided c) (ch_direction c) v (ch_incomingRequests c) (ch_sentEOF
    c) (ch_remoteWin c) (ch_pending c) (ch_extPending c) (ch_myWindow c) (ch_sentClose c)
    (ch_hasClosed c) (ch_idleR c) (ch_idleW c) (ch_stopRequested c) (ch_done c).

Definition set_incomingRequests (v : gochan Request) (c : channel) : channel :=
  mkChannel (ch_chanType c) (ch_extraData c) (ch_localId c) (ch_remoteId c) (ch_maxIncomingPayload
    c) (ch_maxRemotePayload c) (ch_decided c) (ch_direction c) (ch_msg c) v (ch_sentEOF c)
    (ch_remoteWin c) (ch_pending c) (ch_extPending c) (ch_myWindow c) (ch_sentClose c) (ch_hasClosed
    c) (ch_idleR c) (ch_idleW c) (ch_stopRequested c) (ch_done c).

Definition set_sentEOF (v : bool) (c : channel) : channel :=
  mkChannel (ch_chanType c) (ch_extraData c) (ch_localId c) (ch_remoteId c) (ch_maxIncomingPayload
    c) (ch_maxRemotePayload c) (ch_decided c) (ch_direction c) (ch_msg c) (ch_incomingRequests c) v
    (ch_remoteWin c) (ch_pending c) (ch_extPending c) (ch_myWindow c) (ch_sentClose c) (ch_hasClosed
    c) (ch_idleR c) (ch_idleW c) (ch_stopRequested c) (ch_done c).

Definition set_remoteWin (v : window) (c : channel) : channel :=
  mkChannel (ch_chanType c) (ch_extraData c) (ch_localId c) (ch_remoteId c) (ch_maxIncomingPayload
    c) (ch_maxRemotePayload c) (ch_decided c) (ch_direction c) (ch_msg c) (ch_incomingRequests c)
    (ch_sentEOF c) v (ch_pending c) (ch_extPending c) (ch_myWindow c) (ch_sentClose c) (ch_hasClosed
    c) (ch_idleR c) (ch_idleW c) (ch_stopRequested c) (ch_done c).

Definition set_pending (v : buffer) (c : channel) : channel :=
  mkChannel (ch_chanType c) (ch_extraData c) (ch_localId c) (ch_remoteId c) (ch_maxIncomingPayload
    c) (ch_maxRemotePayload c) (ch_decided c) (ch_direction c) (ch_msg c) (ch_incomingRequests c)
    (ch_sentEOF c) (ch_remoteWin c) v (ch_extPending c) (ch_myWindow c) (ch_sentClose c)
    (ch_hasClosed c) (ch_idleR c) (ch_idleW c) (ch_stopRequested c) (ch_done c).

Definition set_extPending (v : buffer) (c : channel) : channel :=
  mkChannel (ch_chanType c) (ch_extraData c) (ch_localId c) (ch_remoteId c) (ch_maxIncomingPayload
    c) (ch_maxRemotePayload c) (ch_decided c) (ch_direction c) (ch_msg c) (ch_incomingRequests c)
    (ch_sentEOF c) (ch_remoteWin c) (ch_pending c) v (ch_myWindow c) (ch_sentClose c) (ch_hasClosed
    c) (ch_idleR c) (ch_idleW c) (ch_stopRequested c) (ch_done c).

Definition set_myWindow (v : Z) (c : channel) : channel :=
  mkChannel (ch_chanType c) (ch_extraData c) (ch_localId c) (ch_remoteId c) (ch_maxIncomingPayload
    c) (ch_maxRemotePayload c) (ch_decided c) (ch_direction c) (ch_msg c) (ch_incomingRequests c)
    (ch_sentEOF c) (ch_remoteWin c) (ch_pending c) (ch_extPending c) v (ch_sentClose c)
    (ch_hasClosed c) (ch_idleR c) (ch_idleW c) (ch_stopRequested c) (ch_done c).

Definition set_sentClose (v : bool) (c : channel) : channel :=
  mkChannel (ch_chanType c) (ch_extraData c) (ch_localId c) (ch_remoteId c) (ch_maxIncomingPayload
    c) (ch_maxRemotePayload c) (ch_decided c) (ch_direction c) (ch_msg c) (ch_incomingRequests c)
    (ch_sentEOF c) (ch_remoteWin c) (ch_pending c) (ch_extPending c) (ch_myWindow c) v (ch_hasClosed
    c) (ch_idleR c) (ch_idleW c) (ch_stopRequested c) (ch_done c).

Definition set_hasClosed (v : bool) (c : channel) : channel :=
  mkChannel (ch_chanType c) (ch_extraData c) (ch_localId c) (ch_remoteId c) (ch_maxIncomingPayload
    c) (ch_maxRemotePayload c) (ch_decided c) (ch_direction c) (ch_msg c) (ch_incomingRequests c)
    (ch_sentEOF c) (ch_remoteWin c) (ch_pending c) (ch_extPending c) (ch_myWindow c) (ch_sentClose
    c) v (ch_idleR c) (ch_idleW c) (ch_stopRequested c) (ch_done c).

Definition set_idleR (v : IdleTimer) (c : channel) : channel :=
  mkChannel (ch_chanType c) (ch_extraData c) (ch_localId c) (ch_remoteId c) (ch_maxIncomingPayload
    c) (ch_maxRemotePayload c) (ch_decided c) (ch_direction c) (ch_msg c) (ch_incomingRequests c)
    (ch_sentEOF c) (ch_remoteWin c) (ch_pending c) (ch_extPending c) (ch_myWindow c) (ch_sentClose
    c) (ch_hasClosed c) v (ch_idleW c) (ch_stopRequested c) (ch_done c).

Definition set_idleW (v : IdleTimer) (c : channel) : channel :=
  mkChannel (ch_chanType c) (ch_extraData c) (ch_localId c) (ch_remoteId c) (ch_maxIncomingPayload
    c) (ch_maxRemotePayload c) (ch_decided c) (ch_direction c) (ch_msg c) (ch_incomingRequests c)
    (ch_sentEOF c) (ch_remoteWin c) (ch_pending c) (ch_extPending c) (ch_myWindow c) (ch_sentClose
    c) (ch_hasClosed c) (ch_idleR c) v (ch_stopRequested c) (ch_done c).

Definition set_stopRequested (v : bool) (c : channel) : channel :=
  mkChannel (ch_chanType c) (ch_extraData c) (ch_localId c) (ch_remoteId c) (ch_maxIncomingPayload
    c) (ch_maxRemotePayload c) (ch_decided c) (ch_direction c) (ch_msg c) (ch_incomingRequests c)
    (ch_sentEOF c) (ch_remoteWin c) (ch_pending c) (ch_extPending c) (ch_myWindow c) (ch_sentClose
    c) (ch_hasClosed c) (ch_idleR c) (ch_idleW c) v (ch_done c).

Definition set_done (v : bool) (c : channel) : channel :=
  mkChannel (ch_chanType c) (ch_extraData c) (ch_localId c) (ch_remoteId c) (ch_maxIncomingPayload
    c) (ch_maxRemotePayload c) (ch_decided c) (ch_direction c) (ch_msg c) (ch_incomingRequests c)
    (ch_sentEOF c) (ch_remoteWin c) (ch_pending c) (ch_extPending c) (ch_myWindow c) (ch_sentClose
    c) (ch_hasClosed c) (ch_idleR c) (ch_idleW c) (ch_stopRequested c) v.

(** The channel, the packets handed to [mux.conn], in order, and the
    identifiers passed to [mux.chanList.remove]. *)
Record cstate := mkCstate {
  cs_ch : channel;
  cs_sent : list bytes;
  cs_removed : list Z
}.

Record Env := mkEnv {
  env_now : Z;
  env_answer : timerAnswer;
  env_connErr : option error;
  env_muxStop : bool;
  env_pickStop : bool
}.

(** ** The monad *)

Inductive go (S A : Type) :=
| Done (a : A) (s : S)
| Blocked (s : S)
| Crash (why : string).
Arguments Done {S A} _ _.
Arguments Blocked {S A} _.
Arguments Crash {S A} _.

Definition stm (S A : Type) : Type := S -> go S A.

Definition ret {S A} (a : A) : stm S A := fun s => Done a s.

Definition bind {S A B} (m : stm S A) (k : A -> stm S B) : stm S B := fun s =>
  match m s with
  | Done a s' => k a s'
  | Blocked s' => Blocked s'
  | Crash w => Crash w
  end.

Definition crash {S A} (why : string) : stm S A := fun _ => Crash why.
Definition block {S A} : stm S A := fun s => Blocked s.
Definition liftO {S A} (o : outcome A) : stm S A :=
  match o with Ret a => ret a | Fail _ => crash "unreachable" | Panic w => crash w end.

Declare Scope st_scope.
Delimit Scope st_scope with st.
Notation "'let!' x := m 'in' k" := (bind m (fun x => k))
  (at level 10, x pattern, m at level 100, k at level 200) : st_scope.
Notation "m ;;; k" := (bind m (fun _ => k)) (at level 100, right associativity) : st_scope.
#[local] Open Scope st_scope.

(** The operations of a channel. *)
Definition ST (A : Type) : Type := stm cstate A.

Definition get : ST channel := fun s => Done (cs_ch s) s.
Definition modify (f : channel -> channel) : ST unit := fun s =>
  Done tt (mkCstate (f (cs_ch s)) (cs_sent s) (cs_removed s)).

(** [mux.conn.writePacket(packet)]. *)
Definition connWrite (env : Env) (packet : bytes) : ST (option error) := fun s =>
  match env_connErr env with
  | Some e => Done (Some e) s
  | None => Done None (mkCstate (cs_ch s) (cs_sent s ++ [packet]) (cs_removed s))
  end.

(** [mux.chanList.remove(id)]. *)
Definition chanListRemove (id : Z) : ST unit := fun s =>
  Done tt (mkCstate (cs_ch s) (cs_sent s) (cs_removed s ++ [id])).

(** A [select] that sends on a buffered Go channel or gives up on a stop
    request: [true] when the value was queued, [false] when the stop won. *)
Definition selectSend {A} (env : Env) (q : gochan A) (put : gochan A -> channel -> channel) (x : A)
  : ST bool :=
  let! c := get in
  let stop := env_muxStop env || ch_stopRequested c in
  if gclosed q then crash "send on closed channel"
  else if (zlen (gq q) <? chanSize) && negb (stop && env_pickStop env) then
    modify (put (mkGochan (gq q ++ [x]) false)) ;;; ret true
  else if stop then ret false
  else block.

(** Closing a Go channel; closing it twice panics. *)
Definition closeGochan {A} (q : gochan A) (put : gochan A -> channel -> channel) : ST unit :=
  if gclosed q then crash "close of closed channel"
  else modify (put (mkGochan (gq q) true)).

Definition idleW_AttemptOK (env : Env) : ST unit :=
  modify (fun c => set_idleW (AttemptOK (env_now env) (ch_idleW c)) c).
Definition idleR_AttemptOK (env : Env) : ST unit :=
  modify (fun c => set_idleR (AttemptOK (env_now env) (ch_idleR c)) c).
Definition idleW_BeginAttempt (env : Env) : ST unit :=
  modify (fun c => set_idleW (BeginAttempt (env_now env) (ch_idleW c)) c).
Definition idleR_BeginAttempt (env : Env) : ST unit :=
  modify (fun c => set_idleR (BeginAttempt (env_now env) (ch_idleR c)) c).

(** ** Sending *)

Definition errUndecided : error := errNew "ssh: must Accept or Reject channel".
Definition errDecidedAlready : error := errNew "ssh: can call Accept or Reject only once".

Definition isClosePacket (packet : bytes) : bool :=
  match packet with p0 :: _ => b2z p0 =? msgChannelClose | [] => false end.

Definition writePacket (env : Env) (packet : bytes) : ST (option error) :=
  let! c := get in
  if ch_sentClose c then ret (Some EOF)
  else
    match packet with
    | [] => crash "index out of range"
    | p0 :: _ =>
        modify (set_sentClose (b2z p0 =? msgChannelClose)) ;;;
        let! err := connWrite env packet in
        match err with
        | None => idleW_AttemptOK env ;;; ret None
        | Some _ => ret err
        end
    end.

(** [binary.BigEndian.PutUint32(p[1:], v)]. *)
Definition putPeersId (v : Z) (p : bytes) : bytes := take 1 p ++ be_encode 4 v ++ drop 5 p.

Definition sendMessage {T} `{SSHMessage T} (env : Env) (msg : T) : ST (option error) :=
  let! p := liftO (Marshal msg) in
  let! c := get in
  if zlen p <? 5 then crash "index out of range"
  else writePacket env (putPeersId (ch_remoteId c) p).

(** The packet of one round of [WriteExtended]. *)
Definition dataPacket (remoteId extendedCode : Z) (todo : bytes) : bytes :=
  z2b (if 0 <? extendedCode then msgChannelExtendedData else msgChannelData)
    :: be_encode 4 remoteId
    ++ (if 0 <? extendedCode then be_encode 4 extendedCode else [])
    ++ be_encode 4 (u32 (zlen todo)) ++ todo.

(** One round reserves window space and sends at most that much; what the
    other goroutines and the timers do during the round's [reserve] is the
    round's [wstep]. *)
Record wstep := mkWstep {
  ws_answer : timerAnswer;
  ws_wakes : list (list winop * timerAnswer);
  ws_env : Env
}.

Definition returnErr (n : Z) (err : error) : ST (Z * option error) := ret (n, Some err).

Fixpoint writeLoop (steps : list wstep) (data : bytes) (extendedCode n : Z) : ST (Z * option error) :=
  match data with
  | [] => ret (n, None)
  | _ =>
      match steps with
      | [] => block
      | st :: steps' =>
          let! c := get in
          let space := min (ch_maxRemotePayload c) (zlen data) in
          match reserve space (ws_answer st) (ws_wakes st) (ch_remoteWin c) with
          | None => block
          | Some (space, err, w) =>
              modify (set_remoteWin w) ;;;
              match err with
              | Some e => returnErr n e
              | None =>
                  idleW_AttemptOK (ws_env st) ;;;
                  let todo := ztake space data in
                  let! err := writePacket (ws_env st) (dataPacket (ch_remoteId c) extendedCode todo) in
                  match err with
                  | Some e => returnErr n e
                  | None =>
                      idleW_AttemptOK (ws_env st) ;;;
                      writeLoop steps' (zdrop (zlen todo) data) extendedCode (n + zlen todo)
                  end
              end
          end
      end
  end.

Definition WriteExtended (env : Env) (steps : list wstep) (data : bytes) (extendedCode : Z)
  : ST (Z * option error) :=
  idleW_BeginAttempt env ;;;
  let! c := get in
  if ch_sentEOF c then ret (0, Some EOF)
  else
    let! r := writeLoop steps data extendedCode 0 in
    match r.2 with
    | None => idleW_AttemptOK env ;;; ret r
    | Some _ => ret r
    end.

(** ** Receiving data *)

Definition handleData (packet : bytes) : ST (option error) :=
  match packet with
  | [] => crash "index out of range"
  | p0 :: _ =>
      let isExtendedData := b2z p0 =? msgChannelExtendedData in
      let headerLen := if isExtendedData then 13 else 9 in
      if zlen packet <? headerLen then ret (Some (parseError (b2z p0)))
      else
        let extended := if isExtendedData then be_decode (ztake 4 (zdrop 5 packet)) else 0 in
        let length := be_decode (ztake 4 (zdrop (headerLen - 4) packet)) in
        if length =? 0 then ret None
        else
          let! c := get in
          if ch_maxIncomingPayload c <? length then
            ret (Some (errNew "ssh: incoming packet exceeds maximum payload size"))
          else
            let data := zdrop headerLen packet in
            if negb (length =? u32 (zlen data)) then ret (Some (errNew "ssh: wrong packet length"))
            else if ch_myWindow c <? length then
              ret (Some (errNew "ssh: remote side wrote too much"))
            else
              modify (set_myWindow (u32 (ch_myWindow c - length))) ;;;
              if extended =? 1 then
                let! b := liftO (write data (ch_extPending c)) in
                modify (set_extPending b) ;;; ret None
              else if 0 <? extended then ret None
              else
                let! b := liftO (write data (ch_pending c)) in
                modify (set_pending b) ;;; ret None
  end.

Definition adjustWindow (env : Env) (n : Z) : ST (option error) :=
  modify (fun c => set_myWindow (u32 (ch_myWindow c + u32 n)) c) ;;;
  sendMessage env (mk_windowAdjustMsg 0 (u32 n)).

(** [buffer.Read] on one of the channel's buffers, whose timer is [idleR]. *)
Definition bufferRead (env : Env) (want : nat) (b : buffer) (put : buffer -> channel -> channel)
  : ST (bytes * option error) :=
  idleR_BeginAttempt env ;;;
  match readPass want (env_answer env) b with
  | Some (RdDone data err b') =>
      modify (put b') ;;;
      match err with
      | None => idleR_AttemptOK env ;;; ret (data, None)
      | Some _ => ret (data, err)
      end
  | Some (RdWait b') => modify (put b') ;;; block
  | _ => crash "nil pointer dereference"
  end.

(** The bytes copied into the caller's slice of length [want], and the error. *)
Definition ReadExtended (env : Env) (want : nat) (extended : Z) : ST (bytes * option error) :=
  idleR_BeginAttempt env ;;;
  let! c := get in
  if negb ((extended =? 0) || (extended =? 1)) then
    ret ([], Some (Errorf "ssh: extended code %d unimplemented" [FNum extended]))
  else
    let! r := (if extended =? 1 then bufferRead env want (ch_extPending c) set_extPending
               else bufferRead env want (ch_pending c) set_pending) in
    let '(data, err) := r in
    match err with None => idleR_AttemptOK env | Some _ => ret tt end ;;;
    if 0 <? zlen data then
      let! err := adjustWindow env (u32 (zlen data)) in
      ret (data, if decide (err = Some EOF) then None else err)
    else ret (data, err).

(** ** Lifecycle *)

Definition closeChannel : ST unit :=
  modify (fun c => set_pending (eof (ch_pending c)) c) ;;;
  modify (fun c => set_extPending (eof (ch_extPending c)) c) ;;;
  let! c := get in
  closeGochan (ch_msg c) set_msg ;;;
  closeGochan (ch_incomingRequests c) set_incomingRequests ;;;
  modify (set_sentClose true) ;;;
  modify (fun c => set_remoteWin (Window.close (ch_remoteWin c)) c) ;;;
  modify (set_stopRequested true) ;;;
  modify (set_done true) ;;;
  modify (fun c => set_idleR (Stop (ch_idleR c)) c) ;;;
  modify (fun c => set_idleW (Stop (ch_idleW c)) c).

Definition responseMessageReceived : ST (option error) :=
  let! c := get in
  match ch_direction c with
  | channelInbound => ret (Some (errNew "ssh: channel response message received on inbound channel"))
  | channelOutbound =>
      if ch_decided c then ret (Some (errNew "ssh: duplicate response received for channel"))
      else modify (set_decided true) ;;; ret None
  end.

(** Queue a message for the goroutine waiting on [c.msg], or give up on stop. *)
Definition deliverMsg (env : Env) (m : message) : ST (option error) :=
  let! c := get in
  let! sent := selectSend env (ch_msg c) set_msg m in
  ret (if sent then None else Some EOF).

(** The last part of [handlePacket]: the type switch on the decoded message. *)
Definition handleDecoded (env : Env) (m : message) : ST (option error) :=
  match m with
  | M_channelOpenFailureMsg msg =>
      let! err := responseMessageReceived in
      match err with
      | Some e => ret (Some e)
      | None => chanListRemove (channelOpenFailureMsg_PeersId msg) ;;; deliverMsg env m
      end
  | M_channelOpenConfirmMsg msg =>
      let! err := responseMessageReceived in
      match err with
      | Some e => ret (Some e)
      | None =>
          let maxp := channelOpenConfirmMsg_MaxPacketSize msg in
          if (maxp <? minPacketLength) || (Z.shiftl 1 31 <? maxp) then
            ret (Some (Errorf "ssh: invalid MaxPacketSize %d from peer" [FNum maxp]))
          else
            modify (set_remoteId (channelOpenConfirmMsg_MyId msg)) ;;;
            modify (set_maxRemotePayload maxp) ;;;
            modify (fun c => set_remoteWin (add (channelOpenConfirmMsg_MyWindow msg) (ch_remoteWin c)).2 c) ;;;
            deliverMsg env m
      end
  | M_windowAdjustMsg msg =>
      let! c := get in
      let '(ok, w) := add (windowAdjustMsg_AdditionalBytes msg) (ch_remoteWin c) in
      modify (set_remoteWin w) ;;;
      ret (if ok then None
           else Some (Errorf "ssh: invalid window update for %d bytes"
                        [FNum (windowAdjustMsg_AdditionalBytes msg)]))
  | M_channelRequestMsg msg =>
      let req := mkRequest (channelRequestMsg_Request msg) (channelRequestMsg_WantReply msg)
                   (channelRequestMsg_RequestSpecificData msg) true in
      let! c := get in
      let! sent := selectSend env (ch_incomingRequests c) set_incomingRequests req in
      ret (if sent then None else Some EOF)
  | _ => deliverMsg env m
  end.

Definition handlePacket (env : Env) (packet : bytes) : ST (option error) :=
  idleR_AttemptOK env ;;;
  match packet with
  | [] => crash "index out of range"
  | p0 :: _ =>
      let t := b2z p0 in
      if (t =? msgChannelData) || (t =? msgChannelExtendedData) then handleData packet
      else if t =? msgChannelClose then
        let! c := get in
        sendMessage env (mk_channelCloseMsg (ch_remoteId c)) ;;;
        chanListRemove (ch_localId c) ;;;
        closeChannel ;;; ret None
      else if t =? msgChannelEOF then
        modify (fun c => set_extPending (eof (ch_extPending c)) c) ;;;
        modify (fun c => set_pending (eof (ch_pending c)) c) ;;; ret None
      else
        match decode packet with
        | Panic w => crash w
        | Fail e => ret (Some e)
        | Ret m => handleDecoded env m
        end
  end.

(** [mux.newChannel], up to the identifier, which the channel list assigns. *)
Definition newChannel (chanType : bytes) (direction : channelDirection) (extraData : bytes)
    (localId : Z) : channel :=
  let idle := mkIdleTimer 0 0 0 0 None None [0%nat] false false false in
  mkChannel chanType extraData localId 0 0 0 false direction newGochan newGochan false
    newWindow newBuffer newBuffer channelWindowSize false false idle idle false false.

(** ** User operations *)

Definition Accept (env : Env) : ST (option error) :=
  let! c := get in
  if ch_decided c then ret (Some errDecidedAlready)
  else
    modify (set_maxIncomingPayload channelMaxPacket) ;;;
    let! c := get in
    let confirm := mk_channelOpenConfirmMsg (ch_remoteId c) (ch_localId c) (ch_myWindow c)
                     (ch_maxIncomingPayload c) [] in
    modify (set_decided true) ;;;
    sendMessage env confirm.

Definition Reject (env : Env) (reason : Z) (message : bytes) : ST (option error) :=
  let! c := get in
  if ch_decided c then ret (Some errDecidedAlready)
  else
    let reject := mk_channelOpenFailureMsg (ch_remoteId c) reason message (str "en") in
    modify (set_decided true) ;;;
    modify (fun c => set_idleR (with_stop (ch_idleR c)) c) ;;;
    modify (fun c => set_idleW (with_stop (ch_idleW c)) c) ;;;
    sendMessage env reject.

Definition ChannelRead (env : Env) (want : nat) : ST (bytes * option error) :=
  let! c := get in
  if negb (ch_decided c) then ret ([], Some errUndecided) else ReadExtended env want 0.

Definition ChannelWrite (env : Env) (steps : list wstep) (data : bytes) : ST (Z * option error) :=
  let! c := get in
  if negb (ch_decided c) then ret (0, Some errUndecided) else WriteExtended env steps data 0.

Definition CloseWrite (env : Env) : ST (option error) :=
  let! c := get in
  if negb (ch_decided c) then ret (Some errUndecided)
  else
    modify (set_sentEOF true) ;;;
    sendMessage env (mk_channelEOFMsg (ch_remoteId c)).

Definition ChannelClose (env : Env) : ST (option error) :=
  let! c := get in
  if ch_hasClosed c then ret None
  else
    modify (set_hasClosed true) ;;;
    modify (fun c => set_idleR (with_stop (ch_idleR c)) c) ;;;
    modify (fun c => set_idleW (with_stop (ch_idleW c)) c) ;;;
    modify (set_stopRequested true) ;;;
    modify (set_done true) ;;;
    if negb (ch_decided c) then ret (Some errUndecided)
    else sendMessage env (mk_channelCloseMsg (ch_remoteId c)).

(** [SendRequest]: the send, then, for [wantReply], the wait for an answer. *)
Definition SendRequest (env : Env) (name : bytes) (wantReply : bool) (payload : bytes)
  : ST (bool * option error) :=
  let! c := get in
  if negb (ch_decided c) then ret (false, Some errUndecided)
  else
    let! err := sendMessage env (mk_channelRequestMsg (ch_remoteId c) name wantReply payload) in
    match err with
    | Some e => ret (false, Some e)
    | None =>
        if wantReply then
          let! c := get in
          let stop := env_muxStop env || ch_stopRequested c in
          match gq (ch_msg c) with
          | m :: q =>
              if stop && env_pickStop env then ret (false, Some EOF)
              else
                modify (set_msg (mkGochan q (gclosed (ch_msg c)))) ;;;
                match m with
                | M_channelRequestFailureMsg _ => ret (false, None)
                | M_channelRequestSuccessMsg _ => ret (true, None)
                | _ => ret (false, Some (errNew "ssh: unexpected response to channel request"))
                end
          | [] =>
              if gclosed (ch_msg c) || stop then ret (false, Some EOF) else block
          end
        else ret (false, None)
    end.

Definition ackRequest (env : Env) (ok : bool) : ST (option error) :=
  let! c := get in
  if negb (ch_decided c) then ret (Some errUndecided)
  else if ok then sendMessage env (mk_channelRequestSuccessMsg (ch_remoteId c))
  else sendMessage env (mk_channelRequestFailureMsg (ch_remoteId c)).
