(* ===== verification/Timers.v ===== *)
(** * The timers of a channel (channel.go: timeouts, deadlines, extended streams)

    A channel has one idle timer for each direction (Idle.v).  These are its methods that set
    them, the wrapper for its extended streams, and what the two goroutines that wait on a timer
    can learn from it: both the reader's buffers and the writer's window ask the timer of the
    reads. *)

From S2P Require Import Prelude Wire Codec Messages Halter Idle Window Buffer Channel.

#[local] Open Scope st_scope.

(** ** Operations *)

(** The timer of the reads or of the writes. *)
Definition timerOf (reads : bool) (c : channel) : IdleTimer := if reads then ch_idleR c else ch_idleW c.
Definition set_timer (reads : bool) (t : IdleTimer) (c : channel) : channel := if reads then set_idleR t c else set_idleW t c.

(** A call of a timer; a panic of its goroutine ends the process. *)
Definition onTimer (reads : bool) (m : IdleTimer -> outcome IdleTimer) : ST unit :=
  let! c := get in
  let! t := liftO (m (timerOf reads c)) in
  modify (set_timer reads t).

Definition SetReadIdleTimeout (dur : Z) : ST (option error) := onTimer true (Idle.SetIdleTimeout dur) ;;; ret None.
Definition SetWriteIdleTimeout (dur : Z) : ST (option error) := onTimer false (Idle.SetIdleTimeout dur) ;;; ret None.
Definition SetIdleTimeout (dur : Z) : ST (option error) :=
  onTimer true (Idle.SetIdleTimeout dur) ;;; onTimer false (Idle.SetIdleTimeout dur) ;;; ret None.

(** [now] is when the clock is read, [None] is the zero time. *)
Definition setDeadline (now : Z) (tm : option Z) (reads : bool) : ST (option error) := onTimer reads (Idle.setDeadline now tm) ;;; ret None.
Definition SetReadDeadline (now : Z) (tm : option Z) : ST (option error) := setDeadline now tm true.
Definition SetWriteDeadline (now : Z) (tm : option Z) : ST (option error) := setDeadline now tm false.
Definition SetDeadline (now now' : Z) (tm : option Z) : ST (option error) := setDeadline now tm false ;;; setDeadline now' tm true.

Definition GetReadIdleTimer (c : channel) : IdleTimer := ch_idleR c.
Definition GetWriteIdleTimer (c : channel) : IdleTimer := ch_idleW c.

(** [Status] reports the goroutine of the read timer, which never marks itself ready and records
    no error. *)
Definition Status (c : channel) : RunStatus := mkRunStatus false (it_stopRequested (ch_idleR c)) (it_done (ch_idleR c)) None.

(** An extended stream: its code. *)
Definition Extended (code : Z) (c : channel) : option Z := if ch_decided c then Some code else None.
Definition Stderr (c : channel) : option Z := Extended 1 c.
Definition ext_Write (env : Env) (steps : list wstep) (code : Z) (data : bytes) : ST (Z * option error) := WriteExtended env steps data code.
Definition ext_Read (env : Env) (code : Z) (want : nat) : ST (bytes * option error) := ReadExtended env want code.

(** ** What a timer answers *)

(** The [select] on [TimedOut] and the stop request: a goroutine that has returned sends nothing,
    and one that was asked to stop may still send. *)
Definition answers (t : IdleTimer) (q : timerAnswer) : Prop :=
  match q with
  | AnsReqStop => it_stopRequested t = true
  | AnsTimedOut msg => it_done t = false /\ (msg = [] <-> it_timeOutRaised t = None)
  end.

(** A timer that a success has ended. *)
Definition ended (t : IdleTimer) : Prop := it_stopRequested t = true /\ it_done t = true.

Lemma ended_answers t q : ended t -> answers t q -> q = AnsReqStop.
Proof. intros [_ Hd]. destruct q as [msg|]; [|done]. cbn. rewrite Hd. by intros [? _]. Qed.

Lemma setDeadline_oneshot now tm t t' : Idle.setDeadline now tm t = Ret t' -> it_isOneshot t' = true.
Proof.
  assert (Hs : forall dur, SetOneshotIdleTimeout dur t = Ret t' -> it_isOneshot t' = true).
  { intros dur H. unfold SetOneshotIdleTimeout, Idle.SetIdleTimeout in H. destruct (it_stopRequested _); [by injection H as <-|].
    apply obind_ret in H as ([t1 fs] & H1 & H2). injection H2 as <-. unfold backgroundEvent in H1. destruct (it_done _); [by injection H1 as <-|].
    apply obind_ret in H1 as (t2 & H2 & H1). injection H1 as <- <-. unfold handleSetIdleTimeout, startHeartbeat, newTicker in H2.
    repeat case_match; cbn in H2; by simplify_eq. }
  unfold Idle.setDeadline. destruct tm; apply Hs.
Qed.

Lemma ended_AttemptOK now t : it_isOneshot t = true \/ ended t -> ended (AttemptOK now t).
Proof. unfold AttemptOK, ended. intros H. destruct (it_isOneshot t); [done|]. by destruct H. Qed.

(** A stopped timer stays as it is, whatever its callers and the clock do; only what an attempt
    records changes. *)
Lemma ended_acts a t t' fs : ended t -> act a t = Ret (t', fs) ->
  ended t' /\ it_timeOutRaised t' = it_timeOutRaised t /\ it_dur t' = it_dur t /\ fs = [].
Proof.
  intros [Hs Hd] H. destruct a as [e|now|now| |]; cbn in H.
  - unfold backgroundEvent in H. rewrite Hd in H. by injection H as <- <-.
  - by injection H as <- <-.
  - injection H as <- <-. unfold AttemptOK, ended. by destruct (it_isOneshot t).
  - by injection H as <- <-.
  - by injection H as <- <-.
Qed.

(** *** Sending does not touch the timer of the reads *)

Definition sameR {A} (m : ST A) : Prop := forall s a s', m s = Done a s' -> ch_idleR (cs_ch s') = ch_idleR (cs_ch s).

Lemma sameR_writePacket env p : sameR (writePacket env p).
Proof.
  intros s a s' H. unfold writePacket, bind, get in H. destruct (ch_sentClose _); [by injection H as _ <-|].
  destruct p as [|p0 p]; [done|]. cbn in H. unfold connWrite in H. destruct (env_connErr env); cbn in H; by injection H as _ <-.
Qed.

Lemma sameR_sendMessage {T} `{SSHMessage T} env (msg : T) : sameR (sendMessage env msg).
Proof.
  intros s a s' Hs. unfold sendMessage, bind, liftO in Hs. destruct (Marshal msg) as [p|e|w]; [|done..]. cbn in Hs.
  destruct (zlen p <? 5); [done|]. by apply sameR_writePacket in Hs.
Qed.

(** A successful read ends a one-shot timer. *)
Lemma bufferRead_ends env want b put s data s' : (forall b c, ch_idleR (put b c) = ch_idleR c) -> it_isOneshot (ch_idleR (cs_ch s)) = true ->
  bufferRead env want b put s = Done (data, None) s' -> ended (ch_idleR (cs_ch s')).
Proof.
  intros Hput Ho H. unfold bufferRead, bind, idleR_BeginAttempt, modify in H.
  destruct (readPass want (env_answer env) b) as [[d [e|] b'|b'|]|]; try done. cbn in H. injection H as _ <-. cbn. rewrite Hput.
  apply ended_AttemptOK. by left.
Qed.

(** An error of a read comes without data. *)
Lemma readLoop_error fuel want out q b d e b' : readLoop fuel want out q b = Some (RdDone d (Some e) b') -> d = [].
Proof.
  revert want out b. induction fuel as [|fuel IH]; intros want out b H; cbn [readLoop] in H; [done|]. destruct want; [done|].
  destruct (bheap b !! bhead b) as [h|]; [|done]. destruct (ebuf h); [|by apply IH in H]. destruct (negb _).
  - destruct (enext h); [by apply IH in H | done].
  - destruct (negb _); [done|]. destruct (bclosed b); [by injection H as <- _ _|]. destruct q as [[|]|]; try done. by injection H as <- _ _.
Qed.

Lemma bufferRead_error env want b put s d e s' : bufferRead env want b put s = Done (d, Some e) s' -> d = [].
Proof.
  unfold bufferRead, bind, idleR_BeginAttempt, modify, readPass. destruct (readLoop _ _ _ _ _) as [[d' [e'|] b'|b'|]|] eqn:E; try done.
  cbn. intros H. injection H as <- _ _. by apply readLoop_error in E.
Qed.

Lemma ReadExtended_ends env want extended s data s' : it_isOneshot (ch_idleR (cs_ch s)) = true ->
  ReadExtended env want extended s = Done (data, None) s' -> ended (ch_idleR (cs_ch s')).
Proof.
  intros Ho H. unfold ReadExtended, bind at 1, idleR_BeginAttempt, modify at 1 in H. set (s1 := mkCstate _ _ _) in H.
  assert (Ho1 : it_isOneshot (ch_idleR (cs_ch s1)) = true) by done. unfold bind at 1, get in H.
  destruct (negb _); [done|]. unfold bind at 1 in H.
  assert (Hread : forall d err s2, (if extended =? 1 then bufferRead env want (ch_extPending (cs_ch s1)) set_extPending
     else bufferRead env want (ch_pending (cs_ch s1)) set_pending) s1 = Done (d, err) s2 ->
     match err with Some _ => d = [] | None => ended (ch_idleR (cs_ch s2)) end).
  { intros d err s2 E. destruct (extended =? 1), err; by first [eapply bufferRead_error in E | eapply bufferRead_ends in E]. }
  match type of H with match ?m with _ => _ end = _ => destruct m as [[d err] s2|s2|w] eqn:E end; try done.
  specialize (Hread d err s2 E). destruct err as [e|]; [by subst d|].
  unfold bind at 1, idleR_AttemptOK, modify in H. destruct (0 <? zlen d).
  - unfold bind at 1, adjustWindow in H. unfold bind at 1, modify in H.
    destruct (sendMessage _ _ _) as [e s3|s3|w] eqn:Es; try done. injection H as _ _ <-. apply sameR_sendMessage in Es. rewrite Es. cbn.
    apply ended_AttemptOK. by right.
  - injection H as _ <-. cbn. apply ended_AttemptOK. by right.
Qed.

Lemma SetReadDeadline_oneshot now tm s r s' : SetReadDeadline now tm s = Done r s' -> it_isOneshot (ch_idleR (cs_ch s')) = true.
Proof.
  unfold SetReadDeadline, setDeadline, onTimer, bind, get, liftO, modify. intros H.
  destruct (Idle.setDeadline now tm _) as [t|e|w] eqn:E; try done. cbn in H. injection H as _ <-. by apply setDeadline_oneshot in E.
Qed.

(** A writer that finds the timer ended gives up at once. *)
Lemma WriteExtended_ended env st steps data code s : data <> [] -> ch_sentEOF (cs_ch s) = false -> ws_answer st = AnsReqStop ->
  exists s', WriteExtended env (st :: steps) data code s = Done (0, Some EOF) s' /\ cs_sent s' = cs_sent s.
Proof.
  intros Hd Hs Hq. unfold WriteExtended, bind, idleW_BeginAttempt, modify, get. cbn. rewrite Hs. destruct data as [|x data]; [done|].
  cbn [writeLoop]. unfold bind, get, reserve, reserveEnter. rewrite Hq. cbn. eexists. split; reflexivity.
Qed.

(** ** Properties *)

(** C38: A read deadline breaks the writes.  [SetReadDeadline] makes the timer of the reads a one-shot
    timer, also when it is called with the zero time to clear a deadline; the first read that
    succeeds then ends the timer.  As the writer asks this timer when it reserves window space,
    every later write of data on the channel returns at once with the end of the stream and
    sends nothing, whatever window the peer has granted; and as the timer stays ended, no read
    and no write ever times out again, whatever deadline or timeout is set. *)
Theorem deadline_breaks_writes now tm env want extended s s1 data s2 :
  SetReadDeadline now tm s = Done None s1 -> ReadExtended env want extended s1 = Done (data, None) s2 ->
  let t := ch_idleR (cs_ch s2) in
  (forall env' st steps data' code, data' <> [] -> ch_sentEOF (cs_ch s2) = false -> answers t (ws_answer st) ->
     exists s3, WriteExtended env' (st :: steps) data' code s2 = Done (0, Some EOF) s3 /\ cs_sent s3 = cs_sent s2) /\
  (forall dur, SetReadIdleTimeout dur s2 = Done None s2) /\
  (forall t', rtc Idle.step t t' -> ended t' /\ it_timeOutRaised t' = it_timeOutRaised t /\ forall q, answers t' q -> q = AnsReqStop).
Proof.
  intros Hs Hr. apply SetReadDeadline_oneshot in Hs. pose proof (ReadExtended_ends _ _ _ _ _ _ Hs Hr) as He. cbn zeta. split; [|split].
  - intros env' st steps data' code Hd Heof Ha. apply WriteExtended_ended; [done..|]. by eapply ended_answers.
  - intros dur. unfold SetReadIdleTimeout, onTimer, bind, get, liftO, timerOf, Idle.SetIdleTimeout. rewrite (proj1 He). by destruct s2 as [[]].
  - intros t' Hsteps. assert (Ht : ended t' /\ it_timeOutRaised t' = it_timeOutRaised (ch_idleR (cs_ch s2))).
    { revert He. induction Hsteps as [t|t t1 t2 [a ? ? fs Ha] _ IH]; intros He; [done|]. destruct (ended_acts a _ _ _ He Ha) as (He1 & Hr1 & _).
      destruct (IH He1) as [? Hr2]. split; [done | by rewrite Hr2]. }
    destruct Ht as [Ht1 Ht2]. split; [done|]. split; [done|]. intros q. by apply ended_answers.
Qed.

(** An open channel with a byte to read and window to write; the deadline is cleared. *)
Definition example_open : cstate :=
  mkCstate (set_decided true (set_remoteWin (mkWindow 1000 0 false) (set_maxRemotePayload 100
    (set_pending (match write [x61] newBuffer with Ret b => b | _ => newBuffer end) (newChannel (str "t") channelInbound [] 5))))) [] [].

Definition example_env : Env := mkEnv 10 (AnsTimedOut []) None false false.

Definition example_read : option cstate :=
  match SetReadDeadline 10 None example_open with
  | Done None s1 => match ReadExtended example_env 1 0 s1 with Done (_, None) s2 => Some s2 | _ => None end
  | _ => None
  end.

Lemma deadline_breaks_writes_witness :
  match example_read with
  | Some s2 => win (ch_remoteWin (cs_ch s2)) = 1000 /\ ch_sentClose (cs_ch s2) = false /\
      exists s3, WriteExtended example_env [mkWstep AnsReqStop [] example_env] [x62] 0 s2 = Done (0, Some EOF) s3 /\ cs_sent s3 = cs_sent s2
  | None => False
  end.
Proof.
  assert (H1 : option_map (fun s => (win (ch_remoteWin (cs_ch s)), ch_sentClose (cs_ch s), ch_sentEOF (cs_ch s), it_stopRequested (ch_idleR (cs_ch s)))) example_read =
    Some (1000, false, false, true)) by (vm_compute; reflexivity).
  destruct example_read as [s2|] eqn:E; [|discriminate H1]. injection H1 as Hw Hc Heof Hstop. split; [exact Hw|]. split; [exact Hc|].
  unfold example_read in E. destruct (SetReadDeadline 10 None example_open) as [[e|] s1|s1|w] eqn:E1; try discriminate E.
  destruct (ReadExtended example_env 1 0 s1) as [[bs [e|]] s|s|w] eqn:E2; try discriminate E. injection E as ->.
  destruct (deadline_breaks_writes 10 None example_env 1 0 example_open s1 bs s2 E1 E2) as (Hwrite & _).
  apply Hwrite; [discriminate | exact Heof | exact Hstop].
Defined.
