(* ===== verification/ChannelFacts.v ===== *)
(** * Channels: invariants and delivery

    The theorems on Channel.v.  [wp] is the weakest precondition of an
    operation in the state monad (no panic, a postcondition when it is done, an
    invariant when it blocks); [chan_inv] is the invariant of a channel, which
    every operation preserves: its buffers are well formed, the receive window
    together with what is buffered never exceeds the initial window, and nothing
    follows a close message.  [write_loop] and [handle_data] together give the
    delivery theorem between a writer and the channel at the other end. *)

From S2P Require Import Prelude Wire Codec Messages Idle Window Buffer Channel Timers.

#[local] Open Scope st_scope.

(** ** Weakest preconditions *)

Definition wp {S A} (m : stm S A) (Q : A -> S -> Prop) (B : S -> Prop) (s : S) : Prop :=
  match m s with
  | Done a s' => Q a s'
  | Blocked s' => B s'
  | Crash _ => False
  end.

Lemma wp_ret {S A} (a : A) Q B (s : S) : Q a s -> wp (ret a) Q B s.
Proof. done. Qed.

Lemma wp_bind {S A B'} (m : stm S A) (k : A -> stm S B') Q B s :
  wp m (fun a s' => wp (k a) Q B s') B s -> wp (bind m k) Q B s.
Proof. unfold wp, bind. by destruct (m s). Qed.

Lemma wp_get Q B s : Q (cs_ch s) s -> wp get Q B s.
Proof. done. Qed.

Lemma wp_modify f Q B s : Q tt (mkCstate (f (cs_ch s)) (cs_sent s) (cs_removed s)) -> wp (modify f) Q B s.
Proof. done. Qed.

Lemma wp_block {S A} Q (B : S -> Prop) s : B s -> wp (@block S A) Q B s.
Proof. done. Qed.

Lemma wp_mono {S A} (m : stm S A) (Q Q' : A -> S -> Prop) (B B' : S -> Prop) s :
  wp m Q B s -> (forall a s', Q a s' -> Q' a s') -> (forall s', B s' -> B' s') -> wp m Q' B' s.
Proof. unfold wp. destruct (m s); eauto. Qed.

(** A predicate on the state kept by an operation that may also block. *)
Definition keeps {A} (I : cstate -> Prop) (m : ST A) : Prop :=
  forall s, I s -> wp m (fun _ => I) I s.

Lemma keeps_ret {A} I (a : A) : keeps I (ret a).
Proof. by intros s Hs. Qed.

Lemma keeps_bind {A B} I (m : ST A) (k : A -> ST B) :
  keeps I m -> (forall a, keeps I (k a)) -> keeps I (bind m k).
Proof.
  intros Hm Hk s Hs. apply wp_bind. eapply wp_mono; [by apply Hm | | done].
  intros a s' Hs'. by apply Hk.
Qed.

(** After [get] the continuation may use that the value is the channel. *)
Lemma keeps_get {B} I (k : channel -> ST B) :
  (forall s, I s -> wp (k (cs_ch s)) (fun _ => I) I s) -> keeps I (let! c := get in k c).
Proof. intros Hk s Hs. by apply Hk. Qed.

Lemma keeps_modify I f :
  (forall c l r, I (mkCstate c l r) -> I (mkCstate (f c) l r)) -> keeps I (modify f).
Proof. intros Hf [c l r] Hs. by apply Hf. Qed.

Lemma keeps_block {A} I : keeps I (@block _ A).
Proof. by intros s Hs. Qed.

Create HintDb keeps discriminated.
#[export] Hint Resolve keeps_ret keeps_block : keeps.

(** ** The invariant *)

(** Nothing follows a close message on the channel. *)
Definition sent_ok (s : cstate) : Prop :=
  Forall (fun p => isClosePacket p = false) (cs_sent s) \/
  (exists l p, cs_sent s = l ++ [p] /\ Forall (fun p => isClosePacket p = false) l /\
     isClosePacket p = true /\ ch_sentClose (cs_ch s) = true).

(** The receive side: window plus buffered bytes stay within the initial
    window. *)
Definition recv_ok (c : channel) : Prop :=
  exists a e, buffer_repr (ch_pending c) a /\ buffer_repr (ch_extPending c) e /\
    0 <= ch_myWindow c /\ ch_myWindow c + zlen (adata a) + zlen (adata e) <= channelWindowSize.

(** What is known of the life of the channel: a predicate on whether its two Go
    channels are closed, its identifier and the identifiers removed from the
    channel list. *)
Definition lifePred : Type := bool -> bool -> Z -> list Z -> Prop.

Definition life (F : lifePred) (s : cstate) : Prop :=
  F (gclosed (ch_msg (cs_ch s))) (gclosed (ch_incomingRequests (cs_ch s)))
    (ch_localId (cs_ch s)) (cs_removed s).

(** The channel is [id], and both Go channels are open. *)
Definition is_open (id : Z) : lifePred := fun m q i _ => (m = false /\ q = false) /\ i = id.

(** The channel is [id], and as long as the channel list has it, they are open. *)
Definition live (id : Z) : lifePred := fun m q i r => i = id /\ (id ∉ r -> m = false /\ q = false).

(** What a writer and a reader wait for: the window and the timers. *)
Definition waits_ok (c : channel) : Prop := window_ok (ch_remoteWin c) /\ timer_ok (ch_idleR c) /\ timer_ok (ch_idleW c).

Definition chan_inv (F : lifePred) (s : cstate) : Prop :=
  sent_ok s /\ recv_ok (cs_ch s) /\ waits_ok (cs_ch s) /\ life F s.

(** A change of the channel that touches none of the fields of the invariant. *)
Definition inert (f : channel -> channel) : Prop :=
  forall c, ch_sentClose (f c) = ch_sentClose c /\ ch_pending (f c) = ch_pending c /\
    ch_extPending (f c) = ch_extPending c /\ ch_myWindow (f c) = ch_myWindow c /\
    ch_remoteWin (f c) = ch_remoteWin c /\
    gclosed (ch_msg (f c)) = gclosed (ch_msg c) /\
    gclosed (ch_incomingRequests (f c)) = gclosed (ch_incomingRequests c) /\
    ch_localId (f c) = ch_localId c /\
    (waits_ok c -> waits_ok (f c)).

#[export] Hint Resolve timer_ok_BeginAttempt timer_ok_with_stop timer_ok_Stop timer_ok_AttemptOK : keeps.

Lemma inert_idleR (f : IdleTimer -> IdleTimer) :
  (forall t, timer_ok t -> timer_ok (f t)) -> inert (fun c => set_idleR (f (ch_idleR c)) c).
Proof. intros Hf c. split_and!; try done. intros (? & ? & ?). split_and!; try done. by apply Hf. Qed.

Lemma inert_idleW (f : IdleTimer -> IdleTimer) :
  (forall t, timer_ok t -> timer_ok (f t)) -> inert (fun c => set_idleW (f (ch_idleW c)) c).
Proof. intros Hf c. split_and!; try done. intros (? & ? & ?). split_and!; try done. by apply Hf. Qed.

Ltac inert_timer := first [apply inert_idleR | apply inert_idleW]; auto with keeps.

#[export] Hint Extern 1 (inert _) => first [by intros [] | inert_timer] : keeps.

Section Keeps.

(** The lemmas of this section hold for any knowledge of the channel's life. *)
Variable F : lifePred.

#[local] Abbreviation inv := (chan_inv F).

Lemma inv_inert f c l r :
  inert f -> inv (mkCstate c l r) -> inv (mkCstate (f c) l r).
Proof.
  intros Hf (Hs & (a & e & Ha & He & Hw) & Hr & Hl).
  destruct (Hf c) as (E1 & E2 & E3 & E4 & E5 & E6 & E7 & E8 & E9).
  split_and!; simpl in *; [|exists a, e; by rewrite E2, E3, E4|by apply E9|].
  2: { unfold life in *; simpl in *. by rewrite E6, E7, E8. }
  destruct Hs as [Hs|Hs]; [by left|right]. simpl in *. by rewrite E1.
Qed.

Lemma inv_inert' f s :
  inert f -> inv s -> inv (mkCstate (f (cs_ch s)) (cs_sent s) (cs_removed s)).
Proof. intros Hf Hs. apply inv_inert; [done|]. by destruct s. Qed.

Lemma inv_set_msg q s :
  inv s ->
  inv (mkCstate (set_msg (mkGochan q (gclosed (ch_msg (cs_ch s)))) (cs_ch s)) (cs_sent s) (cs_removed s)).
Proof. intros (Hs & Hr & Hw & Hl). by split_and!. Qed.

Lemma inv_set_incomingRequests q s :
  inv s ->
  inv (mkCstate (set_incomingRequests (mkGochan q (gclosed (ch_incomingRequests (cs_ch s)))) (cs_ch s))
         (cs_sent s) (cs_removed s)).
Proof. intros (Hs & Hr & Hw & Hl). by split_and!. Qed.

Lemma keeps_inert f : inert f -> keeps inv (modify f).
Proof. intros Hf. apply keeps_modify. intros c l r. by apply inv_inert. Qed.

Lemma keeps_set_sentClose : keeps inv (modify (set_sentClose true)).
Proof.
  apply keeps_modify. intros c l r (Hs & Hr & Hw & Hl). split_and!; [|done..].
  destruct Hs as [Hs|(l' & p & ? & ? & ? & _)]; [by left|right]. by exists l', p.
Qed.

Lemma keeps_remoteWin (f : channel -> window) :
  (forall c, window_ok (ch_remoteWin c) -> window_ok (f c)) ->
  keeps inv (modify (fun c => set_remoteWin (f c) c)).
Proof.
  intros Hf. apply keeps_modify. intros c l r (Hs & Hr & [Hw Ht] & Hl). split_and!; [done..| |done].
  split; [by apply Hf | done].
Qed.

#[local] Hint Resolve keeps_inert keeps_set_sentClose : keeps.

(** ** Sending keeps the invariant *)

Lemma keeps_writePacket env p : p <> [] -> keeps inv (writePacket env p).
Proof.
  intros Hp. unfold writePacket. apply keeps_get. intros s Hs.
  destruct (ch_sentClose (cs_ch s)) eqn:Ec; [done|].
  destruct p as [|p0 p]; [done|]. unfold wp, bind, modify, connWrite, idleW_AttemptOK.
  destruct s as [c l r]; simpl in *. destruct Hs as (Hs & Hr & Hw & Hl).
  assert (Hnc : Forall (fun p => isClosePacket p = false) l).
  { destruct Hs as [Hs|(? & ? & _ & _ & _ & Hx)]; [done|]. simpl in Hx. congruence. }
  assert (Hw' : waits_ok (set_idleW (AttemptOK (env_now env) (ch_idleW c)) c)) by by apply inert_idleW; auto with keeps.
  destruct (env_connErr env); simpl; (split_and!; [|done..]).
  - by left.
  - destruct (b2z p0 =? msgChannelClose) eqn:E.
    + right. by exists l, (p0 :: p).
    + left. simpl. apply Forall_app. split; [done|]. by apply Forall_singleton.
Qed.

Lemma keeps_bind_ret {A B} I (a : A) (k : A -> ST B) : keeps I (k a) -> keeps I (bind (ret a) k).
Proof. done. Qed.

Lemma keeps_sendMessage {T} `{SSHMessage T} env (m : T) p :
  Marshal m = Ret p -> 5 <= zlen p -> keeps inv (sendMessage env m).
Proof.
  intros Hm Hl. unfold sendMessage. rewrite Hm. apply keeps_bind_ret.
  apply keeps_get. intros s Hs. destruct (zlen p <? 5) eqn:E; b2p; [lia|].
  apply keeps_writePacket; [|done]. unfold putPeersId.
  destruct p as [|p0 p]; [rewrite zlen_nil in Hl; lia|]. done.
Qed.

End Keeps.

#[export] Hint Resolve keeps_inert keeps_set_sentClose : keeps.

(** Every message a channel sends starts with a tag and a 32-bit number. *)
Ltac keeps_send :=
  eapply keeps_sendMessage;
  [eapply Marshal_value; reflexivity
  | simpl; rewrite ?zlen_cons, ?zlen_app, ?zlen_nil;
    repeat match goal with |- context [zlen ?l] => pose proof (zlen_nonneg l); generalize dependent (zlen l) end;
    intros; lia].

#[export] Hint Extern 2 (keeps (chan_inv _) (sendMessage _ _)) => keeps_send : keeps.

(** Walk through an operation: bind by bind, branch by branch. *)
Ltac keeps_walk :=
  repeat first
    [ progress auto with keeps
    | match goal with
      | |- keeps _ (bind _ _) => apply keeps_bind; [|intros ?]
      | |- keeps _ (match ?x with _ => _ end) => destruct x
      | |- keeps _ (let '(_, _) := ?x in _) => destruct x
      end ].

Section Ops.

(** Knowledge of the channel's life that survives further removals from the
    list. *)
Variable F : lifePred.
Hypothesis F_mono : forall m q i r x, F m q i r -> F m q i (r ++ [x]).

#[local] Abbreviation inv := (chan_inv F).

Lemma keeps_get' : keeps inv get.
Proof. by intros s Hs. Qed.
#[local] Hint Resolve keeps_get' : keeps.

Lemma keeps_connRemove id : keeps inv (chanListRemove id).
Proof. intros [c l r] (Hs & Hr & Hw & Hl). split_and!; try done. by apply F_mono. Qed.
#[local] Hint Resolve keeps_connRemove : keeps.

Lemma keeps_idleW_AttemptOK env : keeps inv (idleW_AttemptOK env).
Proof. apply keeps_inert. inert_timer. Qed.
Lemma keeps_idleR_AttemptOK env : keeps inv (idleR_AttemptOK env).
Proof. apply keeps_inert. inert_timer. Qed.
Lemma keeps_idleW_BeginAttempt env : keeps inv (idleW_BeginAttempt env).
Proof. apply keeps_inert. inert_timer. Qed.
Lemma keeps_idleR_BeginAttempt env : keeps inv (idleR_BeginAttempt env).
Proof. apply keeps_inert. inert_timer. Qed.
#[local] Hint Resolve keeps_idleW_AttemptOK keeps_idleR_AttemptOK keeps_idleW_BeginAttempt
  keeps_idleR_BeginAttempt : keeps.

Lemma keeps_Accept env : keeps inv (Accept env).
Proof. unfold Accept. keeps_walk. Qed.

Lemma keeps_Reject env reason msg : keeps inv (Reject env reason msg).
Proof. unfold Reject. keeps_walk. Qed.

Lemma keeps_CloseWrite env : keeps inv (CloseWrite env).
Proof. unfold CloseWrite. keeps_walk. Qed.

Lemma keeps_ChannelClose env : keeps inv (ChannelClose env).
Proof. unfold ChannelClose. keeps_walk. Qed.

Lemma keeps_ackRequest env ok : keeps inv (ackRequest env ok).
Proof. unfold ackRequest. keeps_walk. Qed.

Lemma keeps_SendRequest env name wantReply payload : keeps inv (SendRequest env name wantReply payload).
Proof.
  unfold SendRequest. apply keeps_bind; [auto with keeps|]. intros c. destruct (negb _); [auto with keeps|].
  apply keeps_bind; [auto with keeps|]. intros [e|]; [auto with keeps|].
  destruct wantReply; [|auto with keeps]. apply keeps_get. intros s Hs.
  destruct (gq (ch_msg (cs_ch s))) as [|m q]; [by destruct (_ || _)|].
  destruct (_ && _); [done|]. apply wp_bind, wp_modify.
  pose proof (inv_set_msg F q s Hs) as Hs'. by destruct m.
Qed.

(** *** Writing *)

Lemma winop_step_ok o w : window_ok w -> window_ok (winop_step o w).
Proof.
  assert (Hadd : forall n w, window_ok w -> window_ok (add n w).2).
  { intros n w' Hw. unfold add. destruct (n =? 0); [done|]. destruct (_ <? n); [done|].
    unfold window_ok. simpl. apply u32_range. }
  assert (Hloop : forall n w, window_ok w -> window_ok (rstep_window (reserveLoop n w))).
  { intros n w' Hw. unfold reserveLoop. destruct (_ && _); [done|]. unfold window_ok. simpl. apply u32_range. }
  intros Hw. destruct o as [n| |n q|n q]; simpl; [by apply Hadd | done | |].
  - unfold reserveEnter. destruct (reserveShouldReturn q); [done|]. by apply Hloop.
  - unfold reserveWake. destruct (reserveShouldReturn q); [done|]. by apply Hloop.
Qed.

Lemma winops_window_ok os w : window_ok w -> window_ok (winops os w).
Proof. revert w. induction os; intros w Hw; simpl; [done|]. by apply IHos, winop_step_ok. Qed.

Lemma add_window_ok n w : window_ok w -> window_ok (add n w).2.
Proof. exact (winop_step_ok (WAdd n) w). Qed.

Lemma reserve_window_ok n q wakes w num err w' :
  window_ok w -> reserve n q wakes w = Some (num, err, w') -> window_ok w'.
Proof.
  assert (Hres : forall wakes w, window_ok w -> reserveResume n wakes w = Some (num, err, w') -> window_ok w').
  { clear. intros wakes. induction wakes as [|[os q] wakes IH]; intros w Hw H; simpl in H; [done|].
    pose proof (winop_step_ok (WWake n q) _ (winops_window_ok os w Hw)) as Hs. simpl in Hs.
    destruct (reserveWake n q (winops os w)); simplify_eq/=; eauto. }
  intros Hw H. unfold reserve in H. pose proof (winop_step_ok (WEnter n q) w Hw) as Hs. simpl in Hs.
  destruct (reserveEnter n q w); simplify_eq/=; eauto.
Qed.

Lemma keeps_writeLoop steps data code n : keeps inv (writeLoop steps data code n).
Proof.
  revert data n. induction steps as [|st steps IH]; intros [|x data] n; simpl; auto with keeps.
  apply keeps_get. intros s Hs.
  destruct (reserve _ _ _ _) as [[[space err] w]|] eqn:Er; [|done].
  apply reserve_window_ok in Er; [|apply Hs].
  eapply keeps_bind; [apply (keeps_remoteWin F (fun _ => w)); auto | | exact Hs].
  intros []. destruct err; [apply keeps_ret|].
  apply keeps_bind; [auto with keeps|]. intros [].
  apply keeps_bind; [by apply keeps_writePacket|]. intros [e|]; [apply keeps_ret|].
  apply keeps_bind; [auto with keeps|]. intros []. apply IH.
Qed.
#[local] Hint Resolve keeps_writeLoop : keeps.

Lemma keeps_WriteExtended env steps data code : keeps inv (WriteExtended env steps data code).
Proof. unfold WriteExtended. keeps_walk. Qed.
#[local] Hint Resolve keeps_WriteExtended : keeps.

Lemma keeps_ChannelWrite env steps data : keeps inv (ChannelWrite env steps data).
Proof. unfold ChannelWrite. keeps_walk. Qed.

(** *** Reading and the reader goroutine *)

Lemma keeps_eof_pending : keeps inv (modify (fun c => set_pending (eof (ch_pending c)) c)).
Proof.
  apply keeps_modify. intros c l r (Hs & (a & e & Ha & He & Hw) & Hr & Hl). split_and!; [done| |done..].
  exists (absEof a), e. split_and!; try done; try apply Hw. by apply eof_refines.
Qed.

Lemma keeps_eof_extPending : keeps inv (modify (fun c => set_extPending (eof (ch_extPending c)) c)).
Proof.
  apply keeps_modify. intros c l r (Hs & (a & e & Ha & He & Hw) & Hr & Hl). split_and!; [done| |done..].
  exists a, (absEof e). split_and!; try done; try apply Hw. by apply eof_refines.
Qed.
#[local] Hint Resolve keeps_eof_pending keeps_eof_extPending : keeps.

Lemma chan_inv_ch s c :
  sent_ok s -> ch_sentClose c = ch_sentClose (cs_ch s) -> recv_ok c -> waits_ok c ->
  life F (mkCstate c (cs_sent s) (cs_removed s)) ->
  inv (mkCstate c (cs_sent s) (cs_removed s)).
Proof.
  intros [Hs|Hs] Hc Hr Hw Hl; split_and!; try done; [by left|right]. simpl. by rewrite Hc.
Qed.

Lemma handleData_inv packet s :
  packet <> [] -> zlen packet < 2 ^ 32 -> inv s ->
  wp (handleData packet) (fun _ => inv) inv s.
Proof.
  intros Hne Hlen Hs. unfold handleData. destruct packet as [|p0 packet]; [done|].
  set (ext := b2z p0 =? msgChannelExtendedData). set (hl := if ext then 13 else 9).
  destruct (zlen (p0 :: packet) <? hl) eqn:E1; [done|].
  set (len := be_decode _). destruct (len =? 0) eqn:E2; [done|].
  apply wp_bind, wp_get. destruct (ch_maxIncomingPayload (cs_ch s) <? len); [done|].
  set (data := zdrop hl (p0 :: packet)).
  destruct (negb (len =? u32 (zlen data))) eqn:E3; [done|].
  destruct (ch_myWindow (cs_ch s) <? len) eqn:E4; [done|]. b2p.
  assert (Hhl : 9 <= hl) by (unfold hl; destruct ext; lia).
  assert (Hd : len = zlen data).
  { rewrite E3. apply u32_small. unfold data. rewrite zlen_zdrop by lia. lia. }
  destruct Hs as (Hs & (a & e & Ha & He & Hw0 & Hw) & Hr & Hl).
  assert (Hu : u32 (ch_myWindow (cs_ch s) - len) = ch_myWindow (cs_ch s) - len).
  { apply u32_small. pose proof (zlen_nonneg data). pose proof (zlen_nonneg (adata a)).
    pose proof (zlen_nonneg (adata e)). unfold channelWindowSize, channelMaxPacket in Hw.
    change (Z.shiftl 1 15) with 32768 in Hw. lia. }
  pose proof (zlen_nonneg data).
  apply wp_bind, wp_modify. rewrite Hu. destruct (_ =? 1).
  - destruct (write_refines data _ _ He) as (b' & -> & Hb'). apply wp_bind, wp_ret, wp_bind, wp_modify, wp_ret.
    apply chan_inv_ch; try done. exists a, (absWrite data e). simpl. rewrite zlen_app. split_and!; done || lia.
  - destruct (0 <? _).
    + apply wp_ret, chan_inv_ch; try done. exists a, e. simpl. split_and!; done || lia.
    + destruct (write_refines data _ _ Ha) as (b' & -> & Hb'). apply wp_bind, wp_ret, wp_bind, wp_modify, wp_ret.
      apply chan_inv_ch; try done. exists (absWrite data a), e. simpl. rewrite zlen_app. split_and!; done || lia.
Qed.

(** The state between taking [k] bytes out of a buffer and giving them back to
    the window. *)
Definition recv_owes (k : Z) (c : channel) : Prop :=
  exists a e, buffer_repr (ch_pending c) a /\ buffer_repr (ch_extPending c) e /\
    0 <= ch_myWindow c /\ ch_myWindow c + k + zlen (adata a) + zlen (adata e) <= channelWindowSize.

Definition inv_owes (k : Z) (s : cstate) : Prop :=
  sent_ok s /\ recv_owes k (cs_ch s) /\ waits_ok (cs_ch s) /\ life F s.

Lemma inv_owes_0 s : inv_owes 0 s <-> inv s.
Proof.
  unfold inv_owes, inv, recv_owes, recv_ok. split; intros (? & (a & e & ?) & ?);
    (split_and!; [done | exists a, e; rewrite ?Z.add_0_r in *; done | by destruct_and?..]).
Qed.

Lemma inv_owes_inert k f s :
  inert f -> inv_owes k s -> inv_owes k (mkCstate (f (cs_ch s)) (cs_sent s) (cs_removed s)).
Proof.
  intros Hf (Hs & (a & e & Ha & He & Hw) & Hr & Hl).
  destruct (Hf (cs_ch s)) as (E1 & E2 & E3 & E4 & E5 & E6 & E7 & E8 & E9).
  split_and!; [|exists a, e; simpl; by rewrite E2, E3, E4|simpl; by apply E9|].
  2: { unfold life in *; simpl in *. by rewrite E6, E7, E8. }
  destruct Hs as [Hs|Hs]; [by left|right]. simpl. by rewrite E1.
Qed.

(** [bufferRead] on the main buffer. *)
Lemma bufferRead_pending env want s :
  inv s ->
  wp (bufferRead env want (ch_pending (cs_ch s)) set_pending)
    (fun r => inv_owes (zlen r.1)) inv s.
Proof.
  intros Hs. unfold bufferRead. apply wp_bind, wp_modify.
  apply (inv_inert' F (fun c => set_idleR (BeginAttempt (env_now env) (ch_idleR c)) c)) in Hs;
    [|inert_timer].
  destruct Hs as (Hs & (a & e & Ha & He & Hw0 & Hw) & Hr & Hl). simpl in *.
  destruct (readPass_refines want (env_answer env) _ _ Ha) as (r & -> & Hrr).
  pose proof (absRead_split want (env_answer env) a) as Hsp.
  destruct r as [data err b1|b1|], (absRead want (env_answer env) a) as [data' err' a1|a1]; simpl in Hrr; try done.
  - destruct Hrr as (-> & -> & Hr1). destruct Hsp as (Hd & _ & _). rewrite Hd, zlen_app in Hw.
    apply wp_bind, wp_modify.
    set (s1 := mkCstate _ _ _).
    assert (Hs1 : inv_owes (zlen data') s1).
    { split_and!; [|exists a1, e; simpl; split_and!; done || lia | done..].
      destruct Hs as [Hs|Hs]; [by left | by right]. }
    destruct err'; [exact Hs1|]. apply wp_bind, wp_modify, wp_ret.
    apply (inv_owes_inert _ (fun c => set_idleR (AttemptOK (env_now env) (ch_idleR c)) c)); [inert_timer | done].
  - subst a1. apply wp_bind, wp_modify, wp_block. split_and!; simpl; [|exists a, e; split_and!; done|done..].
    destruct Hs as [Hs|Hs]; [by left | by right].
Qed.

(** [bufferRead] on the buffer of extended data. *)
Lemma bufferRead_extPending env want s :
  inv s ->
  wp (bufferRead env want (ch_extPending (cs_ch s)) set_extPending)
    (fun r => inv_owes (zlen r.1)) inv s.
Proof.
  intros Hs. unfold bufferRead. apply wp_bind, wp_modify.
  apply (inv_inert' F (fun c => set_idleR (BeginAttempt (env_now env) (ch_idleR c)) c)) in Hs;
    [|inert_timer].
  destruct Hs as (Hs & (a & e & Ha & He & Hw0 & Hw) & Hr & Hl). simpl in *.
  destruct (readPass_refines want (env_answer env) _ _ He) as (r & -> & Hrr).
  pose proof (absRead_split want (env_answer env) e) as Hsp.
  destruct r as [data err b1|b1|], (absRead want (env_answer env) e) as [data' err' e1|e1]; simpl in Hrr; try done.
  - destruct Hrr as (-> & -> & Hr1). destruct Hsp as (Hd & _ & _). rewrite Hd, zlen_app in Hw.
    apply wp_bind, wp_modify.
    set (s1 := mkCstate _ _ _).
    assert (Hs1 : inv_owes (zlen data') s1).
    { split_and!; [|exists a, e1; simpl; split_and!; done || lia | done..].
      destruct Hs as [Hs|Hs]; [by left | by right]. }
    destruct err'; [exact Hs1|]. apply wp_bind, wp_modify, wp_ret.
    apply (inv_owes_inert _ (fun c => set_idleR (AttemptOK (env_now env) (ch_idleR c)) c)); [inert_timer | done].
  - subst e1. apply wp_bind, wp_modify, wp_block. split_and!; simpl; [|exists a, e; split_and!; done|done..].
    destruct Hs as [Hs|Hs]; [by left | by right].
Qed.

(** Giving the bytes back never overflows the window: the comment in
    [adjustWindow] is right. *)
Lemma adjustWindow_inv env k s :
  0 <= k -> inv_owes k s -> wp (adjustWindow env k) (fun _ => inv) inv s.
Proof.
  intros Hk (Hs & (a & e & Ha & He & Hw0 & Hw) & Hr & Hl). unfold adjustWindow. apply wp_bind, wp_modify.
  pose proof (zlen_nonneg (adata a)). pose proof (zlen_nonneg (adata e)).
  unfold channelWindowSize, channelMaxPacket in Hw. change (64 * Z.shiftl 1 15) with 2097152 in Hw.
  rewrite !u32_small by (rewrite ?u32_small by lia; lia).
  assert (Hkeep : keeps inv (sendMessage env (mk_windowAdjustMsg 0 k))) by keeps_send.
  apply Hkeep. apply chan_inv_ch; try done. exists a, e. simpl.
  unfold channelWindowSize, channelMaxPacket. change (64 * Z.shiftl 1 15) with 2097152.
  split_and!; done || lia.
Qed.

Lemma ReadExtended_inv env want ext s :
  inv s -> wp (ReadExtended env want ext) (fun _ => inv) inv s.
Proof.
  intros Hs. unfold ReadExtended. apply wp_bind, wp_modify.
  apply (inv_inert' F (fun c => set_idleR (BeginAttempt (env_now env) (ch_idleR c)) c)) in Hs;
    [|inert_timer].
  set (s1 := mkCstate _ _ _) in *. apply wp_bind, wp_get. destruct (negb _); [exact Hs|].
  apply wp_bind. eapply wp_mono with (Q := fun r => inv_owes (zlen r.1)) (B := inv); [| |done].
  { destruct (ext =? 1); [by apply bufferRead_extPending | by apply bufferRead_pending]. }
  intros [data err] s2 Hs2. simpl in Hs2. apply wp_bind.
  apply wp_mono with (Q := fun _ => inv_owes (zlen data)) (B := inv); [| |done].
  { destruct err; [exact Hs2|]. apply wp_modify.
    apply (inv_owes_inert _ (fun c => set_idleR (AttemptOK (env_now env) (ch_idleR c)) c)); [inert_timer | done]. }
  intros [] s3 Hs3. destruct (0 <? zlen data) eqn:E; b2p.
  - apply wp_bind.
    assert (Hu : u32 (zlen data) = zlen data).
    { apply u32_small. destruct Hs3 as (_ & (a & e & _ & _ & ? & Hw) & _).
      pose proof (zlen_nonneg (adata a)). pose proof (zlen_nonneg (adata e)).
      unfold channelWindowSize, channelMaxPacket in Hw. change (64 * Z.shiftl 1 15) with 2097152 in Hw. lia. }
    rewrite Hu. eapply wp_mono; [by apply adjustWindow_inv; [lia|] | done | done].
  - apply wp_ret, inv_owes_0. replace 0 with (zlen data); [done|]. pose proof (zlen_nonneg data). lia.
Qed.

End Ops.

(** ** The reader goroutine *)

Lemma chan_inv_weaken (F G : lifePred) s :
  (forall m q i r, F m q i r -> G m q i r) -> chan_inv F s -> chan_inv G s.
Proof. intros HFG (Hs & Hr & Hw & Hl). split_and!; try done. by apply HFG. Qed.

Section Life.

Variable id : Z.

Lemma is_open_mono m q i r (x : Z) : is_open id m q i r -> is_open id m q i (r ++ [x]).
Proof. done. Qed.

Lemma live_mono m q i r (x : Z) : live id m q i r -> live id m q i (r ++ [x]).
Proof. unfold live. set_solver. Qed.

(** The channel has left the channel list. *)
Definition gone (id : Z) : lifePred := fun _ _ i r => i = id /\ id ∈ r.

Lemma gone_mono m q i r (x : Z) : gone id m q i r -> gone id m q i (r ++ [x]).
Proof. unfold gone. set_solver. Qed.

(** [close] does not close a Go channel twice when both are open; [G] is
    knowledge of the channel's life that does not say whether they are. *)
Lemma closeChannel_inv (G : lifePred) s :
  (forall m q m' q' i r, G m q i r -> G m' q' i r) ->
  chan_inv (fun m q i r => is_open id m q i r /\ G m q i r) s ->
  wp closeChannel (fun _ => chan_inv G) (chan_inv G) s.
Proof.
  set (OG := fun m q i r => is_open id m q i r /\ G m q i r). intros HG Hs. unfold closeChannel.
  apply wp_bind. eapply wp_mono; [by apply (keeps_eof_pending OG) | | by intros ? ?; eapply chan_inv_weaken; [|done]; intros ???? [_ ?]].
  clear s Hs. intros ? s Hs.
  apply wp_bind. eapply wp_mono; [by apply (keeps_eof_extPending OG) | | by intros ? ?; eapply chan_inv_weaken; [|done]; intros ???? [_ ?]].
  clear s Hs. intros ? s (Hs & Hr & Hw & [[[Hm Hq] _] Hg]). apply wp_bind, wp_get.
  unfold closeGochan. rewrite Hm, Hq. apply wp_bind, wp_modify, wp_bind, wp_modify.
  assert (Hk : keeps (chan_inv G)
    (modify (set_sentClose true) ;;;
     modify (fun c => set_remoteWin (Window.close (ch_remoteWin c)) c) ;;;
     modify (set_stopRequested true) ;;;
     modify (set_done true) ;;;
     modify (fun c => set_idleR (Stop (ch_idleR c)) c) ;;;
     modify (fun c => set_idleW (Stop (ch_idleW c)) c))).
  { repeat (apply keeps_bind; [|intros _]); try (apply keeps_inert; by auto with keeps).
    - apply keeps_set_sentClose.
    - by apply (keeps_remoteWin G (fun c => Window.close (ch_remoteWin c))). }
  apply Hk. split_and!; try done. by eapply HG.
Qed.

Lemma keeps_selectSend_msg env (m : message) :
  keeps (chan_inv (is_open id)) (deliverMsg env m).
Proof.
  apply keeps_get. intros s Hs. apply wp_bind. unfold selectSend. apply wp_bind, wp_get.
  pose proof Hs as (_ & _ & _ & [[Hm _] _]). rewrite Hm. destruct (_ && _).
  - apply wp_bind, wp_modify, wp_ret, wp_ret.
    pose proof (inv_set_msg (is_open id) (gq (ch_msg (cs_ch s)) ++ [m]) s Hs) as H. by rewrite Hm in H.
  - by destruct (_ || _).
Qed.

Lemma keeps_responseMessageReceived F : keeps (chan_inv F) responseMessageReceived.
Proof.
  apply keeps_get. intros s Hs. destruct (ch_direction _); [done|]. destruct (ch_decided _); [done|].
  apply wp_bind, wp_modify, wp_ret. apply (inv_inert' F (set_decided true)); [by intros []|done].
Qed.

(** What [handlePacket] leaves behind: the channel is open, or it has left the
    channel list. *)
Definition handled (s : cstate) : Prop := chan_inv (is_open id) s \/ chan_inv (gone id) s.

Lemma handled_open {A} (m : ST A) s :
  keeps (chan_inv (is_open id)) m -> chan_inv (is_open id) s -> wp m (fun _ => handled) handled s.
Proof. intros Hk Hs. eapply wp_mono; [by apply Hk | by left | by left]. Qed.

#[local] Hint Resolve keeps_selectSend_msg keeps_responseMessageReceived keeps_get' : keeps.
#[local] Hint Resolve keeps_inert keeps_eof_pending keeps_eof_extPending keeps_idleR_AttemptOK : keeps.

Lemma keeps_chanListRemove_open x : keeps (chan_inv (is_open id)) (chanListRemove x).
Proof. apply keeps_connRemove. apply is_open_mono. Qed.
#[local] Hint Resolve keeps_chanListRemove_open : keeps.

Lemma keeps_add_remoteWin F n :
  keeps (chan_inv F) (modify (fun c => set_remoteWin (add n (ch_remoteWin c)).2 c)).
Proof. apply (keeps_remoteWin F (fun c => (add n (ch_remoteWin c)).2)). intros c. apply add_window_ok. Qed.
#[local] Hint Resolve keeps_add_remoteWin : keeps.

Lemma keeps_handleDecoded env m : keeps (chan_inv (is_open id)) (handleDecoded env m).
Proof.
  destruct m; simpl handleDecoded; auto with keeps.
  - apply keeps_bind; [auto with keeps|]. intros [e|]; [auto with keeps|].
    destruct (_ || _); [auto with keeps|].
    do 3 (apply keeps_bind; [auto with keeps|intros []]). auto with keeps.
  - apply keeps_bind; [auto with keeps|]. intros [e|]; [auto with keeps|].
    apply keeps_bind; auto with keeps.
  - apply keeps_get. intros s Hs.
    pose proof (add_window_ok (windowAdjustMsg_AdditionalBytes m) (ch_remoteWin (cs_ch s))) as Hok.
    destruct (add _ _) as [ok w]. destruct Hs as (Hs & Hr & [Hw Ht] & Hl).
    apply wp_bind, wp_modify, wp_ret. split_and!; auto. split; [by apply Hok | done].
  - apply keeps_get. intros s Hs. apply wp_bind. unfold selectSend. apply wp_bind, wp_get.
    pose proof Hs as (_ & _ & _ & [[_ Hq] _]). rewrite Hq. destruct (_ && _); [|by destruct (_ || _)].
    apply wp_bind, wp_modify, wp_ret, wp_ret.
    pose proof (inv_set_incomingRequests (is_open id) (gq (ch_incomingRequests (cs_ch s)) ++
      [mkRequest (channelRequestMsg_Request m) (channelRequestMsg_WantReply m)
                 (channelRequestMsg_RequestSpecificData m) true]) s Hs) as H. by rewrite Hq in H.
Qed.

Lemma decode_panics_only_empty p0 p w : decode (p0 :: p) <> Panic w.
Proof.
  intros H. pose proof (Messages.decode_not_panic p0 p) as Hn. by rewrite H in Hn.
Qed.

Lemma handlePacket_close env s :
  chan_inv (is_open id) s ->
  wp (let! c := get in
      sendMessage env (mk_channelCloseMsg (ch_remoteId c)) ;;;
      chanListRemove (ch_localId c) ;;; closeChannel ;;; ret (@None error)) (fun _ => handled) handled s.
Proof.
  intros Hs. apply wp_bind, wp_get, wp_bind. 
  assert (Hk : keeps (chan_inv (is_open id)) (sendMessage env (mk_channelCloseMsg (ch_remoteId (cs_ch s))))) by keeps_send.
  assert (Hid : ch_localId (cs_ch s) = id) by apply Hs. rewrite Hid.
  eapply wp_mono; [by apply Hk | | by left].
  clear Hk Hs. intros ? s2 (H1 & H2 & H3 & [H4 H5]). apply wp_bind. hnf. apply wp_bind.
  eapply wp_mono; [apply (closeChannel_inv (gone id)); [done|] | by right | by right].
  split_and!; [exact H1 | exact H2 | exact H3 |]. split; [by split|].
  split; [exact H5|]. simpl. set_solver.
Qed.

(** [handlePacket] on an open channel: no panic, and afterwards the channel is
    open or off the list. *)
Lemma handlePacket_handled env packet s :
  packet <> [] -> zlen packet < 2 ^ 32 -> chan_inv (is_open id) s ->
  wp (handlePacket env packet) (fun _ => handled) handled s.
Proof.
  intros Hne Hlen Hs. unfold handlePacket. apply wp_bind.
  eapply wp_mono; [by apply (keeps_idleR_AttemptOK (is_open id)) | | by left]. clear Hs. intros ? s1 Hs.
  destruct packet as [|p0 packet]; [done|]. destruct (_ || _).
  { eapply wp_mono; [by apply (handleData_inv (is_open id)) | by left | by left]. }
  destruct (_ =? msgChannelClose).
  { by apply handlePacket_close. }
  destruct (_ =? msgChannelEOF).
  { apply handled_open; [|done]. repeat (apply keeps_bind; [auto with keeps|intros []]). auto with keeps. }
  destruct (decode _) as [m|e|w] eqn:E; [by apply handled_open, Hs; apply keeps_handleDecoded | by left |].
  by apply decode_panics_only_empty in E.
Qed.

End Life.

(** ** Everything that can happen to a channel *)

(** The user's receive from the Go channel of incoming requests. *)
Definition recvRequest : ST unit :=
  let! c := get in
  match gq (ch_incomingRequests c) with
  | _ :: q => modify (set_incomingRequests (mkGochan q (gclosed (ch_incomingRequests c))))
  | [] => if gclosed (ch_incomingRequests c) then ret tt else block
  end.

(** The calls of its user, the ticks of its timers, the packets the mux dispatches
    to it, and the end of the mux's loop, which empties the channel list and closes
    its channels. *)
Inductive chanOp :=
| OAccept (env : Env)
| OReject (env : Env) (reason : Z) (message : bytes)
| ORead (env : Env) (want : nat)
| OReadExtended (env : Env) (want : nat) (code : Z)
| OWrite (env : Env) (steps : list wstep) (data : bytes)
| OWriteExtended (env : Env) (steps : list wstep) (data : bytes) (code : Z)
| OCloseWrite (env : Env)
| OClose (env : Env)
| OSendRequest (env : Env) (name : bytes) (wantReply : bool) (payload : bytes)
| OAckRequest (env : Env) (ok : bool)
| ORecvRequest
| OSetReadIdleTimeout (dur : Z)
| OSetWriteIdleTimeout (dur : Z)
| OSetIdleTimeout (dur : Z)
| OSetReadDeadline (now : Z) (tm : option Z)
| OSetWriteDeadline (now : Z) (tm : option Z)
| OSetDeadline (now now' : Z) (tm : option Z)
| OHeartbeat (reads : bool) (mnow : Z)
| OPacket (env : Env) (packet : bytes)
| ODrop.

Definition runOp (o : chanOp) : ST unit :=
  match o with
  | OAccept env => Accept env ;;; ret tt
  | OReject env reason message => Reject env reason message ;;; ret tt
  | ORead env want => ChannelRead env want ;;; ret tt
  | OReadExtended env want code => ReadExtended env want code ;;; ret tt
  | OWrite env steps data => ChannelWrite env steps data ;;; ret tt
  | OWriteExtended env steps data code => WriteExtended env steps data code ;;; ret tt
  | OCloseWrite env => CloseWrite env ;;; ret tt
  | OClose env => ChannelClose env ;;; ret tt
  | OSendRequest env name wantReply payload => SendRequest env name wantReply payload ;;; ret tt
  | OAckRequest env ok => ackRequest env ok ;;; ret tt
  | ORecvRequest => recvRequest
  | OSetReadIdleTimeout dur => SetReadIdleTimeout dur ;;; ret tt
  | OSetWriteIdleTimeout dur => SetWriteIdleTimeout dur ;;; ret tt
  | OSetIdleTimeout dur => Timers.SetIdleTimeout dur ;;; ret tt
  | OSetReadDeadline now tm => SetReadDeadline now tm ;;; ret tt
  | OSetWriteDeadline now tm => SetWriteDeadline now tm ;;; ret tt
  | OSetDeadline now now' tm => SetDeadline now now' tm ;;; ret tt
  | OHeartbeat reads mnow => onTimer reads (heartbeat mnow)
  | OPacket env packet => handlePacket env packet ;;; ret tt
  | ODrop => let! c := get in chanListRemove (ch_localId c) ;;; closeChannel
  end.

(** The user sets no timeout below ten nanoseconds and no deadline closer than
    that: a ticker with a tenth of it as its period would panic. *)
Definition tickableOp (o : chanOp) : bool :=
  match o with
  | OSetReadIdleTimeout dur | OSetWriteIdleTimeout dur | OSetIdleTimeout dur => tickable dur
  | OSetReadDeadline now tm | OSetWriteDeadline now tm => deadlineTickable now tm
  | OSetDeadline now now' tm => deadlineTickable now tm && deadlineTickable now' tm
  | _ => true
  end.

(** The mux only touches channels that are on its list, and the packets it
    dispatches are not empty; the transport bounds their length. *)
Definition enabled (o : chanOp) (s : cstate) : Prop :=
  tickableOp o = true /\
  match o with
  | OPacket _ packet => (ch_localId (cs_ch s) ∉ cs_removed s) /\ packet <> [] /\ zlen packet < 2 ^ 32
  | ODrop => ch_localId (cs_ch s) ∉ cs_removed s
  | _ => True
  end.

Inductive creachable (c0 : channel) : cstate -> Prop :=
| creach_init : creachable c0 (mkCstate c0 [] [])
| creach_step o s s' :
    creachable c0 s -> enabled o s -> (runOp o s = Done tt s' \/ runOp o s = Blocked s') ->
    creachable c0 s'.

Lemma newChannel_inv t d x i : chan_inv (live i) (mkCstate (newChannel t d x i) [] []).
Proof.
  split_and!.
  - left. constructor.
  - exists (mkAbs [] false), (mkAbs [] false). split_and!; try apply newBuffer_repr; decide_vm.
  - split; decide_vm.
  - by split.
Qed.

Lemma live_open id s : chan_inv (live id) s -> ch_localId (cs_ch s) ∉ cs_removed s -> chan_inv (is_open id) s.
Proof. intros (? & ? & ? & [E Hl0]) Hi. split_and!; try done. split; [|done]. apply Hl0. by rewrite <- E. Qed.

Lemma handled_live id s : handled id s -> chan_inv (live id) s.
Proof. intros [H|H]; (eapply chan_inv_weaken; [|exact H]); [by intros m q i r [? ?] | by intros m q i r [? ?]].
Qed.

Lemma wp_ignore {A} (m : ST A) I s : wp m (fun _ => I) I s -> wp (m ;;; ret tt) (fun _ => I) I s.
Proof. intros. by apply wp_bind. Qed.

Lemma keeps_recvRequest F : keeps (chan_inv F) recvRequest.
Proof.
  apply keeps_get. intros s Hs. destruct (gq _) as [|x q]; [by destruct (gclosed _)|].
  apply wp_modify. by apply inv_set_incomingRequests.
Qed.

Lemma keeps_onTimer F reads m :
  (forall t, timer_ok t -> exists t', m t = Ret t' /\ timer_ok t') -> keeps (chan_inv F) (onTimer reads m).
Proof.
  intros Hm. apply keeps_get. intros s Hs. pose proof Hs as (_ & _ & (_ & HR & HW) & _). apply wp_bind.
  destruct (Hm (timerOf reads (cs_ch s))) as (t & E & Ht); [by destruct reads|]. unfold liftO. rewrite E. cbn.
  destruct Hs as (Hs & Hr & (Hw & _) & Hl). by destruct reads; split_and!.
Qed.

Lemma keeps_SetTimeout F reads dur : tickable dur = true -> keeps (chan_inv F) (onTimer reads (Idle.SetIdleTimeout dur)).
Proof. intros Hd. apply keeps_onTimer. intros t. by apply SetIdleTimeout_ok. Qed.

Lemma keeps_setDeadline F now tm reads : deadlineTickable now tm = true -> keeps (chan_inv F) (setDeadline now tm reads).
Proof.
  intros Hd. apply keeps_bind; [|by intros _ s]. apply keeps_onTimer. intros t. by apply setDeadline_ok.
Qed.

(** The operations of the user, and the ticks, keep the invariant. *)
Definition isUserOp (o : chanOp) : bool :=
  match o with OPacket _ _ | ODrop => false | _ => true end.

Lemma keeps_userOp F o :
  (forall m q i r x, F m q i r -> F m q i (r ++ [x])) -> isUserOp o = true -> tickableOp o = true ->
  keeps (chan_inv F) (runOp o).
Proof.
  intros Hm Ho Ht. destruct o; simpl in *; try done; intros s Hs; try apply wp_ignore.
  - by apply keeps_Accept.
  - by apply keeps_Reject.
  - apply wp_bind, wp_get. destruct (negb _); [done|]. by apply ReadExtended_inv.
  - by apply ReadExtended_inv.
  - by apply keeps_ChannelWrite.
  - by apply keeps_WriteExtended.
  - by apply keeps_CloseWrite.
  - by apply keeps_ChannelClose.
  - by apply keeps_SendRequest.
  - by apply keeps_ackRequest.
  - by apply keeps_recvRequest.
  - apply keeps_bind; [by apply keeps_SetTimeout | by intros _ ? | done].
  - apply keeps_bind; [by apply keeps_SetTimeout | by intros _ ? | done].
  - apply keeps_bind; [by apply keeps_SetTimeout | | done]. intros _.
    apply keeps_bind; [by apply keeps_SetTimeout | by intros _ ?].
  - by apply keeps_setDeadline.
  - by apply keeps_setDeadline.
  - apply andb_true_iff in Ht as [Ht Ht']. apply keeps_bind; [by apply keeps_setDeadline | | done].
    intros _. by apply keeps_setDeadline.
  - by apply keeps_onTimer; [intros t; apply heartbeat_ok|].
Qed.

Lemma runOp_inv id o s : chan_inv (live id) s -> enabled o s -> wp (runOp o) (fun _ => chan_inv (live id)) (chan_inv (live id)) s.
Proof.
  intros Hs [Ht He]. destruct (isUserOp o) eqn:Eo; [by apply (keeps_userOp (live id) o (live_mono id) Eo Ht)|].
  clear Ht. destruct o; simpl in *; try done.
  - destruct He as (Hi & Hne & Hlen). apply wp_ignore.
    eapply wp_mono; [apply (handlePacket_handled id); [done..|]; by apply live_open | |]; intros; by apply handled_live.
  - apply wp_bind, wp_get, wp_bind. hnf.
    eapply wp_mono; [apply (closeChannel_inv id (gone id)); [done|] | intros ? ? H; apply handled_live; right; exact H
                    | intros ? H; apply handled_live; right; exact H].
    destruct (live_open id s Hs He) as (? & ? & ? & ? & ?). split_and!; try done. split; [done|].
    unfold gone. simpl. set_solver.
Qed.

Lemma creachable_inv t d x i s : creachable (newChannel t d x i) s -> chan_inv (live i) s.
Proof.
  induction 1 as [|o s s' _ IH He Hs]; [apply newChannel_inv|].
  pose proof (runOp_inv _ o s IH He) as Hw. unfold wp in Hw. by destruct Hs as [Hs|Hs]; rewrite Hs in Hw.
Qed.

(** ** The writer *)

(** Well-formed steps of a writer: the amounts the other goroutines add or
    reserve meanwhile are 32-bit numbers. *)
Definition wstep_ok (st : wstep) : Prop := Forall (fun wk => Forall winop_ok wk.1) (ws_wakes st).

Lemma min_spec a b : 0 <= b < 2 ^ 32 -> min a b = Z.min a b.
Proof. intros. unfold min. rewrite u32_small by done. destruct (a <? b) eqn:E; b2p; lia. Qed.

(** A successful [writePacket] appends its packet and leaves the fields the
    writer uses alone. *)
Lemma writePacket_sent env p s e s' :
  writePacket env p s = Done e s' ->
  cs_sent s' = cs_sent s ++ (match e with None => [p] | Some _ => [] end) /\
  ch_remoteId (cs_ch s') = ch_remoteId (cs_ch s) /\
  ch_maxRemotePayload (cs_ch s') = ch_maxRemotePayload (cs_ch s) /\
  ch_remoteWin (cs_ch s') = ch_remoteWin (cs_ch s).
Proof.
  unfold writePacket, get, bind. destruct s as [c l r]; simpl. destruct (ch_sentClose c).
  { intros H. injection H as <- <-. simpl. by rewrite app_nil_r. }
  destruct p as [|p0 p]; [done|]. unfold modify, connWrite, idleW_AttemptOK. simpl.
  destruct (env_connErr env); intros H; injection H as <- <-; simpl; by rewrite ?app_nil_r.
Qed.

Definition chunk_ok (maxp : Z) (ch : bytes) : Prop := 0 < zlen ch <= maxp.

(** The data goes out in order, in chunks that fit the peer's maximum, and the
    count returned is the number of bytes sent. *)
Lemma writeLoop_sent steps data code n s r s' :
  zlen data < 2 ^ 32 -> 0 < ch_maxRemotePayload (cs_ch s) < 2 ^ 32 ->
  window_ok (ch_remoteWin (cs_ch s)) -> Forall wstep_ok steps ->
  writeLoop steps data code n s = Done r s' ->
  exists chunks rest, data = concat chunks ++ rest /\
    cs_sent s' = cs_sent s ++ map (dataPacket (ch_remoteId (cs_ch s)) code) chunks /\
    Forall (chunk_ok (ch_maxRemotePayload (cs_ch s))) chunks /\
    r.1 = n + zlen (concat chunks) /\ (r.2 = None -> rest = []).
Proof.
  revert data n s. induction steps as [|st steps IH]; intros data n s Hd Hm Hw Hok H; destruct data as [|x data]; simpl in H; try done.
  1, 2: injection H as <- <-; exists [], []; simpl; rewrite app_nil_r, Z.add_0_r; by split_and!.
  set (d := x :: data) in *. apply Forall_cons_iff in Hok as [Hst Hok].
  assert (Hd0 : 0 < zlen d). { unfold d. rewrite zlen_cons. pose proof (zlen_nonneg data). lia. }
  unfold bind at 1, get in H. rewrite min_spec in H by lia.
  destruct (reserve _ _ _ _) as [[[space err] w]|] eqn:Er; [|done].
  pose proof (reserve_window_ok _ _ _ _ _ _ _ Hw Er) as Hw'.
  set (s0 := mkCstate (set_remoteWin w (cs_ch s)) (cs_sent s) (cs_removed s)).
  unfold bind at 1, modify in H. fold s0 in H.
  destruct err as [e|]; [injection H as <- <-; exists [], d; simpl; rewrite app_nil_r, Z.add_0_r; by split_and!|].
  apply reserve_grant in Er; [|done|lia|done].
  set (todo := ztake space d) in *.
  assert (Hlen : zlen todo = space) by (apply zlen_ztake; lia).
  unfold bind at 1, idleW_AttemptOK, modify in H. unfold bind at 1 in H.
  set (s1 := mkCstate _ _ _) in H.
  destruct (writePacket _ _ s1) as [e s2|s2|] eqn:Ew; [|done|done].
  apply writePacket_sent in Ew as (E1 & E2 & E3 & E4).
  destruct e as [e|].
  { injection H as <- <-. exists [], d. simpl. rewrite app_nil_r, Z.add_0_r. split_and!; try done. by rewrite E1, !app_nil_r. }
  unfold bind at 1 in H. set (s3 := mkCstate _ _ _) in H.
  apply IH in H as (chunks & rest & Hrest & Hs & Hc & Hn & Hr); try done.
  - exists (todo :: chunks), rest. simpl. split_and!.
    + rewrite <- app_assoc, <- Hrest. symmetry. rewrite Hlen. apply ztake_zdrop.
    + rewrite Hs. unfold s3. cbn [cs_sent cs_ch]. rewrite E1, <- app_assoc.
      change (cs_sent s1) with (cs_sent s).
      do 3 f_equal. cbn [ch_remoteId set_idleW]. by rewrite E2.
    + apply Forall_cons. split; [unfold chunk_ok; lia|]. revert Hc. unfold s3. cbn. by rewrite E3.
    + rewrite Hn, zlen_app. lia.
    + done.
  - rewrite zlen_zdrop; lia.
  - unfold s3. cbn. by rewrite E3.
  - unfold s3. cbn. by rewrite E4.
Qed.

(** ** From the writer to the other end *)

(** The buffer a code writes to. *)
Definition recvBuffer (code : Z) (c : channel) : buffer :=
  if code =? 1 then ch_extPending c else ch_pending c.

(** The reader goroutine on a sequence of data packets. *)
Fixpoint handleAll (packets : list bytes) : ST (option error) :=
  match packets with
  | [] => ret None
  | p :: ps =>
      let! err := handleData p in
      match err with
      | Some e => ret (Some e)
      | None => handleAll ps
      end
  end.

Lemma dataPacket_fields id code todo :
  code = 0 \/ code = 1 -> zlen todo < 2 ^ 32 ->
  let p := dataPacket id code todo in
  let hl := if 0 <? code then 13 else 9 in
  zlen p = hl + zlen todo /\ zdrop hl p = todo /\
  be_decode (ztake 4 (zdrop (hl - 4) p)) = zlen todo /\
  (code = 1 -> be_decode (ztake 4 (zdrop 5 p)) = 1).
Proof.
  intros Hc Hl p hl. pose proof (zlen_nonneg todo).
  set (h := z2b (if 0 <? code then msgChannelExtendedData else msgChannelData) :: be_encode 4 id ++
              (if 0 <? code then be_encode 4 code else [])).
  assert (Ep : p = h ++ be_encode 4 (zlen todo) ++ todo).
  { unfold p, dataPacket, h. rewrite u32_small by lia. by rewrite <- app_comm_cons, <- app_assoc. }
  assert (Hh : zlen h = hl - 4).
  { unfold h, hl. rewrite zlen_cons, zlen_app, zlen_be_encode.
    destruct (0 <? code); rewrite ?zlen_be_encode, ?zlen_nil; lia. }
  split_and!.
  - rewrite Ep, !zlen_app, Hh, zlen_be_encode. lia.
  - rewrite Ep, app_assoc. apply zdrop_app. rewrite zlen_app, Hh, zlen_be_encode. lia.
  - rewrite Ep, <- Hh, zdrop_app_zlen. rewrite ztake_app by (by rewrite zlen_be_encode).
    apply be_decode_encode_small. simpl. lia.
  - intros ->. unfold p, dataPacket. change (0 <? 1) with true. cbv iota.
    rewrite app_comm_cons. rewrite zdrop_app by (by rewrite zlen_cons, zlen_be_encode).
    rewrite ztake_app by (by rewrite zlen_be_encode). by apply be_decode_encode_small.
Qed.

Lemma handleData_chunk id code todo s a :
  code = 0 \/ code = 1 -> 0 < zlen todo <= ch_maxIncomingPayload (cs_ch s) ->
  zlen todo <= ch_myWindow (cs_ch s) < 2 ^ 32 -> buffer_repr (recvBuffer code (cs_ch s)) a ->
  exists s', handleData (dataPacket id code todo) s = Done None s' /\
    buffer_repr (recvBuffer code (cs_ch s')) (absWrite todo a) /\
    ch_myWindow (cs_ch s') = ch_myWindow (cs_ch s) - zlen todo /\
    ch_maxIncomingPayload (cs_ch s') = ch_maxIncomingPayload (cs_ch s).
Proof.
  intros Hc Hl Hw Ha. destruct (dataPacket_fields id code todo Hc ltac:(lia)) as (E1 & E2 & E3 & E4).
  set (p := dataPacket id code todo) in *. set (hl := if 0 <? code then 13 else 9) in *.
  assert (Ep : exists p', p = z2b (if 0 <? code then msgChannelExtendedData else msgChannelData) :: p').
  { unfold p, dataPacket. eauto. }
  destruct Ep as [p' Ep]. clearbody p. subst p. unfold handleData. cbv beta iota.
  assert (Et : (b2z (z2b (if 0 <? code then msgChannelExtendedData else msgChannelData)) =?
               msgChannelExtendedData) = (0 <? code)) by (destruct Hc as [-> | ->]; reflexivity).
  rewrite Et. fold hl. rewrite E1, (proj2 (Z.ltb_ge _ _)) by lia. rewrite E3.
  rewrite (proj2 (Z.eqb_neq _ _)) by lia. unfold bind at 1, get.
  rewrite (proj2 (Z.ltb_ge _ _)) by lia. rewrite E2, u32_small by lia. rewrite Z.eqb_refl. simpl negb. cbv iota.
  rewrite (proj2 (Z.ltb_ge _ _)) by lia. unfold bind at 1, modify.
  rewrite (u32_small (ch_myWindow (cs_ch s) - zlen todo)) by lia.
  destruct (write_refines todo _ _ Ha) as (b' & Hwr & Hb').
  destruct Hc as [-> | ->]; unfold recvBuffer in *.
  - change (0 <? 0) with false. change (0 =? 1) with false in *. cbv iota in *. rewrite Hwr. eexists. split; [reflexivity|]. by split_and!.
  - rewrite E4 by done. change (1 =? 1) with true in *. cbv iota in *. rewrite Hwr. eexists. split; [reflexivity|]. by split_and!.
Qed.

Lemma absWrite_app d1 d2 a : absWrite d2 (absWrite d1 a) = absWrite (d1 ++ d2) a.
Proof. unfold absWrite. simpl. by rewrite app_assoc. Qed.

Lemma handleAll_chunks id code maxp chunks s a :
  code = 0 \/ code = 1 -> maxp <= ch_maxIncomingPayload (cs_ch s) -> Forall (chunk_ok maxp) chunks ->
  zlen (concat chunks) <= ch_myWindow (cs_ch s) < 2 ^ 32 -> buffer_repr (recvBuffer code (cs_ch s)) a ->
  exists s', handleAll (map (dataPacket id code) chunks) s = Done None s' /\
    buffer_repr (recvBuffer code (cs_ch s')) (absWrite (concat chunks) a) /\
    ch_myWindow (cs_ch s') = ch_myWindow (cs_ch s) - zlen (concat chunks).
Proof.
  intros Hc. revert s a. induction chunks as [|ch chunks IH]; intros s a Hm Hok Hw Ha;
    cbn [handleAll map concat] in *.
  - exists s. rewrite zlen_nil, Z.sub_0_r. split_and!; try done.
    by replace (absWrite [] a) with a by (destruct a; unfold absWrite; simpl; by rewrite app_nil_r).
  - apply Forall_cons in Hok as [Hch Hok]. rewrite zlen_app in *. unfold chunk_ok in Hch.
    pose proof (zlen_nonneg (concat chunks)).
    destruct (handleData_chunk id code ch s a) as (s1 & E & Hb & Hw1 & Hm1); try done; try lia.
    unfold bind. rewrite E.
    destruct (IH s1 (absWrite ch a)) as (s2 & E2 & Hb2 & Hw2); try done; try lia.
    exists s2. rewrite E2, <- absWrite_app, Hw2, Hw1. split_and!; try done. lia.
Qed.

Lemma WriteExtended_sent env steps data code s n s' :
  zlen data < 2 ^ 32 -> 0 < ch_maxRemotePayload (cs_ch s) < 2 ^ 32 ->
  window_ok (ch_remoteWin (cs_ch s)) -> Forall wstep_ok steps ->
  forall err, WriteExtended env steps data code s = Done (n, err) s' ->
  exists chunks rest, data = concat chunks ++ rest /\
    cs_sent s' = cs_sent s ++ map (dataPacket (ch_remoteId (cs_ch s)) code) chunks /\
    Forall (chunk_ok (ch_maxRemotePayload (cs_ch s))) chunks /\
    n = zlen (concat chunks) /\ (err = None -> rest = []).
Proof.
  intros Hd Hm Hw Hok err. unfold WriteExtended, bind at 1, idleW_BeginAttempt, modify.
  set (s0 := mkCstate _ _ _). unfold bind at 1, get. intros H.
  destruct (ch_sentEOF _). { injection H as <- <- <-. exists [], data. simpl. rewrite app_nil_r. by split_and!. }
  unfold bind at 1 in H. destruct (writeLoop _ _ _ _ s0) as [[n1 e1] s1|s1|] eqn:E; [|done|done].
  apply writeLoop_sent in E as (chunks & rest & ? & Es & ? & En & Hr); try done. simpl in *.
  exists chunks, rest. rewrite Z.add_0_l in En. subst n1.
  destruct e1; injection H as <- <- <-; split_and!; done.
Qed.

(** ** Fields that sending leaves alone *)

Lemma sendMessage_frame {T} `{SSHMessage T} env (m : T) s e s' :
  sendMessage env m s = Done e s' ->
  ch_decided (cs_ch s') = ch_decided (cs_ch s) /\ ch_hasClosed (cs_ch s') = ch_hasClosed (cs_ch s).
Proof.
  unfold sendMessage, bind at 1. destruct (liftO (Marshal m) s) as [p s1|s1|] eqn:E; [|done|done].
  assert (s1 = s) as -> by (unfold liftO, ret, crash in E; destruct (Marshal m); by simplify_eq).
  unfold bind at 1, get at 1. destruct (_ <? 5); [done|].
  unfold writePacket, bind, get. destruct (ch_sentClose _); [intros E1; by injection E1 as _ <-|].
  destruct (putPeersId _ p); [done|]. unfold modify, connWrite, idleW_AttemptOK.
  destruct (env_connErr env); intros E2; by injection E2 as _ <-.
Qed.

Lemma ChannelClose_hasClosed env s e s' :
  ChannelClose env s = Done e s' -> ch_hasClosed (cs_ch s') = true.
Proof.
  unfold ChannelClose, bind at 1, get at 1. destruct (ch_hasClosed (cs_ch s)) eqn:E.
  { intros E2; by injection E2 as _ <-. }
  intros H. repeat (unfold bind at 1, modify at 1 in H). destruct (negb _).
  - by injection H as _ <-.
  - by apply sendMessage_frame in H as [_ H].
Qed.

(** ** Properties *)

(** C21: a channel does not panic.  Whatever its users call (its reads and writes,
    requests, close, timeouts and deadlines), whatever well-framed packets the peer
    sends and whenever its timers tick, in any order and with any answer of the
    timers and the connection, from a new channel no operation panics: no Go channel
    is closed twice or written after its close, no buffer is corrupt, no timer
    ticks without a duration or a callback; and the receive window together with the
    buffered bytes stays within the initial window, so that the addition in
    [adjustWindow] cannot overflow, as its comment claims.  The exception, which the
    theorem excludes ([tickableOp]), is a timeout between one and nine nanoseconds,
    or a deadline in the past or less than ten nanoseconds ahead, for which
    [time.NewTicker] panics ([Idle.past_deadline_panics]). *)
Theorem channel_safe (t : bytes) (d : channelDirection) (x : bytes) (i : Z) (s : cstate) (o : chanOp) :
  creachable (newChannel t d x i) s -> enabled o s ->
  (forall w, runOp o s <> Crash w) /\
  (exists a e, buffer_repr (ch_pending (cs_ch s)) a /\ buffer_repr (ch_extPending (cs_ch s)) e /\
     0 <= ch_myWindow (cs_ch s) /\
     ch_myWindow (cs_ch s) + zlen (adata a) + zlen (adata e) <= channelWindowSize).
Proof.
  intros Hr He. apply creachable_inv in Hr. split; [|by apply Hr].
  intros w Hc. pose proof (runOp_inv _ o s Hr He) as Hw. unfold wp in Hw. by rewrite Hc in Hw.
Qed.

(** An environment in which nothing fails. *)
Definition quietEnv : Env := mkEnv 5 (AnsTimedOut []) None false false.

Definition inboundChannel : channel := newChannel (str "session") channelInbound [] 3.

(** The channel after its user accepted it and the peer closed it. *)
Definition acceptedState : cstate :=
  match runOp (OAccept quietEnv) (mkCstate inboundChannel [] []) with
  | Done _ s => s
  | _ => mkCstate inboundChannel [] []
  end.

Lemma acceptedState_reachable : creachable inboundChannel acceptedState.
Proof.
  apply (creach_step _ (OAccept quietEnv) (mkCstate inboundChannel [] [])); [constructor | done |].
  left. reflexivity.
Qed.

Lemma channel_safe_witness :
  (forall w, runOp (OPacket quietEnv (z2b msgChannelClose :: be_encode 4 3)) acceptedState <> Crash w) /\
  (exists a e, buffer_repr (ch_pending (cs_ch acceptedState)) a /\
     buffer_repr (ch_extPending (cs_ch acceptedState)) e /\ 0 <= ch_myWindow (cs_ch acceptedState) /\
     ch_myWindow (cs_ch acceptedState) + zlen (adata a) + zlen (adata e) <= channelWindowSize).
Proof.
  apply (channel_safe (str "session") channelInbound [] 3 acceptedState
           (OPacket quietEnv (z2b msgChannelClose :: be_encode 4 3))).
  - apply acceptedState_reachable.
  - split_and!; [reflexivity | apply not_elem_of_nil | discriminate | reflexivity].
Defined.

(** nothing follows a close message: in every reachable state, if a
    close message is among the packets the channel handed to the connection,
    it is the last one, and every later send is refused with [io.EOF]. *)
Theorem close_is_last (t : bytes) (d : channelDirection) (x : bytes) (i : Z) (s : cstate)
    (l1 l2 : list bytes) (p : bytes) :
  creachable (newChannel t d x i) s -> cs_sent s = l1 ++ p :: l2 -> isClosePacket p = true ->
  l2 = [] /\ forall env q, writePacket env q s = Done (Some EOF) s.
Proof.
  intros Hr Es Hp. apply creachable_inv in Hr as ([Hs|(l & p' & El & Hl & _ & Hc)] & _).
  - rewrite Es, Forall_app, Forall_cons in Hs. destruct Hs as (_ & Hs & _). congruence.
  - split; [|intros env q; unfold writePacket, bind, get; by rewrite Hc].
    destruct l2 as [|y l2 _] using rev_ind; [done|exfalso].
    rewrite Es, app_comm_cons, app_assoc in El. apply app_inj_tail in El as [El _].
    rewrite <- El, Forall_app, Forall_cons in Hl. destruct Hl as (_ & Hl & _). congruence.
Qed.

Definition closedState : cstate :=
  match runOp (OClose quietEnv) acceptedState with Done _ s => s | _ => acceptedState end.

Lemma close_is_last_witness :
  @nil bytes = [] /\ forall env q, writePacket env q closedState = Done (Some EOF) closedState.
Proof.
  apply (close_is_last (str "session") channelInbound [] 3 closedState
           (cs_sent acceptedState) [] (z2b msgChannelClose :: be_encode 4 0)).
  - apply (creach_step _ (OClose quietEnv) acceptedState); [apply acceptedState_reachable | done |].
    left. vm_compute. reflexivity.
  - vm_compute. reflexivity.
  - reflexivity.
Defined.

(** C8: data written at one end arrives at the other.  When a write of [data]
    on the main stream (code 0) or on the stderr stream (code 1) returns, the
    count returned is the length of the prefix of [data] that was sent (all of
    it when there is no error), it was sent in order, in packets that respect
    the peer's maximum payload, and the other end, if it has the window for it,
    accepts those packets without error and appends exactly these bytes to the
    buffer of that stream, lowering its window by their number. *)
Theorem data_delivery (env : Env) (steps : list wstep) (data : bytes) (code n : Z)
    (err : option error) (s s' r : cstate) (a : absBuffer) :
  zlen data < 2 ^ 32 -> code = 0 \/ code = 1 ->
  0 < ch_maxRemotePayload (cs_ch s) < 2 ^ 32 -> window_ok (ch_remoteWin (cs_ch s)) ->
  Forall wstep_ok steps ->
  WriteExtended env steps data code s = Done (n, err) s' ->
  ch_maxRemotePayload (cs_ch s) <= ch_maxIncomingPayload (cs_ch r) ->
  zlen data <= ch_myWindow (cs_ch r) < 2 ^ 32 ->
  buffer_repr (recvBuffer code (cs_ch r)) a ->
  exists packets r', cs_sent s' = cs_sent s ++ packets /\
    0 <= n <= zlen data /\ (err = None -> n = zlen data) /\
    handleAll packets r = Done None r' /\
    buffer_repr (recvBuffer code (cs_ch r')) (absWrite (ztake n data) a) /\
    ch_myWindow (cs_ch r') = ch_myWindow (cs_ch r) - n.
Proof.
  intros Hd Hc Hm Hw Hok H Hmax Hwin Ha.
  apply WriteExtended_sent in H as (chunks & rest & Hdata & Es & Hch & Hn & Hr); try done.
  pose proof (zlen_nonneg rest). pose proof (zlen_nonneg (concat chunks)).
  assert (Hlen : zlen data = n + zlen rest) by (rewrite Hdata, zlen_app; lia).
  destruct (handleAll_chunks (ch_remoteId (cs_ch s)) code _ chunks r a Hc Hmax Hch)
    as (r' & E & Hb & Hw'); [lia | done |].
  exists (map (dataPacket (ch_remoteId (cs_ch s)) code) chunks), r'. split_and!; try done; try lia.
  - intros He. rewrite (Hr He), zlen_nil in Hlen. lia.
  - by rewrite Hdata, ztake_app.
Qed.

(** A sender whose peer granted three bytes at a time, and a receiver. *)
Definition senderState : cstate :=
  mkCstate (set_remoteWin (mkWindow 100 0 false) (set_maxRemotePayload 3 inboundChannel)) [] [].
Definition receiverState : cstate :=
  mkCstate (set_maxIncomingPayload channelMaxPacket inboundChannel) [] [].
Definition quietStep : wstep := mkWstep (AnsTimedOut []) [] quietEnv.

Definition sentState : cstate :=
  match WriteExtended quietEnv [quietStep; quietStep] (str "hello") 0 senderState with
  | Done _ s => s
  | _ => senderState
  end.

Lemma data_delivery_witness :
  exists packets r', cs_sent sentState = cs_sent senderState ++ packets /\
    handleAll packets receiverState = Done None r' /\
    buffer_repr (recvBuffer 0 (cs_ch r')) (absWrite (str "hello") (mkAbs [] false)).
Proof.
  destruct (data_delivery quietEnv [quietStep; quietStep] (str "hello") 0 5 None senderState sentState
              receiverState (mkAbs [] false)) as (packets & r' & H1 & _ & _ & H2 & H3 & _);
    [decide_vm | by left | split; decide_vm | split; decide_vm | repeat constructor
    | vm_compute; reflexivity | decide_vm | split; decide_vm | apply newBuffer_repr |].
  exists packets, r'. split_and!; assumption.
Defined.

(** an inbound channel is decided once: after the first [Accept] or
    [Reject], whatever its result, both fail with the same error and change
    nothing; and [Close] has an effect only the first time. *)
Theorem decided_once (s s1 : cstate) (env : Env) (reason : Z) (msg : bytes) (e : option error) :
  (Accept env s = Done e s1 \/ Reject env reason msg s = Done e s1) ->
  (forall env', Accept env' s1 = Done (Some errDecidedAlready) s1) /\
  (forall env' reason' msg', Reject env' reason' msg' s1 = Done (Some errDecidedAlready) s1) /\
  forall env1 env2 e1 s2, ChannelClose env1 s1 = Done e1 s2 -> ChannelClose env2 s2 = Done None s2.
Proof.
  intros H.
  assert (Hd : ch_decided (cs_ch s1) = true).
  { destruct H as [H|H]; [unfold Accept in H | unfold Reject in H];
      unfold bind at 1, get at 1 in H; destruct (ch_decided (cs_ch s)) eqn:E; try (by injection H as _ <-);
      repeat (unfold bind at 1, modify at 1, get at 1 in H); by apply sendMessage_frame in H as [H _]. }
  split_and!.
  - intros env'. unfold Accept, bind, get. by rewrite Hd.
  - intros env' reason' msg'. unfold Reject, bind, get. by rewrite Hd.
  - intros env1 env2 e1 s2 Hc. apply ChannelClose_hasClosed in Hc.
    unfold ChannelClose, bind, get. by rewrite Hc.
Qed.

Definition rejectedState : cstate :=
  match Reject quietEnv Prohibited (str "no") (mkCstate inboundChannel [] []) with
  | Done _ s => s
  | _ => mkCstate inboundChannel [] []
  end.

Lemma decided_once_witness :
  Accept quietEnv rejectedState = Done (Some errDecidedAlready) rejectedState.
Proof.
  refine (proj1 (decided_once (mkCstate inboundChannel [] []) rejectedState quietEnv Prohibited
                   (str "no") None _) quietEnv).
  right. vm_compute. reflexivity.
Defined.
