(* ===== verification/Mux.v ===== *)
(** * The connection multiplexer (mux.go)

    The channel list ([chanList]) and the mux itself: the packet loop
    ([onePacket], [handleChannelOpen], [handleGlobalPacket], [loop]), opening
    channels, global requests and their replies.

    Channels are shared between the list, the queue of incoming channels and
    their users, so they live in a heap and are named by addresses; an operation
    of Channel.v runs on the channel at an address ([onChan]) and its effects on
    the connection and on the channel list are written back to the mux.  The
    connection is the list of packets handed to it; what it reads is an
    argument of [onePacket]. *)

From S2P Require Import Prelude Wire Codec Messages Idle Window Buffer Channel.

#[local] Open Scope st_scope.

(** ** The channel list *)

Section ChanList.

Context {A : Type}.
Variable offset : Z.

(** The first free slot, or a new one at the end. *)
Fixpoint firstFree (l : list (option A)) : nat :=
  match l with
  | [] => O
  | None :: _ => O
  | Some _ :: l' => S (firstFree l')
  end.

Definition chanList_add (ch : A) (l : list (option A)) : Z * list (option A) :=
  let i := firstFree l in
  if (i <? length l)%nat then (u32 (u32 (Z.of_nat i) + offset), <[i := Some ch]> l)
  else (u32 (u32 (zlen (l ++ [Some ch]) - 1) + offset), l ++ [Some ch]).

Definition chanList_getChan (id : Z) (l : list (option A)) : option A :=
  let id := u32 (id - offset) in
  if id <? u32 (zlen l) then mjoin (l !! Z.to_nat id) else None.

Definition chanList_remove (id : Z) (l : list (option A)) : list (option A) :=
  let id := u32 (id - offset) in
  if id <? u32 (zlen l) then <[Z.to_nat id := None]> l else l.

(** The channels, and the emptied list. *)
Definition chanList_dropAll (l : list (option A)) : list A * list (option A) := (omap id l, []).

End ChanList.

(** ** State *)

Record mux := mkMux {
  mx_chans : list (option nat);
  mx_offset : Z;
  mx_heap : gmap nat channel;
  mx_next : nat;
  mx_incomingChannels : gochan nat;
  mx_globalResponses : gochan message;
  mx_incomingRequests : gochan Request;
  mx_sent : list bytes;
  mx_connClosed : bool;
  mx_err : option error
}.

Definition newMux (offset : Z) : mux :=
  mkMux [] offset ∅ 0 newGochan newGochan newGochan [] false None.

(** What happens outside a step of the mux: the environment of the channel
    operations, and whether the context is done. *)
Record Menv := mkMenv {
  me_env : Env;
  me_ctxDone : bool
}.

Definition MST (A : Type) : Type := stm mux A.

Definition mget : MST mux := fun m => Done m m.
Definition mmodify (f : mux -> mux) : MST unit := fun m => Done tt (f m).

Definition mset_chans (l : list (option nat)) (m : mux) : mux :=
  mkMux l (mx_offset m) (mx_heap m) (mx_next m) (mx_incomingChannels m) (mx_globalResponses m)
    (mx_incomingRequests m) (mx_sent m) (mx_connClosed m) (mx_err m).
Definition mset_heap (h : gmap nat channel) (m : mux) : mux :=
  mkMux (mx_chans m) (mx_offset m) h (mx_next m) (mx_incomingChannels m) (mx_globalResponses m)
    (mx_incomingRequests m) (mx_sent m) (mx_connClosed m) (mx_err m).
Definition mset_next (n : nat) (m : mux) : mux :=
  mkMux (mx_chans m) (mx_offset m) (mx_heap m) n (mx_incomingChannels m) (mx_globalResponses m)
    (mx_incomingRequests m) (mx_sent m) (mx_connClosed m) (mx_err m).
Definition mset_incomingChannels (q : gochan nat) (m : mux) : mux :=
  mkMux (mx_chans m) (mx_offset m) (mx_heap m) (mx_next m) q (mx_globalResponses m)
    (mx_incomingRequests m) (mx_sent m) (mx_connClosed m) (mx_err m).
Definition mset_globalResponses (q : gochan message) (m : mux) : mux :=
  mkMux (mx_chans m) (mx_offset m) (mx_heap m) (mx_next m) (mx_incomingChannels m) q
    (mx_incomingRequests m) (mx_sent m) (mx_connClosed m) (mx_err m).
Definition mset_incomingRequests (q : gochan Request) (m : mux) : mux :=
  mkMux (mx_chans m) (mx_offset m) (mx_heap m) (mx_next m) (mx_incomingChannels m)
    (mx_globalResponses m) q (mx_sent m) (mx_connClosed m) (mx_err m).
Definition mset_sent (l : list bytes) (m : mux) : mux :=
  mkMux (mx_chans m) (mx_offset m) (mx_heap m) (mx_next m) (mx_incomingChannels m)
    (mx_globalResponses m) (mx_incomingRequests m) l (mx_connClosed m) (mx_err m).
Definition mset_exit (e : error) (m : mux) : mux :=
  mkMux (mx_chans m) (mx_offset m) (mx_heap m) (mx_next m) (mx_incomingChannels m)
    (mx_globalResponses m) (mx_incomingRequests m) (mx_sent m) true (Some e).

(** ** Operations on one channel *)

Definition writeBack (p : nat) (s : cstate) (m : mux) : mux :=
  mset_chans (foldl (fun l id => chanList_remove (mx_offset m) id l) (mx_chans m) (cs_removed s))
    (mset_heap (<[p := cs_ch s]> (mx_heap m)) (mset_sent (mx_sent m ++ cs_sent s) m)).

Definition onChan {A} (p : nat) (op : ST A) : MST A := fun m =>
  match mx_heap m !! p with
  | None => Crash "nil pointer dereference"
  | Some c =>
      match op (mkCstate c [] []) with
      | Done a s => Done a (writeBack p s m)
      | Blocked s => Blocked (writeBack p s m)
      | Crash w => Crash w
      end
  end.

(** [newChannel]: the new channel is on the list, under its identifier. *)
Definition mux_newChannel (chanType : bytes) (direction : channelDirection) (extraData : bytes)
  : MST nat := fun m =>
  let p := mx_next m in
  let '(id, l) := chanList_add (mx_offset m) p (mx_chans m) in
  Done p (mset_chans l (mset_heap (<[p := newChannel chanType direction extraData id]> (mx_heap m))
            (mset_next (S p) m))).

(** ** Sending *)

Definition muxSendMessage {T} `{SSHMessage T} (env : Menv) (msg : T) : MST (option error) :=
  let! p := liftO (Marshal msg) in
  match env_connErr (me_env env) with
  | Some e => ret (Some e)
  | None => mmodify (fun m => mset_sent (mx_sent m ++ [p]) m) ;;; ret None
  end.

Definition muxStopped (env : Menv) : bool := env_muxStop (me_env env) || me_ctxDone env.

(** [select { case q <- x: case <-halt: case <-ctx.Done(): }]. *)
Definition muxSelectSend {A} (env : Menv) (size : Z) (q : gochan A) (put : gochan A -> mux -> mux) (x : A)
  : MST (option error) :=
  if gclosed q then crash "send on closed channel"
  else if (zlen (gq q) <? size) && negb (muxStopped env && env_pickStop (me_env env)) then
    mmodify (put (mkGochan (gq q ++ [x]) false)) ;;; ret None
  else if muxStopped env then ret (Some EOF)
  else block.

(** [SendRequest], of global requests. *)
Definition muxSendRequest (env : Menv) (name : bytes) (wantReply : bool) (payload : bytes)
  : MST (bool * bytes * option error) :=
  let! err := muxSendMessage env (mk_globalRequestMsg name wantReply payload) in
  match err with
  | Some e => ret (false, [], Some e)
  | None =>
      if negb wantReply then ret (false, [], None)
      else
        let! m := mget in
        match gq (mx_globalResponses m) with
        | msg :: q =>
            if muxStopped env && env_pickStop (me_env env) then ret (false, [], Some EOF)
            else
              mmodify (mset_globalResponses (mkGochan q (gclosed (mx_globalResponses m)))) ;;;
              match msg with
              | M_globalRequestFailureMsg r => ret (false, globalRequestFailureMsg_Data r, None)
              | M_globalRequestSuccessMsg r => ret (true, globalRequestSuccessMsg_Data r, None)
              | _ => ret (false, [], Some (errNew "ssh: unexpected response to request: %#v"))
              end
        | [] =>
            if gclosed (mx_globalResponses m) || muxStopped env then ret (false, [], Some EOF) else block
        end
  end.

Definition muxAckRequest (env : Menv) (ok : bool) (data : bytes) : MST (option error) :=
  if ok then muxSendMessage env (mk_globalRequestSuccessMsg data)
  else muxSendMessage env (mk_globalRequestFailureMsg data).

(** [Request.Reply]; [p] is the channel of a channel request. *)
Definition Reply (env : Menv) (r : Request) (p : nat) (ok : bool) (payload : bytes) : MST (option error) :=
  if negb (req_WantReply r) then ret None
  else if negb (req_onChannel r) then muxAckRequest env ok payload
  else onChan p (ackRequest (me_env env) ok).

(** ** Receiving *)

Definition handleGlobalPacket (env : Menv) (packet : bytes) : MST (option error) :=
  match decode packet with
  | Panic w => crash w
  | Fail e => ret (Some e)
  | Ret msg =>
      match msg with
      | M_globalRequestMsg r =>
          let! m := mget in
          muxSelectSend env chanSize (mx_incomingRequests m) mset_incomingRequests
            (mkRequest (globalRequestMsg_Type r) (globalRequestMsg_WantReply r)
               (globalRequestMsg_Data r) false)
      | M_globalRequestSuccessMsg _ | M_globalRequestFailureMsg _ =>
          let! m := mget in
          muxSelectSend env 1 (mx_globalResponses m) mset_globalResponses msg
      | _ => crash "not a global message"
      end
  end.

Definition handleChannelOpen (env : Menv) (packet : bytes) : MST (option error) :=
  match unmarshalMsg channelOpenMsg packet with
  | Panic w => crash w
  | Fail e => ret (Some e)
  | Ret msg =>
      let maxp := channelOpenMsg_MaxPacketSize msg in
      if (maxp <? minPacketLength) || (Z.shiftl 1 31 <? maxp) then
        muxSendMessage env
          (mk_channelOpenFailureMsg (channelOpenMsg_PeersId msg) ConnectionFailed
             (str "invalid request") (str "en_US.UTF-8"))
      else
        let! p := mux_newChannel (channelOpenMsg_ChanType msg) channelInbound
                    (channelOpenMsg_TypeSpecificData msg) in
        onChan p
          (modify (set_remoteId (channelOpenMsg_PeersId msg)) ;;;
           modify (set_maxRemotePayload maxp) ;;;
           modify (fun c => set_remoteWin (add (channelOpenMsg_PeersWindow msg) (ch_remoteWin c)).2 c)) ;;;
        let! m := mget in
        muxSelectSend env chanSize (mx_incomingChannels m) mset_incomingChannels p
  end.

(** [onePacket]; [read] is what [m.conn.readPacket] returned. *)
Definition onePacket (env : Menv) (read : error + bytes) : MST (option error) :=
  match read with
  | inl e => ret (Some e)
  | inr [] => crash "index out of range"
  | inr ((p0 :: _) as packet) =>
      let t := b2z p0 in
      if t =? msgChannelOpen then handleChannelOpen env packet
      else if (t =? msgGlobalRequest) || (t =? msgRequestSuccess) || (t =? msgRequestFailure) then
        handleGlobalPacket env packet
      else if zlen packet <? 5 then ret (Some (parseError t))
      else
        let id := be_decode (ztake 4 (zdrop 1 packet)) in
        let! m := mget in
        match chanList_getChan (mx_offset m) id (mx_chans m) with
        | None => ret (Some (Errorf "ssh: invalid channel %d" [FNum id]))
        | Some p => onChan p (handlePacket (me_env env) packet)
        end
  end.

(** [err.(net.Error)] with [Timeout()]. *)
Definition isTimeout (e : error) : bool := match e with ErrTimeout _ => true | _ => false end.

Fixpoint closeAll (ps : list nat) : MST unit :=
  match ps with
  | [] => ret tt
  | p :: ps' => onChan p closeChannel ;;; closeAll ps'
  end.

Definition closeMuxChan {A} (q : gochan A) (put : gochan A -> mux -> mux) : MST unit :=
  if gclosed q then crash "close of closed channel" else mmodify (put (mkGochan (gq q) true)).

(** What [loop] does after its last packet. *)
Definition loopExit (err : error) : MST unit :=
  let! m := mget in
  let '(chs, l) := chanList_dropAll (mx_chans m) in
  mmodify (mset_chans l) ;;;
  closeAll chs ;;;
  let! m := mget in
  closeMuxChan (mx_incomingChannels m) mset_incomingChannels ;;;
  closeMuxChan (mx_incomingRequests m) mset_incomingRequests ;;;
  closeMuxChan (mx_globalResponses m) mset_globalResponses ;;;
  mmodify (mset_exit err).

(** One round of the loop: whether it goes on.  A timeout is not the end. *)
Definition loopBody (env : Menv) (read : error + bytes) : MST bool :=
  let! err := onePacket env read in
  match err with
  | None => ret true
  | Some e => if isTimeout e then ret true else loopExit e ;;; ret false
  end.

(** The loop over what the connection delivers; it blocks when nothing comes. *)
Fixpoint loop (reads : list (Menv * (error + bytes))) : MST unit :=
  match reads with
  | [] => block
  | (env, read) :: reads' =>
      let! continue := loopBody env read in
      if continue then loop reads' else ret tt
  end.

(** [Wait]: blocks until the loop has ended. *)
Definition Wait : MST error :=
  let! m := mget in
  match mx_err m with Some e => ret e | None => block end.

(** ** Opening a channel *)

(** [Halt.RequestStop] on the channel's two timers. *)
Definition stopTimers (p : nat) : MST unit :=
  onChan p (modify (fun c => set_idleR (with_stop (ch_idleR c)) c) ;;;
            modify (fun c => set_idleW (with_stop (ch_idleW c)) c)).

(** [openChannel] up to its [select]. *)
Definition openChannelSend (env : Menv) (chanType extra : bytes) : MST (error + nat) :=
  let! p := mux_newChannel chanType channelOutbound extra in
  onChan p (modify (set_maxIncomingPayload channelMaxPacket)) ;;;
  let! ch := onChan p get in
  let! err := muxSendMessage env
    (mk_channelOpenMsg chanType (ch_localId ch) (ch_myWindow ch) (ch_maxIncomingPayload ch) extra) in
  match err with
  | Some e => stopTimers p ;;; ret (inl e)
  | None => ret (inr p)
  end.

Definition OpenChannelError (reason : Z) (message : bytes) : error :=
  Errorf "ssh: rejected: %s (%s)" [FNum reason; FStr message].

(** The [select] of [openChannel]. *)
Definition openChannelWait (env : Menv) (p : nat) : MST (error + nat) :=
  let! ch := onChan p get in
  let stop := muxStopped env in
  match gq (ch_msg ch) with
  | msg :: q =>
      if stop && env_pickStop (me_env env) then ret (inl EOF)
      else
        onChan p (modify (set_msg (mkGochan q (gclosed (ch_msg ch))))) ;;;
        match msg with
        | M_channelOpenConfirmMsg _ => ret (inr p)
        | M_channelOpenFailureMsg r =>
            stopTimers p ;;;
            ret (inl (OpenChannelError (channelOpenFailureMsg_Reason r) (channelOpenFailureMsg_Message r)))
        | _ =>
            stopTimers p ;;;
            ret (inl (errNew "ssh: unexpected packet in response to channel open: %T"))
        end
  | [] =>
      if gclosed (ch_msg ch) && negb (stop && env_pickStop (me_env env)) then
        stopTimers p ;;;
        ret (inl (errNew "ssh: unexpected packet in response to channel open: %T"))
      else if stop then ret (inl EOF)
      else block
  end.

Definition openChannel (env env' : Menv) (chanType extra : bytes) : MST (error + nat) :=
  let! r := openChannelSend env chanType extra in
  match r with
  | inl e => ret (inl e)
  | inr p => openChannelWait env' p
  end.
