(* ===== verification/MuxFacts.v ===== *)
(** * The multiplexer: invariants and the opening handshake

    The theorems on Mux.v: the laws of the channel list, the invariant of the
    mux (every listed channel is allocated, knows its own identifier and is
    open), which rules out every panic of the packet loop, the handshake that
    opens a channel between two muxes, and what the end of the loop leaves. *)

From S2P Require Import Prelude Wire Codec Messages Idle Window Buffer Channel ChannelFacts Mux.

#[local] Open Scope st_scope.

(** ** The channel list *)

Definition slotId (offset : Z) (i : nat) : Z := u32 (Z.of_nat i + offset).

Lemma slotId_inj off i j :
  Z.of_nat i < 2 ^ 32 -> Z.of_nat j < 2 ^ 32 -> slotId off i = slotId off j -> i = j.
Proof. unfold slotId, u32. intros. dlia. Qed.

Lemma slotId_slot off i : Z.of_nat i < 2 ^ 32 -> u32 (slotId off i - off) = Z.of_nat i.
Proof. unfold slotId, u32. intros. dlia. Qed.

Lemma getChan_slot {A} off (l : list (option A)) i :
  zlen l < 2 ^ 32 -> (i < length l)%nat ->
  chanList_getChan off (slotId off i) l = mjoin (l !! i).
Proof.
  intros Hl Hi. unfold chanList_getChan. unfold zlen in *. rewrite slotId_slot by lia.
  rewrite (u32_small (Z.of_nat _)) by lia. rewrite (proj2 (Z.ltb_lt _ _)) by lia. by rewrite Nat2Z.id.
Qed.

Lemma getChan_some {A} off (l : list (option A)) id ch :
  zlen l < 2 ^ 32 -> 0 <= id < 2 ^ 32 -> chanList_getChan off id l = Some ch ->
  exists i, l !! i = Some (Some ch) /\ id = slotId off i.
Proof.
  unfold chanList_getChan, slotId. intros Hl Hid H. destruct (_ <? _) eqn:E; [|done].
  exists (Z.to_nat (u32 (id - off))). split.
  - destruct (l !! _) as [[x|]|] eqn:Ex; simpl in H; by simplify_eq.
  - pose proof (u32_range (id - off)). rewrite Z2Nat.id by lia. unfold u32 in *. dlia.
Qed.

Lemma slot_of_id off id i : Z.of_nat i < 2 ^ 32 -> u32 id = slotId off i -> u32 (id - off) = Z.of_nat i.
Proof. unfold slotId, u32. intros. dlia. Qed.

Lemma remove_lookup {A} off id (l : list (option A)) i x :
  zlen l < 2 ^ 32 -> chanList_remove off id l !! i = Some (Some x) ->
  l !! i = Some (Some x) /\ u32 id <> slotId off i.
Proof.
  unfold chanList_remove. intros Hl H.
  assert (Hi : l !! i = Some (Some x) -> Z.of_nat i < zlen l).
  { intros Hx%lookup_lt_Some. unfold zlen. lia. }
  pose proof (zlen_nonneg l). rewrite (u32_small (zlen l)) in H by lia.
  destruct (u32 (id - off) <? zlen l) eqn:E; b2p.
  - apply list_lookup_insert_Some in H as [(_ & ? & _)|[Hne Hx]]; [done|]. split; [done|].
    specialize (Hi Hx). intros Heq. rewrite (slot_of_id off id i) in Hne by (done || lia). lia.
  - split; [done|]. specialize (Hi H). intros Heq. rewrite (slot_of_id off id i) in E by (done || lia). lia.
Qed.

Lemma remove_length {A} off id (l : list (option A)) : length (chanList_remove off id l) = length l.
Proof. unfold chanList_remove. destruct (_ <? _); [apply length_insert | done]. Qed.

Definition removes {A} (off : Z) (ids : list Z) (l : list (option A)) : list (option A) :=
  foldl (fun l id => chanList_remove off id l) l ids.

Lemma removes_lookup {A} off ids (l : list (option A)) i x :
  zlen l < 2 ^ 32 -> removes off ids l !! i = Some (Some x) ->
  l !! i = Some (Some x) /\ Forall (fun id => u32 id <> slotId off i) ids.
Proof.
  revert l. induction ids as [|id ids IH]; intros l Hl H; simpl in H; [done|].
  apply IH in H as [H Hf]; [|unfold zlen; by rewrite remove_length].
  apply remove_lookup in H as [? ?]; [|done]. split; [done|]. by constructor.
Qed.

Lemma removes_length {A} off ids (l : list (option A)) : length (removes off ids l) = length l.
Proof. revert l. induction ids as [|id ids IH]; intros l; simpl; [done|]. by rewrite IH, remove_length. Qed.

Lemma firstFree_spec {A} (l : list (option A)) :
  (firstFree l = length l \/ l !! firstFree l = Some None) /\
  (forall i, (i < firstFree l)%nat -> exists x, l !! i = Some (Some x)).
Proof.
  induction l as [|[a|] l [IH1 IH2]]; simpl.
  - split; [by left | lia].
  - split; [destruct IH1 as [-> | ->]; auto|]. intros [|i] Hi; [eauto | apply IH2; lia].
  - split; [by right | lia].
Qed.

(** [getChan] and [remove] in terms of the slot of an identifier. *)
Lemma getChan_lookup {A} off id (l : list (option A)) :
  zlen l < 2 ^ 32 -> chanList_getChan off id l = mjoin (l !! Z.to_nat (u32 (id - off))).
Proof.
  intros Hl. unfold chanList_getChan. pose proof (zlen_nonneg l). rewrite (u32_small (zlen l)) by lia.
  destruct (_ <? _) eqn:E; [done|]. b2p. rewrite lookup_ge_None_2; [done|]. unfold zlen in E. lia.
Qed.

Lemma remove_slot {A} off id (l : list (option A)) j :
  zlen l < 2 ^ 32 ->
  mjoin (chanList_remove off id l !! j) =
    if decide (j = Z.to_nat (u32 (id - off))) then None else mjoin (l !! j).
Proof.
  intros Hl. unfold chanList_remove. pose proof (zlen_nonneg l). rewrite (u32_small (zlen l)) by lia.
  pose proof (u32_range (id - off)). unfold zlen in *.
  destruct (_ <? _) eqn:E; b2p; destruct (decide _) as [-> | Hne].
  - rewrite list_lookup_insert_eq; [done | lia].
  - by rewrite list_lookup_insert_ne.
  - rewrite lookup_ge_None_2; [done | lia].
  - done.
Qed.

(** What [add] does: a free slot now holds the channel, and the identifier is
    the slot's. *)
Lemma add_slot {A} off (ch : A) l id l' :
  zlen l < 2 ^ 32 -> chanList_add off ch l = (id, l') ->
  exists i, id = slotId off i /\ l' !! i = Some (Some ch) /\ (l !! i = None \/ l !! i = Some None) /\
    (forall j, j <> i -> l' !! j = l !! j) /\ (length l <= length l' <= S (length l))%nat.
Proof.
  intros Hl H. unfold chanList_add in H. destruct (firstFree_spec l) as [Hf _].
  unfold zlen in Hl. destruct (_ <? _)%nat eqn:E; simplify_eq.
  - apply Nat.ltb_lt in E. destruct Hf as [Hf|Hf]; [lia|]. exists (firstFree l). split_and!.
    + unfold slotId. by rewrite (u32_small (Z.of_nat _)) by lia.
    + by apply list_lookup_insert_eq.
    + by right.
    + intros j Hj. by rewrite list_lookup_insert_ne.
    + rewrite length_insert. lia.
    + rewrite length_insert. lia.
  - exists (length l). split_and!.
    + replace (zlen (l ++ [Some ch]) - 1) with (Z.of_nat (length l))
        by (rewrite zlen_app, zlen_cons, zlen_nil; unfold zlen; lia).
      unfold slotId. by rewrite (u32_small (Z.of_nat _)) by lia.
    + by rewrite lookup_app_r, Nat.sub_diag by lia.
    + left. by apply lookup_ge_None.
    + intros j Hj. destruct (decide (j < length l)%nat) as [?|?]; [by rewrite lookup_app_l|].
      rewrite lookup_app_r by lia. rewrite (proj2 (lookup_ge_None l j)) by lia.
      apply lookup_ge_None. simpl. lia.
    + rewrite length_app. simpl. lia.
    + rewrite length_app. simpl. lia.
Qed.

(** ** The invariant *)

Definition chan_ok (c : channel) : Prop := recv_ok c /\ waits_ok c.

Definition chan_open (c : channel) : Prop :=
  gclosed (ch_msg c) = false /\ gclosed (ch_incomingRequests c) = false.

Definition listed (m : mux) (p : nat) : Prop := exists i, mx_chans m !! i = Some (Some p).

(** The mux's own Go channels are open until its loop has ended. *)
Definition queues_ok (m : mux) : Prop :=
  mx_err m = None ->
  gclosed (mx_incomingChannels m) = false /\ gclosed (mx_globalResponses m) = false /\
  gclosed (mx_incomingRequests m) = false.

Definition mux_inv (m : mux) : Prop :=
  (forall p c, mx_heap m !! p = Some c -> chan_ok c /\ (p < mx_next m)%nat) /\
  (forall i p, mx_chans m !! i = Some (Some p) ->
     exists c, mx_heap m !! p = Some c /\ ch_localId c = slotId (mx_offset m) i /\ chan_open c) /\
  zlen (mx_chans m) < 2 ^ 32 /\ queues_ok m.

(** What an operation on the channel [id] keeps: while the channel is on the
    list, it is open. *)
Definition held (on : Prop) (id : Z) : lifePred :=
  fun m q i r => i = id /\ (on -> id ∉ r -> m = false /\ q = false).

Lemma held_mono on id m q i r (x : Z) : held on id m q i r -> held on id m q i (r ++ [x]).
Proof. unfold held. set_solver. Qed.

(** Listed channels have different addresses. *)
Lemma listed_unique m i j p :
  mux_inv m -> mx_chans m !! i = Some (Some p) -> mx_chans m !! j = Some (Some p) -> i = j.
Proof.
  intros (_ & Hl & Hlen & _) Hi Hj. destruct (Hl _ _ Hi) as (c & Hc & Ei & _).
  destruct (Hl _ _ Hj) as (c' & Hc' & Ej & _). simplify_eq.
  apply lookup_lt_Some in Hi, Hj. unfold zlen in Hlen.
  apply (slotId_inj (mx_offset m)); [lia | lia | congruence].
Qed.

(** Writing back the result of an operation that respects the list. *)
Lemma writeBack_inv p c s m :
  mux_inv m -> mx_heap m !! p = Some c -> chan_inv (held (listed m p) (ch_localId c)) s ->
  mux_inv (writeBack p s m).
Proof.
  intros (Hh & Hl & Hlen & Hq) Hp (_ & Hr & Hw & Hi & Ho). split_and!.
  - intros p' c'. simpl. intros [[<- <-]|[_ H]]%lookup_insert_Some; [|eauto].
    split; [by split|]. by destruct (Hh _ _ Hp).
  - intros i p' H. simpl in *. apply removes_lookup in H as [H Hrm]; [|done].
    destruct (Hl _ _ H) as (c' & Hc' & Hid & Hopen).
    destruct (decide (p = p')) as [<-|Hne].
    + rewrite Hp in Hc'. simplify_eq. exists (cs_ch s). rewrite lookup_insert_eq. split_and!; [done | congruence|].
      apply Ho; [by exists i|]. intros Hin. rewrite Forall_forall in Hrm. apply Hrm in Hin.
      rewrite Hid in Hin. apply Hin. apply u32_small, u32_range.
    + exists c'. by rewrite lookup_insert_ne.
  - pose proof (removes_length (mx_offset m) (cs_removed s) (mx_chans m)) as E. unfold removes in E.
    simpl. unfold zlen. by rewrite E.
  - done.
Qed.

Lemma chan_inv_start F c :
  chan_ok c -> F (gclosed (ch_msg c)) (gclosed (ch_incomingRequests c)) (ch_localId c) [] ->
  chan_inv F (mkCstate c [] []).
Proof. intros [Hr Hw] HF. split_and!; try done. left. constructor. Qed.

(** An operation on an allocated channel. *)
Lemma onChan_wp {A} p c (op : ST A) m :
  mux_inv m -> mx_heap m !! p = Some c ->
  wp op (fun _ => chan_inv (held (listed m p) (ch_localId c))) (chan_inv (held (listed m p) (ch_localId c)))
    (mkCstate c [] []) ->
  wp (onChan p op) (fun _ => mux_inv) mux_inv m.
Proof.
  intros Hm Hp Hwp. unfold wp, onChan in *. rewrite Hp. destruct (op _); [| |done]; by eapply writeBack_inv.
Qed.

(** The operations of a channel's user keep the invariant. *)
Lemma onChan_keeps {A} p (op : ST A) m :
  mux_inv m -> is_Some (mx_heap m !! p) ->
  (forall F, (forall m q i r x, F m q i r -> F m q i (r ++ [x])) -> keeps (chan_inv F) op) ->
  wp (onChan p op) (fun _ => mux_inv) mux_inv m.
Proof.
  intros Hm [c Hp] Hk. eapply onChan_wp; [done..|]. apply Hk; [apply held_mono|].
  apply chan_inv_start; [by apply Hm in Hp as [? _]|]. split; [done|].
  intros [i Hi] _. destruct Hm as (_ & Hl & _). destruct (Hl _ _ Hi) as (c' & ? & _ & ?). by simplify_eq.
Qed.

(** A packet for a listed channel. *)
Lemma onChan_handlePacket env p i packet m :
  mux_inv m -> mx_chans m !! i = Some (Some p) -> packet <> [] -> zlen packet < 2 ^ 32 ->
  wp (onChan p (handlePacket env packet)) (fun _ => mux_inv) mux_inv m.
Proof.
  intros Hm Hi Hne Hlen. pose proof Hm as (Hh & Hl & _). destruct (Hl _ _ Hi) as (c & Hc & _ & Ho).
  eapply onChan_wp; [done..|].
  assert (Hheld : forall s, handled (ch_localId c) s -> chan_inv (held (listed m p) (ch_localId c)) s).
  { intros s [Hs|Hs]; (eapply chan_inv_weaken; [|exact Hs]).
    - intros ?? j r [Hop ->]. by split.
    - intros ?? j r [-> Hin]. by split. }
  eapply wp_mono; [apply (handlePacket_handled (ch_localId c)); [done..|] | |]; auto.
  apply chan_inv_start; [by apply Hh in Hc as [? _] | by split].
Qed.

Definition running (m : mux) : Prop := mux_inv m /\ mx_err m = None.

(** Room for one more channel: identifiers are 32-bit numbers. *)
Definition room (m : mux) : Prop := zlen (mx_chans m) + 1 < 2 ^ 32.

Lemma wp_mget Q B m : Q m m -> wp mget Q B m.
Proof. done. Qed.

Lemma wp_mmodify f Q B m : Q tt (f m) -> wp (mmodify f) Q B m.
Proof. done. Qed.

Lemma writeBack_err p s m : mx_err (writeBack p s m) = mx_err m.
Proof. done. Qed.

Lemma onChan_running {A} p (op : ST A) m :
  mx_err m = None -> wp (onChan p op) (fun _ => mux_inv) mux_inv m ->
  wp (onChan p op) (fun _ => running) running m.
Proof.
  intros He. unfold wp, onChan. destruct (mx_heap m !! p); [|done].
  destruct (op _); [| |done]; intros H; by split.
Qed.

Lemma mux_newChannel_inv t d x m :
  mux_inv m -> room m ->
  wp (mux_newChannel t d x) (fun p m' => mux_inv m' /\ is_Some (mx_heap m' !! p) /\ mx_err m' = mx_err m)
    (fun _ => False) m.
Proof.
  intros (Hh & Hl & Hlen & Hq) Hroom. unfold wp, mux_newChannel.
  destruct (chanList_add _ _ _) as [id l] eqn:E.
  apply add_slot in E as (i & -> & Hi & Hfree & Hother & Hll); [|done].
  assert (Hfresh : mx_heap m !! mx_next m = None).
  { destruct (mx_heap m !! mx_next m) eqn:Ex; [|done]. apply Hh in Ex as [_ ?]. lia. }
  split_and!; [|simpl; by rewrite lookup_insert_eq|done]. split_and!; [| | |done]; simpl.
  - intros p c [[<- <-]|[_ H]]%lookup_insert_Some.
    + split; [|lia]. destruct (newChannel_inv t d x (slotId (mx_offset m) i)) as (_ & ? & ? & _). by split.
    + apply Hh in H as [? ?]. split; [done | lia].
  - intros j p Hj. destruct (decide (j = i)) as [->|Hne].
    + rewrite Hi in Hj. simplify_eq. rewrite lookup_insert_eq. eexists. by split_and!.
    + rewrite Hother in Hj by done. apply Hl in Hj as (c & Hc & ?).
      exists c. rewrite lookup_insert_ne; [done|]. intros <-. by rewrite Hfresh in Hc.
  - unfold room, zlen in *. lia.
Qed.

Lemma muxSendMessage_wp {T} `{SSHMessage T} (I : mux -> Prop) env (msg : T) p m :
  Marshal msg = Ret p -> (forall l, I (mset_sent l m)) -> I m ->
  wp (muxSendMessage env msg) (fun _ => I) I m.
Proof.
  intros Hm HI HI0. unfold muxSendMessage. rewrite Hm. apply wp_bind, wp_ret.
  destruct (env_connErr _); [done|]. hnf. apply HI.
Qed.

Lemma mux_inv_sent l m : mux_inv m -> mux_inv (mset_sent l m).
Proof. done. Qed.

Lemma muxSelectSend_running {A} env size (q : gochan A) put x m :
  running m -> gclosed q = false -> (forall v, gclosed v = false -> running (put v m)) ->
  wp (muxSelectSend env size q put x) (fun _ => running) running m.
Proof.
  intros Hr Hq Hput. unfold muxSelectSend. rewrite Hq. destruct (_ && _); [by apply Hput|].
  by destruct (muxStopped env).
Qed.

(** Global packets decode to global messages: the panic in
    [handleGlobalPacket] cannot happen. *)
Lemma handleGlobalPacket_running env p0 packet m :
  (b2z p0 =? msgGlobalRequest) || (b2z p0 =? msgRequestSuccess) || (b2z p0 =? msgRequestFailure) = true ->
  running m -> wp (handleGlobalPacket env (p0 :: packet)) (fun _ => running) running m.
Proof.
  intros Ht Hr. unfold handleGlobalPacket.
  destruct (decode (p0 :: packet)) as [msg|e|w] eqn:E; [|done|by apply decode_panics_only_empty in E].
  apply decode_number in E as (q & q' & [= <- <-] & En). rewrite En in Ht.
  destruct Hr as [(Hh & Hl & Hlen & Hq) He]. destruct (Hq He) as (Q1 & Q2 & Q3).
  destruct msg; simpl in Ht; try done; apply wp_bind, wp_mget.
  all: apply muxSelectSend_running; [by split; [split_and!|] | done |].
  all: intros v Hv; split; [split_and!|]; try done; intros _; simpl; by split_and!.
Qed.

Lemma handleChannelOpen_running env packet m :
  packet <> [] -> room m -> running m ->
  wp (handleChannelOpen env packet) (fun _ => running) running m.
Proof.
  intros Hne Hroom [Hm He]. unfold handleChannelOpen.
  destruct (unmarshalMsg channelOpenMsg packet) as [msg|e|w] eqn:E; [|done|].
  2: { assert (H : panics (let? x := unmarshalMsg channelOpenMsg packet in Ret (M_channelOpenMsg x)) = false)
        by by apply unmarshalMsg_wrap_not_panic.
       by rewrite E in H. }
  destruct (_ || _).
  { eapply muxSendMessage_wp; [eapply Marshal_value; reflexivity | intros l; by split | by split]. }
  apply wp_bind. eapply wp_mono; [by apply mux_newChannel_inv | | done].
  intros p m1 (Hm1 & Hp & He1). rewrite He in He1. apply wp_bind.
  eapply wp_mono; [apply onChan_running; [done|]; apply onChan_keeps; [done..|] | | done].
  - intros F HF. repeat (apply keeps_bind; [auto with keeps|intros []]).
    apply keeps_add_remoteWin.
  - intros [] m2 Hr2. apply wp_bind, wp_mget. destruct Hr2 as [(Hh & Hl & Hlen & Hq) He2].
    destruct (Hq He2) as (Q1 & Q2 & Q3). apply muxSelectSend_running; [by split; [split_and!|] | done |].
    intros v Hv; split; [split_and!|]; try done; intros _; simpl; by split_and!.
Qed.

Lemma onePacket_running env read m :
  (forall packet, read = inr packet -> packet <> [] /\ zlen packet < 2 ^ 32) -> room m -> running m ->
  wp (onePacket env read) (fun _ => running) running m.
Proof.
  intros Hread Hroom Hr. destruct read as [e|packet]; [done|].
  destruct (Hread packet eq_refl) as [Hne Hlen]. destruct packet as [|p0 packet]; [done|]. simpl onePacket.
  destruct (_ =? msgChannelOpen); [by apply handleChannelOpen_running|].
  destruct (_ || _ || _) eqn:Eg; [by apply handleGlobalPacket_running|].
  destruct (_ <? 5); [done|]. apply wp_bind, wp_mget.
  destruct (chanList_getChan _ _ _) as [p|] eqn:E; [|done]. destruct Hr as [Hm He].
  apply getChan_some in E as (i & Hi & _).
  - apply onChan_running; [done|]. by eapply onChan_handlePacket.
  - apply Hm.
  - pose proof (be_decode_range (ztake 4 (zdrop 1 (p0 :: packet)))) as Hr. split; [lia|].
    eapply Z.lt_le_trans; [apply Hr|]. change (2 ^ 32) with (256 ^ 4). apply Z.pow_le_mono_r; [lia|].
    unfold zlen, ztake. rewrite length_take. lia.
Qed.

(** ** The end of the loop *)

(** What [close] leaves of a channel: readers and writers are woken and told
    the end, nothing more is sent. *)
Definition shut (c : channel) : Prop :=
  gclosed (ch_msg c) = true /\ gclosed (ch_incomingRequests c) = true /\ ch_sentClose c = true /\
  wclosed (ch_remoteWin c) = true /\ bclosed (ch_pending c) = true /\ bclosed (ch_extPending c) = true /\
  ch_stopRequested c = true.

Lemma closeChannel_run c l r :
  chan_ok c -> chan_open c ->
  exists c', closeChannel (mkCstate c l r) = Done tt (mkCstate c' l r) /\ chan_ok c' /\ shut c'.
Proof.
  intros [Hr Hw] [Hm Hq]. unfold closeChannel, bind, modify, get, closeGochan. simpl.
  rewrite Hm, Hq. simpl. eexists. split; [reflexivity|]. split; [|by split_and!].
  destruct Hr as (a & e & Ha & He & Hwin).
  split; [|destruct Hw as (? & ? & ?); split_and!; [done | by apply timer_ok_Stop..]].
  exists (absEof a), (absEof e). simpl. split_and!; try apply eof_refines; try done; apply Hwin.
Qed.

Lemma closeAll_run ps m :
  mux_inv m -> mx_chans m = [] -> NoDup ps ->
  (forall p, p ∈ ps -> exists c, mx_heap m !! p = Some c /\ chan_open c) ->
  exists m', closeAll ps m = Done tt m' /\ mux_inv m' /\ mx_chans m' = [] /\
    mx_incomingChannels m' = mx_incomingChannels m /\ mx_globalResponses m' = mx_globalResponses m /\
    mx_incomingRequests m' = mx_incomingRequests m /\ mx_err m' = mx_err m /\
    (forall p, p ∈ ps -> exists c, mx_heap m' !! p = Some c /\ shut c) /\
    (forall p, p ∉ ps -> mx_heap m' !! p = mx_heap m !! p).
Proof.
  revert m. induction ps as [|p ps IH]; intros m Hm Hch Hnd Hps.
  { exists m. split_and!; try done; intros p []%not_elem_of_nil. }
  apply NoDup_cons in Hnd as [Hp Hnd].
  destruct (Hps p ltac:(set_solver)) as (c & Hc & Ho).
  destruct (closeChannel_run c [] []) as (c' & E & Hok & Hsh); [by apply Hm in Hc as [? _] | done |].
  simpl. unfold bind at 1, onChan. rewrite Hc, E.
  set (m1 := writeBack p (mkCstate c' [] []) m).
  assert (Hm1 : mux_inv m1).
  { destruct Hm as (Hh & Hl & Hlen & Hq). split_and!; simpl; try done.
    - intros p' x. simpl. intros [[<- <-]|[_ H]]%lookup_insert_Some; [|eauto].
      split; [done|]. by destruct (Hh _ _ Hc).
    - intros i p'. rewrite Hch. done. }
  destruct (IH m1 Hm1) as (m' & E' & ? & ? & ? & ? & ? & ? & Hin & Hout); try done.
  - intros p' Hp'. destruct (Hps p' ltac:(set_solver)) as (x & ? & ?). exists x. split; [|done].
    simpl. rewrite lookup_insert_ne by (intros ->; done). done.
  - exists m'. split_and!; try done.
    + intros p' [-> | Hp']%elem_of_cons; [|by apply Hin].
      exists c'. split; [|done]. rewrite Hout by done. simpl. by rewrite lookup_insert_eq.
    + intros p' [Hne Hp']%not_elem_of_cons. rewrite Hout by done. simpl. by rewrite lookup_insert_ne.
Qed.

Lemma elem_of_dropAll {A} (l : list (option A)) p : p ∈ (chanList_dropAll l).1 <-> exists i, l !! i = Some (Some p).
Proof.
  unfold chanList_dropAll. simpl. rewrite list_elem_of_omap. split.
  - intros ([x|] & Hx & ?); simplify_eq/=. by apply list_elem_of_lookup in Hx.
  - intros [i Hi]. exists (Some p). split; [|done]. apply list_elem_of_lookup. eauto.
Qed.

Lemma NoDup_dropAll {A} (l : list (option A)) :
  (forall i j p, l !! i = Some (Some p) -> l !! j = Some (Some p) -> i = j) -> NoDup (chanList_dropAll l).1.
Proof.
  induction l as [|o l IH]; intros Hu; [constructor|].
  assert (Hl : NoDup (chanList_dropAll l).1).
  { apply IH. intros i j p Hi Hj. by apply (eq_add_S _ _), (Hu (S i) (S j) p). }
  destruct o as [x|]; simpl in *; [|done]. apply NoDup_cons. split; [|done].
  intros Hx. apply (elem_of_dropAll l) in Hx as [i Hi]. by specialize (Hu O (S i) x eq_refl Hi).
Qed.

Lemma loopExit_run e m :
  running m ->
  exists m', loopExit e m = Done tt m' /\ mux_inv m' /\ mx_chans m' = [] /\ mx_err m' = Some e /\
    gclosed (mx_incomingChannels m') = true /\ gclosed (mx_globalResponses m') = true /\
    gclosed (mx_incomingRequests m') = true /\ mx_connClosed m' = true /\
    (forall p, listed m p -> exists c, mx_heap m' !! p = Some c /\ shut c).
Proof.
  intros [Hm He]. pose proof Hm as (Hh & Hl & Hlen & Hq). destruct (Hq He) as (Q1 & Q2 & Q3).
  set (m0 := mset_chans [] m).
  destruct (closeAll_run (chanList_dropAll (mx_chans m)).1 m0) as (m1 & E & Hm1 & Hc1 & E1 & E2 & E3 & E4 & Hin & _).
  - split_and!; try done.
  - done.
  - apply NoDup_dropAll. intros i j p. by apply listed_unique.
  - intros p [i Hi]%elem_of_dropAll. apply Hl in Hi as (c & ? & _ & ?). by exists c.
  - unfold loopExit, bind at 1, mget. simpl. unfold bind at 1, mmodify. fold m0. simpl in E.
    unfold bind at 1. rewrite E. unfold bind, mget, closeMuxChan. rewrite E1, E2, E3. simpl.
    rewrite Q1, Q2, Q3. eexists. split; [reflexivity|]. simpl.
    destruct Hm1 as (? & ? & ? & _). split_and!; try done.
    intros p Hp. apply Hin. by apply elem_of_dropAll.
Qed.

(** ** Everything that can happen to a mux *)

(** The user's receives from the mux's Go channels. *)
Definition recvFrom {A} (q : mux -> gochan A) (put : gochan A -> mux -> mux) : MST unit :=
  let! m := mget in
  match gq (q m) with
  | _ :: rest => mmodify (put (mkGochan rest (gclosed (q m))))
  | [] => if gclosed (q m) then ret tt else block
  end.

Inductive muxOp :=
| MUser (p : nat) (o : chanOp)
| MOpenSend (env : Menv) (chanType extra : bytes)
| MOpenWait (env : Menv) (p : nat)
| MSendRequest (env : Menv) (name : bytes) (wantReply : bool) (payload : bytes)
| MReply (env : Menv) (r : Request) (p : nat) (ok : bool) (payload : bytes)
| MRecvChannel
| MRecvRequest
| MLoop (env : Menv) (read : error + bytes).

Definition runMux (o : muxOp) : MST unit :=
  match o with
  | MUser p o => onChan p (runOp o)
  | MOpenSend env chanType extra => openChannelSend env chanType extra ;;; ret tt
  | MOpenWait env p => openChannelWait env p ;;; ret tt
  | MSendRequest env name wantReply payload => muxSendRequest env name wantReply payload ;;; ret tt
  | MReply env r p ok payload => Reply env r p ok payload ;;; ret tt
  | MRecvChannel => recvFrom mx_incomingChannels mset_incomingChannels
  | MRecvRequest => recvFrom mx_incomingRequests mset_incomingRequests
  | MLoop env read => loopBody env read ;;; ret tt
  end.

(** The user only has channels that exist, and sets no timeout or deadline for
    which a ticker panics; the loop runs until it has ended, and reads non-empty packets of bounded length; identifiers do not run out. *)
Definition menabled (o : muxOp) (m : mux) : Prop :=
  match o with
  | MUser p o => isUserOp o = true /\ tickableOp o = true /\ is_Some (mx_heap m !! p)
  | MOpenSend _ _ _ => room m
  | MOpenWait _ p | MReply _ _ p _ _ => is_Some (mx_heap m !! p)
  | MSendRequest _ _ _ _ | MRecvChannel | MRecvRequest => True
  | MLoop _ read => mx_err m = None /\ room m /\
      match read with inl _ => True | inr packet => packet <> [] /\ zlen packet < 2 ^ 32 end
  end.

Inductive mreachable (offset : Z) : mux -> Prop :=
| mreach_init : mreachable offset (newMux offset)
| mreach_step o m m' :
    mreachable offset m -> menabled o m -> (runMux o m = Done tt m' \/ runMux o m = Blocked m') ->
    mreachable offset m'.

Lemma wp_ignore_m {A} (op : MST A) I m : wp op (fun _ => I) I m -> wp (op ;;; ret tt) (fun _ => I) I m.
Proof. intros. by apply wp_bind. Qed.

Lemma stopTimers_inv p m :
  mux_inv m -> is_Some (mx_heap m !! p) -> wp (stopTimers p) (fun _ => mux_inv) mux_inv m.
Proof.
  intros Hm Hp. apply onChan_keeps; [done..|]. intros F HF. apply keeps_bind; [|intros []]; auto with keeps.
Qed.

Lemma stopTimers_then {A} (r : A) p m :
  mux_inv m -> is_Some (mx_heap m !! p) -> wp (stopTimers p ;;; ret r) (fun _ => mux_inv) mux_inv m.
Proof.
  intros Hm Hp. apply wp_bind. eapply wp_mono; [by apply stopTimers_inv | | done]. intros ? m' Hm'. exact Hm'.
Qed.

(** Reading a field of a channel. *)
Lemma onChan_get p c m :
  mx_heap m !! p = Some c -> exists m', onChan p get m = Done c m' /\ mx_heap m' = mx_heap m /\
    mx_chans m' = mx_chans m /\ mx_next m' = mx_next m /\ mx_offset m' = mx_offset m /\ mx_err m' = mx_err m /\
    mx_incomingChannels m' = mx_incomingChannels m /\ mx_globalResponses m' = mx_globalResponses m /\
    mx_incomingRequests m' = mx_incomingRequests m.
Proof.
  intros Hp. unfold onChan. rewrite Hp. eexists. split; [reflexivity|]. simpl. rewrite insert_id by done. done.
Qed.

Lemma mux_inv_ext m m' :
  mx_heap m' = mx_heap m -> mx_chans m' = mx_chans m -> mx_next m' = mx_next m -> mx_offset m' = mx_offset m ->
  queues_ok m' -> mux_inv m -> mux_inv m'.
Proof. intros E1 E2 E3 E4 Hq (Hh & Hl & Hlen & _). unfold mux_inv. rewrite E1, E2, E3, E4. by split_and!. Qed.

Lemma onChan_has {A} p q (op : ST A) m a m' :
  onChan p op m = Done a m' -> is_Some (mx_heap m !! q) -> is_Some (mx_heap m' !! q).
Proof.
  unfold onChan. destruct (mx_heap m !! p); [|done]. destruct (op _); [|done|done].
  intros [= _ <-] Hq. simpl. destruct (decide (p = q)) as [-> | ?]; [rewrite lookup_insert_eq | rewrite lookup_insert_ne]; eauto.
Qed.

Lemma openChannelWait_inv env p m :
  mux_inv m -> is_Some (mx_heap m !! p) -> wp (openChannelWait env p) (fun _ => mux_inv) mux_inv m.
Proof.
  intros Hm [c Hc]. unfold openChannelWait. apply wp_bind.
  destruct (onChan_get p c m Hc) as (m1 & E & Eh & El & En & Eo & Ee & Q1 & Q2 & Q3).
  unfold wp at 1. rewrite E.
  assert (Hm1 : mux_inv m1).
  { apply (mux_inv_ext m); try done. destruct Hm as (_ & _ & _ & Hq). unfold queues_ok in *. by rewrite Ee, Q1, Q2, Q3. }
  assert (Hc1 : mx_heap m1 !! p = Some c) by by rewrite Eh.
  destruct (gq (ch_msg c)) as [|msg q] eqn:Eq.
  { destruct (_ && _); [apply stopTimers_then; eauto|]. by destruct (muxStopped env). }
  destruct (_ && _); [done|]. apply wp_bind.
  assert (Hw : wp (onChan p (modify (set_msg (mkGochan q (gclosed (ch_msg c))))))
                 (fun _ m2 => mux_inv m2 /\ is_Some (mx_heap m2 !! p)) (fun _ => False) m1).
  { assert (Hi : wp (onChan p (modify (set_msg (mkGochan q (gclosed (ch_msg c)))))) (fun _ => mux_inv) mux_inv m1).
    { eapply onChan_wp; [done..|]. apply wp_modify. apply (inv_set_msg _ q (mkCstate c [] [])).
      apply chan_inv_start; [by apply Hm1 in Hc1 as [? _]|]. split; [done|].
      intros [i Hi] _. destruct Hm1 as (_ & Hl & _). destruct (Hl _ _ Hi) as (c' & ? & _ & ?). by simplify_eq. }
    unfold wp, onChan in *. rewrite Hc1 in *. simpl in *. split; [done|]. rewrite lookup_insert_eq. eauto. }
  eapply wp_mono; [exact Hw | | done]. intros [] m2 [Hm2 Hp2].
  destruct msg; by first [apply stopTimers_then | done].
Qed.

Lemma openChannelSend_inv env t x m :
  mux_inv m -> room m -> wp (openChannelSend env t x) (fun _ => mux_inv) mux_inv m.
Proof.
  intros Hm Hr. unfold openChannelSend. apply wp_bind.
  eapply wp_mono; [by apply mux_newChannel_inv | | done]. intros p m1 (Hm1 & [c Hc] & _). apply wp_bind.
  assert (Hi : wp (onChan p (modify (set_maxIncomingPayload channelMaxPacket))) (fun _ => mux_inv) mux_inv m1).
  { apply onChan_keeps; [done | eauto |]. intros F HF. auto with keeps. }
  unfold wp at 1. unfold wp in Hi. destruct (onChan p _ m1) as [[] m2|?|] eqn:E2; [|done|done].
  destruct (onChan_has _ p _ _ _ _ E2 ltac:(eauto)) as [c2 Hc2].
  apply wp_bind. destruct (onChan_get p c2 m2 Hc2) as (m3 & E & Eh & El & En & Eo & Ee & Q1 & Q2 & Q3).
  unfold wp at 1. rewrite E.
  assert (Hm3 : mux_inv m3).
  { apply (mux_inv_ext m2); try done. destruct Hi as (_ & _ & _ & Hq). unfold queues_ok in *. by rewrite Ee, Q1, Q2, Q3. }
  apply wp_bind.
  eapply wp_mono with (Q := fun _ m4 => mux_inv m4 /\ is_Some (mx_heap m4 !! p)) (B := fun m4 => mux_inv m4 /\ is_Some (mx_heap m4 !! p)).
  - eapply (muxSendMessage_wp (fun m4 => mux_inv m4 /\ is_Some (mx_heap m4 !! p)));
      [eapply Marshal_value; reflexivity | |]; simpl; rewrite Eh; eauto.
  - intros [e|] m4 [Hm4 Hp4]; [by apply stopTimers_then | done].
  - by intros m4 [? _].
Qed.

Lemma recvFrom_inv {A} (q : mux -> gochan A) put m :
  mux_inv m -> (forall l, mux_inv (put (mkGochan l (gclosed (q m))) m)) ->
  wp (recvFrom q put) (fun _ => mux_inv) mux_inv m.
Proof.
  intros Hm Hput. apply wp_bind, wp_mget. destruct (gq (q m)); [by destruct (gclosed _) | by apply wp_mmodify].
Qed.

Lemma muxAckRequest_inv env ok data m :
  mux_inv m -> wp (muxAckRequest env ok data) (fun _ => mux_inv) mux_inv m.
Proof.
  intros Hm. unfold muxAckRequest.
  destruct ok; (eapply muxSendMessage_wp; [eapply Marshal_value; reflexivity | by intros l | done]).
Qed.

Lemma muxSendRequest_inv env name wantReply payload m :
  mux_inv m -> wp (muxSendRequest env name wantReply payload) (fun _ => mux_inv) mux_inv m.
Proof.
  intros Hm. unfold muxSendRequest. apply wp_bind. eapply wp_mono with (Q := fun _ => mux_inv) (B := mux_inv); [| |done].
  { eapply muxSendMessage_wp; [eapply Marshal_value; reflexivity | by intros l | done]. }
  intros [e|] m1 Hm1; [done|]. destruct (negb wantReply); [done|]. apply wp_bind, wp_mget.
  destruct (gq _) as [|msg q]; [by destruct (_ || _)|]. destruct (_ && _); [done|].
  apply wp_bind, wp_mmodify. by destruct msg.
Qed.

Lemma loopBody_inv env read m :
  menabled (MLoop env read) m -> mux_inv m -> wp (loopBody env read) (fun _ => mux_inv) mux_inv m.
Proof.
  intros (He & Hroom & Hread) Hm. unfold loopBody. apply wp_bind.
  eapply wp_mono; [apply onePacket_running; [| done | by split] | | by intros ? [? _]].
  { intros packet ->. exact Hread. }
  intros [e|] m1 Hr; [|by destruct Hr]. destruct (isTimeout e); [by destruct Hr|].
  destruct (loopExit_run e m1 Hr) as (m2 & E & Hm2 & _). apply wp_bind. unfold wp. rewrite E. exact Hm2.
Qed.

Lemma runMux_inv o m : mux_inv m -> menabled o m -> wp (runMux o) (fun _ => mux_inv) mux_inv m.
Proof.
  intros Hm He. destruct o; simpl; try apply wp_ignore_m.
  - destruct He as (Ho & Ht & Hp). apply onChan_keeps; [done..|]. intros F HF. by apply keeps_userOp.
  - by apply openChannelSend_inv.
  - by apply openChannelWait_inv.
  - by apply muxSendRequest_inv.
  - unfold Reply. destruct (negb (req_WantReply r)); [done|].
    destruct (negb _); [by apply muxAckRequest_inv|]. apply onChan_keeps; [done..|].
    intros F HF. apply keeps_ackRequest.
  - by apply recvFrom_inv.
  - by apply recvFrom_inv.
  - by apply loopBody_inv.
Qed.

Lemma newMux_inv offset : mux_inv (newMux offset).
Proof. by split_and!. Qed.

Lemma mreachable_inv offset m : mreachable offset m -> mux_inv m.
Proof.
  induction 1 as [|o m m' _ IH He Hs]; [apply newMux_inv|].
  pose proof (runMux_inv o m IH He) as Hw. unfold wp in Hw. by destruct Hs as [Hs|Hs]; rewrite Hs in Hw.
Qed.

(** ** Opening a channel, step by step *)

(** Nothing fails and nobody asks to stop. *)
Definition calm (env : Menv) : Prop :=
  env_connErr (me_env env) = None /\ env_muxStop (me_env env) = false /\ me_ctxDone env = false.

Lemma calm_notStopped env : calm env -> muxStopped env = false.
Proof. unfold muxStopped. by intros (_ & -> & ->). Qed.

(** The packet that opens channel [id]. *)
Definition openMsgPacket (t x : bytes) (id : Z) : bytes :=
  z2b msgChannelOpen :: (be_encode 4 (zlen t) ++ t) ++ be_encode 4 id ++ be_encode 4 channelWindowSize ++
    be_encode 4 channelMaxPacket ++ x.

Lemma openMsg_Marshal t x id :
  Marshal (mk_channelOpenMsg t id channelWindowSize channelMaxPacket x) = Ret (openMsgPacket t x id).
Proof. erewrite Marshal_value by reflexivity. reflexivity. Qed.

Lemma openMsg_unmarshal t x id :
  zlen t + zlen x + 30 < 2 ^ 32 -> 0 <= id < 2 ^ 32 ->
  unmarshalMsg channelOpenMsg (openMsgPacket t x id)
  = Ret (mk_channelOpenMsg t id channelWindowSize channelMaxPacket x).
Proof.
  intros Hl Hid.
  apply (Unmarshal_value [90]); [reflexivity | repeat constructor | apply openMsg_Marshal | done | |].
  - unfold openMsgPacket. rewrite zlen_cons, !zlen_app, !zlen_be_encode. lia.
  - repeat split; try done; try apply Hid; decide_vm.
Qed.

(** The packet that confirms channel [id] of the peer. *)
Definition confirmPacket (id myId : Z) : bytes :=
  z2b msgChannelOpenConfirm :: be_encode 4 id ++ be_encode 4 myId ++ be_encode 4 channelWindowSize ++
    be_encode 4 channelMaxPacket ++ [].

Definition confirmMsg (id myId : Z) : channelOpenConfirmMsg :=
  mk_channelOpenConfirmMsg id myId channelWindowSize channelMaxPacket [].

Lemma confirmMsg_Marshal id myId : Marshal (confirmMsg id myId) = Ret (confirmPacket id myId).
Proof. erewrite Marshal_value by reflexivity. reflexivity. Qed.

Lemma confirmMsg_decode id myId :
  0 <= id < 2 ^ 32 -> 0 <= myId < 2 ^ 32 ->
  decode (confirmPacket id myId) = Ret (M_channelOpenConfirmMsg (confirmMsg id myId)).
Proof.
  intros Hid Hmy. apply decode_ret_ok; [apply confirmMsg_Marshal | |].
  - repeat split; try apply Hid; try apply Hmy; decide_vm.
  - unfold confirmPacket. rewrite zlen_cons, !zlen_app, !zlen_be_encode, zlen_nil. lia.
Qed.

Lemma putPeersId_confirm id myId : putPeersId id (confirmPacket id myId) = confirmPacket id myId.
Proof. reflexivity. Qed.

Lemma onChan_run {A} p c (op : ST A) m a s :
  mx_heap m !! p = Some c -> op (mkCstate c [] []) = Done a s -> onChan p op m = Done a (writeBack p s m).
Proof. intros Hp Ho. unfold onChan. by rewrite Hp, Ho. Qed.

(** The client's new channel. *)
Definition outChannel (t x : bytes) (id : Z) : channel :=
  set_maxIncomingPayload channelMaxPacket (newChannel t channelOutbound x id).

Lemma openChannelSend_calm env t x m :
  calm env -> mux_inv m -> room m ->
  exists i m1, openChannelSend env t x m = Done (inr (mx_next m)) m1 /\
    (Z.of_nat i < 2 ^ 32) /\ zlen (mx_chans m1) < 2 ^ 32 /\
    mx_chans m1 !! i = Some (Some (mx_next m)) /\ mx_offset m1 = mx_offset m /\
    mx_heap m1 !! mx_next m = Some (outChannel t x (slotId (mx_offset m) i)) /\
    mx_sent m1 = mx_sent m ++ [openMsgPacket t x (slotId (mx_offset m) i)].
Proof.
  intros Hc Hm Hr. unfold openChannelSend, mux_newChannel. unfold bind at 1.
  destruct (chanList_add _ _ _) as [id l] eqn:E.
  apply add_slot in E as (i & -> & Hi & _ & _ & Hlen); [|apply Hm].
  assert (Hl : zlen l < 2 ^ 32) by (unfold room, zlen in *; lia).
  exists i. set (m0 := mset_chans _ _). set (id := slotId (mx_offset m) i) in *.
  unfold bind at 1. erewrite (onChan_run _ (newChannel t channelOutbound x id)); [|by simpl; rewrite lookup_insert_eq | reflexivity].
  unfold bind at 1. erewrite (onChan_run _ (outChannel t x id)); [|by simpl; rewrite lookup_insert_eq | reflexivity].
  change (mk_channelOpenMsg t (ch_localId (outChannel t x id)) (ch_myWindow (outChannel t x id))
            (ch_maxIncomingPayload (outChannel t x id)) x)
    with (mk_channelOpenMsg t id channelWindowSize channelMaxPacket x).
  unfold muxSendMessage. rewrite openMsg_Marshal. unfold bind, liftO, ret, mmodify. destruct Hc as (-> & _ & _).
  eexists. split; [reflexivity|]. simpl. rewrite !app_nil_r, lookup_insert_eq. split_and!; try done.
  apply lookup_lt_Some in Hi. unfold zlen in Hl. lia.
Qed.

(** The channel the server makes of an open message. *)
Definition inChannel (t x : bytes) (id myId : Z) : channel :=
  set_remoteWin (mkWindow channelWindowSize 0 false) (set_maxRemotePayload channelMaxPacket
    (set_remoteId id (newChannel t channelInbound x myId))).

Lemma onePacket_open env t x id m :
  calm env -> running m -> room m -> zlen t + zlen x + 30 < 2 ^ 32 -> 0 <= id < 2 ^ 32 ->
  zlen (gq (mx_incomingChannels m)) < chanSize ->
  exists myId m1, onePacket env (inr (openMsgPacket t x id)) m = Done None m1 /\ 0 <= myId < 2 ^ 32 /\
    gq (mx_incomingChannels m1) = gq (mx_incomingChannels m) ++ [mx_next m] /\
    mx_heap m1 !! mx_next m = Some (inChannel t x id myId) /\ mx_sent m1 = mx_sent m.
Proof.
  intros Hc [Hm He] Hr Hl Hid Hq. destruct Hm as (_ & _ & Hlen & Hqs). destruct (Hqs He) as (Q1 & _).
  assert (E0 : onePacket env (inr (openMsgPacket t x id)) m = handleChannelOpen env (openMsgPacket t x id) m) by reflexivity.
  rewrite E0. clear E0. unfold handleChannelOpen. rewrite openMsg_unmarshal by done.
  cbn [channelOpenMsg_MaxPacketSize channelOpenMsg_PeersId channelOpenMsg_PeersWindow channelOpenMsg_ChanType
       channelOpenMsg_TypeSpecificData].
  change ((channelMaxPacket <? minPacketLength) || (Z.shiftl 1 31 <? channelMaxPacket)) with false. cbv iota.
  unfold mux_newChannel, bind at 1. destruct (chanList_add _ _ _) as [myId l] eqn:E.
  apply add_slot in E as (i & -> & _); [|done].
  set (myId := slotId (mx_offset m) i). exists myId.
  unfold bind at 1. erewrite (onChan_run _ (newChannel t channelInbound x myId)); [|by simpl; rewrite lookup_insert_eq | reflexivity].
  unfold bind at 1, mget. unfold muxSelectSend. cbn [mx_incomingChannels writeBack mset_chans mset_heap mset_sent mset_next].
  rewrite Q1, (proj2 (Z.ltb_lt _ _) Hq), (calm_notStopped _ Hc). cbn [andb negb]. unfold bind, mmodify, ret.
  eexists. split; [reflexivity|]. simpl. rewrite lookup_insert_eq, app_nil_r. split_and!; try done; apply u32_range.
Qed.

Lemma Accept_calm env c :
  calm env -> ch_decided c = false -> ch_sentClose c = false -> ch_myWindow c = channelWindowSize ->
  exists c', Accept (me_env env) (mkCstate c [] [])
             = Done None (mkCstate c' [confirmPacket (ch_remoteId c) (ch_localId c)] []) /\
    ch_decided c' = true /\ ch_maxIncomingPayload c' = channelMaxPacket /\
    ch_remoteId c' = ch_remoteId c /\ ch_localId c' = ch_localId c /\ ch_myWindow c' = channelWindowSize /\
    ch_maxRemotePayload c' = ch_maxRemotePayload c /\ ch_remoteWin c' = ch_remoteWin c /\
    ch_chanType c' = ch_chanType c /\ ch_extraData c' = ch_extraData c.
Proof.
  intros (Hc & _) Hd Hs Hw. unfold Accept, bind at 1, get. cbn [cs_ch]. rewrite Hd.
  unfold bind at 1, modify. unfold bind at 1, get. unfold bind at 1, modify.
  cbn [cs_ch cs_sent cs_removed ch_remoteId ch_localId ch_myWindow ch_maxIncomingPayload set_maxIncomingPayload].
  rewrite Hw. fold (confirmMsg (ch_remoteId c) (ch_localId c)).
  unfold sendMessage. rewrite confirmMsg_Marshal. unfold bind at 1, liftO, ret at 1. unfold bind at 1, get.
  cbn [cs_ch ch_remoteId set_decided set_maxIncomingPayload]. rewrite putPeersId_confirm.
  replace (zlen (confirmPacket (ch_remoteId c) (ch_localId c)) <? 5) with false
    by (unfold confirmPacket; rewrite zlen_cons, !zlen_app, !zlen_be_encode, zlen_nil; reflexivity).
  unfold writePacket, bind, get, modify, connWrite, idleW_AttemptOK. cbn. rewrite Hs. cbn. rewrite Hc. cbn.
  eexists. split; [reflexivity|]. cbn. by split_and!.
Qed.

Lemma confirmPacket_id id myId :
  0 <= id < 2 ^ 32 -> be_decode (ztake 4 (zdrop 1 (confirmPacket id myId))) = id.
Proof.
  intros Hid. unfold confirmPacket. change (z2b msgChannelOpenConfirm :: ?l) with ([z2b msgChannelOpenConfirm] ++ l).
  rewrite zdrop_app by done. rewrite ztake_app by (by rewrite zlen_be_encode).
  apply be_decode_encode_small. simpl. lia.
Qed.

(** A message that is not handled on its bytes. *)
Lemma handlePacket_decoded env p0 p msg c l r :
  decode (p0 :: p) = Ret msg ->
  (b2z p0 =? msgChannelData) || (b2z p0 =? msgChannelExtendedData) = false ->
  (b2z p0 =? msgChannelClose) = false -> (b2z p0 =? msgChannelEOF) = false ->
  handlePacket env (p0 :: p) (mkCstate c l r)
  = handleDecoded env msg (mkCstate (set_idleR (AttemptOK (env_now env) (ch_idleR c)) c) l r).
Proof.
  intros Hd H1 H2 H3. unfold handlePacket, bind at 1, idleR_AttemptOK, modify.
  by rewrite H1, H2, H3, Hd.
Qed.

(** A valid confirmation on an undecided outbound channel. *)
Lemma handleDecoded_confirm env msg c l r :
  env_muxStop env = false -> ch_stopRequested c = false ->
  ch_direction c = channelOutbound -> ch_decided c = false -> ch_msg c = newGochan ->
  minPacketLength <= channelOpenConfirmMsg_MaxPacketSize msg <= Z.shiftl 1 31 ->
  handleDecoded env (M_channelOpenConfirmMsg msg) (mkCstate c l r)
  = Done None (mkCstate
      (set_msg (mkGochan [M_channelOpenConfirmMsg msg] false)
         (set_remoteWin (add (channelOpenConfirmMsg_MyWindow msg) (ch_remoteWin c)).2
            (set_maxRemotePayload (channelOpenConfirmMsg_MaxPacketSize msg)
               (set_remoteId (channelOpenConfirmMsg_MyId msg) (set_decided true c))))) l r).
Proof.
  intros Hs Hst Hd Hdec Hm Hmax. unfold handleDecoded, responseMessageReceived, bind, get, modify, ret.
  cbn [cs_ch cs_sent cs_removed]. rewrite Hd, Hdec.
  rewrite (proj2 (Z.ltb_ge _ _)), (proj2 (Z.ltb_ge (Z.shiftl 1 31) _)) by lia. cbn [orb].
  unfold deliverMsg, selectSend, bind, get, modify, ret.
  cbn [cs_ch cs_sent cs_removed ch_msg set_decided set_remoteId set_maxRemotePayload set_remoteWin ch_stopRequested].
  rewrite Hm, Hs, Hst. reflexivity.
Qed.

(** A packet for a listed channel. *)
Lemma onePacket_listed env p0 p i ptr m :
  (b2z p0 =? msgChannelOpen) = false ->
  (b2z p0 =? msgGlobalRequest) || (b2z p0 =? msgRequestSuccess) || (b2z p0 =? msgRequestFailure) = false ->
  5 <= zlen (p0 :: p) -> zlen (mx_chans m) < 2 ^ 32 -> mx_chans m !! i = Some (Some ptr) ->
  be_decode (ztake 4 (zdrop 1 (p0 :: p))) = slotId (mx_offset m) i ->
  onePacket env (inr (p0 :: p)) m = onChan ptr (handlePacket (me_env env) (p0 :: p)) m.
Proof.
  intros H1 H2 Hlen Hl Hi Hid. unfold onePacket. rewrite H1, H2, (proj2 (Z.ltb_ge _ _)), Hid by lia.
  unfold bind, mget. rewrite getChan_slot, Hi; [done | done |]. by apply lookup_lt_Some in Hi.
Qed.

(** The client's channel, confirmed. *)
Definition confirmedChannel (now : Z) (t x : bytes) (id myId : Z) : channel :=
  let c := outChannel t x id in
  set_msg (mkGochan [M_channelOpenConfirmMsg (confirmMsg id myId)] false)
    (set_remoteWin (add channelWindowSize (ch_remoteWin c)).2
       (set_maxRemotePayload channelMaxPacket
          (set_remoteId myId (set_decided true (set_idleR (AttemptOK now (ch_idleR c)) c))))).

Lemma handlePacket_confirm env t x id myId :
  calm env -> 0 <= id < 2 ^ 32 -> 0 <= myId < 2 ^ 32 ->
  handlePacket (me_env env) (confirmPacket id myId) (mkCstate (outChannel t x id) [] [])
  = Done None (mkCstate (confirmedChannel (env_now (me_env env)) t x id myId) [] []).
Proof.
  intros (_ & Hs & _) Hid Hmy. unfold confirmPacket.
  rewrite (handlePacket_decoded _ _ _ _ _ _ _ (confirmMsg_decode id myId Hid Hmy)) by reflexivity.
  by rewrite handleDecoded_confirm.
Qed.

(** ** Properties *)

(** C9: the mux never panics and never confuses channels.  From a new mux,
    after any interleaving of packets from the peer, channel operations (timeouts
    and deadlines of at least ten nanoseconds among them, and ticks of the timers),
    opens, requests and replies, no step panics (in particular the Go channels
    are never closed twice, nothing is sent on a closed one, and the panic on
    "not a global message" is unreachable), and looking up the identifier of a
    listed channel finds that channel. *)
Theorem mux_safe (offset : Z) (m : mux) (o : muxOp) :
  mreachable offset m -> menabled o m ->
  (forall w, runMux o m <> Crash w) /\
  (forall i p c, mx_chans m !! i = Some (Some p) -> mx_heap m !! p = Some c ->
     chanList_getChan (mx_offset m) (ch_localId c) (mx_chans m) = Some p).
Proof.
  intros Hr He. apply mreachable_inv in Hr. split.
  - intros w Hc. pose proof (runMux_inv o m Hr He) as Hw. unfold wp in Hw. by rewrite Hc in Hw.
  - intros i p c Hi Hp. destruct Hr as (_ & Hl & Hlen & _). destruct (Hl _ _ Hi) as (c' & Hc' & Hid & _).
    simplify_eq. rewrite Hid, getChan_slot; [by rewrite Hi | done | by apply lookup_lt_Some in Hi].
Qed.

Definition quietMenv : Menv := mkMenv quietEnv false.

(** A peer that opens channel 7 with a window of 1000 bytes. *)
Definition openPacket : bytes :=
  match Marshal (mk_channelOpenMsg (str "session") 7 1000 32768 []) with Ret p => p | _ => [] end.

Definition openedMux : mux :=
  match runMux (MLoop quietMenv (inr openPacket)) (newMux 0) with Done _ m => m | _ => newMux 0 end.

Lemma openedMux_reachable : mreachable 0 openedMux.
Proof.
  apply (mreach_step _ (MLoop quietMenv (inr openPacket)) (newMux 0)).
  - constructor.
  - by split_and!.
  - left. vm_compute. reflexivity.
Qed.

Lemma mux_safe_witness :
  (forall w, runMux (MLoop quietMenv (inr (z2b msgChannelClose :: be_encode 4 0))) openedMux <> Crash w) /\
  (forall i p c, mx_chans openedMux !! i = Some (Some p) -> mx_heap openedMux !! p = Some c ->
     chanList_getChan (mx_offset openedMux) (ch_localId c) (mx_chans openedMux) = Some p).
Proof.
  apply (mux_safe 0 openedMux (MLoop quietMenv (inr (z2b msgChannelClose :: be_encode 4 0)))).
  - apply openedMux_reachable.
  - by split_and!.
Defined.

(** the laws of the channel list.  [add] hands out an identifier that no
    listed channel has; afterwards that identifier finds the new channel and
    every other identifier finds what it found before; after [remove] it finds
    nothing and the others are again unchanged. *)
Theorem chanList_laws (A : Type) (offset : Z) (ch : A) (l l' : list (option A)) (id : Z) :
  zlen l + 1 < 2 ^ 32 -> chanList_add offset ch l = (id, l') ->
  chanList_getChan offset id l = None /\
  chanList_getChan offset id l' = Some ch /\
  chanList_getChan offset id (chanList_remove offset id l') = None /\
  forall id', 0 <= id' < 2 ^ 32 -> id' <> id ->
    chanList_getChan offset id' l' = chanList_getChan offset id' l /\
    chanList_getChan offset id' (chanList_remove offset id l') = chanList_getChan offset id' l'.
Proof.
  intros Hl H. pose proof (zlen_nonneg l).
  apply add_slot in H as (i & -> & Hi & Hfree & Hother & Hlen); [|lia].
  assert (Hl' : zlen l' < 2 ^ 32) by (unfold zlen in *; lia).
  assert (Hi32 : Z.of_nat i < 2 ^ 32) by (apply lookup_lt_Some in Hi; unfold zlen in *; lia).
  assert (Hrm : zlen (chanList_remove offset (slotId offset i) l') < 2 ^ 32)
    by (unfold zlen in *; rewrite remove_length; lia).
  assert (Hslot : Z.to_nat (u32 (slotId offset i - offset)) = i) by (rewrite slotId_slot by lia; lia).
  rewrite !getChan_lookup, remove_slot, Hslot, Hi by (done || lia). split_and!.
  - by destruct Hfree as [-> | ->].
  - done.
  - by rewrite decide_True.
  - intros id' Hid' Hne. rewrite !getChan_lookup, remove_slot, Hslot by (done || lia).
    assert (Hj : Z.to_nat (u32 (id' - offset)) <> i).
    { intros <-. apply Hne. pose proof (u32_range (id' - offset)). unfold slotId. rewrite Z2Nat.id by lia.
      unfold u32 in *. dlia. }
    rewrite decide_False, Hother by done. done.
Qed.

Lemma chanList_laws_witness :
  chanList_add 0 9%nat [Some 3%nat; None; Some 5%nat] = (1, [Some 3%nat; Some 9%nat; Some 5%nat]) /\
  chanList_getChan 0 1 [Some 3%nat; Some 9%nat; Some 5%nat] = Some 9%nat.
Proof.
  split; [reflexivity|].
  apply (chanList_laws nat 0 9%nat [Some 3%nat; None; Some 5%nat] [Some 3%nat; Some 9%nat; Some 5%nat] 1);
    reflexivity.
Defined.

(** C36: when the loop ends, everybody is told.  If the connection fails with
    anything but a timeout, the round of the loop ends with the channel list
    empty, every channel that was listed closed (its buffers at end of file,
    its window and Go channels closed, further sends refused), the mux's own Go
    channels and the connection closed, and [Wait] returns the error. *)
Theorem loop_exit_closes_all (offset : Z) (m : mux) (env : Menv) (e : error) :
  mreachable offset m -> mx_err m = None -> isTimeout e = false ->
  exists m', loopBody env (inl e) m = Done false m' /\
    (forall id, chanList_getChan (mx_offset m') id (mx_chans m') = None) /\
    (forall p, listed m p -> exists c, mx_heap m' !! p = Some c /\ shut c) /\
    gclosed (mx_incomingChannels m') = true /\ gclosed (mx_globalResponses m') = true /\
    gclosed (mx_incomingRequests m') = true /\ mx_connClosed m' = true /\ Wait m' = Done e m'.
Proof.
  intros Hr He Ht. apply mreachable_inv in Hr.
  destruct (loopExit_run e m (conj Hr He)) as (m' & E & _ & Hc & Herr & ? & ? & ? & ? & Hin).
  exists m'. unfold loopBody, Wait, bind, mget. simpl. rewrite Ht, E, Herr. split_and!; try done.
  intros id. rewrite Hc. by rewrite getChan_lookup.
Qed.

Lemma loop_exit_closes_all_witness :
  exists m', loopBody quietMenv (inl EOF) openedMux = Done false m' /\ Wait m' = Done EOF m'.
Proof.
  destruct (loop_exit_closes_all 0 openedMux quietMenv EOF) as (m' & H & _ & _ & _ & _ & _ & _ & Hw).
  - apply openedMux_reachable.
  - reflexivity.
  - reflexivity.
  - exists m'. split; assumption.
Defined.

(** [a] knows its peer [b]: it sends to its identifier, and its limits are the
    ones [b] enforces. *)
Definition knows (a b : channel) : Prop :=
  ch_remoteId a = ch_localId b /\ ch_maxRemotePayload a = ch_maxIncomingPayload b /\
  win (ch_remoteWin a) = ch_myWindow b /\ ch_decided a = true.

(** opening a channel connects the two ends.  Between two running muxes
    whose connection delivers the packets, [openChannel] at the client, the
    loop and [Accept] at the server, and the confirmation at the client all
    succeed; the server gets the channel with the type and extra data the
    client gave; afterwards each end sends to the other's identifier, and each
    end's send window and payload limit are exactly what the other end
    enforces on what it receives. *)
Theorem open_handshake (oc os : Z) (mc ms : mux) (env : Menv) (t x : bytes) :
  mreachable oc mc -> mreachable os ms -> mx_err ms = None -> room mc -> room ms -> calm env ->
  zlen t + zlen x + 30 < 2 ^ 32 -> zlen (gq (mx_incomingChannels ms)) < chanSize ->
  exists p q pk cf mc1 ms1 ms2 mc2 mc3 cc cs,
    openChannelSend env t x mc = Done (inr p) mc1 /\ mx_sent mc1 = mx_sent mc ++ [pk] /\
    onePacket env (inr pk) ms = Done None ms1 /\
    gq (mx_incomingChannels ms1) = gq (mx_incomingChannels ms) ++ [q] /\
    onChan q (Accept (me_env env)) ms1 = Done None ms2 /\ mx_sent ms2 = mx_sent ms1 ++ [cf] /\
    onePacket env (inr cf) mc1 = Done None mc2 /\
    openChannelWait env p mc2 = Done (inr p) mc3 /\
    mx_heap mc3 !! p = Some cc /\ mx_heap ms2 !! q = Some cs /\
    ch_chanType cs = t /\ ch_extraData cs = x /\ knows cc cs /\ knows cs cc.
Proof.
  intros Hmc%mreachable_inv Hms%mreachable_inv Hes Hrc Hrs Hcalm Hl Hq.
  destruct (openChannelSend_calm env t x mc Hcalm Hmc Hrc) as (i & mc1 & E1 & Hi & Hlen1 & Hli & Ho & Hp & Hs1).
  set (id := slotId (mx_offset mc) i) in *.
  assert (Hid : 0 <= id < 2 ^ 32) by apply u32_range.
  destruct (onePacket_open env t x id ms Hcalm (conj Hms Hes) Hrs Hl Hid Hq) as (myId & ms1 & E2 & Hmy & Hq1 & Hh1 & Hs2).
  destruct (Accept_calm env (inChannel t x id myId) Hcalm eq_refl eq_refl eq_refl)
    as (cs & E3 & A1 & A2 & A3 & A4 & A5 & A6 & A7 & A8 & A9).
  pose proof (handlePacket_confirm env t x id myId Hcalm Hid Hmy) as E4.
  assert (E5 : onePacket env (inr (confirmPacket id myId)) mc1
               = Done None (writeBack (mx_next mc)
                   (mkCstate (confirmedChannel (env_now (me_env env)) t x id myId) [] []) mc1)).
  { rewrite <- (onChan_run _ _ _ mc1 _ _ Hp E4). unfold confirmPacket at 1.
    rewrite (onePacket_listed _ _ _ i (mx_next mc)); try done.
    rewrite Ho. by apply confirmPacket_id. }
  set (c1 := confirmedChannel (env_now (me_env env)) t x id myId) in *.
  set (mc2 := writeBack (mx_next mc) (mkCstate c1 [] []) mc1) in *.
  assert (Hp2 : mx_heap mc2 !! mx_next mc = Some c1) by (simpl; by rewrite lookup_insert_eq).
  assert (E6 : openChannelWait env (mx_next mc) mc2 = Done (inr (mx_next mc)) (writeBack (mx_next mc)
    (mkCstate (set_msg (mkGochan [] false) c1) [] []) (writeBack (mx_next mc) (mkCstate c1 [] []) mc2))).
  { unfold openChannelWait, bind at 1. rewrite (onChan_run _ c1 get mc2 c1 (mkCstate c1 [] []) Hp2 eq_refl).
    rewrite (calm_notStopped _ Hcalm). cbn [andb gq ch_msg c1 confirmedChannel set_msg]. unfold bind at 1.
    erewrite (onChan_run _ c1); [reflexivity | simpl; by rewrite lookup_insert_eq | reflexivity]. }
  eexists (mx_next mc), (mx_next ms), (openMsgPacket t x id), (confirmPacket id myId), mc1, ms1, _, mc2, _,
    (set_msg (mkGochan [] false) c1), cs.
  split_and!; [exact E1 | exact Hs1 | exact E2 | exact Hq1 | exact (onChan_run _ _ _ _ _ _ Hh1 E3)
    | reflexivity | exact E5 | exact E6 | simpl; apply lookup_insert_eq | simpl; apply lookup_insert_eq
    | done | done | | ].
  - unfold knows. by rewrite A2, A4, A5.
  - unfold knows. by rewrite A1, A3, A6, A7.
Qed.

Lemma open_handshake_witness :
  exists p q cc cs mc3 ms2, mx_heap mc3 !! p = Some cc /\ mx_heap ms2 !! q = Some cs /\ knows cc cs /\ knows cs cc.
Proof.
  destruct (open_handshake 0 0 (newMux 0) (newMux 0) quietMenv (str "session") (str "x"))
    as (p & q & pk & cf & mc1 & ms1 & ms2 & mc2 & mc3 & cc & cs & H1 & _ & _ & H2 & _ & _ & _ & _ & H3 & H4 & _ & _ & H5 & H6);
    [constructor | constructor | reflexivity | decide_vm | decide_vm | by split_and! | decide_vm | decide_vm |].
  exists p, q, cc, cs, mc3, ms2. split_and!; assumption.
Defined.
