(* ===== verification/Cipher.v ===== *)
(** * Packet ciphers (cipher.go, mac.go)

    The binary packet protocol: [streamPacketCipher] (stream ciphers, with the
    MAC over the plaintext or over the ciphertext), [gcmCipher] and [cbcCipher],
    each as its [readPacket] and [writePacket].

    The primitives are not code of this repository and are parameters: a stream
    cipher is its key stream and a position in it ([cipher.Stream]: each byte is
    XORed with the next byte of the key stream), a MAC is a function of the
    bytes written to it since [Reset], an AEAD is a pair of functions, a block
    mode is a stateful function on whole blocks.  What a writer and a reader
    rely on is stated as hypotheses in the sections of the theorems.

    A reader is the bytes still to come, a writer the bytes written so far and
    possibly a failure to come; the buffers kept to avoid allocations are left
    out.  Reading returns the result, the new state and the rest of the input. *)

From S2P Require Import Prelude Wire Negotiate.

Definition packetSizeMultiple : Z := 16.
Definition maxPacket : Z := 256 * 1024.
Definition prefixLen : Z := 5.

(** ** Readers and writers *)

(** [io.ReadFull] of [n] bytes, and what is left. *)
Definition readFull (n : Z) (r : bytes) : outcome bytes * bytes :=
  if n <=? zlen r then (Ret (ztake n r), zdrop n r)
  else match r with
       | [] => (Fail EOF, [])
       | _ => (Fail ErrUnexpectedEOF, [])
       end.

(** A writer that may fail after some more calls. *)
Record writer := mkWriter {
  w_out : bytes;
  w_fail : option (nat * error)
}.

Definition wwrite (data : bytes) (w : writer) : outcome writer :=
  match w_fail w with
  | None => Ret (mkWriter (w_out w ++ data) None)
  | Some (O, e) => Fail e
  | Some (S n, e) => Ret (mkWriter (w_out w ++ data) (Some (n, e)))
  end.

(** ** Stream ciphers *)

Definition bxor (a b : byte) : byte := z2b (Z.lxor (b2z a) (b2z b)).

(** A [cipher.Stream]: the key stream and the position reached. *)
Record stream := mkStream {
  st_key : Z -> byte;
  st_pos : Z
}.

Fixpoint xorAt (key : Z -> byte) (pos : Z) (src : bytes) : bytes :=
  match src with
  | [] => []
  | b :: src' => bxor b (key pos) :: xorAt key (pos + 1) src'
  end.

Definition XORKeyStream (src : bytes) (c : stream) : bytes * stream :=
  (xorAt (st_key c) (st_pos c) src, mkStream (st_key c) (st_pos c + zlen src)).

(** [noneCipher] copies its input. *)
Definition noneCipher : stream := mkStream (fun _ => "000"%byte) 0.

(** The loop that discards the first [skip] bytes of the key stream, at most
    512 at a time; [fuel] bounds its rounds. *)
Fixpoint dumpLoop (fuel : nat) (remainingToDump : Z) (c : stream) : stream :=
  match fuel with
  | O => c
  | S fuel' =>
      if 0 <? remainingToDump then
        let dumpThisTime := if 512 <? remainingToDump then 512 else remainingToDump in
        dumpLoop fuel' (remainingToDump - dumpThisTime)
          (XORKeyStream (replicate (Z.to_nat dumpThisTime) "000"%byte) c).2
      else c
  end.

(** [createStream]; [createFunc] is the mode's constructor, [newAESCTR] or
    [newRC4], which wrap the library's. *)
Definition createStream (createFunc : bytes -> bytes -> outcome stream) (m : streamCipherMode)
    (key iv : bytes) : outcome stream :=
  if zlen key <? cm_keySize m then Panic "ssh: key length too small for cipher"
  else if zlen iv <? cm_ivSize m then Panic "ssh: iv too small for cipher"
  else
    let? c := createFunc (ztake (cm_keySize m) key) (ztake (cm_ivSize m) iv) in
    Ret (dumpLoop (Z.to_nat (cm_skip m)) (cm_skip m) c).

(** ** MACs *)

(** A keyed [hash.Hash]: its size and the sum of what was written since
    [Reset]. *)
Record hash := mkHash {
  h_size : Z;
  h_sum : bytes -> bytes
}.

(** [truncatingMAC]; slicing beyond the sum panics. *)
Definition truncatingMAC (length : Z) (h : hash) : hash :=
  mkHash length (fun d => ztake length (h_sum h d)).

(** ** The packet cipher of stream ciphers *)

Record streamPacketCipher := mkSPC {
  spc_mac : option hash;
  spc_cipher : stream;
  spc_etm : bool
}.

Definition set_cipher (c : stream) (s : streamPacketCipher) : streamPacketCipher :=
  mkSPC (spc_mac s) c (spc_etm s).

(** [s.mac != nil && s.etm]. *)
Definition etmMode (s : streamPacketCipher) : bool :=
  match spc_mac s with Some _ => spc_etm s | None => false end.

Definition macSize (s : streamPacketCipher) : Z :=
  match spc_mac s with Some h => u32 (h_size h) | None => 0 end.

Definition cryptPrefix (etm : bool) (prefix : bytes) (c : stream) : bytes * stream :=
  if etm then
    let '(b, c) := XORKeyStream (zdrop 4 prefix) c in (ztake 4 prefix ++ b, c)
  else XORKeyStream prefix c.

Definition spc_readPacket (seqNum : Z) (r : bytes) (s : streamPacketCipher)
  : outcome bytes * streamPacketCipher * bytes :=
  match readFull prefixLen r with
  | (Fail e, r) => (Fail e, s, r)
  | (Panic w, r) => (Panic w, s, r)
  | (Ret prefix0, r) =>
      let encryptedPaddingLength := zdrop 4 prefix0 in
      let '(prefix, c) := cryptPrefix (etmMode s) prefix0 (spc_cipher s) in
      let s := set_cipher c s in
      let length := be_decode (ztake 4 prefix) in
      let paddingLength := be_decode (zdrop 4 prefix) in
      let macHead := be_encode 4 seqNum ++
        (if spc_etm s then ztake 4 prefix ++ encryptedPaddingLength else prefix) in
      if length <=? u32 (paddingLength + 1) then
        (Fail (errNew "ssh: invalid packet length, packet too small"), s, r)
      else if maxPacket <? length then
        (Fail (errNew "ssh: invalid packet length, packet too large"), s, r)
      else
        match readFull (u32 (length - 1 + macSize s)) r with
        | (Fail e, r) => (Fail e, s, r)
        | (Panic w, r) => (Panic w, s, r)
        | (Ret packetData, r) =>
            let mac := zdrop (length - 1) packetData in
            let data := ztake (length - 1) packetData in
            let '(plain, c) := XORKeyStream data (spc_cipher s) in
            let s := set_cipher c s in
            let good :=
              match spc_mac s with
              | Some h => bool_decide (h_sum h (macHead ++ (if spc_etm s then data else plain)) = mac)
              | None => true
              end in
            if good then (Ret (ztake (u32 (length - paddingLength - 1)) plain), s, r)
            else (Fail (errNew "ssh: MAC failure"), s, r)
        end
  end.

(** The padding of a packet of [n] bytes of which [aadlen] stay in the clear. *)
Definition spc_padding (n aadlen : Z) : Z :=
  let p := packetSizeMultiple - (prefixLen + n - aadlen) mod packetSizeMultiple in
  if p <? 4 then p + packetSizeMultiple else p.

(** Also returns what is left of the random source. *)
Definition spc_writePacket (seqNum : Z) (w : writer) (rand : bytes) (packet : bytes) (s : streamPacketCipher)
  : outcome (writer * streamPacketCipher * bytes) :=
  if maxPacket <? zlen packet then Fail (errNew "ssh: packet too large")
  else
    let aadlen := if etmMode s then 4 else 0 in
    let paddingLength := spc_padding (zlen packet) aadlen in
    let length := zlen packet + 1 + paddingLength in
    let prefix := be_encode 4 (u32 length) ++ [z2b paddingLength] in
    let '(rd, rand) := readFull paddingLength rand in
    let? padding := rd in
    let seqNumBytes := be_encode 4 seqNum in
    let '(xprefix, c) := cryptPrefix (etmMode s) prefix (spc_cipher s) in
    let '(xpacket, c) := XORKeyStream packet c in
    let '(xpadding, c) := XORKeyStream padding c in
    let? w := wwrite xprefix w in
    let? w := wwrite xpacket w in
    let? w := wwrite xpadding w in
    let? w :=
      match spc_mac s with
      | None => Ret w
      | Some h =>
          wwrite (h_sum h (seqNumBytes ++
                    (if spc_etm s then xprefix ++ xpacket ++ xpadding
                     else prefix ++ packet ++ padding))) w
      end in
    Ret (w, set_cipher c s, rand).

(** ** AES-GCM *)

Definition gcmTagSize : Z := 16.

(** A [cipher.AEAD]: nonce, text and additional data. *)
Record aead := mkAEAD {
  a_seal : bytes -> bytes -> bytes -> bytes;
  a_open : bytes -> bytes -> bytes -> outcome bytes
}.

Record gcmCipher := mkGCM {
  gcm_aead : aead;
  gcm_iv : bytes
}.

Definition set_iv (iv : bytes) (c : gcmCipher) : gcmCipher := mkGCM (gcm_aead c) iv.

(** The loop of [incIV] from index [i] down to 4, [n] rounds left: increment,
    and carry on a wrap to zero.  An index beyond the slice panics. *)
Fixpoint incIV_loop (n : nat) (i : nat) (iv : bytes) : outcome bytes :=
  match n with
  | O => Ret iv
  | S n' =>
      match iv !! i with
      | None => Panic "index out of range"
      | Some b =>
          let b' := z2b (b2z b + 1) in
          let iv' := <[i := b']> iv in
          if b2z b' =? 0 then incIV_loop n' (i - 1) iv' else Ret iv'
      end
  end.

Definition incIV (iv : bytes) : outcome bytes := incIV_loop 8 (4 + 7) iv.

(** The padding of a packet of [n] bytes. *)
Definition gcm_padding (n : Z) : Z :=
  let p := u8 (packetSizeMultiple - (1 + n) mod packetSizeMultiple) in
  if p <? 4 then u8 (p + packetSizeMultiple) else p.

Definition gcm_writePacket (seqNum : Z) (w : writer) (rand : bytes) (packet : bytes) (c : gcmCipher)
  : outcome (writer * gcmCipher * bytes) :=
  let padding := gcm_padding (zlen packet) in
  let length := u32 (zlen packet + padding + 1) in
  let prefix := be_encode 4 length in
  let? w := wwrite prefix w in
  let '(rd, rand) := readFull (length - (1 + zlen packet)) rand in
  let? pad := rd in
  let buf := a_seal (gcm_aead c) (gcm_iv c) (z2b padding :: packet ++ pad) prefix in
  let? w := wwrite buf w in
  let? iv := incIV (gcm_iv c) in
  Ret (w, set_iv iv c, rand).

Definition gcm_readPacket (seqNum : Z) (r : bytes) (c : gcmCipher) : outcome bytes * gcmCipher * bytes :=
  match readFull 4 r with
  | (Fail e, r) => (Fail e, c, r)
  | (Panic w, r) => (Panic w, c, r)
  | (Ret prefix, r) =>
      let length := be_decode prefix in
      if maxPacket <? length then (Fail (errNew "ssh: max packet length exceeded."), c, r)
      else
        match readFull (u32 (length + gcmTagSize)) r with
        | (Fail e, r) => (Fail e, c, r)
        | (Panic w, r) => (Panic w, c, r)
        | (Ret buf, r) =>
            match a_open (gcm_aead c) (gcm_iv c) buf prefix with
            | Fail e => (Fail e, c, r)
            | Panic w => (Panic w, c, r)
            | Ret plain =>
                match incIV (gcm_iv c) with
                | Fail e => (Fail e, c, r)
                | Panic w => (Panic w, c, r)
                | Ret iv =>
                    let c := set_iv iv c in
                    match plain with
                    | [] => (Panic "index out of range", c, r)
                    | p0 :: _ =>
                        let padding := b2z p0 in
                        if padding <? 4 then (Fail (Errorf "ssh: illegal padding %d" [FNum padding]), c, r)
                        else if zlen plain <=? u8 (padding + 1) then
                          (Fail (Errorf "ssh: padding %d too large" [FNum padding]), c, r)
                        else
                          let hi := u32 (length - padding) in
                          if (hi <? 1) || (zlen plain <? hi) then
                            (Panic "slice bounds out of range", c, r)
                          else (Ret (zdrop 1 (ztake hi plain)), c, r)
                    end
                end
            end
        end
  end.

(** ** CBC *)

Definition cbcMinPacketSizeMultiple : Z := 8.
Definition cbcMinPacketSize : Z := 16.
Definition cbcMinPaddingSize : Z := 4.

Definition maxUInt32 (a b : Z) : Z := if b <? a then u32 a else u32 b.

(** A [cipher.BlockMode]: its block size, its state, and [CryptBlocks]. *)
Record blockMode := mkBlockMode {
  bm_blockSize : Z;
  bm_crypt : bytes -> bytes -> bytes * bytes;
  bm_state : bytes
}.

Definition CryptBlocks (src : bytes) (m : blockMode) : bytes * blockMode :=
  let '(dst, st) := bm_crypt m (bm_state m) src in (dst, mkBlockMode (bm_blockSize m) (bm_crypt m) st).

Record cbcCipher := mkCBC {
  cbc_mac : option hash;
  cbc_macSize : Z;
  cbc_decrypter : blockMode;
  cbc_encrypter : blockMode;
  cbc_oracleCamouflage : Z
}.

Definition newCBCCipher (dec enc : blockMode) (mac : option hash) : cbcCipher :=
  mkCBC mac (match mac with Some h => u32 (h_size h) | None => 0 end) dec enc 0.

Definition set_decrypter (m : blockMode) (c : cbcCipher) : cbcCipher :=
  mkCBC (cbc_mac c) (cbc_macSize c) m (cbc_encrypter c) (cbc_oracleCamouflage c).
Definition set_encrypter (m : blockMode) (c : cbcCipher) : cbcCipher :=
  mkCBC (cbc_mac c) (cbc_macSize c) (cbc_decrypter c) m (cbc_oracleCamouflage c).
Definition set_camouflage (n : Z) (c : cbcCipher) : cbcCipher :=
  mkCBC (cbc_mac c) (cbc_macSize c) (cbc_decrypter c) (cbc_encrypter c) n.

(** The verification errors, which [readPacket] disguises. *)
Definition cbcError (text : string) : error := Errorf text [FStr (str "cbcError")].

Definition isCbcError (e : error) : bool :=
  match e with Errorf _ args => bool_decide (args = [FStr (str "cbcError")]) | _ => false end.

Definition firstBlockLength (blockSize : Z) : Z :=
  u32 ((prefixLen + blockSize - 1) / blockSize * blockSize).

Definition cbc_readPacketLeaky (seqNum : Z) (r : bytes) (c : cbcCipher) : outcome bytes * cbcCipher * bytes :=
  let blockSize := bm_blockSize (cbc_decrypter c) in
  let fbl := firstBlockLength blockSize in
  match readFull fbl r with
  | (Fail e, r) => (Fail e, c, r)
  | (Panic w, r) => (Panic w, c, r)
  | (Ret firstBlock, r) =>
      let c := set_camouflage (u32 (maxPacket + 4 + cbc_macSize c - fbl)) c in
      let '(firstBlock, dec) := CryptBlocks firstBlock (cbc_decrypter c) in
      let c := set_decrypter dec c in
      let length := be_decode (ztake 4 firstBlock) in
      if maxPacket <? length then (Fail (cbcError "ssh: packet too large"), c, r)
      else if u32 (length + 4) <? maxUInt32 cbcMinPacketSize blockSize then
        (Fail (cbcError "ssh: packet too small"), c, r)
      else if negb (u32 (length + 4) mod maxUInt32 cbcMinPacketSizeMultiple blockSize =? 0) then
        (Fail (cbcError "ssh: invalid packet length multiple"), c, r)
      else
        let paddingLength := be_decode (ztake 1 (zdrop 4 firstBlock)) in
        if (paddingLength <? cbcMinPaddingSize) || (length <=? u32 (paddingLength + 1)) then
          (Fail (cbcError "ssh: invalid packet length"), c, r)
        else
          let macStart := u32 (4 + length) in
          let paddingStart := u32 (macStart - paddingLength) in
          let entirePacketSize := u32 (macStart + cbc_macSize c) in
          if entirePacketSize <? fbl then (Panic "slice bounds out of range", c, r)
          else
            match readFull (entirePacketSize - fbl) r with
            | (Fail e, r) => (Fail e, c, r)
            | (Panic w, r) => (Panic w, c, r)
            | (Ret rest, r) =>
                let c := set_camouflage (u32 (cbc_oracleCamouflage c - u32 (zlen rest))) c in
                if macStart <? fbl then (Panic "slice bounds out of range", c, r)
                else
                  let '(more, dec) := CryptBlocks (ztake (macStart - fbl) rest) (cbc_decrypter c) in
                  let c := set_decrypter dec c in
                  let mac := zdrop (macStart - fbl) rest in
                  let packetData := firstBlock ++ more in
                  let good :=
                    match cbc_mac c with
                    | Some h => bool_decide (h_sum h (be_encode 4 seqNum ++ packetData) = mac)
                    | None => true
                    end in
                  if good then (Ret (zdrop prefixLen (ztake paddingStart packetData)), c, r)
                  else (Fail (cbcError "ssh: MAC failure"), c, r)
            end
  end.

(** On a verification error, read on so that what failed does not show. *)
Definition cbc_readPacket (seqNum : Z) (r : bytes) (c : cbcCipher) : outcome bytes * cbcCipher * bytes :=
  let '(res, c, r) := cbc_readPacketLeaky seqNum r c in
  match res with
  | Fail e => if isCbcError e then (res, c, zdrop (cbc_oracleCamouflage c) r) else (res, c, r)
  | _ => (res, c, r)
  end.

Definition cbc_encLength (n effectiveBlockSize : Z) : Z :=
  let encLength := maxUInt32 (prefixLen + n + cbcMinPaddingSize) cbcMinPaddingSize in
  u32 (u32 (encLength + effectiveBlockSize - 1) / effectiveBlockSize * effectiveBlockSize).

Definition cbc_writePacket (seqNum : Z) (w : writer) (rand : bytes) (packet : bytes) (c : cbcCipher)
  : outcome (writer * cbcCipher * bytes) :=
  let effectiveBlockSize := maxUInt32 cbcMinPacketSizeMultiple (bm_blockSize (cbc_encrypter c)) in
  let encLength := cbc_encLength (zlen packet) effectiveBlockSize in
  let length := u32 (encLength - 4) in
  let paddingLength := length - (1 + zlen packet) in
  let header := be_encode 4 length ++ [z2b paddingLength] in
  let '(rd, rand) := readFull (encLength - (prefixLen + zlen packet)) rand in
  let? padding := rd in
  let plain := header ++ packet ++ padding in
  let tag :=
    match cbc_mac c with
    | Some h => h_sum h (be_encode 4 seqNum ++ plain)
    | None => []
    end in
  let '(xplain, enc) := CryptBlocks plain (cbc_encrypter c) in
  let? w := wwrite (xplain ++ tag) w in
  Ret (w, set_encrypter enc c, rand).
