(* ===== verification/CipherFacts.v ===== *)
(** * Packet ciphers: framing, round trips, authenticity

    [PacketCipher] is the interface the transport uses (transport.go,
    [packetCipher]); [LawfulCipher] is what it promises: what a writer produces,
    the reader paired with it reads back, leaving the rest of the input and a
    pair of new states.  The three packet ciphers are instances. *)

From S2P Require Import Prelude Wire Cipher.

(** ** The interface *)

Class PacketCipher (C : Type) := {
  writePacket : Z -> writer -> bytes -> bytes -> C -> outcome (writer * C * bytes);
  readPacket : Z -> bytes -> C -> outcome bytes * C * bytes
}.

(** Payloads every packet cipher carries: not empty, and with room for the
    padding below [maxPacket]. *)
Definition payload_ok (p : bytes) : Prop := 0 < zlen p <= maxPacket - 20.

Class LawfulCipher (C : Type) `{PacketCipher C} := {
  paired : C -> C -> Prop;
  cipher_roundtrip seq w rand p cw cr w' cw' rand' :
    paired cw cr -> payload_ok p -> 0 <= seq < 2 ^ 32 ->
    writePacket seq w rand p cw = Ret (w', cw', rand') ->
    exists frame cr', w_out w' = w_out w ++ frame /\ paired cw' cr' /\
      forall rest, readPacket seq (frame ++ rest) cr = (Ret p, cr', rest)
}.

(** ** Readers and writers *)

Lemma readFull_app n a rest : n = zlen a -> readFull n (a ++ rest) = (Ret a, rest).
Proof.
  intros ->. unfold readFull. rewrite zlen_app. pose proof (zlen_nonneg rest).
  rewrite (proj2 (Z.leb_le _ _)) by lia. by rewrite ztake_app_zlen, zdrop_app_zlen.
Qed.

Lemma readFull_ret n r a rest : 0 <= n -> readFull n r = (Ret a, rest) -> r = a ++ rest /\ zlen a = n.
Proof.
  unfold readFull. intros Hn H. destruct (n <=? zlen r) eqn:E; [|by destruct r]. b2p.
  injection H as <- <-. rewrite ztake_zdrop. split; [done|]. by rewrite zlen_ztake.
Qed.

Lemma readFull_not_panic n r w rest : readFull n r <> (Panic w, rest).
Proof. unfold readFull. destruct (_ <=? _); [done|]. by destruct r. Qed.

Lemma wwrite_ret d w w' : wwrite d w = Ret w' -> w_out w' = w_out w ++ d.
Proof. unfold wwrite. destruct (w_fail w) as [[[|n] e]|]; intros; by simplify_eq. Qed.

(** ** Key streams *)

Lemma lxor_range a b : 0 <= a < 256 -> 0 <= b < 256 -> 0 <= Z.lxor a b < 256.
Proof.
  intros Ha Hb. assert (H0 : 0 <= Z.lxor a b) by (apply Z.lxor_nonneg; lia). split; [done|].
  destruct (Z.eq_dec (Z.lxor a b) 0) as [->|Hne]; [lia|].
  apply Z.log2_lt_pow2 with (b := 8); [lia|].
  pose proof (Z.log2_lxor a b ltac:(lia) ltac:(lia)).
  assert (Z.log2 a < 8) by (destruct (Z.eq_dec a 0); [subst; simpl; lia | apply Z.log2_lt_pow2; lia]).
  assert (Z.log2 b < 8) by (destruct (Z.eq_dec b 0); [subst; simpl; lia | apply Z.log2_lt_pow2; lia]).
  lia.
Qed.

Lemma bxor_involutive a k : bxor (bxor a k) k = a.
Proof.
  unfold bxor. rewrite b2z_z2b_small by (apply lxor_range; apply b2z_range).
  rewrite Z.lxor_assoc, Z.lxor_nilpotent, Z.lxor_0_r. apply z2b_b2z.
Qed.

Lemma xorAt_zlen key pos l : zlen (xorAt key pos l) = zlen l.
Proof. revert pos. induction l; intros; simpl; [done|]. by rewrite !zlen_cons, IHl. Qed.

Lemma xorAt_app key pos a b : xorAt key pos (a ++ b) = xorAt key pos a ++ xorAt key (pos + zlen a) b.
Proof.
  revert pos. induction a as [|x a IH]; intros pos; simpl; [by rewrite zlen_nil, Z.add_0_r|].
  rewrite IH, zlen_cons. do 3 f_equal. lia.
Qed.

Lemma xorAt_involutive key pos l : xorAt key pos (xorAt key pos l) = l.
Proof. revert pos. induction l; intros; simpl; [done|]. by rewrite bxor_involutive, IHl. Qed.

#[export] Hint Rewrite xorAt_zlen : ssh_len.

(** Decrypting what was encrypted at the same position. *)
Lemma XORKeyStream_inverse src c dst c' :
  XORKeyStream src c = (dst, c') -> XORKeyStream dst c = (src, c').
Proof. unfold XORKeyStream. intros [= <- <-]. by rewrite xorAt_involutive, xorAt_zlen. Qed.

Lemma XORKeyStream_zlen src c dst c' : XORKeyStream src c = (dst, c') -> zlen dst = zlen src.
Proof. unfold XORKeyStream. intros [= <- <-]. apply xorAt_zlen. Qed.

(** Several calls behave as one on the concatenation. *)
Lemma XORKeyStream_app a b c x c1 y c2 :
  XORKeyStream a c = (x, c1) -> XORKeyStream b c1 = (y, c2) -> XORKeyStream (a ++ b) c = (x ++ y, c2).
Proof.
  unfold XORKeyStream. intros [= <- <-] [= <- <-]. simpl. rewrite xorAt_app, zlen_app. do 2 f_equal. lia.
Qed.

Lemma cryptPrefix_inverse etm p c x c' :
  zlen p = 5 -> cryptPrefix etm p c = (x, c') -> cryptPrefix etm x c = (p, c') /\ zlen x = 5 /\
    (etm = true -> ztake 4 x = ztake 4 p).
Proof.
  intros Hp. unfold cryptPrefix. destruct etm.
  - destruct (XORKeyStream (zdrop 4 p) c) as [b c1] eqn:E. intros [= <- <-].
    assert (H4 : zlen (ztake 4 p) = 4) by (apply zlen_ztake; lia).
    rewrite zdrop_app, ztake_app by done. rewrite (XORKeyStream_inverse _ _ _ _ E).
    rewrite ztake_zdrop, zlen_app, (XORKeyStream_zlen _ _ _ _ E), zlen_zdrop by lia. split_and!; done || lia.
  - intros E. rewrite (XORKeyStream_inverse _ _ _ _ E), (XORKeyStream_zlen _ _ _ _ E). done.
Qed.

(** ** Stream ciphers *)

#[export] Instance spc_packetCipher : PacketCipher streamPacketCipher := {|
  writePacket := spc_writePacket;
  readPacket := spc_readPacket
|}.

(** A MAC whose sums have the announced size. *)
Definition hash_ok (h : hash) : Prop :=
  0 <= h_size h < 2 ^ 16 /\ forall d, zlen (h_sum h d) = h_size h.

Definition mac_ok (m : option hash) : Prop := forall h, m = Some h -> hash_ok h.

Lemma spc_padding_spec n aadlen :
  0 <= n -> aadlen = 0 \/ aadlen = 4 ->
  4 <= spc_padding n aadlen <= 19 /\ (prefixLen + n - aadlen + spc_padding n aadlen) mod 16 = 0.
Proof.
  intros Hn Ha. unfold spc_padding, prefixLen, packetSizeMultiple.
  destruct (_ <? 4) eqn:E; b2p; split; dlia.
Qed.

(** What [writePacket] puts on the wire. *)
Lemma spc_write_frame seq w rand p s w' s' rand' :
  spc_writePacket seq w rand p s = Ret (w', s', rand') ->
  exists padding xprefix c1 xbody c2,
    let n := spc_padding (zlen p) (if etmMode s then 4 else 0) in
    let prefix := be_encode 4 (u32 (zlen p + 1 + n)) ++ [z2b n] in
    zlen padding = n /\ rand = padding ++ rand' /\
    cryptPrefix (etmMode s) prefix (spc_cipher s) = (xprefix, c1) /\
    XORKeyStream (p ++ padding) c1 = (xbody, c2) /\ s' = set_cipher c2 s /\
    w_out w' = w_out w ++ xprefix ++ xbody ++
      match spc_mac s with
      | None => []
      | Some h => h_sum h (be_encode 4 seq ++ (if spc_etm s then xprefix ++ xbody else prefix ++ p ++ padding))
      end.
Proof.
  unfold spc_writePacket. destruct (maxPacket <? zlen p); [done|]. intros H. cbv zeta in H.
  set (n := spc_padding _ _) in *. set (prefix := be_encode 4 _ ++ _) in *.
  destruct (readFull n rand) as [rd rand1] eqn:Er. destruct rd as [padding| |]; try done. cbn [obind] in H.
  apply readFull_ret in Er as [-> Hpad]; [|unfold n; pose proof (zlen_nonneg p);
    destruct (spc_padding_spec (zlen p) (if etmMode s then 4 else 0)); destruct (etmMode s); auto; lia].
  destruct (cryptPrefix _ prefix _) as [xprefix c1] eqn:Ec.
  destruct (XORKeyStream p c1) as [xpacket c2] eqn:E1. destruct (XORKeyStream padding c2) as [xpadding c3] eqn:E2.
  destruct (wwrite xprefix w) as [w1| |] eqn:W1; try done. cbn [obind] in H.
  destruct (wwrite xpacket w1) as [w2| |] eqn:W2; try done. cbn [obind] in H.
  destruct (wwrite xpadding w2) as [w3| |] eqn:W3; try done. cbn [obind] in H.
  apply wwrite_ret in W1, W2, W3.
  exists padding, xprefix, c1, (xpacket ++ xpadding), c3. rewrite (XORKeyStream_app _ _ _ _ _ _ _ E1 E2).
  destruct (spc_mac s) as [h|] eqn:Em.
  - destruct (wwrite _ w3) as [w4| |] eqn:W4; try done. cbn [obind] in H. injection H as <- <- <-.
    apply wwrite_ret in W4. split_and!; try done. rewrite W4, W3, W2, W1, <- !app_assoc. by destruct (spc_etm s).
  - cbn [obind] in H. injection H as <- <- <-. split_and!; try done. by rewrite W3, W2, W1, app_nil_r, <- !app_assoc.
Qed.

Definition spc_paired (cw cr : streamPacketCipher) : Prop := cw = cr /\ mac_ok (spc_mac cw).

Lemma be_decode_single b : be_decode [b] = b2z b.
Proof. unfold be_decode. simpl. lia. Qed.

(** The MAC's input is the same at both ends. *)
Lemma spc_mac_input s seq prefix xprefix xbody body h :
  spc_mac s = Some h -> (etmMode s = true -> ztake 4 xprefix = ztake 4 prefix) ->
  (be_encode 4 seq ++ (if spc_etm s then ztake 4 prefix ++ zdrop 4 xprefix else prefix)) ++
    (if spc_etm s then xbody else body)
  = be_encode 4 seq ++ (if spc_etm s then xprefix ++ xbody else prefix ++ body).
Proof.
  intros Hm He. unfold etmMode in He. rewrite Hm in He. rewrite <- !app_assoc. f_equal.
  destruct (spc_etm s); [|done]. by rewrite <- (He eq_refl), ztake_zdrop.
Qed.

Lemma spc_roundtrip seq w rand p s w' s' rand' :
  mac_ok (spc_mac s) -> payload_ok p ->
  spc_writePacket seq w rand p s = Ret (w', s', rand') ->
  exists frame, w_out w' = w_out w ++ frame /\
    forall rest, spc_readPacket seq (frame ++ rest) s = (Ret p, s', rest).
Proof.
  intros Hmac [Hp Hmax] H. unfold maxPacket in Hmax.
  apply spc_write_frame in H as (padding & xprefix & c1 & xbody & c2 & Hpad & _ & Ec & Ex & -> & Hout).
  set (n := spc_padding _ _) in *. set (prefix := be_encode 4 _ ++ _) in *.
  assert (Hn : 4 <= n <= 19).
  { unfold n. apply spc_padding_spec; [lia|]. destruct (etmMode s); auto. }
  eexists. split; [exact Hout|]. intros rest.
  assert (Hp5 : zlen prefix = 5) by (unfold prefix; by rewrite zlen_app, zlen_be_encode).
  destruct (cryptPrefix_inverse _ _ _ _ _ Hp5 Ec) as (Ed & Hx5 & Hx4).
  pose proof (XORKeyStream_inverse _ _ _ _ Ex) as Edx. pose proof (XORKeyStream_zlen _ _ _ _ Ex) as Hbody.
  rewrite zlen_app, Hpad in Hbody.
  unfold spc_readPacket. rewrite <- app_assoc, readFull_app by done. rewrite Ed. cbv zeta.
  assert (Hlen : be_decode (ztake 4 prefix) = zlen p + 1 + n).
  { unfold prefix. rewrite ztake_app by done. rewrite u32_small by lia. apply be_decode_encode_small. simpl. lia. }
  assert (Hpl : be_decode (zdrop 4 prefix) = n).
  { unfold prefix. rewrite zdrop_app by done. rewrite be_decode_single. apply b2z_z2b_small. lia. }
  rewrite Hlen, Hpl, (u32_small (n + 1)) by lia.
  rewrite (proj2 (Z.leb_gt _ _)), (proj2 (Z.ltb_ge _ _)) by (unfold maxPacket; lia).
  cbn [set_cipher spc_mac spc_cipher spc_etm]. unfold macSize. cbn [set_cipher spc_mac].
  set (tag := match spc_mac s with Some _ => _ | None => _ end) in *.
  assert (Htag : zlen tag = match spc_mac s with Some h => u32 (h_size h) | None => 0 end).
  { unfold tag. destruct (spc_mac s) as [h|] eqn:Eh; [|done]. destruct (Hmac h eq_refl) as [Hs Hz].
    rewrite Hz, u32_small; lia. }
  assert (Htag16 : 0 <= zlen tag < 2 ^ 16).
  { rewrite Htag. destruct (spc_mac s) as [h|] eqn:Eh; [|lia]. destruct (Hmac h eq_refl) as [Hs _]. rewrite u32_small; lia. }
  rewrite <- Htag, (u32_small (zlen p + 1 + n - 1 + zlen tag)) by lia.
  rewrite readFull_app by (rewrite zlen_app; lia). rewrite ztake_app, zdrop_app by lia.
  rewrite Edx, (u32_small (zlen p + 1 + n - n - 1)), ztake_app by lia.
  assert (Hgood : match spc_mac s with
    | Some h => bool_decide (h_sum h ((be_encode 4 seq ++ (if spc_etm s then ztake 4 prefix ++ zdrop 4 xprefix else prefix)) ++
        (if spc_etm s then xbody else p ++ padding)) = tag)
    | None => true end = true).
  { destruct (spc_mac s) as [h|] eqn:Eh; [|done]. apply bool_decide_eq_true.
    unfold tag. by rewrite (spc_mac_input s seq prefix xprefix xbody _ h Eh Hx4). }
  by rewrite Hgood.
Qed.

#[export] Program Instance spc_lawful : LawfulCipher streamPacketCipher := {|
  paired := spc_paired
|}.
Next Obligation.
  intros seq w rand p cw cr w' cw' rand' [<- Hmac] Hp _ H. simpl in H.
  pose proof H as Hs. apply spc_write_frame in Hs as (? & ? & ? & ? & ? & _ & _ & _ & _ & -> & _).
  apply spc_roundtrip in H as (frame & Hw & Hr); [|done..]. by exists frame, (set_cipher x3 cw).
Qed.

(** Reading never panics, whatever is received. *)
Lemma spc_read_not_panic seq r s w s' r' : spc_readPacket seq r s <> (Panic w, s', r').
Proof.
  unfold spc_readPacket. destruct (readFull prefixLen r) as [[prefix0| |] r1] eqn:E; try done.
  2: { by apply readFull_not_panic in E. }
  destruct (cryptPrefix _ _ _) as [prefix c]. cbv zeta. destruct (_ <=? _); [done|]. destruct (maxPacket <? _); [done|].
  destruct (readFull _ r1) as [[packetData| |] r2] eqn:E2; try done.
  2: { by apply readFull_not_panic in E2. }
  destruct (XORKeyStream _ _) as [plain c']. by destruct (match spc_mac _ with Some _ => _ | None => _ end).
Qed.

(** What an accepted packet looks like on the wire. *)
Lemma spc_read_accepts seq r s p s' rest h :
  spc_mac s = Some h -> hash_ok h ->
  spc_readPacket seq r s = (Ret p, s', rest) ->
  exists xprefix xbody tag prefix body c1 c2,
    r = xprefix ++ xbody ++ tag ++ rest /\
    zlen xprefix = 5 /\ cryptPrefix (etmMode s) xprefix (spc_cipher s) = (prefix, c1) /\
    XORKeyStream xbody c1 = (body, c2) /\
    tag = h_sum h (be_encode 4 seq ++ (if spc_etm s then xprefix ++ xbody else prefix ++ body)) /\
    (exists padding, body = p ++ padding) /\ 0 < zlen p.
Proof.
  intros Hm [Hhs Hhz] H. unfold spc_readPacket in H.
  destruct (readFull prefixLen r) as [[xprefix| |] r1] eqn:E; try done.
  apply readFull_ret in E as [-> Hx]; [|done].
  destruct (cryptPrefix _ _ _) as [prefix c1] eqn:Ec. cbv zeta in H.
  set (len := be_decode (ztake 4 prefix)) in *. set (pl := be_decode (zdrop 4 prefix)) in *.
  assert (Hpre : zlen prefix = 5 /\ (etmMode s = true -> ztake 4 xprefix = ztake 4 prefix)).
  { destruct (cryptPrefix_inverse _ _ _ _ _ Hx Ec) as (? & ? & Hq). split; [done|]. intros. symmetry. by apply Hq. }
  destruct Hpre as [H5 H4].
  assert (Hpl : 0 <= pl < 256).
  { unfold pl. assert (Hz : zlen (zdrop 4 prefix) = 1) by (rewrite zlen_zdrop; lia).
    pose proof (be_decode_range (zdrop 4 prefix)) as Hr. rewrite Hz in Hr. lia. }
  rewrite (u32_small (pl + 1)) in H by lia.
  destruct (len <=? pl + 1) eqn:El; [done|]. destruct (maxPacket <? len) eqn:Emx; [done|]. b2p.
  unfold maxPacket in Emx. unfold macSize in H. cbn [set_cipher spc_mac spc_cipher spc_etm] in H. rewrite Hm in H.
  rewrite (u32_small (h_size h)), (u32_small (len - 1 + h_size h)) in H by lia.
  destruct (readFull _ r1) as [[pd| |] r2] eqn:E2; try done.
  apply readFull_ret in E2 as [-> Hpd]; [|lia].
  destruct (XORKeyStream _ c1) as [body c2] eqn:Ex.
  destruct (bool_decide _) eqn:Eb; [|done]. apply bool_decide_eq_true in Eb. injection H as <- <- <-.
  exists xprefix, (ztake (len - 1) pd), (zdrop (len - 1) pd), prefix, body, c1, c2.
  rewrite (u32_small (len - pl - 1)) by lia.
  assert (Hb : zlen body = len - 1).
  { rewrite (XORKeyStream_zlen _ _ _ _ Ex). apply zlen_ztake. lia. }
  split_and!; try done.
  - rewrite (app_assoc (ztake _ _)), ztake_zdrop. done.
  - rewrite <- Eb. by rewrite (spc_mac_input s seq prefix xprefix _ body h Hm H4).
  - exists (zdrop (len - pl - 1) body). by rewrite ztake_zdrop.
  - rewrite zlen_ztake; lia.
Qed.

(** ** AES-GCM *)

#[export] Instance gcm_packetCipher : PacketCipher gcmCipher := {|
  writePacket := gcm_writePacket;
  readPacket := gcm_readPacket
|}.

(** What the AEAD promises: opening what was sealed gives the text back, and
    sealing adds the tag. *)
Definition aead_ok (a : aead) : Prop :=
  (forall iv text aad, a_open a iv (a_seal a iv text aad) aad = Ret text) /\
  (forall iv text aad, zlen (a_seal a iv text aad) = zlen text + gcmTagSize).

Lemma be_decode_snoc l b : be_decode (l ++ [b]) = be_decode l * 256 + b2z b.
Proof. unfold be_decode. by rewrite be_decode_acc_app. Qed.

(** [incIV] adds one to the big-endian number in the [n] bytes before the
    index, with wrap-around. *)
Lemma incIV_loop_spec n pre mid suf :
  length mid = n ->
  exists mid', incIV_loop n (length pre + n - 1) (pre ++ mid ++ suf) = Ret (pre ++ mid' ++ suf) /\
    length mid' = n /\ be_decode mid' = (be_decode mid + 1) mod 256 ^ Z.of_nat n.
Proof.
  revert mid suf. induction n as [|n IH]; intros mid suf Hn.
  { destruct mid; [|done]. exists []. simpl. by rewrite Z.mod_1_r. }
  destruct mid as [|b mid _] using rev_ind; [done|]. rewrite length_app in Hn. simpl in Hn.
  assert (Hmid : length mid = n) by lia.
  assert (Hi : (length pre + S n - 1 = length pre + length mid)%nat) by lia. rewrite Hi. cbn [incIV_loop].
  assert (Hlk : (pre ++ (mid ++ [b]) ++ suf) !! (length pre + length mid)%nat = Some b).
  { rewrite lookup_app_r by lia. rewrite <- app_assoc, lookup_app_r by lia.
    by replace (length pre + length mid - length pre - length mid)%nat with O by lia. }
  rewrite Hlk. set (b' := z2b (b2z b + 1)).
  assert (Hins : <[(length pre + length mid)%nat := b']> (pre ++ (mid ++ [b]) ++ suf) = pre ++ mid ++ b' :: suf).
  { rewrite insert_app_r_alt by lia. replace (length pre + length mid - length pre)%nat with (length mid + 0)%nat by lia.
    rewrite <- app_assoc, insert_app_r. done. }
  rewrite Hins. assert (Hb' : b2z b' = (b2z b + 1) mod 256) by apply b2z_z2b. pose proof (b2z_range b).
  pose proof (be_decode_range mid) as Hr. unfold zlen in Hr. rewrite Hmid in Hr.
  replace (Z.of_nat (S n)) with (1 + Z.of_nat n) by lia. rewrite Z.pow_add_r by lia. rewrite be_decode_snoc.
  set (M := 256 ^ Z.of_nat n) in *. change (256 ^ 1) with 256.
  destruct (b2z b' =? 0) eqn:E; b2p.
  - assert (b2z b = 255) as -> by dlia.
    destruct (IH mid (b' :: suf) Hmid) as (mid' & Er & Hl & Hv).
    replace (length pre + length mid - 1)%nat with (length pre + n - 1)%nat by lia. rewrite Er.
    exists (mid' ++ [b']). rewrite <- app_assoc. split_and!; [done | rewrite length_app; simpl; lia |].
    rewrite be_decode_snoc, Hv, E.
    replace (be_decode mid * 256 + 255 + 1) with (256 * (be_decode mid + 1)) by lia.
    rewrite Z.mul_mod_distr_l by lia. lia.
  - assert (Hb : b2z b' = b2z b + 1) by dlia. pose proof (b2z_range b').
    exists (mid ++ [b']). rewrite <- app_assoc. split_and!; [done | rewrite length_app; simpl; lia |].
    rewrite be_decode_snoc, Hb, Z.mod_small; lia.
Qed.

Lemma incIV_spec iv :
  zlen iv = 12 ->
  exists iv', incIV iv = Ret iv' /\ zlen iv' = 12 /\ ztake 4 iv' = ztake 4 iv /\
    be_decode (zdrop 4 iv') = (be_decode (zdrop 4 iv) + 1) mod 2 ^ 64.
Proof.
  intros Hl. assert (H4 : zlen (ztake 4 iv) = 4) by (apply zlen_ztake; lia).
  destruct (incIV_loop_spec 8 (ztake 4 iv) (zdrop 4 iv) []) as (mid & E & Hm & Hv).
  { assert (zlen (zdrop 4 iv) = 8) by (rewrite zlen_zdrop; lia). unfold zlen in *. lia. }
  rewrite !app_nil_r, ztake_zdrop in E. exists (ztake 4 iv ++ mid). unfold incIV.
  replace (4 + 7)%nat with (length (ztake 4 iv) + 8 - 1)%nat by (unfold zlen in *; lia).
  rewrite ztake_app, zdrop_app, zlen_app by done. split_and!; try done. unfold zlen in *. lia.
Qed.

Lemma gcm_padding_spec n :
  0 <= n -> 4 <= gcm_padding n <= 19 /\ (1 + n + gcm_padding n) mod 16 = 0.
Proof.
  intros Hn. unfold gcm_padding, packetSizeMultiple, u8.
  set (q := 16 - (1 + n) mod 16). assert (Hq : 1 <= q <= 16) by (unfold q; dlia).
  rewrite (Z.mod_small q) by lia. destruct (q <? 4) eqn:E; b2p.
  - rewrite Z.mod_small by lia. split; [lia|]. unfold q in *. dlia.
  - split; [lia|]. unfold q in *. dlia.
Qed.

Definition gcm_paired (cw cr : gcmCipher) : Prop := cw = cr /\ aead_ok (gcm_aead cw) /\ zlen (gcm_iv cw) = 12.

#[export] Program Instance gcm_lawful : LawfulCipher gcmCipher := {|
  paired := gcm_paired
|}.
Next Obligation.
  intros seq w rand p cw cr w' cw' rand' (<- & [Hopen Hseal] & Hiv) [Hp Hmax] _ H. simpl in *. unfold maxPacket in Hmax.
  destruct (gcm_padding_spec (zlen p)) as [Hn _]; [lia|]. unfold gcm_writePacket in H.
  set (n := gcm_padding (zlen p)) in *. cbv zeta in H. rewrite (u32_small (zlen p + n + 1)) in H by lia.
  set (len := zlen p + n + 1) in *. set (prefix := be_encode 4 len) in *.
  destruct (wwrite prefix w) as [w1| |] eqn:W1; try done. cbn [obind] in H.
  destruct (readFull _ rand) as [[pad| |] rand1] eqn:Er; try done. cbn [obind] in H.
  apply readFull_ret in Er as [_ Hpad]; [|lia].
  set (text := z2b n :: p ++ pad) in *. set (buf := a_seal _ _ text _) in *.
  destruct (wwrite buf w1) as [w2| |] eqn:W2; try done. cbn [obind] in H.
  destruct (incIV_spec _ Hiv) as (iv' & Eiv & Hiv' & _). rewrite Eiv in H. injection H as <- <- <-.
  apply wwrite_ret in W1, W2. exists (prefix ++ buf), (set_iv iv' cw).
  split; [by rewrite W2, W1, <- app_assoc|]. split; [by split_and!|]. intros rest.
  assert (Htext : zlen text = len) by (unfold text; rewrite zlen_cons, zlen_app; lia).
  unfold gcm_readPacket. rewrite <- app_assoc, readFull_app by (unfold prefix; by rewrite zlen_be_encode).
  assert (Hdec : be_decode prefix = len) by (apply be_decode_encode_small; simpl; lia).
  cbv zeta. rewrite Hdec.
  rewrite (proj2 (Z.ltb_ge _ _)) by (unfold maxPacket; lia).
  unfold gcmTagSize. rewrite u32_small by lia. rewrite readFull_app by (unfold buf; rewrite Hseal, Htext; done).
  unfold buf. rewrite Hopen, Eiv. unfold text. rewrite b2z_z2b_small by lia.
  rewrite (proj2 (Z.ltb_ge n 4)) by lia. unfold u8. rewrite Z.mod_small by lia.
  fold text. rewrite Htext, (proj2 (Z.leb_gt _ _)) by lia. rewrite (u32_small (len - n)) by lia.
  rewrite (proj2 (Z.ltb_ge _ 1)), (proj2 (Z.ltb_ge len _)) by lia. cbn [orb].
  do 3 f_equal. unfold text. change (z2b n :: p ++ pad) with ([z2b n] ++ p ++ pad). rewrite app_assoc.
  rewrite ztake_app by (rewrite zlen_app, zlen_cons, zlen_nil; lia). by rewrite zdrop_app.
Qed.

(** ** CBC *)

#[export] Instance cbc_packetCipher : PacketCipher cbcCipher := {|
  writePacket := cbc_writePacket;
  readPacket := cbc_readPacket
|}.

(** What the two directions of a block mode promise on whole blocks, with the
    chaining state they share (in CBC, the last block of ciphertext):
    decryption inverts encryption, lengths are kept, and two calls behave as
    one on the concatenation. *)
Record modes_ok (bs : Z) (E D : bytes -> bytes -> bytes * bytes) : Prop := {
  mo_size : bs = 8 \/ bs = 16;
  mo_enc_len st x : zlen x mod bs = 0 -> zlen (E st x).1 = zlen x;
  mo_dec_len st y : zlen y mod bs = 0 -> zlen (D st y).1 = zlen y;
  mo_inverse st x : zlen x mod bs = 0 -> D st (E st x).1 = (x, (E st x).2);
  mo_concat st y1 y2 : zlen y1 mod bs = 0 -> zlen y2 mod bs = 0 ->
    D st (y1 ++ y2) = ((D st y1).1 ++ (D (D st y1).2 y2).1, (D (D st y1).2 y2).2)
}.

Definition cbc_paired (cw cr : cbcCipher) : Prop :=
  cbc_mac cw = cbc_mac cr /\ mac_ok (cbc_mac cw) /\
  cbc_macSize cr = match cbc_mac cr with Some h => u32 (h_size h) | None => 0 end /\
  bm_blockSize (cbc_encrypter cw) = bm_blockSize (cbc_decrypter cr) /\
  modes_ok (bm_blockSize (cbc_decrypter cr)) (bm_crypt (cbc_encrypter cw)) (bm_crypt (cbc_decrypter cr)) /\
  bm_state (cbc_encrypter cw) = bm_state (cbc_decrypter cr).

Lemma cbc_encLength_spec n bs :
  0 <= n <= maxPacket -> bs = 8 \/ bs = 16 ->
  let L := cbc_encLength n (maxUInt32 cbcMinPacketSizeMultiple bs) in
  n + 9 <= L <= n + 24 /\ L mod bs = 0 /\ 16 <= L.
Proof.
  intros Hn Hbs. unfold maxPacket in Hn. unfold cbc_encLength, maxUInt32, prefixLen, cbcMinPaddingSize, cbcMinPacketSizeMultiple.
  rewrite (proj2 (Z.ltb_lt 4 (5 + n + 4))) by lia. rewrite (u32_small (5 + n + 4)) by lia.
  destruct Hbs as [-> | ->].
  - change (if 8 <? 8 then u32 8 else u32 8) with 8. rewrite (u32_small (5 + n + 4 + 8 - 1)) by lia.
    rewrite u32_small by dlia. dlia.
  - change (if 16 <? 8 then u32 8 else u32 16) with 16. rewrite (u32_small (5 + n + 4 + 16 - 1)) by lia.
    rewrite u32_small by dlia. dlia.
Qed.

Lemma firstBlockLength_spec bs : bs = 8 \/ bs = 16 -> firstBlockLength bs = bs.
Proof. by intros [-> | ->]. Qed.

Lemma maxUInt32_16 bs : bs = 8 \/ bs = 16 -> maxUInt32 cbcMinPacketSize bs = 16.
Proof. by intros [-> | ->]. Qed.

Lemma maxUInt32_8 bs : bs = 8 \/ bs = 16 -> maxUInt32 cbcMinPacketSizeMultiple bs = bs.
Proof. by intros [-> | ->]. Qed.

(** The reader on a well-formed frame. *)
Lemma cbc_read_frame seq c p plain y tag n L :
  0 < zlen p -> zlen p + 9 <= L <= zlen p + 24 -> zlen p <= maxPacket - 20 ->
  bm_blockSize (cbc_decrypter c) = 8 \/ bm_blockSize (cbc_decrypter c) = 16 ->
  L mod bm_blockSize (cbc_decrypter c) = 0 -> 16 <= L ->
  n = L - 5 - zlen p -> (exists padding, plain = be_encode 4 (L - 4) ++ [z2b n] ++ p ++ padding) ->
  zlen plain = L -> zlen y = L -> zlen tag = cbc_macSize c -> zlen tag < 2 ^ 16 ->
  let D := bm_crypt (cbc_decrypter c) in
  let bs := bm_blockSize (cbc_decrypter c) in
  let st := bm_state (cbc_decrypter c) in
  (forall st y1 y2, zlen y1 mod bs = 0 -> zlen y2 mod bs = 0 ->
     D st (y1 ++ y2) = ((D st y1).1 ++ (D (D st y1).2 y2).1, (D (D st y1).2 y2).2)) ->
  (forall st y, zlen y mod bs = 0 -> zlen (D st y).1 = zlen y) ->
  (D st y).1 = plain ->
  (forall h, cbc_mac c = Some h -> h_sum h (be_encode 4 seq ++ plain) = tag) ->
  exists o, forall rest, cbc_readPacketLeaky seq (y ++ tag ++ rest) c
    = (Ret p, mkCBC (cbc_mac c) (cbc_macSize c) (mkBlockMode bs D (D st y).2) (cbc_encrypter c) o, rest).
Proof.
  intros Hp HL Hmax Hbs HLm HL16 Hn [padding Hpl] Hplen Hylen Htag Htag16 D bs st Hcat Hdlen HD Hmac.
  exists (u32 (u32 (maxPacket + 4 + cbc_macSize c - bs) - u32 (L - bs + zlen tag))).
  intros rest. unfold maxPacket in Hmax. unfold cbc_readPacketLeaky. fold bs in Hbs, HLm.
  rewrite firstBlockLength_spec by done. fold bs.
  set (y1 := ztake bs y). set (y2 := zdrop bs y).
  assert (Hy1 : zlen y1 = bs) by (apply zlen_ztake; lia).
  assert (Hy2 : zlen y2 = L - bs) by (unfold y2; rewrite zlen_zdrop; lia).
  assert (Hy : y = y1 ++ y2) by (unfold y1, y2; by rewrite ztake_zdrop).
  assert (Hm1 : zlen y1 mod bs = 0) by (rewrite Hy1; apply Z.mod_same; lia).
  assert (Hm2 : zlen y2 mod bs = 0).
  { rewrite Hy2. replace (L - bs) with (L + (-1) * bs) by lia. rewrite Z.mod_add by lia. done. }
  clearbody y1 y2. subst y. pose proof (Hcat st y1 y2 Hm1 Hm2) as Hc.
  pose proof (Hdlen st y1 Hm1) as Hx1. rewrite Hy1 in Hx1.
  rewrite <- app_assoc, readFull_app by lia. cbv zeta.
  unfold CryptBlocks at 1. cbn [set_camouflage cbc_decrypter]. fold bs D st.
  destruct (D st y1) as [x1 st1] eqn:E1. cbn [fst snd] in *.
  destruct (D st1 y2) as [x2 st2] eqn:E2. cbn [fst snd] in *.
  rewrite Hc in HD. cbn [fst] in HD.
  assert (Hhead : exists t, x1 = be_encode 4 (L - 4) ++ [z2b n] ++ t).
  { exists (zdrop 5 x1). rewrite app_assoc. rewrite <- (ztake_zdrop 5 x1) at 1. f_equal.
    transitivity (ztake 5 (x1 ++ x2)).
    - unfold ztake. rewrite take_app_le; [done|]. unfold zlen in *. lia.
    - rewrite HD, Hpl, app_assoc. by rewrite ztake_app. }
  destruct Hhead as [t Ht].
  assert (Hlen : be_decode (ztake 4 x1) = L - 4).
  { rewrite Ht, ztake_app by (by rewrite zlen_be_encode). apply be_decode_encode_small. simpl. lia. }
  assert (Hpad : be_decode (ztake 1 (zdrop 4 x1)) = n).
  { rewrite Ht, zdrop_app by (by rewrite zlen_be_encode). rewrite ztake_app by done.
    rewrite be_decode_single. apply b2z_z2b_small. lia. }
  rewrite Hlen, Hpad. cbn [set_decrypter set_camouflage cbc_mac cbc_macSize cbc_encrypter cbc_decrypter cbc_oracleCamouflage].
  rewrite (u32_small (L - 4 + 4)), maxUInt32_16, maxUInt32_8 by (done || lia).
  rewrite (proj2 (Z.ltb_ge maxPacket _)) by (unfold maxPacket; lia).
  rewrite (proj2 (Z.ltb_ge _ 16)) by lia. replace (L - 4 + 4) with L by lia. rewrite HLm. cbn [Z.eqb negb].
  rewrite (u32_small (n + 1)) by lia. unfold cbcMinPaddingSize.
  rewrite (proj2 (Z.ltb_ge n 4)), (proj2 (Z.leb_gt _ (n + 1))) by lia. cbn [orb].
  replace (4 + (L - 4)) with L by lia. rewrite (u32_small L) by lia.
  rewrite <- Htag. pose proof (zlen_nonneg tag). rewrite (u32_small (L + zlen tag)) by lia.
  rewrite (proj2 (Z.ltb_ge (L + zlen tag) bs)) by lia.
  rewrite (app_assoc y2), readFull_app by (rewrite zlen_app; lia).
  rewrite (proj2 (Z.ltb_ge L bs)) by lia. rewrite ztake_app, zdrop_app by lia.
  unfold CryptBlocks. cbn [bm_crypt bm_state bm_blockSize]. rewrite E2.
  rewrite HD. cbn [cbc_mac set_decrypter set_camouflage].
  assert (Hgood : match cbc_mac c with Some h => bool_decide (h_sum h (be_encode 4 seq ++ plain) = tag) | None => true end = true).
  { destruct (cbc_mac c) as [h|] eqn:Eh; [|done]. apply bool_decide_eq_true. by apply Hmac. }
  rewrite Hgood, Hc. rewrite (u32_small (L - n)) by lia. unfold prefixLen.
  replace (zdrop 5 (ztake (L - n) plain)) with p.
  2: { rewrite Hpl. rewrite !app_assoc. rewrite ztake_app.
       - rewrite zdrop_app; [done|]. by rewrite zlen_app, zlen_be_encode.
       - rewrite !zlen_app, zlen_be_encode, zlen_cons, zlen_nil. lia. }
  cbn [snd]. rewrite zlen_app, Hy2, Htag. reflexivity.
Qed.

#[export] Program Instance cbc_lawful : LawfulCipher cbcCipher := {|
  paired := cbc_paired
|}.
Next Obligation.
  intros seq w rand p cw cr w' cw' rand' (Hmeq & Hmac & Hms & Hbs & Hmo & Hst) [Hp Hmax] _ H. simpl in H.
  destruct Hmo as [Hsize Henc Hdec Hinv Hcat]. unfold cbc_writePacket in H. cbv zeta in H. rewrite Hbs in H.
  set (bs := bm_blockSize (cbc_decrypter cr)) in *.
  destruct (cbc_encLength_spec (zlen p) bs) as (HL & HLm & HL16); [lia | done |].
  set (L := cbc_encLength _ _) in *. assert (Hmx : zlen p <= maxPacket - 20) by done. unfold maxPacket in Hmax.
  rewrite (u32_small (L - 4)) in H by lia. unfold prefixLen in H.
  destruct (readFull _ rand) as [[padding| |] rand1] eqn:Er; try done. cbn [obind] in H.
  apply readFull_ret in Er as [_ Hpad]; [|lia].
  replace (L - 4 - (1 + zlen p)) with (L - 5 - zlen p) in H by lia. set (n := L - 5 - zlen p) in *.
  set (plain := (be_encode 4 (L - 4) ++ [z2b n]) ++ p ++ padding) in *.
  assert (Hplain : zlen plain = L).
  { unfold plain. rewrite !zlen_app, zlen_be_encode, zlen_cons, zlen_nil. lia. }
  unfold CryptBlocks in H. destruct (bm_crypt _ _ plain) as [y st'] eqn:Ey. cbv zeta beta iota in H.
  destruct (wwrite _ w) as [w1| |] eqn:W; try done. cbn [obind] in H. injection H as <- <- <-.
  apply wwrite_ret in W.
  assert (Hpm : zlen plain mod bs = 0) by by rewrite Hplain.
  pose proof (Henc (bm_state (cbc_encrypter cw)) plain Hpm) as Hylen.
  pose proof (Hinv (bm_state (cbc_encrypter cw)) plain Hpm) as Hy. rewrite Ey in Hylen, Hy. cbn [fst snd] in *.
  rewrite Hst in Hy.
  set (tag := match cbc_mac cw with Some _ => _ | None => _ end) in *.
  assert (Htag : zlen tag = cbc_macSize cr /\ zlen tag < 2 ^ 16).
  { unfold tag. rewrite Hms, <- Hmeq. destruct (cbc_mac cw) as [h|] eqn:Eh; [|done].
    destruct (Hmac h eq_refl) as [? ->]. rewrite u32_small; lia. }
  destruct Htag as [Htag Htag16].
  destruct (cbc_read_frame seq cr p plain y tag n L) as (o & Hread); try done; try lia.
  - exists padding. unfold plain. by rewrite <- !app_assoc.
  - by rewrite Hy.
  - intros h Eh. unfold tag. by rewrite Hmeq, Eh.
  - eexists (y ++ tag), _. split; [exact W|]. split.
    2: { intros rest. rewrite <- app_assoc. simpl. unfold cbc_readPacket. rewrite Hread. reflexivity. }
    rewrite Hy. by split_and!.
Qed.

(** Reading a sequence of packets with consecutive sequence numbers. *)
Section Sequences.
Context {C : Type} `{LawfulCipher C}.

Fixpoint writeAll (seq : Z) (w : writer) (rand : bytes) (ps : list bytes) (c : C) : outcome (writer * C * bytes) :=
  match ps with
  | [] => Ret (w, c, rand)
  | p :: ps' =>
      let? res := writePacket seq w rand p c in
      let '(w, c, rand) := res in
      writeAll (u32 (seq + 1)) w rand ps' c
  end.

Fixpoint readAll (n : nat) (seq : Z) (r : bytes) (c : C) : outcome (list bytes) * C * bytes :=
  match n with
  | O => (Ret [], c, r)
  | S n' =>
      match readPacket seq r c with
      | (Ret p, c, r) =>
          match readAll n' (u32 (seq + 1)) r c with
          | (Ret ps, c, r) => (Ret (p :: ps), c, r)
          | (Fail e, c, r) => (Fail e, c, r)
          | (Panic x, c, r) => (Panic x, c, r)
          end
      | (Fail e, c, r) => (Fail e, c, r)
      | (Panic x, c, r) => (Panic x, c, r)
      end
  end.

Lemma readAll_writeAll ps seq w rand cw cr w' cw' rand' :
  paired cw cr -> Forall payload_ok ps -> 0 <= seq < 2 ^ 32 ->
  writeAll seq w rand ps cw = Ret (w', cw', rand') ->
  exists frames cr', w_out w' = w_out w ++ frames /\ paired cw' cr' /\
    forall rest, readAll (length ps) seq (frames ++ rest) cr = (Ret ps, cr', rest).
Proof.
  revert seq w rand cw cr. induction ps as [|p ps IH]; intros seq w rand cw cr Hpair Hok Hseq Hw; simpl in Hw.
  - injection Hw as <- <- <-. exists [], cr. by rewrite app_nil_r.
  - apply Forall_cons in Hok as [Hp Hok].
    destruct (writePacket seq w rand p cw) as [[[w1 c1] rand1]| |] eqn:E; try done. cbn [obind] in Hw.
    destruct (cipher_roundtrip _ _ _ _ _ _ _ _ _ Hpair Hp Hseq E) as (frame & cr1 & Hout & Hpair1 & Hread).
    destruct (IH _ _ _ _ _ Hpair1 Hok (u32_range _) Hw) as (frames & cr' & Hout' & Hpair' & Hread').
    exists (frame ++ frames), cr'. split; [by rewrite Hout', Hout, <- app_assoc|]. split; [done|].
    intros rest. simpl. by rewrite <- app_assoc, Hread, Hread'.
Qed.
End Sequences.

(** The nonces of successive packets. *)
Fixpoint incIVs (n : nat) (iv : bytes) : outcome bytes :=
  match n with
  | O => Ret iv
  | S n' => let? iv' := incIV iv in incIVs n' iv'
  end.

Lemma incIVs_spec n iv :
  zlen iv = 12 ->
  exists iv', incIVs n iv = Ret iv' /\ zlen iv' = 12 /\ ztake 4 iv' = ztake 4 iv /\
    be_decode (zdrop 4 iv') = (be_decode (zdrop 4 iv) + Z.of_nat n) mod 2 ^ 64.
Proof.
  revert iv. induction n as [|n IH]; intros iv Hl.
  - exists iv. rewrite Z.add_0_r. split_and!; try done.
    pose proof (be_decode_range (zdrop 4 iv)) as Hr. rewrite zlen_zdrop in Hr by lia.
    rewrite Hl in Hr. change (256 ^ (12 - 4)) with (2 ^ 64) in Hr. by rewrite Z.mod_small.
  - destruct (incIV_spec iv Hl) as (iv1 & E & Hl1 & Ht1 & Hv1). simpl. rewrite E. cbn [obind].
    destruct (IH iv1 Hl1) as (iv' & E' & Hl' & Ht' & Hv'). exists iv'. split_and!; try done; [congruence|].
    rewrite Hv', Hv1, Z.add_mod_idemp_l by lia. f_equal. lia.
Qed.

(** ** Properties *)

(** stream cipher packets come back: whatever the key stream, the MAC
    (none, over the plaintext, or encrypt-then-MAC), the padding and the
    sequence number, what [writePacket] puts on the wire for a payload is read
    by [readPacket], in the same cipher state and with the same sequence
    number, as exactly that payload; the reader ends in the writer's state and
    leaves the bytes that follow the packet. *)
Theorem stream_packet_roundtrip (seq : Z) (w w' : writer) (rand rand' p : bytes)
    (s s' : streamPacketCipher) :
  mac_ok (spc_mac s) -> payload_ok p ->
  spc_writePacket seq w rand p s = Ret (w', s', rand') ->
  exists frame, w_out w' = w_out w ++ frame /\
    forall rest, spc_readPacket seq (frame ++ rest) s = (Ret p, s', rest).
Proof. apply spc_roundtrip. Qed.

(** A toy MAC and key stream to run the ciphers on. *)
Definition toyHash : hash := mkHash 2 (fun d => [z2b (zlen d); z2b (be_decode d)]).
Definition toyStream : stream := mkStream (fun i => z2b (i * 7 + 3)) 0.
Definition toyCipher (etm : bool) : streamPacketCipher := mkSPC (Some toyHash) toyStream etm.
Definition toyRand : bytes := be_encode 40 123456789.

Lemma toyHash_ok : mac_ok (Some toyHash).
Proof. intros h [= <-]. split; [split; decide_vm | done]. Qed.

Definition toyWritten (etm : bool) : writer * streamPacketCipher * bytes :=
  match spc_writePacket 7 (mkWriter [] None) toyRand (str "payload") (toyCipher etm) with
  | Ret x => x
  | _ => (mkWriter [] None, toyCipher etm, [])
  end.

Lemma stream_packet_roundtrip_witness :
  exists frame, w_out (toyWritten true).1.1 = [] ++ frame /\
    forall rest, spc_readPacket 7 (frame ++ rest) (toyCipher true) = (Ret (str "payload"), (toyWritten true).1.2, rest).
Proof.
  apply (stream_packet_roundtrip 7 (mkWriter [] None) (toyWritten true).1.1 toyRand (toyWritten true).2
           (str "payload") (toyCipher true) (toyWritten true).1.2);
    [apply toyHash_ok | split; decide_vm | vm_compute; reflexivity].
Defined.

(** C22: nothing unauthenticated is delivered: when a stream cipher with a MAC
    accepts a packet, the bytes on the wire are a header, a body and a tag
    where the tag is the MAC of the reader's sequence number followed by the
    header and body (as sent for encrypt-then-MAC, as decrypted otherwise), and
    the payload delivered is a non-empty prefix of that decrypted body. *)
Theorem stream_read_authentic (seq : Z) (r p rest : bytes) (s s' : streamPacketCipher) (h : hash) :
  spc_mac s = Some h -> hash_ok h -> spc_readPacket seq r s = (Ret p, s', rest) ->
  exists xprefix xbody tag prefix body c1 c2,
    r = xprefix ++ xbody ++ tag ++ rest /\ zlen xprefix = prefixLen /\
    cryptPrefix (etmMode s) xprefix (spc_cipher s) = (prefix, c1) /\
    XORKeyStream xbody c1 = (body, c2) /\
    tag = h_sum h (be_encode 4 seq ++ (if spc_etm s then xprefix ++ xbody else prefix ++ body)) /\
    (exists padding, body = p ++ padding) /\ 0 < zlen p.
Proof. apply spc_read_accepts. Qed.

Definition toyFrame : bytes := w_out (toyWritten false).1.1.

Lemma stream_read_authentic_witness :
  exists xprefix xbody tag prefix body c1 c2,
    toyFrame ++ str "next" = xprefix ++ xbody ++ tag ++ str "next" /\ zlen xprefix = prefixLen /\
    cryptPrefix (etmMode (toyCipher false)) xprefix toyStream = (prefix, c1) /\
    XORKeyStream xbody c1 = (body, c2) /\
    tag = h_sum toyHash (be_encode 4 7 ++ (if spc_etm (toyCipher false) then xprefix ++ xbody else prefix ++ body)) /\
    (exists padding, body = str "payload" ++ padding) /\ 0 < zlen (str "payload").
Proof.
  apply (stream_read_authentic 7 (toyFrame ++ str "next") (str "payload") (str "next") (toyCipher false)
           (toyWritten false).1.2 toyHash);
    [reflexivity | by apply toyHash_ok | vm_compute; reflexivity].
Defined.

(** GCM nonces do not repeat: from a 12-byte IV, the nonces of the packets
    number [i] and [j] differ for different [i], [j] below 2^64: only the
    8-byte counter changes, and it counts modulo 2^64. *)
Theorem gcm_nonces_distinct (iv : bytes) (i j : nat) :
  zlen iv = 12 -> Z.of_nat i < 2 ^ 64 -> Z.of_nat j < 2 ^ 64 -> i <> j ->
  exists a b, incIVs i iv = Ret a /\ incIVs j iv = Ret b /\ a <> b /\ ztake 4 a = ztake 4 b.
Proof.
  intros Hl Hi Hj Hne. destruct (incIVs_spec i iv Hl) as (a & Ea & _ & Ta & Va).
  destruct (incIVs_spec j iv Hl) as (b & Eb & _ & Tb & Vb). exists a, b. split_and!; try done; [|congruence].
  intros ->. rewrite Va in Vb. apply Hne.
  pose proof (be_decode_range (zdrop 4 iv)) as Hr. rewrite zlen_zdrop in Hr by lia. rewrite Hl in Hr.
  change (256 ^ (12 - 4)) with (2 ^ 64) in Hr. set (v := be_decode (zdrop 4 iv)) in *. dlia.
Qed.

Lemma gcm_nonces_distinct_witness :
  exists a b, incIVs 3 (replicate 12 "255"%byte) = Ret a /\ incIVs 0 (replicate 12 "255"%byte) = Ret b /\
    a <> b /\ ztake 4 a = ztake 4 b.
Proof. apply (gcm_nonces_distinct (replicate 12 "255"%byte) 3 0); [reflexivity | lia | lia | lia]. Defined.

(** a peer can crash the GCM reader: [readPacket] panics on an
    authenticated packet of length zero, and on one whose padding byte is 255
    and whose length is at most 255, because [int(padding+1)] wraps to 0. *)
Theorem gcm_read_panics (c : gcmCipher) (seq : Z) (text rest : bytes) :
  aead_ok (gcm_aead c) -> zlen (gcm_iv c) = 12 ->
  text = [] \/ (exists t, text = "255"%byte :: t /\ zlen text <= 255) ->
  exists w c',
    gcm_readPacket seq (be_encode 4 (zlen text) ++
      a_seal (gcm_aead c) (gcm_iv c) text (be_encode 4 (zlen text)) ++ rest) c = (Panic w, c', rest).
Proof.
  intros [Hopen Hseal] Hiv Ht. pose proof (zlen_nonneg text).
  assert (Hlt : zlen text <= 255) by (destruct Ht as [-> | (t & -> & ?)]; [rewrite zlen_nil; lia | done]).
  unfold gcm_readPacket. rewrite readFull_app by (by rewrite zlen_be_encode). cbv zeta.
  rewrite be_decode_encode_small by (simpl; lia). rewrite (proj2 (Z.ltb_ge _ _)) by (unfold maxPacket; lia).
  rewrite u32_small by (unfold gcmTagSize; lia). rewrite readFull_app by (by rewrite Hseal). rewrite Hopen.
  destruct (incIV_spec _ Hiv) as (iv' & -> & _). destruct Ht as [-> | (t & -> & _)]; [by do 2 eexists|].
  change (b2z "255"%byte) with 255. cbn [Z.ltb Z.compare Pos.compare Pos.compare_cont].
  change (u8 (255 + 1)) with 0. rewrite zlen_cons in *. pose proof (zlen_nonneg t).
  rewrite (proj2 (Z.leb_gt _ 0)) by lia. unfold u32.
  destruct (Z.eq_dec (1 + zlen t) 255) as [-> | Hne]; [by do 2 eexists|].
  assert (Hw : (1 + zlen t - 255) mod 2 ^ 32 = 1 + zlen t - 255 + 2 ^ 32) by dlia.
  rewrite Hw, (proj2 (Z.ltb_lt (1 + zlen t) _)) by lia. rewrite orb_true_r. by do 2 eexists.
Qed.

Definition toyAEAD : aead :=
  mkAEAD (fun _ text _ => text ++ replicate 16 "000"%byte)
    (fun _ ct _ => if zlen ct <? 16 then Fail (errNew "cipher: message authentication failed")
                   else Ret (ztake (zlen ct - 16) ct)).

Lemma toyAEAD_ok : aead_ok toyAEAD.
Proof.
  split; intros iv text aad; cbn [toyAEAD a_open a_seal].
  - rewrite zlen_app. pose proof (zlen_nonneg text). change (zlen (replicate 16 "000"%byte)) with 16.
    rewrite (proj2 (Z.ltb_ge _ 16)) by lia. rewrite ztake_app; [done | lia].
  - rewrite zlen_app. reflexivity.
Qed.

Lemma gcm_read_panics_witness :
  exists w c', gcm_readPacket 0 (be_encode 4 1 ++ a_seal toyAEAD (replicate 12 "000"%byte) ["255"%byte] (be_encode 4 1) ++ [])
    (mkGCM toyAEAD (replicate 12 "000"%byte)) = (Panic w, c', []).
Proof.
  apply (gcm_read_panics (mkGCM toyAEAD (replicate 12 "000"%byte)) 0 ["255"%byte] []);
    [apply toyAEAD_ok | reflexivity | right; by exists []].
Defined.
