(* ===== verification/Transport.v ===== *)
(** * The transport (transport.go)

    Key derivation, the choice of a packet cipher, the two directions of a
    connection with their sequence numbers and pending key changes, and the
    version exchange.

    The constructors of the cryptographic primitives are not code of this
    repository: they are the fields of [cryptoLib].  The buffered reader is the
    bytes to come, the buffered writer a [writer] of Cipher.v, and a
    one-element Go channel of pending ciphers an [option]. *)

From S2P Require Import Prelude Wire Codec Messages Negotiate Cipher CipherFacts.

(** ** Packet ciphers *)

Inductive packetCipher :=
| PCStream (c : streamPacketCipher)
| PCGCM (c : gcmCipher)
| PCCBC (c : cbcCipher).

(** Apply a constructor to the new state. *)
Definition mapW {A B} (f : A -> B) (o : outcome (writer * A * bytes)) : outcome (writer * B * bytes) :=
  match o with
  | Ret (w, c, rand) => Ret (w, f c, rand)
  | Fail e => Fail e
  | Panic x => Panic x
  end.

Definition mapR {A B} (f : A -> B) (r : outcome bytes * A * bytes) : outcome bytes * B * bytes :=
  let '(p, c, rest) := r in (p, f c, rest).

#[export] Instance packetCipher_packetCipher : PacketCipher packetCipher := {|
  writePacket seq w rand p c :=
    match c with
    | PCStream c => mapW PCStream (writePacket seq w rand p c)
    | PCGCM c => mapW PCGCM (writePacket seq w rand p c)
    | PCCBC c => mapW PCCBC (writePacket seq w rand p c)
    end;
  readPacket seq r c :=
    match c with
    | PCStream c => mapR PCStream (readPacket seq r c)
    | PCGCM c => mapR PCGCM (readPacket seq r c)
    | PCCBC c => mapR PCCBC (readPacket seq r c)
    end
|}.

(** ** Keys *)

(** What package crypto provides: stream ciphers by cipher name, MACs by MAC
    name, GCM, and the decrypter and encrypter of the CBC ciphers. *)
Record cryptoLib := mkCryptoLib {
  cl_stream : bytes -> bytes -> bytes -> outcome stream;
  cl_mac : bytes -> bytes -> hash;
  cl_gcm : bytes -> outcome aead;
  cl_cbc : bytes -> bytes -> bytes -> outcome (blockMode * blockMode)
}.

(** The result of a key exchange; [Hash] is the hash function. *)
Record kexResult := mkKexResult {
  kr_H : bytes;
  kr_K : bytes;
  kr_HostKey : bytes;
  kr_Signature : bytes;
  kr_Hash : bytes -> bytes;
  kr_SessionID : bytes
}.

Record direction := mkDirection {
  d_ivTag : bytes;
  d_keyTag : bytes;
  d_macKeyTag : bytes
}.

Definition serverKeys : direction := mkDirection (str "B") (str "D") (str "F").
Definition clientKeys : direction := mkDirection (str "A") (str "C") (str "E").

(** The loop of [generateKeyMaterial] that fills [n] bytes; [None] when the
    fuel runs out, which a hash that returns nothing would cause. *)
Fixpoint generateLoop (fuel : nat) (n : Z) (digestsSoFar tag : bytes) (r : kexResult) : option bytes :=
  if n <=? 0 then Some []
  else
    match fuel with
    | O => None
    | S fuel' =>
        let digest := kr_Hash r (kr_K r ++ kr_H r ++
          (if zlen digestsSoFar =? 0 then tag ++ kr_SessionID r else digestsSoFar)) in
        let out := ztake n digest in
        let n' := n - zlen out in
        let digestsSoFar := if 0 <? n' then digestsSoFar ++ digest else digestsSoFar in
        match generateLoop fuel' n' digestsSoFar tag r with
        | Some more => Some (out ++ more)
        | None => None
        end
    end.

Definition generateKeyMaterial (n : Z) (tag : bytes) (r : kexResult) : option bytes :=
  generateLoop (Z.to_nat n) n [] tag r.

(** The key material, or [None] when it would never be complete. *)
Definition generateKeys (d : direction) (algs : directionAlgorithms) (kex : kexResult)
  : outcome (bytes * bytes * bytes) :=
  match mapGet cipherModes (da_Cipher algs), mapGet macModes (da_MAC algs) with
  | Some cm, Some mm =>
      match generateKeyMaterial (cm_ivSize cm) (d_ivTag d) kex,
            generateKeyMaterial (cm_keySize cm) (d_keyTag d) kex,
            generateKeyMaterial (mac_keySize mm) (d_macKeyTag d) kex with
      | Some iv, Some key, Some macKey => Ret (iv, key, macKey)
      | _, _, _ => Panic "does not terminate"
      end
  | _, _ => Panic "nil pointer dereference"
  end.

Section WithCrypto.

Variable lib : cryptoLib.

Definition newGCMCipher (iv key macKey : bytes) : outcome packetCipher :=
  let? a := cl_gcm lib key in
  Ret (PCGCM (mkGCM a iv)).

(** [newAESCBCCipher] and [newTripleDESCBCCipher]. *)
Definition newBlockCBCCipher (algs : directionAlgorithms) (iv key macKey : bytes) : outcome packetCipher :=
  let? modes := cl_cbc lib (da_Cipher algs) key iv in
  Ret (PCCBC (newCBCCipher modes.1 modes.2 (Some (cl_mac lib (da_MAC algs) macKey)))).

Definition newPacketCipher (d : direction) (algs : directionAlgorithms) (kex : kexResult)
  : outcome packetCipher :=
  let? keys := generateKeys d algs kex in
  let '(iv, key, macKey) := keys in
  if bool_decide (da_Cipher algs = gcmCipherID) then newGCMCipher iv key macKey
  else if bool_decide (da_Cipher algs = aes128cbcID) then newBlockCBCCipher algs iv key macKey
  else if bool_decide (da_Cipher algs = tripledescbcID) then newBlockCBCCipher algs iv key macKey
  else
    match mapGet cipherModes (da_Cipher algs), mapGet macModes (da_MAC algs) with
    | Some cm, Some mm =>
        let? c := createStream (cl_stream lib (da_Cipher algs)) cm key iv in
        Ret (PCStream (mkSPC (Some (cl_mac lib (da_MAC algs) macKey)) c (mac_etm mm)))
    | _, _ => Panic "nil pointer dereference"
    end.

End WithCrypto.

(** ** One direction of a connection *)

Record connectionState := mkConnectionState {
  co_packetCipher : packetCipher;
  co_seqNum : Z;
  co_dir : direction;
  co_pendingKeyChange : option packetCipher
}.

Definition set_packetCipher (c : packetCipher) (s : connectionState) : connectionState :=
  mkConnectionState c (co_seqNum s) (co_dir s) (co_pendingKeyChange s).

(** [cipher := <-s.pendingKeyChange] when one is pending. *)
Definition takePending (s : connectionState) : option connectionState :=
  match co_pendingKeyChange s with
  | Some c => Some (mkConnectionState c (co_seqNum s) (co_dir s) None)
  | None => None
  end.

Definition disconnectError (m : disconnectMsg) : error :=
  Errorf "ssh: disconnect, reason %d: %s" [FNum (disconnectMsg_Reason m); FStr (disconnectMsg_Message m)].

Definition conn_readPacket (r : bytes) (s : connectionState) : outcome bytes * connectionState * bytes :=
  let '(res, c, r) := readPacket (co_seqNum s) r (co_packetCipher s) in
  let s := mkConnectionState c (u32 (co_seqNum s + 1)) (co_dir s) (co_pendingKeyChange s) in
  match res with
  | Panic w => (Panic w, s, r)
  | Fail e => (Fail e, s, r)
  | Ret [] => (Fail (errNew "ssh: zero length packet"), s, r)
  | Ret ((p0 :: _) as packet) =>
      if b2z p0 =? msgNewKeys then
        match takePending s with
        | Some s => (Ret packet, s, r)
        | None => (Fail (errNew "ssh: got bogus newkeys message."), s, r)
        end
      else if b2z p0 =? msgDisconnect then
        match unmarshalMsg disconnectMsg packet with
        | Ret m => (Fail (disconnectError m), s, r)
        | Fail e => (Fail e, s, r)
        | Panic w => (Panic w, s, r)
        end
      else (Ret packet, s, r)
  end.

(** [writePacket]; [flushErr] is what the flush of the buffered writer
    returns. *)
Definition conn_writePacket (w : writer) (flushErr : option error) (rand packet : bytes) (s : connectionState)
  : outcome (writer * connectionState * bytes) :=
  let changeKeys := match packet with p0 :: _ => b2z p0 =? msgNewKeys | [] => false end in
  let? res := writePacket (co_seqNum s) w rand packet (co_packetCipher s) in
  let '(w, c, rand) := res in
  match flushErr with
  | Some e => Fail e
  | None =>
      let s := mkConnectionState c (u32 (co_seqNum s + 1)) (co_dir s) (co_pendingKeyChange s) in
      if changeKeys then
        match takePending s with
        | Some s => Ret (w, s, rand)
        | None => Panic "ssh: no key material for msgNewKeys"
        end
      else Ret (w, s, rand)
  end.

(** ** The transport *)

Record transport := mkTransport {
  t_reader : connectionState;
  t_writer : connectionState;
  t_isClient : bool
}.

Definition newTransport (isClient : bool) : transport :=
  let plain := PCStream (mkSPC None noneCipher false) in
  let '(rdir, wdir) := if isClient then (serverKeys, clientKeys) else (clientKeys, serverKeys) in
  mkTransport (mkConnectionState plain 0 rdir None) (mkConnectionState plain 0 wdir None) isClient.

(** Sending on a Go channel of one place; a second send waits for the
    receiver, or gives up on a stop. *)
Definition putPending (c : packetCipher) (s : connectionState) : option connectionState :=
  match co_pendingKeyChange s with
  | None => Some (mkConnectionState (co_packetCipher s) (co_seqNum s) (co_dir s) (Some c))
  | Some _ => None
  end.

(** [prepareKeyChange]; [None] for a send that would block. *)
Definition prepareKeyChange (lib : cryptoLib) (algs : algorithms) (kex : kexResult) (t : transport)
  : outcome (option transport) :=
  let? cr := newPacketCipher lib (co_dir (t_reader t)) (alg_r algs) kex in
  match putPending cr (t_reader t) with
  | None => Ret None
  | Some rd =>
      let? cw := newPacketCipher lib (co_dir (t_writer t)) (alg_w algs) kex in
      match putPending cw (t_writer t) with
      | None => Ret None
      | Some wr => Ret (Some (mkTransport rd wr (t_isClient t)))
      end
  end.

Definition isIgnored (p : bytes) : bool :=
  match p with
  | p0 :: _ => (b2z p0 =? msgIgnore) || (b2z p0 =? msgDebug)
  | [] => false
  end.

(** The loop of [transport.readPacket]: skip the ignored messages.  Each round
    consumes input, so that the length of the input bounds the rounds; [None]
    when the fuel runs out. *)
Fixpoint readLoop (fuel : nat) (r : bytes) (s : connectionState)
  : option (outcome bytes * connectionState * bytes) :=
  match fuel with
  | O => None
  | S fuel' =>
      let '(res, s, r) := conn_readPacket r s in
      match res with
      | Ret p => if isIgnored p then readLoop fuel' r s else Some (Ret p, s, r)
      | _ => Some (res, s, r)
      end
  end.

Definition transport_readPacket (r : bytes) (t : transport) : option (outcome bytes * transport * bytes) :=
  match readLoop (S (length r)) r (t_reader t) with
  | Some (res, s, r) => Some (res, mkTransport s (t_writer t) (t_isClient t), r)
  | None => None
  end.

Definition transport_writePacket (w : writer) (flushErr : option error) (rand packet : bytes) (t : transport)
  : outcome (writer * transport * bytes) :=
  let? res := conn_writePacket w flushErr rand packet (t_writer t) in
  let '(w, s, rand) := res in
  Ret (w, mkTransport (t_reader t) s (t_isClient t), rand).

(** ** Versions *)

Definition packageVersion : bytes := str "SSH-2.0-Go".
Definition maxVersionStringBytes : Z := 255.

Definition newline : byte := "010"%byte.
Definition carriageReturn : byte := "013"%byte.

(** The loop of [readVersion]: one byte at a time, up to a newline.  [n] is
    the number of bytes it may still take. *)
Fixpoint readLine (n : nat) (acc r : bytes) : outcome bytes * bytes :=
  match n with
  | O => (Fail (errNew "ssh: overflow reading version string"), r)
  | S n' =>
      match readFull 1 r with
      | (Ret [c], r) => if Byte.eqb c newline then (Ret acc, r) else readLine n' (acc ++ [c]) r
      | (Ret _, r) => (Panic "unreachable", r)
      | (Fail e, r) => (Fail e, r)
      | (Panic w, r) => (Panic w, r)
      end
  end.

Definition trimCR (v : bytes) : bytes :=
  match last v with
  | Some c => if Byte.eqb c carriageReturn then take (length v - 1) v else v
  | None => v
  end.

Definition readVersion (r : bytes) : outcome bytes * bytes :=
  match readLine (Z.to_nat maxVersionStringBytes) [] r with
  | (Ret v, r) => (Ret (trimCR v), r)
  | other => other
  end.

(** What is written, and what is read in return. *)
Definition exchangeVersions (versionLine : bytes) (w : writer) (r : bytes) : outcome (bytes * writer * bytes) :=
  if existsb (fun c => b2z c <? 32) versionLine then Fail (errNew "ssh: junk character in version line")
  else
    let? w := wwrite (versionLine ++ [carriageReturn; newline]) w in
    let '(res, r) := readVersion r in
    let? them := res in
    Ret (them, w, r).
