(* ===== verification/TransportFacts.v ===== *)
(** * The transport: theorems

    Packets written by one end of a transport are read by the other, in order
    and across key changes; the keys both ends derive are the ones RFC 4253
    prescribes and agree; where the two directions negotiate different
    algorithms they do not; version lines arrive. *)

From S2P Require Import Prelude Wire Codec Messages Negotiate Cipher CipherFacts Transport.

(** ** The dispatching packet cipher is lawful *)

Definition pc_paired (cw cr : packetCipher) : Prop :=
  match cw, cr with
  | PCStream a, PCStream b => paired a b
  | PCGCM a, PCGCM b => paired a b
  | PCCBC a, PCCBC b => paired a b
  | _, _ => False
  end.

Lemma mapW_ret {A B} (f : A -> B) o w c rand :
  mapW f o = Ret (w, c, rand) -> exists c0, o = Ret (w, c0, rand) /\ c = f c0.
Proof. destruct o as [[[w0 c0] r0]| |]; simpl; intros; simplify_eq. eauto. Qed.

(** Lift the law of one cipher to the sum. *)
Lemma lawful_lift {A} `{LawfulCipher A} (f : A -> packetCipher) seq w rand p cw cr w' cw' rand' :
  paired cw cr -> payload_ok p -> 0 <= seq < 2 ^ 32 ->
  mapW f (writePacket seq w rand p cw) = Ret (w', cw', rand') ->
  exists frame a b, w_out w' = w_out w ++ frame /\ cw' = f a /\ paired a b /\
    forall rest, mapR f (readPacket seq (frame ++ rest) cr) = (Ret p, f b, rest).
Proof.
  intros Hp Hok Hs (c0 & E & ->)%mapW_ret.
  destruct (cipher_roundtrip _ _ _ _ _ _ _ _ _ Hp Hok Hs E) as (frame & b & Hw & Hb & Hr).
  exists frame, c0, b. split_and!; try done. intros rest. by rewrite Hr.
Qed.

#[export] Program Instance packetCipher_lawful : LawfulCipher packetCipher := {| paired := pc_paired |}.
Next Obligation.
  intros seq w rand p cw cr w' cw' rand' Hp Hok Hs H.
  destruct cw as [cw|cw|cw], cr as [cr|cr|cr]; try done.
  - destruct (lawful_lift PCStream seq w rand p cw cr w' cw' rand' Hp Hok Hs H) as (frame & a & b & ? & -> & ? & ?).
    by exists frame, (PCStream b).
  - destruct (lawful_lift PCGCM seq w rand p cw cr w' cw' rand' Hp Hok Hs H) as (frame & a & b & ? & -> & ? & ?).
    by exists frame, (PCGCM b).
  - destruct (lawful_lift PCCBC seq w rand p cw cr w' cw' rand' Hp Hok Hs H) as (frame & a & b & ? & -> & ? & ?).
    by exists frame, (PCCBC b).
Qed.

(** ** Reading consumes input *)

Lemma readFull_shorter n r a rest : 0 <= n -> readFull n r = (Ret a, rest) -> zlen rest = zlen r - n.
Proof. intros Hn [-> <-]%readFull_ret; [|done]. rewrite zlen_app. lia. Qed.

(** Reading from a shorter input. *)
Lemma readFull_le n r res rest : readFull n r = (res, rest) -> zlen rest <= zlen r.
Proof.
  unfold readFull. destruct (n <=? zlen r).
  - intros [= _ <-]. unfold zlen, zdrop. rewrite length_drop. lia.
  - destruct r; intros [= _ <-]; rewrite ?zlen_cons, zlen_nil; try done.
    pose proof (zlen_nonneg r). lia.
Qed.

Lemma spc_read_consumes seq r s p s' rest :
  spc_readPacket seq r s = (Ret p, s', rest) -> zlen rest < zlen r.
Proof.
  unfold spc_readPacket. destruct (readFull prefixLen r) as [[x| |] r1] eqn:E1; try done.
  apply readFull_shorter in E1; [|done]. unfold prefixLen in E1.
  destruct (cryptPrefix _ _ _). cbv zeta. destruct (_ <=? _); [done|]. destruct (maxPacket <? _); [done|].
  destruct (readFull _ r1) as [[y| |] r2] eqn:E2; try done. apply readFull_le in E2.
  destruct (XORKeyStream _ _). destruct (match spc_mac _ with Some _ => _ | None => _ end); [|done].
  intros [= _ _ <-]. lia.
Qed.

Lemma gcm_read_consumes seq r s p s' rest :
  gcm_readPacket seq r s = (Ret p, s', rest) -> zlen rest < zlen r.
Proof.
  unfold gcm_readPacket. destruct (readFull 4 r) as [[x| |] r1] eqn:E1; try done.
  apply readFull_shorter in E1; [|done]. cbv zeta. destruct (maxPacket <? _); [done|].
  destruct (readFull _ r1) as [[y| |] r2] eqn:E2; try done. apply readFull_le in E2.
  destruct (a_open _ _ _ _) as [[|b plain]| |]; try done; destruct (incIV _); try done.
  destruct (_ <? 4); [done|]. destruct (_ <=? _); [done|]. destruct (_ || _); [done|].
  intros [= _ _ <-]. lia.
Qed.

Lemma cbc_read_consumes seq r s p s' rest :
  0 < firstBlockLength (bm_blockSize (cbc_decrypter s)) ->
  cbc_readPacket seq r s = (Ret p, s', rest) -> zlen rest < zlen r.
Proof.
  intros Hf. unfold cbc_readPacket.
  destruct (cbc_readPacketLeaky seq r s) as [[res c] r'] eqn:E. destruct res as [p'|e|]; try done.
  2: { destruct (isCbcError e); done. }
  intros [= -> -> ->]. revert E. unfold cbc_readPacketLeaky.
  destruct (readFull _ r) as [[x| |] r1] eqn:E1; try done. apply readFull_shorter in E1; [|lia].
  destruct (CryptBlocks _ _). cbv zeta. destruct (maxPacket <? _); [done|]. destruct (_ <? _); [done|].
  destruct (negb _); [done|]. destruct (_ || _); [done|]. destruct (_ <? _); [done|].
  destruct (readFull _ r1) as [[y| |] r2] eqn:E2; try done. apply readFull_le in E2.
  destruct (_ <? _); [done|]. destruct (CryptBlocks _ _).
  destruct (match cbc_mac _ with Some _ => _ | None => _ end); [|done]. intros [= _ _ <-]. lia.
Qed.

(** A block mode with a real block size. *)
Definition pc_sized (c : packetCipher) : Prop :=
  match c with
  | PCCBC c => bm_blockSize (cbc_decrypter c) = 8 \/ bm_blockSize (cbc_decrypter c) = 16
  | _ => True
  end.

Lemma pc_read_consumes seq r c p c' rest :
  pc_sized c -> readPacket seq r c = (Ret p, c', rest) -> zlen rest < zlen r.
Proof.
  destruct c as [c|c|c]; simpl; intros Hs H.
  - destruct (spc_readPacket seq r c) as [[res c0] r0] eqn:E. simpl in H. simplify_eq. by eapply spc_read_consumes.
  - destruct (gcm_readPacket seq r c) as [[res c0] r0] eqn:E. simpl in H. simplify_eq. by eapply gcm_read_consumes.
  - destruct (cbc_readPacket seq r c) as [[res c0] r0] eqn:E. simpl in H. simplify_eq.
    eapply cbc_read_consumes; [|done]. rewrite firstBlockLength_spec by done. lia.
Qed.

Lemma cbc_read_blockSize seq r c res c' r' :
  cbc_readPacket seq r c = (res, c', r') ->
  bm_blockSize (cbc_decrypter c') = bm_blockSize (cbc_decrypter c).
Proof.
  unfold cbc_readPacket. destruct (cbc_readPacketLeaky seq r c) as [[res0 c0] r0] eqn:E. intros H.
  assert (c' = c0) as -> by (destruct res0 as [|e|]; [|destruct (isCbcError e)|]; by simplify_eq).
  clear H. revert E. unfold cbc_readPacketLeaky, CryptBlocks.
  destruct (readFull _ r) as [[x| |] r1]; try (by intros [= _ <- _]).
  destruct (bm_crypt _ _ _). cbv zeta. cbn [set_camouflage set_decrypter cbc_decrypter bm_crypt bm_state bm_blockSize].
  repeat match goal with |- (if ?b then _ else _) = _ -> _ => destruct b; [by intros [= _ <- _]|] end.
  destruct (readFull _ r1) as [[y| |] r2]; try (by intros [= _ <- _]).
  destruct (_ <? _); [by intros [= _ <- _]|]. destruct (bm_crypt _ _ _).
  destruct (match cbc_mac _ with Some _ => _ | None => _ end); by intros [= _ <- _].
Qed.

Lemma pc_read_sized seq r c res c' r' : readPacket seq r c = (res, c', r') -> pc_sized c -> pc_sized c'.
Proof.
  destruct c as [c|c|c]; simpl; intros H Hs.
  - destruct (spc_readPacket seq r c) as [[??]?]. simpl in H. by simplify_eq.
  - destruct (gcm_readPacket seq r c) as [[??]?]. simpl in H. by simplify_eq.
  - destruct (cbc_readPacket seq r c) as [[??]?] eqn:E. simpl in H. simplify_eq. simpl.
    by rewrite (cbc_read_blockSize _ _ _ _ _ _ E).
Qed.

Definition conn_sized (s : connectionState) : Prop :=
  pc_sized (co_packetCipher s) /\ forall c, co_pendingKeyChange s = Some c -> pc_sized c.

Lemma conn_read_progress r s p s' rest :
  conn_sized s -> conn_readPacket r s = (Ret p, s', rest) -> zlen rest < zlen r /\ conn_sized s'.
Proof.
  intros [Hs Hp]. unfold conn_readPacket. destruct (readPacket _ r _) as [[res c] r1] eqn:E.
  destruct res as [[|p0 packet]| |]; try done. pose proof (pc_read_sized _ _ _ _ _ _ E Hs).
  apply pc_read_consumes in E; [|done]. unfold takePending. cbn [co_pendingKeyChange co_seqNum co_dir].
  destruct (_ =? msgNewKeys).
  - destruct (co_pendingKeyChange s) as [c'|] eqn:Ep; [|done]. intros [= _ <- <-]. split; [done|].
    split; [by apply Hp | done].
  - destruct (_ =? msgDisconnect); [by destruct (unmarshalMsg disconnectMsg _)|].
    intros [= _ <- <-]. by split_and!.
Qed.

Lemma readLoop_total fuel r s :
  conn_sized s -> zlen r < Z.of_nat fuel -> is_Some (readLoop fuel r s).
Proof.
  revert r s. induction fuel as [|fuel IH]; intros r s Hs Hf; [pose proof (zlen_nonneg r); lia|].
  simpl. destruct (conn_readPacket r s) as [[res s'] r'] eqn:E. destruct res as [p| |]; [|eauto|eauto].
  destruct (isIgnored p); [|eauto]. apply conn_read_progress in E as [? ?]; [|done]. apply IH; [done | lia].
Qed.

Lemma readLoop_mono fuel fuel' r s x :
  (fuel <= fuel')%nat -> readLoop fuel r s = Some x -> readLoop fuel' r s = Some x.
Proof.
  revert fuel' r s. induction fuel as [|fuel IH]; intros [|fuel'] r s Hle H; try done; try lia. simpl in *.
  destruct (conn_readPacket r s) as [[[p| |] s'] r']; try done.
  destruct (isIgnored p); [|done]. apply IH; [lia | done].
Qed.

(** ** The two ends of one direction *)

(** The writer at one end and the reader at the other: their ciphers are
    paired, their sequence numbers equal, and so are their pending key changes. *)
Definition in_sync (sw sr : connectionState) : Prop :=
  paired (co_packetCipher sw) (co_packetCipher sr) /\
  co_seqNum sw = co_seqNum sr /\ 0 <= co_seqNum sw < 2 ^ 32 /\
  match co_pendingKeyChange sw, co_pendingKeyChange sr with
  | Some a, Some b => paired a b
  | None, None => True
  | _, _ => False
  end.

(** A packet the transport delivers or skips; a disconnect message ends the
    connection instead. *)
Definition ordinary (p : bytes) : Prop :=
  payload_ok p /\ match p with p0 :: _ => b2z p0 <> msgDisconnect | [] => False end.

Lemma conn_roundtrip w rand p sw sr w' sw' rand' :
  in_sync sw sr -> ordinary p -> conn_writePacket w None rand p sw = Ret (w', sw', rand') ->
  exists frame sr', w_out w' = w_out w ++ frame /\ in_sync sw' sr' /\
    forall rest, conn_readPacket (frame ++ rest) sr = (Ret p, sr', rest).
Proof.
  intros (Hpair & Hseq & Hrange & Hpend) [Hok Hnd]. destruct p as [|p0 p]; [done|]. unfold conn_writePacket.
  destruct (writePacket _ w rand _ _) as [[[w1 c1] rand1]| |] eqn:E; try done. cbn [obind]. cbv zeta.
  destruct (cipher_roundtrip _ _ _ _ _ _ _ _ _ Hpair Hok Hrange E) as (frame & cr' & Hout & Hpair' & Hread).
  intros H. exists frame.
  assert (Hu : 0 <= u32 (co_seqNum sw + 1) < 2 ^ 32) by apply u32_range.
  unfold conn_readPacket. unfold takePending in *. cbn [co_pendingKeyChange co_seqNum co_dir] in *.
  rewrite <- Hseq. setoid_rewrite Hread.
  destruct (b2z p0 =? msgNewKeys) eqn:En.
  - destruct (co_pendingKeyChange sw) as [a|]; [|done]. destruct (co_pendingKeyChange sr) as [b|]; [|done].
    injection H as <- <- <-. eexists. split; [done|]. split; cycle 1; [intros rest; reflexivity|]. split_and!; done || apply Hu.
  - injection H as <- <- <-. eexists. split; [done|].
    rewrite (proj2 (Z.eqb_neq _ _) Hnd). split; cycle 1; [intros rest; reflexivity|]. split_and!; done || apply Hu.
Qed.

(** *** Sequences of packets *)

Fixpoint sendAll (w : writer) (rand : bytes) (ps : list bytes) (t : transport) : outcome (writer * transport * bytes) :=
  match ps with
  | [] => Ret (w, t, rand)
  | p :: ps' =>
      let? res := transport_writePacket w None rand p t in
      let '(w, t, rand) := res in
      sendAll w rand ps' t
  end.

Fixpoint recvN (n : nat) (r : bytes) (t : transport) : option (outcome (list bytes) * transport * bytes) :=
  match n with
  | O => Some (Ret [], t, r)
  | S n' =>
      match transport_readPacket r t with
      | None => None
      | Some (Fail e, t, r) => Some (Fail e, t, r)
      | Some (Panic x, t, r) => Some (Panic x, t, r)
      | Some (Ret p, t, r) =>
          match recvN n' r t with
          | Some (Ret ps, t, r) => Some (Ret (p :: ps), t, r)
          | other => other
          end
      end
  end.

Definition delivered (ps : list bytes) : list bytes := filter (fun p => isIgnored p = false) ps.

Definition set_reader (s : connectionState) (t : transport) : transport := mkTransport s (t_writer t) (t_isClient t).

(** A packet that is not ignored is what [readPacket] returns. *)
Lemma transport_read_hit r t p sr' rest :
  conn_readPacket r (t_reader t) = (Ret p, sr', rest) -> isIgnored p = false ->
  transport_readPacket r t = Some (Ret p, set_reader sr' t, rest).
Proof. intros E Hi. unfold transport_readPacket. simpl. by rewrite E, Hi. Qed.

(** An ignored one is skipped. *)
Lemma transport_read_skip r t p sr' rest x :
  conn_readPacket r (t_reader t) = (Ret p, sr', rest) -> isIgnored p = true -> zlen rest < zlen r ->
  transport_readPacket rest (set_reader sr' t) = Some x ->
  transport_readPacket r t = Some x.
Proof.
  intros E Hi Hlt Hx. unfold transport_readPacket in *.
  assert (Hfuel : (S (length rest) <= length r)%nat) by (unfold zlen in Hlt; lia).
  destruct (readLoop (S (length rest)) rest (t_reader (set_reader sr' t))) as [y|] eqn:Ey; [|done].
  apply (readLoop_mono _ (length r)) in Ey; [|done].
  assert (El : readLoop (S (length r)) r (t_reader t) = readLoop (length r) rest sr').
  { cbn [readLoop]. by rewrite E, Hi. }
  rewrite El. simpl in Ey. by rewrite Ey.
Qed.

Lemma paired_sized (cw cr : packetCipher) : paired cw cr -> pc_sized cr.
Proof.
  destruct cw as [cw|cw|cw], cr as [cr|cr|cr]; simpl; try done. intros (_ & _ & _ & _ & Hm & _). apply Hm.
Qed.

Lemma in_sync_sized sw sr : in_sync sw sr -> conn_sized sr.
Proof.
  intros (Hp & _ & _ & Hpend). split; [by eapply paired_sized|]. intros c Hc. rewrite Hc in Hpend.
  destruct (co_pendingKeyChange sw); [by eapply paired_sized | done].
Qed.

Lemma sendAll_recvN ps w rand a b w' a' rand' :
  in_sync (t_writer a) (t_reader b) -> Forall ordinary ps ->
  sendAll w rand ps a = Ret (w', a', rand') ->
  exists frames, w_out w' = w_out w ++ frames /\
    forall rest, exists b' tail,
      recvN (length (delivered ps)) (frames ++ rest) b = Some (Ret (delivered ps), b', tail ++ rest).
Proof.
  revert w rand a b. induction ps as [|p ps IH]; intros w rand a b Hs Hok H; simpl in H.
  { injection H as <- <- <-. exists []. rewrite app_nil_r. split; [done|]. intros rest. by exists b, []. }
  apply Forall_cons in Hok as [Hp Hok]. unfold transport_writePacket in H.
  destruct (conn_writePacket w None rand p (t_writer a)) as [[[w1 s1] rand1]| |] eqn:E; try done.
  cbn [obind] in H. destruct (conn_roundtrip _ _ _ _ _ _ _ _ Hs Hp E) as (frame & sr' & Hout & Hs' & Hread).
  destruct (IH w1 rand1 (mkTransport (t_reader a) s1 (t_isClient a)) (set_reader sr' b)) as (frames & Hout' & Hrecv);
    [done..|].
  exists (frame ++ frames). split; [by rewrite Hout', Hout, <- app_assoc|]. intros rest.
  destruct (Hrecv rest) as (b' & tail & Hr). unfold delivered. rewrite filter_cons. fold (delivered ps).
  rewrite <- app_assoc. destruct (decide (isIgnored p = false)) as [Hi|Hi].
  - exists b', tail. cbn [length recvN]. rewrite (transport_read_hit _ _ _ _ _ (Hread _) Hi), Hr. done.
  - destruct (length (delivered ps)) as [|n] eqn:En.
    + exists b, (frame ++ frames). apply nil_length_inv in En. rewrite En, <- app_assoc. done.
    + exists b', tail. cbn [recvN] in *.
      destruct (transport_readPacket (frames ++ rest) (set_reader sr' b)) as [x|] eqn:Ex; [|done].
      assert (Hlt : zlen (frames ++ rest) < zlen (frame ++ frames ++ rest)).
      { pose proof (Hread (frames ++ rest)) as Hrd. by apply conn_read_progress in Hrd as [? _]; [|by eapply in_sync_sized]. }
      rewrite (transport_read_skip _ _ _ _ _ x (Hread _)); [done | by apply not_false_is_true | done | done].
Qed.

(** ** Key derivation *)

Section Rfc4253.
Variable tag : bytes.
Variable r : kexResult.

(** The first [n] blocks of RFC 4253, section 7.2: K1 = HASH(K || H || X ||
    session_id), and each next block the hash of K, H and all before it. *)
Fixpoint rfcKey (n : nat) : bytes :=
  match n with
  | O => []
  | S m => rfcKey m ++ kr_Hash r (kr_K r ++ kr_H r ++ (if decide (m = O) then tag ++ kr_SessionID r else rfcKey m))
  end.

Definition rfcBlock (k : nat) : bytes :=
  kr_Hash r (kr_K r ++ kr_H r ++ (if decide (k = O) then tag ++ kr_SessionID r else rfcKey k)).

Fixpoint rfcTail (k m : nat) : bytes :=
  match m with O => [] | S m' => rfcBlock k ++ rfcTail (S k) m' end.

Lemma rfcKey_tail k m : rfcKey (k + m) = rfcKey k ++ rfcTail k m.
Proof.
  revert k. induction m as [|m IH]; intros k; simpl; [by rewrite Nat.add_0_r, app_nil_r|].
  rewrite <- Nat.add_succ_comm, IH. simpl. by rewrite <- app_assoc.
Qed.

Variable hs : Z.
Hypothesis hs_pos : 0 < hs.
Hypothesis hash_size : forall d, zlen (kr_Hash r d) = hs.

Lemma rfcKey_zlen k : zlen (rfcKey k) = Z.of_nat k * hs.
Proof. induction k as [|k IH]; [done|]. simpl rfcKey. rewrite zlen_app, hash_size, IH. lia. Qed.

Lemma generateLoop_rfc fuel n k :
  n <= Z.of_nat fuel -> generateLoop fuel n (rfcKey k) tag r = Some (ztake n (rfcTail k fuel)).
Proof.
  revert n k. induction fuel as [|fuel IH]; intros n k Hn.
  - simpl. rewrite (proj2 (Z.leb_le _ _)) by lia. unfold ztake. by rewrite take_nil.
  - cbn [generateLoop]. destruct (n <=? 0) eqn:E; b2p.
    { unfold ztake. by replace (Z.to_nat n) with O by lia. }
    assert (Hb : kr_Hash r (kr_K r ++ kr_H r ++ (if zlen (rfcKey k) =? 0 then tag ++ kr_SessionID r else rfcKey k))
                 = rfcBlock k).
    { unfold rfcBlock. rewrite rfcKey_zlen. destruct (decide (k = O)) as [->|Hk]; [done|].
      rewrite (proj2 (Z.eqb_neq _ _)); [done | nia]. }
    rewrite Hb. cbn [rfcTail]. assert (Hz : zlen (rfcBlock k) = hs) by apply hash_size.
    destruct (Z_le_gt_dec n hs) as [Hle|Hgt].
    + rewrite (zlen_ztake n) by lia. replace (n - n) with 0 by lia. cbn [Z.ltb Z.compare].
      assert (Hdone : generateLoop fuel 0 (rfcKey k) tag r = Some []) by (by destruct fuel).
      rewrite Hdone, app_nil_r. f_equal. unfold ztake. rewrite take_app_le; [done|]. unfold zlen in Hz. lia.
    + rewrite (ztake_all n (rfcBlock k)) by lia. rewrite Hz, (proj2 (Z.ltb_lt 0 (n - hs))) by lia.
      change (rfcKey k ++ rfcBlock k) with (rfcKey (S k)). rewrite IH by lia. f_equal.
      unfold ztake. rewrite take_app_ge by (unfold zlen in Hz; lia). do 2 f_equal. unfold zlen in Hz. lia.
Qed.

Lemma generateKeyMaterial_rfc n m :
  0 <= n -> n <= Z.of_nat m * hs -> generateKeyMaterial n tag r = Some (ztake n (rfcKey m)).
Proof.
  intros Hn Hm. unfold generateKeyMaterial. change (@nil byte) with (rfcKey 0). rewrite generateLoop_rfc by lia.
  change (rfcTail 0 (Z.to_nat n)) with (rfcKey 0 ++ rfcTail 0 (Z.to_nat n)). rewrite <- rfcKey_tail. f_equal.
  assert (Hz : forall a b, (a <= b)%nat -> n <= Z.of_nat a * hs -> ztake n (rfcKey b) = ztake n (rfcKey a)).
  { intros a b Hab Ha. replace b with (a + (b - a))%nat by lia. rewrite rfcKey_tail. unfold ztake.
    rewrite take_app_le; [done|]. pose proof (rfcKey_zlen a). unfold zlen in *. lia. }
  destruct (Nat.le_ge_cases (0 + Z.to_nat n) m) as [Hle|Hle]; [|by apply Hz].
  symmetry. apply Hz; [done | nia].
Qed.

Lemma generateKeyMaterial_length n : 0 <= n -> exists k, generateKeyMaterial n tag r = Some k /\ zlen k = n.
Proof.
  intros Hn. eexists. split; [apply (generateKeyMaterial_rfc n (Z.to_nat n)); [done | nia]|].
  apply zlen_ztake. rewrite rfcKey_zlen. nia.
Qed.
End Rfc4253.

(** A key exchange whose hash function has a fixed, positive size. *)
Definition kex_ok (r : kexResult) : Prop := exists hs, 0 < hs /\ forall d, zlen (kr_Hash r d) = hs.

(** What the primitives of the library promise. *)
Record lib_ok (lib : cryptoLib) : Prop := {
  lo_mac name key : hash_ok (cl_mac lib name key);
  lo_gcm key a : cl_gcm lib key = Ret a -> aead_ok a;
  lo_cbc name key iv dec enc : cl_cbc lib name key iv = Ret (dec, enc) ->
    bm_blockSize enc = bm_blockSize dec /\ modes_ok (bm_blockSize dec) (bm_crypt enc) (bm_crypt dec) /\
    bm_state enc = bm_state dec
}.

(** A cipher made from the same keys at both ends is paired with itself. *)
Lemma newPacketCipher_paired lib d algs kex c :
  lib_ok lib -> kex_ok kex -> newPacketCipher lib d algs kex = Ret c -> paired c c.
Proof.
  intros Hlib (hs & Hhs & Hsz) H. unfold newPacketCipher in H.
  destruct (generateKeys d algs kex) as [[[iv key] macKey]| |] eqn:Ek; try done. cbn [obind] in H.
  assert (Hmac : forall n k, mac_ok (Some (cl_mac lib n k))) by (intros n k h [= <-]; apply Hlib).
  destruct (bool_decide (da_Cipher algs = gcmCipherID)) eqn:Eg.
  { apply bool_decide_eq_true in Eg. unfold newGCMCipher in H.
    destruct (cl_gcm lib key) as [a| |] eqn:Ea; try done. cbn [obind] in H. injection H as <-.
    split_and!; [done | by apply (lo_gcm lib Hlib key) |]. simpl. unfold generateKeys in Ek. rewrite Eg in Ek.
    destruct (mapGet macModes _); [|done]. simpl in Ek.
    destruct (generateKeyMaterial_length (d_ivTag d) kex hs Hhs Hsz 12 ltac:(lia)) as (k & Eiv & Hl).
    rewrite Eiv in Ek. repeat case_match; by simplify_eq. }
  assert (Hcbc : newBlockCBCCipher lib algs iv key macKey = Ret c -> paired c c).
  { unfold newBlockCBCCipher. destruct (cl_cbc lib _ _ _) as [[dec enc]| |] eqn:Ec; try done. cbn [obind].
    intros [= <-]. destruct (lo_cbc lib Hlib _ _ _ _ _ Ec) as (? & ? & ?).
    unfold paired. simpl. unfold paired. simpl. split_and!; try done. apply Hmac. }
  destruct (bool_decide (da_Cipher algs = aes128cbcID)); [auto|].
  destruct (bool_decide (da_Cipher algs = tripledescbcID)); [auto|].
  destruct (mapGet cipherModes _) as [cm|]; [|done]. destruct (mapGet macModes _) as [mm|]; [|done].
  destruct (createStream _ _ _ _); try done. cbn [obind] in H. injection H as <-.
  unfold paired. simpl. split; [done | apply Hmac].
Qed.

Lemma putPending_spec c s s' :
  putPending c s = Some s' -> co_pendingKeyChange s = None /\ co_packetCipher s' = co_packetCipher s /\
    co_seqNum s' = co_seqNum s /\ co_pendingKeyChange s' = Some c.
Proof. unfold putPending. destruct (co_pendingKeyChange s); intros; by simplify_eq/=. Qed.

Lemma prepareKeyChange_spec lib algs kex t t' :
  prepareKeyChange lib algs kex t = Ret (Some t') ->
  exists cr cw, newPacketCipher lib (co_dir (t_reader t)) (alg_r algs) kex = Ret cr /\
    newPacketCipher lib (co_dir (t_writer t)) (alg_w algs) kex = Ret cw /\
    putPending cr (t_reader t) = Some (t_reader t') /\ putPending cw (t_writer t) = Some (t_writer t').
Proof.
  unfold prepareKeyChange. destruct (newPacketCipher lib _ (alg_r algs) kex) as [cr| |]; try done. cbn [obind].
  destruct (putPending cr _) as [rd|] eqn:Er; [|done].
  destruct (newPacketCipher lib _ (alg_w algs) kex) as [cw| |]; try done. cbn [obind].
  destruct (putPending cw _) as [wr|] eqn:Ew; [|done]. intros [= <-]. by exists cr, cw.
Qed.

Lemma pending_in_sync lib kex algs d sw sr sw' sr' c c' :
  lib_ok lib -> kex_ok kex -> in_sync sw sr ->
  newPacketCipher lib d algs kex = Ret c -> newPacketCipher lib d algs kex = Ret c' ->
  putPending c sw = Some sw' -> putPending c' sr = Some sr' -> in_sync sw' sr'.
Proof.
  intros Hlib Hkex (Hp & Hs & Hr & _) Ec Ec' (_ & P1 & P2 & P3)%putPending_spec (_ & Q1 & Q2 & Q3)%putPending_spec.
  unfold in_sync. rewrite P1, P2, P3, Q1, Q2, Q3. split_and!; try done; try apply Hr.
  rewrite Ec in Ec'. simplify_eq. by eapply newPacketCipher_paired.
Qed.

(** ** Versions *)

Lemma readLine_app n acc line rest :
  newline ∉ line -> zlen line < Z.of_nat n ->
  readLine n acc (line ++ newline :: rest) = (Ret (acc ++ line), rest).
Proof.
  revert n acc. induction line as [|c line IH]; intros [|n] acc Hnl Hn; rewrite ?zlen_cons, ?zlen_nil in Hn;
    try (pose proof (zlen_nonneg line)); try lia.
  - pose proof (readFull_app 1 [newline] rest eq_refl) as E. cbn [app readLine] in *. rewrite E.
    by rewrite byte_eqb_refl, app_nil_r.
  - pose proof (readFull_app 1 [c] (line ++ newline :: rest) eq_refl) as E. cbn [app readLine] in *. rewrite E.
    assert (Byte.eqb c newline = false) as -> by (apply byte_eqb_false; set_solver).
    rewrite IH by (set_solver || lia). by rewrite <- app_assoc.
Qed.

Lemma trimCR_snoc line : trimCR (line ++ [carriageReturn]) = line.
Proof.
  unfold trimCR. rewrite last_snoc, byte_eqb_refl, length_app. simpl.
  rewrite Nat.add_sub. apply take_app_length.
Qed.

(** ** Properties *)

(** C3: the transport delivers.  If the writer of one end and the reader of the
    other are in step (paired ciphers, equal sequence numbers, paired pending
    key changes), then whatever sequence of ordinary packets is written, key
    changes included, the reader's [readPacket] returns exactly those that are
    not ignore or debug messages, in order and unchanged, for each of the
    three packet ciphers. *)
Theorem transport_delivers (ps : list bytes) (w w' : writer) (rand rand' : bytes) (a a' b : transport) :
  in_sync (t_writer a) (t_reader b) -> Forall ordinary ps ->
  sendAll w rand ps a = Ret (w', a', rand') ->
  exists frames, w_out w' = w_out w ++ frames /\
    forall rest, exists b' tail,
      recvN (length (delivered ps)) (frames ++ rest) b = Some (Ret (delivered ps), b', tail ++ rest).
Proof. apply sendAll_recvN. Qed.

Definition toyPackets : list bytes := [str "2ignore"; str "hello"; [z2b msgIgnore; z2b 0]; str "world"].

Definition toySent : writer * transport * bytes :=
  match sendAll (mkWriter [] None) (be_encode 100 77) toyPackets (newTransport true) with
  | Ret x => x
  | _ => (mkWriter [] None, newTransport true, [])
  end.

Lemma transport_delivers_witness :
  exists frames, w_out toySent.1.1 = [] ++ frames /\
    forall rest, exists b' tail,
      recvN (length (delivered toyPackets)) (frames ++ rest) (newTransport false)
      = Some (Ret (delivered toyPackets), b', tail ++ rest).
Proof.
  apply (transport_delivers toyPackets (mkWriter [] None) toySent.1.1 (be_encode 100 77) toySent.2
           (newTransport true) toySent.1.2 (newTransport false)).
  - by split_and!.
  - repeat (constructor; [split; [split; decide_vm | vm_compute; discriminate]|]). constructor.
  - vm_compute. reflexivity.
Defined.

(** [transport.readPacket] terminates: on any input, in any state with a
    real block size, its loop over ignored messages ends with a result within
    as many rounds as there are input bytes. *)
Theorem transport_read_total (r : bytes) (t : transport) :
  conn_sized (t_reader t) -> exists res t' rest, transport_readPacket r t = Some (res, t', rest).
Proof.
  intros Hs. unfold transport_readPacket.
  destruct (readLoop_total (S (length r)) r (t_reader t) Hs ltac:(unfold zlen; lia)) as [[[res s] rest] ->].
  by do 3 eexists.
Qed.

Lemma transport_read_total_witness :
  exists res t' rest, transport_readPacket (w_out toySent.1.1) (newTransport false) = Some (res, t', rest).
Proof. apply (transport_read_total (w_out toySent.1.1) (newTransport false)). by split. Defined.

(** key material is derived as RFC 4253, section 7.2 prescribes: for a hash
    of any fixed size, [generateKeyMaterial] terminates and yields the first
    [n] bytes of K1 || K2 || ..., however many blocks are needed. *)
Theorem key_derivation_rfc (tag : bytes) (r : kexResult) (hs n : Z) (m : nat) :
  0 < hs -> (forall d, zlen (kr_Hash r d) = hs) -> 0 <= n -> n <= Z.of_nat m * hs ->
  generateKeyMaterial n tag r = Some (ztake n (rfcKey tag r m)).
Proof. intros Hhs Hsz. by apply generateKeyMaterial_rfc. Qed.

Definition toyKex : kexResult :=
  mkKexResult (str "H") (str "K") [] [] (fun d => [z2b (zlen d); z2b (be_decode d); z2b 7]) (str "session").

Lemma toyKex_hash d : zlen (kr_Hash toyKex d) = 3.
Proof. done. Qed.

Lemma key_derivation_rfc_witness :
  generateKeyMaterial 8 (str "C") toyKex = Some (ztake 8 (rfcKey (str "C") toyKex 3)).
Proof. apply (key_derivation_rfc (str "C") toyKex 3 8 3); [lia | exact toyKex_hash | lia | lia]. Defined.

(** after a key exchange with the same result at both ends, and the same
    algorithms in both directions, both directions stay in step: the pending
    ciphers the client and the server prepare are paired, so that the packets
    after the new-keys messages are again delivered. *)
Theorem key_change_in_sync (lib : cryptoLib) (algs : algorithms) (kex : kexResult) (c s c' s' : transport) :
  lib_ok lib -> kex_ok kex -> alg_w algs = alg_r algs ->
  co_dir (t_writer c) = co_dir (t_reader s) -> co_dir (t_writer s) = co_dir (t_reader c) ->
  in_sync (t_writer c) (t_reader s) -> in_sync (t_writer s) (t_reader c) ->
  prepareKeyChange lib algs kex c = Ret (Some c') -> prepareKeyChange lib algs kex s = Ret (Some s') ->
  in_sync (t_writer c') (t_reader s') /\ in_sync (t_writer s') (t_reader c').
Proof.
  intros Hlib Hkex Ha D1 D2 S1 S2 (cr & cw & R1 & W1 & PR1 & PW1)%prepareKeyChange_spec
    (sr & sw & R2 & W2 & PR2 & PW2)%prepareKeyChange_spec.
  rewrite Ha, D1 in W1. rewrite Ha, D2 in W2.
  split.
  - exact (pending_in_sync lib kex _ _ _ _ _ _ _ _ Hlib Hkex S1 W1 R2 PW1 PR2).
  - exact (pending_in_sync lib kex _ _ _ _ _ _ _ _ Hlib Hkex S2 W2 R1 PW2 PR1).
Qed.

(** A library of toy primitives: the streams and MACs depend on their keys. *)
Definition toyLib : cryptoLib :=
  mkCryptoLib (fun name key iv => Ret (mkStream (fun i => z2b (i + zlen name + be_decode key + be_decode iv)) 0))
    (fun name key => mkHash 2 (fun d => [z2b (zlen d); z2b (be_decode (key ++ d))]))
    (fun key => Ret toyAEAD)
    (fun name key iv => Fail (errNew "unsupported")).

Lemma toyLib_ok : lib_ok toyLib.
Proof.
  split; simpl.
  - intros name key. split; [split; decide_vm | done].
  - intros key a [= <-]. apply toyAEAD_ok.
  - done.
Qed.

Definition toyAlgs : algorithms :=
  let d := DirectionAlgorithms (str "aes128-ctr") (str "hmac-sha1") compressionNone in
  Algorithms kexAlgoCurve25519SHA256 KeyAlgoED25519 d d.

Definition keyed (isClient : bool) : transport :=
  match prepareKeyChange toyLib toyAlgs toyKex (newTransport isClient) with
  | Ret (Some t) => t
  | _ => newTransport isClient
  end.

Lemma key_change_in_sync_witness :
  in_sync (t_writer (keyed true)) (t_reader (keyed false)) /\
  in_sync (t_writer (keyed false)) (t_reader (keyed true)).
Proof.
  apply (key_change_in_sync toyLib toyAlgs toyKex (newTransport true) (newTransport false) (keyed true) (keyed false)).
  - apply toyLib_ok.
  - exists 3. split; [lia | exact toyKex_hash].
  - reflexivity.
  - reflexivity.
  - reflexivity.
  - by split_and!.
  - by split_and!.
  - vm_compute. reflexivity.
  - vm_compute. reflexivity.
Defined.

(** A client that wants different ciphers for the two directions. *)
Definition asymClientInit : kexInitMsg := example_init [KeyAlgoRSA] [str "aes128-ctr"] [str "aes256-ctr"].
Definition asymServerInit : kexInitMsg := example_init [KeyAlgoRSA] supportedCiphers supportedCiphers.

Definition asymAlgs : algorithms :=
  match findAgreedAlgorithms asymClientInit asymServerInit with Ret a => a | _ => toyAlgs end.

Definition asymKeyed (isClient : bool) : transport :=
  match prepareKeyChange toyLib asymAlgs toyKex (newTransport isClient) with
  | Ret (Some t) => t
  | _ => newTransport isClient
  end.

(** The first byte of the key stream of a pending cipher. *)
Definition firstKeyByte (o : option packetCipher) : Z :=
  match o with
  | Some (PCStream s) => b2z (st_key (spc_cipher s) 0)
  | _ => -1
  end.

(** when the two directions negotiate different ciphers, the ends do not
    agree: [findAgreedAlgorithms] always puts the client-to-server choice in
    [w], and [prepareKeyChange] writes with [w] at the server too, so the
    server prepares to write with the client-to-server cipher while the client
    prepares to read with the server-to-client one; here the client asked for
    aes256-ctr from the server, and the two pending ciphers differ. *)
Theorem asymmetric_direction_mismatch :
  findAgreedAlgorithms asymClientInit asymServerInit = Ret asymAlgs /\
  prepareKeyChange toyLib asymAlgs toyKex (newTransport true) = Ret (Some (asymKeyed true)) /\
  prepareKeyChange toyLib asymAlgs toyKex (newTransport false) = Ret (Some (asymKeyed false)) /\
  kexInitMsg_CiphersServerClient asymClientInit = [str "aes256-ctr"] /\
  da_Cipher (alg_r asymAlgs) = str "aes256-ctr" /\ da_Cipher (alg_w asymAlgs) = str "aes128-ctr" /\
  co_pendingKeyChange (t_writer (asymKeyed false)) <> co_pendingKeyChange (t_reader (asymKeyed true)).
Proof.
  split; [vm_compute; reflexivity|]. split; [vm_compute; reflexivity|]. split; [vm_compute; reflexivity|].
  split; [reflexivity|]. split; [vm_compute; reflexivity|]. split; [vm_compute; reflexivity|].
  intros H. apply (f_equal firstKeyByte) in H. vm_compute in H. discriminate H.
Qed.

Lemma readVersion_line line rest : Forall (fun c => 32 <= b2z c) line -> zlen line <= 253 ->
  readVersion ((line ++ [carriageReturn; newline]) ++ rest) = (Ret line, rest).
Proof.
  intros Hc Hl. unfold readVersion. replace ((line ++ [carriageReturn; newline]) ++ rest)
    with ((line ++ [carriageReturn]) ++ newline :: rest) by (by rewrite <- !app_assoc).
  rewrite readLine_app.
  - simpl. by rewrite trimCR_snoc.
  - rewrite not_elem_of_app. split; [|by rewrite list_elem_of_singleton].
    intros Hin. rewrite Forall_forall in Hc. specialize (Hc _ Hin). revert Hc. by vm_compute.
  - rewrite zlen_app, zlen_cons, zlen_nil. unfold maxVersionStringBytes. lia.
Qed.

Lemma exchangeVersions_ok line w r them r' : Forall (fun c => 32 <= b2z c) line -> w_fail w = None -> readVersion r = (Ret them, r') ->
  exchangeVersions line w r = Ret (them, mkWriter (w_out w ++ line ++ [carriageReturn; newline]) None, r').
Proof.
  intros Hc Hw Hr. unfold exchangeVersions.
  assert (existsb (fun c => b2z c <? 32) line = false) as ->.
  { apply not_true_is_false. intros (c & Hin & Hlt)%existsb_exists. b2p.
    rewrite Forall_forall in Hc. apply list_elem_of_In in Hin. specialize (Hc _ Hin). lia. }
  unfold wwrite. rewrite Hw. cbn [obind]. by rewrite Hr.
Qed.

(** version lines arrive: a version line without control characters of at
    most 253 bytes is accepted by [exchangeVersions], and the peer's
    [readVersion] recovers it from what was written, leaving what follows. *)
Theorem version_roundtrip (line rest : bytes) (w : writer) (r them r' : bytes) :
  Forall (fun c => 32 <= b2z c) line -> zlen line <= 253 -> w_fail w = None ->
  readVersion r = (Ret them, r') ->
  exchangeVersions line w r = Ret (them, mkWriter (w_out w ++ line ++ [carriageReturn; newline]) None, r') /\
  readVersion ((line ++ [carriageReturn; newline]) ++ rest) = (Ret line, rest).
Proof. intros Hc Hl Hw Hr. split; [by apply exchangeVersions_ok | by apply readVersion_line]. Qed.

Lemma version_roundtrip_witness :
  exchangeVersions packageVersion (mkWriter [] None) (str "SSH-2.0-peer" ++ [newline]) =
    Ret (str "SSH-2.0-peer", mkWriter (packageVersion ++ [carriageReturn; newline]) None, []) /\
  readVersion ((packageVersion ++ [carriageReturn; newline]) ++ str "next") = (Ret packageVersion, str "next").
Proof.
  apply (version_roundtrip packageVersion (str "next") (mkWriter [] None)).
  - repeat (constructor; [decide_vm|]). constructor.
  - decide_vm.
  - reflexivity.
  - vm_compute. reflexivity.
Defined.
