(* ===== verification/Kex.v ===== *)
(** * Key exchange (kex.go; signatures from certs.go, server.go, client.go)

    The three key exchange methods, Diffie-Hellman in a group modulo a prime,
    elliptic curve Diffie-Hellman and curve25519, each as its [Client] and its
    [Server]: the packets it sends and the result, given what [readPacket]
    returns.  [KexAlgorithm] is the interface; [LawfulKex] its promise that the
    two ends agree.

    Big-number arithmetic is the source's; elliptic curves, curve25519, hash
    functions and signing keys come from other packages and are parameters
    ([curve], [x25519], the [Hash] fields, [Signer]).  The random source of a
    run is the list of draws it returns. *)

From S2P Require Import Prelude Wire Codec Messages Negotiate Cipher CipherFacts Transport.

(** ** Signatures *)

Record Signature := mk_Signature {
  Signature_Format : bytes;
  Signature_Blob : bytes
}.

Definition Signature_struct : structType :=
  StructType "Signature" "" [("Format", KString); ("Blob", KBytes false)].

#[export] Instance Signature_message : SSHMessage Signature := {|
  typeOf := Signature_struct;
  fieldsOf m := (Signature_Format m, (Signature_Blob m, tt));
  ofFields '(v0, (v1, _)) := mk_Signature v0 v1;
  ofFields_fieldsOf m := match m with mk_Signature _ _ => eq_refl end
|}.

Definition parseSignatureBody (i : bytes) : option (Signature * bytes) :=
  match parseString i with
  | None => None
  | Some (format, i) =>
      match parseString i with
      | None => None
      | Some (blob, i) => Some (mk_Signature format blob, i)
      end
  end.

Definition parseSignature (i : bytes) : option (Signature * bytes) :=
  match parseString i with
  | None => None
  | Some (sigBytes, rest) =>
      match parseSignatureBody sigBytes with
      | Some (out, []) => Some (out, rest)
      | _ => None
      end
  end.

(** A [Signer]: its public key as [PublicKey().Marshal()] and
    [PublicKey().Type()], and [Sign]. *)
Record Signer := mkSigner {
  sg_public : bytes;
  sg_type : bytes;
  sg_sign : bytes -> outcome Signature
}.

Definition signAndMarshal (k : Signer) (data : bytes) : outcome bytes :=
  let? sig := sg_sign k data in
  Marshal sig.

(** A [PublicKey]'s [Verify], which can panic (see Keys.v). *)
Definition Verifier : Type := bytes -> Signature -> outcome unit.

Definition verifyHostKeySignature (hostKey : Verifier) (result : kexResult) : outcome unit :=
  match parseSignatureBody (kr_Signature result) with
  | Some (sig, []) => hostKey (kr_H result) sig
  | _ => Fail (errNew "ssh: signature parse error")
  end.

(** ** What every exchange hashes *)

Record handshakeMagics := mkMagics {
  mg_clientVersion : bytes;
  mg_serverVersion : bytes;
  mg_clientKexInit : bytes;
  mg_serverKexInit : bytes
}.

(** The bytes [write] passes to the hash. *)
Definition magics_write (m : handshakeMagics) : bytes :=
  writeString (mg_clientVersion m) ++ writeString (mg_serverVersion m) ++
  writeString (mg_clientKexInit m) ++ writeString (mg_serverKexInit m).

(** [K := make([]byte, intLength(k)); marshalInt(K, k)]. *)
Definition marshalK (k : Z) : outcome bytes :=
  let? (buf, _) := marshalInt (repeat "000"%byte (Z.to_nat (intLength k))) k in
  Ret buf.

(** ** The interface *)

(** What happens at the connection: the error of [writePacket] and the result
    of [readPacket]. *)
Record kexConn := mkKexConn {
  kc_writeErr : option error;
  kc_read : outcome bytes
}.

(** The packets sent and the result; [R] is the random source. *)
Class KexAlgorithm (A R : Type) := {
  kex_Client : A -> kexConn -> R -> handshakeMagics -> list bytes * outcome kexResult;
  kex_Server : A -> kexConn -> R -> handshakeMagics -> Signer -> list bytes * outcome kexResult
}.

(** Send, and go on only if that worked. *)
Definition sending (c : kexConn) (p : bytes) (k : outcome kexResult) : list bytes * outcome kexResult :=
  match kc_writeErr c with
  | Some e => ([], Fail e)
  | None => ([p], k)
  end.

(** ** Diffie-Hellman *)

Record dhGroup := mkDhGroup {
  dh_g : Z;
  dh_p : Z;
  dh_pMinus1 : Z;
  dh_sha1 : bytes -> bytes
}.

(** [new(big.Int).Exp(x, y, m)]. *)
Definition bigExp (x y m : Z) : Z := (x ^ y) mod m.

Definition diffieHellman (group : dhGroup) (theirPublic myPrivate : Z) : outcome Z :=
  if (theirPublic <=? 1) || (dh_pMinus1 group <=? theirPublic) then
    Fail (errNew "ssh: DH parameter out of bounds")
  else Ret (bigExp theirPublic myPrivate (dh_p group)).

(** The loop that draws until the number is positive. *)
Fixpoint drawPositive (draws : list Z) : outcome Z :=
  match draws with
  | [] => Fail EOF
  | x :: draws' => if 0 <? x then Ret x else drawPositive draws'
  end.

(** What the hash of a Diffie-Hellman exchange covers. *)
Definition dh_hashed (magics : handshakeMagics) (hostKey : bytes) (X Y : Z) (K : bytes) : outcome bytes :=
  let? xs := writeInt X in
  let? ys := writeInt Y in
  Ret (magics_write magics ++ writeString hostKey ++ xs ++ ys ++ K).

Definition dh_Client (group : dhGroup) (c : kexConn) (draws : list Z) (magics : handshakeMagics)
  : list bytes * outcome kexResult :=
  match drawPositive draws with
  | Ret x =>
      let X := bigExp (dh_g group) x (dh_p group) in
      match Marshal (mk_kexDHInitMsg X) with
      | Ret p =>
          sending c p
            (let? packet := kc_read c in
             let? reply := unmarshalMsg kexDHReplyMsg packet in
             let? kInt := diffieHellman group (kexDHReplyMsg_Y reply) x in
             let? K := marshalK kInt in
             let? d := dh_hashed magics (kexDHReplyMsg_HostKey reply) X (kexDHReplyMsg_Y reply) K in
             Ret (mkKexResult (dh_sha1 group d) K (kexDHReplyMsg_HostKey reply)
                    (kexDHReplyMsg_Signature reply) (dh_sha1 group) []))
      | Fail e => ([], Fail e)
      | Panic w => ([], Panic w)
      end
  | Fail e => ([], Fail e)
  | Panic w => ([], Panic w)
  end.

(** The server returns its result whether or not the reply was written. *)
Definition dh_Server (group : dhGroup) (c : kexConn) (draws : list Z) (magics : handshakeMagics) (priv : Signer)
  : list bytes * outcome kexResult :=
  match (let? packet := kc_read c in
         let? init := unmarshalMsg kexDHInitMsg packet in
         let? y := drawPositive draws in
         let Y := bigExp (dh_g group) y (dh_p group) in
         let? kInt := diffieHellman group (kexDHInitMsg_X init) y in
         let? K := marshalK kInt in
         let? d := dh_hashed magics (sg_public priv) (kexDHInitMsg_X init) Y K in
         let H := dh_sha1 group d in
         let? sig := signAndMarshal priv H in
         let? p := Marshal (mk_kexDHReplyMsg (sg_public priv) Y sig) in
         Ret (p, mkKexResult H K (sg_public priv) sig (dh_sha1 group) [])) with
  | Ret (p, result) => (match kc_writeErr c with Some _ => [] | None => [p] end, Ret result)
  | Fail e => ([], Fail e)
  | Panic w => ([], Panic w)
  end.

#[export] Instance dh_kexAlgorithm : KexAlgorithm dhGroup (list Z) := {|
  kex_Client := dh_Client;
  kex_Server := dh_Server
|}.

(** ** Elliptic curves *)

(** An [elliptic.Curve] with its field, points and encoding, and [ecHash] of
    it. *)
Record curve := mkCurve {
  cv_P : Z;
  cv_IsOnCurve : Z -> Z -> bool;
  cv_ScalarMult : Z -> Z -> bytes -> Z * Z;
  cv_Marshal : Z -> Z -> bytes;
  cv_Unmarshal : bytes -> option (Z * Z);
  cv_hash : bytes -> bytes
}.

(** A key pair as [ecdsa.GenerateKey] returns it: the scalar's bytes and the
    public point. *)
Record ecKey := mkEcKey {
  ek_D : bytes;
  ek_X : Z;
  ek_Y : Z
}.

Definition validateECPublicKey (cv : curve) (x y : Z) : bool :=
  if (x =? 0) && (y =? 0) then false
  else if cv_P cv <=? x then false
  else if cv_P cv <=? y then false
  else cv_IsOnCurve cv x y.

Definition unmarshalECKey (cv : curve) (pubkey : bytes) : outcome (Z * Z) :=
  match cv_Unmarshal cv pubkey with
  | None => Fail (errNew "ssh: elliptic.Unmarshal failure")
  | Some (x, y) =>
      if negb (validateECPublicKey cv x y) then Fail (errNew "ssh: public key not on curve")
      else Ret (x, y)
  end.

(** What the hash of the exchanges with encoded public keys covers. *)
Definition ec_hashed (magics : handshakeMagics) (hostKey clientPub serverPub K : bytes) : bytes :=
  magics_write magics ++ writeString hostKey ++ writeString clientPub ++ writeString serverPub ++ K.

Definition ecdh_Client (cv : curve) (c : kexConn) (rand : outcome ecKey) (magics : handshakeMagics)
  : list bytes * outcome kexResult :=
  match rand with
  | Ret ephKey =>
      let pub := cv_Marshal cv (ek_X ephKey) (ek_Y ephKey) in
      match Marshal (mk_kexECDHInitMsg pub) with
      | Ret p =>
          sending c p
            (let? packet := kc_read c in
             let? reply := unmarshalMsg kexECDHReplyMsg packet in
             let? (x, y) := unmarshalECKey cv (kexECDHReplyMsg_EphemeralPubKey reply) in
             let secret := (cv_ScalarMult cv x y (ek_D ephKey)).1 in
             let? K := marshalK secret in
             let H := cv_hash cv (ec_hashed magics (kexECDHReplyMsg_HostKey reply) pub
                                    (kexECDHReplyMsg_EphemeralPubKey reply) K) in
             Ret (mkKexResult H K (kexECDHReplyMsg_HostKey reply) (kexECDHReplyMsg_Signature reply)
                    (cv_hash cv) []))
      | Fail e => ([], Fail e)
      | Panic w => ([], Panic w)
      end
  | Fail e => ([], Fail e)
  | Panic w => ([], Panic w)
  end.

Definition ecdh_Server (cv : curve) (c : kexConn) (rand : outcome ecKey) (magics : handshakeMagics) (priv : Signer)
  : list bytes * outcome kexResult :=
  match (let? packet := kc_read c in
         let? init := unmarshalMsg kexECDHInitMsg packet in
         let? (clientX, clientY) := unmarshalECKey cv (kexECDHInitMsg_ClientPubKey init) in
         let? ephKey := rand in
         let pub := cv_Marshal cv (ek_X ephKey) (ek_Y ephKey) in
         let secret := (cv_ScalarMult cv clientX clientY (ek_D ephKey)).1 in
         let? K := marshalK secret in
         let H := cv_hash cv (ec_hashed magics (sg_public priv) (kexECDHInitMsg_ClientPubKey init) pub K) in
         let? sig := signAndMarshal priv H in
         let? p := Marshal (mk_kexECDHReplyMsg (sg_public priv) pub sig) in
         Ret (p, mkKexResult H K (sg_public priv) sig (cv_hash cv) [])) with
  | Ret (p, result) => sending c p (Ret result)
  | Fail e => ([], Fail e)
  | Panic w => ([], Panic w)
  end.

#[export] Instance ecdh_kexAlgorithm : KexAlgorithm curve (outcome ecKey) := {|
  kex_Client := ecdh_Client;
  kex_Server := ecdh_Server
|}.

(** ** Curve25519 *)

(** [curve25519.ScalarMult] and [ScalarBaseMult] on 32-byte arrays, and
    SHA-256. *)
Record x25519 := mkX25519 {
  xc_ScalarMult : bytes -> bytes -> bytes;
  xc_ScalarBaseMult : bytes -> bytes;
  xc_sha256 : bytes -> bytes
}.

Definition curve25519Zeros : bytes := repeat "000"%byte 32.

(** [generate]: 32 random bytes and their public value. *)
Definition kp_generate (cv : x25519) (rand : bytes) : outcome (bytes * bytes) :=
  let? priv := (readFull 32 rand).1 in
  Ret (priv, xc_ScalarBaseMult cv priv).

(** The shared secret, or an error for a point of the wrong order. *)
Definition x25519_secret (cv : x25519) (priv theirPub : bytes) : outcome bytes :=
  if negb (zlen theirPub =? 32) then Fail (errNew "ssh: peer's curve25519 public value has wrong length")
  else
    let secret := xc_ScalarMult cv priv theirPub in
    if bool_decide (secret = curve25519Zeros) then
      Fail (errNew "ssh: peer's curve25519 public value has wrong order")
    else Ret secret.

Definition x25519_Client (cv : x25519) (c : kexConn) (rand : bytes) (magics : handshakeMagics)
  : list bytes * outcome kexResult :=
  match kp_generate cv rand with
  | Ret (priv, pub) =>
      match Marshal (mk_kexECDHInitMsg pub) with
      | Ret p =>
          sending c p
            (let? packet := kc_read c in
             let? reply := unmarshalMsg kexECDHReplyMsg packet in
             let? secret := x25519_secret cv priv (kexECDHReplyMsg_EphemeralPubKey reply) in
             let? K := marshalK (be_decode secret) in
             let H := xc_sha256 cv (ec_hashed magics (kexECDHReplyMsg_HostKey reply) pub
                                      (kexECDHReplyMsg_EphemeralPubKey reply) K) in
             Ret (mkKexResult H K (kexECDHReplyMsg_HostKey reply) (kexECDHReplyMsg_Signature reply)
                    (xc_sha256 cv) []))
      | Fail e => ([], Fail e)
      | Panic w => ([], Panic w)
      end
  | Fail e => ([], Fail e)
  | Panic w => ([], Panic w)
  end.

Definition x25519_Server (cv : x25519) (c : kexConn) (rand : bytes) (magics : handshakeMagics) (priv : Signer)
  : list bytes * outcome kexResult :=
  match (let? packet := kc_read c in
         let? init := unmarshalMsg kexECDHInitMsg packet in
         if negb (zlen (kexECDHInitMsg_ClientPubKey init) =? 32) then
           Fail (errNew "ssh: peer's curve25519 public value has wrong length")
         else
           let? (kpriv, pub) := kp_generate cv rand in
           let? secret := x25519_secret cv kpriv (kexECDHInitMsg_ClientPubKey init) in
           let? K := marshalK (be_decode secret) in
           let H := xc_sha256 cv (ec_hashed magics (sg_public priv) (kexECDHInitMsg_ClientPubKey init) pub K) in
           let? sig := signAndMarshal priv H in
           let? p := Marshal (mk_kexECDHReplyMsg (sg_public priv) pub sig) in
           Ret (p, mkKexResult H K (sg_public priv) sig (xc_sha256 cv) [])) with
  | Ret (p, result) => sending c p (Ret result)
  | Fail e => ([], Fail e)
  | Panic w => ([], Panic w)
  end.

#[export] Instance x25519_kexAlgorithm : KexAlgorithm x25519 bytes := {|
  kex_Client := x25519_Client;
  kex_Server := x25519_Server
|}.

(** ** The table of methods *)

(** The values of [kexAlgoMap]. *)
Inductive kexMethod :=
| KexDH (group : dhGroup)
| KexECDH (cv : curve)
| KexX25519 (cv : x25519).

(** What the random source gives to each of them. *)
Record randSource := mkRandSource {
  rnd_ints : list Z;
  rnd_key : curve -> outcome ecKey;
  rnd_bytes : bytes
}.

#[export] Instance method_kexAlgorithm : KexAlgorithm kexMethod randSource := {|
  kex_Client m c r magics :=
    match m with
    | KexDH group => kex_Client group c (rnd_ints r) magics
    | KexECDH cv => kex_Client cv c (rnd_key r cv) magics
    | KexX25519 cv => kex_Client cv c (rnd_bytes r) magics
    end;
  kex_Server m c r magics priv :=
    match m with
    | KexDH group => kex_Server group c (rnd_ints r) magics priv
    | KexECDH cv => kex_Server cv c (rnd_key r cv) magics priv
    | KexX25519 cv => kex_Server cv c (rnd_bytes r) magics priv
    end
|}.

(** The packages the table refers to. *)
Record kexLib := mkKexLib {
  kl_sha1 : bytes -> bytes;
  kl_P256 : curve;
  kl_P384 : curve;
  kl_P521 : curve;
  kl_25519 : x25519
}.

Definition oakley2 : Z :=
  0xFFFFFFFFFFFFFFFFC90FDAA22168C234C4C6628B80DC1CD129024E088A67CC74020BBEA63B139B22514A08798E3404DDEF9519B3CD3A431B302B0A6DF25F14374FE1356D6D51C245E485B576625E7EC6F44C42E9A637ED6B0BFF5CB6F406B7EDEE386BFB5A899FA5AE9F24117C4B1FE649286651ECE65381FFFFFFFFFFFFFFFF.

Definition oakley14 : Z :=
  0xFFFFFFFFFFFFFFFFC90FDAA22168C234C4C6628B80DC1CD129024E088A67CC74020BBEA63B139B22514A08798E3404DDEF9519B3CD3A431B302B0A6DF25F14374FE1356D6D51C245E485B576625E7EC6F44C42E9A637ED6B0BFF5CB6F406B7EDEE386BFB5A899FA5AE9F24117C4B1FE649286651ECE45B3DC2007CB8A163BF0598DA48361C55D39A69163FA8FD24CF5F83655D23DCA3AD961C62F356208552BB9ED529077096966D670C354E4ABC9804F1746C08CA18217C32905E462E36CE3BE39E772C180E86039B2783A2EC07A28FB5C55DF06F4C52C9DE2BCBF6955817183995497CEA956AE515D2261898FA051015728E5A8AACAA68FFFFFFFFFFFFFFFF.

Definition kexAlgoMap (lib : kexLib) (name : bytes) : option kexMethod :=
  if bool_decide (name = kexAlgoDH1SHA1) then Some (KexDH (mkDhGroup 2 oakley2 (oakley2 - 1) (kl_sha1 lib)))
  else if bool_decide (name = kexAlgoDH14SHA1) then Some (KexDH (mkDhGroup 2 oakley14 (oakley14 - 1) (kl_sha1 lib)))
  else if bool_decide (name = kexAlgoECDH521) then Some (KexECDH (kl_P521 lib))
  else if bool_decide (name = kexAlgoECDH384) then Some (KexECDH (kl_P384 lib))
  else if bool_decide (name = kexAlgoECDH256) then Some (KexECDH (kl_P256 lib))
  else if bool_decide (name = kexAlgoCurve25519SHA256) then Some (KexX25519 (kl_25519 lib))
  else None.
