(* ===== verification/KexFacts.v ===== *)
(** * Key exchange: the two ends agree

    [LawfulKex]: given good randomness, the client and the server of a key
    exchange each accept the other's packet and end with the same result, in
    particular the same shared secret and exchange hash; the three methods are
    instances. *)

From Stdlib Require Import Zpow_facts.
From S2P Require Import Prelude Wire Codec Messages Negotiate Cipher CipherFacts Transport Kex.

(** ** The promise *)

(** The signer signs everything, with signatures of a bounded size, and its
    key and signatures fit a packet. *)
Definition signer_ok (signer : Signer) : Prop :=
  exists limit,
    (forall d, exists sig, sg_sign signer d = Ret sig /\
       zlen (Signature_Format sig) + zlen (Signature_Blob sig) <= limit) /\
    0 <= limit /\ zlen (sg_public signer) + limit <= 2 ^ 20.

(** Both ends send one packet, accept the other's, and return the same result;
    it carries the server's key and the server's signature of the hash. *)
Definition exchange_agrees (client server : kexConn -> list bytes * outcome kexResult) (signer : Signer) : Prop :=
  exists init reply res,
    client (mkKexConn None (Ret reply)) = ([init], Ret res) /\
    server (mkKexConn None (Ret init)) = ([reply], Ret res) /\
    kr_HostKey res = sg_public signer /\
    signAndMarshal signer (kr_H res) = Ret (kr_Signature res).

Class LawfulKex (A R : Type) `{KexAlgorithm A R} := {
  kex_good : A -> R -> R -> Prop;
  kex_agree a rc rs magics signer :
    kex_good a rc rs -> signer_ok signer ->
    exchange_agrees (fun c => kex_Client a c rc magics)
      (fun c => kex_Server a c rs magics signer) signer
}.

(** ** Messages of the exchange *)

Lemma marshalK_value k :
  marshalK k = Ret (be_encode 4 (zlen (mpint_contents k)) ++ mpint_contents k).
Proof. unfold marshalK. pose proof (writeInt_value k) as H. unfold writeInt in H. exact H. Qed.

Lemma mpint_contents_bound k b : 0 <= k < 2 ^ b -> 0 <= b -> zlen (mpint_contents k) <= b / 8 + 2.
Proof.
  intros Hk Hb. pose proof (mpint_contents_zlen k) as Hl. unfold intLength in Hl.
  rewrite (proj2 (Z.ltb_ge k 0)) in Hl by lia. destruct (k =? 0) eqn:E; b2p; [dlia|].
  pose proof (bitLen_bounds k ltac:(lia)) as [Hlo _].
  assert (Hbl : bitLen k - 1 < b).
  { apply (Z.pow_lt_mono_r_iff 2); [lia | done | lia]. }
  destruct (bitLen k mod 8 =? 0); dlia.
Qed.

Lemma dhInit_roundtrip X p :
  Marshal (mk_kexDHInitMsg X) = Ret p -> zlen (mpint_contents X) <= 2 ^ 20 ->
  unmarshalMsg kexDHInitMsg p = Ret (mk_kexDHInitMsg X).
Proof.
  intros Hp Hl. pose proof Hp as Hv. erewrite Marshal_value in Hv by reflexivity. injection Hv as <-.
  eapply (Unmarshal_value [30]); [reflexivity | repeat constructor | exact Hp | done | | by split].
  simpl. rewrite !zlen_cons, zlen_app, zlen_nil. lia.
Qed.

Lemma dhReply_roundtrip hk Y sig p :
  Marshal (mk_kexDHReplyMsg hk Y sig) = Ret p ->
  zlen hk <= 2 ^ 20 -> zlen (mpint_contents Y) <= 2 ^ 20 -> zlen sig <= 2 ^ 21 ->
  unmarshalMsg kexDHReplyMsg p = Ret (mk_kexDHReplyMsg hk Y sig).
Proof.
  intros Hp H1 H2 H3. pose proof Hp as Hv. erewrite Marshal_value in Hv by reflexivity. injection Hv as <-.
  eapply (Unmarshal_value [31]); [reflexivity | repeat constructor | exact Hp | done | | by split_and!].
  simpl. rewrite !zlen_cons, !zlen_app, !zlen_cons, !zlen_app, !zlen_cons, !zlen_app, zlen_nil. lia.
Qed.

Lemma ecInit_roundtrip pub p :
  Marshal (mk_kexECDHInitMsg pub) = Ret p -> zlen pub <= 2 ^ 20 ->
  unmarshalMsg kexECDHInitMsg p = Ret (mk_kexECDHInitMsg pub).
Proof.
  intros Hp Hl. pose proof Hp as Hv. erewrite Marshal_value in Hv by reflexivity. injection Hv as <-.
  eapply (Unmarshal_value [30]); [reflexivity | repeat constructor | exact Hp | done | | by split].
  simpl. rewrite !zlen_cons, zlen_app, zlen_nil. lia.
Qed.

Lemma ecReply_roundtrip hk pub sig p :
  Marshal (mk_kexECDHReplyMsg hk pub sig) = Ret p ->
  zlen hk <= 2 ^ 20 -> zlen pub <= 2 ^ 20 -> zlen sig <= 2 ^ 21 ->
  unmarshalMsg kexECDHReplyMsg p = Ret (mk_kexECDHReplyMsg hk pub sig).
Proof.
  intros Hp H1 H2 H3. pose proof Hp as Hv. erewrite Marshal_value in Hv by reflexivity. injection Hv as <-.
  eapply (Unmarshal_value [31]); [reflexivity | repeat constructor | exact Hp | done | | by split_and!].
  simpl. rewrite !zlen_cons, !zlen_app, !zlen_cons, !zlen_app, !zlen_cons, !zlen_app, zlen_nil. lia.
Qed.

(** Signatures come back from their encoding. *)
Lemma parseSignatureBody_Marshal sig p rest :
  Marshal sig = Ret p -> zlen (Signature_Format sig) + zlen (Signature_Blob sig) + zlen rest < 2 ^ 32 - 8 ->
  parseSignatureBody (p ++ rest) = Some (sig, rest) /\
  zlen p = zlen (Signature_Format sig) + zlen (Signature_Blob sig) + 8.
Proof.
  intros Hp Hl. erewrite Marshal_value in Hp by reflexivity. destruct sig as [f b]. simpl in Hl.
  assert (Ep : p = (be_encode 4 (zlen f) ++ f) ++ (be_encode 4 (zlen b) ++ b)).
  { injection Hp as <-. simpl. by rewrite !app_nil_r. }
  subst p. pose proof (zlen_nonneg f). pose proof (zlen_nonneg b). pose proof (zlen_nonneg rest). split.
  - unfold parseSignatureBody. rewrite <- !app_assoc.
    rewrite parseString_be by (rewrite !zlen_app, zlen_be_encode; lia). by rewrite parseString_be by (rewrite zlen_app; lia).
  - rewrite !zlen_app, !zlen_be_encode. simpl. lia.
Qed.

Lemma signAndMarshal_ok signer d :
  signer_ok signer -> exists s, signAndMarshal signer d = Ret s /\ zlen s <= 2 ^ 21.
Proof.
  intros (limit & Hs & H0 & Hl). destruct (Hs d) as (sig & E & Hz). unfold signAndMarshal. rewrite E. cbn [obind].
  pose proof (Marshal_value [] sig eq_refl) as Hm. rewrite Hm. eexists. split; [done|].
  pose proof (zlen_nonneg (sg_public signer)).
  destruct (parseSignatureBody_Marshal sig _ [] Hm) as [_ ->]; [rewrite zlen_nil; lia | lia].
Qed.

Lemma signer_ok_public signer : signer_ok signer -> zlen (sg_public signer) <= 2 ^ 20.
Proof. intros (limit & _ & H0 & Hl). lia. Qed.

(** ** Diffie-Hellman *)

Lemma bigExp_comm g x y p : 0 < p -> 0 <= x -> 0 <= y ->
  bigExp (bigExp g y p) x p = bigExp (bigExp g x p) y p.
Proof.
  intros Hp Hx Hy. unfold bigExp. rewrite <- !Zpower_mod by lia.
  by rewrite <- !Z.pow_mul_r, (Z.mul_comm x y) by lia.
Qed.

Lemma drawPositive_pos draws x : drawPositive draws = Ret x -> 0 < x.
Proof.
  induction draws as [|d draws IH]; simpl; [done|].
  destruct (0 <? d) eqn:E; [intros [= <-]; b2p; lia | exact IH].
Qed.

(** The modulus is usable, and the two draws give public values inside the
    open range that both ends insist on. *)
Definition dh_good (group : dhGroup) (dc ds : list Z) : Prop :=
  exists x y,
    drawPositive dc = Ret x /\ drawPositive ds = Ret y /\
    dh_pMinus1 group = dh_p group - 1 /\ 0 < dh_p group /\ bitLen (dh_p group) <= 65536 /\
    1 < bigExp (dh_g group) x (dh_p group) < dh_p group - 1 /\
    1 < bigExp (dh_g group) y (dh_p group) < dh_p group - 1.

Lemma diffieHellman_in_range group pub priv :
  1 < pub < dh_pMinus1 group -> diffieHellman group pub priv = Ret (bigExp pub priv (dh_p group)).
Proof.
  intros H. unfold diffieHellman.
  by rewrite (proj2 (Z.leb_gt pub 1)), (proj2 (Z.leb_gt _ _)) by lia.
Qed.

Lemma dh_value_size X p : 0 < X < p -> bitLen p <= 65536 -> zlen (mpint_contents X) <= 2 ^ 20.
Proof.
  intros HX Hp. pose proof (bitLen_bounds p ltac:(lia)) as [_ Hhi].
  assert (0 < bitLen p) by (unfold bitLen; destruct (p =? 0) eqn:?; b2p; [lia | pose proof (Z.log2_nonneg (Z.abs p)); lia]).
  pose proof (mpint_contents_bound X (bitLen p) ltac:(lia) ltac:(lia)) as H1. dlia.
Qed.

Lemma dh_hashed_ok magics hk X Y K : exists d, dh_hashed magics hk X Y K = Ret d.
Proof. unfold dh_hashed. rewrite !writeInt_value. eexists. reflexivity. Qed.

Lemma dh_agree group dc ds magics signer :
  dh_good group dc ds -> signer_ok signer ->
  exchange_agrees (fun c => dh_Client group c dc magics) (fun c => dh_Server group c ds magics signer) signer.
Proof.
  intros (x & y & Ex & Ey & Em & Hp & Hb & HX & HY) Hsig.
  pose proof (drawPositive_pos _ _ Ex). pose proof (drawPositive_pos _ _ Ey).
  set (X := bigExp (dh_g group) x (dh_p group)) in *.
  set (Y := bigExp (dh_g group) y (dh_p group)) in *.
  assert (HszX : zlen (mpint_contents X) <= 2 ^ 20) by (apply (dh_value_size X (dh_p group)); lia).
  assert (HszY : zlen (mpint_contents Y) <= 2 ^ 20) by (apply (dh_value_size Y (dh_p group)); lia).
  pose proof (signer_ok_public _ Hsig).
  assert (EK : bigExp X y (dh_p group) = bigExp Y x (dh_p group)) by (unfold X, Y; apply bigExp_comm; lia).
  destruct (dh_hashed_ok magics (sg_public signer) X Y
              (be_encode 4 (zlen (mpint_contents (bigExp Y x (dh_p group)))) ++ mpint_contents (bigExp Y x (dh_p group))))
    as [d Ed].
  destruct (signAndMarshal_ok signer (dh_sha1 group d) Hsig) as (s & Es & Hs).
  pose proof (Marshal_value [30] (mk_kexDHInitMsg X) eq_refl) as Hi.
  pose proof (Marshal_value [31] (mk_kexDHReplyMsg (sg_public signer) Y s) eq_refl) as Hr.
  eexists _, _, _. split_and!.
  - unfold dh_Client. rewrite Ex. fold X. cbv zeta. rewrite Hi. unfold sending. cbn [kc_writeErr kc_read obind].
    rewrite (dhReply_roundtrip _ _ _ _ Hr) by lia. cbn [obind kexDHReplyMsg_Y kexDHReplyMsg_HostKey kexDHReplyMsg_Signature].
    rewrite diffieHellman_in_range by lia. cbn [obind]. rewrite marshalK_value. cbn [obind].
    rewrite Ed. cbn [obind]. reflexivity.
  - unfold dh_Server. cbn [kc_writeErr kc_read obind].
    rewrite (dhInit_roundtrip _ _ Hi) by lia. cbn [obind kexDHInitMsg_X]. rewrite Ey. cbn [obind]. cbv zeta. fold Y.
    rewrite diffieHellman_in_range by lia. cbn [obind]. rewrite marshalK_value. cbn [obind].
    rewrite EK, Ed. cbn [obind]. rewrite Es. cbn [obind]. rewrite Hr. reflexivity.
  - reflexivity.
  - exact Es.
Qed.

#[export] Instance dh_lawful : LawfulKex dhGroup (list Z) := {|
  kex_good := dh_good;
  kex_agree := dh_agree
|}.

(** ** Elliptic curves *)

(** What is relied on of a curve and of the keys made on it: the encoding of a
    point decodes to it, the public point is the base point multiplied by the
    scalar and passes the checks of a receiver, and multiplication by two
    scalars commutes. *)
Definition ec_good (cv : curve) (rc rs : outcome ecKey) : Prop :=
  exists kc ks base,
    rc = Ret kc /\ rs = Ret ks /\
    (forall k, k = kc \/ k = ks ->
       cv_ScalarMult cv base.1 base.2 (ek_D k) = (ek_X k, ek_Y k) /\
       cv_Unmarshal cv (cv_Marshal cv (ek_X k) (ek_Y k)) = Some (ek_X k, ek_Y k) /\
       validateECPublicKey cv (ek_X k) (ek_Y k) = true /\
       zlen (cv_Marshal cv (ek_X k) (ek_Y k)) <= 2 ^ 20) /\
    (forall x y d e,
       let p := cv_ScalarMult cv x y d in
       let q := cv_ScalarMult cv x y e in
       cv_ScalarMult cv p.1 p.2 e = cv_ScalarMult cv q.1 q.2 d).

Lemma unmarshalECKey_ok cv p x y :
  cv_Unmarshal cv p = Some (x, y) -> validateECPublicKey cv x y = true -> unmarshalECKey cv p = Ret (x, y).
Proof. intros E V. unfold unmarshalECKey. by rewrite E, V. Qed.

Lemma ecdh_agree cv rc rs magics signer :
  ec_good cv rc rs -> signer_ok signer ->
  exchange_agrees (fun c => ecdh_Client cv c rc magics) (fun c => ecdh_Server cv c rs magics signer) signer.
Proof.
  intros (kc & ks & base & -> & -> & Hk & Hcomm) Hsig.
  destruct (Hk kc) as (Bc & Uc & Vc & Lc); [by left|]. destruct (Hk ks) as (Bs & Us & Vs & Ls); [by right|].
  assert (ES : cv_ScalarMult cv (ek_X kc) (ek_Y kc) (ek_D ks) = cv_ScalarMult cv (ek_X ks) (ek_Y ks) (ek_D kc)).
  { specialize (Hcomm base.1 base.2 (ek_D kc) (ek_D ks)). by rewrite Bc, Bs in Hcomm. }
  set (pc := cv_Marshal cv (ek_X kc) (ek_Y kc)) in *. set (ps := cv_Marshal cv (ek_X ks) (ek_Y ks)) in *.
  pose proof (signer_ok_public _ Hsig).
  set (k := (cv_ScalarMult cv (ek_X ks) (ek_Y ks) (ek_D kc)).1) in *.
  destruct (signAndMarshal_ok signer (cv_hash cv (ec_hashed magics (sg_public signer) pc ps
      (be_encode 4 (zlen (mpint_contents k)) ++ mpint_contents k))) Hsig) as (s & Es & Hs).
  pose proof (Marshal_value [30] (mk_kexECDHInitMsg pc) eq_refl) as Hi.
  pose proof (Marshal_value [31] (mk_kexECDHReplyMsg (sg_public signer) ps s) eq_refl) as Hr.
  eexists _, _, _. split_and!.
  - unfold ecdh_Client. cbv zeta. fold pc. rewrite Hi. unfold sending. cbn [kc_writeErr kc_read obind].
    rewrite (ecReply_roundtrip _ _ _ _ Hr) by lia.
    cbn [obind kexECDHReplyMsg_EphemeralPubKey kexECDHReplyMsg_HostKey kexECDHReplyMsg_Signature].
    rewrite (unmarshalECKey_ok _ _ _ _ Us Vs). cbn [obind]. fold k. rewrite marshalK_value. cbn [obind]. reflexivity.
  - unfold ecdh_Server. cbn [kc_writeErr kc_read obind].
    rewrite (ecInit_roundtrip _ _ Hi) by lia. cbn [obind kexECDHInitMsg_ClientPubKey].
    rewrite (unmarshalECKey_ok _ _ _ _ Uc Vc). cbn [obind]. cbv zeta. fold ps. rewrite ES. fold k.
    rewrite marshalK_value. cbn [obind]. rewrite Es. cbn [obind]. rewrite Hr. reflexivity.
  - reflexivity.
  - exact Es.
Qed.

#[export] Instance ecdh_lawful : LawfulKex curve (outcome ecKey) := {|
  kex_good := ec_good;
  kex_agree := ecdh_agree
|}.

(** ** Curve25519 *)

(** Enough randomness; public values are 32 bytes; the two orders of
    multiplication agree; and this pair of keys does not give the secret that
    both ends refuse. *)
Definition x25519_good (cv : x25519) (rc rs : bytes) : Prop :=
  32 <= zlen rc /\ 32 <= zlen rs /\
  (forall a, zlen a = 32 -> zlen (xc_ScalarBaseMult cv a) = 32) /\
  (forall a b, zlen a = 32 -> zlen b = 32 ->
     xc_ScalarMult cv a (xc_ScalarBaseMult cv b) = xc_ScalarMult cv b (xc_ScalarBaseMult cv a)) /\
  xc_ScalarMult cv (ztake 32 rc) (xc_ScalarBaseMult cv (ztake 32 rs)) <> curve25519Zeros.

Lemma kp_generate_ok cv r :
  32 <= zlen r -> kp_generate cv r = Ret (ztake 32 r, xc_ScalarBaseMult cv (ztake 32 r)).
Proof. intros H. unfold kp_generate, readFull. by rewrite (proj2 (Z.leb_le _ _) H). Qed.

Lemma x25519_secret_ok cv priv pub :
  zlen pub = 32 -> xc_ScalarMult cv priv pub <> curve25519Zeros ->
  x25519_secret cv priv pub = Ret (xc_ScalarMult cv priv pub).
Proof.
  intros Hl Hz. unfold x25519_secret. rewrite Hl. cbn [Z.eqb Pos.eqb negb].
  by rewrite bool_decide_eq_false_2.
Qed.

Lemma x25519_agree cv rc rs magics signer :
  x25519_good cv rc rs -> signer_ok signer ->
  exchange_agrees (fun c => x25519_Client cv c rc magics) (fun c => x25519_Server cv c rs magics signer) signer.
Proof.
  intros (Hc & Hs & Hlen & Hcomm & Hnz) Hsig.
  assert (Lc : zlen (ztake 32 rc) = 32) by (apply zlen_ztake; lia).
  assert (Ls : zlen (ztake 32 rs) = 32) by (apply zlen_ztake; lia).
  pose proof (Hlen _ Lc) as LBc. pose proof (Hlen _ Ls) as LBs.
  pose proof (Hcomm _ _ Ls Lc) as EK.
  set (bc := xc_ScalarBaseMult cv (ztake 32 rc)) in *. set (bs := xc_ScalarBaseMult cv (ztake 32 rs)) in *.
  set (k := xc_ScalarMult cv (ztake 32 rc) bs) in *.
  pose proof (signer_ok_public _ Hsig).
  destruct (signAndMarshal_ok signer (xc_sha256 cv (ec_hashed magics (sg_public signer) bc bs
      (be_encode 4 (zlen (mpint_contents (be_decode k))) ++ mpint_contents (be_decode k)))) Hsig) as (s & Es & Hsz).
  pose proof (Marshal_value [30] (mk_kexECDHInitMsg bc) eq_refl) as Hi.
  pose proof (Marshal_value [31] (mk_kexECDHReplyMsg (sg_public signer) bs s) eq_refl) as Hr.
  eexists _, _, _. split_and!.
  - unfold x25519_Client. rewrite kp_generate_ok by done. fold bc. rewrite Hi. unfold sending.
    cbn [kc_writeErr kc_read obind]. rewrite (ecReply_roundtrip _ _ _ _ Hr) by lia.
    cbn [obind kexECDHReplyMsg_EphemeralPubKey kexECDHReplyMsg_HostKey kexECDHReplyMsg_Signature].
    rewrite x25519_secret_ok by done. cbn [obind]. fold k. rewrite marshalK_value. cbn [obind]. reflexivity.
  - unfold x25519_Server. cbn [kc_writeErr kc_read obind].
    rewrite (ecInit_roundtrip _ _ Hi) by lia. cbn [obind kexECDHInitMsg_ClientPubKey].
    rewrite LBc. cbn [Z.eqb Pos.eqb negb]. rewrite kp_generate_ok by done. cbn [obind]. fold bs.
    rewrite x25519_secret_ok by (rewrite ?EK; done). rewrite EK. cbn [obind].
    rewrite marshalK_value. cbn [obind]. cbv zeta. rewrite Es. cbn [obind]. rewrite Hr. reflexivity.
  - reflexivity.
  - exact Es.
Qed.

#[export] Instance x25519_lawful : LawfulKex x25519 bytes := {|
  kex_good := x25519_good;
  kex_agree := x25519_agree
|}.

(** ** All methods *)

Definition method_good (m : kexMethod) (rc rs : randSource) : Prop :=
  match m with
  | KexDH group => dh_good group (rnd_ints rc) (rnd_ints rs)
  | KexECDH cv => ec_good cv (rnd_key rc cv) (rnd_key rs cv)
  | KexX25519 cv => x25519_good cv (rnd_bytes rc) (rnd_bytes rs)
  end.

Lemma method_agree m rc rs magics signer :
  method_good m rc rs -> signer_ok signer ->
  exchange_agrees (fun c => kex_Client m c rc magics) (fun c => kex_Server m c rs magics signer) signer.
Proof.
  intros Hg Hs. destruct m as [g|cv|cv].
  - by apply (dh_agree g).
  - by apply (ecdh_agree cv).
  - by apply (x25519_agree cv).
Qed.

#[export] Instance method_lawful : LawfulKex kexMethod randSource := {|
  kex_good := method_good;
  kex_agree := method_agree
|}.

(** What the client checks succeeds when the verifier of the host key accepts
    the signer's signatures. *)
Lemma verify_signed signer (verify : Verifier) res :
  signer_ok signer ->
  (forall d sig, sg_sign signer d = Ret sig -> verify d sig = Ret tt) ->
  signAndMarshal signer (kr_H res) = Ret (kr_Signature res) ->
  verifyHostKeySignature verify res = Ret tt.
Proof.
  intros (limit & Hs & H0 & Hl) Hv. unfold signAndMarshal, verifyHostKeySignature.
  destruct (Hs (kr_H res)) as (sig & E & Hz). rewrite E. cbn [obind]. intros Hm.
  pose proof (zlen_nonneg (sg_public signer)).
  destruct (parseSignatureBody_Marshal sig _ [] Hm) as [Hp _]; [rewrite zlen_nil; lia|].
  rewrite app_nil_r in Hp. rewrite Hp. by apply Hv.
Qed.

(** C10: every key exchange method, run by a client and a server that hash the
    same versions and KexInit packets, succeeds at both ends with one packet
    each way and the same result: the shared secret, the exchange hash and
    the host key are equal, and the host key signature the server made is one
    the client's check accepts.  Assumed: randomness that gives admissible
    public values, the group laws of the curve packages, and a host key whose
    verifier accepts its own signatures. *)
Theorem kex_agreement (m : kexMethod) (rc rs : randSource) magics signer verify :
  kex_good m rc rs -> signer_ok signer ->
  (forall d sig, sg_sign signer d = Ret sig -> verify d sig = Ret tt) ->
  exists init reply res,
    kex_Client m (mkKexConn None (Ret reply)) rc magics = ([init], Ret res) /\
    kex_Server m (mkKexConn None (Ret init)) rs magics signer = ([reply], Ret res) /\
    kr_HostKey res = sg_public signer /\
    verifyHostKeySignature verify res = Ret tt.
Proof.
  intros Hg Hs Hv. destruct (kex_agree m rc rs magics signer Hg Hs) as (i & r & res & Hc & Hsv & Hk & Hsg).
  exists i, r, res. split_and!; [done..|]. by apply (verify_signed signer).
Qed.

(** A signer that signs a message with the message itself. *)
Definition echoSigner : Signer :=
  mkSigner (str "key") KeyAlgoED25519 (fun d => Ret (mk_Signature (str "echo") (ztake 64 d))).

Definition echoVerify : Verifier :=
  fun d sig => if bool_decide (Signature_Blob sig = ztake 64 d) then Ret tt else Fail (errNew "bad signature").

Lemma echoSigner_ok : signer_ok echoSigner.
Proof.
  exists 68. split_and!; [|lia|vm_compute; congruence]. intros d. eexists. split; [reflexivity|].
  cbn [Signature_Format Signature_Blob]. change (zlen (str "echo")) with 4.
  assert (zlen (ztake 64 d) <= 64); [|lia]. unfold zlen, ztake. rewrite length_take. lia.
Qed.

Definition smallGroup : dhGroup := mkDhGroup 5 23 22 (fun d => ztake 20 d).

Definition ints (l : list Z) : randSource := mkRandSource l (fun _ => Fail EOF) [].

Lemma kex_agreement_witness :
  exists init reply res,
    kex_Client (KexDH smallGroup) (mkKexConn None (Ret reply)) (ints [0; 6]) (mkMagics [] [] [] []) = ([init], Ret res) /\
    kex_Server (KexDH smallGroup) (mkKexConn None (Ret init)) (ints [15]) (mkMagics [] [] [] []) echoSigner = ([reply], Ret res) /\
    kr_HostKey res = sg_public echoSigner /\
    verifyHostKeySignature echoVerify res = Ret tt.
Proof.
  apply (kex_agreement (KexDH smallGroup) (ints [0; 6]) (ints [15])).
  - exists 6, 15. repeat split; vm_compute; congruence.
  - exact echoSigner_ok.
  - intros d sig [= <-]. unfold echoVerify. by rewrite bool_decide_eq_true_2.
Defined.

(** the Diffie-Hellman server does not report a reply it could not send:
    whatever result it would return on a working connection it returns, with
    no error, on one whose [writePacket] fails, having sent nothing.  The
    elliptic curve servers return the connection's error. *)
Theorem dh_Server_hides_write_error group r draws magics signer reply res e :
  dh_Server group (mkKexConn None r) draws magics signer = ([reply], Ret res) ->
  dh_Server group (mkKexConn (Some e) r) draws magics signer = ([], Ret res) /\
  (forall cv rand p res',
     ecdh_Server cv (mkKexConn None r) rand magics signer = ([p], Ret res') ->
     ecdh_Server cv (mkKexConn (Some e) r) rand magics signer = ([], Fail e)) /\
  (forall cv rand p res',
     x25519_Server cv (mkKexConn None r) rand magics signer = ([p], Ret res') ->
     x25519_Server cv (mkKexConn (Some e) r) rand magics signer = ([], Fail e)).
Proof.
  intros H. split_and!.
  - revert H. unfold dh_Server. cbn [kc_read kc_writeErr].
    destruct (obind r _) as [[p0 r0]| |]; congruence.
  - intros cv rand p res'. unfold ecdh_Server. cbn [kc_read kc_writeErr].
    destruct (obind r _) as [[p0 r0]| |]; [|congruence..]. unfold sending. cbn [kc_writeErr]. congruence.
  - intros cv rand p res'. unfold x25519_Server. cbn [kc_read kc_writeErr].
    destruct (obind r _) as [[p0 r0]| |]; [|congruence..]. unfold sending. cbn [kc_writeErr]. congruence.
Qed.

Definition smallInit : bytes := [x1e; x00; x00; x00; x01; x08].

Definition smallReply : bytes :=
  match (dh_Server smallGroup (mkKexConn None (Ret smallInit)) [15] (mkMagics [] [] [] []) echoSigner).1 with
  | p :: _ => p
  | [] => []
  end.

Definition smallResult : kexResult :=
  match (dh_Server smallGroup (mkKexConn None (Ret smallInit)) [15] (mkMagics [] [] [] []) echoSigner).2 with
  | Ret r => r
  | _ => mkKexResult [] [] [] [] (fun d => d) []
  end.

Lemma dh_Server_hides_write_error_witness :
  dh_Server smallGroup (mkKexConn (Some EOF) (Ret smallInit)) [15] (mkMagics [] [] [] []) echoSigner = ([], Ret smallResult).
Proof.
  refine (proj1 (dh_Server_hides_write_error smallGroup (Ret smallInit) [15] (mkMagics [] [] [] []) echoSigner
                   smallReply smallResult EOF _)).
  vm_compute. reflexivity.
Defined.

(** Every method a configuration may offer is in the table. *)
Lemma kexAlgoMap_supported lib name :
  name ∈ supportedKexAlgos -> is_Some (kexAlgoMap lib name).
Proof.
  intros H. unfold supportedKexAlgos in H.
  repeat (apply elem_of_cons in H as [->|H]; [eexists; vm_compute; reflexivity|]). by apply not_elem_of_nil in H.
Qed.
