(* ===== verification/Handshake.v ===== *)
(** * The handshake transport (handshake.go)

    [handshakeTransport] runs key exchanges over a [keyingTransport] while
    other goroutines write packets.  Three kinds of goroutine share its state:
    callers of [writePacket], the [readLoop] and the [kexLoop].  Each loop is a
    program counter ([readPC], [kexPC]) and one step function per point where
    the code blocks, takes the mutex or touches a channel; [hs_step] runs one
    step chosen by an [event], which also carries what the connection or the
    random source answered.  The body of the key exchange, [enterKeyExchange],
    is a function of those answers; the packets it sends go out one step at a
    time.

    [hs_mu] says that [kexLoop] holds [t.mu]; the other critical sections are
    single steps, enabled when it is free.  The last four fields record the
    history: the packets on the wire (marked when they come from
    [writePacket]), the packets [writePacket] accepted, the packets handed to
    the reader, and whether everything has gone well so far (no failed write,
    no failed exchange, no stop). *)

From S2P Require Import Prelude Wire Codec Messages Negotiate Channel Cipher CipherFacts Transport Kex.

(** ** Configuration and environment *)

Record hsConfig := mkHsConfig {
  hc_config : Config;
  hc_serverVersion : bytes;
  hc_clientVersion : bytes;
  hc_hostKeys : list Signer;
  hc_hostKeyAlgorithms : list bytes
}.

(** What other packages and the caller provide: the key exchange primitives,
    [ParsePublicKey] and the host key callback (with the address it is given). *)
Record hsEnv := mkHsEnv {
  he_lib : kexLib;
  he_ParsePublicKey : bytes -> outcome Verifier;
  he_hostKeyCallback : bytes -> option error
}.

(** ** State *)

Inductive readPC :=
| RTop (first : bool)
| RSendKex (otherInit : bytes) (firstKex : bool)
| RWaitDone (firstKex : bool)
| RPut (p : bytes)
| RRecord
| RCloseStart
| RExit
| RCrash.

Inductive kexPC :=
| KTop
| KSelect (request : option bytes) (sent : bool)
| KInit (request : option bytes)
| KRecord (request : option bytes) (e : error)
| KCheck (request : option bytes)
| KFailDone (e : error)
| KEnter (request : bytes)
| KPush (packets : list bytes) (result : option error)
| KLock (result : option error)
| KReply
| KFlush
| KDrain
| KDrainReply
| KDrainExit
| KReturned
| KCrash.

(** [pendingKex]: [hs_startKex] holds its [otherInit], [hs_done] the contents of
    its one-element channel [done]. *)
Record hsState := mkHsState {
  hs_config : hsConfig;
  hs_writeError : option error;
  hs_sentInit : option (kexInitMsg * bytes);
  hs_pendingPackets : list bytes;
  hs_requestKex : bool;
  hs_startKex : option bytes;
  hs_startClosed : bool;
  hs_done : option (option error);
  hs_incoming : gochan bytes;
  hs_readError : option error;
  hs_algorithms : option algorithms;
  hs_readPacketsLeft : Z;
  hs_readBytesLeft : Z;
  hs_writePacketsLeft : Z;
  hs_writeBytesLeft : Z;
  hs_sessionID : option bytes;
  hs_mu : bool;
  hs_readPC : readPC;
  hs_kexPC : kexPC;
  hs_halted : bool;
  hs_connClosed : bool;
  hs_wire : list (bool * bytes);
  hs_accepted : list bytes;
  hs_delivered : list bytes;
  hs_clean : bool
}.

Definition put_writeError (v : option error) (s : hsState) : hsState :=
  mkHsState (hs_config s) v (hs_sentInit s) (hs_pendingPackets s) (hs_requestKex s) (hs_startKex
    s) (hs_startClosed s) (hs_done s) (hs_incoming s) (hs_readError s) (hs_algorithms s)
    (hs_readPacketsLeft s) (hs_readBytesLeft s) (hs_writePacketsLeft s) (hs_writeBytesLeft s)
    (hs_sessionID s) (hs_mu s) (hs_readPC s) (hs_kexPC s) (hs_halted s) (hs_connClosed s) (hs_wire
    s) (hs_accepted s) (hs_delivered s) (hs_clean s).

Definition put_sentInit (v : option (kexInitMsg * bytes)) (s : hsState) : hsState :=
  mkHsState (hs_config s) (hs_writeError s) v (hs_pendingPackets s) (hs_requestKex s) (hs_startKex
    s) (hs_startClosed s) (hs_done s) (hs_incoming s) (hs_readError s) (hs_algorithms s)
    (hs_readPacketsLeft s) (hs_readBytesLeft s) (hs_writePacketsLeft s) (hs_writeBytesLeft s)
    (hs_sessionID s) (hs_mu s) (hs_readPC s) (hs_kexPC s) (hs_halted s) (hs_connClosed s) (hs_wire
    s) (hs_accepted s) (hs_delivered s) (hs_clean s).

Definition put_pendingPackets (v : list bytes) (s : hsState) : hsState :=
  mkHsState (hs_config s) (hs_writeError s) (hs_sentInit s) v (hs_requestKex s) (hs_startKex s)
    (hs_startClosed s) (hs_done s) (hs_incoming s) (hs_readError s) (hs_algorithms s)
    (hs_readPacketsLeft s) (hs_readBytesLeft s) (hs_writePacketsLeft s) (hs_writeBytesLeft s)
    (hs_sessionID s) (hs_mu s) (hs_readPC s) (hs_kexPC s) (hs_halted s) (hs_connClosed s) (hs_wire
    s) (hs_accepted s) (hs_delivered s) (hs_clean s).

Definition put_requestKex (v : bool) (s : hsState) : hsState :=
  mkHsState (hs_config s) (hs_writeError s) (hs_sentInit s) (hs_pendingPackets s) v (hs_startKex
    s) (hs_startClosed s) (hs_done s) (hs_incoming s) (hs_readError s) (hs_algorithms s)
    (hs_readPacketsLeft s) (hs_readBytesLeft s) (hs_writePacketsLeft s) (hs_writeBytesLeft s)
    (hs_sessionID s) (hs_mu s) (hs_readPC s) (hs_kexPC s) (hs_halted s) (hs_connClosed s) (hs_wire
    s) (hs_accepted s) (hs_delivered s) (hs_clean s).

Definition put_startKex (v : option bytes) (s : hsState) : hsState :=
  mkHsState (hs_config s) (hs_writeError s) (hs_sentInit s) (hs_pendingPackets s) (hs_requestKex
    s) v (hs_startClosed s) (hs_done s) (hs_incoming s) (hs_readError s) (hs_algorithms s)
    (hs_readPacketsLeft s) (hs_readBytesLeft s) (hs_writePacketsLeft s) (hs_writeBytesLeft s)
    (hs_sessionID s) (hs_mu s) (hs_readPC s) (hs_kexPC s) (hs_halted s) (hs_connClosed s) (hs_wire
    s) (hs_accepted s) (hs_delivered s) (hs_clean s).

Definition put_startClosed (v : bool) (s : hsState) : hsState :=
  mkHsState (hs_config s) (hs_writeError s) (hs_sentInit s) (hs_pendingPackets s) (hs_requestKex
    s) (hs_startKex s) v (hs_done s) (hs_incoming s) (hs_readError s) (hs_algorithms s)
    (hs_readPacketsLeft s) (hs_readBytesLeft s) (hs_writePacketsLeft s) (hs_writeBytesLeft s)
    (hs_sessionID s) (hs_mu s) (hs_readPC s) (hs_kexPC s) (hs_halted s) (hs_connClosed s) (hs_wire
    s) (hs_accepted s) (hs_delivered s) (hs_clean s).

Definition put_done (v : option (option error)) (s : hsState) : hsState :=
  mkHsState (hs_config s) (hs_writeError s) (hs_sentInit s) (hs_pendingPackets s) (hs_requestKex
    s) (hs_startKex s) (hs_startClosed s) v (hs_incoming s) (hs_readError s) (hs_algorithms s)
    (hs_readPacketsLeft s) (hs_readBytesLeft s) (hs_writePacketsLeft s) (hs_writeBytesLeft s)
    (hs_sessionID s) (hs_mu s) (hs_readPC s) (hs_kexPC s) (hs_halted s) (hs_connClosed s) (hs_wire
    s) (hs_accepted s) (hs_delivered s) (hs_clean s).

Definition put_incoming (v : gochan bytes) (s : hsState) : hsState :=
  mkHsState (hs_config s) (hs_writeError s) (hs_sentInit s) (hs_pendingPackets s) (hs_requestKex
    s) (hs_startKex s) (hs_startClosed s) (hs_done s) v (hs_readError s) (hs_algorithms s)
    (hs_readPacketsLeft s) (hs_readBytesLeft s) (hs_writePacketsLeft s) (hs_writeBytesLeft s)
    (hs_sessionID s) (hs_mu s) (hs_readPC s) (hs_kexPC s) (hs_halted s) (hs_connClosed s) (hs_wire
    s) (hs_accepted s) (hs_delivered s) (hs_clean s).

Definition put_readError (v : option error) (s : hsState) : hsState :=
  mkHsState (hs_config s) (hs_writeError s) (hs_sentInit s) (hs_pendingPackets s) (hs_requestKex
    s) (hs_startKex s) (hs_startClosed s) (hs_done s) (hs_incoming s) v (hs_algorithms s)
    (hs_readPacketsLeft s) (hs_readBytesLeft s) (hs_writePacketsLeft s) (hs_writeBytesLeft s)
    (hs_sessionID s) (hs_mu s) (hs_readPC s) (hs_kexPC s) (hs_halted s) (hs_connClosed s) (hs_wire
    s) (hs_accepted s) (hs_delivered s) (hs_clean s).

Definition put_algorithms (v : option algorithms) (s : hsState) : hsState :=
  mkHsState (hs_config s) (hs_writeError s) (hs_sentInit s) (hs_pendingPackets s) (hs_requestKex
    s) (hs_startKex s) (hs_startClosed s) (hs_done s) (hs_incoming s) (hs_readError s) v
    (hs_readPacketsLeft s) (hs_readBytesLeft s) (hs_writePacketsLeft s) (hs_writeBytesLeft s)
    (hs_sessionID s) (hs_mu s) (hs_readPC s) (hs_kexPC s) (hs_halted s) (hs_connClosed s) (hs_wire
    s) (hs_accepted s) (hs_delivered s) (hs_clean s).

Definition put_readPacketsLeft (v : Z) (s : hsState) : hsState :=
  mkHsState (hs_config s) (hs_writeError s) (hs_sentInit s) (hs_pendingPackets s) (hs_requestKex
    s) (hs_startKex s) (hs_startClosed s) (hs_done s) (hs_incoming s) (hs_readError s)
    (hs_algorithms s) v (hs_readBytesLeft s) (hs_writePacketsLeft s) (hs_writeBytesLeft s)
    (hs_sessionID s) (hs_mu s) (hs_readPC s) (hs_kexPC s) (hs_halted s) (hs_connClosed s) (hs_wire
    s) (hs_accepted s) (hs_delivered s) (hs_clean s).

Definition put_readBytesLeft (v : Z) (s : hsState) : hsState :=
  mkHsState (hs_config s) (hs_writeError s) (hs_sentInit s) (hs_pendingPackets s) (hs_requestKex
    s) (hs_startKex s) (hs_startClosed s) (hs_done s) (hs_incoming s) (hs_readError s)
    (hs_algorithms s) (hs_readPacketsLeft s) v (hs_writePacketsLeft s) (hs_writeBytesLeft s)
    (hs_sessionID s) (hs_mu s) (hs_readPC s) (hs_kexPC s) (hs_halted s) (hs_connClosed s) (hs_wire
    s) (hs_accepted s) (hs_delivered s) (hs_clean s).

Definition put_writePacketsLeft (v : Z) (s : hsState) : hsState :=
  mkHsState (hs_config s) (hs_writeError s) (hs_sentInit s) (hs_pendingPackets s) (hs_requestKex
    s) (hs_startKex s) (hs_startClosed s) (hs_done s) (hs_incoming s) (hs_readError s)
    (hs_algorithms s) (hs_readPacketsLeft s) (hs_readBytesLeft s) v (hs_writeBytesLeft s)
    (hs_sessionID s) (hs_mu s) (hs_readPC s) (hs_kexPC s) (hs_halted s) (hs_connClosed s) (hs_wire
    s) (hs_accepted s) (hs_delivered s) (hs_clean s).

Definition put_writeBytesLeft (v : Z) (s : hsState) : hsState :=
  mkHsState (hs_config s) (hs_writeError s) (hs_sentInit s) (hs_pendingPackets s) (hs_requestKex
    s) (hs_startKex s) (hs_startClosed s) (hs_done s) (hs_incoming s) (hs_readError s)
    (hs_algorithms s) (hs_readPacketsLeft s) (hs_readBytesLeft s) (hs_writePacketsLeft s) v
    (hs_sessionID s) (hs_mu s) (hs_readPC s) (hs_kexPC s) (hs_halted s) (hs_connClosed s) (hs_wire
    s) (hs_accepted s) (hs_delivered s) (hs_clean s).

Definition put_sessionID (v : option bytes) (s : hsState) : hsState :=
  mkHsState (hs_config s) (hs_writeError s) (hs_sentInit s) (hs_pendingPackets s) (hs_requestKex
    s) (hs_startKex s) (hs_startClosed s) (hs_done s) (hs_incoming s) (hs_readError s)
    (hs_algorithms s) (hs_readPacketsLeft s) (hs_readBytesLeft s) (hs_writePacketsLeft s)
    (hs_writeBytesLeft s) v (hs_mu s) (hs_readPC s) (hs_kexPC s) (hs_halted s) (hs_connClosed s)
    (hs_wire s) (hs_accepted s) (hs_delivered s) (hs_clean s).

Definition put_mu (v : bool) (s : hsState) : hsState :=
  mkHsState (hs_config s) (hs_writeError s) (hs_sentInit s) (hs_pendingPackets s) (hs_requestKex
    s) (hs_startKex s) (hs_startClosed s) (hs_done s) (hs_incoming s) (hs_readError s)
    (hs_algorithms s) (hs_readPacketsLeft s) (hs_readBytesLeft s) (hs_writePacketsLeft s)
    (hs_writeBytesLeft s) (hs_sessionID s) v (hs_readPC s) (hs_kexPC s) (hs_halted s) (hs_connClosed
    s) (hs_wire s) (hs_accepted s) (hs_delivered s) (hs_clean s).

Definition put_readPC (v : readPC) (s : hsState) : hsState :=
  mkHsState (hs_config s) (hs_writeError s) (hs_sentInit s) (hs_pendingPackets s) (hs_requestKex
    s) (hs_startKex s) (hs_startClosed s) (hs_done s) (hs_incoming s) (hs_readError s)
    (hs_algorithms s) (hs_readPacketsLeft s) (hs_readBytesLeft s) (hs_writePacketsLeft s)
    (hs_writeBytesLeft s) (hs_sessionID s) (hs_mu s) v (hs_kexPC s) (hs_halted s) (hs_connClosed s)
    (hs_wire s) (hs_accepted s) (hs_delivered s) (hs_clean s).

Definition put_kexPC (v : kexPC) (s : hsState) : hsState :=
  mkHsState (hs_config s) (hs_writeError s) (hs_sentInit s) (hs_pendingPackets s) (hs_requestKex
    s) (hs_startKex s) (hs_startClosed s) (hs_done s) (hs_incoming s) (hs_readError s)
    (hs_algorithms s) (hs_readPacketsLeft s) (hs_readBytesLeft s) (hs_writePacketsLeft s)
    (hs_writeBytesLeft s) (hs_sessionID s) (hs_mu s) (hs_readPC s) v (hs_halted s) (hs_connClosed s)
    (hs_wire s) (hs_accepted s) (hs_delivered s) (hs_clean s).

Definition put_halted (v : bool) (s : hsState) : hsState :=
  mkHsState (hs_config s) (hs_writeError s) (hs_sentInit s) (hs_pendingPackets s) (hs_requestKex
    s) (hs_startKex s) (hs_startClosed s) (hs_done s) (hs_incoming s) (hs_readError s)
    (hs_algorithms s) (hs_readPacketsLeft s) (hs_readBytesLeft s) (hs_writePacketsLeft s)
    (hs_writeBytesLeft s) (hs_sessionID s) (hs_mu s) (hs_readPC s) (hs_kexPC s) v (hs_connClosed s)
    (hs_wire s) (hs_accepted s) (hs_delivered s) (hs_clean s).

Definition put_connClosed (v : bool) (s : hsState) : hsState :=
  mkHsState (hs_config s) (hs_writeError s) (hs_sentInit s) (hs_pendingPackets s) (hs_requestKex
    s) (hs_startKex s) (hs_startClosed s) (hs_done s) (hs_incoming s) (hs_readError s)
    (hs_algorithms s) (hs_readPacketsLeft s) (hs_readBytesLeft s) (hs_writePacketsLeft s)
    (hs_writeBytesLeft s) (hs_sessionID s) (hs_mu s) (hs_readPC s) (hs_kexPC s) (hs_halted s) v
    (hs_wire s) (hs_accepted s) (hs_delivered s) (hs_clean s).

Definition put_wire (v : list (bool * bytes)) (s : hsState) : hsState :=
  mkHsState (hs_config s) (hs_writeError s) (hs_sentInit s) (hs_pendingPackets s) (hs_requestKex
    s) (hs_startKex s) (hs_startClosed s) (hs_done s) (hs_incoming s) (hs_readError s)
    (hs_algorithms s) (hs_readPacketsLeft s) (hs_readBytesLeft s) (hs_writePacketsLeft s)
    (hs_writeBytesLeft s) (hs_sessionID s) (hs_mu s) (hs_readPC s) (hs_kexPC s) (hs_halted s)
    (hs_connClosed s) v (hs_accepted s) (hs_delivered s) (hs_clean s).

Definition put_accepted (v : list bytes) (s : hsState) : hsState :=
  mkHsState (hs_config s) (hs_writeError s) (hs_sentInit s) (hs_pendingPackets s) (hs_requestKex
    s) (hs_startKex s) (hs_startClosed s) (hs_done s) (hs_incoming s) (hs_readError s)
    (hs_algorithms s) (hs_readPacketsLeft s) (hs_readBytesLeft s) (hs_writePacketsLeft s)
    (hs_writeBytesLeft s) (hs_sessionID s) (hs_mu s) (hs_readPC s) (hs_kexPC s) (hs_halted s)
    (hs_connClosed s) (hs_wire s) v (hs_delivered s) (hs_clean s).

Definition put_delivered (v : list bytes) (s : hsState) : hsState :=
  mkHsState (hs_config s) (hs_writeError s) (hs_sentInit s) (hs_pendingPackets s) (hs_requestKex
    s) (hs_startKex s) (hs_startClosed s) (hs_done s) (hs_incoming s) (hs_readError s)
    (hs_algorithms s) (hs_readPacketsLeft s) (hs_readBytesLeft s) (hs_writePacketsLeft s)
    (hs_writeBytesLeft s) (hs_sessionID s) (hs_mu s) (hs_readPC s) (hs_kexPC s) (hs_halted s)
    (hs_connClosed s) (hs_wire s) (hs_accepted s) v (hs_clean s).

Definition put_clean (v : bool) (s : hsState) : hsState :=
  mkHsState (hs_config s) (hs_writeError s) (hs_sentInit s) (hs_pendingPackets s) (hs_requestKex
    s) (hs_startKex s) (hs_startClosed s) (hs_done s) (hs_incoming s) (hs_readError s)
    (hs_algorithms s) (hs_readPacketsLeft s) (hs_readBytesLeft s) (hs_writePacketsLeft s)
    (hs_writeBytesLeft s) (hs_sessionID s) (hs_mu s) (hs_readPC s) (hs_kexPC s) (hs_halted s)
    (hs_connClosed s) (hs_wire s) (hs_accepted s) (hs_delivered s) v.

(** ** Rekey thresholds *)

Definition packetRekeyThreshold : Z := 2 ^ 31.

Definition thresholdBytes (c : Config) (a : option directionAlgorithms) : Z :=
  if 0 <? RekeyThreshold c then i64 (RekeyThreshold c)
  else match a with
       | Some d => rekeyBytes d
       | None => 2 ^ 30
       end.

Definition resetWriteThresholds (s : hsState) : hsState :=
  put_writeBytesLeft (thresholdBytes (hc_config (hs_config s)) (alg_w <$> hs_algorithms s))
    (put_writePacketsLeft packetRekeyThreshold s).

Definition resetReadThresholds (s : hsState) : hsState :=
  put_readBytesLeft (thresholdBytes (hc_config (hs_config s)) (alg_r <$> hs_algorithms s))
    (put_readPacketsLeft packetRekeyThreshold s).

Definition requestKeyExchange (s : hsState) : hsState := put_requestKex true s.

(** [newHandshakeTransport], with the mandatory first request in the channel;
    both loops are started by [newClientTransport] and [newServerTransport]. *)
Definition newHandshakeTransport (c : hsConfig) : hsState :=
  requestKeyExchange (resetWriteThresholds (resetReadThresholds
    (mkHsState c None None [] false None false None newGochan None None 0 0 0 0 None
       false (RTop true) KTop false false [] [] [] true))).

(** ** Writing *)

(** [pushPacket]: the connection's [writePacket], whose error is [e]. *)
Definition pushPacket (user : bool) (p : bytes) (e : option error) (s : hsState) : hsState :=
  match e with
  | None => put_wire (hs_wire s ++ [(user, p)]) s
  | Some _ => put_clean false s
  end.

Definition recordWriteError (err : error) (s : hsState) : hsState :=
  match hs_writeError s with
  | None => put_clean false (put_writeError (Some err) s)
  | Some _ => s
  end.

(** The counters of [writePacket]. *)
Definition countWrite (p : bytes) (s : hsState) : hsState :=
  let s := if 0 <? hs_writeBytesLeft s
           then put_writeBytesLeft (hs_writeBytesLeft s - zlen p) s
           else requestKeyExchange s in
  if 0 <? hs_writePacketsLeft s
  then put_writePacketsLeft (hs_writePacketsLeft s - 1) s
  else requestKeyExchange s.

(** The error returned, and the state after. *)
Definition writePacket (p : bytes) (connErr : option error) (s : hsState) : outcome (option error * hsState) :=
  match p with
  | [] => Panic "index out of range"
  | p0 :: _ =>
      if b2z p0 =? msgKexInit then
        Ret (Some (errNew "ssh: only handshakeTransport can send kexInit"), s)
      else if b2z p0 =? msgNewKeys then
        Ret (Some (errNew "ssh: only handshakeTransport can send newKeys"), s)
      else
        match hs_writeError s with
        | Some e => Ret (Some e, s)
        | None =>
            let s := put_accepted (hs_accepted s ++ [p]) s in
            match hs_sentInit s with
            | Some _ => Ret (None, put_pendingPackets (hs_pendingPackets s ++ [p]) s)
            | None =>
                let s := pushPacket true p connErr (countWrite p s) in
                match connErr with
                | Some e => Ret (None, put_writeError (Some e) s)
                | None => Ret (None, s)
                end
            end
        end
  end.

(** ** Starting an exchange *)

Definition kexInitOf (c : hsConfig) (cookie : bytes) : kexInitMsg :=
  let cfg := hc_config c in
  let ciphers := default [] (Ciphers cfg) in
  let macs := default [] (MACs cfg) in
  mk_kexInitMsg cookie (default [] (KeyExchanges cfg))
    (match hc_hostKeys c with
     | [] => hc_hostKeyAlgorithms c
     | ks => map sg_type ks
     end)
    ciphers ciphers macs macs supportedCompressions supportedCompressions [] [] false 0.

(** The error is [connErr]; a [KexInit] that is already out is not repeated. *)
Definition sendKexInit (cookie : bytes) (connErr : option error) (s : hsState) : outcome (option error * hsState) :=
  match hs_sentInit s with
  | Some _ => Ret (None, s)
  | None =>
      let msg := kexInitOf (hs_config s) cookie in
      let? packet := Marshal msg in
      let s := pushPacket false packet connErr s in
      match connErr with
      | Some e => Ret (Some e, s)
      | None => Ret (None, put_sentInit (Some (msg, packet)) s)
      end
  end.

(** ** The exchange *)

(** What the connection and the random source answer during one exchange: the
    packet after a wrong guess, the method's packet, and the other side's
    [msgNewKeys]. *)
Record kexRun := mkKexRun {
  run_guess : outcome bytes;
  run_conn : kexConn;
  run_rand : randSource;
  run_prepare : algorithms -> kexResult -> option error;
  run_newKeysErr : option error;
  run_newKeysRead : outcome bytes
}.

(** The host key [server] signs with: the last one of the agreed type. *)
Definition chooseHostKey (algs : algorithms) (hostKeys : list Signer) : option Signer :=
  fold_left (fun h k => if bool_decide (alg_hostKey algs = sg_type k) then Some k else h) hostKeys None.

Definition hs_server (c : hsConfig) (run : kexRun) (kex : kexMethod) (algs : algorithms) (magics : handshakeMagics)
  : list bytes * outcome kexResult :=
  match chooseHostKey algs (hc_hostKeys c) with
  | Some hostKey => kex_Server kex (run_conn run) (run_rand run) magics hostKey
  | None => ([], Panic "invalid memory address or nil pointer dereference")
  end.

Definition hs_client (env : hsEnv) (run : kexRun) (kex : kexMethod) (magics : handshakeMagics)
  : list bytes * outcome kexResult :=
  let '(packets, r) := kex_Client kex (run_conn run) (run_rand run) magics in
  (packets,
   let? result := r in
   let? hostKey := he_ParsePublicKey env (kr_HostKey result) in
   let? _ := verifyHostKeySignature hostKey result in
   match he_hostKeyCallback env (kr_HostKey result) with
   | Some e => Fail e
   | None => Ret result
   end).

(** Whether the other side sent a first packet for the wrong algorithms. *)
Definition wrongGuess (otherInit clientInit serverInit : kexInitMsg) : outcome bool :=
  if negb (kexInitMsg_FirstKexFollows otherInit) then Ret false
  else
    match kexInitMsg_KexAlgos clientInit, kexInitMsg_KexAlgos serverInit with
    | ck :: _, sk :: _ =>
        if negb (bool_decide (ck = sk)) then Ret true
        else
          match kexInitMsg_ServerHostKeyAlgos clientInit, kexInitMsg_ServerHostKeyAlgos serverInit with
          | ch :: _, sh :: _ => Ret (negb (bool_decide (ch = sh)))
          | _, _ => Panic "index out of range"
          end
    | _, _ => Panic "index out of range"
    end.

Definition withSessionID (sid : bytes) (r : kexResult) : kexResult :=
  mkKexResult (kr_H r) (kr_K r) (kr_HostKey r) (kr_Signature r) (kr_Hash r) sid.

(** The packets sent, then [t.algorithms], [t.sessionID] and the error. *)
Definition kexEffect : Type := list bytes * option algorithms * option bytes * outcome unit.

Definition expectNewKeys (r : outcome bytes) : outcome unit :=
  let? packet := r in
  match packet with
  | [] => Panic "index out of range"
  | p0 :: _ => if b2z p0 =? msgNewKeys then Ret tt else Fail (unexpectedMessageError msgNewKeys (b2z p0))
  end.

(** From the agreed algorithms on. *)
Definition runKex (c : hsConfig) (env : hsEnv) (run : kexRun) (sid : option bytes)
  (a : algorithms) (magics : handshakeMagics) : kexEffect :=
  match kexAlgoMap (he_lib env) (alg_kex a) with
  | None => ([], Some a, sid, Fail (Errorf "ssh: unexpected key exchange algorithm %v" [FStr (alg_kex a)]))
  | Some kex =>
      let '(packets, r) :=
        match hc_hostKeys c with
        | [] => hs_client env run kex magics
        | _ => hs_server c run kex a magics
        end in
      match r with
      | Fail e => (packets, Some a, sid, Fail e)
      | Panic w => (packets, Some a, sid, Panic w)
      | Ret result =>
          let id := default (kr_H result) sid in
          match run_prepare run a (withSessionID id result) with
          | Some e => (packets, Some a, Some id, Fail e)
          | None =>
              match run_newKeysErr run with
              | Some e => (packets, Some a, Some id, Fail e)
              | None => (packets ++ [[z2b msgNewKeys]], Some a, Some id, expectNewKeys (run_newKeysRead run))
              end
          end
      end
  end.

Definition enterKeyExchange (c : hsConfig) (env : hsEnv) (run : kexRun)
  (sent : kexInitMsg * bytes) (algs : option algorithms) (sid : option bytes) (otherInitPacket : bytes) : kexEffect :=
  match unmarshalMsg kexInitMsg otherInitPacket with
  | Fail e => ([], algs, sid, Fail e)
  | Panic w => ([], algs, sid, Panic w)
  | Ret otherInit =>
      let '(sentInitMsg, sentInitPacket) := sent in
      let '(clientInit, serverInit, clientKexInit, serverKexInit) :=
        match hc_hostKeys c with
        | [] => (sentInitMsg, otherInit, sentInitPacket, otherInitPacket)
        | _ => (otherInit, sentInitMsg, otherInitPacket, sentInitPacket)
        end in
      let magics := mkMagics (hc_clientVersion c) (hc_serverVersion c) clientKexInit serverKexInit in
      match findAgreedAlgorithms clientInit serverInit with
      | Fail e => ([], None, sid, Fail e)
      | Panic w => ([], None, sid, Panic w)
      | Ret a =>
          match (let? wrong := wrongGuess otherInit clientInit serverInit in
                 if wrong : bool then let? _ := run_guess run in Ret tt else Ret tt) with
          | Fail e => ([], Some a, sid, Fail e)
          | Panic w => ([], Some a, sid, Panic w)
          | Ret _ => runKex c env run sid a magics
          end
      end
  end.

(** ** The read loop *)

(** The counters of [readOnePacket]. *)
Definition countRead (p : bytes) (s : hsState) : hsState :=
  let s := if 0 <? hs_readPacketsLeft s
           then put_readPacketsLeft (hs_readPacketsLeft s - 1) s
           else requestKeyExchange s in
  if 0 <? hs_readBytesLeft s
  then put_readBytesLeft (hs_readBytesLeft s - zlen p) s
  else requestKeyExchange s.

(** [t.readError = err; close(t.incoming); break]. *)
Definition readFailed (err : error) (s : hsState) : hsState :=
  put_readPC RRecord
    (put_incoming (mkGochan (gq (hs_incoming s)) true) (put_readError (Some err) s)).

(** A packet [readOnePacket] returned: dropped, or on its way to the reader. *)
Definition readGot (p : bytes) (s : hsState) : hsState :=
  if isIgnored p then put_readPC (RTop false) s else put_readPC (RPut p) s.

Definition readOnePacket (first : bool) (r : outcome bytes) (s : hsState) : hsState :=
  match r with
  | Fail e => readFailed e s
  | Panic _ => put_readPC RCrash s
  | Ret p =>
      let s := countRead p s in
      match p with
      | [] => put_readPC RCrash s
      | p0 :: _ =>
          if first && negb (b2z p0 =? msgKexInit) then
            readFailed (errNew "ssh: first packet should be msgKexInit") s
          else if negb (b2z p0 =? msgKexInit) then readGot p s
          else put_readPC (RSendKex p (bool_decide (hs_sessionID s = None))) s
      end
  end.

(** After [kex.done]: the packet that stands for the exchange. *)
Definition kexFinished (firstKex : bool) (err : option error) (s : hsState) : hsState :=
  match err with
  | Some e => readFailed e s
  | None => readGot [z2b (if firstKex then msgNewKeys else msgIgnore)] (resetReadThresholds s)
  end.

(** ** The two loops, step by step *)

Inductive event :=
| EvWrite (p : bytes) (connErr : option error)
| EvRead (r : outcome bytes)
| EvReadSend
| EvReadDone
| EvReadPut
| EvReadHalt
| EvReadRecord
| EvReadClose
| EvUserRead (stop : bool)
| EvKexTop
| EvKexStart
| EvKexRequest
| EvKexHalt
| EvKexInit (cookie : bytes) (connErr : option error)
| EvKexRecord
| EvKexCheck
| EvKexDone
| EvKexEnter (run : kexRun)
| EvKexPush
| EvKexLock
| EvKexFlush (errs : list (option error))
| EvHalt.

(** A step of [readLoop]. *)
Definition read_step (ev : event) (s : hsState) : option hsState :=
  match hs_readPC s, ev with
  | RTop first, EvRead r => Some (readOnePacket first r s)
  | RSendKex p firstKex, EvReadSend =>
      match hs_startKex s with
      | None => Some (put_readPC (RWaitDone firstKex) (put_done None (put_startKex (Some p) s)))
      | Some _ => None
      end
  | RWaitDone firstKex, EvReadDone =>
      match hs_done s with
      | Some err => Some (kexFinished firstKex err (put_done None s))
      | None => None
      end
  | RSendKex _ _, EvReadHalt | RWaitDone _, EvReadHalt =>
      if hs_halted s then Some (readFailed EOF s) else None
  | RPut p, EvReadPut =>
      if zlen (gq (hs_incoming s)) <? chanSize
      then Some (put_readPC (RTop false) (put_delivered (hs_delivered s ++ [p])
                   (put_incoming (mkGochan (gq (hs_incoming s) ++ [p]) false) s)))
      else None
  | RPut _, EvReadHalt => if hs_halted s then Some (put_readPC RExit s) else None
  | RRecord, EvReadRecord =>
      if hs_mu s then None
      else match hs_readError s with
           | Some e => Some (put_readPC RCloseStart (recordWriteError e s))
           | None => Some (put_readPC RCloseStart s)
           end
  | RCloseStart, EvReadClose => Some (put_readPC RExit (put_startClosed true s))
  | _, _ => None
  end.

(** The packets queued during the exchange, pushed in order up to the first
    error; [t.writeError] ends as the last push's error. *)
Fixpoint flushPending (ps : list bytes) (errs : list (option error)) (s : hsState) : hsState :=
  match ps with
  | [] => s
  | p :: ps' =>
      let e := default None (head errs) in
      let s := put_writeError e (pushPacket true p e s) in
      match e with
      | Some _ => s
      | None => flushPending ps' (tail errs) s
      end
  end.

(** Leaving the loop: the drain goroutine starts and the connection closes. *)
Definition kexLoopEnd (s : hsState) : hsState := put_connClosed true (put_kexPC KDrain s).

(** The event is a stop request seen by one of the [select]s. *)
Definition kexHalt (s : hsState) : option hsState :=
  if hs_halted s then Some (put_kexPC KReturned s) else None.

(** The inner loop after [request] or [sent] changed. *)
Definition kexInner (request : option bytes) (sent : bool) : kexPC :=
  match request, sent with
  | Some r, true => KCheck (Some r)
  | _, _ => KSelect request sent
  end.

(** The end of the exchange, under the mutex: [requestKex] is emptied. *)
Definition finishKex (result : option error) (s : hsState) : hsState :=
  let s := put_mu true (put_sentInit None (put_writeError result s)) in
  let s := match result with Some _ => put_clean false s | None => s end in
  put_kexPC KReply (put_requestKex false (resetWriteThresholds s)).

(** A step of [kexLoop]. *)
Definition kex_step (env : hsEnv) (ev : event) (s : hsState) : option hsState :=
  match hs_kexPC s, ev with
  | KTop, EvKexTop =>
      if hs_mu s then None
      else match hs_writeError s with
           | None => Some (put_kexPC (KSelect None false) s)
           | Some _ => Some (kexLoopEnd s)
           end
  | KSelect request sent, EvKexStart =>
      match hs_startKex s with
      | Some r =>
          Some (put_kexPC (if sent : bool then kexInner (Some r) true else KInit (Some r)) (put_startKex None s))
      | None => if hs_startClosed s then Some (kexLoopEnd s) else None
      end
  | KSelect request sent, EvKexRequest =>
      if hs_requestKex s
      then Some (put_kexPC (if sent : bool then kexInner request true else KInit request) (put_requestKex false s))
      else None
  | KSelect _ _, EvKexHalt => kexHalt s
  | KInit request, EvKexInit cookie connErr =>
      if hs_mu s then None
      else match sendKexInit cookie connErr s with
           | Ret (None, s) => Some (put_kexPC (kexInner request true) s)
           | Ret (Some e, s) => Some (put_kexPC (KRecord request e) s)
           | _ => Some (put_kexPC KCrash s)
           end
  | KRecord request e, EvKexRecord =>
      if hs_mu s then None else Some (put_kexPC (KCheck request) (recordWriteError e s))
  | KCheck request, EvKexCheck =>
      if hs_mu s then None
      else match hs_writeError s, request with
           | Some e, Some _ => Some (put_kexPC (KFailDone e) s)
           | Some e, None => Some (kexLoopEnd s)
           | None, Some r => Some (put_kexPC (KEnter r) s)
           | None, None => Some (put_kexPC KCrash s)
           end
  | KFailDone e, EvKexDone => Some (kexLoopEnd (put_done (Some (Some e)) s))
  | KFailDone _, EvKexHalt => kexHalt s
  | KEnter r, EvKexEnter run =>
      match hs_sentInit s with
      | None => Some (put_kexPC KCrash s)
      | Some sent =>
          match enterKeyExchange (hs_config s) env run sent (hs_algorithms s) (hs_sessionID s) r with
          | (packets, algs, sid, res) =>
              let s := put_sessionID sid (put_algorithms algs s) in
              match res with
              | Ret _ => Some (put_kexPC (KPush packets None) s)
              | Fail e => Some (put_kexPC (KPush packets (Some e)) s)
              | Panic _ => Some (put_kexPC KCrash s)
              end
          end
      end
  | KPush (p :: packets) result, EvKexPush =>
      Some (put_kexPC (KPush packets result) (pushPacket false p None s))
  | KPush [] result, EvKexPush => Some (put_kexPC (KLock result) s)
  | KLock result, EvKexLock => if hs_mu s then None else Some (finishKex result s)
  | KReply, EvKexDone => Some (put_kexPC KFlush (put_done (Some (hs_writeError s)) s))
  | KReply, EvKexHalt => kexHalt s
  | KFlush, EvKexFlush errs =>
      Some (put_kexPC KTop (put_mu false
        (put_pendingPackets [] (flushPending (hs_pendingPackets s) errs s))))
  | KDrain, EvKexStart =>
      match hs_startKex s with
      | Some _ => Some (put_kexPC KDrainReply (put_startKex None s))
      | None => None
      end
  | KDrain, EvKexHalt => if hs_halted s then Some (put_kexPC KDrainExit s) else None
  | KDrainReply, EvKexDone => Some (put_kexPC KDrain (put_done (Some (hs_writeError s)) s))
  | KDrainReply, EvKexHalt => if hs_halted s then Some (put_kexPC KDrainExit s) else None
  | _, _ => None
  end.

(** [readPacket] and [waitSession]; [stop] when the [select] takes a case of the
    stop request rather than [t.incoming]. *)
Definition hs_readPacket (stop : bool) (s : hsState) : option (outcome bytes * hsState) :=
  if stop then (if hs_halted s then Some (Fail EOF, s) else None)
  else
    match gq (hs_incoming s) with
    | p :: q => Some (Ret p, put_incoming (mkGochan q (gclosed (hs_incoming s))) s)
    | [] =>
        if gclosed (hs_incoming s) then
          Some (match hs_readError s with Some e => Fail e | None => Ret [] end, s)
        else None
    end.

Definition waitSession (stop : bool) (s : hsState) : option (outcome unit * hsState) :=
  match hs_readPacket stop s with
  | None => None
  | Some (Fail e, s) => Some (Fail e, s)
  | Some (Panic w, s) => Some (Panic w, s)
  | Some (Ret [], s) => Some (Panic "index out of range", s)
  | Some (Ret (p0 :: _), s) =>
      if b2z p0 =? msgNewKeys then Some (Ret tt, s)
      else Some (Fail (errNew "ssh: first packet should be msgNewKeys"), s)
  end.

Definition hs_step (env : hsEnv) (ev : event) (s : hsState) : option hsState :=
  match ev with
  | EvWrite p connErr =>
      if hs_mu s then None
      else match writePacket p connErr s with
           | Ret (_, s) => Some s
           | _ => None
           end
  | EvUserRead stop => snd <$> hs_readPacket stop s
  | EvHalt => Some (put_clean false (put_halted true s))
  | EvRead _ | EvReadSend | EvReadDone | EvReadPut | EvReadHalt | EvReadRecord | EvReadClose =>
      read_step ev s
  | _ => kex_step env ev s
  end.

(** Running a sequence of events. *)
Fixpoint hs_run (env : hsEnv) (evs : list event) (s : hsState) : option hsState :=
  match evs with
  | [] => Some s
  | ev :: evs' => match hs_step env ev s with Some s' => hs_run env evs' s' | None => None end
  end.
