(* ===== verification/HandshakeFacts.v ===== *)
(** * The handshake transport: what holds in every interleaving

    The wire protocol of rekeying (nothing but the exchange between a KexInit
    and its NewKeys), order and completeness of the packets written, the first
    packet a reader sees, the session identifier, the agreement of two ends,
    and two things that go wrong: the mutex that a stopped [kexLoop] keeps, and
    the queue that a failed exchange still sends. *)

From S2P Require Import Prelude Wire Codec Messages Negotiate Channel Cipher CipherFacts Transport Kex KexFacts Handshake.

(** ** Reachable states *)

Inductive hs_reachable (env : hsEnv) (c : hsConfig) : hsState -> Prop :=
| hs_start : hs_reachable env c (newHandshakeTransport c)
| hs_next ev s s' : hs_reachable env c s -> hs_step env ev s = Some s' -> hs_reachable env c s'.

Lemma hs_run_reachable env c evs s s' :
  hs_reachable env c s -> hs_run env evs s = Some s' -> hs_reachable env c s'.
Proof.
  revert s. induction evs as [|ev evs IH]; simpl; intros s Hs; [by intros [= <-]|].
  destruct (hs_step env ev s) as [s1|] eqn:E; [|done]. apply IH. by eapply hs_next.
Qed.

(** ** The protocol of the wire *)

Inductive wireMode := Normal | InKex.

(** Outside an exchange: user packets other than KexInit and NewKeys, until a
    KexInit.  Inside: only packets of the method, until NewKeys. *)
Definition wire_next (m : wireMode) (item : bool * bytes) : option wireMode :=
  match m, item with
  | Normal, (true, p0 :: _) =>
      if (b2z p0 =? msgKexInit) || (b2z p0 =? msgNewKeys) then None else Some Normal
  | Normal, (false, p0 :: _) => if b2z p0 =? msgKexInit then Some InKex else None
  | InKex, (false, p0 :: _) =>
      if b2z p0 =? msgNewKeys then Some Normal
      else if (b2z p0 =? msgKexDHInit) || (b2z p0 =? msgKexDHReply) then Some InKex
      else None
  | _, _ => None
  end.

Fixpoint wire_from (m : wireMode) (w : list (bool * bytes)) : option wireMode :=
  match w with
  | [] => Some m
  | x :: w' => match wire_next m x with Some m' => wire_from m' w' | None => None end
  end.

Lemma wire_from_app m w w' :
  wire_from m (w ++ w') = match wire_from m w with Some m' => wire_from m' w' | None => None end.
Proof. revert m. induction w as [|x w IH]; intros m; simpl; [done|]. by destruct (wire_next m x). Qed.

(** The packets that came from [writePacket]. *)
Definition userPackets (w : list (bool * bytes)) : list bytes := map snd (filter (fun x => x.1 = true) w).

Lemma userPackets_app w w' : userPackets (w ++ w') = userPackets w ++ userPackets w'.
Proof. unfold userPackets. by rewrite filter_app, map_app. Qed.

Definition ours (ps : list bytes) : list (bool * bytes) := map (pair false) ps.

Lemma userPackets_ours ps : userPackets (ours ps) = [].
Proof. induction ps; [done|]. exact IHps. Qed.

(** ** The packets of an exchange *)

Definition kexPacket (p : bytes) : Prop := wire_next InKex (false, p) = Some InKex.

Definition atMostOne (ps : list bytes) : Prop := ps = [] \/ exists p, ps = [p] /\ kexPacket p.

Lemma tagged_kexPacket `{SSHMessage T, !StructCodec (st_fields (typeOf T))} (m : T) t p :
  Marshal m = Ret p -> typeTags (typeOf T) = Ret [t] -> t = 30 \/ t = 31 -> kexPacket p.
Proof.
  intros Hm Ht Hv. rewrite (Marshal_value [t] m Ht) in Hm. injection Hm as <-.
  unfold kexPacket. destruct Hv as [-> | ->]; reflexivity.
Qed.

Ltac tagged t E := apply (tagged_kexPacket _ t _ E); [reflexivity | lia].

Lemma sending_atMostOne c p k : kexPacket p -> atMostOne (sending c p k).1.
Proof. intros Hp. unfold sending. destruct (kc_writeErr c); [by left|]. right. by exists p. Qed.

Lemma Client_atMostOne (m : kexMethod) c r magics : atMostOne (kex_Client m c r magics).1.
Proof.
  destruct m as [g|cv|cv]; simpl.
  - unfold dh_Client. destruct (drawPositive _) as [x| |]; [|by left..].
    destruct (Marshal _) as [p| |] eqn:E; [|by left..].
    apply sending_atMostOne. tagged 30 E.
  - unfold ecdh_Client. destruct (rnd_key r cv) as [k| |]; [|by left..].
    destruct (Marshal _) as [p| |] eqn:E; [|by left..].
    apply sending_atMostOne. tagged 30 E.
  - unfold x25519_Client. destruct (kp_generate cv _) as [[priv pub]| |]; [|by left..].
    destruct (Marshal _) as [p| |] eqn:E; [|by left..].
    apply sending_atMostOne. tagged 30 E.
Qed.

(** The reply a server marshals, whatever comes before it. *)
Lemma Server_atMostOne (m : kexMethod) c r magics signer : atMostOne (kex_Server m c r magics signer).1.
Proof.
  destruct m as [g|cv|cv]; simpl.
  - unfold dh_Server. destruct (obind _ _) as [[p res]| |] eqn:E; [|by left..].
    do 7 (apply obind_ret in E as (? & _ & E)). apply obind_ret in E as (q & Eq & [= <- <-]).
    destruct (kc_writeErr c); [by left|]. right. eexists. split; [done|].
    tagged 31 Eq.
  - unfold ecdh_Server. destruct (obind _ _) as [[p res]| |] eqn:E; [|by left..].
    do 2 (apply obind_ret in E as (? & _ & E)). apply obind_ret in E as ([? ?] & _ & E).
    do 3 (apply obind_ret in E as (? & _ & E)). apply obind_ret in E as (q & Eq & [= <- <-]).
    apply sending_atMostOne. tagged 31 Eq.
  - unfold x25519_Server. destruct (obind _ _) as [[p res]| |] eqn:E; [|by left..].
    do 2 (apply obind_ret in E as (? & _ & E)). destruct (negb _); [done|].
    apply obind_ret in E as ([? ?] & _ & E).
    do 3 (apply obind_ret in E as (? & _ & E)). apply obind_ret in E as (q & Eq & [= <- <-]).
    apply sending_atMostOne. tagged 31 Eq.
Qed.

(** An exchange's packets follow the protocol; a successful one ends it. *)
Lemma atMostOne_wire ps m rest :
  atMostOne ps -> wire_from InKex (ours rest) = Some m -> wire_from InKex (ours (ps ++ rest)) = Some m.
Proof. intros [->|(p & -> & Hp)] Hr; [done|].
  change (ours ([p] ++ rest)) with ((false, p) :: ours rest). cbn [wire_from]. unfold kexPacket in Hp. by rewrite Hp. Qed.

Lemma hs_client_packets env run kex magics : atMostOne (hs_client env run kex magics).1.
Proof.
  unfold hs_client. pose proof (Client_atMostOne kex (run_conn run) (run_rand run) magics) as H.
  by destruct (kex_Client kex _ _ _).
Qed.

Lemma hs_server_packets c run kex a magics : atMostOne (hs_server c run kex a magics).1.
Proof. unfold hs_server. destruct (chooseHostKey _ _); [apply Server_atMostOne | by left]. Qed.

(** What an exchange leaves: a legal continuation of the wire, a session
    identifier that is kept, and both set when it succeeds. *)
Definition kex_effect_ok (sid : option bytes) (e : kexEffect) : Prop :=
  let '(packets, algs, sid', res) := e in
  (exists m, wire_from InKex (ours packets) = Some m /\ (res = Ret tt -> m = Normal)) /\
  (forall h, sid = Some h -> sid' = Some h) /\
  (res = Ret tt -> is_Some sid' /\ is_Some algs).

Lemma runKex_ok c env run sid a magics : kex_effect_ok sid (runKex c env run sid a magics).
Proof.
  unfold runKex. destruct (kexAlgoMap _ _) as [kex|].
  2: { split_and!; [by exists InKex | done | done]. }
  assert (Hp : atMostOne (match hc_hostKeys c with [] => hs_client env run kex magics
                          | _ => hs_server c run kex a magics end).1).
  { destruct (hc_hostKeys c); [apply hs_client_packets | apply hs_server_packets]. }
  destruct (match hc_hostKeys c with [] => _ | _ => _ end) as [packets r]. simpl in Hp.
  assert (Hw : exists m, wire_from InKex (ours packets) = Some m).
  { exists InKex. rewrite <- (app_nil_r packets). by apply atMostOne_wire. }
  destruct Hw as [m Hm]. destruct r as [result| |]; [|split_and!; [by exists m | done | done]..].
  destruct (run_prepare run _ _); [split_and!; [by exists m | by intros h -> | done]|].
  destruct (run_newKeysErr run); [split_and!; [by exists m | by intros h -> | done]|].
  split_and!; [|by intros h -> | by eauto]. exists Normal. split; [|done]. by apply atMostOne_wire.
Qed.

Lemma enterKeyExchange_ok c env run sent algs sid other :
  kex_effect_ok sid (enterKeyExchange c env run sent algs sid other).
Proof.
  assert (Hnil : forall x e, (forall u, e <> Ret u) -> kex_effect_ok sid ([], x, sid, e)).
  { intros x e He. split_and!; [by exists InKex; split; [|intros E; apply He in E] | done | intros E; by apply He in E]. }
  unfold enterKeyExchange. destruct (unmarshalMsg kexInitMsg other) as [oi| |]; [|by apply Hnil..].
  destruct sent as [sm sp].
  destruct (match hc_hostKeys c with [] => _ | _ => _ end) as [[[ci si] ck] sk].
  destruct (findAgreedAlgorithms ci si) as [a| |]; [|by apply Hnil..].
  destruct (obind (wrongGuess _ _ _) _) as [u| |]; [|by apply Hnil..]. apply runKex_ok.
Qed.

(** ** The invariant *)

Section modes.
Context (m : wireMode) (s : hsState).

(** No exchange: nothing is queued. *)
Definition quiet : Prop :=
  hs_sentInit s = None /\ hs_mu s = false /\ m = Normal /\ hs_pendingPackets s = [].

(** Our KexInit is out, and the exchange's other packets to come bring the
    wire to [m']. *)
Definition busy (packets : list bytes) (m' : wireMode) : Prop :=
  is_Some (hs_sentInit s) /\ hs_mu s = false /\ wire_from m (ours packets) = Some m'.

(** What writers rely on. *)
Definition loose : Prop :=
  hs_mu s = false /\ (hs_sentInit s = None -> m = Normal /\ hs_pendingPackets s = []).

Definition pc_inv : Prop :=
  match hs_kexPC s with
  | KTop | KInit _ | KSelect _ false => quiet
  | KSelect _ true | KCheck (Some _) | KEnter _ => busy [] InKex
  | KPush packets None => busy packets Normal
  | KPush packets (Some _) => exists m', busy packets m'
  | KLock None => busy [] Normal
  | KLock (Some _) => loose
  | KReply | KFlush => hs_mu s = true /\ hs_sentInit s = None /\ m = Normal
  | KDrain | KDrainReply | KCrash => loose
  | KRecord _ _ | KCheck None | KFailDone _ | KDrainExit | KReturned => False
  end.
End modes.

Definition userPacket (p : bytes) : Prop := wire_next Normal (true, p) = Some Normal.

Definition hs_inv (s : hsState) : Prop :=
  hs_clean s = true ->
  hs_writeError s = None /\ hs_halted s = false /\
  userPackets (hs_wire s) ++ hs_pendingPackets s = hs_accepted s /\
  Forall userPacket (hs_pendingPackets s) /\
  exists m, wire_from Normal (hs_wire s) = Some m /\ pc_inv m s.

Lemma quiet_loose m s : quiet m s -> loose m s.
Proof. intros (? & ? & ? & ?). by split. Qed.

Lemma busy_loose m s ps m' : busy m s ps m' -> loose m s.
Proof. intros ([x E] & ? & ?). split; [done|]. by rewrite E. Qed.

#[export] Hint Resolve quiet_loose busy_loose : ssh.

Lemma pc_inv_loose m s : pc_inv m s -> hs_mu s = false -> loose m s.
Proof.
  unfold pc_inv. intros H Hmu.
  destruct (hs_kexPC s) as [|r [|]|r|r e|[r|]|e|r|ps [e|]|[e|]| | | | | | |]; try (by eauto with ssh);
    try done; try (destruct H as (? & ?); eauto with ssh; congruence).
Qed.

(** The fields the invariant is about. *)
Definition core (s : hsState) :=
  (hs_clean s, hs_writeError s, hs_halted s, hs_wire s, hs_pendingPackets s, hs_accepted s,
   hs_sentInit s, hs_mu s, hs_kexPC s).

Lemma core_inv s s' : core s' = core s -> hs_inv s -> hs_inv s'.
Proof.
  unfold core, hs_inv, pc_inv, quiet, busy, loose. intros E. injection E as -> -> -> -> -> -> -> -> ->. done.
Qed.

Lemma countRead_core p s : core (countRead p s) = core s.
Proof. unfold countRead. destruct (0 <? _), (0 <? _); reflexivity. Qed.

Lemma countWrite_core p s : core (countWrite p s) = core s.
Proof. unfold countWrite. destruct (0 <? hs_writeBytesLeft s), (0 <? _); reflexivity. Qed.

Lemma readGot_core p s : core (readGot p s) = core s.
Proof. unfold readGot. by destruct (isIgnored p). Qed.

Lemma readOnePacket_core first r s : core (readOnePacket first r s) = core s.
Proof.
  unfold readOnePacket. destruct r as [p| |]; [|done..]. rewrite <- (countRead_core p s).
  destruct p as [|p0 p]; [done|]. destruct (first && _); [done|].
  destruct (negb _); [apply readGot_core | done].
Qed.

Lemma kexFinished_core fk err s : core (kexFinished fk err s) = core s.
Proof. destruct err; [done|]. unfold kexFinished. by rewrite readGot_core. Qed.

Lemma recordWriteError_inv e s : hs_inv s -> hs_inv (recordWriteError e s).
Proof. unfold recordWriteError. destruct (hs_writeError s); [done|]. intros _ H. discriminate H. Qed.

Lemma read_step_inv ev s s' : hs_inv s -> read_step ev s = Some s' -> hs_inv s'.
Proof.
  intros Hi. unfold read_step.
  destruct (hs_readPC s); destruct ev; try discriminate.
  - intros [= <-]. eapply core_inv; [apply readOnePacket_core | done].
  - destruct (hs_startKex s); [done|]. intros [= <-]. by eapply core_inv; [|exact Hi].
  - destruct (hs_halted s); [|done]. intros [= <-]. by eapply core_inv; [|exact Hi].
  - destruct (hs_done s); [|done]. intros [= <-]. eapply core_inv; [apply kexFinished_core|].
    by eapply core_inv; [|exact Hi].
  - destruct (hs_halted s); [|done]. intros [= <-]. by eapply core_inv; [|exact Hi].
  - destruct (_ <? _); [|done]. intros [= <-]. by eapply core_inv; [|exact Hi].
  - destruct (hs_halted s); [|done]. intros [= <-]. by eapply core_inv; [|exact Hi].
  - destruct (hs_mu s); [done|]. destruct (hs_readError s) as [e|]; intros [= <-].
    + apply (recordWriteError_inv e) in Hi. by eapply core_inv; [|exact Hi].
    + by eapply core_inv; [|exact Hi].
  - intros [= <-]. by eapply core_inv; [|exact Hi].
Qed.

(** ** Writers *)

Lemma wire_user p0 p :
  (b2z p0 =? msgKexInit) = false -> (b2z p0 =? msgNewKeys) = false ->
  wire_next Normal (true, p0 :: p) = Some Normal.
Proof. intros H1 H2. cbn [wire_next]. by rewrite H1, H2. Qed.

Lemma pc_inv_queue m s q a :
  is_Some (hs_sentInit s) -> pc_inv m s -> hs_mu s = false ->
  pc_inv m (put_pendingPackets q (put_accepted a s)).
Proof.
  intros [x E]. unfold pc_inv, quiet, busy, loose. simpl. rewrite E.
  destruct (hs_kexPC s) as [|r [|]|r|r e|[r|]|e|r|ps [e|]|[e|]| | | | | | |]; naive_solver.
Qed.

Lemma writePacket_inv p ce s e s' :
  hs_inv s -> hs_mu s = false -> writePacket p ce s = Ret (e, s') -> hs_inv s'.
Proof.
  intros Hi Hmu. unfold writePacket. destruct p as [|p0 p]; [done|].
  destruct (b2z p0 =? msgKexInit) eqn:E1; [by intros [= _ <-]|].
  destruct (b2z p0 =? msgNewKeys) eqn:E2; [by intros [= _ <-]|].
  destruct (hs_writeError s) as [we|] eqn:Ew; [by intros [= _ <-]|]. simpl.
  destruct (hs_sentInit s) as [si|] eqn:Es.
  - intros [= _ <-] Hc. destruct (Hi Hc) as (_ & Hh & Hq & Hu & m & Hm & Hp). split_and!; simpl; [done..| | |].
    + by rewrite app_assoc, Hq.
    + apply Forall_app_2; [done|]. apply Forall_singleton, wire_user; done.
    + exists m. split; [done|]. apply pc_inv_queue; [by rewrite Es | done..].
  - destruct ce as [ce|]; [intros [= _ <-] Hc; discriminate Hc|]. intros [= _ <-].
    set (s1 := put_accepted _ s).
    apply (core_inv (put_wire (hs_wire s1 ++ [(true, p0 :: p)]) s1)).
    { pose proof (countWrite_core (p0 :: p) s1) as E. unfold core in *. simpl in *. congruence. }
    intros Hc. destruct (Hi Hc) as (_ & Hh & Hq & Hu & m & Hm & Hp).
    destruct (pc_inv_loose _ _ Hp Hmu) as [_ Hl]. destruct (Hl Es) as [-> Hq0].
    split_and!; simpl; [done..| | |].
    + rewrite Hq0, app_nil_r in *. by rewrite userPackets_app, Hq.
    + done.
    + exists Normal. split; [|exact Hp]. rewrite wire_from_app, Hm. cbn [wire_from]. by rewrite wire_user.
Qed.

(** ** The kex loop *)

(** A change of the program counter alone. *)
Lemma goto_inv pc s :
  (hs_clean s = true -> hs_inv s -> forall m, wire_from Normal (hs_wire s) = Some m -> pc_inv m s ->
     pc_inv m (put_kexPC pc s)) ->
  hs_inv s -> hs_inv (put_kexPC pc s).
Proof.
  intros Hpc Hi Hc. destruct (Hi Hc) as (Hw & Hh & Hq & Hu & m & Hm & Hp). split_and!; [done..|].
  exists m. split; [done|]. by apply Hpc.
Qed.

Lemma sendKexInit_inv request cookie ce s :
  hs_kexPC s = KInit request -> hs_inv s ->
  match sendKexInit cookie ce s with
  | Ret (None, s') => hs_inv (put_kexPC (kexInner request true) s')
  | Ret (Some e, s') => hs_inv (put_kexPC (KRecord request e) s')
  | _ => hs_inv (put_kexPC KCrash s)
  end.
Proof.
  intros Epc Hi. unfold sendKexInit. destruct (hs_sentInit s) as [si|] eqn:Es.
  - intros Hc. destruct (Hi Hc) as (_ & _ & _ & _ & m & _ & Hp). unfold pc_inv in Hp. rewrite Epc in Hp.
    destruct Hp as [Hp _]. congruence.
  - destruct (Marshal _) as [packet| |] eqn:Em; cbn [obind].
    2-3: apply goto_inv; [|done]; intros _ _ m _ Hp; unfold pc_inv in *; rewrite Epc in Hp; by apply quiet_loose in Hp.
    destruct ce as [ce|]; [intros Hc; discriminate Hc|].
    intros Hc. destruct (Hi Hc) as (Hw & Hh & Hq & Hu & m & Hm & Hp).
    unfold pc_inv in Hp. rewrite Epc in Hp. destruct Hp as (_ & Hmu & -> & Hp0).
    assert (Hn : wire_next Normal (false, packet) = Some InKex).
    { erewrite Marshal_value in Em by reflexivity. injection Em as <-. reflexivity. }
    split_and!; simpl; [done..| | |].
    + by rewrite userPackets_app, app_nil_r.
    + done.
    + exists InKex. rewrite wire_from_app, Hm. cbn [wire_from]. rewrite Hn. split; [done|].
      unfold pc_inv. destruct request; by split_and!.
Qed.

Lemma flushPending_inv ps errs s done :
  hs_writeError s = None -> hs_halted s = false ->
  userPackets (hs_wire s) ++ ps = done -> wire_from Normal (hs_wire s) = Some Normal ->
  Forall userPacket ps ->
  let s' := flushPending ps errs s in
  hs_clean s' = true ->
  hs_writeError s' = None /\ hs_halted s' = false /\
  userPackets (hs_wire s') = done /\ wire_from Normal (hs_wire s') = Some Normal /\
  hs_sentInit s' = hs_sentInit s /\ hs_accepted s' = hs_accepted s.
Proof.
  revert errs s. induction ps as [|p ps IH]; intros errs s Hw Hh Hd Hm Hps; simpl.
  - rewrite app_nil_r in Hd. intros _. by split_and!.
  - apply Forall_cons_iff in Hps as [Hp Hps].
    destruct (default None (head errs)) as [e|] eqn:Ee; simpl; [discriminate|].
    intros Hc. edestruct (IH (tail errs) (put_writeError None (put_wire (hs_wire s ++ [(true, p)]) s))) as (H1 & H2 & H3 & H4 & H5 & H6);
      [..|exact Hc|]; simpl; [done|done| | |done|by split_and!].
    + by rewrite userPackets_app, <- app_assoc.
    + rewrite wire_from_app, Hm. cbn [wire_from]. by rewrite Hp.
Qed.

(** The steps that only move the program counter, by what each counter
    promises. *)
Ltac goto Epc Hi :=
  apply goto_inv; [|exact Hi || (eapply core_inv; [|exact Hi]; done)];
  intros Hc0 Hi0 m _ Hp; unfold pc_inv in *; simpl in *; rewrite Epc in Hp; simpl in *.

Lemma kexLoopEnd_inv s :
  (forall m, pc_inv m s -> hs_mu s = false) -> hs_inv s -> hs_inv (kexLoopEnd s).
Proof.
  intros Hmu Hi Hc. destruct (Hi Hc) as (Hw & Hh & Hq & Hu & m & Hm & Hp). split_and!; [done..|].
  exists m. split; [done|]. apply (pc_inv_loose _ _ Hp), (Hmu m Hp).
Qed.

Lemma kexHalt_inv s s' : hs_inv s -> kexHalt s = Some s' -> hs_inv s'.
Proof.
  intros Hi. unfold kexHalt. destruct (hs_halted s) eqn:E; [|done]. intros [= <-] Hc.
  destruct (Hi Hc) as (_ & Hh & _). congruence.
Qed.

Lemma put_done_inv v s : hs_inv s -> hs_inv (put_done v s).
Proof. by apply core_inv. Qed.

Lemma enter_inv env run r s s' :
  hs_kexPC s = KEnter r -> hs_inv s -> kex_step env (EvKexEnter run) s = Some s' -> hs_inv s'.
Proof.
  intros Epc Hi. unfold kex_step. rewrite Epc.
  destruct (hs_sentInit s) as [sent|] eqn:Es.
  2: { intros [= <-]. goto Epc Hi. eauto with ssh. }
  pose proof (enterKeyExchange_ok (hs_config s) env run sent (hs_algorithms s) (hs_sessionID s) r) as Hk.
  destruct (enterKeyExchange _ _ _ _ _ _ _) as [[[packets algs] sid] res].
  destruct Hk as ((m' & Hm' & Hn) & _).
  assert (Hi' : hs_inv (put_sessionID sid (put_algorithms algs s))) by (eapply core_inv; [|exact Hi]; done).
  assert (Hgoto : forall pc, (forall m, busy m s [] InKex -> pc_inv m (put_kexPC pc s)) ->
    hs_inv (put_kexPC pc (put_sessionID sid (put_algorithms algs s)))).
  { intros pc Hpc. apply (core_inv (put_kexPC pc s)); [done|]. apply goto_inv; [|done].
    intros _ _ m _ Hp. apply Hpc. unfold pc_inv in Hp. by rewrite Epc in Hp. }
  destruct res as [[]|e|w]; intros [= <-]; apply Hgoto; intros m (HS & Hmu & [= ->]); unfold pc_inv; simpl.
  - rewrite (Hn eq_refl) in Hm'. by split_and!.
  - exists m'. by split_and!.
  - split; [done|]. simpl. by rewrite Es.
Qed.

Lemma push_inv packets result s s' env :
  hs_kexPC s = KPush packets result -> hs_inv s -> kex_step env EvKexPush s = Some s' -> hs_inv s'.
Proof.
  intros Epc Hi. unfold kex_step. rewrite Epc. destruct packets as [|p packets]; intros [= <-].
  - goto Epc Hi. destruct result as [e|]; [|done]. destruct Hp as [m' Hp]. eauto with ssh.
  - intros Hc. destruct (Hi Hc) as (Hw & Hh & Hq & Hu & m & Hm & Hp). split_and!; simpl; [done..| | |].
    + by rewrite userPackets_app, app_nil_r.
    + done.
    + assert (Hgen : forall m1, busy m s (p :: packets) m1 ->
        exists m2, wire_from Normal (hs_wire s ++ [(false, p)]) = Some m2 /\
          busy m2 (put_kexPC (KPush packets result) (put_wire (hs_wire s ++ [(false, p)]) s)) packets m1).
      { intros m1 (HS & Hmu & Hr). rewrite wire_from_app, Hm. cbn [wire_from].
        change (ours (p :: packets)) with ((false, p) :: ours packets) in Hr. cbn [wire_from] in Hr.
        destruct (wire_next m (false, p)) as [m2|]; [|done]. exists m2. by split_and!. }
      unfold pc_inv in Hp. rewrite Epc in Hp. unfold pc_inv. destruct result as [e|]; simpl.
      * destruct Hp as [m1 Hp]. destruct (Hgen _ Hp) as (m2 & ? & ?). exists m2. eauto.
      * by apply Hgen.
Qed.

Lemma finish_inv result s : hs_kexPC s = KLock result -> hs_inv s -> hs_inv (finishKex result s).
Proof.
  intros Epc Hi. destruct result as [e|]; [intros Hc; discriminate Hc|].
  intros Hc. destruct (Hi Hc) as (Hw & Hh & Hq & Hu & m & Hm & Hp). unfold pc_inv in Hp. rewrite Epc in Hp.
  destruct Hp as (_ & _ & [= ->]). split_and!; simpl; [done..|]. exists Normal. by split_and!.
Qed.

Lemma flushPending_clean ps errs s : hs_clean (flushPending ps errs s) = true -> hs_clean s = true.
Proof.
  revert errs s. induction ps as [|p ps IH]; intros errs s; simpl; [done|].
  destruct (default None (head errs)) as [e|]; simpl; [discriminate|]. intros H. by apply IH in H.
Qed.

Lemma flush_inv errs s : hs_kexPC s = KFlush -> hs_inv s ->
  hs_inv (put_kexPC KTop (put_mu false (put_pendingPackets [] (flushPending (hs_pendingPackets s) errs s)))).
Proof.
  intros Epc Hi Hc. pose proof (flushPending_clean _ _ _ Hc) as Hc0.
  destruct (Hi Hc0) as (Hw & Hh & Hq & Hu & m & Hm & Hp). unfold pc_inv in Hp. rewrite Epc in Hp.
  destruct Hp as (_ & HS & ->).
  destruct (flushPending_inv _ errs s _ Hw Hh Hq Hm Hu Hc) as (H1 & H2 & H3 & H4 & H5 & H6).
  split_and!; simpl; [done..| |by constructor|].
  - by rewrite app_nil_r, H3, H6.
  - exists Normal. split; [done|]. split_and!; simpl; [by rewrite H5 | done..].
Qed.

Lemma kex_step_inv env ev s s' : hs_inv s -> kex_step env ev s = Some s' -> hs_inv s'.
Proof.
  intros Hi H.
  destruct (hs_kexPC s) as [|r sent|r|r e|r|e|r|ps res|res| | | | | | |] eqn:Epc; destruct ev;
    try (unfold kex_step in H; rewrite Epc in H; discriminate H);
    try (unfold kex_step in H; rewrite Epc in H; destruct ps; discriminate H);
    try (unfold kex_step in H; rewrite Epc in H; by apply kexHalt_inv in H).
  - unfold kex_step in H. rewrite Epc in H. destruct (hs_mu s) eqn:Emu; [done|].
    destruct (hs_writeError s); injection H as <-.
    + by apply kexLoopEnd_inv.
    + goto Epc Hi. done.
  - unfold kex_step in H. rewrite Epc in H. destruct (hs_startKex s) as [r'|]; [injection H as <-|].
    + destruct sent; goto Epc Hi; done.
    + destruct (hs_startClosed s); [|done]. injection H as <-. apply kexLoopEnd_inv; [|done].
      intros m Hp. unfold pc_inv in Hp. rewrite Epc in Hp. destruct sent; apply Hp.
  - unfold kex_step in H. rewrite Epc in H. destruct (hs_requestKex s); [|done]. injection H as <-.
    destruct sent; [destruct r|]; goto Epc Hi; done.
  - unfold kex_step in H. rewrite Epc in H. destruct (hs_mu s); [done|].
    pose proof (sendKexInit_inv r cookie connErr s Epc Hi) as Hs.
    destruct (sendKexInit cookie connErr s) as [[[e|] s1]| |]; injection H as <-; done.
  - unfold kex_step in H. rewrite Epc in H. destruct (hs_mu s); [done|]. injection H as <-.
    intros Hc. exfalso. unfold recordWriteError in Hc. destruct (hs_writeError s); [|discriminate Hc].
    destruct (Hi Hc) as (_ & _ & _ & _ & m & _ & Hp). unfold pc_inv in Hp. by rewrite Epc in Hp.
  - unfold kex_step in H. rewrite Epc in H. destruct (hs_mu s) eqn:Emu; [done|].
    destruct (hs_writeError s) as [e|] eqn:Ew, r as [r|]; injection H as <-.
    + intros Hc. destruct (Hi Hc) as (Hw & _). congruence.
    + by apply kexLoopEnd_inv.
    + goto Epc Hi. done.
    + goto Epc Hi. done.
  - unfold kex_step in H. rewrite Epc in H. injection H as <-. apply kexLoopEnd_inv; [|by apply put_done_inv].
    intros m Hp. unfold pc_inv in Hp. simpl in Hp. by rewrite Epc in Hp.
  - by eapply enter_inv.
  - by eapply push_inv.
  - unfold kex_step in H. rewrite Epc in H. destruct (hs_mu s); [done|]. injection H as <-. by apply finish_inv.
  - unfold kex_step in H. rewrite Epc in H. injection H as <-. apply (put_done_inv (Some (hs_writeError s))) in Hi.
    goto Epc Hi. done.
  - unfold kex_step in H. rewrite Epc in H. injection H as <-. by apply flush_inv.
  - unfold kex_step in H. rewrite Epc in H. destruct (hs_startKex s); [|done]. injection H as <-. goto Epc Hi. done.
  - unfold kex_step in H. rewrite Epc in H. destruct (hs_halted s) eqn:Eh; [|done]. injection H as <-.
    intros Hc. destruct (Hi Hc) as (_ & Hh & _). congruence.
  - unfold kex_step in H. rewrite Epc in H. destruct (hs_halted s) eqn:Eh; [|done]. injection H as <-.
    intros Hc. destruct (Hi Hc) as (_ & Hh & _). congruence.
  - unfold kex_step in H. rewrite Epc in H. injection H as <-. apply (put_done_inv (Some (hs_writeError s))) in Hi.
    goto Epc Hi. done.
Qed.

Lemma hs_readPacket_core stop s r s' : hs_readPacket stop s = Some (r, s') -> core s' = core s.
Proof.
  unfold hs_readPacket. destruct stop; [destruct (hs_halted s); [|done]; by intros [= _ <-]|].
  destruct (gq (hs_incoming s)); [destruct (gclosed _); [|done]|]; by intros [= _ <-].
Qed.

Lemma hs_step_inv env ev s s' : hs_inv s -> hs_step env ev s = Some s' -> hs_inv s'.
Proof.
  intros Hi H. destruct ev; try (by apply (read_step_inv _ _ _ Hi) in H); try (by apply (kex_step_inv _ _ _ _ Hi) in H).
  - unfold hs_step in H. destruct (hs_mu s) eqn:Emu; [done|].
    destruct (writePacket p connErr s) as [[e s1]| |] eqn:E; [|done..]. injection H as <-.
    by eapply writePacket_inv.
  - unfold hs_step in H. apply fmap_Some in H as ([r s1] & E & ->).
    eapply core_inv; [by eapply hs_readPacket_core | done].
  - injection H as <-. intros Hc. discriminate Hc.
Qed.

Lemma hs_reachable_inv env c s : hs_reachable env c s -> hs_inv s.
Proof.
  induction 1 as [|ev s s' _ IH H]; [|by eapply hs_step_inv].
  intros _. unfold newHandshakeTransport, requestKeyExchange. simpl.
  split_and!; [reflexivity..|constructor|]. exists Normal. split; [reflexivity|]. unfold pc_inv. simpl.
  split_and!; reflexivity.
Qed.

(** C2: in every interleaving of writers, read loop and kex loop, as long as no
    write and no exchange has failed and no stop was requested, the packets on
    the wire follow the rekeying protocol (after a KexInit of ours nothing but
    the packets of the method until our NewKeys; no user packet is ever a
    KexInit or NewKeys), and the packets that [writePacket] accepted are, in
    order, those already on the wire followed by those still queued; nothing
    is queued unless an exchange is under way or just being finished. *)
Theorem handshake_wire env c s :
  hs_reachable env c s -> hs_clean s = true ->
  is_Some (wire_from Normal (hs_wire s)) /\
  userPackets (hs_wire s) ++ hs_pendingPackets s = hs_accepted s /\
  (hs_sentInit s = None -> hs_mu s = false -> userPackets (hs_wire s) = hs_accepted s).
Proof.
  intros Hr Hc. destruct (hs_reachable_inv _ _ _ Hr Hc) as (_ & _ & Hq & _ & m & Hm & Hp).
  split_and!; [by exists m | done|]. intros HS Hmu. destruct (pc_inv_loose _ _ Hp Hmu) as [_ Hl].
  destruct (Hl HS) as [_ E]. by rewrite E, app_nil_r in Hq.
Qed.

(** ** The session identifier *)

Lemma writePacket_sid p ce s e s' :
  writePacket p ce s = Ret (e, s') -> hs_sessionID s' = hs_sessionID s.
Proof.
  unfold writePacket. destruct p as [|p0 p]; [done|].
  destruct (b2z p0 =? msgKexInit); [by intros [= _ <-]|].
  destruct (b2z p0 =? msgNewKeys); [by intros [= _ <-]|].
  destruct (hs_writeError s); [by intros [= _ <-]|]. cbn [hs_sentInit put_accepted].
  destruct (hs_sentInit s); [by intros [= _ <-]|]. unfold countWrite.
  destruct ce; intros [= _ <-]; simpl; destruct (0 <? hs_writeBytesLeft s), (0 <? _); reflexivity.
Qed.

Lemma flushPending_sid ps errs s : hs_sessionID (flushPending ps errs s) = hs_sessionID s.
Proof.
  revert errs s. induction ps as [|p ps IH]; intros errs s; simpl; [done|].
  destruct (default None (head errs)); simpl; [done | by rewrite IH].
Qed.

Lemma sendKexInit_sid cookie ce s e s' : sendKexInit cookie ce s = Ret (e, s') -> hs_sessionID s' = hs_sessionID s.
Proof.
  unfold sendKexInit. destruct (hs_sentInit s); [by intros [= _ <-]|].
  destruct (Marshal _); [|done..]. cbn [obind]. destruct ce; intros [= _ <-]; done.
Qed.

Lemma readGot_sid p s : hs_sessionID (readGot p s) = hs_sessionID s.
Proof. unfold readGot. by destruct (isIgnored p). Qed.

Lemma readOnePacket_sid first r s : hs_sessionID (readOnePacket first r s) = hs_sessionID s.
Proof.
  assert (E : forall p, hs_sessionID (countRead p s) = hs_sessionID s).
  { intros p. unfold countRead. destruct (0 <? hs_readPacketsLeft s), (0 <? _); reflexivity. }
  unfold readOnePacket. destruct r as [p| |]; [|done..]. rewrite <- (E p).
  destruct p as [|p0 p]; [done|]. destruct (first && _); [done|].
  destruct (negb _); [apply readGot_sid | done].
Qed.

Lemma read_step_sid ev s s' : read_step ev s = Some s' -> hs_sessionID s' = hs_sessionID s.
Proof.
  unfold read_step. destruct (hs_readPC s); destruct ev; try discriminate;
    repeat match goal with
    | |- Some _ = Some _ -> _ => intros [= <-]
    | |- context [match ?x with _ => _ end = _ -> _] => destruct x; try discriminate
    end; try reflexivity.
  - apply readOnePacket_sid.
  - unfold kexFinished. destruct o; [reflexivity|]. by rewrite readGot_sid.
  - unfold recordWriteError. by destruct (hs_writeError s).
Qed.

Lemma kex_step_sid env ev s s' h :
  kex_step env ev s = Some s' -> hs_sessionID s = Some h -> hs_sessionID s' = Some h.
Proof.
  intros H Hs. revert H. unfold kex_step.
  destruct (hs_kexPC s) as [|r sent|r|r e|r|e|r|[|p ps] res|res| | | | | | |] eqn:Epc; destruct ev; try discriminate;
    unfold kexHalt;
    repeat match goal with
    | |- Some _ = Some _ -> _ => intros [= <-]
    | |- (if ?x then _ else _) = _ -> _ => destruct x; try discriminate
    | |- match hs_writeError ?x with _ => _ end = _ -> _ => destruct (hs_writeError x); try discriminate
    | |- match hs_startKex ?x with _ => _ end = _ -> _ => destruct (hs_startKex x); try discriminate
    | |- match ?x with Some _ => _ | None => _ end = _ -> _ => is_var x; destruct x; try discriminate
    end; try exact Hs.
  - destruct (sendKexInit cookie connErr s) as [[[e|] s1]| |] eqn:E; intros [= <-]; try exact Hs;
      simpl; by rewrite (sendKexInit_sid _ _ _ _ _ E).
  - simpl. unfold recordWriteError. by destruct (hs_writeError s).
  - destruct (hs_sentInit s) as [sent|]; [|by intros [= <-]].
    pose proof (enterKeyExchange_ok (hs_config s) env run sent (hs_algorithms s) (hs_sessionID s) r) as Hk.
    destruct (enterKeyExchange _ _ _ _ _ _ _) as [[[packets algs] sid] res].
    destruct Hk as (_ & Hk & _). destruct res; intros [= <-]; simpl; by apply Hk.
  - unfold finishKex. simpl. by destruct res.
  - simpl. by rewrite flushPending_sid.
Qed.

Lemma hs_step_sid env ev s s' h :
  hs_step env ev s = Some s' -> hs_sessionID s = Some h -> hs_sessionID s' = Some h.
Proof.
  intros H Hs. destruct ev; try (by rewrite (read_step_sid _ _ _ H)); try (by apply (kex_step_sid _ _ _ _ h H)).
  - unfold hs_step in H. destruct (hs_mu s); [done|].
    destruct (writePacket p connErr s) as [[e s1]| |] eqn:E; [|done..]. injection H as <-.
    by rewrite (writePacket_sid _ _ _ _ _ E).
  - unfold hs_step in H. apply fmap_Some in H as ([r s1] & E & ->). unfold hs_readPacket in E.
    destruct stop; [destruct (hs_halted s); [|done]; by injection E as _ <-|].
    destruct (gq (hs_incoming s)); [destruct (gclosed _); [|done]|]; by injection E as _ <-.
  - by injection H as <-.
Qed.

(** the session identifier is fixed by the first exchange: once set, no
    sequence of steps, later exchanges included, changes it. *)
Theorem session_id_stable env evs s s' h :
  hs_run env evs s = Some s' -> hs_sessionID s = Some h -> hs_sessionID s' = Some h.
Proof.
  revert s. induction evs as [|ev evs IH]; simpl; intros s; [by intros [= <-]|].
  destruct (hs_step env ev s) as [s1|] eqn:E; [|done]. intros H Hs. eapply IH; [done|]. by eapply hs_step_sid.
Qed.

(** ** What the reader sees first *)

(** No KexInit has reached the kex loop. *)
Definition noRequest (pc : kexPC) : bool :=
  match pc with
  | KTop | KDrain | KDrainExit | KReturned | KCrash => true
  | KSelect None _ | KInit None | KRecord None _ | KCheck None => true
  | _ => false
  end.

Definition noKexYet (s : hsState) : Prop :=
  hs_sessionID s = None /\ hs_startKex s = None /\ noRequest (hs_kexPC s) = true.

Definition newKeysPacket : bytes := [z2b msgNewKeys].

Definition read_inv (s : hsState) : Prop :=
  (hs_delivered s = [] \/ head (hs_delivered s) = Some newKeysPacket) /\
  match hs_readPC s with
  | RTop true => hs_delivered s = [] /\ noKexYet s
  | RTop false => hs_delivered s <> []
  | RSendKex _ fk => hs_delivered s = [] -> fk = true /\ noKexYet s
  | RWaitDone fk => hs_delivered s = [] -> fk = true
  | RPut p => hs_delivered s = [] -> p = newKeysPacket
  | _ => True
  end.

(** The fields it is about, apart from [noKexYet]. *)
Definition rcore (s : hsState) := (hs_delivered s, hs_readPC s).

Lemma read_inv_ext s s' : rcore s' = rcore s -> (noKexYet s -> noKexYet s') -> read_inv s -> read_inv s'.
Proof.
  unfold rcore, read_inv. intros [= -> ->] Hn [H1 H2]. split; [done|].
  destruct (hs_readPC s) as [[|]| | | | | | |]; try done.
  - destruct H2. by auto.
  - intros H. destruct (H2 H). by auto.
Qed.

Lemma readGot_inv p s :
  (hs_delivered s = [] -> p = newKeysPacket) ->
  (hs_delivered s = [] \/ head (hs_delivered s) = Some newKeysPacket) -> read_inv (readGot p s).
Proof.
  intros Hp Hd. unfold readGot. destruct (isIgnored p) eqn:E; [|by split].
  split; [done|]. simpl. intros H. by rewrite (Hp H) in E.
Qed.

Lemma countRead_fields p s :
  hs_delivered (countRead p s) = hs_delivered s /\ (noKexYet s -> noKexYet (countRead p s)).
Proof. unfold countRead. destruct (0 <? hs_readPacketsLeft s), (0 <? _); by split. Qed.

Lemma readOnePacket_inv first r s :
  hs_readPC s = RTop first -> read_inv s -> read_inv (readOnePacket first r s).
Proof.
  intros Epc [Hd Hi]. rewrite Epc in Hi. unfold readOnePacket.
  destruct r as [p| |]; [|by split..]. destruct (countRead_fields p s) as [Ed Hn].
  destruct p as [|p0 p]; [split; simpl; by rewrite ?Ed|].
  destruct (first && _) eqn:E1; [split; simpl; by rewrite ?Ed|].
  destruct (negb (b2z p0 =? msgKexInit)) eqn:E2.
  - apply readGot_inv; rewrite Ed; [|done]. destruct first; [done|]. by intros H.
  - split; simpl; rewrite ?Ed; [done|]. destruct first; [|by intros H].
    destruct Hi as [_ Hi]. intros _. destruct (Hn Hi) as (Hs & _). split; [|exact (Hn Hi)].
    by apply bool_decide_eq_true_2.
Qed.

Lemma read_step_read_inv ev s s' : read_inv s -> read_step ev s = Some s' -> read_inv s'.
Proof.
  intros Hi H. unfold read_step in H. destruct (hs_readPC s) eqn:Epc; destruct ev; try discriminate H.
  - injection H as <-. by apply readOnePacket_inv.
  - destruct (hs_startKex s); [done|]. injection H as <-. destruct Hi as [Hd Hi]. rewrite Epc in Hi.
    split; [done|]. simpl. intros H. by destruct (Hi H).
  - destruct (hs_halted s); [|done]. injection H as <-. by destruct Hi.
  - destruct (hs_done s) as [err|]; [|done]. injection H as <-. destruct Hi as [Hd Hi]. rewrite Epc in Hi.
    destruct err; [by split|]. apply readGot_inv; [|done]. intros H. by rewrite (Hi H).
  - destruct (hs_halted s); [|done]. injection H as <-. by destruct Hi.
  - destruct (_ <? _); [|done]. injection H as <-. destruct Hi as [Hd Hi]. rewrite Epc in Hi.
    split; simpl; [|by destruct (hs_delivered s)]. right.
    destruct Hd as [E|E]; [by rewrite E, (Hi E)|]. destruct (hs_delivered s); [done|]. exact E.
  - destruct (hs_halted s); [|done]. injection H as <-. by destruct Hi.
  - destruct (hs_mu s); [done|]. destruct Hi as [Hd _].
    destruct (hs_readError s); injection H as <-; split; try done. unfold recordWriteError.
    by destruct (hs_writeError s).
  - injection H as <-. by destruct Hi.
Qed.

Lemma flushPending_rcore ps errs s : rcore (flushPending ps errs s) = rcore s.
Proof.
  revert errs s. induction ps as [|p ps IH]; intros errs s; simpl; [done|].
  destruct (default None (head errs)); simpl; [done | by rewrite IH].
Qed.

(** Writers and the kex loop leave the read loop alone, and the kex loop makes
    no session of its own. *)
Lemma kex_step_read env ev s s' :
  kex_step env ev s = Some s' -> rcore s' = rcore s /\ (noKexYet s -> noKexYet s').
Proof.
  assert (Hrec : forall e, rcore (recordWriteError e s) = rcore s /\ noKexYet (recordWriteError e s) = noKexYet s).
  { intros e. unfold recordWriteError. by destruct (hs_writeError s). }
  intros H. unfold noKexYet, kex_step in *.
  destruct (hs_kexPC s) as [|r sent|r|r e|r|e|r|[|p ps] res|res| | | | | | |] eqn:Epc; destruct ev; try discriminate H;
    unfold kexHalt in H;
    repeat match type of H with
    | Some _ = Some _ => injection H as <-
    | (if ?x then _ else _) = _ => destruct x; try discriminate H
    | match hs_writeError ?x with _ => _ end = _ => destruct (hs_writeError x); try discriminate H
    | match hs_startKex ?x with _ => _ end = _ => destruct (hs_startKex x) eqn:?; try discriminate H
    | match ?x with Some _ => _ | None => _ end = _ => is_var x; destruct x; try discriminate H
    end; try (split; [done | simpl; intros (? & ? & ?); simplify_eq; by destruct r]);
    try (split; [done | simpl; by intros (? & ? & ?)]).
  - split; [done|]. simpl. intros (? & ? & ?). by destruct sent, r.
  - unfold sendKexInit in H. destruct (hs_sentInit s); [injection H as <-; split; [done|]; simpl; by destruct r|].
    destruct (Marshal _); [|injection H as <-; split; [done|]; simpl; by intros (? & ? & ?)..].
    cbn [obind] in H. destruct connErr; injection H as <-; split; try done; simpl; by destruct r.
  - destruct (Hrec e) as [E1 E2]. split; [exact E1|]. unfold recordWriteError. by destruct (hs_writeError s).
  - destruct (hs_sentInit s); [|injection H as <-; split; [done|]; simpl; by intros (? & ? & ?)].
    destruct (enterKeyExchange _ _ _ _ _ _ _) as [[[packets algs] sid] res].
    destruct res; injection H as <-; split; try done; simpl; by intros (? & ? & ?).
  - split; [|simpl; by intros (? & ? & ?)]. by destruct res.
  - split; [|simpl; by intros (? & ? & ?)]. apply (flushPending_rcore _ errs s).
Qed.

Lemma writePacket_read p ce s e s' :
  writePacket p ce s = Ret (e, s') -> rcore s' = rcore s /\ (noKexYet s -> noKexYet s').
Proof.
  unfold writePacket. destruct p as [|p0 p]; [done|].
  destruct (b2z p0 =? msgKexInit); [by intros [= _ <-]|].
  destruct (b2z p0 =? msgNewKeys); [by intros [= _ <-]|].
  destruct (hs_writeError s); [by intros [= _ <-]|]. cbn [hs_sentInit put_accepted].
  destruct (hs_sentInit s); [by intros [= _ <-]|]. unfold countWrite.
  destruct ce; intros [= _ <-]; simpl; destruct (0 <? hs_writeBytesLeft s), (0 <? _); done.
Qed.

Lemma hs_step_read_inv env ev s s' : read_inv s -> hs_step env ev s = Some s' -> read_inv s'.
Proof.
  intros Hi H.
  assert (Hk : kex_step env ev s = Some s' -> read_inv s').
  { intros (E & Hn)%kex_step_read. by eapply read_inv_ext. }
  destruct ev; try (by apply (read_step_read_inv _ _ _ Hi) in H); try (by apply Hk).
  - unfold hs_step in H. destruct (hs_mu s); [done|].
    destruct (writePacket p connErr s) as [[e s1]| |] eqn:E; [|done..]. injection H as <-.
    apply writePacket_read in E as [E Hn]. by eapply read_inv_ext.
  - unfold hs_step in H. apply fmap_Some in H as ([r s1] & E & ->). unfold hs_readPacket in E.
    destruct stop; [destruct (hs_halted s); [|done]; by injection E as _ <-|].
    destruct (gq (hs_incoming s)); [destruct (gclosed _); [|done]|]; injection E as _ <-;
      by apply (read_inv_ext s).
  - injection H as <-. by apply (read_inv_ext s).
Qed.

(** the first packet the transport hands to its reader is the NewKeys that
    stands for the first exchange: nothing the peer sends reaches the layers
    above (authentication, the mux) before an exchange has succeeded, so
    [waitSession] sees NewKeys or an error. *)
Theorem first_packet_is_newkeys env c s p rest :
  hs_reachable env c s -> hs_delivered s = p :: rest -> p = newKeysPacket.
Proof.
  intros Hr E. assert (Hi : read_inv s).
  { clear E. induction Hr as [|ev s s' _ IH H]; [|by eapply hs_step_read_inv].
    unfold newHandshakeTransport, requestKeyExchange. split; [by left|]. split; [reflexivity|].
    split_and!; reflexivity. }
  destruct Hi as [[Hd|Hd] _]; rewrite E in Hd; [done|]. by injection Hd.
Qed.

(** ** Agreement of the two ends *)

Lemma wrongGuess_none otherInit clientInit serverInit :
  kexInitMsg_FirstKexFollows otherInit = false -> wrongGuess otherInit clientInit serverInit = Ret false.
Proof. intros H. unfold wrongGuess. by rewrite H. Qed.

Lemma kexInit_roundtrip (m : kexInitMsg) p :
  Marshal m = Ret p -> msg_ok m -> zlen p < 2 ^ 32 -> unmarshalMsg kexInitMsg p = Ret m.
Proof.
  intros Hm Hok Hl. eapply (Unmarshal_value [20]); [reflexivity | repeat constructor | exact Hm | | done | done].
  intros ->. erewrite Marshal_value in Hm by reflexivity. done.
Qed.

(** A KexInit as one end sent it. *)
Definition init_ok (m : kexInitMsg) (p : bytes) : Prop :=
  Marshal m = Ret p /\ msg_ok m /\ zlen p < 2 ^ 32 /\ kexInitMsg_FirstKexFollows m = false.

Definition goodRun (reply : bytes) (rand : randSource) (prepare : algorithms -> kexResult -> option error) : kexRun :=
  mkKexRun (Fail EOF) (mkKexConn None (Ret reply)) rand prepare None (Ret newKeysPacket).

(** C1: a client and a server that exchanged KexInit packets run the same
    exchange: from the two packets both compute the same algorithms and hash
    the same four strings, each accepts the other's packet and the host key,
    and both hand the same algorithms, keys and session identifier to
    [prepareKeyChange], send their NewKeys and finish without error; on a
    rekey the identifier is the one they already shared.  Assumed: a common
    algorithm exists, good randomness, and a host key that parses, verifies
    its own signatures and is accepted by the callback. *)
Theorem handshake_agreement env cc cs mc pc ms ps a kex hostKey rc rs verify sid algsC algsS :
  hc_hostKeys cc = [] -> chooseHostKey a (hc_hostKeys cs) = Some hostKey ->
  hc_clientVersion cc = hc_clientVersion cs -> hc_serverVersion cc = hc_serverVersion cs ->
  init_ok mc pc -> init_ok ms ps ->
  findAgreedAlgorithms mc ms = Ret a -> kexAlgoMap (he_lib env) (alg_kex a) = Some kex ->
  kex_good kex rc rs -> signer_ok hostKey ->
  he_ParsePublicKey env (sg_public hostKey) = Ret verify ->
  (forall d sig, sg_sign hostKey d = Ret sig -> verify d sig = Ret tt) ->
  he_hostKeyCallback env (sg_public hostKey) = None ->
  exists init reply res id,
    id = default (kr_H res) sid /\ kr_SessionID res = id /\
    forall prepC prepS, prepC a res = None -> prepS a res = None ->
      enterKeyExchange cc env (goodRun reply rc prepC) (mc, pc) algsC sid ps =
        ([init; newKeysPacket], Some a, Some id, Ret tt) /\
      enterKeyExchange cs env (goodRun init rs prepS) (ms, ps) algsS sid pc =
        ([reply; newKeysPacket], Some a, Some id, Ret tt).
Proof.
  intros Hcc Hch Hv1 Hv2 (Mc & Okc & Lc & Fc) (Ms & Oks & Ls & Fs) Ha Hk Hg Hsig Hp Hver Hcb.
  destruct (kex_agree kex rc rs
              (mkMagics (hc_clientVersion cc) (hc_serverVersion cc) pc ps) hostKey Hg Hsig)
    as (init & reply & r & Hcl & Hsv & Hhk & Hs).
  exists init, reply, (withSessionID (default (kr_H r) sid) r), (default (kr_H r) sid).
  split_and!; [done..|]. intros prepC prepS HC HS. split.
  - unfold enterKeyExchange. rewrite (kexInit_roundtrip ms ps) by done. rewrite Hcc, Ha, wrongGuess_none by done.
    cbn [obind]. unfold runKex. rewrite Hk, Hcc. unfold hs_client. cbn [run_conn run_rand goodRun].
    rewrite Hcl. cbn [obind]. rewrite Hhk, Hp. cbn [obind].
    rewrite (verify_signed hostKey verify r Hsig Hver Hs). cbn [obind]. rewrite Hcb.
    cbn [run_prepare goodRun]. by rewrite HC.
  - unfold enterKeyExchange. rewrite (kexInit_roundtrip mc pc) by done.
    destruct (hc_hostKeys cs) as [|k ks] eqn:Eks; [done|]. rewrite Ha, wrongGuess_none by done.
    cbn [obind]. unfold runKex. rewrite Hk, Eks. unfold hs_server. rewrite Eks, Hch. cbn [run_conn run_rand goodRun].
    rewrite <- Hv1, <- Hv2, Hsv. cbn [run_prepare goodRun]. by rewrite HS.
Qed.

(** ** What goes wrong *)

Definition locked (s : hsState) : Prop := hs_mu s = true /\ hs_kexPC s = KReturned.

(** The fields of the mutex. *)
Definition mcore (s : hsState) := (hs_mu s, hs_kexPC s).

Lemma core_mcore s s' : core s' = core s -> mcore s' = mcore s.
Proof. unfold core, mcore. congruence. Qed.

Lemma read_step_mcore ev s s' : read_step ev s = Some s' -> mcore s' = mcore s.
Proof.
  unfold read_step. destruct (hs_readPC s); destruct ev; try discriminate;
    repeat match goal with
    | |- Some _ = Some _ -> _ => intros [= <-]
    | |- context [match ?x with _ => _ end = _ -> _] => destruct x; try discriminate
    end; try reflexivity.
  - apply core_mcore, readOnePacket_core.
  - apply core_mcore. by rewrite kexFinished_core.
  - unfold recordWriteError. by destruct (hs_writeError s).
Qed.

Lemma writePacket_mcore p ce s e s' : writePacket p ce s = Ret (e, s') -> mcore s' = mcore s.
Proof.
  unfold writePacket. destruct p as [|p0 p]; [done|].
  destruct (b2z p0 =? msgKexInit); [by intros [= _ <-]|].
  destruct (b2z p0 =? msgNewKeys); [by intros [= _ <-]|].
  destruct (hs_writeError s); [by intros [= _ <-]|]. cbn [hs_sentInit put_accepted].
  destruct (hs_sentInit s); [by intros [= _ <-]|]. unfold countWrite.
  destruct ce; intros [= _ <-]; simpl; destruct (0 <? hs_writeBytesLeft s), (0 <? _); done.
Qed.

(** A step is one of the kex loop or leaves the mutex alone. *)
Lemma hs_step_mcore env ev s s' :
  hs_step env ev s = Some s' -> kex_step env ev s = Some s' \/ mcore s' = mcore s.
Proof.
  intros H. destruct ev; try (by left); right; try (by apply read_step_mcore in H).
  - unfold hs_step in H. destruct (hs_mu s); [done|].
    destruct (writePacket p connErr s) as [[e s1]| |] eqn:E; [|done..]. injection H as <-.
    by eapply writePacket_mcore.
  - unfold hs_step in H. apply fmap_Some in H as ([r s1] & E & ->).
    by apply core_mcore, (hs_readPacket_core _ _ _ _ E).
  - by injection H as <-.
Qed.

(** At the reply to the read loop the mutex is held. *)
Definition holds_mutex (s : hsState) : Prop :=
  hs_kexPC s = KReply \/ hs_kexPC s = KFlush -> hs_mu s = true.

Lemma kex_step_holds env ev s s' : kex_step env ev s = Some s' -> holds_mutex s -> holds_mutex s'.
Proof.
  intros H Hh. unfold kex_step in H. unfold holds_mutex in *.
  destruct (hs_kexPC s) as [|r sent|r|r e|r|e|r|[|p ps] res|res| | | | | | |] eqn:Epc; destruct ev; try discriminate H;
    unfold kexHalt in H;
    repeat match type of H with
    | Some _ = Some _ => injection H as <-
    | match ?x with _ => _ end = _ => destruct x; try discriminate H
    end; try (simpl; intros [?|?]; discriminate); try (simpl; unfold kexInner; repeat case_match; intros [?|?]; discriminate).
  - intros _. by destruct res.
  - simpl. intros _. apply Hh. by left.
Qed.

Lemma reachable_holds env c s : hs_reachable env c s -> holds_mutex s.
Proof.
  induction 1 as [|ev s s' _ IH H]; [by intros [?|?]|].
  apply hs_step_mcore in H as [H|[= E1 E2]]; [by eapply kex_step_holds|].
  unfold holds_mutex. by rewrite E1, E2.
Qed.

Lemma locked_forever env evs s s' : locked s -> hs_run env evs s = Some s' -> locked s'.
Proof.
  revert s. induction evs as [|ev evs IH]; simpl; intros s Hl; [by intros [= <-]|].
  destruct (hs_step env ev s) as [s1|] eqn:E; [|done]. apply IH. destruct Hl as [Hm Hp].
  apply hs_step_mcore in E as [E|[= E1 E2]]; [|by split; congruence].
  unfold kex_step in E. rewrite Hp in E. discriminate E.
Qed.

(** a stop request that the kex loop sees when it is about to tell the read
    loop that an exchange has ended makes it return with [t.mu] locked: from
    then on no step of any goroutine unlocks it, so every call of
    [writePacket] blocks for good. *)
Theorem stop_wedges_writers env c s :
  hs_reachable env c s -> hs_kexPC s = KReply ->
  exists s', hs_run env [EvHalt; EvKexHalt] s = Some s' /\
    forall evs s'', hs_run env evs s' = Some s'' ->
      hs_mu s'' = true /\ forall p e, hs_step env (EvWrite p e) s'' = None.
Proof.
  intros Hr Hpc. pose proof (reachable_holds _ _ _ Hr (or_introl Hpc)) as Hmu.
  exists (put_kexPC KReturned (put_clean false (put_halted true s))). split.
  - cbn [hs_run hs_step]. unfold kex_step. cbn [hs_kexPC put_clean put_halted]. by rewrite Hpc.
  - intros evs s'' H. apply locked_forever in H as [Hm _]; [|by split].
    split; [done|]. intros p e. unfold hs_step. by rewrite Hm.
Qed.

(** an exchange that fails still sends what was queued behind it: when the
    kex loop ends an exchange with an error and packets are waiting, it puts
    them on the wire, although the NewKeys that should precede them was never
    agreed, and overwrites the recorded error with the success of those
    writes, so that the loop goes on as if nothing had failed. *)
Theorem failed_kex_sends_queue env s e :
  hs_kexPC s = KLock (Some e) -> hs_mu s = false -> hs_pendingPackets s <> [] ->
  exists s', hs_run env [EvKexLock; EvKexDone; EvKexFlush []] s = Some s' /\
    hs_wire s' = hs_wire s ++ map (pair true) (hs_pendingPackets s) /\
    hs_writeError s' = None /\ hs_kexPC s' = KTop /\
    hs_done s' = Some (Some e).
Proof.
  intros Hpc Hmu Hne.
  assert (Hf : forall ps s0, let s1 := flushPending ps [] s0 in
    hs_wire s1 = hs_wire s0 ++ map (pair true) ps /\
    (ps <> [] -> hs_writeError s1 = None) /\ hs_done s1 = hs_done s0).
  { clear. induction ps as [|p ps IH]; intros s0; simpl; [by rewrite app_nil_r|].
    destruct (IH (put_writeError None (put_wire (hs_wire s0 ++ [(true, p)]) s0))) as (E1 & E2 & E3).
    simpl in *. rewrite E1, <- app_assoc. split_and!; [done| |done].
    intros _. destruct ps as [|q ps]; [done|]. by apply E2. }
  eexists. split.
  { cbn [hs_run]. unfold hs_step, kex_step at 1. rewrite Hpc, Hmu. reflexivity. }
  destruct (Hf (hs_pendingPackets s) (put_kexPC KFlush (put_done (Some (Some e)) (finishKex (Some e) s)))) as (E1 & E2 & E3).
  split_and!; simpl in *; [exact E1 | by apply E2 | reflexivity | exact E3].
Qed.

(** ** A concrete pair of peers *)

Definition toy25519 : x25519 :=
  mkX25519 (fun a b => zip_with (fun x y => z2b (b2z x + b2z y)) a b) (fun a => a) (fun d => ztake 8 d).

Definition noCurve : curve :=
  mkCurve 0 (fun _ _ => false) (fun _ _ _ => (0, 0)) (fun _ _ => []) (fun _ => None) (fun d => d).

Definition toyEnv : hsEnv :=
  mkHsEnv (mkKexLib (fun d => d) noCurve noCurve noCurve toy25519)
    (fun key => if bool_decide (key = sg_public echoSigner) then Ret echoVerify else Fail (errNew "unknown key"))
    (fun _ => None).

Definition toyConfig : Config :=
  mkConfig None 0 (Some [kexAlgoCurve25519SHA256]) (Some [str "aes128-ctr"]) (Some [str "hmac-sha1"]) None.

Definition toyClient : hsConfig := mkHsConfig toyConfig (str "SSH-2.0-S") (str "SSH-2.0-C") [] [KeyAlgoED25519].
Definition toyServer : hsConfig := mkHsConfig toyConfig (str "SSH-2.0-S") (str "SSH-2.0-C") [echoSigner] [].

Definition zeros (n : nat) : bytes := repeat "000"%byte n.

Definition packetOf (m : kexInitMsg) : bytes := match Marshal m with Ret p => p | _ => [] end.

Definition clientInit : kexInitMsg := kexInitOf toyClient (zeros 16).
Definition serverInit : kexInitMsg := kexInitOf toyServer (zeros 16).

Definition toyAgreed : algorithms :=
  match findAgreedAlgorithms clientInit serverInit with
  | Ret a => a
  | _ => Algorithms [] [] (DirectionAlgorithms [] [] []) (DirectionAlgorithms [] [] [])
  end.

Definition seed (b : byte) : randSource := mkRandSource [] (fun _ => Fail EOF) (repeat b 32).

Lemma toy25519_good : kex_good (KexX25519 toy25519) (seed "001"%byte) (seed "002"%byte).
Proof.
  split_and!; [by vm_compute | by vm_compute | done | | by vm_compute].
  intros a b _ _. simpl. revert b. induction a as [|x a IH]; intros [|y b]; simpl; [done..|].
  by rewrite IH, Z.add_comm.
Qed.

Lemma toyInit_ok (c : hsConfig) : c = toyClient \/ c = toyServer ->
  init_ok (kexInitOf c (zeros 16)) (packetOf (kexInitOf c (zeros 16))).
Proof.
  intros Hc. split; [by destruct Hc as [-> | ->]; vm_compute|].
  split; [|by destruct Hc as [-> | ->]; vm_compute].
  destruct Hc as [-> | ->]; unfold msg_ok; simpl; unfold names_ok; repeat (first [decide_vm | split]).
Qed.

Lemma handshake_agreement_witness :
  exists init reply res id,
    id = kr_H res /\ kr_SessionID res = id /\
    forall prepC prepS, prepC toyAgreed res = None -> prepS toyAgreed res = None ->
      enterKeyExchange toyClient toyEnv (goodRun reply (seed "001"%byte) prepC) (clientInit, packetOf clientInit) None None
        (packetOf serverInit) = ([init; newKeysPacket], Some toyAgreed, Some id, Ret tt) /\
      enterKeyExchange toyServer toyEnv (goodRun init (seed "002"%byte) prepS) (serverInit, packetOf serverInit) None None
        (packetOf clientInit) = ([reply; newKeysPacket], Some toyAgreed, Some id, Ret tt).
Proof.
  apply (handshake_agreement toyEnv toyClient toyServer clientInit (packetOf clientInit) serverInit (packetOf serverInit)
           toyAgreed (KexX25519 toy25519) echoSigner (seed "001"%byte) (seed "002"%byte) echoVerify None None None).
  - reflexivity.
  - vm_compute. reflexivity.
  - reflexivity.
  - reflexivity.
  - apply toyInit_ok. by left.
  - apply toyInit_ok. by right.
  - vm_compute. reflexivity.
  - vm_compute. reflexivity.
  - exact toy25519_good.
  - exact echoSigner_ok.
  - vm_compute. reflexivity.
  - intros d sig [= <-]. unfold echoVerify. by rewrite bool_decide_eq_true_2.
  - reflexivity.
Defined.

(** What the server replies to the client's first packet. *)
Definition toyMagics : handshakeMagics :=
  mkMagics (str "SSH-2.0-C") (str "SSH-2.0-S") (packetOf clientInit) (packetOf serverInit).

Definition toyReply : bytes :=
  match (kex_Server (KexX25519 toy25519)
           (mkKexConn None (Marshal (mk_kexECDHInitMsg (repeat "001"%byte 32)))) (seed "002"%byte) toyMagics echoSigner).1 with
  | p :: _ => p
  | [] => []
  end.

Definition toyRun : kexRun := goodRun toyReply (seed "001"%byte) (fun _ _ => None).

(** The client's first exchange, with a packet written in the middle. *)
Definition firstKexEvents : list event :=
  [EvKexTop; EvKexRequest; EvKexInit (zeros 16) None; EvWrite (str "hello") None;
   EvRead (Ret (packetOf serverInit)); EvReadSend; EvKexStart; EvKexCheck;
   EvKexEnter toyRun; EvKexPush; EvKexPush; EvKexPush; EvKexLock].

Definition finishEvents : list event := [EvKexDone; EvKexFlush []; EvReadDone; EvReadPut; EvWrite (str "world") None].

Definition stateAfter (evs : list event) : hsState :=
  default (newHandshakeTransport toyClient) (hs_run toyEnv evs (newHandshakeTransport toyClient)).

Lemma stateAfter_reachable evs : hs_reachable toyEnv toyClient (stateAfter evs).
Proof.
  unfold stateAfter. destruct (hs_run toyEnv evs _) as [s|] eqn:E; [|constructor].
  eapply hs_run_reachable; [constructor | exact E].
Qed.

Lemma handshake_wire_witness :
  let s := stateAfter (firstKexEvents ++ finishEvents) in
  map (fun x => x.1) (hs_wire s) = [false; false; false; true; true] /\
  userPackets (hs_wire s) = [str "hello"; str "world"] /\
  is_Some (wire_from Normal (hs_wire s)) /\
  userPackets (hs_wire s) ++ hs_pendingPackets s = hs_accepted s /\
  (hs_sentInit s = None -> hs_mu s = false -> userPackets (hs_wire s) = hs_accepted s).
Proof.
  split; [vm_compute; reflexivity|]. split; [vm_compute; reflexivity|].
  apply (handshake_wire toyEnv toyClient _ (stateAfter_reachable _)). vm_compute. reflexivity.
Defined.

Lemma first_packet_is_newkeys_witness :
  hd [] (hs_delivered (stateAfter (firstKexEvents ++ finishEvents))) = newKeysPacket.
Proof.
  apply (first_packet_is_newkeys toyEnv toyClient (stateAfter (firstKexEvents ++ finishEvents)) _ []
           (stateAfter_reachable _)).
  vm_compute. reflexivity.
Defined.

Lemma session_id_stable_witness :
  hs_sessionID (stateAfter (firstKexEvents ++ finishEvents)) = hs_sessionID (stateAfter firstKexEvents).
Proof.
  assert (E : is_Some (hs_sessionID (stateAfter firstKexEvents))) by (vm_compute; by eexists).
  destruct E as [h E]. rewrite E.
  apply (session_id_stable toyEnv finishEvents (stateAfter firstKexEvents) _ h); [vm_compute; reflexivity | exact E].
Defined.

Lemma stop_wedges_writers_witness :
  exists s', hs_run toyEnv [EvHalt; EvKexHalt] (stateAfter firstKexEvents) = Some s' /\
    forall evs s'', hs_run toyEnv evs s' = Some s'' ->
      hs_mu s'' = true /\ forall p e, hs_step toyEnv (EvWrite p e) s'' = None.
Proof.
  apply (stop_wedges_writers toyEnv toyClient _ (stateAfter_reachable _)). vm_compute. reflexivity.
Defined.

(** The same, but the peer's KexInit is malformed. *)
Definition failedKexEvents : list event :=
  [EvKexTop; EvKexRequest; EvKexInit (zeros 16) None; EvWrite (str "hello") None;
   EvRead (Ret [z2b msgKexInit]); EvReadSend; EvKexStart; EvKexCheck;
   EvKexEnter toyRun; EvKexPush].

Lemma failed_kex_sends_queue_witness :
  exists s', hs_run toyEnv [EvKexLock; EvKexDone; EvKexFlush []] (stateAfter failedKexEvents) = Some s' /\
    hs_wire s' = hs_wire (stateAfter failedKexEvents) ++ [(true, str "hello")] /\
    wire_from Normal (hs_wire s') = None /\ hs_writeError s' = None.
Proof.
  destruct (failed_kex_sends_queue toyEnv (stateAfter failedKexEvents) (errShortRead)) as (s' & H1 & H2 & H3 & _).
  - vm_compute. reflexivity.
  - vm_compute. reflexivity.
  - vm_compute. discriminate.
  - exists s'. split; [exact H1|]. split; [exact H2|]. split; [|exact H3].
    rewrite H2. vm_compute. reflexivity.
Defined.
