(* ===== verification/Auth.v ===== *)
(** * User authentication (server.go, client_auth.go)

    [serverAuthenticate] with its public key cache, its retry limit and the
    keyboard-interactive [Challenge]; [clientAuthenticate] with the "none",
    password, public key, keyboard-interactive and retryable methods.

    Both ends are computations over a connection ([io]): the packets still to
    be read, the errors of the coming writes, and the packets written.  A
    connection whose packets are used up answers [io.EOF], as a closed one
    does.  An error returned by the Go function is [Fail]; an index out of
    range is [Panic].

    The callbacks of the configuration and [ParsePublicKey] (whose keys are
    [PublicKey]) are parameters; so are the IP functions of package net. *)

From S2P Require Import Prelude Wire Codec Messages Negotiate Cipher CipherFacts Transport Kex.

(** ** Connections *)

Record io := mkIo {
  io_in : list (outcome bytes);
  io_errs : list (option error);
  io_out : list bytes
}.

(** The state a computation threads: the connection and the variables [S] of
    the function. *)
Definition auth (S A : Type) : Type := io * S -> outcome A * (io * S).

#[export] Instance auth_ret {S} : MRet (auth S) := fun A a st => (Ret a, st).

#[export] Instance auth_bind {S} : MBind (auth S) := fun A B k m st =>
  match m st with
  | (Ret a, st) => k a st
  | (Fail e, st) => (Fail e, st)
  | (Panic w, st) => (Panic w, st)
  end.

Definition lift {S A} (m : outcome A) : auth S A := fun st => (m, st).
Definition raise {S A} (e : error) : auth S A := lift (Fail e).
Definition getS {S} : auth S S := fun st => (Ret st.2, st).
Definition modS {S} (f : S -> S) : auth S unit := fun st => (Ret tt, (st.1, f st.2)).

(** [c.readPacket]; the result of a read is an error or a packet. *)
Definition tryRead {S} : auth S (outcome bytes) := fun '(c, s) =>
  match io_in c with
  | [] => (Ret (Fail EOF), (c, s))
  | r :: rs => (Ret r, (mkIo rs (io_errs c) (io_out c), s))
  end.

Definition readPacket {S} : auth S bytes := r ← tryRead; lift r.

(** [c.writePacket]. *)
Definition writePacket {S} (p : bytes) : auth S unit := fun '(c, s) =>
  match io_errs c with
  | Some e :: es => (Fail e, (mkIo (io_in c) es (io_out c), s))
  | None :: es => (Ret tt, (mkIo (io_in c) es (io_out c ++ [p]), s))
  | [] => (Ret tt, (mkIo (io_in c) [] (io_out c ++ [p]), s))
  end.

Definition writeMsg {S T} `{SSHMessage T} (m : T) : auth S unit := p ← lift (Marshal m); writePacket p.

(** What a loop returns whose bound was too small. *)
Definition outOfFuel : string := "out of fuel".

(** [packet[0]]. *)
Definition packetType {S} (p : bytes) : auth S Z :=
  match p with
  | [] => lift (Panic "index out of range")
  | p0 :: _ => mret (b2z p0)
  end.

(** ** Server configuration *)

(** The parts of a [PublicKey] that authentication uses. *)
Record PublicKey := mkPublicKey {
  pk_Type : bytes;
  pk_Marshal : bytes;
  pk_Verify : Verifier
}.

Record Permissions := mkPermissions {
  CriticalOptions : gmap bytes bytes;
  Extensions : gmap bytes bytes
}.

(** What a callback returns: the permissions (possibly nil) and the error. *)
Definition verdict : Type := option Permissions * option error.

Definition noAuth : verdict := (None, Some (errNew "no auth passed yet")).

(** A keyboard-interactive callback: it may put challenges (an instruction,
    questions and echo flags) and goes on with the answers or the error. *)
Inductive interaction :=
| IDone (v : verdict)
| IAsk (user instruction : bytes) (questions : list bytes) (echos : list bool) (k : outcome (list bytes) -> interaction).

(** A client's address, as far as [checkSourceAddress] looks at it. *)
Inductive netAddr := AddrNil | AddrTCP (ip : bytes) | AddrOther.

(** [net.ParseIP], [IP.Equal] and [net.ParseCIDR]. *)
Record netLib := mkNetLib {
  nl_ParseIP : bytes -> option bytes;
  nl_Equal : bytes -> bytes -> bool;
  nl_ParseCIDR : bytes -> outcome (bytes -> bool)
}.

Record ServerConfig := mkServerConfig {
  NoClientAuth : bool;
  MaxAuthTries : Z;
  PasswordCallback : option (bytes -> bytes -> verdict);
  PublicKeyCallback : option (bytes -> PublicKey -> verdict);
  KeyboardInteractiveCallback : option (bytes -> interaction)
}.

(** What the server knows of the connection, and the packages it uses. *)
Record serverEnv := mkServerEnv {
  se_sessionID : bytes;
  se_remoteAddr : netAddr;
  se_net : netLib;
  se_ParsePublicKey : bytes -> outcome PublicKey
}.

(** ** The cache of public key answers *)

Record cachedPubKey := mkCachedPubKey {
  cp_user : bytes;
  cp_pubKeyData : bytes;
  cp_result : option error;
  cp_perms : option Permissions
}.

Definition maxCachedPubKeys : Z := 16.

Fixpoint cache_get (keys : list cachedPubKey) (user pubKeyData : bytes) : option cachedPubKey :=
  match keys with
  | [] => None
  | k :: keys' =>
      if bool_decide (cp_user k = user /\ cp_pubKeyData k = pubKeyData) then Some k
      else cache_get keys' user pubKeyData
  end.

Definition cache_add (keys : list cachedPubKey) (candidate : cachedPubKey) : list cachedPubKey :=
  if zlen keys <? maxCachedPubKeys then keys ++ [candidate] else keys.

(** ** Server checks *)

Definition isAcceptableAlgo (algo : bytes) : bool :=
  bool_decide (algo ∈
    [KeyAlgoRSA; KeyAlgoDSA; KeyAlgoECDSA256; KeyAlgoECDSA384; KeyAlgoECDSA521; KeyAlgoED25519;
     CertAlgoRSAv01; CertAlgoDSAv01; CertAlgoECDSA256v01; CertAlgoECDSA384v01; CertAlgoECDSA521v01]).

Fixpoint checkSources (nl : netLib) (ip : bytes) (sources : list bytes) : option error :=
  match sources with
  | [] => Some (errNew "ssh: remote address %v is not allowed because of source-address restriction")
  | src :: sources' =>
      match nl_ParseIP nl src with
      | Some allowedIP => if nl_Equal nl allowedIP ip then None else checkSources nl ip sources'
      | None =>
          match nl_ParseCIDR nl src with
          | Ret contains => if contains ip then None else checkSources nl ip sources'
          | _ => Some (Errorf "ssh: error parsing source-address restriction %q: %v" [FStr src])
          end
      end
  end.

Definition checkSourceAddress (nl : netLib) (addr : netAddr) (sourceAddrs : bytes) : option error :=
  match addr with
  | AddrNil => Some (errNew "ssh: no address known for client, but source-address match required")
  | AddrOther => Some (errNew "ssh: remote address %v is not an TCP address when checking source-address match")
  | AddrTCP ip => checkSources nl ip (split_byte comma sourceAddrs)
  end.

Definition sourceAddressCriticalOption : bytes := str "source-address".

(** The callback's answer, then the address restriction of the permissions. *)
Definition queryKey (env : serverEnv) (cb : bytes -> PublicKey -> verdict) (user : bytes) (key : PublicKey) : verdict :=
  let '(perms, result) := cb user key in
  match result, perms with
  | None, Some p =>
      match CriticalOptions p !! sourceAddressCriticalOption with
      | Some (_ :: _ as src) => (perms, checkSourceAddress (se_net env) (se_remoteAddr env) src)
      | _ => (perms, result)
      end
  | _, _ => (perms, result)
  end.

(** ** The server's loop *)

(** The loop's variables; [sv_checked] records the passwords shown to the
    callback. *)
Record serverVars := mkServerVars {
  sv_user : bytes;
  sv_cache : list cachedPubKey;
  sv_authFailures : Z;
  sv_authErrs : list (option error);
  sv_checked : list (bytes * bytes)
}.

Definition serverM : Type -> Type := auth serverVars.

Definition setUser (u : bytes) : serverM unit := modS (fun s =>
  mkServerVars u (sv_cache s) (sv_authFailures s) (sv_authErrs s) (sv_checked s)).

Definition addToCache (k : cachedPubKey) : serverM unit := modS (fun s =>
  mkServerVars (sv_user s) (cache_add (sv_cache s) k) (sv_authFailures s) (sv_authErrs s) (sv_checked s)).

Definition addFailures (n : Z) : serverM unit := modS (fun s =>
  mkServerVars (sv_user s) (sv_cache s) (sv_authFailures s + n) (sv_authErrs s) (sv_checked s)).

Definition addAuthErr (e : option error) : serverM unit := modS (fun s =>
  mkServerVars (sv_user s) (sv_cache s) (sv_authFailures s) (sv_authErrs s ++ [e]) (sv_checked s)).

Definition notePassword (u pw : bytes) : serverM unit := modS (fun s =>
  mkServerVars (sv_user s) (sv_cache s) (sv_authFailures s) (sv_authErrs s) (sv_checked s ++ [(u, pw)])).

(** [Challenge]. *)
Fixpoint encodePrompts (questions : list bytes) (echos : list bool) : bytes :=
  match questions, echos with
  | q :: qs, e :: es => appendBool (appendString [] q) e ++ encodePrompts qs es
  | _, _ => []
  end.

Fixpoint parseAnswers (n : nat) (packet : bytes) : outcome (list bytes * bytes) :=
  match n with
  | O => Ret ([], packet)
  | S n' =>
      match parseString packet with
      | None => Fail (parseError msgUserAuthInfoResponse)
      | Some (ans, rest) =>
          let? (answers, rest) := parseAnswers n' rest in
          Ret (ans :: answers, rest)
      end
  end.

(** The body of an answer packet, after its type byte. *)
Definition readAnswers (count : nat) (packet : bytes) : outcome (list bytes) :=
  match parseUint32 packet with
  | None => Fail (parseError msgUserAuthInfoResponse)
  | Some (n, packet) =>
      if negb (n =? Z.of_nat count) then Fail (parseError msgUserAuthInfoResponse)
      else
        let? (answers, rest) := parseAnswers count packet in
        if negb (zlen rest =? 0) then Fail (errNew "ssh: junk at end of message") else Ret answers
  end.

Definition Challenge (instruction : bytes) (questions : list bytes) (echos : list bool) : serverM (list bytes) :=
  if negb (zlen questions =? zlen echos) then raise (errNew "ssh: echos and questions must have equal length")
  else
    _ ← writeMsg (mk_userAuthInfoRequestMsg [] instruction [] (u32 (zlen questions)) (encodePrompts questions echos));
    packet ← readPacket;
    t ← packetType packet;
    if negb (t =? msgUserAuthInfoResponse) then raise (unexpectedMessageError msgUserAuthInfoResponse t)
    else lift (readAnswers (length questions) (zdrop 1 packet)).

(** Running the callback: the error of a challenge goes to the callback. *)
Definition catch {S A} (m : auth S A) : auth S (outcome A) := fun st =>
  match m st with
  | (Panic w, st) => (Panic w, st)
  | (r, st) => (Ret r, st)
  end.

Fixpoint runInteraction (p : interaction) : serverM verdict :=
  match p with
  | IDone v => mret v
  | IAsk user instruction questions echos k =>
      r ← catch (Challenge instruction questions echos);
      runInteraction (k r)
  end.

Definition authPassword (cfg : ServerConfig) (req : userAuthRequestMsg) : serverM verdict :=
  match PasswordCallback cfg with
  | None => mret (None, Some (errNew "ssh: password auth not configured"))
  | Some cb =>
      match userAuthRequestMsg_Payload req with
      | b :: payload =>
          if negb (b2z b =? 0) then raise (parseError msgUserAuthRequest)
          else
            match parseString payload with
            | Some (password, []) =>
                _ ← notePassword (userAuthRequestMsg_User req) password;
                mret (cb (userAuthRequestMsg_User req) password)
            | _ => raise (parseError msgUserAuthRequest)
            end
      | [] => raise (parseError msgUserAuthRequest)
      end
  end.

(** The answer for a key, from the cache or the callback. *)
Definition lookupKey (env : serverEnv) (cb : bytes -> PublicKey -> verdict) (user pubKeyData : bytes) (pubKey : PublicKey)
  : serverM cachedPubKey :=
  s ← getS;
  match cache_get (sv_cache s) user pubKeyData with
  | Some candidate => mret candidate
  | None =>
      let '(perms, result) := queryKey env cb user pubKey in
      let candidate := mkCachedPubKey user pubKeyData result perms in
      _ ← addToCache candidate;
      mret candidate
  end.

(** The signature part of a public key request. *)
Definition checkSignature (env : serverEnv) (req : userAuthRequestMsg) (algo pubKeyData : bytes) (pubKey : PublicKey)
  (candidate : cachedPubKey) (payload : bytes) : serverM verdict :=
  match parseSignature payload with
  | Some (sig, []) =>
      if negb (isAcceptableAlgo (Signature_Format sig)) then mret noAuth
      else
        signedData ← lift (buildDataSignedForAuth (se_sessionID env) req algo pubKeyData);
        _ ← lift (pk_Verify pubKey signedData sig);
        mret (cp_perms candidate, cp_result candidate)
  | _ => raise (parseError msgUserAuthRequest)
  end.

(** [None] when a query was answered and the loop continues. *)
Definition authPublicKey (cfg : ServerConfig) (env : serverEnv) (req : userAuthRequestMsg) : serverM (option verdict) :=
  match PublicKeyCallback cfg with
  | None => mret (Some (None, Some (errNew "ssh: publickey auth not configured")))
  | Some cb =>
      match userAuthRequestMsg_Payload req with
      | [] => raise (parseError msgUserAuthRequest)
      | b :: payload =>
          let isQuery := b2z b =? 0 in
          '(algo, payload) ← lift (ok_or (parseString payload) (parseError msgUserAuthRequest));
          if negb (isAcceptableAlgo algo) then
            mret (Some (None, Some (Errorf "ssh: algorithm %q not accepted" [FStr algo])))
          else
            '(pubKeyData, payload) ← lift (ok_or (parseString payload) (parseError msgUserAuthRequest));
            pubKey ← lift (se_ParsePublicKey env pubKeyData);
            candidate ← lookupKey env cb (userAuthRequestMsg_User req) pubKeyData pubKey;
            if isQuery then
              if 0 <? zlen payload then raise (parseError msgUserAuthRequest)
              else
                match cp_result candidate with
                | None =>
                    _ ← writeMsg (mk_userAuthPubKeyOkMsg algo pubKeyData);
                    mret None
                | Some e => mret (Some (None, Some e))
                end
            else v ← checkSignature env req algo pubKeyData pubKey candidate payload; mret (Some v)
      end
  end.

Definition authNone (cfg : ServerConfig) : serverM verdict :=
  s ← getS;
  _ ← (if sv_authFailures s =? 0 then addFailures (-1) else mret tt);
  mret (if NoClientAuth cfg then (None, None) else noAuth).

(** The [switch] on the method. *)
Definition authMethodStep (cfg : ServerConfig) (env : serverEnv) (req : userAuthRequestMsg) : serverM (option verdict) :=
  let meth := userAuthRequestMsg_Method req in
  if bool_decide (meth = str "none") then v ← authNone cfg; mret (Some v)
  else if bool_decide (meth = str "password") then v ← authPassword cfg req; mret (Some v)
  else if bool_decide (meth = str "keyboard-interactive") then
    match KeyboardInteractiveCallback cfg with
    | None => mret (Some (None, Some (errNew "ssh: keyboard-interactive auth not configubred")))
    | Some cb => v ← runInteraction (cb (userAuthRequestMsg_User req)); mret (Some v)
    end
  else if bool_decide (meth = str "publickey") then authPublicKey cfg env req
  else mret (Some (None, Some (Errorf "ssh: unknown method %q" [FStr meth]))).

Definition failureMethods (cfg : ServerConfig) : list bytes :=
  (match PasswordCallback cfg with Some _ => [str "password"] | None => [] end) ++
  (match PublicKeyCallback cfg with Some _ => [str "publickey"] | None => [] end) ++
  (match KeyboardInteractiveCallback cfg with Some _ => [str "keyboard-interactive"] | None => [] end).

Definition errNoMethods : error :=
  errNew "ssh: no authentication methods configured but NoClientAuth is also false".

Definition tooManyFailures : disconnectMsg := mk_disconnectMsg 2 (str "too many authentication failures") [].

(** [ServerAuthError] carries [sv_authErrs]. *)
Definition errServerAuth : error := errNew "ServerAuthError".

(** The request of one round, or the end of the connection. *)
Definition readRequest : serverM userAuthRequestMsg :=
  r ← tryRead;
  match r with
  | Fail EOF => raise errServerAuth
  | Fail e => raise e
  | Panic w => lift (Panic w)
  | Ret packet => lift (unmarshalMsg userAuthRequestMsg packet)
  end.

(** The rest of a round: [Some] permissions when the user is in. *)
Definition authRequest (cfg : ServerConfig) (env : serverEnv) (req : userAuthRequestMsg)
  : serverM (option (option Permissions)) :=
  if negb (bool_decide (userAuthRequestMsg_Service req = serviceSSH)) then
    raise (Errorf "ssh: client attempted to negotiate for unknown service: " [FStr (userAuthRequestMsg_Service req)])
  else
    _ ← setUser (userAuthRequestMsg_User req);
    r ← authMethodStep cfg env req;
    match r with
    | None => mret None
    | Some (perms, authErr) =>
        _ ← addAuthErr authErr;
        match authErr with
        | None => _ ← writePacket [z2b msgUserAuthSuccess]; mret (Some perms)
        | Some _ =>
            _ ← addFailures 1;
            if bool_decide (failureMethods cfg = []) then raise errNoMethods
            else
              _ ← writeMsg (mk_userAuthFailureMsg (failureMethods cfg) false);
              mret None
        end
    end.

(** One round of the loop. *)
Definition authRound (cfg : ServerConfig) (env : serverEnv) : serverM (option (option Permissions)) :=
  s ← getS;
  if (MaxAuthTries cfg <=? sv_authFailures s) && (0 <? MaxAuthTries cfg) then
    _ ← writeMsg tooManyFailures;
    raise (disconnectError tooManyFailures)
  else
    req ← readRequest;
    authRequest cfg env req.

(** The loop; each round reads a packet, so that the packets left bound the
    number of rounds. *)
Fixpoint authLoop (fuel : nat) (cfg : ServerConfig) (env : serverEnv) : serverM (option Permissions) :=
  match fuel with
  | O => lift (Panic outOfFuel)
  | S fuel =>
      r ← authRound cfg env;
      match r with
      | Some perms => mret perms
      | None => authLoop fuel cfg env
      end
  end.

Definition newServerVars : serverVars := mkServerVars [] [] 0 [] [].

(** [NewServerConn]'s default, and the check of [serverHandshake]. *)
Definition withDefaultTries (cfg : ServerConfig) : ServerConfig :=
  mkServerConfig (NoClientAuth cfg) (if MaxAuthTries cfg =? 0 then 6 else MaxAuthTries cfg)
    (PasswordCallback cfg) (PublicKeyCallback cfg) (KeyboardInteractiveCallback cfg).

Definition serverAuthenticate (cfg : ServerConfig) (env : serverEnv) (c : io)
  : outcome (option Permissions) * (io * serverVars) :=
  authLoop (S (length (io_in c))) cfg env (c, newServerVars).

(** ** Client messages *)

Record passwordAuthMsg := mk_passwordAuthMsg {
  passwordAuthMsg_User : bytes;
  passwordAuthMsg_Service : bytes;
  passwordAuthMsg_Method : bytes;
  passwordAuthMsg_Reply : bool;
  passwordAuthMsg_Password : bytes
}.

Definition passwordAuthMsg_struct : structType :=
  StructType "passwordAuthMsg" "50"
    [("User", KString); ("Service", KString); ("Method", KString); ("Reply", KBool); ("Password", KString)].

#[export] Instance passwordAuthMsg_message : SSHMessage passwordAuthMsg := {|
  typeOf := passwordAuthMsg_struct;
  fieldsOf m := (passwordAuthMsg_User m, (passwordAuthMsg_Service m, (passwordAuthMsg_Method m,
    (passwordAuthMsg_Reply m, (passwordAuthMsg_Password m, tt)))));
  ofFields '(a, (b, (c, (d, (e, _))))) := mk_passwordAuthMsg a b c d e;
  ofFields_fieldsOf m := match m with mk_passwordAuthMsg _ _ _ _ _ => eq_refl end
|}.

Record publickeyAuthMsg := mk_publickeyAuthMsg {
  publickeyAuthMsg_User : bytes;
  publickeyAuthMsg_Service : bytes;
  publickeyAuthMsg_Method : bytes;
  publickeyAuthMsg_HasSig : bool;
  publickeyAuthMsg_Algoname : bytes;
  publickeyAuthMsg_PubKey : bytes;
  publickeyAuthMsg_Sig : bytes
}.

Definition publickeyAuthMsg_struct : structType :=
  StructType "publickeyAuthMsg" "50"
    [("User", KString); ("Service", KString); ("Method", KString); ("HasSig", KBool);
     ("Algoname", KString); ("PubKey", KBytes false); ("Sig", KBytes true)].

#[export] Instance publickeyAuthMsg_message : SSHMessage publickeyAuthMsg := {|
  typeOf := publickeyAuthMsg_struct;
  fieldsOf m := (publickeyAuthMsg_User m, (publickeyAuthMsg_Service m, (publickeyAuthMsg_Method m,
    (publickeyAuthMsg_HasSig m, (publickeyAuthMsg_Algoname m, (publickeyAuthMsg_PubKey m, (publickeyAuthMsg_Sig m, tt)))))));
  ofFields '(a, (b, (c, (d, (e, (f, (g, _))))))) := mk_publickeyAuthMsg a b c d e f g;
  ofFields_fieldsOf m := match m with mk_publickeyAuthMsg _ _ _ _ _ _ _ => eq_refl end
|}.

Record initiateMsg := mk_initiateMsg {
  initiateMsg_User : bytes;
  initiateMsg_Service : bytes;
  initiateMsg_Method : bytes;
  initiateMsg_Language : bytes;
  initiateMsg_Submethods : bytes
}.

Definition initiateMsg_struct : structType :=
  StructType "initiateMsg" "50"
    [("User", KString); ("Service", KString); ("Method", KString); ("Language", KString); ("Submethods", KString)].

#[export] Instance initiateMsg_message : SSHMessage initiateMsg := {|
  typeOf := initiateMsg_struct;
  fieldsOf m := (initiateMsg_User m, (initiateMsg_Service m, (initiateMsg_Method m,
    (initiateMsg_Language m, (initiateMsg_Submethods m, tt)))));
  ofFields '(a, (b, (c, (d, (e, _))))) := mk_initiateMsg a b c d e;
  ofFields_fieldsOf m := match m with mk_initiateMsg _ _ _ _ _ => eq_refl end
|}.

(** ** Client methods *)

(** The number of callback calls so far is the client's state: a callback may
    answer differently each time. *)
Definition clientM : Type -> Type := auth nat.

Definition callback {A} (cb : nat -> outcome A) : clientM A :=
  n ← getS;
  _ ← modS S;
  lift (cb n).

(** The values of the interface [AuthMethod]. *)
Inductive authMethod :=
| NoneAuth
| PasswordAuth (cb : nat -> outcome bytes)
| PublicKeyAuth (cb : nat -> outcome (list Signer))
| InteractiveAuth (cb : nat -> bytes -> bytes -> list bytes -> list bool -> outcome (list bytes))
| RetryableAuth (m : authMethod) (maxTries : Z).

Fixpoint method (a : authMethod) : bytes :=
  match a with
  | NoneAuth => str "none"
  | PasswordAuth _ => str "password"
  | PublicKeyAuth _ => str "publickey"
  | InteractiveAuth _ => str "keyboard-interactive"
  | RetryableAuth m _ => method m
  end.

(** Success, and the methods the server suggests ([None] for nil). *)
Definition authAnswer : Type := bool * option (list bytes).

(** As many rounds as there are packets to read, and one for the end. *)
Definition withFuel {S A} (f : nat -> auth S A) : auth S A := fun st => f (length (io_in st.1) + 1)%nat st.

Fixpoint responseLoop (fuel : nat) : clientM authAnswer :=
  match fuel with
  | O => lift (Panic outOfFuel)
  | S fuel =>
      packet ← readPacket;
      t ← packetType packet;
      if t =? msgUserAuthBanner then responseLoop fuel
      else if t =? msgUserAuthFailure then
        msg ← lift (unmarshalMsg userAuthFailureMsg packet);
        mret (false, Some (userAuthFailureMsg_Methods msg))
      else if t =? msgUserAuthSuccess then mret (true, None)
      else raise (unexpectedMessageError msgUserAuthSuccess t)
  end.

Definition handleAuthResponse : clientM authAnswer := withFuel responseLoop.

Fixpoint keyAckLoop (fuel : nat) (algoname pubKey : bytes) : clientM bool :=
  match fuel with
  | O => lift (Panic outOfFuel)
  | S fuel =>
      packet ← readPacket;
      t ← packetType packet;
      if t =? msgUserAuthBanner then keyAckLoop fuel algoname pubKey
      else if t =? msgUserAuthPubKeyOk then
        msg ← lift (unmarshalMsg userAuthPubKeyOkMsg packet);
        mret (bool_decide (userAuthPubKeyOkMsg_Algo msg = algoname /\ userAuthPubKeyOkMsg_PubKey msg = pubKey))
      else if t =? msgUserAuthFailure then mret false
      else raise (unexpectedMessageError msgUserAuthSuccess t)
  end.

Definition confirmKeyAck (signer : Signer) : clientM bool :=
  withFuel (fun fuel => keyAckLoop fuel (sg_type signer) (sg_public signer)).

Definition validateKey (signer : Signer) (user : bytes) : clientM bool :=
  _ ← writeMsg (mk_publickeyAuthMsg user serviceSSH (str "publickey") false (sg_type signer) (sg_public signer) []);
  confirmKeyAck signer.

Definition containsMethod (methods : option (list bytes)) (m : bytes) : bool :=
  bool_decide (m ∈ default [] methods).

(** The request that carries the signature, wrapped in a string. *)
Definition signedRequest (session user : bytes) (signer : Signer) : outcome publickeyAuthMsg :=
  let? data := buildDataSignedForAuth session
    (mk_userAuthRequestMsg user serviceSSH (str "publickey") []) (sg_type signer) (sg_public signer) in
  let? sign := sg_sign signer data in
  let? s := Marshal sign in
  let? (sig, _) := marshalString (repeat "000"%byte (Z.to_nat (stringLength (zlen s)))) s in
  Ret (mk_publickeyAuthMsg user serviceSSH (str "publickey") true (sg_type signer) (sg_public signer) sig).

Fixpoint trySigners (session user : bytes) (signers : list Signer) (methods : option (list bytes)) : clientM authAnswer :=
  match signers with
  | [] => mret (false, methods)
  | signer :: signers' =>
      ok ← validateKey signer user;
      if negb ok then trySigners session user signers' methods
      else
        msg ← lift (signedRequest session user signer);
        _ ← writeMsg msg;
        '(success, methods) ← handleAuthResponse;
        if success || negb (containsMethod methods (str "publickey")) then mret (success, methods)
        else trySigners session user signers' methods
  end.

(** The prompts and echo flags of a challenge. *)
Fixpoint parsePrompts (n : nat) (rest : bytes) : outcome (list bytes * list bool * bytes) :=
  match n with
  | O => Ret ([], [], rest)
  | S n' =>
      match parseString rest with
      | Some (prompt, e :: rest) =>
          let? (prompts, echos, rest) := parsePrompts n' rest in
          Ret (prompt :: prompts, negb (b2z e =? 0) :: echos, rest)
      | _ => Fail (errNew "ssh: prompt format error")
      end
  end.

(** [marshalUint32] and [marshalString] into a buffer of the right size. *)
Fixpoint marshalAnswers (answers : list bytes) (buf : bytes) : outcome bytes :=
  match answers with
  | [] => Ret buf
  | a :: answers' =>
      let? (written, rest) := marshalString buf a in
      let? tl := marshalAnswers answers' rest in
      Ret (ztake (zlen written - zlen rest) written ++ tl)
  end.

Definition answerPacket (answers : list bytes) : outcome bytes :=
  let responseLength := fold_left (fun n a => n + stringLength (zlen a)) answers (1 + 4) in
  let p := repeat "000"%byte (Z.to_nat (responseLength - 1)) in
  let? (written, rest) := marshalUint32 p (u32 (zlen answers)) in
  let? tl := marshalAnswers answers rest in
  Ret (z2b msgUserAuthInfoResponse :: ztake 4 written ++ tl).

(** What an information request leads to: the answers to send. *)
Definition answerRequest (cb : nat -> bytes -> bytes -> list bytes -> list bool -> outcome (list bytes))
  (packet : bytes) : clientM bytes :=
  msg ← lift (unmarshalMsg userAuthInfoRequestMsg packet);
  '(prompts, echos, rest) ← lift (parsePrompts (Z.to_nat (userAuthInfoRequestMsg_NumPrompts msg)) (userAuthInfoRequestMsg_Prompts msg));
  if negb (zlen rest =? 0) then raise (errNew "ssh: extra data following keyboard-interactive pairs")
  else
    answers ← callback (fun n => cb n (userAuthInfoRequestMsg_User msg) (userAuthInfoRequestMsg_Instruction msg) prompts echos);
    if negb (zlen answers =? zlen prompts) then
      raise (errNew "ssh: not enough answers from keyboard-interactive callback")
    else lift (answerPacket answers).

Fixpoint interactiveLoop (fuel : nat)
  (cb : nat -> bytes -> bytes -> list bytes -> list bool -> outcome (list bytes)) : clientM authAnswer :=
  match fuel with
  | O => lift (Panic outOfFuel)
  | S fuel =>
      packet ← readPacket;
      t ← packetType packet;
      if t =? msgUserAuthBanner then interactiveLoop fuel cb
      else if t =? msgUserAuthInfoRequest then
        p ← answerRequest cb packet;
        _ ← writePacket p;
        interactiveLoop fuel cb
      else if t =? msgUserAuthFailure then
        msg ← lift (unmarshalMsg userAuthFailureMsg packet);
        mret (false, Some (userAuthFailureMsg_Methods msg))
      else if t =? msgUserAuthSuccess then mret (true, None)
      else raise (unexpectedMessageError msgUserAuthInfoRequest t)
  end.

(** The retry loop of [retryableAuthMethod]: the tries left, [None] for no
    limit. *)
Fixpoint retryLoop (fuel : nat) (maxTries i : Z) (once : clientM authAnswer) (last : authAnswer) : clientM authAnswer :=
  if (maxTries <=? 0) || (i <? maxTries) then
    match fuel with
    | O => lift (Panic outOfFuel)
    | S fuel =>
        r ← once;
        if r.1 : bool then mret r else retryLoop fuel maxTries (i + 1) once r
    end
  else mret last.

(** [auth]. *)
Fixpoint runAuth (session user : bytes) (a : authMethod) : clientM authAnswer :=
  match a with
  | NoneAuth =>
      _ ← writeMsg (mk_userAuthRequestMsg user serviceSSH (str "none") []);
      handleAuthResponse
  | PasswordAuth cb =>
      pw ← callback cb;
      _ ← writeMsg (mk_passwordAuthMsg user serviceSSH (str "password") false pw);
      handleAuthResponse
  | PublicKeyAuth cb =>
      signers ← callback cb;
      trySigners session user signers None
  | InteractiveAuth cb =>
      _ ← writeMsg (mk_initiateMsg user serviceSSH (str "keyboard-interactive") [] []);
      withFuel (fun fuel => interactiveLoop fuel cb)
  | RetryableAuth m maxTries =>
      withFuel (fun fuel => retryLoop (fuel + Z.to_nat maxTries) maxTries 0 (runAuth session user m) (false, None))
  end.

(** The next method: the first of the configuration that was not tried and
    that the server suggests. *)
Definition nextMethod (methods : option (list bytes)) (tried : list bytes) (auths : list authMethod) : option authMethod :=
  head (filter (fun a => (method a ∉ tried) /\ (method a ∈ default [] methods)) auths).

Fixpoint clientLoop (fuel : nat) (session user : bytes) (auths : list authMethod) (a : authMethod)
  (tried : list bytes) (lastMethods : option (list bytes)) : clientM unit :=
  match fuel with
  | O => lift (Panic outOfFuel)
  | S fuel =>
      '(ok, methods) ← runAuth session user a;
      if ok : bool then mret tt
      else
        let tried := method a :: tried in
        let methods := match methods with None => lastMethods | _ => methods end in
        match nextMethod methods tried auths with
        | Some a => clientLoop fuel session user auths a tried methods
        | None => raise (Errorf "ssh: unable to authenticate, attempted methods %v, no supported methods remain" [FStrs tried])
        end
  end.

Definition clientAuthenticate (session user : bytes) (auths : list authMethod) : clientM unit :=
  _ ← writeMsg (mk_serviceRequestMsg serviceUserAuth);
  packet ← readPacket;
  _ ← lift (unmarshalMsg serviceAcceptMsg packet);
  clientLoop (S (length auths)) session user auths NoneAuth [] None.
