(* ===== verification/AuthFacts.v ===== *)
(** * User authentication: who gets in

    Soundness of the server (whoever is let in satisfied the configuration, by
    a request that arrived on this connection), the limit on password tries,
    termination of both ends, and the complete public key exchange between the
    client and the server. *)

From S2P Require Import Prelude Wire Codec Messages Negotiate Cipher CipherFacts Transport Kex KexFacts Auth.

(** ** Reasoning about the computations *)

Section reasoning.
Context {S : Type}.
Implicit Types st : io * S.

Lemma bind_ret_inv {A B} (m : auth S A) (k : A -> auth S B) st b st' :
  (m ≫= k) st = (Ret b, st') -> exists a st1, m st = (Ret a, st1) /\ k a st1 = (Ret b, st').
Proof.
  unfold mbind, auth_bind. destruct (m st) as [[a|e|w] st1]; intros H; [eauto | discriminate..].
Qed.

Lemma lift_ret_inv {A} (m : outcome A) st a st' : lift m st = (Ret a, st') -> m = Ret a /\ st = st'.
Proof. unfold lift. by intros [= -> ->]. Qed.

(** What holds of the result and the state after. *)
Definition wp {A} (m : auth S A) (Q : outcome A -> io * S -> Prop) st : Prop := Q (m st).1 (m st).2.

Lemma auth_wp_mono {A} (m : auth S A) (Q Q' : outcome A -> io * S -> Prop) st :
  wp m Q st -> (forall r st', Q r st' -> Q' r st') -> wp m Q' st.
Proof. intros H Hq. apply Hq, H. Qed.

Lemma auth_wp_bind {A B} (m : auth S A) (k : A -> auth S B) Q st :
  wp m (fun r st' => match r with
                     | Ret a => wp (k a) Q st'
                     | Fail e => Q (Fail e) st'
                     | Panic w => Q (Panic w) st'
                     end) st ->
  wp (m ≫= k) Q st.
Proof. unfold wp, mbind, auth_bind. by destruct (m st) as [[]]. Qed.

(** An invariant that a computation keeps, whatever its result. *)
Definition keeps {A} (I : io * S -> Prop) (m : auth S A) : Prop := forall st, I st -> I (m st).2.

Lemma auth_keeps_bind {A B} I (m : auth S A) (k : A -> auth S B) :
  keeps I m -> (forall a, keeps I (k a)) -> keeps I (m ≫= k).
Proof.
  intros Hm Hk st Hi. specialize (Hm st Hi). unfold mbind, auth_bind.
  destruct (m st) as [[a|e|w] st1]; [by apply Hk | done..].
Qed.

Lemma keeps_lift_bind {A B} I (m : outcome A) (k : A -> auth S B) :
  (forall a, m = Ret a -> keeps I (k a)) -> keeps I (lift m ≫= k).
Proof. intros Hk st Hi. destruct m; [by apply Hk | done..]. Qed.

Lemma keeps_lift {A} I (m : outcome A) : keeps I (lift m).
Proof. by intros st. Qed.

Lemma auth_keeps_ret {A} I (a : A) : keeps I (mret a).
Proof. by intros st. Qed.

Lemma keeps_getS I : keeps I getS.
Proof. by intros st. Qed.

Lemma keeps_packetType I p : keeps I (packetType p).
Proof. destruct p; apply keeps_lift || apply auth_keeps_ret. Qed.

(** An invariant about what is left to read (which only shrinks) and the
    variables; packets written do not matter to it. *)
Definition inputInv (R : list (outcome bytes) -> S -> Prop) : io * S -> Prop := fun st => R (io_in st.1) st.2.

Context (R : list (outcome bytes) -> S -> Prop).
Hypothesis R_tail : forall r rs s, R (r :: rs) s -> R rs s.

Lemma keeps_tryRead : keeps (inputInv R) tryRead.
Proof. intros [c s]. unfold inputInv, tryRead. simpl. destruct (io_in c) eqn:E; simpl; [by rewrite E|]. apply R_tail. Qed.

Lemma keeps_readPacket : keeps (inputInv R) readPacket.
Proof. apply auth_keeps_bind; [apply keeps_tryRead | intros; apply keeps_lift]. Qed.

Lemma auth_keeps_writePacket p : keeps (inputInv R) (writePacket p).
Proof. intros [c s]. unfold inputInv, writePacket. simpl. by destruct (io_errs c) as [|[e|] es]. Qed.

Lemma keeps_writeMsg {T} `{SSHMessage T} (m : T) : keeps (inputInv R) (writeMsg m).
Proof. apply auth_keeps_bind; [apply keeps_lift | intros; apply auth_keeps_writePacket]. Qed.

Lemma keeps_modS f : (forall rs s, R rs s -> R rs (f s)) -> keeps (inputInv R) (modS f).
Proof. intros Hf [c s]. unfold inputInv. simpl. apply Hf. Qed.
End reasoning.

#[export] Hint Resolve keeps_lift auth_keeps_ret keeps_getS keeps_packetType : ssh.

(** ** Keeping an invariant through the server's steps *)

(** What is recorded about a key is what the callback and the address check
    say about it. *)
Definition answer_ok (cfg : ServerConfig) (env : serverEnv) (k : cachedPubKey) : Prop :=
  exists cb pk, PublicKeyCallback cfg = Some cb /\ se_ParsePublicKey env (cp_pubKeyData k) = Ret pk /\
    queryKey env cb (cp_user k) pk = (cp_perms k, cp_result k).

Section server_keeps.
Context (cfg : ServerConfig) (env : serverEnv) (R : list (outcome bytes) -> serverVars -> Prop).
Hypothesis R_tail : forall r rs s, R (r :: rs) s -> R rs s.
Hypothesis R_cache : forall rs u c f es ps k, answer_ok cfg env k ->
  R rs (mkServerVars u c f es ps) -> R rs (mkServerVars u (cache_add c k) f es ps).
Hypothesis R_failures : forall rs u c f f' es ps, R rs (mkServerVars u c f es ps) -> R rs (mkServerVars u c f' es ps).
Hypothesis R_errs : forall rs u c f es es' ps, R rs (mkServerVars u c f es ps) -> R rs (mkServerVars u c f es' ps).
Hypothesis R_passwords : forall rs u c f es ps ps', R rs (mkServerVars u c f es ps) -> R rs (mkServerVars u c f es ps').
#[local] Abbreviation K := (keeps (inputInv R)).

Lemma keeps_Challenge i qs es : K (Challenge i qs es).
Proof.
  unfold Challenge. destruct (negb _); [apply keeps_lift|].
  apply auth_keeps_bind; [apply keeps_writeMsg|]. intros _.
  apply auth_keeps_bind; [by apply keeps_readPacket|]. intros p.
  apply auth_keeps_bind; [apply keeps_packetType|]. intros t. destruct (negb _); apply keeps_lift.
Qed.

Lemma keeps_catch {A} (m : serverM A) : K m -> K (catch m).
Proof. intros Hm st Hi. specialize (Hm st Hi). unfold catch. by destruct (m st) as [[]]. Qed.

Lemma keeps_runInteraction p : K (runInteraction p).
Proof.
  induction p as [v|u i qs es k IH]; [apply auth_keeps_ret|]. simpl.
  apply auth_keeps_bind; [apply keeps_catch, keeps_Challenge | exact IH].
Qed.

Lemma keeps_readRequest : K readRequest.
Proof. apply auth_keeps_bind; [by apply keeps_tryRead|]. intros [p|[]|w]; apply keeps_lift. Qed.

Lemma keeps_addFailures n : K (addFailures n).
Proof. apply keeps_modS. intros rs [u c f es ps]. apply R_failures. Qed.

Lemma keeps_authNone : K (authNone cfg).
Proof.
  apply auth_keeps_bind; [apply keeps_getS|]. intros s. apply auth_keeps_bind; [|intros; apply auth_keeps_ret].
  destruct (_ =? 0); [apply keeps_addFailures | apply auth_keeps_ret].
Qed.

Lemma keeps_authPassword req : K (authPassword cfg req).
Proof.
  unfold authPassword. destruct (PasswordCallback cfg) as [cb|]; [|apply auth_keeps_ret].
  destruct (userAuthRequestMsg_Payload req) as [|b payload]; [apply keeps_lift|].
  destruct (negb _); [apply keeps_lift|].
  destruct (parseString payload) as [[pw [|]]|]; try apply keeps_lift.
  apply auth_keeps_bind; [|intros; apply auth_keeps_ret]. apply keeps_modS. intros rs [u c f es ps]. apply R_passwords.
Qed.

Lemma keeps_lookupKey cb u kd pk :
  PublicKeyCallback cfg = Some cb -> se_ParsePublicKey env kd = Ret pk -> K (lookupKey env cb u kd pk).
Proof.
  intros Hcb Hpk. apply auth_keeps_bind; [apply keeps_getS|]. intros s.
  destruct (cache_get _ _ _); [apply auth_keeps_ret|]. destruct (queryKey env cb u pk) as [perms result] eqn:E.
  apply auth_keeps_bind; [|intros; apply auth_keeps_ret]. apply keeps_modS. intros rs [u' c f es ps]. apply R_cache.
  by exists cb, pk.
Qed.

Lemma keeps_checkSignature req algo kd pk cand payload : K (checkSignature env req algo kd pk cand payload).
Proof.
  unfold checkSignature. destruct (parseSignature payload) as [[sig [|]]|]; try apply keeps_lift.
  destruct (negb _); [apply auth_keeps_ret|]. apply auth_keeps_bind; [apply keeps_lift|]. intros d.
  apply auth_keeps_bind; [apply keeps_lift | intros; apply auth_keeps_ret].
Qed.

Lemma keeps_authPublicKey req : K (authPublicKey cfg env req).
Proof.
  unfold authPublicKey. destruct (PublicKeyCallback cfg) as [cb|] eqn:Hcb; [|apply auth_keeps_ret].
  destruct (userAuthRequestMsg_Payload req) as [|b payload]; [apply keeps_lift|].
  apply auth_keeps_bind; [apply keeps_lift|]. intros [algo p1]. destruct (negb _); [apply auth_keeps_ret|].
  apply auth_keeps_bind; [apply keeps_lift|]. intros [kd p2].
  apply keeps_lift_bind. intros pk Hpk.
  apply auth_keeps_bind; [by apply keeps_lookupKey|]. intros cand. destruct (b2z b =? 0).
  - destruct (0 <? _); [apply keeps_lift|]. destruct (cp_result cand); [apply auth_keeps_ret|].
    apply auth_keeps_bind; [apply keeps_writeMsg | intros; apply auth_keeps_ret].
  - apply auth_keeps_bind; [apply keeps_checkSignature | intros; apply auth_keeps_ret].
Qed.

Lemma keeps_authMethodStep req : K (authMethodStep cfg env req).
Proof.
  unfold authMethodStep. repeat case_bool_decide.
  - apply auth_keeps_bind; [apply keeps_authNone | intros; apply auth_keeps_ret].
  - apply auth_keeps_bind; [apply keeps_authPassword | intros; apply auth_keeps_ret].
  - destruct (KeyboardInteractiveCallback cfg); [|apply auth_keeps_ret].
    apply auth_keeps_bind; [apply keeps_runInteraction | intros; apply auth_keeps_ret].
  - apply keeps_authPublicKey.
  - apply auth_keeps_ret.
Qed.

Hypothesis R_user : forall rs u u' c f es ps, R rs (mkServerVars u c f es ps) -> R rs (mkServerVars u' c f es ps).

Lemma keeps_authRequest req : K (authRequest cfg env req).
Proof.
  unfold authRequest. destruct (negb _); [apply keeps_lift|].
  apply auth_keeps_bind. { apply keeps_modS. intros rs [u c f es ps]. apply R_user. }
  intros _. apply auth_keeps_bind; [apply keeps_authMethodStep|]. intros [[perms err]|]; [|apply auth_keeps_ret].
  apply auth_keeps_bind. { apply keeps_modS. intros rs [u c f es ps]. apply R_errs. }
  intros _. destruct err.
  - apply auth_keeps_bind; [apply keeps_addFailures|]. intros _. case_bool_decide; [apply keeps_lift|].
    apply auth_keeps_bind; [apply keeps_writeMsg | intros; apply auth_keeps_ret].
  - apply auth_keeps_bind; [apply auth_keeps_writePacket | intros; apply auth_keeps_ret].
Qed.

Lemma keeps_authRound : K (authRound cfg env).
Proof.
  apply auth_keeps_bind; [apply keeps_getS|]. intros s. destruct (_ && _).
  { apply auth_keeps_bind; [apply keeps_writeMsg | intros; apply keeps_lift]. }
  apply auth_keeps_bind; [apply keeps_readRequest | exact keeps_authRequest].
Qed.
End server_keeps.

(** ** Soundness *)

(** How a keyboard-interactive callback can end, whatever is answered. *)
Inductive ends : interaction -> verdict -> Prop :=
| ends_done v : ends (IDone v) v
| ends_ask u i qs es k r v : ends (k r) v -> ends (IAsk u i qs es k) v.

Lemma runInteraction_ends p st v st' : runInteraction p st = (Ret v, st') -> ends p v.
Proof.
  revert st. induction p as [v0|u i qs es k IH]; simpl; intros st H.
  - injection H as <- _. constructor.
  - apply bind_ret_inv in H as (r & st1 & _ & H). apply (ends_ask _ _ _ _ _ r). by eapply IH.
Qed.

(** The reasons for which a request lets a user in with [perms]. *)
Inductive grants (cfg : ServerConfig) (env : serverEnv) (req : userAuthRequestMsg) (perms : option Permissions) : Prop :=
| grant_none :
    userAuthRequestMsg_Method req = str "none" -> NoClientAuth cfg = true -> perms = None ->
    grants cfg env req perms
| grant_password cb pw :
    userAuthRequestMsg_Method req = str "password" -> PasswordCallback cfg = Some cb ->
    (exists rest, userAuthRequestMsg_Payload req = z2b 0 :: rest /\ parseString rest = Some (pw, [])) ->
    cb (userAuthRequestMsg_User req) pw = (perms, None) ->
    grants cfg env req perms
| grant_interactive cb :
    userAuthRequestMsg_Method req = str "keyboard-interactive" -> KeyboardInteractiveCallback cfg = Some cb ->
    ends (cb (userAuthRequestMsg_User req)) (perms, None) ->
    grants cfg env req perms
| grant_publickey cb algo kd key sig data :
    userAuthRequestMsg_Method req = str "publickey" -> PublicKeyCallback cfg = Some cb ->
    se_ParsePublicKey env kd = Ret key ->
    isAcceptableAlgo algo = true -> isAcceptableAlgo (Signature_Format sig) = true ->
    buildDataSignedForAuth (se_sessionID env) req algo kd = Ret data ->
    pk_Verify key data sig = Ret tt ->
    queryKey env cb (userAuthRequestMsg_User req) key = (perms, None) ->
    grants cfg env req perms.

(** Cached answers are right, and what is left to read was there at first. *)
Definition cacheInv (cfg : ServerConfig) (env : serverEnv) (inp : list (outcome bytes)) (u : option bytes)
  (rs : list (outcome bytes)) (s : serverVars) : Prop :=
  rs `suffix_of` inp /\ Forall (answer_ok cfg env) (sv_cache s) /\ (forall u0, u = Some u0 -> sv_user s = u0).

Lemma cache_get_elem keys u kd k : cache_get keys u kd = Some k -> k ∈ keys /\ cp_user k = u /\ cp_pubKeyData k = kd.
Proof.
  induction keys as [|k' keys IH]; simpl; [done|]. case_bool_decide as E.
  - intros [= ->]. split; [left | done].
  - intros H. destruct (IH H). by split; [right|].
Qed.

Lemma cache_add_ok cfg env c k :
  answer_ok cfg env k -> Forall (answer_ok cfg env) c -> Forall (answer_ok cfg env) (cache_add c k).
Proof. intros Hk Hc. unfold cache_add. destruct (_ <? _); [|done]. apply Forall_app_2; [done|]. by constructor. Qed.

Lemma suffix_tail {A} (r : A) rs l : r :: rs `suffix_of` l -> rs `suffix_of` l.
Proof. intros [k ->]. exists (k ++ [r]). by rewrite <- app_assoc. Qed.

Lemma suffix_head {A} (r : A) rs l : r :: rs `suffix_of` l -> r ∈ l.
Proof. intros [k ->]. set_solver. Qed.

Lemma lookupKey_answer cfg env cb u kd pk st cand st' :
  Forall (answer_ok cfg env) (sv_cache st.2) -> PublicKeyCallback cfg = Some cb -> se_ParsePublicKey env kd = Ret pk ->
  lookupKey env cb u kd pk st = (Ret cand, st') ->
  queryKey env cb u pk = (cp_perms cand, cp_result cand).
Proof.
  intros Hc Hcb Hpk H. apply bind_ret_inv in H as (s & st1 & [= <- <-] & H).
  destruct (cache_get _ _ _) as [k|] eqn:E.
  - injection H as <- _. apply cache_get_elem in E as (Hin & <- & <-).
    eapply Forall_forall in Hc as (cb' & pk' & E1 & E2 & E3); [|exact Hin]. congruence.
  - destruct (queryKey env cb u pk) as [perms result]. apply bind_ret_inv in H as (a & st2 & _ & [= <- _]). done.
Qed.

Lemma authPublicKey_grants cfg env req st perms st' :
  userAuthRequestMsg_Method req = str "publickey" -> Forall (answer_ok cfg env) (sv_cache st.2) ->
  authPublicKey cfg env req st = (Ret (Some (perms, None)), st') -> grants cfg env req perms.
Proof.
  intros Hm Hc H. unfold authPublicKey in H. destruct (PublicKeyCallback cfg) as [cb|] eqn:Hcb; [|discriminate].
  destruct (userAuthRequestMsg_Payload req) as [|b payload]; [discriminate|].
  apply bind_ret_inv in H as ([algo p1] & st1 & [E1 <-]%lift_ret_inv & H).
  destruct (isAcceptableAlgo algo) eqn:Ea; [|discriminate]. cbn [negb] in H.
  apply bind_ret_inv in H as ([kd p2] & st2 & [E2 <-]%lift_ret_inv & H).
  apply bind_ret_inv in H as (pk & st3 & [E3 <-]%lift_ret_inv & H).
  apply bind_ret_inv in H as (cand & st4 & E4 & H).
  pose proof (lookupKey_answer _ _ _ _ _ _ _ _ _ Hc Hcb E3 E4) as Hq.
  destruct (b2z b =? 0).
  - destruct (0 <? zlen p2); [discriminate|]. destruct (cp_result cand); [discriminate|].
    by apply bind_ret_inv in H as (a & st5 & _ & H).
  - apply bind_ret_inv in H as (v & st5 & H & [= -> _]). unfold checkSignature in H.
    destruct (parseSignature p2) as [[sig [|]]|]; try discriminate H.
    destruct (isAcceptableAlgo (Signature_Format sig)) eqn:Es; [|discriminate]. cbn [negb] in H.
    apply bind_ret_inv in H as (data & st6 & [E5 <-]%lift_ret_inv & H).
    apply bind_ret_inv in H as ([] & st7 & [Ev <-]%lift_ret_inv & H). injection H as <- Hr _.
    eapply grant_publickey; [exact Hm | exact Hcb | exact E3 | exact Ea | exact Es | exact E5 | exact Ev |].
    by rewrite Hq, Hr.
Qed.

Lemma authMethodStep_grants cfg env req st perms st' :
  Forall (answer_ok cfg env) (sv_cache st.2) ->
  authMethodStep cfg env req st = (Ret (Some (perms, None)), st') -> grants cfg env req perms.
Proof.
  intros Hc H. unfold authMethodStep in H. repeat case_bool_decide.
  - apply bind_ret_inv in H as (v & st1 & H & [= -> _]).
    apply bind_ret_inv in H as (s & st2 & _ & H). apply bind_ret_inv in H as (u & st3 & _ & [= H _]).
    destruct (NoClientAuth cfg) eqn:E; [|discriminate]. injection H as <-. by apply grant_none.
  - apply bind_ret_inv in H as (v & st1 & H & [= -> _]). unfold authPassword in H.
    destruct (PasswordCallback cfg) as [cb|] eqn:Ecb; [|discriminate].
    destruct (userAuthRequestMsg_Payload req) as [|b payload] eqn:Ep; [discriminate|].
    destruct (b2z b =? 0) eqn:Eb; [|discriminate]. cbn [negb] in H.
    destruct (parseString payload) as [[pw [|]]|] eqn:Es; try discriminate H.
    apply bind_ret_inv in H as (u & st2 & _ & [= H _]).
    eapply (grant_password _ _ _ _ cb pw); [done | done | | done]. exists payload. split; [|done].
    rewrite Ep. f_equal. apply b2z_inj. rewrite b2z_z2b. by b2p.
  - destruct (KeyboardInteractiveCallback cfg) as [cb|] eqn:Ecb; [|discriminate].
    apply bind_ret_inv in H as (v & st1 & H & [= -> _]). apply runInteraction_ends in H.
    by apply (grant_interactive _ _ _ _ cb).
  - by eapply authPublicKey_grants.
  - discriminate.
Qed.

(** A request that arrived, for the right service. *)
Definition arrived (inp : list (outcome bytes)) (req : userAuthRequestMsg) : Prop :=
  exists packet, Ret packet ∈ inp /\ unmarshalMsg userAuthRequestMsg packet = Ret req /\
    userAuthRequestMsg_Service req = serviceSSH.

Lemma readRequest_arrived inp st req st' :
  io_in st.1 `suffix_of` inp -> readRequest st = (Ret req, st') ->
  exists packet, Ret packet ∈ inp /\ unmarshalMsg userAuthRequestMsg packet = Ret req.
Proof.
  intros Hs H. apply bind_ret_inv in H as (r & st1 & E & H). destruct st as [c s]. simpl in *.
  destruct (io_in c) as [|r0 rs] eqn:Ei; injection E as <- <-; [discriminate|].
  destruct r0 as [p|[]|w]; try discriminate H. injection H as H _. exists p. split; [|done]. by eapply suffix_head.
Qed.

Lemma cacheInv_setUser cfg env inp u rs u0 c f es ps :
  cacheInv cfg env inp None rs (mkServerVars u0 c f es ps) -> cacheInv cfg env inp (Some u) rs (mkServerVars u c f es ps).
Proof. intros (H1 & H2 & _). split_and!; [done | done |]. by intros ? [= ->]. Qed.

Lemma cacheInv_step cfg env inp u req : keeps (inputInv (cacheInv cfg env inp u)) (authMethodStep cfg env req).
Proof.
  apply keeps_authMethodStep; unfold cacheInv; simpl.
  - intros r rs s (H1 & H2 & H3). split_and!; [by eapply suffix_tail | done | done].
  - intros rs u0 c f es ps k Hk (H1 & H2 & H3). split_and!; [done | by apply cache_add_ok | done].
  - done.
  - done.
Qed.

Lemma cacheInv_round cfg env inp : keeps (inputInv (cacheInv cfg env inp None)) (authRound cfg env).
Proof.
  apply keeps_authRound; unfold cacheInv; simpl.
  - intros r rs s (H1 & H2 & H3). split_and!; [by eapply suffix_tail | done | done].
  - intros rs u0 c f es ps k Hk (H1 & H2 & H3). split_and!; [done | by apply cache_add_ok | done].
  - done.
  - done.
  - done.
  - intros rs u u' c f es ps (H1 & H2 & _). by split_and!.
Qed.

Lemma authRound_sound cfg env inp st perms st' :
  inputInv (cacheInv cfg env inp None) st -> authRound cfg env st = (Ret (Some perms), st') ->
  exists req, arrived inp req /\ sv_user st'.2 = userAuthRequestMsg_User req /\ grants cfg env req perms.
Proof.
  intros Hi H. apply bind_ret_inv in H as (s & st0 & [= _ <-] & H).
  destruct (_ && _); [by apply bind_ret_inv in H as (? & ? & _ & H)|].
  apply bind_ret_inv in H as (req & st1 & E1 & H). unfold authRequest in H.
  destruct (bool_decide (userAuthRequestMsg_Service req = serviceSSH)) eqn:Es; [|discriminate].
  apply bool_decide_eq_true in Es. cbn [negb] in H.
  destruct (readRequest_arrived inp _ _ _ (proj1 Hi) E1) as (packet & Hin & Hu).
  assert (Hi1 : inputInv (cacheInv cfg env inp None) st1).
  { pose proof (keeps_readRequest (cacheInv cfg env inp None)) as Hk.
    specialize (fun X => Hk X st Hi). rewrite E1 in Hk. apply Hk.
    intros r rs s0 (H1 & H2 & H3). split_and!; [by eapply suffix_tail | done | done]. }
  apply bind_ret_inv in H as (u & st2 & E2 & H). injection E2 as _ <-.
  apply bind_ret_inv in H as (r & st3 & E3 & H). destruct r as [[perms' err]|]; [|discriminate].
  set (st2 := (st1.1, _)) in *.
  assert (Hi2 : inputInv (cacheInv cfg env inp (Some (userAuthRequestMsg_User req))) st2).
  { unfold st2, inputInv in *. destruct st1 as [c1 [u1 c2 f es ps]]. simpl in *. by eapply cacheInv_setUser. }
  pose proof (cacheInv_step cfg env inp (Some (userAuthRequestMsg_User req)) req st2 Hi2) as Hi3. rewrite E3 in Hi3.
  apply bind_ret_inv in H as (a & st4 & E4 & H). injection E4 as _ <-.
  destruct err as [e|].
  - apply bind_ret_inv in H as (? & ? & _ & H). case_bool_decide; [discriminate|].
    by apply bind_ret_inv in H as (? & ? & _ & H).
  - apply bind_ret_inv in H as (? & st5 & E5 & H). injection H as <- <-.
    exists req. split_and!; [by exists packet| |].
    + assert (Eu : sv_user st5.2 = sv_user st3.2).
      { unfold writePacket in E5. destruct st3 as [c3 s3]. simpl in E5.
        destruct (io_errs c3) as [|[|]]; [injection E5 as _ <-; done | discriminate | injection E5 as _ <-; done]. }
      rewrite Eu. destruct Hi3 as (_ & _ & Hu3). by apply Hu3.
    + eapply authMethodStep_grants; [|exact E3]. by destruct Hi2 as (_ & Hc & _).
Qed.

Lemma authLoop_sound fuel cfg env inp st perms st' :
  inputInv (cacheInv cfg env inp None) st -> authLoop fuel cfg env st = (Ret perms, st') ->
  exists req, arrived inp req /\ sv_user st'.2 = userAuthRequestMsg_User req /\ grants cfg env req perms.
Proof.
  revert st. induction fuel as [|fuel IH]; intros st Hi H; [discriminate|]. simpl in H.
  apply bind_ret_inv in H as (r & st1 & E & H).
  destruct r as [p|].
  - injection H as <- <-. by eapply authRound_sound.
  - apply IH in H; [done|]. pose proof (cacheInv_round cfg env inp st Hi) as Hk. by rewrite E in Hk.
Qed.

(** C4: nobody gets in without credentials the configuration accepts.  If
    [serverAuthenticate] succeeds, then a request for the connection service
    arrived on this connection from the user the connection now has, and it is
    one of: "none" with [NoClientAuth]; a password the callback accepted for
    this user; a keyboard-interactive dialogue that ended well; or a signature,
    valid under the parsed public key, of this session's identifier and this
    very request, where the callback accepts that key for this user and the
    client's address is allowed.  The permissions are those that this request
    was granted, also when the answer came from the cache. *)
Theorem serverAuthenticate_sound (cfg : ServerConfig) (env : serverEnv) (c c' : io) (s : serverVars) perms :
  serverAuthenticate cfg env c = (Ret perms, (c', s)) ->
  exists req, arrived (io_in c) req /\ sv_user s = userAuthRequestMsg_User req /\ grants cfg env req perms.
Proof.
  intros H. unfold serverAuthenticate in H. eapply (authLoop_sound _ _ _ (io_in c)) in H; [exact H|].
  split_and!; [done | by constructor | done].
Qed.

(** ** The limit on tries *)

Definition tries (s : serverVars) : Z := zlen (sv_checked s).

(** What the method's step does to the two counters. *)
Definition step_counts (r : outcome (option verdict)) (s s' : serverVars) : Prop :=
  (tries s' = tries s /\ sv_authFailures s' = sv_authFailures s) \/
  (r <> Ret None /\ tries s' = tries s /\ sv_authFailures s = 0 /\ sv_authFailures s' = -1) \/
  (r <> Ret None /\ tries s' = tries s + 1 /\ sv_authFailures s' = sv_authFailures s).

Definition sameCounts (s0 : serverVars) (rs : list (outcome bytes)) (s : serverVars) : Prop :=
  tries s = tries s0 /\ sv_authFailures s = sv_authFailures s0.

Lemma keeps_counts (m : serverM (option verdict)) st :
  keeps (inputInv (sameCounts st.2)) m -> step_counts (m st).1 st.2 (m st).2.2.
Proof. intros Hk. left. by apply Hk. Qed.

Lemma wrap_some (m : serverM verdict) st :
  ((v ← m; mret (Some v)) st).2 = (m st).2 /\ ((v ← m; mret (Some v)) st).1 <> Ret None.
Proof. unfold mbind, auth_bind. destruct (m st) as [[]]; done. Qed.

Lemma authPassword_counts cfg req st :
  let s' := (authPassword cfg req st).2.2 in
  sv_authFailures s' = sv_authFailures st.2 /\ (tries s' = tries st.2 \/ tries s' = tries st.2 + 1).
Proof.
  unfold authPassword. destruct (PasswordCallback cfg) as [cb|]; [|by auto].
  destruct (userAuthRequestMsg_Payload req) as [|b payload]; [by auto|]. destruct (negb _); [by auto|].
  destruct (parseString payload) as [[pw [|]]|]; [|by auto..]. split; [done|]. right.
  unfold tries. simpl. rewrite zlen_app, zlen_cons, zlen_nil. lia.
Qed.

Lemma authMethodStep_counts cfg env req st :
  step_counts (authMethodStep cfg env req st).1 st.2 (authMethodStep cfg env req st).2.2.
Proof.
  unfold authMethodStep. repeat case_bool_decide.
  - destruct (wrap_some (authNone cfg) st) as [-> Hr]. unfold authNone, mbind, auth_bind, getS. simpl.
    destruct (sv_authFailures st.2 =? 0) eqn:E; b2p; simpl.
    + right. left. unfold tries. simpl. split_and!; [done | done | done | lia].
    + by left.
  - destruct (wrap_some (authPassword cfg req) st) as [-> Hr].
    destruct (authPassword_counts cfg req st) as [Hf [Ht|Ht]]; [left | right; right]; by split_and!.
  - destruct (KeyboardInteractiveCallback cfg); [|by left]. apply keeps_counts.
    apply auth_keeps_bind; [by apply keeps_runInteraction | intros; apply auth_keeps_ret].
  - apply keeps_counts, keeps_authPublicKey. done.
  - by left.
Qed.

(** Between rounds every try has cost a failure, and failures are counted up to
    the limit. *)
Definition paid (max : Z) (s : serverVars) : Prop := 0 <= tries s <= sv_authFailures s /\ sv_authFailures s <= max.

Lemma writePacket_vars {S} p (st : io * S) : wp (writePacket p) (fun _ st' => st'.2 = st.2) st.
Proof. destruct st as [c s]. unfold wp, writePacket. by destruct (io_errs c) as [|[|]]. Qed.

Lemma writeMsg_vars {S T} `{SSHMessage T} (m : T) (st : io * S) : wp (writeMsg m) (fun _ st' => st'.2 = st.2) st.
Proof. apply auth_wp_bind. destruct (Marshal m); [apply writePacket_vars | done..]. Qed.

Lemma readRequest_vars st : wp readRequest (fun _ st' => st'.2 = st.2) st.
Proof. destruct st as [c s]. apply auth_wp_bind. unfold wp, tryRead. destruct (io_in c) as [|[p|[]|w] rs]; done. Qed.

(** What a round promises. *)
Definition round_post (max : Z) (r : outcome (option (option Permissions))) (st : io * serverVars) : Prop :=
  tries st.2 <= max /\ (r = Ret None -> paid max st.2).

(** The end of a round, after the method's verdict. *)
Lemma round_end_tries cfg max perms err st :
  0 <= tries st.2 -> sv_authFailures st.2 + 1 <= max -> tries st.2 <= sv_authFailures st.2 + 1 ->
  wp (_ ← addAuthErr err;
      match err with
      | None => _ ← writePacket [z2b msgUserAuthSuccess]; mret (Some perms)
      | Some _ =>
          _ ← addFailures 1;
          if bool_decide (failureMethods cfg = []) then raise errNoMethods
          else
            _ ← writeMsg (mk_userAuthFailureMsg (failureMethods cfg) false);
            mret None
      end) (round_post max) st.
Proof.
  intros H0 Hmax Ht. destruct st as [c [u k f es ps]]. unfold tries in *. simpl in *.
  apply auth_wp_bind. unfold wp at 1. simpl. destruct err as [e|].
  - apply auth_wp_bind. unfold wp at 1. simpl. case_bool_decide; [split; [unfold tries; simpl; lia | done]|].
    apply auth_wp_bind. eapply auth_wp_mono; [apply writeMsg_vars|]. intros r [c' s'] E. simpl in E. subst s'.
    destruct r; (split; [unfold tries; simpl; lia | first [done | intros _; split; unfold tries; simpl; lia]]).
  - apply auth_wp_bind. eapply auth_wp_mono; [apply writePacket_vars|]. intros r [c' s'] E. simpl in E. subst s'.
    destruct r; (split; [unfold tries; simpl; lia | done]).
Qed.

Lemma authRound_tries cfg env st :
  0 < MaxAuthTries cfg -> paid (MaxAuthTries cfg) st.2 -> wp (authRound cfg env) (round_post (MaxAuthTries cfg)) st.
Proof.
  intros Hmax [Hp Hm]. apply auth_wp_bind. unfold wp at 1. cbn [getS fst snd].
  destruct ((MaxAuthTries cfg <=? sv_authFailures st.2) && (0 <? MaxAuthTries cfg)) eqn:E.
  { apply auth_wp_bind. eapply auth_wp_mono; [apply writeMsg_vars|]. intros r [c' s'] Es. simpl in Es. subst s'.
    destruct r; (split; [simpl; lia | done]). }
  apply andb_false_iff in E as [E|E]; b2p; [|lia].
  apply auth_wp_bind. eapply auth_wp_mono; [apply readRequest_vars|]. intros r [c1 s1] Es. simpl in Es. subst s1.
  destruct r as [req|e|w]; [|split; [simpl; lia | done]..].
  unfold authRequest. destruct (negb _); [split; [simpl; lia | done]|].
  apply auth_wp_bind. unfold wp at 1. cbn [setUser modS fst snd].
  set (s1 := mkServerVars _ _ _ _ _). assert (tries s1 = tries st.2) as E1 by done.
  assert (sv_authFailures s1 = sv_authFailures st.2) as E2 by done.
  pose proof (authMethodStep_counts cfg env req (c1, s1)) as Hc. apply auth_wp_bind. unfold wp at 1.
  destruct (authMethodStep cfg env req (c1, s1)) as [r [c2 s2]]. unfold step_counts in Hc. cbn [fst snd] in *.
  pose proof (zlen_nonneg (sv_checked s2)) as Hn. change (zlen (sv_checked s2)) with (tries s2) in Hn.
  assert (Hs : tries s2 <= sv_authFailures s2 + 1 /\ sv_authFailures s2 + 1 <= MaxAuthTries cfg /\
               tries s2 <= MaxAuthTries cfg /\ (r = Ret None -> tries s2 <= sv_authFailures s2)).
  { destruct Hc as [[? ?]|[(? & ? & ? & ?)|(? & ? & ?)]]; split_and!; try lia; intros ?; try lia; done. }
  destruct Hs as (H1 & H2 & H3 & H4). destruct r as [[[perms err]|]|e|w].
  - by apply round_end_tries.
  - split; [done|]. intros _. specialize (H4 eq_refl). split; simpl; lia.
  - by split.
  - by split.
Qed.

(** C31: the server lets a client try at most [MaxAuthTries] passwords per
    connection: whatever packets arrive and however the call ends, the
    password callback was asked at most that often. *)
Theorem password_tries_bounded (cfg : ServerConfig) (env : serverEnv) (c : io) :
  0 < MaxAuthTries cfg ->
  zlen (sv_checked (serverAuthenticate cfg env c).2.2) <= MaxAuthTries cfg.
Proof.
  intros Hmax. unfold serverAuthenticate.
  assert (Hgen : forall fuel st, paid (MaxAuthTries cfg) st.2 ->
    tries (authLoop fuel cfg env st).2.2 <= MaxAuthTries cfg); [|apply Hgen; split; [done | simpl; lia]].
  induction fuel as [|fuel IH]; intros st Hp; [destruct Hp; simpl; lia|]. simpl.
  destruct (authRound_tries cfg env st Hmax Hp) as [Ht Hn]. unfold mbind, auth_bind.
  destruct (authRound cfg env st) as [[[perms|]|e|w] st']; [done | by apply IH, Hn | done..].
Qed.

(** ** Termination without panics *)

(** What a transport returns: packets are not empty. *)
Definition reads_ok (rs : list (outcome bytes)) : Prop :=
  Forall (fun r => match r with Ret p => p <> [] | Fail _ => True | Panic _ => False end) rs.

Section safe.
Context {S : Type} (blame : string -> Prop).

Definition blamed {A} (r : outcome A) : Prop := match r with Panic w => blame w | _ => True end.

Definition safe {A} (m : auth S A) : Prop :=
  forall st : io * S, reads_ok (io_in st.1) -> blamed (m st).1 /\ reads_ok (io_in (m st).2.1).

Lemma safe_bind {A B} (m : auth S A) (k : A -> auth S B) : safe m -> (forall a, safe (k a)) -> safe (m ≫= k).
Proof.
  intros Hm Hk st Hr. destruct (Hm st Hr) as [Hp Hr']. unfold mbind, auth_bind.
  destruct (m st) as [[a|e|w] st1]; [by apply Hk | done | done].
Qed.

Lemma safe_blame {A} (m : outcome A) : blamed m -> safe (lift m).
Proof. by intros Hm st Hr. Qed.

Lemma safe_lift {A} (m : outcome A) : panics m = false -> safe (lift m).
Proof. intros Hm. apply safe_blame. by destruct m. Qed.

Lemma safe_lift_bind {A B} (m : outcome A) (k : A -> auth S B) : panics m = false -> (forall a, m = Ret a -> safe (k a)) -> safe (lift m ≫= k).
Proof. intros Hm Hk st Hr. unfold mbind, auth_bind, lift. destruct m as [a|e|w]; [by apply Hk | done | done]. Qed.

Lemma safe_raise {A} (e : error) : safe (raise (A := A) e).
Proof. by intros st Hr. Qed.

Lemma safe_ret {A} (a : A) : safe (mret a).
Proof. by intros st Hr. Qed.

Lemma safe_getS : safe getS.
Proof. by intros st Hr. Qed.

Lemma safe_modS f : safe (modS f).
Proof. by intros st Hr. Qed.

Lemma safe_writePacket p : safe (writePacket p).
Proof. intros [c s] Hr. unfold writePacket. by destruct (io_errs c) as [|[|]]. Qed.

Lemma safe_writeMsg {T} `{SSHMessage T, !StructCodec (st_fields (typeOf T))} tags (m : T) :
  typeTags (typeOf T) = Ret tags -> safe (writeMsg m).
Proof.
  intros Ht. apply safe_bind; [|intros; apply safe_writePacket]. apply safe_lift. by rewrite (Marshal_value tags m Ht).
Qed.

(** A read gives a packet with a first byte, or an error. *)
Lemma safe_read_typed {A} (k : bytes -> Z -> auth S A) :
  (forall p t, safe (k p t)) -> safe (p ← readPacket; t ← packetType p; k p t).
Proof.
  intros Hk [c s] Hr. unfold readPacket, mbind, auth_bind, tryRead. simpl in Hr.
  destruct (io_in c) as [|r rs] eqn:Ei; simpl; [by rewrite Ei|].
  apply Forall_cons_iff in Hr as [Hp Hr]. destruct r as [p|e|w]; simpl; [|done..].
  destruct p as [|p0 p]; [done|]. simpl. by apply (Hk (p0 :: p)).
Qed.

Lemma safe_catch {A} (m : auth S A) : safe m -> safe (catch m).
Proof. intros Hm st Hr. destruct (Hm st Hr) as [Hp Hr']. unfold catch. by destruct (m st) as [[]]. Qed.

Lemma safe_tryRead {A} (k : outcome bytes -> auth S A) :
  (forall r, panics r = false -> safe (k r)) -> safe (tryRead ≫= k).
Proof.
  intros Hk [c s] Hr. unfold mbind, auth_bind, tryRead. simpl in Hr.
  destruct (io_in c) as [|r rs] eqn:Ei; simpl; [by apply Hk; [|simpl; rewrite Ei]|].
  apply Forall_cons_iff in Hr as [Hp Hr]. apply Hk; [by destruct r | done].
Qed.
End safe.

Lemma parseAnswers_not_panic n p : panics (parseAnswers n p) = false.
Proof.
  revert p. induction n as [|n IH]; intros p; simpl; [done|]. destruct (parseString p) as [[a r]|]; [|done].
  specialize (IH r). by destruct (parseAnswers n r) as [[]| |].
Qed.

Lemma readAnswers_not_panic n p : panics (readAnswers n p) = false.
Proof.
  unfold readAnswers. destruct (parseUint32 p) as [[k q]|]; [|done]. destruct (negb _); [done|].
  pose proof (parseAnswers_not_panic n q) as H. destruct (parseAnswers n q) as [[a r]| |]; [|done..].
  simpl. by destruct (negb _).
Qed.

Lemma unmarshal_not_panic {T} `{SSHMessage T} p : st_fields (typeOf T) <> [] -> panics (unmarshalMsg T p) = false.
Proof.
  intros Hne. pose proof (unmarshalMsg_wrap_not_panic (fun x : T => x) p Hne) as H'.
  by destruct (unmarshalMsg T p).
Qed.

Lemma safe_Challenge blame i qs es : safe blame (Challenge i qs es).
Proof.
  unfold Challenge. destruct (negb _); [apply safe_raise|].
  apply safe_bind; [by eapply (safe_writeMsg _)|]. intros _. apply safe_read_typed. intros p t.
  destruct (negb _); [apply safe_raise | apply safe_lift, readAnswers_not_panic].
Qed.

Lemma safe_runInteraction blame p : safe blame (runInteraction p).
Proof.
  induction p as [v|u i qs es k IH]; [apply safe_ret|]. simpl.
  apply safe_bind; [apply safe_catch, safe_Challenge | exact IH].
Qed.

Section server_safe.
Context (cfg : ServerConfig) (env : serverEnv).
Hypothesis parse_ok : forall kd, panics (se_ParsePublicKey env kd) = false.

(** The panics of [Verify], for a key that was parsed. *)
Definition verifyPanics (w : string) : Prop :=
  exists kd key data sig, se_ParsePublicKey env kd = Ret key /\ pk_Verify key data sig = Panic w.

Lemma safe_authPassword req : safe verifyPanics (authPassword cfg req).
Proof.
  unfold authPassword. destruct (PasswordCallback cfg); [|apply safe_ret].
  destruct (userAuthRequestMsg_Payload req) as [|b p]; [apply safe_raise|]. destruct (negb _); [apply safe_raise|].
  destruct (parseString p) as [[pw [|]]|]; try apply safe_raise.
  apply safe_bind; [apply safe_modS | intros; apply safe_ret].
Qed.

Lemma safe_authPublicKey req : safe verifyPanics (authPublicKey cfg env req).
Proof.
  unfold authPublicKey. destruct (PublicKeyCallback cfg) as [cb|]; [|apply safe_ret].
  destruct (userAuthRequestMsg_Payload req) as [|b p]; [apply safe_raise|].
  apply safe_bind. { apply safe_lift. by destruct (parseString p). }
  intros [algo p1]. destruct (negb _); [apply safe_ret|].
  apply safe_bind. { apply safe_lift. by destruct (parseString p1). }
  intros [kd p2]. apply (safe_lift_bind _ (se_ParsePublicKey env kd)); [apply parse_ok|]. intros pk Hpk.
  apply safe_bind.
  { apply safe_bind; [apply safe_getS|]. intros s. destruct (cache_get _ _ _); [apply safe_ret|].
    destruct (queryKey env cb _ pk). apply safe_bind; [apply safe_modS | intros; apply safe_ret]. }
  intros cand. destruct (b2z b =? 0).
  - destruct (0 <? _); [apply safe_raise|]. destruct (cp_result cand); [apply safe_ret|].
    apply safe_bind; [by eapply (safe_writeMsg _) | intros; apply safe_ret].
  - apply safe_bind; [|intros; apply safe_ret]. unfold checkSignature.
    destruct (parseSignature p2) as [[sig [|]]|]; try apply safe_raise. destruct (negb _); [apply safe_ret|].
    apply safe_bind. { apply safe_lift. unfold buildDataSignedForAuth. by erewrite Marshal_value by reflexivity. }
    intros d. apply safe_bind; [|intros; apply safe_ret]. apply safe_blame. destruct (pk_Verify pk d sig) eqn:E; [done | done | by exists kd, pk, d, sig].
Qed.

Lemma safe_authRound : safe verifyPanics (authRound cfg env).
Proof.
  apply safe_bind; [apply safe_getS|]. intros s. destruct (_ && _).
  { apply safe_bind; [by eapply (safe_writeMsg _) | intros; apply safe_raise]. }
  apply safe_bind.
  { apply safe_tryRead. intros [p|[]|w] Hr; try apply safe_raise; [|done].
    apply safe_lift. by apply unmarshal_not_panic. }
  intros req. unfold authRequest. destruct (negb _); [apply safe_raise|]. apply safe_bind; [apply safe_modS|]. intros _.
  apply safe_bind.
  { unfold authMethodStep. repeat case_bool_decide.
    - apply safe_bind; [|intros; apply safe_ret]. apply safe_bind; [apply safe_getS|]. intros s0.
      apply safe_bind; [|intros; apply safe_ret]. destruct (_ =? 0); [apply safe_modS | apply safe_ret].
    - apply safe_bind; [apply safe_authPassword | intros; apply safe_ret].
    - destruct (KeyboardInteractiveCallback cfg); [|apply safe_ret].
      apply safe_bind; [apply safe_runInteraction | intros; apply safe_ret].
    - apply safe_authPublicKey.
    - apply safe_ret. }
  intros [[perms err]|]; [|apply safe_ret]. apply safe_bind; [apply safe_modS|]. intros _. destruct err.
  - apply safe_bind; [apply safe_modS|]. intros _. case_bool_decide; [apply safe_raise|].
    apply safe_bind; [by eapply (safe_writeMsg _) | intros; apply safe_ret].
  - apply safe_bind; [apply safe_writePacket | intros; apply safe_ret].
Qed.
End server_safe.

(** A round that goes on has read a packet. *)
Lemma authRound_consumes cfg env st st' :
  authRound cfg env st = (Ret None, st') -> (length (io_in st'.1) < length (io_in st.1))%nat.
Proof.
  intros H. set (R := fun (rs : list (outcome bytes)) (_ : serverVars) => (length rs < length (io_in st.1))%nat).
  apply bind_ret_inv in H as (s & st0 & [= _ <-] & H).
  destruct (_ && _); [by apply bind_ret_inv in H as (? & ? & _ & H)|].
  apply bind_ret_inv in H as (req & st1 & E1 & H).
  assert (Hlt : inputInv R st1).
  { apply bind_ret_inv in E1 as (r & st2 & E & E1). unfold inputInv, R. destruct st as [c s0]. simpl in E |- *.
    destruct (io_in c) as [|r0 rs] eqn:Ei; injection E as <- <-; [discriminate|].
    destruct r0 as [p|[]|w]; try discriminate E1. injection E1 as _ <-. simpl. lia. }
  assert (Hk : keeps (inputInv R) (authRequest cfg env req)).
  { apply keeps_authRequest; try done. unfold R. simpl. intros. lia. }
  specialize (Hk st1 Hlt). by rewrite H in Hk.
Qed.

(** C32: server authentication always comes to an end: on a connection that
    delivers packets (never empty ones) and errors in any order, with any
    configuration whose key parser does not panic, [serverAuthenticate] returns
    permissions or an error within as many rounds as there are packets; the only
    panic it can end with is one of [Verify], for a key that it parsed (as
    [ed25519.Verify] has for a key of the wrong length). *)
Theorem serverAuthenticate_terminates (cfg : ServerConfig) (env : serverEnv) (c : io) :
  (forall kd, panics (se_ParsePublicKey env kd) = false) -> reads_ok (io_in c) ->
  match (serverAuthenticate cfg env c).1 with
  | Panic w => verifyPanics env w
  | _ => True
  end.
Proof.
  intros Hp Hr. unfold serverAuthenticate.
  assert (Hgen : forall fuel st, (length (io_in st.1) < fuel)%nat -> reads_ok (io_in st.1) ->
    blamed (verifyPanics env) (authLoop fuel cfg env st).1); [|apply Hgen; [simpl; lia | done]].
  induction fuel as [|fuel IH]; intros st Hf Hok; [lia|]. simpl. unfold mbind, auth_bind.
  destruct (safe_authRound cfg env Hp st Hok) as [Hs Hok'].
  pose proof (authRound_consumes cfg env st) as Hc.
  destruct (authRound cfg env st) as [[[perms|]|e|w] st']; [done | | done | done].
  apply IH; [|done]. specialize (Hc st' eq_refl). lia.
Qed.

(** ** "none" costs nothing *)

Definition noneRequest (user : bytes) : userAuthRequestMsg := mk_userAuthRequestMsg user serviceSSH (str "none") [].

Lemma request_roundtrip (req : userAuthRequestMsg) p :
  Marshal req = Ret p -> zlen p < 2 ^ 32 -> unmarshalMsg userAuthRequestMsg p = Ret req.
Proof.
  intros Hp Hl. pose proof Hp as Hv. erewrite Marshal_value in Hv by reflexivity. injection Hv as <-.
  by eapply (Unmarshal_value [50]); [reflexivity | repeat constructor | exact Hp | done | done | split_and!].
Qed.

(** Steps on a connection whose writes work. *)
Lemma readRequest_cons req p rs out (s : serverVars) :
  unmarshalMsg userAuthRequestMsg p = Ret req ->
  readRequest (mkIo (Ret p :: rs) [] out, s) = (Ret req, (mkIo rs [] out, s)).
Proof. intros H. unfold readRequest, mbind, auth_bind, tryRead, lift. simpl. by rewrite H. Qed.

Lemma writeMsg_ok {S T} `{SSHMessage T} (m : T) p rs out (s : S) :
  Marshal m = Ret p -> writeMsg m (mkIo rs [] out, s) = (Ret tt, (mkIo rs [] (out ++ [p]), s)).
Proof. intros H'. unfold writeMsg, mbind, auth_bind, lift. by rewrite H'. Qed.

Lemma under_limit cfg (f : Z) : f < MaxAuthTries cfg \/ MaxAuthTries cfg <= 0 ->
  (MaxAuthTries cfg <=? f) && (0 <? MaxAuthTries cfg) = false.
Proof. intros [H|H]; apply andb_false_iff; [left | right]; apply Z.leb_gt || apply Z.ltb_ge; lia. Qed.

(** A round up to the method's step. *)
Lemma authRound_step cfg env req p rs out s :
  unmarshalMsg userAuthRequestMsg p = Ret req -> userAuthRequestMsg_Service req = serviceSSH ->
  sv_authFailures s < MaxAuthTries cfg \/ MaxAuthTries cfg <= 0 ->
  authRound cfg env (mkIo (Ret p :: rs) [] out, s) =
  (r ← authMethodStep cfg env req;
   match r with
   | None => mret None
   | Some (perms, authErr) =>
       _ ← addAuthErr authErr;
       match authErr with
       | None => _ ← writePacket [z2b msgUserAuthSuccess]; mret (Some perms)
       | Some _ =>
           _ ← addFailures 1;
           if bool_decide (failureMethods cfg = []) then raise errNoMethods
           else
             _ ← writeMsg (mk_userAuthFailureMsg (failureMethods cfg) false);
             mret None
       end
   end) (mkIo rs [] out, mkServerVars (userAuthRequestMsg_User req) (sv_cache s) (sv_authFailures s)
    (sv_authErrs s) (sv_checked s)).
Proof.
  intros Hu Hs Hm. unfold authRound, mbind, auth_bind at 1, getS. cbn [snd].
  rewrite under_limit by done. unfold auth_bind at 1. rewrite (readRequest_cons req) by done.
  unfold authRequest. rewrite bool_decide_eq_true_2 by done. reflexivity.
Qed.

(** A round whose verdict is a failure. *)
Lemma authRound_failed cfg env req p rs out s perms e s' f :
  unmarshalMsg userAuthRequestMsg p = Ret req -> userAuthRequestMsg_Service req = serviceSSH ->
  sv_authFailures s < MaxAuthTries cfg \/ MaxAuthTries cfg <= 0 ->
  failureMethods cfg <> [] -> Marshal (mk_userAuthFailureMsg (failureMethods cfg) false) = Ret f ->
  authMethodStep cfg env req (mkIo rs [] out, mkServerVars (userAuthRequestMsg_User req) (sv_cache s) (sv_authFailures s)
    (sv_authErrs s) (sv_checked s)) = (Ret (Some (perms, Some e)), (mkIo rs [] out, s')) ->
  authRound cfg env (mkIo (Ret p :: rs) [] out, s) =
    (Ret None, (mkIo rs [] (out ++ [f]), mkServerVars (sv_user s') (sv_cache s') (sv_authFailures s' + 1)
      (sv_authErrs s' ++ [Some e]) (sv_checked s'))).
Proof.
  intros Hu Hs Hm Hne Hf Hstep. rewrite (authRound_step cfg env req) by done. unfold mbind, auth_bind at 1. rewrite Hstep.
  unfold auth_bind at 1. cbn [addAuthErr modS fst snd]. unfold auth_bind at 1. cbn [addFailures modS fst snd].
  rewrite bool_decide_eq_false_2 by done. unfold auth_bind. rewrite (writeMsg_ok _ f) by done. done.
Qed.

Lemma authLoop_next fuel cfg env st st1 :
  authRound cfg env st = (Ret None, st1) -> authLoop (S fuel) cfg env st = authLoop fuel cfg env st1.
Proof. intros H. cbn [authLoop]. unfold mbind, auth_bind at 1. by rewrite H. Qed.

(** the "none" method can be tried without end: as long as nothing else has
    failed, every "none" request is answered with a failure message and leaves
    the number of failures at zero, so that after any number of them the server
    is where it started, whatever [MaxAuthTries] is.  (The comment in the code
    grants this only to the initial attempt.) *)
Theorem none_attempts_are_free cfg env user p f n rest :
  NoClientAuth cfg = false -> failureMethods cfg <> [] ->
  Marshal (noneRequest user) = Ret p -> zlen p < 2 ^ 32 ->
  Marshal (mk_userAuthFailureMsg (failureMethods cfg) false) = Ret f ->
  exists s, sv_authFailures s = 0 /\ sv_checked s = [] /\ sv_cache s = [] /\
    serverAuthenticate cfg env (mkIo (repeat (Ret p) n ++ rest) [] []) =
    authLoop (S (length rest)) cfg env (mkIo rest [] (repeat f n), s).
Proof.
  intros Hno Hne Hp Hl Hf. pose proof (request_roundtrip _ _ Hp Hl) as Hu. unfold serverAuthenticate.
  assert (Hgen : forall n out s, sv_authFailures s = 0 -> sv_checked s = [] -> sv_cache s = [] ->
    exists s', sv_authFailures s' = 0 /\ sv_checked s' = [] /\ sv_cache s' = [] /\
      authLoop (S (length (repeat (Ret p) n ++ rest))) cfg env (mkIo (repeat (Ret p) n ++ rest) [] out, s) =
      authLoop (S (length rest)) cfg env (mkIo rest [] (out ++ repeat f n), s')).
  { clear n. induction n as [|n IH]; intros out s E1 E2 E3.
    - exists s. by rewrite app_nil_r.
    - change (repeat (Ret p) (S n) ++ rest) with (Ret p :: repeat (Ret p) n ++ rest). cbn [length].
      erewrite authLoop_next.
      2: { apply (authRound_failed cfg env (noneRequest user) p _ _ s None (errNew "no auth passed yet")
                 (mkServerVars user (sv_cache s) (-1) (sv_authErrs s) (sv_checked s)) f); [done | done | lia | done | done |].
           unfold authMethodStep, authNone, mbind, auth_bind, getS. simpl. rewrite E1, Hno. reflexivity. }
      destruct (IH (out ++ [f]) (mkServerVars user (sv_cache s) (-1 + 1)
        (sv_authErrs s ++ [Some (errNew "no auth passed yet")]) (sv_checked s))) as (s' & H1 & H2 & H3 & H4); [done..|].
      exists s'. split_and!; [done..|]. rewrite <- app_assoc in H4. exact H4. }
  exact (Hgen n [] newServerVars eq_refl eq_refl eq_refl).
Qed.

(** ** A complete login *)

(** The packet of a message. *)
Definition enc {T} `{SSHMessage T} (m : T) : bytes := match Marshal m with Ret p => p | _ => [] end.

Lemma enc_value {T} `{SSHMessage T, !StructCodec (st_fields (typeOf T))} (m : T) tags :
  typeTags (typeOf T) = Ret tags -> enc m = tag_bytes tags ++ struct_enc (st_fields (typeOf T)) (fieldsOf m).
Proof. intros Ht. unfold enc. by rewrite (Marshal_value tags m Ht). Qed.

Lemma enc_Marshal {T} `{SSHMessage T, !StructCodec (st_fields (typeOf T))} (m : T) tags :
  typeTags (typeOf T) = Ret tags -> Marshal m = Ret (enc m).
Proof. intros Ht. unfold enc. by rewrite (Marshal_value tags m Ht). Qed.


Definition pkPayload (hasSig : bool) (algo key sig : bytes) : bytes :=
  (if hasSig then z2b 1 else z2b 0) :: be_encode 4 (zlen algo) ++ algo ++ be_encode 4 (zlen key) ++ key ++ sig.

Definition pkRequest (user : bytes) (hasSig : bool) (algo key sig : bytes) : userAuthRequestMsg :=
  mk_userAuthRequestMsg user serviceSSH (str "publickey") (pkPayload hasSig algo key sig).

Lemma publickeyAuthMsg_request user hasSig algo key sig :
  Marshal (mk_publickeyAuthMsg user serviceSSH (str "publickey") hasSig algo key sig) =
  Marshal (pkRequest user hasSig algo key sig).
Proof. erewrite !Marshal_value by reflexivity. reflexivity. Qed.

Lemma pkPayload_parse hasSig algo key sig :
  zlen algo + zlen key + zlen sig < 2 ^ 31 ->
  exists b payload, pkPayload hasSig algo key sig = b :: payload /\ (b2z b =? 0) = negb hasSig /\
    exists p1, parseString payload = Some (algo, p1) /\ parseString p1 = Some (key, sig).
Proof.
  intros Hl. pose proof (zlen_nonneg algo). pose proof (zlen_nonneg key). pose proof (zlen_nonneg sig).
  eexists _, _. split; [reflexivity|]. split; [by destruct hasSig|]. eexists. split.
  - apply parseString_be. rewrite !zlen_app, zlen_be_encode. lia.
  - apply parseString_be. rewrite zlen_app. lia.
Qed.

(** The signature as the client wraps it and the server unwraps it. *)
Lemma wrapped_signature sign s :
  Marshal sign = Ret s -> zlen (Signature_Format sign) + zlen (Signature_Blob sign) < 2 ^ 29 ->
  let sig := be_encode 4 (zlen s) ++ s in
  (let? (sig, _) := marshalString (repeat "000"%byte (Z.to_nat (stringLength (zlen s)))) s in Ret sig) = Ret sig /\
  parseSignature sig = Some (sign, []) /\ zlen sig < 2 ^ 30.
Proof.
  intros Hm Hl. destruct (parseSignatureBody_Marshal sign s [] Hm) as [Hb Hz]; [rewrite zlen_nil; lia|].
  rewrite app_nil_r in Hb. pose proof (zlen_nonneg s). intros sig. split_and!.
  - unfold marshalString, stringLength. set (buf := repeat _ _).
    assert (Hbuf : zlen buf = 4 + zlen s) by (unfold buf, zlen; rewrite repeat_length; unfold zlen in *; lia).
    rewrite Hbuf. rewrite (proj2 (Z.ltb_ge _ _)) by lia. cbv zeta.
    rewrite zlen_zdrop by lia. replace (zlen buf - 4) with (zlen s) by lia.
    rewrite (proj2 (Z.ltb_ge _ _)) by lia. cbn [obind]. rewrite Z.min_id, lengthBytes_be, ztake_all by lia.
    by rewrite (zdrop_all (zlen s)), app_nil_r by (rewrite zlen_zdrop; lia).
  - unfold parseSignature, sig. rewrite <- (app_nil_r s) at 2. rewrite parseString_be by (rewrite app_nil_r; lia).
    by rewrite Hb.
  - unfold sig. rewrite zlen_app, zlen_be_encode. lia.
Qed.

Lemma names_of_methods cfg : failureMethods cfg <> [] -> names_ok (failureMethods cfg).
Proof.
  unfold failureMethods. intros Hne. split; [|destruct (PasswordCallback cfg), (PublicKeyCallback cfg), (KeyboardInteractiveCallback cfg); done].
  destruct (PasswordCallback cfg), (PublicKeyCallback cfg), (KeyboardInteractiveCallback cfg); simpl; decide_vm.
Qed.

Lemma failure_roundtrip cfg p :
  failureMethods cfg <> [] -> Marshal (mk_userAuthFailureMsg (failureMethods cfg) false) = Ret p ->
  unmarshalMsg userAuthFailureMsg p = Ret (mk_userAuthFailureMsg (failureMethods cfg) false) /\ exists p', p = z2b 51 :: p'.
Proof.
  intros Hne Hp. pose proof Hp as Hv. erewrite Marshal_value in Hv by reflexivity. split; [|injection Hv as <-; by eexists].
  eapply (Unmarshal_value [51]); [reflexivity | repeat constructor | exact Hp | by injection Hv as <- | |].
  - injection Hv as <-. unfold failureMethods.
    destruct (PasswordCallback cfg), (PublicKeyCallback cfg), (KeyboardInteractiveCallback cfg); vm_compute; done.
  - split; [by apply names_of_methods | by split].
Qed.

Lemma pubKeyOk_roundtrip algo key p :
  Marshal (mk_userAuthPubKeyOkMsg algo key) = Ret p -> zlen algo + zlen key < 2 ^ 31 ->
  unmarshalMsg userAuthPubKeyOkMsg p = Ret (mk_userAuthPubKeyOkMsg algo key) /\ exists p', p = z2b 60 :: p'.
Proof.
  intros Hp Hl. pose proof Hp as Hv. erewrite Marshal_value in Hv by reflexivity. split; [|injection Hv as <-; by eexists].
  injection Hv as <-.
  eapply (Unmarshal_value [60]); [reflexivity | repeat constructor | exact Hp | done | | by split_and!].
  simpl. rewrite !zlen_cons, !zlen_app, !zlen_cons, !zlen_app, zlen_nil. lia.
Qed.

Section login.
Context (cfg : ServerConfig) (env : serverEnv) (cb : bytes -> PublicKey -> verdict)
        (user : bytes) (signer : Signer) (key : PublicKey) (perms : option Permissions) (sign : Signature) (data : bytes).
#[local] Abbreviation algo := (sg_type signer).
#[local] Abbreviation kd := (sg_public signer).
Hypothesis Hcb : PublicKeyCallback cfg = Some cb.
Hypothesis Hno : NoClientAuth cfg = false.
Hypothesis Halgo : isAcceptableAlgo algo = true.
Hypothesis Hparse : se_ParsePublicKey env kd = Ret key.
Hypothesis Hquery : queryKey env cb user key = (perms, None).
Hypothesis Hdata : buildDataSignedForAuth (se_sessionID env)
  (mk_userAuthRequestMsg user serviceSSH (str "publickey") []) algo kd = Ret data.
Hypothesis Hsign : sg_sign signer data = Ret sign.
Hypothesis Hformat : isAcceptableAlgo (Signature_Format sign) = true.
Hypothesis Hverify : pk_Verify key data sign = Ret tt.
Hypothesis Hsize : zlen user + zlen algo + zlen kd < 2 ^ 30.
Hypothesis Hsigsize : zlen (Signature_Format sign) + zlen (Signature_Blob sign) < 2 ^ 29.

Definition candidate : cachedPubKey := mkCachedPubKey user kd None perms.

Lemma publickey_step req :
  userAuthRequestMsg_Method req = str "publickey" -> authMethodStep cfg env req = authPublicKey cfg env req.
Proof. intros E. unfold authMethodStep. rewrite E. reflexivity. Qed.

Lemma query_step rs out f es ps okP :
  Marshal (mk_userAuthPubKeyOkMsg algo kd) = Ret okP ->
  authMethodStep cfg env (pkRequest user false algo kd []) (mkIo rs [] out, mkServerVars user [] f es ps) =
    (Ret None, (mkIo rs [] (out ++ [okP]), mkServerVars user [candidate] f es ps)).
Proof.
  intros Hok. rewrite publickey_step by done. unfold authPublicKey. rewrite Hcb.
  pose proof (zlen_nonneg user). cbn [pkRequest userAuthRequestMsg_Payload userAuthRequestMsg_User].
  destruct (pkPayload_parse false algo kd []) as (b & payload & -> & Hb & p1 & E1 & E2); [rewrite zlen_nil; lia|].
  rewrite Hb. unfold mbind, auth_bind, lift. rewrite E1. cbn [ok_or]. rewrite Halgo. cbn [negb].
  rewrite E2. cbn [ok_or]. rewrite Hparse. unfold lookupKey, mbind, auth_bind, getS. cbn [snd sv_cache cache_get].
  rewrite Hquery. cbn [addToCache modS fst snd cp_result mret auth_ret].
  change (0 <? zlen (@nil byte)) with false. cbv beta iota.
  rewrite (writeMsg_ok _ okP) by done. reflexivity.
Qed.

Lemma signed_step sig rs out f es ps :
  zlen sig < 2 ^ 30 -> parseSignature sig = Some (sign, []) ->
  authMethodStep cfg env (pkRequest user true algo kd sig) (mkIo rs [] out, mkServerVars user [candidate] f es ps) =
    (Ret (Some (perms, None)), (mkIo rs [] out, mkServerVars user [candidate] f es ps)).
Proof.
  intros Hl Hps. rewrite publickey_step by done. unfold authPublicKey. rewrite Hcb.
  pose proof (zlen_nonneg user). cbn [pkRequest userAuthRequestMsg_Payload userAuthRequestMsg_User].
  destruct (pkPayload_parse true algo kd sig) as (b & payload & -> & Hb & p1 & E1 & E2); [lia|].
  rewrite Hb. unfold mbind, auth_bind, lift. rewrite E1. cbn [ok_or]. rewrite Halgo. cbn [negb].
  rewrite E2. cbn [ok_or]. rewrite Hparse. unfold lookupKey, mbind, auth_bind, getS. cbn [snd sv_cache cache_get].
  rewrite bool_decide_eq_true_2 by done. cbn [mret auth_ret]. unfold checkSignature. rewrite Hps, Hformat. cbn [negb].
  unfold mbind, auth_bind, lift.
  change (buildDataSignedForAuth (se_sessionID env) (pkRequest user true algo kd sig) algo kd)
    with (buildDataSignedForAuth (se_sessionID env) (mk_userAuthRequestMsg user serviceSSH (str "publickey") []) algo kd).
  rewrite Hdata, Hverify. reflexivity.
Qed.

Lemma methods_have_publickey : str "publickey" ∈ failureMethods cfg.
Proof. unfold failureMethods. rewrite Hcb. set_solver. Qed.

Lemma methods_nonempty : failureMethods cfg <> [].
Proof. pose proof methods_have_publickey as H. intros E. rewrite E in H. by apply not_elem_of_nil in H. Qed.

Definition sigBytes : bytes := be_encode 4 (zlen (enc sign)) ++ enc sign.

Definition loginRequests : list bytes :=
  [enc (noneRequest user); enc (pkRequest user false algo kd []); enc (pkRequest user true algo kd sigBytes)].

Definition loginAnswers : list bytes :=
  [enc (mk_userAuthFailureMsg (failureMethods cfg) false); enc (mk_userAuthPubKeyOkMsg algo kd); [z2b msgUserAuthSuccess]].

Lemma sigBytes_ok : parseSignature sigBytes = Some (sign, []) /\ zlen sigBytes < 2 ^ 30 /\
  signedRequest (se_sessionID env) user signer =
    Ret (mk_publickeyAuthMsg user serviceSSH (str "publickey") true algo kd sigBytes).
Proof.
  pose proof (enc_Marshal sign [] eq_refl) as Hm.
  destruct (wrapped_signature sign (enc sign) Hm Hsigsize) as (H1 & H2 & H3).
  split_and!; [exact H2 | exact H3 |]. unfold signedRequest. rewrite Hdata. cbn [obind]. rewrite Hsign. cbn [obind].
  rewrite Hm. cbn [obind]. fold sigBytes in H1.
  destruct (marshalString _ (enc sign)) as [[sg tl]| |]; cbn [obind] in *; congruence.
Qed.

Lemma requests_parse req : zlen (userAuthRequestMsg_Payload req) < 2 ^ 31 + 100 ->
  userAuthRequestMsg_User req = user -> zlen (userAuthRequestMsg_Service req) + zlen (userAuthRequestMsg_Method req) < 100 ->
  unmarshalMsg userAuthRequestMsg (enc req) = Ret req.
Proof.
  intros Hp Hu Hsm. apply request_roundtrip; [by apply (enc_Marshal req [50])|].
  rewrite (enc_value req [50]) by reflexivity. simpl. rewrite Hu.
  pose proof (zlen_nonneg algo). pose proof (zlen_nonneg kd).
  rewrite !zlen_cons, !zlen_app, !zlen_cons, !zlen_app, !zlen_cons, !zlen_app. lia.
Qed.

Lemma login_server out : exists s,
  serverAuthenticate cfg env (mkIo (map Ret loginRequests) [] out) = (Ret perms, (mkIo [] [] (out ++ loginAnswers), s)) /\
  sv_user s = user.
Proof.
  destruct sigBytes_ok as (Hps & Hl & _). pose proof methods_nonempty as Hne. pose proof (zlen_nonneg user).
  pose proof (zlen_nonneg algo). pose proof (zlen_nonneg kd). pose proof (zlen_nonneg sigBytes).
  assert (HokP : Marshal (mk_userAuthPubKeyOkMsg algo kd) = Ret (enc (mk_userAuthPubKeyOkMsg algo kd))) by (by apply (enc_Marshal _ [60])).
  unfold serverAuthenticate. cbn [map loginRequests length io_in].
  erewrite authLoop_next.
  2: { apply (authRound_failed cfg env (noneRequest user) _ _ _ newServerVars None (errNew "no auth passed yet")
         (mkServerVars user [] (-1) [] []) (enc (mk_userAuthFailureMsg (failureMethods cfg) false))).
       - apply requests_parse; [by vm_compute | done | by vm_compute].
       - done.
       - simpl. lia.
       - done.
       - by apply (enc_Marshal _ [51]).
       - unfold authMethodStep, authNone, mbind, auth_bind, getS. simpl. rewrite Hno. reflexivity. }
  erewrite authLoop_next.
  2: { rewrite (authRound_step cfg env (pkRequest user false algo kd []));
         [|apply requests_parse; [|done|by vm_compute]|done|simpl; lia].
       2: { simpl. unfold pkPayload. rewrite zlen_cons, !zlen_app, !zlen_be_encode, zlen_nil. lia. }
       unfold mbind, auth_bind. cbn [sv_cache sv_authFailures sv_authErrs sv_checked userAuthRequestMsg_User pkRequest].
       rewrite (query_step _ _ _ _ _ _ HokP). reflexivity. }
  eexists. split.
  - cbn [authLoop]. unfold mbind at 1, auth_bind at 1.
    rewrite (authRound_step cfg env (pkRequest user true algo kd sigBytes));
      [|apply requests_parse; [|done|by vm_compute]|done|simpl; lia].
    2: { simpl. unfold pkPayload. rewrite zlen_cons, !zlen_app, !zlen_be_encode. lia. }
    unfold mbind, auth_bind. cbn [sv_cache sv_authFailures sv_authErrs sv_checked userAuthRequestMsg_User pkRequest].
    rewrite (signed_step sigBytes _ _ _ _ _ Hl Hps).
    replace (out ++ loginAnswers) with (((out ++ [enc (mk_userAuthFailureMsg (failureMethods cfg) false)]) ++ [enc (mk_userAuthPubKeyOkMsg algo kd)]) ++ [[z2b msgUserAuthSuccess]])
      by (by rewrite <- !app_assoc). reflexivity.
  - reflexivity.
Qed.

Lemma response_failure rs out (n : nat) :
  handleAuthResponse (mkIo (Ret (enc (mk_userAuthFailureMsg (failureMethods cfg) false)) :: rs) [] out, n) =
  (Ret (false, Some (failureMethods cfg)), (mkIo rs [] out, n)).
Proof.
  assert (Hm : Marshal (mk_userAuthFailureMsg (failureMethods cfg) false) =
               Ret (enc (mk_userAuthFailureMsg (failureMethods cfg) false))) by (by apply (enc_Marshal _ [51])).
  destruct (failure_roundtrip cfg _ methods_nonempty Hm) as [Hu [p' Ep]].
  unfold handleAuthResponse, withFuel. cbn [length io_in fst]. rewrite Nat.add_comm. cbn [Nat.add responseLoop].
  unfold readPacket, mbind, auth_bind, tryRead, lift. cbn [io_in]. rewrite Hu, Ep. reflexivity.
Qed.

Lemma response_success rs out (n : nat) :
  handleAuthResponse (mkIo (Ret [z2b msgUserAuthSuccess] :: rs) [] out, n) = (Ret (true, None), (mkIo rs [] out, n)).
Proof.
  unfold handleAuthResponse, withFuel. cbn [length io_in fst]. rewrite Nat.add_comm. reflexivity.
Qed.

Lemma key_accepted rs out (n : nat) :
  confirmKeyAck signer (mkIo (Ret (enc (mk_userAuthPubKeyOkMsg algo kd)) :: rs) [] out, n) = (Ret true, (mkIo rs [] out, n)).
Proof.
  assert (Hm : Marshal (mk_userAuthPubKeyOkMsg algo kd) = Ret (enc (mk_userAuthPubKeyOkMsg algo kd))) by (by apply (enc_Marshal _ [60])).
  pose proof (zlen_nonneg user).
  destruct (pubKeyOk_roundtrip algo kd _ Hm) as [Hu [p' Ep]]; [lia|].
  unfold confirmKeyAck, withFuel. cbn [length io_in fst]. rewrite Nat.add_comm. cbn [Nat.add keyAckLoop].
  unfold readPacket, mbind, auth_bind, tryRead, lift. cbn [io_in]. rewrite Hu, Ep. cbn [packetType mret auth_ret].
  change (b2z (z2b 60) =? msgUserAuthBanner) with false. change (b2z (z2b 60) =? msgUserAuthPubKeyOk) with true. cbv beta iota.
  cbn [userAuthPubKeyOkMsg_Algo userAuthPubKeyOkMsg_PubKey]. by rewrite bool_decide_eq_true_2.
Qed.

Lemma signers_accepted rs out (n : nat) :
  trySigners (se_sessionID env) user [signer] None
    (mkIo (Ret (enc (mk_userAuthPubKeyOkMsg algo kd)) :: Ret [z2b msgUserAuthSuccess] :: rs) [] out, n) =
  (Ret (true, None),
   (mkIo rs [] ((out ++ [enc (pkRequest user false algo kd [])]) ++ [enc (pkRequest user true algo kd sigBytes)]), n)).
Proof.
  destruct sigBytes_ok as (_ & _ & Hreq). cbn [trySigners]. unfold validateKey, mbind, auth_bind.
  rewrite (writeMsg_ok _ (enc (pkRequest user false algo kd []))).
  2: { rewrite publickeyAuthMsg_request. by apply (enc_Marshal _ [50]). }
  rewrite key_accepted. cbn [negb]. rewrite Hreq. unfold lift.
  rewrite (writeMsg_ok _ (enc (pkRequest user true algo kd sigBytes))).
  2: { rewrite publickeyAuthMsg_request. by apply (enc_Marshal _ [50]). }
  rewrite response_success. reflexivity.
Qed.

Lemma login_client :
  clientAuthenticate (se_sessionID env) user [PublicKeyAuth (fun _ => Ret [signer])]
    (mkIo (map Ret (enc (mk_serviceAcceptMsg serviceUserAuth) :: loginAnswers)) [] [], 0%nat) =
  (Ret tt, (mkIo [] [] (enc (mk_serviceRequestMsg serviceUserAuth) :: loginRequests), 1%nat)).
Proof.
  unfold clientAuthenticate, mbind, auth_bind at 1.
  rewrite (writeMsg_ok _ (enc (mk_serviceRequestMsg serviceUserAuth))) by (by apply (enc_Marshal _ [5])).
  unfold auth_bind at 1. unfold readPacket, mbind, auth_bind at 1, tryRead. cbn [io_in map lift].
  unfold auth_bind at 1. unfold lift at 1.
  assert (unmarshalMsg serviceAcceptMsg (enc (mk_serviceAcceptMsg serviceUserAuth)) = Ret (mk_serviceAcceptMsg serviceUserAuth))
    as -> by (vm_compute; reflexivity).
  cbn [clientLoop length runAuth]. unfold mbind, auth_bind at 1. unfold auth_bind at 1.
  rewrite (writeMsg_ok _ (enc (noneRequest user))) by (by apply (enc_Marshal _ [50])).
  cbn [loginAnswers map]. rewrite response_failure.
  assert (nextMethod (Some (failureMethods cfg)) [method NoneAuth] [PublicKeyAuth (fun _ => Ret [signer])] =
          Some (PublicKeyAuth (fun _ => Ret [signer]))) as ->.
  { unfold nextMethod. rewrite filter_cons_True; [done|]. split; [|exact methods_have_publickey].
    change (str "publickey" ∉ [str "none"]). decide_vm. }
  unfold auth_bind at 1. cbn [clientLoop runAuth]. unfold callback, mbind, auth_bind, getS, modS, lift. cbn [fst snd].
  rewrite signers_accepted. reflexivity.
Qed.
End login.

(** a user whose key the server accepts gets in.  Run against each other,
    the client's and the server's loops exchange exactly these packets: "none",
    refused with the list of methods; the query for the key, confirmed; the
    signed request, answered with success.  The server ends with the user's
    name and the permissions of the key, the client without an error, and each
    side's packets are those the other side read. *)
Theorem publickey_login cfg env cb user signer key perms sign data :
  PublicKeyCallback cfg = Some cb -> NoClientAuth cfg = false ->
  isAcceptableAlgo (sg_type signer) = true -> se_ParsePublicKey env (sg_public signer) = Ret key ->
  queryKey env cb user key = (perms, None) ->
  buildDataSignedForAuth (se_sessionID env) (mk_userAuthRequestMsg user serviceSSH (str "publickey") [])
    (sg_type signer) (sg_public signer) = Ret data ->
  sg_sign signer data = Ret sign -> isAcceptableAlgo (Signature_Format sign) = true ->
  pk_Verify key data sign = Ret tt ->
  zlen user + zlen (sg_type signer) + zlen (sg_public signer) < 2 ^ 30 ->
  zlen (Signature_Format sign) + zlen (Signature_Blob sign) < 2 ^ 29 ->
  let requests := loginRequests user signer sign in
  let answers := loginAnswers cfg signer in
  (exists s, serverAuthenticate cfg env (mkIo (map Ret requests) [] []) = (Ret perms, (mkIo [] [] answers, s)) /\
     sv_user s = user) /\
  clientAuthenticate (se_sessionID env) user [PublicKeyAuth (fun _ => Ret [signer])]
    (mkIo (map Ret (enc (mk_serviceAcceptMsg serviceUserAuth) :: answers)) [] [], 0%nat) =
  (Ret tt, (mkIo [] [] (enc (mk_serviceRequestMsg serviceUserAuth) :: requests), 1%nat)).
Proof.
  intros H1 H2 H3 H4 H5 H6 H7 H8 H9 H10 H11. split.
  - by eapply (login_server _ _ _ _ _ _ _ _ _) with (out := []).
  - by eapply login_client.
Qed.

(** ** A concrete server *)

Definition loginSigner : Signer :=
  mkSigner (str "key") KeyAlgoED25519 (fun d => Ret (mk_Signature KeyAlgoED25519 (ztake 64 d))).

Definition loginKey : PublicKey :=
  mkPublicKey KeyAlgoED25519 (str "key")
    (fun d sig => if bool_decide (Signature_Blob sig = ztake 64 d) then Ret tt else Fail (errNew "bad signature")).

Definition loginEnv : serverEnv :=
  mkServerEnv (str "session") AddrNil (mkNetLib (fun _ => None) (fun _ _ => false) (fun _ => Fail EOF))
    (fun kd => if bool_decide (kd = str "key") then Ret loginKey else Fail (errNew "unknown key")).

Definition loginPerms : Permissions := mkPermissions ∅ {[ str "shell" := str "yes" ]}.

Definition loginConfig : ServerConfig :=
  mkServerConfig false 2
    (Some (fun u pw => if bool_decide (u = str "bob" /\ pw = str "secret") then (Some loginPerms, None)
                       else (None, Some (errNew "denied"))))
    (Some (fun u k => if bool_decide (u = str "bob" /\ pk_Marshal k = str "key") then (Some loginPerms, None)
                      else (None, Some (errNew "denied"))))
    None.

Definition loginData : bytes :=
  enc (mk_signedAuthData (str "session") msgUserAuthRequest (str "bob") serviceSSH (str "publickey") true KeyAlgoED25519 (str "key")).

Definition loginSign : Signature := mk_Signature KeyAlgoED25519 (ztake 64 loginData).

Lemma publickey_login_witness :
  exists s, serverAuthenticate loginConfig loginEnv
      (mkIo (map Ret (loginRequests (str "bob") loginSigner loginSign)) [] []) =
      (Ret (Some loginPerms), (mkIo [] [] (loginAnswers loginConfig loginSigner), s)) /\ sv_user s = str "bob".
Proof.
  refine (proj1 (publickey_login loginConfig loginEnv _ (str "bob") loginSigner loginKey (Some loginPerms) loginSign loginData
    eq_refl eq_refl _ _ _ _ _ _ _ _ _)); vm_compute; reflexivity.
Defined.

Definition passwordPacket (user pw : bytes) : bytes :=
  enc (mk_passwordAuthMsg user serviceSSH (str "password") false pw).

(** Wrong, then right. *)
Definition passwordRun : outcome (option Permissions) * (io * serverVars) :=
  serverAuthenticate loginConfig loginEnv
    (mkIo [Ret (passwordPacket (str "bob") (str "guess")); Ret (passwordPacket (str "bob") (str "secret"))] [] []).

Lemma serverAuthenticate_sound_witness :
  exists req, userAuthRequestMsg_User req = str "bob" /\ grants loginConfig loginEnv req (Some loginPerms).
Proof.
  destruct (serverAuthenticate_sound loginConfig loginEnv
    (mkIo [Ret (passwordPacket (str "bob") (str "guess")); Ret (passwordPacket (str "bob") (str "secret"))] [] [])
    passwordRun.2.1 passwordRun.2.2 (Some loginPerms)) as (req & _ & Hu & Hg).
  - vm_compute. reflexivity.
  - exists req. split; [|exact Hg]. rewrite <- Hu. vm_compute. reflexivity.
Defined.

Lemma password_tries_bounded_witness : zlen (sv_checked passwordRun.2.2) <= 2.
Proof. apply (password_tries_bounded loginConfig loginEnv). vm_compute. reflexivity. Defined.

(** A server whose only key is too short for [ed25519.Verify]. *)
Definition shortKeyEnv : serverEnv :=
  mkServerEnv (str "session") AddrNil (mkNetLib (fun _ => None) (fun _ _ => false) (fun _ => Fail EOF))
    (fun kd => if bool_decide (kd = str "key")
               then Ret (mkPublicKey KeyAlgoED25519 (str "key") (fun _ _ => Panic "ed25519: bad public key length"))
               else Fail (errNew "unknown key")).

Definition shortKeyRun : outcome (option Permissions) * (io * serverVars) :=
  serverAuthenticate loginConfig shortKeyEnv (mkIo (map Ret (loginRequests (str "bob") loginSigner loginSign)) [] []).

(** A login that succeeds, and one that ends in the panic of [Verify]. *)
Lemma serverAuthenticate_terminates_witness :
  passwordRun.1 = Ret (Some loginPerms) /\
  match passwordRun.1 with Panic w => verifyPanics loginEnv w | _ => True end /\
  shortKeyRun.1 = Panic "ed25519: bad public key length" /\
  match shortKeyRun.1 with Panic w => verifyPanics shortKeyEnv w | _ => True end.
Proof.
  split; [vm_compute; reflexivity|]. split; [|split; [vm_compute; reflexivity|]].
  - apply (serverAuthenticate_terminates loginConfig loginEnv).
    + intros kd. unfold loginEnv. simpl. by case_bool_decide.
    + repeat constructor; done.
  - apply (serverAuthenticate_terminates loginConfig shortKeyEnv).
    + intros kd. unfold shortKeyEnv. simpl. by case_bool_decide.
    + apply Forall_fmap. repeat constructor; vm_compute; discriminate.
Defined.

Lemma none_attempts_are_free_witness :
  exists s, sv_authFailures s = 0 /\ sv_checked s = [] /\ sv_cache s = [] /\
    serverAuthenticate loginConfig loginEnv
      (mkIo (repeat (Ret (enc (noneRequest (str "bob")))) 100 ++ [Ret (passwordPacket (str "bob") (str "secret"))]) [] []) =
    authLoop 2 loginConfig loginEnv
      (mkIo [Ret (passwordPacket (str "bob") (str "secret"))] []
         (repeat (enc (mk_userAuthFailureMsg (failureMethods loginConfig) false)) 100), s).
Proof.
  apply (none_attempts_are_free loginConfig loginEnv (str "bob") _ _ 100 [Ret (passwordPacket (str "bob") (str "secret"))]).
  - reflexivity.
  - vm_compute. discriminate.
  - vm_compute. reflexivity.
  - vm_compute. reflexivity.
  - vm_compute. reflexivity.
Defined.

(** The certificate algorithm of ed25519 keys is offered for host keys but not
    accepted from users. *)
Lemma ed25519_certs_refused :
  CertAlgoED25519v01 ∈ supportedHostKeyAlgos /\ isAcceptableAlgo CertAlgoED25519v01 = false.
Proof. split; [decide_vm | vm_compute; reflexivity]. Qed.
