(* ===== verification/Keys.v ===== *)
(** * Public keys, certificates and signers (keys.go, certs.go)

    The key types as values, [Type], [Marshal] and [Verify] of the interface
    [PublicKey], the parsers of the wire format with certificates that carry
    certificates, and the signers.  Anonymous Go structs are struct descriptions
    without a name.

    The cryptographic packages are the class [KeyLib]; [LawfulKeyLib] is what
    the theorems rely on: points that decode encode back, and [ed25519.Verify]
    panics exactly on keys of another length than 32, as its documentation
    says. *)

From stdpp Require Import sorting.
From S2P Require Import Prelude Text Wire Codec Negotiate Kex.

(** ** The cryptographic packages *)

Inductive ellipticCurve := P224 | P256 | P384 | P521.

#[export] Instance ellipticCurve_eq_decision : EqDecision ellipticCurve.
Proof. solve_decision. Defined.

(** [Params().BitSize]. *)
Definition bitSize (c : ellipticCurve) : Z :=
  match c with P224 => 224 | P256 => 256 | P384 => 384 | P521 => 521 end.

Inductive cryptoHash := MD5 | SHA1 | SHA256 | SHA384 | SHA512.

Class KeyLib := {
  hashSum : cryptoHash -> bytes -> bytes;
  elliptic_Marshal : ellipticCurve -> Z -> Z -> bytes;
  elliptic_Unmarshal : ellipticCurve -> bytes -> option (Z * Z);
  rsa_VerifyPKCS1v15 : Z -> Z -> cryptoHash -> bytes -> bytes -> option error;
  dsa_Verify : Z * Z * Z * Z -> bytes -> Z -> Z -> bool;
  dsa_Sign : bytes -> Z * Z * Z * Z -> Z -> bytes -> outcome (Z * Z);
  ecdsa_Verify : ellipticCurve -> Z -> Z -> bytes -> Z -> Z -> bool;
  ed25519_Verify : bytes -> bytes -> bytes -> outcome bool;
  asn1_Unmarshal_RS : bytes -> outcome (Z * Z)
}.

Class LawfulKeyLib `{KeyLib} : Prop := {
  elliptic_decode_encode c b x y :
    elliptic_Unmarshal c b = Some (x, y) -> elliptic_Unmarshal c (elliptic_Marshal c x y) = Some (x, y);
  ed25519_Verify_length key msg sig : panics (ed25519_Verify key msg sig) = negb (zlen key =? 32)
}.

(** ** Data *)

(** A [Certificate], over the type of keys; [Permissions] is embedded. *)
Record CertificateOf (K : Type) := mkCertificate {
  cert_Nonce : bytes;
  cert_Key : K;
  cert_Serial : Z;
  cert_CertType : Z;
  cert_KeyId : bytes;
  cert_ValidPrincipals : list bytes;
  cert_ValidAfter : Z;
  cert_ValidBefore : Z;
  cert_CriticalOptions : gmap bytes bytes;
  cert_Extensions : gmap bytes bytes;
  cert_Reserved : bytes;
  cert_SignatureKey : option K;
  cert_Signature : option Signature
}.
Arguments mkCertificate {K}.
Arguments cert_Nonce {K}. Arguments cert_Key {K}. Arguments cert_Serial {K}.
Arguments cert_CertType {K}. Arguments cert_KeyId {K}. Arguments cert_ValidPrincipals {K}.
Arguments cert_ValidAfter {K}. Arguments cert_ValidBefore {K}. Arguments cert_CriticalOptions {K}.
Arguments cert_Extensions {K}. Arguments cert_Reserved {K}. Arguments cert_SignatureKey {K}.
Arguments cert_Signature {K}.

#[warnings="-register-all"]
Inductive PublicKey :=
| rsaPublicKey (E N : Z)
| dsaPublicKey (P Q G Y : Z)
| ecdsaPublicKey (c : ellipticCurve) (X Y : Z)
| ed25519PublicKey (key : bytes)
| certPublicKey (c : CertificateOf PublicKey).

(** Induction through the two keys of a certificate. *)
Lemma PublicKey_cert_ind (P : PublicKey -> Prop) :
  (forall E N, P (rsaPublicKey E N)) -> (forall p q g y, P (dsaPublicKey p q g y)) ->
  (forall c X Y, P (ecdsaPublicKey c X Y)) -> (forall key, P (ed25519PublicKey key)) ->
  (forall c, P (cert_Key c) -> (forall sk, cert_SignatureKey c = Some sk -> P sk) -> P (certPublicKey c)) ->
  forall k, P k.
Proof.
  intros H1 H2 H3 H4 H5. fix go 1. intros [E N|p q g y|c X Y|key|c]; [apply H1|apply H2|apply H3|apply H4|apply H5].
  - destruct c as [n key]. apply go.
  - destruct c as [n key s ct id ps va vb co ex re [sk|] sg]; cbn [cert_SignatureKey]; [|discriminate].
    pose proof (go sk) as Hsk. clear go. intros sk' E. by simplify_eq.
Qed.

Abbreviation Certificate := (CertificateOf PublicKey).

Definition UserCert : Z := 1.
Definition HostCert : Z := 2.
Definition CertTimeInfinity : Z := 2 ^ 64 - 1.

(** ** Types *)

Definition nistID (c : ellipticCurve) : outcome bytes :=
  match bitSize c with
  | 256 => Ret (str "nistp256")
  | 384 => Ret (str "nistp384")
  | 521 => Ret (str "nistp521")
  | _ => Panic "ssh: unsupported ecdsa key size"
  end.

Definition certAlgoNames : list (bytes * bytes) :=
  [(KeyAlgoRSA, CertAlgoRSAv01); (KeyAlgoDSA, CertAlgoDSAv01);
   (KeyAlgoECDSA256, CertAlgoECDSA256v01); (KeyAlgoECDSA384, CertAlgoECDSA384v01);
   (KeyAlgoECDSA521, CertAlgoECDSA521v01); (KeyAlgoED25519, CertAlgoED25519v01)].

(** The names are distinct, so that the order in which Go visits the map does
    not matter. *)
Definition certAlgoOf (privAlgo : bytes) : option bytes :=
  snd <$> find (fun e => bool_decide (e.1 = privAlgo)) certAlgoNames.

Definition certToPrivAlgo (algo : bytes) : outcome bytes :=
  match find (fun e => bool_decide (e.2 = algo)) certAlgoNames with
  | Some e => Ret e.1
  | None => Panic "unknown cert algorithm"
  end.

Fixpoint pub_Type (k : PublicKey) : outcome bytes :=
  match k with
  | rsaPublicKey _ _ => Ret (str "ssh-rsa")
  | dsaPublicKey _ _ _ _ => Ret (str "ssh-dss")
  | ecdsaPublicKey c _ _ => let? id := nistID c in Ret (str "ecdsa-sha2-" ++ id)
  | ed25519PublicKey _ => Ret KeyAlgoED25519
  | certPublicKey c =>
      let? t := pub_Type (cert_Key c) in
      match certAlgoOf t with
      | Some algo => Ret algo
      | None => Panic "unknown cert key type "
      end
  end.

(** ** Lists and options of a certificate *)

Definition stringStruct : structType := StructType "" "" [("N", KString)].

Fixpoint marshalStringList (namelist : list bytes) : outcome bytes :=
  match namelist with
  | [] => Ret []
  | name :: rest =>
      let? s := marshalStruct [] stringStruct (name, tt) in
      let? to := marshalStringList rest in
      Ret (s ++ to)
  end.

Definition optionsTuple_struct : structType :=
  StructType "optionsTuple" "" [("Key", KString); ("Value", KBytes false)].
Definition optionsTupleValue_struct : structType :=
  StructType "optionsTupleValue" "" [("Value", KString)].

(** Go's order on strings. *)
Fixpoint bytes_ltb (a b : bytes) : bool :=
  match a, b with
  | [], [] => false
  | [], _ :: _ => true
  | _ :: _, [] => false
  | x :: a', y :: b' => (b2z x <? b2z y) || ((b2z x =? b2z y) && bytes_ltb a' b')
  end.

Definition bytes_le (a b : bytes) : Prop := bytes_ltb b a = false.

#[export] Instance bytes_le_dec : RelDecision bytes_le.
Proof. intros a b. unfold bytes_le. apply _. Defined.

(** The keys of the map after [sort.Strings]. *)
Definition sortedKeys (tups : gmap bytes bytes) : list bytes :=
  merge_sort bytes_le (map_to_list tups).*1.

Definition marshalTuple (key value : bytes) : outcome bytes :=
  let? v := if 0 <? zlen value then marshalStruct [] optionsTupleValue_struct (value, tt) else Ret [] in
  marshalStruct [] optionsTuple_struct (key, (v, tt)).

Fixpoint marshalKeys (tups : gmap bytes bytes) (keys : list bytes) : outcome bytes :=
  match keys with
  | [] => Ret []
  | key :: keys' =>
      let? s := marshalTuple key (default [] (tups !! key)) in
      let? ret := marshalKeys tups keys' in
      Ret (s ++ ret)
  end.

Definition marshalTuples (tups : gmap bytes bytes) : outcome bytes := marshalKeys tups (sortedKeys tups).

Definition errTupleOrder : error := errNew "ssh: certificate options are not in lexical order".
Definition errTupleTrailing : error := errNew "ssh: unexpected trailing data after certificate option value".

(** The embedded value of an option. *)
Definition parseTupleValue (val : bytes) : outcome bytes :=
  if 0 <? zlen val then
    match parseString val with
    | None => Fail errShortRead
    | Some (val, extra) => if 0 <? zlen extra then Fail errTupleTrailing else Ret val
    end
  else Ret [].

Fixpoint parseTuplesLoop (fuel : nat) (i : bytes) (lastKey : option bytes) (tups : gmap bytes bytes)
  : outcome (gmap bytes bytes) :=
  match i, fuel with
  | [], _ => Ret tups
  | _, O => Panic "out of fuel"
  | _, S fuel =>
      match parseString i with
      | None => Fail errShortRead
      | Some (key, i) =>
          if match lastKey with Some last => negb (bytes_ltb last key) | None => false end then Fail errTupleOrder
          else
            match parseString i with
            | None => Fail errShortRead
            | Some (val, i) =>
                let? v := parseTupleValue val in
                parseTuplesLoop fuel i (Some key) (<[key := v]> tups)
            end
      end
  end.

Definition parseTuples (i : bytes) : outcome (gmap bytes bytes) := parseTuplesLoop (length i) i None ∅.

Fixpoint parsePrincipals (fuel : nat) (principals : bytes) : outcome (list bytes) :=
  match principals, fuel with
  | [], _ => Ret []
  | _, O => Panic "out of fuel"
  | _, S fuel =>
      match parseString principals with
      | None => Fail errShortRead
      | Some (principal, rest) =>
          let? ps := parsePrincipals fuel rest in
          Ret (principal :: ps)
      end
  end.

(** ** Marshalling *)

Definition rsaWire_struct : structType := StructType "" "" [("Name", KString); ("E", KBigInt); ("N", KBigInt)].
Definition dsaWire_struct : structType :=
  StructType "" "" [("Name", KString); ("P", KBigInt); ("Q", KBigInt); ("G", KBigInt); ("Y", KBigInt)].
Definition ecdsaWire_struct : structType :=
  StructType "" "" [("Name", KString); ("ID", KString); ("Key", KBytes false)].
Definition ed25519Wire_struct : structType := StructType "" "" [("Name", KString); ("KeyBytes", KBytes false)].

Definition genericCertData_struct : structType :=
  StructType "genericCertData" ""
    [("Serial", KUint64); ("CertType", KUint32); ("KeyId", KString); ("ValidPrincipals", KBytes false);
     ("ValidAfter", KUint64); ("ValidBefore", KUint64); ("CriticalOptions", KBytes false);
     ("Extensions", KBytes false); ("Reserved", KBytes false); ("SignatureKey", KBytes false);
     ("Signature", KBytes false)].

Definition certPrefix_struct : structType :=
  StructType "" "" [("Name", KString); ("Nonce", KBytes false); ("Key", KBytes true)].

Section Marshal.
Context `{KeyLib}.

Definition rsaPublicKey_Marshal (E N : Z) : outcome bytes := marshalStruct [] rsaWire_struct (KeyAlgoRSA, (E, (N, tt))).

Definition dsaPublicKey_Marshal (P Q G Y : Z) : outcome bytes :=
  marshalStruct [] dsaWire_struct (str "ssh-dss", (P, (Q, (G, (Y, tt))))).

Definition ecdsaPublicKey_Marshal (c : ellipticCurve) (X Y : Z) : outcome bytes :=
  let keyBytes := elliptic_Marshal c X Y in
  let? t := pub_Type (ecdsaPublicKey c X Y) in
  let? id := nistID c in
  marshalStruct [] ecdsaWire_struct (t, (id, (keyBytes, tt))).

Definition ed25519PublicKey_Marshal (key : bytes) : outcome bytes :=
  marshalStruct [] ed25519Wire_struct (KeyAlgoED25519, (key, tt)).

(** [Marshal] of the keys; the last case is [Certificate.Marshal]. *)
Fixpoint pub_Marshal (k : PublicKey) : outcome bytes :=
  match k with
  | rsaPublicKey E N => rsaPublicKey_Marshal E N
  | dsaPublicKey P Q G Y => dsaPublicKey_Marshal P Q G Y
  | ecdsaPublicKey c X Y => ecdsaPublicKey_Marshal c X Y
  | ed25519PublicKey key => ed25519PublicKey_Marshal key
  | certPublicKey c =>
      let? principals := marshalStringList (cert_ValidPrincipals c) in
      let? options := marshalTuples (cert_CriticalOptions c) in
      let? extensions := marshalTuples (cert_Extensions c) in
      let? signatureKey :=
        match cert_SignatureKey c with
        | Some sk => pub_Marshal sk
        | None => Panic "nil pointer dereference"
        end in
      let? signature := match cert_Signature c with Some s => Marshal s | None => Ret [] end in
      let? genericBytes := marshalStruct [] genericCertData_struct
        (cert_Serial c, (cert_CertType c, (cert_KeyId c, (principals, (cert_ValidAfter c, (cert_ValidBefore c,
          (options, (extensions, (cert_Reserved c, (signatureKey, (signature, tt))))))))))) in
      let? keyBytes := pub_Marshal (cert_Key c) in
      let keyBytes := match parseString keyBytes with Some (_, rest) => rest | None => [] end in
      let? t := pub_Type k in
      let? prefix := marshalStruct [] certPrefix_struct (t, (cert_Nonce c, (keyBytes, tt))) in
      Ret (prefix ++ genericBytes)
  end.

(** [Certificate.Marshal]. *)
Definition cert_Marshal (c : Certificate) : outcome bytes := pub_Marshal (certPublicKey c).

Definition withoutSignature (c : Certificate) : Certificate :=
  mkCertificate (cert_Nonce c) (cert_Key c) (cert_Serial c) (cert_CertType c) (cert_KeyId c)
    (cert_ValidPrincipals c) (cert_ValidAfter c) (cert_ValidBefore c) (cert_CriticalOptions c)
    (cert_Extensions c) (cert_Reserved c) (cert_SignatureKey c) None.

Definition bytesForSigning (c : Certificate) : outcome bytes :=
  let? out := cert_Marshal (withoutSignature c) in
  if zlen out <? 4 then Panic "slice bounds out of range"
  else Ret (ztake (zlen out - 4) out).
End Marshal.

(** ** Parsing *)

Definition rsaParse_struct : structType := StructType "" "" [("E", KBigInt); ("N", KBigInt); ("Rest", KBytes true)].
Definition dsaParse_struct : structType :=
  StructType "" "" [("P", KBigInt); ("Q", KBigInt); ("G", KBigInt); ("Y", KBigInt); ("Rest", KBytes true)].
Definition ecdsaParse_struct : structType :=
  StructType "" "" [("Curve", KString); ("KeyBytes", KBytes false); ("Rest", KBytes true)].
Definition ed25519Parse_struct : structType := StructType "" "" [("KeyBytes", KBytes false); ("Rest", KBytes true)].

Definition parseRSA (i : bytes) : outcome (PublicKey * bytes) :=
  let? (E, (N, (Rest, _))) := Unmarshal rsaParse_struct i in
  if 24 <? bitLen E then Fail (errNew "ssh: exponent too large")
  else
    let e := i64 E in
    if (e <? 3) || (Z.land e 1 =? 0) then Fail (errNew "ssh: incorrect exponent")
    else Ret (rsaPublicKey e N, Rest).

Definition parseDSA (i : bytes) : outcome (PublicKey * bytes) :=
  let? (P, (Q, (G, (Y, (Rest, _))))) := Unmarshal dsaParse_struct i in
  Ret (dsaPublicKey P Q G Y, Rest).

Definition curveNamed (name : bytes) : option ellipticCurve :=
  if bool_decide (name = str "nistp256") then Some P256
  else if bool_decide (name = str "nistp384") then Some P384
  else if bool_decide (name = str "nistp521") then Some P521
  else None.

Section Parse.
Context `{KeyLib}.

Definition parseECDSA (i : bytes) : outcome (PublicKey * bytes) :=
  let? (Curve, (KeyBytes, (Rest, _))) := Unmarshal ecdsaParse_struct i in
  match curveNamed Curve with
  | None => Fail (errNew "ssh: unsupported curve")
  | Some c =>
      match elliptic_Unmarshal c KeyBytes with
      | None => Fail (errNew "ssh: invalid curve point")
      | Some (X, Y) => Ret (ecdsaPublicKey c X Y, Rest)
      end
  end.

Definition parseED25519 (i : bytes) : outcome (PublicKey * bytes) :=
  let? (KeyBytes, (Rest, _)) := Unmarshal ed25519Parse_struct i in
  Ret (ed25519PublicKey KeyBytes, Rest).

Definition isCertAlgo (algo : bytes) : bool := existsb (fun e => bool_decide (e.2 = algo)) certAlgoNames.

(** The fuel counts the calls between the three functions; every certificate
    whose authority is again a certificate is shorter than the one around it. *)
Fixpoint parsePubKey (fuel : nat) (i algo : bytes) {struct fuel} : outcome (PublicKey * bytes) :=
  match fuel with
  | O => Panic "out of fuel"
  | S fuel =>
      if bool_decide (algo = KeyAlgoRSA) then parseRSA i
      else if bool_decide (algo = KeyAlgoDSA) then parseDSA i
      else if bool_decide (algo = KeyAlgoECDSA256 \/ algo = KeyAlgoECDSA384 \/ algo = KeyAlgoECDSA521) then parseECDSA i
      else if bool_decide (algo = KeyAlgoED25519) then parseED25519 i
      else if isCertAlgo algo then
        let? privAlgo := certToPrivAlgo algo in
        let? c := parseCert fuel i privAlgo in
        Ret (certPublicKey c, [])
      else Fail (Errorf "ssh: unknown key algorithm: %v" [FStr algo])
  end
with parseCert (fuel : nat) (i privAlgo : bytes) {struct fuel} : outcome Certificate :=
  match fuel with
  | O => Panic "out of fuel"
  | S fuel =>
      match parseString i with
      | None => Fail errShortRead
      | Some (nonce, rest) =>
          let? (key, rest) := parsePubKey fuel rest privAlgo in
          let? (serial, (certType, (keyId, (principals, (validAfter, (validBefore,
            (options, (extensions, (reserved, (signatureKey, (signature, _))))))))))) :=
            Unmarshal genericCertData_struct rest in
          let? principals := parsePrincipals (length principals) principals in
          let? options := parseTuples options in
          let? extensions := parseTuples extensions in
          let? k := parsePublicKey fuel signatureKey in
          match parseSignatureBody signature with
          | Some (sig, []) =>
              Ret (mkCertificate nonce key serial certType keyId principals validAfter validBefore
                     options extensions reserved (Some k) (Some sig))
          | _ => Fail (errNew "ssh: signature parse error")
          end
      end
  end
with parsePublicKey (fuel : nat) (i : bytes) {struct fuel} : outcome PublicKey :=
  match fuel with
  | O => Panic "out of fuel"
  | S fuel =>
      match parseString i with
      | None => Fail errShortRead
      | Some (algo, i) =>
          let? (out, rest) := parsePubKey fuel i algo in
          if 0 <? zlen rest then Fail (errNew "ssh: trailing junk in public key") else Ret out
      end
  end.

Definition parseFuel (i : bytes) : nat := 3 * length i + 5.

Definition ParsePublicKey (i : bytes) : outcome PublicKey := parsePublicKey (parseFuel i) i.
End Parse.

(** ** Verification *)

Definition errVerify : error := errNew "ssh: signature did not verify".

Definition ecHash (c : ellipticCurve) : cryptoHash :=
  if bitSize c <=? 256 then SHA256 else if bitSize c <=? 384 then SHA384 else SHA512.

Definition ecSig_struct : structType := StructType "" "" [("R", KBigInt); ("S", KBigInt)].

Definition checkFormat (k : PublicKey) (sig : Signature) : outcome unit :=
  let? t := pub_Type k in
  if negb (bool_decide (Signature_Format sig = t)) then
    Fail (Errorf "ssh: signature type %s for key type %s" [FStr (Signature_Format sig); FStr t])
  else Ret tt.

Definition verdictOf (ok : bool) : outcome unit := if ok then Ret tt else Fail errVerify.

Section Verify.
Context `{KeyLib}.

Definition rsaPublicKey_Verify (E N : Z) (data : bytes) (sig : Signature) : outcome unit :=
  let? _ := checkFormat (rsaPublicKey E N) sig in
  match rsa_VerifyPKCS1v15 E N SHA1 (hashSum SHA1 data) (Signature_Blob sig) with
  | Some e => Fail e
  | None => Ret tt
  end.

Definition dsaPublicKey_Verify (P Q G Y : Z) (data : bytes) (sig : Signature) : outcome unit :=
  let? _ := checkFormat (dsaPublicKey P Q G Y) sig in
  let digest := hashSum SHA1 data in
  if negb (zlen (Signature_Blob sig) =? 40) then Fail (errNew "ssh: DSA signature parse error")
  else verdictOf (dsa_Verify (P, Q, G, Y) digest (be_decode (ztake 20 (Signature_Blob sig)))
                    (be_decode (zdrop 20 (Signature_Blob sig)))).

Definition ecdsaPublicKey_Verify (c : ellipticCurve) (X Y : Z) (data : bytes) (sig : Signature) : outcome unit :=
  let? _ := checkFormat (ecdsaPublicKey c X Y) sig in
  let digest := hashSum (ecHash c) data in
  let? (r, (s, _)) := Unmarshal ecSig_struct (Signature_Blob sig) in
  verdictOf (ecdsa_Verify c X Y digest r s).

Definition ed25519PublicKey_Verify (key data : bytes) (sig : Signature) : outcome unit :=
  let? _ := checkFormat (ed25519PublicKey key) sig in
  let? ok := ed25519_Verify key data (Signature_Blob sig) in
  verdictOf ok.

Fixpoint pub_Verify (k : PublicKey) (data : bytes) (sig : Signature) : outcome unit :=
  match k with
  | rsaPublicKey E N => rsaPublicKey_Verify E N data sig
  | dsaPublicKey P Q G Y => dsaPublicKey_Verify P Q G Y data sig
  | ecdsaPublicKey c X Y => ecdsaPublicKey_Verify c X Y data sig
  | ed25519PublicKey key => ed25519PublicKey_Verify key data sig
  | certPublicKey c => pub_Verify (cert_Key c) data sig
  end.
End Verify.

(** Steps to the method of a key. *)
Ltac marshal_key :=
  cbn [pub_Marshal rsaPublicKey_Marshal dsaPublicKey_Marshal ecdsaPublicKey_Marshal ed25519PublicKey_Marshal];
  unfold rsaPublicKey_Marshal, dsaPublicKey_Marshal, ecdsaPublicKey_Marshal, ed25519PublicKey_Marshal.

Ltac verify_key :=
  cbn [pub_Verify];
  unfold rsaPublicKey_Verify, dsaPublicKey_Verify, ecdsaPublicKey_Verify, ed25519PublicKey_Verify.
