(* ===== verification/KeysFacts.v ===== *)
(** * Public keys and certificates: encoding and parsing

    A well-formed key, certificate in certificate included, is read back from
    its encoding; everything the parser accepts is well formed; the parser
    neither panics nor runs out of fuel on any input. *)

From stdpp Require Import sorting.
From S2P Require Import Prelude Text Wire Codec Negotiate Kex KexFacts Keys.

(** ** The order of option names *)

Lemma bytes_ltb_irrefl a : bytes_ltb a a = false.
Proof. induction a as [|x a IH]; simpl; [done|]. by rewrite Z.ltb_irrefl, IH, andb_false_r. Qed.

Lemma bytes_ltb_cons x y a b :
  bytes_ltb (x :: a) (y :: b) = true <-> b2z x < b2z y \/ (x = y /\ bytes_ltb a b = true).
Proof.
  simpl. rewrite orb_true_iff, andb_true_iff, Z.ltb_lt, Z.eqb_eq. split.
  - intros [?|[?%b2z_inj ?]]; auto.
  - intros [?|[-> ?]]; auto.
Qed.

Lemma bytes_ltb_trans a b c : bytes_ltb a b = true -> bytes_ltb b c = true -> bytes_ltb a c = true.
Proof.
  revert b c. induction a as [|x a IH]; intros [|y b] [|z c]; try done.
  rewrite !bytes_ltb_cons. intros [?|[-> ?]] [?|[-> ?]]; [left; lia | auto..|]. right. eauto.
Qed.

Lemma bytes_ltb_total a b : bytes_ltb a b = false -> bytes_ltb b a = false -> a = b.
Proof.
  revert b. induction a as [|x a IH]; intros [|y b]; try done. simpl.
  rewrite !orb_false_iff, !andb_false_iff, !Z.ltb_ge, !Z.eqb_neq. intros [? H1] [? H2].
  assert (E : b2z x = b2z y) by lia. rewrite E in *.
  destruct H1 as [?|H1], H2 as [?|H2]; try done. by rewrite (b2z_inj _ _ E), (IH _ H1 H2).
Qed.

#[local] Instance bytes_le_total : Total bytes_le.
Proof.
  intros a b. unfold bytes_le. destruct (bytes_ltb b a) eqn:E1; [|by left]. right.
  destruct (bytes_ltb a b) eqn:E2; [|done].
  by rewrite <- (bytes_ltb_irrefl a), (bytes_ltb_trans a b a).
Qed.

#[local] Instance bytes_le_trans : Transitive bytes_le.
Proof.
  intros a b c Hab Hbc. unfold bytes_le in *. destruct (bytes_ltb c a) eqn:E; [|done].
  destruct (bytes_ltb a b) eqn:E1.
  - rewrite <- Hbc. by rewrite (bytes_ltb_trans c a b).
  - rewrite (bytes_ltb_total a b) in E by done. congruence.
Qed.

(** Names in strictly increasing order. *)
Definition increasing : list bytes -> Prop := StronglySorted (fun a b => bytes_ltb a b = true).

Lemma sortedKeys_elem tups k : k ∈ sortedKeys tups <-> is_Some (tups !! k).
Proof.
  unfold sortedKeys. rewrite (merge_sort_Permutation bytes_le), list_elem_of_fmap. split.
  - intros ([k' v] & -> & Hv). apply elem_of_map_to_list in Hv. eauto.
  - intros [v Hv]. exists (k, v). by rewrite elem_of_map_to_list.
Qed.

Lemma sortedKeys_increasing tups : increasing (sortedKeys tups).
Proof.
  assert (Hs : StronglySorted bytes_le (sortedKeys tups)).
  { apply Sorted_StronglySorted; [apply _|]. apply Sorted_merge_sort. apply _. }
  assert (Hn : NoDup (sortedKeys tups)).
  { unfold sortedKeys. rewrite (merge_sort_Permutation bytes_le). apply NoDup_fst_map_to_list. }
  induction Hs as [|k l Hl IH Hk]; [constructor|]. apply NoDup_cons in Hn as [Hnk Hn].
  constructor; [by apply IH|]. apply Forall_forall. intros x Hx.
  rewrite Forall_forall in Hk. specialize (Hk x Hx). unfold bytes_le in Hk.
  destruct (bytes_ltb k x) eqn:E; [done|]. by rewrite (bytes_ltb_total k x) in Hnk.
Qed.

(** ** Strings on the wire *)

Definition enc_str (s : bytes) : bytes := be_encode 4 (zlen s) ++ s.

Lemma zlen_enc_str s : zlen (enc_str s) = 4 + zlen s.
Proof. unfold enc_str. rewrite zlen_app, zlen_be_encode. lia. Qed.

Lemma parseString_enc s rest : zlen (enc_str s ++ rest) < 2 ^ 32 -> parseString (enc_str s ++ rest) = Some (s, rest).
Proof.
  rewrite !zlen_app, zlen_enc_str. intros. unfold enc_str.
  rewrite <- app_assoc. apply parseString_be. rewrite zlen_app. lia.
Qed.

Lemma enc_str_cons s rest : exists b l, enc_str s ++ rest = b :: l.
Proof. unfold enc_str. simpl. eauto. Qed.

Lemma length_enc_str s : (length (enc_str s) = 4 + length s)%nat.
Proof. pose proof (zlen_enc_str s). unfold zlen in *. lia. Qed.

Lemma zlen_lt_app_r (a b : bytes) m : zlen (a ++ b) < m -> zlen b < m.
Proof. rewrite zlen_app. pose proof (zlen_nonneg a). lia. Qed.

Lemma zlen_lt_app_l (a b : bytes) m : zlen (a ++ b) < m -> zlen a < m.
Proof. rewrite zlen_app. pose proof (zlen_nonneg b). lia. Qed.

(** ** Principals *)

Definition enc_strs (l : list bytes) : bytes := concat (map enc_str l).

Lemma marshalStringList_enc l : marshalStringList l = Ret (enc_strs l).
Proof.
  induction l as [|s l IH]; [done|]. cbn [marshalStringList].
  rewrite (marshalStruct_value _ []) by done. rewrite IH. cbn. by rewrite app_nil_r.
Qed.

Lemma parsePrincipals_enc l fuel :
  zlen (enc_strs l) < 2 ^ 32 -> (length (enc_strs l) <= fuel)%nat -> parsePrincipals fuel (enc_strs l) = Ret l.
Proof.
  revert fuel. induction l as [|s l IH]; intros fuel Hl Hf; [by destruct fuel|].
  unfold enc_strs in *. cbn [map concat] in *. destruct (enc_str_cons s (concat (map enc_str l))) as (b & t & E).
  rewrite length_app, length_enc_str in Hf. destruct fuel as [|fuel]; [lia|].
  rewrite E. cbn [parsePrincipals]. rewrite <- E. rewrite parseString_enc by done.
  rewrite IH; [done | by eapply zlen_lt_app_r | lia].
Qed.

(** ** Options *)

Definition enc_tuple (k v : bytes) : bytes :=
  enc_str k ++ enc_str (match v with [] => [] | _ => enc_str v end).

Lemma marshalTuple_enc k v : marshalTuple k v = Ret (enc_tuple k v).
Proof.
  unfold marshalTuple, enc_tuple. destruct v as [|b v].
  - change (0 <? zlen []) with false. cbn [obind]. rewrite (marshalStruct_value _ []) by done. done.
  - replace (0 <? zlen (b :: v)) with true by (rewrite zlen_cons; pose proof (zlen_nonneg v); lia).
    rewrite (marshalStruct_value _ []) by done. cbn [obind]. rewrite (marshalStruct_value _ []) by done.
    cbn -[be_encode]. by rewrite !app_nil_r.
Qed.

Definition valueOf (tups : gmap bytes bytes) (k : bytes) : bytes := default [] (tups !! k).

Definition enc_tuples (tups : gmap bytes bytes) (ks : list bytes) : bytes :=
  concat (map (fun k => enc_tuple k (valueOf tups k)) ks).

Lemma marshalKeys_enc tups ks : marshalKeys tups ks = Ret (enc_tuples tups ks).
Proof. induction ks as [|k ks IH]; [done|]. cbn [marshalKeys]. by rewrite marshalTuple_enc, IH. Qed.

Lemma parseTupleValue_enc v :
  zlen (enc_str v) < 2 ^ 32 -> parseTupleValue (match v with [] => [] | _ => enc_str v end) = Ret v.
Proof.
  intros Hl. unfold parseTupleValue. destruct v as [|b v]; [done|].
  replace (0 <? zlen (enc_str (b :: v))) with true by (rewrite zlen_enc_str; pose proof (zlen_nonneg (b :: v)); lia).
  pose proof (parseString_enc (b :: v) []) as H. rewrite app_nil_r in H. by rewrite H.
Qed.

Definition insertAll (tups acc : gmap bytes bytes) (ks : list bytes) : gmap bytes bytes :=
  foldl (fun m k => <[k := valueOf tups k]> m) acc ks.

Lemma insertAll_lookup tups acc ks j :
  insertAll tups acc ks !! j = if decide (j ∈ ks) then Some (valueOf tups j) else acc !! j.
Proof.
  revert acc. induction ks as [|k ks IH]; intros acc; [done|]. cbn [insertAll foldl].
  change (foldl _ _ ks) with (insertAll tups (<[k := valueOf tups k]> acc) ks). rewrite IH.
  destruct (decide (j ∈ ks)) as [|Hj], (decide (j ∈ k :: ks)) as [H|H]; try done.
  - destruct H. by right.
  - apply elem_of_cons in H as [->|]; [|done]. by rewrite lookup_insert_eq.
  - apply not_elem_of_cons in H as [? _]. by rewrite lookup_insert_ne.
Qed.

Lemma parseTuplesLoop_enc tups ks fuel last acc :
  increasing ks -> match last with Some l => Forall (fun k => bytes_ltb l k = true) ks | None => True end ->
  zlen (enc_tuples tups ks) < 2 ^ 32 -> (length (enc_tuples tups ks) <= fuel)%nat ->
  parseTuplesLoop fuel (enc_tuples tups ks) last acc = Ret (insertAll tups acc ks).
Proof.
  intros Hi. revert fuel last acc. induction Hi as [|k ks Hks IH Hk]; intros fuel last acc Hlast Hl Hf; [by destruct fuel|].
  unfold enc_tuples in *. cbn [map concat] in *. set (rest := concat _) in *.
  unfold enc_tuple in *. rewrite <- !app_assoc in *. destruct (enc_str_cons k (enc_str (match valueOf tups k with [] => [] | _ => enc_str (valueOf tups k) end) ++ rest)) as (b & t & E).
  rewrite !length_app, !length_enc_str in Hf. destruct fuel as [|fuel]; [lia|].
  rewrite E. cbn [parseTuplesLoop]. rewrite <- E. rewrite parseString_enc by done.
  replace (match last with Some l => negb (bytes_ltb l k) | None => false end) with false.
  2: { destruct last; [|done]. apply Forall_cons_iff in Hlast as [-> _]. done. }
  apply zlen_lt_app_r in Hl. rewrite parseString_enc by done.
  rewrite parseTupleValue_enc.
  2: { destruct (valueOf tups k); [done|]. apply zlen_lt_app_l in Hl. rewrite zlen_enc_str in Hl. lia. }
  apply zlen_lt_app_r in Hl. cbn [obind]. rewrite IH; [done | done | done | lia].
Qed.

Lemma parseTuples_marshal tups :
  zlen (enc_tuples tups (sortedKeys tups)) < 2 ^ 32 ->
  marshalTuples tups = Ret (enc_tuples tups (sortedKeys tups)) /\
  parseTuples (enc_tuples tups (sortedKeys tups)) = Ret tups.
Proof.
  intros Hl. split; [apply marshalKeys_enc|]. unfold parseTuples.
  rewrite parseTuplesLoop_enc; [|apply sortedKeys_increasing|done..]. f_equal.
  apply map_eq. intros j. rewrite insertAll_lookup. unfold valueOf.
  destruct (decide (j ∈ sortedKeys tups)) as [H|H]; rewrite sortedKeys_elem in H.
  - destruct H as [v ->]. done.
  - destruct (tups !! j); [|done]. by destruct H.
Qed.

(** ** Well-formed keys *)

Definition enc_int (n : Z) : bytes := enc_str (mpint_contents n).

Section Facts.
Context `{KeyLib}.

(** Keys that are not certificates. *)
Definition plain_wf (k : PublicKey) : Prop :=
  match k with
  | rsaPublicKey E N => 3 <= E < 2 ^ 24 /\ Z.odd E = true
  | dsaPublicKey _ _ _ _ => True
  | ecdsaPublicKey c X Y => c <> P224 /\ elliptic_Unmarshal c (elliptic_Marshal c X Y) = Some (X, Y)
  | ed25519PublicKey _ => True
  | certPublicKey _ => False
  end.

(** A certificate is of a plain key and has an authority and a signature. *)
Fixpoint key_wf (k : PublicKey) : Prop :=
  match k with
  | certPublicKey c =>
      plain_wf (cert_Key c) /\ 0 <= cert_Serial c < 2 ^ 64 /\ 0 <= cert_CertType c < 2 ^ 32 /\
      0 <= cert_ValidAfter c < 2 ^ 64 /\ 0 <= cert_ValidBefore c < 2 ^ 64 /\ is_Some (cert_Signature c) /\
      match cert_SignatureKey c with Some sk => key_wf sk | None => False end
  | _ => plain_wf k
  end.

Lemma exponent_bits E : 3 <= E < 2 ^ 24 -> (24 <? bitLen E) = false /\ i64 E = E.
Proof.
  intros HE. split; [|unfold i64; rewrite Z.mod_small; lia]. apply Z.ltb_ge. unfold bitLen.
  destruct (E =? 0) eqn:E0; [lia|]. rewrite Z.abs_eq by lia.
  enough (Z.log2 E < 24) by lia. apply Z.log2_lt_pow2; lia.
Qed.

Lemma odd_land E : (Z.land E 1 =? 0) = negb (Z.odd E).
Proof.
  change 1 with (Z.ones 1). rewrite Z.land_ones by lia. change (2 ^ 1) with 2.
  rewrite Zmod_odd. by destruct (Z.odd E).
Qed.

Lemma parseRSA_enc E N rest :
  plain_wf (rsaPublicKey E N) -> zlen (enc_int E ++ enc_int N ++ rest) < 2 ^ 32 ->
  parseRSA (enc_int E ++ enc_int N ++ rest) = Ret (rsaPublicKey E N, rest).
Proof.
  intros [HE Hodd] Hl. unfold parseRSA.
  pose proof (Unmarshal_untagged rsaParse_struct (E, (N, (rest, tt)))) as Hu.
  change (struct_enc _ _) with (enc_int E ++ enc_int N ++ rest) in Hu. rewrite Hu by (repeat split; done).
  cbn [obind]. destruct (exponent_bits E HE) as [-> ->].
  rewrite odd_land, Hodd. replace (E <? 3) with false by lia. done.
Qed.

Lemma parseDSA_enc P Q G Y rest :
  zlen (enc_int P ++ enc_int Q ++ enc_int G ++ enc_int Y ++ rest) < 2 ^ 32 ->
  parseDSA (enc_int P ++ enc_int Q ++ enc_int G ++ enc_int Y ++ rest) = Ret (dsaPublicKey P Q G Y, rest).
Proof.
  intros Hl. unfold parseDSA.
  pose proof (Unmarshal_untagged dsaParse_struct (P, (Q, (G, (Y, (rest, tt)))))) as Hu.
  change (struct_enc _ _) with (enc_int P ++ enc_int Q ++ enc_int G ++ enc_int Y ++ rest) in Hu.
  by rewrite Hu by (repeat split; done).
Qed.

Lemma nistID_curve c : c <> P224 -> exists id, nistID c = Ret id /\ curveNamed id = Some c.
Proof. destruct c; [done|..]; intros _; eexists; split; reflexivity || done. Qed.

Lemma parseECDSA_enc c X Y id rest :
  plain_wf (ecdsaPublicKey c X Y) -> nistID c = Ret id ->
  zlen (enc_str id ++ enc_str (elliptic_Marshal c X Y) ++ rest) < 2 ^ 32 ->
  parseECDSA (enc_str id ++ enc_str (elliptic_Marshal c X Y) ++ rest) = Ret (ecdsaPublicKey c X Y, rest).
Proof.
  intros [Hc Hp] Hid Hl. unfold parseECDSA.
  pose proof (Unmarshal_untagged ecdsaParse_struct (id, (elliptic_Marshal c X Y, (rest, tt)))) as Hu.
  change (struct_enc _ _) with (enc_str id ++ enc_str (elliptic_Marshal c X Y) ++ rest) in Hu.
  rewrite Hu by (repeat split; done). cbn [obind]. destruct (nistID_curve c Hc) as (id' & Hid' & Hn).
  rewrite Hid in Hid'. simplify_eq. by rewrite Hn, Hp.
Qed.

Lemma parseED25519_enc key rest :
  zlen (enc_str key ++ rest) < 2 ^ 32 -> parseED25519 (enc_str key ++ rest) = Ret (ed25519PublicKey key, rest).
Proof.
  intros Hl. unfold parseED25519.
  pose proof (Unmarshal_untagged ed25519Parse_struct (key, (rest, tt))) as Hu.
  change (struct_enc _ _) with (enc_str key ++ rest) in Hu. by rewrite Hu by (repeat split; done).
Qed.

(** The name of a plain key, the rest of its encoding, and how both are read. *)
Lemma plain_roundtrip k : plain_wf k ->
  exists algo body cert, pub_Type k = Ret algo /\ pub_Marshal k = Ret (enc_str algo ++ body) /\
    certAlgoOf algo = Some cert /\ isCertAlgo cert = true /\ certToPrivAlgo cert = Ret algo /\
    (forall n rest, zlen (body ++ rest) < 2 ^ 32 -> parsePubKey (S n) (body ++ rest) algo = Ret (k, rest)) /\
    (forall n i, parsePubKey (S n) i cert = let? c := parseCert n i algo in Ret (certPublicKey c, [])).
Proof.
  destruct k as [E N|P Q G Y|c X Y|key|c]; intros Hwf; [..|done].
  - eexists _, (enc_int E ++ enc_int N), _. split_and!; [done| |reflexivity|done|done| |done].
    + marshal_key. rewrite (marshalStruct_value _ []) by done. cbn -[be_encode]. by rewrite !app_nil_r.
    + intros n rest. rewrite <- app_assoc. apply (parseRSA_enc E N rest Hwf).
  - eexists _, (enc_int P ++ enc_int Q ++ enc_int G ++ enc_int Y), _.
    split_and!; [done| |reflexivity|done|done| |done].
    + marshal_key. rewrite (marshalStruct_value _ []) by done. cbn -[be_encode]. by rewrite !app_nil_r.
    + intros n rest. rewrite <- !app_assoc. apply (parseDSA_enc P Q G Y rest).
  - destruct (nistID_curve c (proj1 Hwf)) as (id & Hid & Hn).
    exists (str "ecdsa-sha2-" ++ id), (enc_str id ++ enc_str (elliptic_Marshal c X Y)),
      (default [] (certAlgoOf (str "ecdsa-sha2-" ++ id))).
    assert (Hm : pub_Marshal (ecdsaPublicKey c X Y)
      = Ret (enc_str (str "ecdsa-sha2-" ++ id) ++ enc_str id ++ enc_str (elliptic_Marshal c X Y))).
    { marshal_key. cbn [pub_Type]. rewrite Hid. cbn [obind]. rewrite (marshalStruct_value _ []) by done.
      cbn -[be_encode]. by rewrite !app_nil_r. }
    rewrite Hm. cbn [pub_Type]. rewrite Hid. cbn [obind].
    assert (Hp : forall (n : nat) rest, zlen ((enc_str id ++ enc_str (elliptic_Marshal c X Y)) ++ rest) < 2 ^ 32 ->
      parseECDSA ((enc_str id ++ enc_str (elliptic_Marshal c X Y)) ++ rest) = Ret (ecdsaPublicKey c X Y, rest)).
    { intros _ rest. rewrite <- app_assoc. by apply parseECDSA_enc. }
    destruct c; [by destruct Hwf|..]; injection Hid as <-; (split_and!; [done|done|reflexivity|done|done|exact Hp|done]).
  - eexists _, (enc_str key), _. split_and!; [done| |reflexivity|done|done| |done].
    + marshal_key. rewrite (marshalStruct_value _ []) by done. cbn -[be_encode]. by rewrite !app_nil_r.
    + intros n rest. apply (parseED25519_enc key rest).
Qed.

(** The keys inside certificates fit a string of the format. *)
Fixpoint key_fits (k : PublicKey) : Prop :=
  match k with
  | certPublicKey c =>
      (forall p, pub_Marshal (cert_Key c) = Ret p -> zlen p < 2 ^ 32) /\
      match cert_SignatureKey c with Some sk => key_fits sk | None => True end
  | _ => True
  end.

Definition enc_generic (c : Certificate) (sk sig : bytes) : bytes :=
  struct_enc (st_fields genericCertData_struct)
    (cert_Serial c, (cert_CertType c, (cert_KeyId c, (enc_strs (cert_ValidPrincipals c),
      (cert_ValidAfter c, (cert_ValidBefore c,
        (enc_tuples (cert_CriticalOptions c) (sortedKeys (cert_CriticalOptions c)),
          (enc_tuples (cert_Extensions c) (sortedKeys (cert_Extensions c)),
            (cert_Reserved c, (sk, (sig, tt))))))))))).

Definition sigBytes (c : Certificate) : bytes :=
  match cert_Signature c with Some s => enc_str (Signature_Format s) ++ enc_str (Signature_Blob s) | None => [] end.

Lemma Signature_Marshal_enc (s : Signature) :
  Marshal s = Ret (enc_str (Signature_Format s) ++ enc_str (Signature_Blob s)).
Proof. rewrite (Marshal_value []) by done. cbn -[be_encode]. by rewrite !app_nil_r. Qed.

(** The encoding of a certificate, given that of its two keys. *)
Lemma cert_Marshal_enc c sk skp algo body cert :
  cert_SignatureKey c = Some sk -> pub_Marshal sk = Ret skp ->
  pub_Type (cert_Key c) = Ret algo -> pub_Marshal (cert_Key c) = Ret (enc_str algo ++ body) ->
  zlen (enc_str algo ++ body) < 2 ^ 32 -> certAlgoOf algo = Some cert ->
  pub_Marshal (certPublicKey c) = Ret (enc_str cert ++ enc_str (cert_Nonce c) ++ body ++ enc_generic c skp (sigBytes c)).
Proof.
  intros Hsk Hskp Ht Hm Hl Hc. marshal_key. cbn [pub_Type].
  rewrite marshalStringList_enc. cbn [obind]. unfold marshalTuples. rewrite !marshalKeys_enc. cbn [obind].
  rewrite Hsk, Hskp. cbn [obind].
  replace (match cert_Signature c with Some s => Marshal s | None => Ret [] end) with (Ret (sigBytes c)).
  2: { unfold sigBytes. destruct (cert_Signature c); [|done]. by rewrite Signature_Marshal_enc. }
  cbn [obind]. rewrite (marshalStruct_value _ []) by done. cbn [obind]. rewrite Hm. cbn [obind].
  rewrite parseString_enc by done. rewrite Ht. cbn [obind]. rewrite Hc. cbn [obind].
  rewrite (marshalStruct_value certPrefix_struct []) by done. cbn [obind]. f_equal.
  change (struct_enc (st_fields certPrefix_struct) _) with (enc_str cert ++ enc_str (cert_Nonce c) ++ body).
  cbn [tag_bytes app]. by rewrite <- !app_assoc.
Qed.

(** Reading the generic part: the pieces that [parseCert] takes from it. *)
Lemma generic_roundtrip c skp :
  key_wf (certPublicKey c) -> zlen (enc_generic c skp (sigBytes c)) < 2 ^ 32 ->
  Unmarshal genericCertData_struct (enc_generic c skp (sigBytes c)) =
    Ret (cert_Serial c, (cert_CertType c, (cert_KeyId c, (enc_strs (cert_ValidPrincipals c),
      (cert_ValidAfter c, (cert_ValidBefore c,
        (enc_tuples (cert_CriticalOptions c) (sortedKeys (cert_CriticalOptions c)),
          (enc_tuples (cert_Extensions c) (sortedKeys (cert_Extensions c)),
            (cert_Reserved c, (skp, (sigBytes c, tt))))))))))) /\
  zlen (enc_strs (cert_ValidPrincipals c)) < 2 ^ 32 /\
  zlen (enc_tuples (cert_CriticalOptions c) (sortedKeys (cert_CriticalOptions c))) < 2 ^ 32 /\
  zlen (enc_tuples (cert_Extensions c) (sortedKeys (cert_Extensions c))) < 2 ^ 32 /\
  zlen (sigBytes c) < 2 ^ 32 /\ (length skp < length (enc_generic c skp (sigBytes c)))%nat.
Proof.
  intros (_ & ? & ? & ? & ? & _ & _) Hl. split.
  { apply Unmarshal_untagged; [done | discriminate | done | repeat split; done || (cbn [fst snd]; lia)]. }
  assert (Hsum : zlen (enc_generic c skp (sigBytes c)) =
    8 + (4 + (4 + zlen (cert_KeyId c) + (4 + zlen (enc_strs (cert_ValidPrincipals c)) + (8 + (8 +
      (4 + zlen (enc_tuples (cert_CriticalOptions c) (sortedKeys (cert_CriticalOptions c))) +
        (4 + zlen (enc_tuples (cert_Extensions c) (sortedKeys (cert_Extensions c))) +
          (4 + zlen (cert_Reserved c) + (4 + zlen skp + (4 + zlen (sigBytes c) + 0))))))))))).
  { unfold enc_generic. cbn [struct_enc field_enc st_fields genericCertData_struct struct_cons_codec struct_nil_codec
      uint64_codec uint32_codec string_codec bytes_codec fst snd].
    rewrite !zlen_app, !zlen_be_encode, zlen_nil. lia. }
  pose proof (zlen_nonneg (cert_KeyId c)). pose proof (zlen_nonneg (enc_strs (cert_ValidPrincipals c))).
  pose proof (zlen_nonneg (enc_tuples (cert_CriticalOptions c) (sortedKeys (cert_CriticalOptions c)))).
  pose proof (zlen_nonneg (enc_tuples (cert_Extensions c) (sortedKeys (cert_Extensions c)))).
  pose proof (zlen_nonneg (cert_Reserved c)). pose proof (zlen_nonneg skp). pose proof (zlen_nonneg (sigBytes c)).
  split_and!; [lia..|]. unfold zlen in *. lia.
Qed.

Lemma sigBytes_parse c : is_Some (cert_Signature c) -> zlen (sigBytes c) < 2 ^ 32 ->
  exists sig, cert_Signature c = Some sig /\ parseSignatureBody (sigBytes c) = Some (sig, []).
Proof.
  intros [[f b] Hs] Hl. exists (mk_Signature f b). split; [done|]. unfold sigBytes in *. rewrite Hs in *.
  cbn [Signature_Format Signature_Blob] in *. unfold parseSignatureBody. rewrite parseString_enc by done.
  apply zlen_lt_app_r in Hl. pose proof (parseString_enc b []) as Hb. rewrite app_nil_r in Hb. by rewrite Hb.
Qed.

(** Reading a certificate, given that its authority's key is read. *)
Lemma parseCert_enc n c sk skp algo body :
  key_wf (certPublicKey c) -> cert_SignatureKey c = Some sk -> parsePublicKey (S n) skp = Ret sk ->
  (forall n rest, zlen (body ++ rest) < 2 ^ 32 -> parsePubKey (S n) (body ++ rest) algo = Ret (cert_Key c, rest)) ->
  zlen (enc_str (cert_Nonce c) ++ body ++ enc_generic c skp (sigBytes c)) < 2 ^ 32 ->
  parseCert (S (S n)) (enc_str (cert_Nonce c) ++ body ++ enc_generic c skp (sigBytes c)) algo = Ret c.
Proof.
  intros Hwf Hsk Hp Hkey Hl. remember (S n) as m eqn:Em. cbn [parseCert]. rewrite parseString_enc by done.
  apply zlen_lt_app_r in Hl. subst m. rewrite Hkey by done. cbn [obind].
  apply zlen_lt_app_r in Hl. destruct (generic_roundtrip c skp Hwf Hl) as (-> & Hps & Hco & Hex & Hsig & _).
  cbn [obind]. rewrite parsePrincipals_enc by done. cbn [obind].
  destruct (parseTuples_marshal _ Hco) as [_ ->]. cbn [obind].
  destruct (parseTuples_marshal _ Hex) as [_ ->]. cbn [obind]. rewrite Hp. cbn [obind].
  destruct Hwf as (_ & _ & _ & _ & _ & Hs & _). destruct (sigBytes_parse c Hs Hsig) as (sig & Hsg & ->).
  f_equal. destruct c. cbn in *. congruence.
Qed.

(** A well-formed key has an encoding. *)
Lemma key_Marshal_total k : key_wf k -> exists p, pub_Marshal k = Ret p.
Proof.
  induction k as [E N|P Q G Y|c X Y|key|c _ IHs] using PublicKey_cert_ind; intros Hwf;
    try by destruct (plain_roundtrip _ Hwf) as (? & ? & ? & _ & ? & _); eauto.
  destruct Hwf as (Hk & _ & _ & _ & _ & _ & Hs).
  destruct (cert_SignatureKey c) as [sk|] eqn:Hsk; [|done]. destruct (IHs sk eq_refl Hs) as [skp Hskp].
  destruct (plain_roundtrip _ Hk) as (algo & body & cert & Ht & Hm & Hc & _).
  marshal_key. cbn [pub_Type]. rewrite marshalStringList_enc. cbn [obind]. unfold marshalTuples.
  rewrite !marshalKeys_enc, Hsk, Hskp. cbn [obind].
  assert (Hsig : exists sb, match cert_Signature c with Some s => Marshal s | None => Ret [] end = Ret sb).
  { destruct (cert_Signature c); [rewrite Signature_Marshal_enc|]; by eexists. }
  destruct Hsig as [sb ->]. cbn [obind]. rewrite (marshalStruct_value _ []) by done. cbn [obind].
  rewrite Hm, Ht. cbn [obind]. rewrite Hc. cbn [obind].
  rewrite (marshalStruct_value certPrefix_struct []) by done. by eexists.
Qed.

(** Fuel in proportion to the length suffices to read a key back. *)
Lemma parsePublicKey_enc k p n :
  key_wf k -> key_fits k -> pub_Marshal k = Ret p -> zlen p < 2 ^ 32 -> (3 * length p + 5 <= n)%nat ->
  parsePublicKey n p = Ret k.
Proof.
  revert p n. induction k as [E N|P Q G Y|c X Y|key|c _ IHs] using PublicKey_cert_ind; intros p n Hwf Hf Hp Hl Hn.
  5: { destruct (cert_SignatureKey c) as [sk|] eqn:Hsk; [|by destruct Hwf as (_ & _ & _ & _ & _ & _ & Hs); rewrite Hsk in Hs].
    assert (Hwf' := Hwf). destruct Hwf' as (Hk & _ & _ & _ & _ & _ & Hs). rewrite Hsk in Hs.
    destruct Hf as [Hkf Hsf]. rewrite Hsk in Hsf.
    destruct (key_Marshal_total sk Hs) as [skp Hskp].
    destruct (plain_roundtrip _ Hk) as (algo & body & cert & Ht & Hm & Hc & _ & _ & Hparse & Hcert).
    rewrite (cert_Marshal_enc c sk skp algo body cert) in Hp by eauto. apply Ret_inj in Hp as <-.
    destruct n as [|[|[|[|n]]]]; [lia..|]. remember (S (S (S n))) as m eqn:Em. cbn [parsePublicKey].
    rewrite parseString_enc by done. apply zlen_lt_app_r in Hl. subst m. rewrite Hcert.
    assert (Hg := Hl). do 2 apply zlen_lt_app_r in Hg. destruct (generic_roundtrip c skp Hwf Hg) as (_ & _ & _ & _ & _ & Hlen).
    rewrite (parseCert_enc n c sk skp algo body); [done | done | done | | done | done].
    apply (IHs sk eq_refl skp); [done | done | done | | rewrite !length_app in Hn; rewrite length_enc_str in Hn; lia].
    unfold zlen in *. lia. }
  all: destruct (plain_roundtrip _ Hwf) as (algo & body & cert & Ht & Hm & _ & _ & _ & Hparse & _);
    rewrite Hm in Hp; apply Ret_inj in Hp as <-; destruct n as [|[|n]]; [lia..|]; remember (S n) as m eqn:Em;
    cbn [parsePublicKey]; rewrite parseString_enc by done; apply zlen_lt_app_r in Hl; subst m;
    specialize (Hparse n []); rewrite app_nil_r in Hparse; by rewrite Hparse.
Qed.

(** ** The parser *)

Lemma certToPrivAlgo_plain algo : isCertAlgo algo = true ->
  exists privAlgo, certToPrivAlgo algo = Ret privAlgo /\ isCertAlgo privAlgo = false.
Proof.
  unfold isCertAlgo. rewrite existsb_exists. intros ([p a] & Hin & Ha%bool_decide_eq_true). cbn in Ha. subst a.
  repeat (destruct Hin as [[= <- <-]|Hin]; [eexists; split; [reflexivity | done]|]). done.
Qed.

Lemma parsePubKey_cert n i algo : isCertAlgo algo = true ->
  parsePubKey (S n) i algo =
    let? privAlgo := certToPrivAlgo algo in let? c := parseCert n i privAlgo in Ret (certPublicKey c, []).
Proof.
  unfold isCertAlgo at 1. rewrite existsb_exists. intros ([p a] & Hin & Ha%bool_decide_eq_true). cbn in Ha. subst a.
  repeat (destruct Hin as [[= <- <-]|Hin]; [reflexivity|]). done.
Qed.

Lemma parseRSA_sound i k rest : parseRSA i = Ret (k, rest) -> plain_wf k /\ (length rest <= length i)%nat.
Proof.
  unfold parseRSA. intros Hp. apply obind_ret in Hp as ((E & N & r & []) & Hu & Hp).
  apply Unmarshal_sound in Hu as [_ Hs]. cbn in Hs. destruct (24 <? bitLen E) eqn:Eb; [done|].
  destruct ((i64 E <? 3) || (Z.land (i64 E) 1 =? 0)) eqn:Ee; [done|]. simplify_eq.
  rewrite odd_land in Ee. b2p. split; [|lia]. cbn [plain_wf]. split; [|done]. split; [lia|].
  unfold bitLen in Eb. destruct (E =? 0) eqn:E0; b2p; [by subst E|].
  assert (Z.abs E < 2 ^ 24) by (apply Z.log2_lt_pow2; lia). unfold i64. rewrite Z.mod_small; lia.
Qed.

Lemma parseDSA_sound i k rest : parseDSA i = Ret (k, rest) -> plain_wf k /\ (length rest <= length i)%nat.
Proof.
  unfold parseDSA. intros Hp. apply obind_ret in Hp as ((P & Q & G & Y & r & []) & Hu & Hp).
  apply Unmarshal_sound in Hu as [_ Hs]. cbn in Hs. simplify_eq. split; [done | lia].
Qed.

Lemma parseED25519_sound i k rest : parseED25519 i = Ret (k, rest) -> plain_wf k /\ (length rest <= length i)%nat.
Proof.
  unfold parseED25519. intros Hp. apply obind_ret in Hp as ((key & r & []) & Hu & Hp).
  apply Unmarshal_sound in Hu as [_ Hs]. cbn in Hs. simplify_eq. split; [done | lia].
Qed.

Lemma curveNamed_supported name c : curveNamed name = Some c -> c <> P224.
Proof. unfold curveNamed. repeat case_bool_decide; intros; by simplify_eq. Qed.

Lemma parseECDSA_sound `{!LawfulKeyLib} i k rest :
  parseECDSA i = Ret (k, rest) -> plain_wf k /\ (length rest <= length i)%nat.
Proof.
  unfold parseECDSA. intros Hp. apply obind_ret in Hp as ((Curve & kb & r & []) & Hu & Hp).
  apply Unmarshal_sound in Hu as [_ Hs]. cbn in Hs. destruct (curveNamed Curve) as [c|] eqn:Ec; [|done].
  destruct (elliptic_Unmarshal c kb) as [[X Y]|] eqn:Ex; [|done]. simplify_eq. split; [|lia].
  split; [by eapply curveNamed_supported | by eapply elliptic_decode_encode].
Qed.

Lemma parse_not_panic i :
  panics (parseRSA i) = false /\ panics (parseDSA i) = false /\ panics (parseECDSA i) = false /\
  panics (parseED25519 i) = false.
Proof.
  split_and!; (apply obind_not_panic; [apply Unmarshal_not_panic; discriminate|]).
  - intros (E & N & r & []) _. cbv beta iota zeta. destruct (24 <? bitLen E); [done|]. by destruct ((i64 E <? 3) || _).
  - by intros (P & Q & G & Y & r & []) _.
  - intros (Curve & kb & r & []) _. cbv beta iota. destruct (curveNamed Curve) as [c|]; [|done].
    by destruct (elliptic_Unmarshal c kb) as [[]|].
  - by intros (key & r & []) _.
Qed.

(** What a plain key's parser returns, by the name of the algorithm. *)
Lemma parsePubKey_plain `{!LawfulKeyLib} n i algo k rest :
  isCertAlgo algo = false -> parsePubKey n i algo = Ret (k, rest) -> plain_wf k /\ (length rest <= length i)%nat.
Proof.
  intros Ha Hp. destruct n as [|n]; [done|]. cbn [parsePubKey] in Hp. rewrite Ha in Hp.
  repeat case_bool_decide; try done;
    eauto using parseRSA_sound, parseDSA_sound, parseECDSA_sound, parseED25519_sound.
Qed.

Lemma parse_wf `{!LawfulKeyLib} n :
  (forall i algo k rest, parsePubKey n i algo = Ret (k, rest) -> key_wf k) /\
  (forall i privAlgo c, isCertAlgo privAlgo = false -> parseCert n i privAlgo = Ret c -> key_wf (certPublicKey c)) /\
  (forall i k, parsePublicKey n i = Ret k -> key_wf k).
Proof.
  induction n as [|n (IHp & IHc & IHk)]; [done|]. split_and!.
  - intros i algo k rest Hp. destruct (isCertAlgo algo) eqn:Ea.
    + rewrite (parsePubKey_cert n i algo Ea) in Hp. destruct (certToPrivAlgo_plain algo Ea) as (pa & Hpa & Hplain).
      rewrite Hpa in Hp. cbn [obind] in Hp. apply obind_ret in Hp as (c & Hc & Hp). simplify_eq. eauto.
    + destruct (parsePubKey_plain _ _ _ _ _ Ea Hp) as [Hw _]. by destruct k.
  - intros i privAlgo c Ha Hp. cbn [parseCert] in Hp. destruct (parseString i) as [[nonce rest]|]; [|done].
    apply obind_ret in Hp as ([key r] & Hkey & Hp). apply parsePubKey_plain in Hkey as [Hkey _]; [|done].
    apply obind_ret in Hp as ((se & ct & id & ps & va & vb & co & ex & re & sk & sg & []) & Hu & Hp).
    apply Unmarshal_sound in Hu as [(? & ? & _ & _ & ? & ? & _) _].
    do 4 apply obind_ret in Hp as (? & ? & Hp). destruct (parseSignatureBody sg) as [[sig [|]]|]; [|done..].
    simplify_eq. cbn. eauto 10 using IHk.
  - intros i k Hp. cbn [parsePublicKey] in Hp. destruct (parseString i) as [[algo r]|]; [|done].
    apply obind_ret in Hp as ([k' r'] & Hk & Hp). destruct (0 <? zlen r'); [done|]. simplify_eq. eauto.
Qed.

(** *** The fuel *)

Lemma parsePrincipals_not_panic fuel i : (length i <= fuel)%nat -> panics (parsePrincipals fuel i) = false.
Proof.
  revert i. induction fuel as [|fuel IH]; intros [|b i] Hf; simpl in Hf; try done; [lia|].
  cbn [parsePrincipals]. destruct (parseString (b :: i)) as [[s r]|] eqn:E; [|done].
  apply parseString_sound in E as [E _]. apply (f_equal length) in E. rewrite !length_app, be_encode_length in E. simpl in E.
  apply obind_not_panic; [apply IH; lia | done].
Qed.

Lemma parseTuplesLoop_not_panic fuel i last acc :
  (length i <= fuel)%nat -> panics (parseTuplesLoop fuel i last acc) = false.
Proof.
  revert i last acc. induction fuel as [|fuel IH]; intros [|b i] last acc Hf; simpl in Hf; try done; [lia|].
  cbn [parseTuplesLoop]. destruct (parseString (b :: i)) as [[k r]|] eqn:E; [|done].
  apply parseString_sound in E as [E _]. apply (f_equal length) in E. rewrite !length_app, be_encode_length in E. simpl in E.
  destruct (match last with Some l => _ | None => _ end); [done|].
  destruct (parseString r) as [[v r']|] eqn:E'; [|done].
  apply parseString_sound in E' as [-> _]. rewrite !length_app in E.
  apply obind_not_panic; [|intros v' _; apply IH; lia].
  unfold parseTupleValue. destruct (0 <? zlen v); [|done]. destruct (parseString v) as [[? x]|]; [|done].
  by destruct (0 <? zlen x).
Qed.

Lemma parse_fuel `{!LawfulKeyLib} n :
  (forall i algo, (3 * length i + 3 <= n)%nat -> panics (parsePubKey n i algo) = false) /\
  (forall i privAlgo, isCertAlgo privAlgo = false -> (3 * length i + 2 <= n)%nat ->
     panics (parseCert n i privAlgo) = false) /\
  (forall i, (3 * length i + 4 <= n)%nat -> panics (parsePublicKey n i) = false).
Proof.
  induction n as [|n (IHp & IHc & IHk)]; [split_and!; intros; lia|]. split_and!.
  - intros i algo Hn. destruct (isCertAlgo algo) eqn:Ea.
    + rewrite (parsePubKey_cert n i algo Ea). destruct (certToPrivAlgo_plain algo Ea) as (pa & -> & Hplain).
      cbn [obind]. apply obind_not_panic; [apply IHc; [done|lia] | done].
    + cbn [parsePubKey]. rewrite Ea. repeat case_bool_decide; try done; apply parse_not_panic.
  - intros i privAlgo Ha Hn. cbn [parseCert]. destruct (parseString i) as [[nonce rest]|] eqn:E; [|done].
    apply parseString_sound in E as [-> _]. rewrite !length_app, be_encode_length in Hn.
    apply obind_not_panic; [apply IHp; lia|]. intros [key r] Hkey. apply parsePubKey_plain in Hkey as [_ Hr]; [|done].
    apply obind_not_panic; [apply Unmarshal_not_panic; discriminate|].
    intros (se & ct & id & ps & va & vb & co & ex & re & sk & sg & []) Hu.
    apply Unmarshal_sound in Hu as [_ Hs]. cbn in Hs.
    apply obind_not_panic; [by apply parsePrincipals_not_panic|]. intros principals _.
    apply obind_not_panic; [by apply parseTuplesLoop_not_panic|]. intros options _.
    apply obind_not_panic; [by apply parseTuplesLoop_not_panic|]. intros extensions _.
    apply obind_not_panic; [apply IHk; lia|]. intros k _. by destruct (parseSignatureBody sg) as [[? []]|].
  - intros i Hn. cbn [parsePublicKey]. destruct (parseString i) as [[algo r]|] eqn:E; [|done].
    apply parseString_sound in E as [-> _]. rewrite !length_app, be_encode_length in Hn.
    apply obind_not_panic; [apply IHp; lia|]. intros [k r'] _. by destruct (0 <? zlen r').
Qed.
End Facts.

(** ** A small library for examples

    Points are pairs of 66-byte numbers, hashes keep the data, a signature is
    the digest. *)

Definition toyRS (sig : bytes) : outcome (Z * Z) :=
  if zlen sig =? 40 then Ret (be_decode (ztake 20 sig), be_decode (zdrop 20 sig)) else Fail (errNew "asn1").

Definition toyKeyLib : KeyLib := {|
  hashSum _ data := ztake 20 (data ++ repeat "000"%byte 20);
  elliptic_Marshal _ X Y := be_encode 66 X ++ be_encode 66 Y;
  elliptic_Unmarshal _ b :=
    if zlen b =? 132 then Some (be_decode (ztake 66 b), be_decode (zdrop 66 b)) else None;
  rsa_VerifyPKCS1v15 _ _ _ digest sig := if bool_decide (sig = digest) then None else Some errVerify;
  dsa_Verify _ digest r s := (r =? be_decode digest mod 2 ^ 160) && (s =? 7);
  dsa_Sign _ _ _ digest := Ret (be_decode digest mod 2 ^ 160, 7);
  ecdsa_Verify _ _ _ digest r s := (r =? be_decode digest mod 2 ^ 160) && (s =? 7);
  ed25519_Verify key data sig :=
    if zlen key =? 32 then Ret (bool_decide (sig = data)) else Panic "ed25519: bad public key length";
  asn1_Unmarshal_RS := toyRS
|}.

Lemma toyKeyLib_lawful : @LawfulKeyLib toyKeyLib.
Proof.
  split; cbn [elliptic_Unmarshal elliptic_Marshal toyKeyLib ed25519_Verify].
  - intros _ b x y. destruct (zlen b =? 132) eqn:E; [|done]. b2p. intros [= <- <-].
    assert (Hx : 0 <= be_decode (ztake 66 b) < 256 ^ 66) by (apply (be_decode_width 66); lia).
    assert (Hy : 0 <= be_decode (zdrop 66 b) < 256 ^ 66).
    { pose proof (be_decode_range (zdrop 66 b)) as Hr. rewrite zlen_zdrop, E in Hr by lia. exact Hr. }
    rewrite zlen_app, !zlen_be_encode. change (_ =? 132) with true.
    rewrite ztake_app, zdrop_app by (rewrite zlen_be_encode; lia). by rewrite !be_decode_encode_small.
  - intros key data sig. by destruct (zlen key =? 32).
Qed.

(** ** Properties *)

(** C15: a public key is read back from its encoding: RSA, DSA, ECDSA and ed25519
    keys and certificates, whose authority may again be a certificate, with
    their principals, options, extensions and signature. *)
Theorem publickey_roundtrip `{KeyLib} (k : PublicKey) (p : bytes) :
  key_wf k -> key_fits k -> pub_Marshal k = Ret p -> zlen p < 2 ^ 32 -> ParsePublicKey p = Ret k.
Proof. intros. by apply parsePublicKey_enc. Qed.

(** An RSA certificate with two principals and an option, signed by an ed25519
    key. *)
Definition sampleCert : Certificate :=
  mkCertificate (str "nonce") (rsaPublicKey 65537 3233) 7 HostCert (str "id") [str "host1"; str "host2"] 100 200
    {[ str "force-command" := str "ls"; str "source-address" := [] ]} {[ str "permit-pty" := [] ]} []
    (Some (ed25519PublicKey (repeat "001"%byte 32))) (Some (mk_Signature KeyAlgoED25519 (str "sig"))).

Lemma publickey_roundtrip_witness :
  exists p, @pub_Marshal toyKeyLib (certPublicKey sampleCert) = Ret p /\
    @ParsePublicKey toyKeyLib p = Ret (certPublicKey sampleCert).
Proof.
  destruct (@pub_Marshal toyKeyLib (certPublicKey sampleCert)) as [p| |] eqn:E; [|vm_compute in E; discriminate..].
  exists p. split; [done|]. apply (@publickey_roundtrip toyKeyLib).
  - repeat split; try done; by eexists.
  - split; [|exact I]. intros q Hq. vm_compute in Hq. injection Hq as <-. vm_compute. done.
  - exact E.
  - vm_compute in E. injection E as <-. vm_compute. done.
Defined.

(** C24: parsing a public key always ends with a key or an error, whatever the
    input (certificates inside certificates included): it does not panic and
    does not run out of fuel; and a key that it returns is well formed: an odd
    RSA exponent from 3 to 2^24, a point of a supported curve, a certificate of
    a key that is no certificate, with authority, signature and its numbers in
    range. *)
Theorem parse_publickey_sound `{LawfulKeyLib} (i : bytes) :
  panics (ParsePublicKey i) = false /\ forall k, ParsePublicKey i = Ret k -> key_wf k.
Proof.
  split.
  - apply parse_fuel. unfold parseFuel. lia.
  - intros k. apply parse_wf.
Qed.

Lemma parse_publickey_sound_witness :
  exists k, @ParsePublicKey toyKeyLib (enc_str KeyAlgoRSA ++ enc_int 3 ++ enc_int 15) = Ret k /\ @key_wf toyKeyLib k.
Proof.
  exists (rsaPublicKey 3 15). split; [by vm_compute|].
  apply (@parse_publickey_sound toyKeyLib toyKeyLib_lawful (enc_str KeyAlgoRSA ++ enc_int 3 ++ enc_int 15)).
  by vm_compute.
Defined.

(** an ed25519 key of any length is accepted by the parser, and verifying
    any signature of the ed25519 format with a key that has not 32 bytes panics:
    a client that offers such a key for authentication, which the server
    verifies whatever its callback said, crashes it. *)
Theorem ed25519_key_length_unchecked `{LawfulKeyLib} (key data blob : bytes) :
  zlen key <> 32 -> zlen key < 2 ^ 31 ->
  ParsePublicKey (enc_str KeyAlgoED25519 ++ enc_str key) = Ret (ed25519PublicKey key) /\
  panics (pub_Verify (ed25519PublicKey key) data (mk_Signature KeyAlgoED25519 blob)) = true.
Proof.
  intros Hk Hl. split.
  - apply parsePublicKey_enc; [done|done| |rewrite zlen_app, !zlen_enc_str; change (zlen KeyAlgoED25519) with 11; lia|].
    + marshal_key. rewrite (marshalStruct_value _ []) by done. cbn -[be_encode]. by rewrite !app_nil_r.
    + unfold parseFuel. lia.
  - verify_key. change (checkFormat _ _) with (Ret tt). cbn [obind Signature_Blob].
    pose proof (ed25519_Verify_length key data blob) as Hp. replace (zlen key =? 32) with false in Hp by lia.
    by destruct (ed25519_Verify key data blob).
Qed.

Lemma ed25519_key_length_unchecked_witness :
  @ParsePublicKey toyKeyLib (enc_str KeyAlgoED25519 ++ enc_str (str "short")) = Ret (ed25519PublicKey (str "short")) /\
  panics (@pub_Verify toyKeyLib (ed25519PublicKey (str "short")) (str "data") (mk_Signature KeyAlgoED25519 (str "sig"))) = true.
Proof. by apply (@ed25519_key_length_unchecked toyKeyLib toyKeyLib_lawful). Defined.
