(* ===== verification/Signers.v ===== *)
(** * Signers and private keys (keys.go, certs.go)

    [NewPublicKey], the signers and their signatures, the parsers of private
    key files, and the fingerprints.  Signing, PEM and X.509 come from other
    packages and are the class [SignLib]; a [crypto.Signer] is its public key
    and its signing function. *)

From S2P Require Import Prelude Text Wire Codec Negotiate Kex Keys.

(** ** Keys of the Go packages *)

(** What [Public] of a [crypto.Signer] may return. *)
Inductive cryptoPublicKey :=
| CryptoRSA (E N : Z)
| CryptoECDSA (c : ellipticCurve) (X Y : Z)
| CryptoDSA (P Q G Y : Z)
| CryptoEd25519 (key : bytes)
| CryptoOther.

Record cryptoSigner := mkCryptoSigner {
  cs_Public : outcome cryptoPublicKey;
  cs_Sign : bytes -> bytes -> option cryptoHash -> outcome bytes
}.

(** The dynamic types of a private key: pointers to the keys of the packages
    rsa, dsa, ecdsa and ed25519, any other [crypto.Signer], anything else. *)
Inductive privateKey :=
| rsaPrivateKey (E N D : Z) (Primes : list Z)
| dsaPrivateKey (P Q G Y X : Z)
| ecdsaPrivateKey (c : ellipticCurve) (X Y D : Z)
| ed25519PrivateKey (key : bytes)
| otherSigner (s : cryptoSigner)
| unsupportedKey.

(** A PEM block; the bytes between the length and the capacity of its contents
    count when a slice is cut beyond its length. *)
Record pemBlock := mkPemBlock {
  pem_Type : bytes;
  pem_Headers : gmap bytes bytes;
  pem_Bytes : bytes;
  pem_Spare : bytes
}.

Class SignLib := {
  rsa_Sign : Z -> Z -> Z -> list Z -> bytes -> bytes -> option cryptoHash -> outcome bytes;
  ecdsa_Sign : ellipticCurve -> Z -> Z -> Z -> bytes -> bytes -> option cryptoHash -> outcome bytes;
  ed25519_Sign : bytes -> bytes -> bytes -> option cryptoHash -> outcome bytes;
  ed25519_Public : bytes -> outcome bytes;
  rsa_Validate : Z -> Z -> Z -> list Z -> option error;
  pem_Decode : bytes -> option pemBlock;
  x509_IsEncryptedPEMBlock : pemBlock -> bool;
  x509_DecryptPEMBlock : pemBlock -> bytes -> outcome (bytes * bytes);
  x509_IncorrectPasswordError : error;
  x509_ParsePKCS1PrivateKey : bytes -> outcome privateKey;
  x509_ParseECPrivateKey : bytes -> outcome privateKey;
  asn1_UnmarshalDSA : bytes -> outcome (Z * Z * Z * Z * Z * Z * bytes)
}.

(** ** Public keys and signers *)

Definition supportedEllipticCurve (c : ellipticCurve) : bool :=
  bool_decide (c = P256) || bool_decide (c = P384) || bool_decide (c = P521).

Definition NewPublicKey (key : cryptoPublicKey) : outcome PublicKey :=
  match key with
  | CryptoRSA E N => Ret (rsaPublicKey E N)
  | CryptoECDSA c X Y =>
      if negb (supportedEllipticCurve c) then
        Fail (errNew "ssh: only P-256, P-384 and P-521 EC keys are supported.")
      else Ret (ecdsaPublicKey c X Y)
  | CryptoDSA P Q G Y => Ret (dsaPublicKey P Q G Y)
  | CryptoEd25519 key => Ret (ed25519PublicKey key)
  | CryptoOther => Fail (errNew "ssh: unsupported key type %T")
  end.

(** The implementations of [Signer] in the package. *)
Inductive signer :=
| wrappedSigner (s : cryptoSigner) (pubKey : PublicKey)
| dsaSigner (P Q G Y X : Z)
| openSSHCertSigner (pub : Certificate) (s : signer).

Definition signer_PublicKey (s : signer) : PublicKey :=
  match s with
  | wrappedSigner _ pubKey => pubKey
  | dsaSigner P Q G Y _ => dsaPublicKey P Q G Y
  | openSSHCertSigner pub _ => certPublicKey pub
  end.

Definition NewSignerFromSigner (s : cryptoSigner) : outcome signer :=
  let? public := cs_Public s in
  let? pubKey := NewPublicKey public in
  Ret (wrappedSigner s pubKey).

(** The two copies of an integer into a blob of 40 bytes: the first must fit
    its half, the second may run over the first. *)
Definition dsaBlob (r s : Z) : outcome bytes :=
  let rb := bigBytes r in
  let sb := bigBytes s in
  if 20 <? zlen rb then Panic "slice bounds out of range"
  else
    let sig := repeat "000"%byte (Z.to_nat (20 - zlen rb)) ++ rb ++ repeat "000"%byte 20 in
    if 40 <? zlen sb then Panic "slice bounds out of range"
    else Ret (ztake (40 - zlen sb) sig ++ sb).

(** The hash of a key type; [None] for ed25519, which signs the data itself. *)
Definition signHash (pubKey : PublicKey) : outcome (option cryptoHash) :=
  match pubKey with
  | rsaPublicKey _ _ | dsaPublicKey _ _ _ _ => Ret (Some SHA1)
  | ecdsaPublicKey c _ _ => Ret (Some (ecHash c))
  | ed25519PublicKey _ => Ret None
  | certPublicKey _ => Fail (errNew "ssh: unsupported key type %T")
  end.

Section Signing.
Context `{KeyLib, SignLib}.

(** A key of the packages as a [crypto.Signer]. *)
Definition asCryptoSigner (k : privateKey) : option cryptoSigner :=
  match k with
  | rsaPrivateKey E N D primes => Some (mkCryptoSigner (Ret (CryptoRSA E N)) (rsa_Sign E N D primes))
  | ecdsaPrivateKey c X Y D => Some (mkCryptoSigner (Ret (CryptoECDSA c X Y)) (ecdsa_Sign c X Y D))
  | ed25519PrivateKey key =>
      Some (mkCryptoSigner (let? pub := ed25519_Public key in Ret (CryptoEd25519 pub)) (ed25519_Sign key))
  | otherSigner s => Some s
  | dsaPrivateKey _ _ _ _ _ | unsupportedKey => None
  end.

Definition NewSignerFromKey (key : privateKey) : outcome signer :=
  match asCryptoSigner key with
  | Some s => NewSignerFromSigner s
  | None =>
      match key with
      | dsaPrivateKey P Q G Y X => Ret (dsaSigner P Q G Y X)
      | _ => Fail (errNew "ssh: unsupported key type %T")
      end
  end.

Definition NewCertSigner (cert : Certificate) (s : signer) : outcome signer :=
  let? a := pub_Marshal (cert_Key cert) in
  let? b := pub_Marshal (signer_PublicKey s) in
  if bool_decide (a = b) then Ret (openSSHCertSigner cert s)
  else Fail (errNew "ssh: signer and cert have different public key").

Definition wrapped_Sign (s : cryptoSigner) (pubKey : PublicKey) (rand data : bytes) : outcome Signature :=
  let? hashFunc := signHash pubKey in
  let digest := match hashFunc with Some h => hashSum h data | None => data end in
  let? signature := cs_Sign s rand digest hashFunc in
  let? signature :=
    match pubKey with
    | ecdsaPublicKey _ _ _ =>
        let? (r, s) := asn1_Unmarshal_RS signature in
        marshalStruct [] ecSig_struct (r, (s, tt))
    | dsaPublicKey _ _ _ _ =>
        let? (r, s) := asn1_Unmarshal_RS signature in
        dsaBlob r s
    | _ => Ret signature
    end in
  let? t := pub_Type pubKey in
  Ret (mk_Signature t signature).

Definition dsaPrivateKey_Sign (P Q G Y X : Z) (rand data : bytes) : outcome Signature :=
  let? (r, s) := dsa_Sign rand (P, Q, G, Y) X (hashSum SHA1 data) in
  let? sig := dsaBlob r s in
  let? t := pub_Type (dsaPublicKey P Q G Y) in
  Ret (mk_Signature t sig).

Fixpoint signer_Sign (s : signer) (rand data : bytes) : outcome Signature :=
  match s with
  | wrappedSigner cs pubKey => wrapped_Sign cs pubKey rand data
  | dsaSigner P Q G Y X => dsaPrivateKey_Sign P Q G Y X rand data
  | openSSHCertSigner _ s => signer_Sign s rand data
  end.

(** ** Private key files *)

Definition encryptedBlock (block : pemBlock) : bool :=
  contains (str "ENCRYPTED") (default [] (pem_Headers block !! str "Proc-Type")).

Definition ParseDSAPrivateKey (der : bytes) : outcome privateKey :=
  match asn1_UnmarshalDSA der with
  | Ret (_, P, Q, G, Pub, Priv, rest) =>
      if 0 <? zlen rest then Fail (errNew "ssh: garbage after DSA key")
      else Ret (dsaPrivateKey P Q G Pub Priv)
  | Fail _ => Fail (errNew "ssh: failed to parse DSA key: ")
  | Panic w => Panic w
  end.

Definition opensshMagic : bytes := str "openssh-key-v1" ++ ["000"%byte].

Definition opensshKey_struct : structType :=
  StructType "" "" [("CipherName", KString); ("KdfName", KString); ("KdfOpts", KString); ("NumKeys", KUint32);
    ("PubKey", KBytes false); ("PrivKeyBlock", KBytes false)].
Definition opensshBlock_struct : structType :=
  StructType "" "" [("Check1", KUint32); ("Check2", KUint32); ("Keytype", KString); ("Rest", KBytes true)].
Definition opensshRSA_struct : structType :=
  StructType "" "" [("N", KBigInt); ("E", KBigInt); ("D", KBigInt); ("Iqmp", KBigInt); ("P", KBigInt);
    ("Q", KBigInt); ("Comment", KString); ("Pad", KBytes true)].
Definition opensshEd25519_struct : structType :=
  StructType "" "" [("Pub", KBytes false); ("Priv", KBytes false); ("Comment", KString); ("Pad", KBytes true)].

Fixpoint padOk (i : Z) (pad : bytes) : bool :=
  match pad with
  | [] => true
  | b :: pad' => (b2z b =? i + 1) && padOk (i + 1) pad'
  end.

Definition errPadding : error := errNew "ssh: padding not as expected".

(** The private part, by key type. *)
Definition parseOpenSSHKeyData (keytype rest : bytes) : outcome privateKey :=
  if bool_decide (keytype = KeyAlgoRSA) then
    let? (N, (E, (D, (_, (P, (Q, (_, (Pad, _)))))))) := Unmarshal opensshRSA_struct rest in
    if negb (padOk 0 Pad) then Fail errPadding
    else
      let e := i64 E in
      match rsa_Validate e N D [P; Q] with
      | Some err => Fail err
      | None => Ret (rsaPrivateKey e N D [P; Q])
      end
  else if bool_decide (keytype = KeyAlgoED25519) then
    let? (_, (Priv, (_, (Pad, _)))) := Unmarshal opensshEd25519_struct rest in
    if negb (zlen Priv =? 64) then Fail (errNew "ssh: private key unexpected length")
    else if negb (padOk 0 Pad) then Fail errPadding
    else Ret (ed25519PrivateKey Priv)
  else Fail (errNew "ssh: unhandled key type").

(** [key[0:len(magic)]] may reach into the capacity, [key[len(magic):]] not. *)
Definition parseOpenSSHPrivateKey (key spare : bytes) : outcome privateKey :=
  if zlen (key ++ spare) <? zlen opensshMagic then Panic "slice bounds out of range"
  else if negb (bool_decide (ztake (zlen opensshMagic) (key ++ spare) = opensshMagic)) then
    Fail (errNew "ssh: invalid openssh private key format")
  else if zlen key <? zlen opensshMagic then Panic "slice bounds out of range"
  else
    let? (CipherName, (KdfName, (_, (_, (_, (PrivKeyBlock, _)))))) :=
      Unmarshal opensshKey_struct (zdrop (zlen opensshMagic) key) in
    if negb (bool_decide (KdfName = str "none" /\ CipherName = str "none")) then
      Fail (errNew "ssh: cannot decode encrypted private keys")
    else
      let? (Check1, (Check2, (Keytype, (Rest, _)))) := Unmarshal opensshBlock_struct PrivKeyBlock in
      if negb (Check1 =? Check2) then Fail (errNew "ssh: checkint mismatch")
      else parseOpenSSHKeyData Keytype Rest.

(** The [switch] on the block's type. *)
Definition parseBlock (typ buf spare : bytes) : outcome privateKey :=
  if bool_decide (typ = str "RSA PRIVATE KEY") then x509_ParsePKCS1PrivateKey buf
  else if bool_decide (typ = str "EC PRIVATE KEY") then x509_ParseECPrivateKey buf
  else if bool_decide (typ = str "DSA PRIVATE KEY") then ParseDSAPrivateKey buf
  else if bool_decide (typ = str "OPENSSH PRIVATE KEY") then parseOpenSSHPrivateKey buf spare
  else Fail (Errorf "ssh: unsupported key type %q" [FStr typ]).

Definition ParseRawPrivateKey (pemBytes : bytes) : outcome privateKey :=
  match pem_Decode pemBytes with
  | None => Fail (errNew "ssh: no key found")
  | Some block =>
      if encryptedBlock block then Fail (errNew "ssh: cannot decode encrypted private keys")
      else parseBlock (pem_Type block) (pem_Bytes block) (pem_Spare block)
  end.

Definition ParseRawPrivateKeyWithPassphrase (pemBytes passPhrase : bytes) : outcome privateKey :=
  match pem_Decode pemBytes with
  | None => Fail (errNew "ssh: no key found")
  | Some block =>
      let? (buf, spare) :=
        if encryptedBlock block && x509_IsEncryptedPEMBlock block then
          match x509_DecryptPEMBlock block passPhrase with
          | Fail e =>
              if bool_decide (e = x509_IncorrectPasswordError) then Fail e
              else Fail (errNew "ssh: cannot decode encrypted private keys: %v")
          | r => r
          end
        else Ret (pem_Bytes block, pem_Spare block) in
      parseBlock (pem_Type block) buf spare
  end.

Definition ParsePrivateKey (pemBytes : bytes) : outcome signer :=
  let? key := ParseRawPrivateKey pemBytes in
  NewSignerFromKey key.

Definition ParsePrivateKeyWithPassphrase (pemBytes passPhrase : bytes) : outcome signer :=
  let? key := ParseRawPrivateKeyWithPassphrase pemBytes passPhrase in
  NewSignerFromKey key.
End Signing.

(** ** Fingerprints *)

Definition hexDigit (n : Z) : byte := if n <? 10 then z2b (48 + n) else z2b (97 + (n - 10)).

Definition hexByte (b : byte) : bytes := [hexDigit (b2z b / 16); hexDigit (b2z b mod 16)].

Section Fingerprints.
Context `{KeyLib}.

Definition FingerprintLegacyMD5 (pubKey : PublicKey) : outcome bytes :=
  let? m := pub_Marshal pubKey in
  Ret (join_byte colon (map hexByte (hashSum MD5 m))).

Definition FingerprintSHA256 (pubKey : PublicKey) : outcome bytes :=
  let? m := pub_Marshal pubKey in
  Ret (str "SHA256:" ++ b64encode false (hashSum SHA256 m)).
End Fingerprints.
