(* ===== verification/Certs.v ===== *)
(** * Checking and signing certificates (certs.go)

    [CertChecker] with its callbacks ([None] for a nil function, which panics
    when it is called; a nil authority is [None] too), [CheckHostKey], [Authenticate], [CheckCert], and
    [SignCert].  The clock is the Unix time. *)

From S2P Require Import Prelude Text Wire Codec Negotiate Kex Auth Keys Signers.

Record CertChecker := mkCertChecker {
  SupportedCriticalOptions : list bytes;
  IsUserAuthority : option (option PublicKey -> outcome bool);
  IsHostAuthority : option (option PublicKey -> bytes -> outcome bool);
  Clock : option Z;
  UserKeyFallback : option (bytes -> PublicKey -> outcome (option Permissions));
  HostKeyFallback : option (bytes -> bytes -> PublicKey -> outcome unit);
  IsRevoked : option (Certificate -> outcome bool)
}.

(** A call of a function value. *)
Definition callFunc {A} (f : option A) : outcome A :=
  match f with Some g => Ret g | None => Panic "nil function" end.

Definition optionSupported (c : CertChecker) (opt : bytes) : bool :=
  bool_decide (opt = sourceAddressCriticalOption) || bool_decide (opt ∈ SupportedCriticalOptions c).

(** The options in the order of the model's map; Go visits them in any order,
    which only decides which of several unsupported options is reported. *)
Fixpoint checkOptions (c : CertChecker) (opts : list bytes) : outcome unit :=
  match opts with
  | [] => Ret tt
  | opt :: opts' =>
      if optionSupported c opt then checkOptions c opts'
      else Fail (Errorf "ssh: unsupported critical option %q in certificate" [FStr opt])
  end.

Definition checkPrincipal (principal : bytes) (valid : list bytes) : outcome unit :=
  if 0 <? zlen valid then
    if bool_decide (principal ∈ valid) then Ret tt
    else Fail (Errorf "ssh: principal %q not in the set of valid principals for given certificate: %q"
                 [FStr principal; FStrs valid])
  else Ret tt.

(** [unixNow] is what the clock says. *)
Definition checkTime (unixNow : Z) (cert : Certificate) : outcome unit :=
  let after := i64 (cert_ValidAfter cert) in
  if (after <? 0) || (unixNow <? i64 (cert_ValidAfter cert)) then Fail (errNew "ssh: cert is not yet valid")
  else
    let before := i64 (cert_ValidBefore cert) in
    if negb (cert_ValidBefore cert =? CertTimeInfinity) && ((before <=? unixNow) || (before <? 0)) then
      Fail (errNew "ssh: cert has expired")
    else Ret tt.

Section Check.
Context `{KeyLib}.

Definition checkCertSignature (cert : Certificate) : outcome unit :=
  match cert_SignatureKey cert, cert_Signature cert with
  | Some sk, Some sig =>
      let? signed := bytesForSigning cert in
      match pub_Verify sk signed sig with
      | Ret _ => Ret tt
      | Fail _ => Fail (errNew "ssh: certificate signature does not verify")
      | Panic w => Panic w
      end
  | _, _ => Panic "nil pointer dereference"
  end.

(** [now] is [time.Now], for a checker without a clock. *)
Definition CheckCert (now : Z) (c : CertChecker) (principal : bytes) (cert : Certificate) : outcome unit :=
  let? revoked := match IsRevoked c with Some f => f cert | None => Ret false end in
  if revoked : bool then Fail (Errorf "ssh: certicate serial %d revoked" [FNum (cert_Serial cert)])
  else
    let? _ := checkOptions c (map_to_list (cert_CriticalOptions cert)).*1 in
    let? _ := checkPrincipal principal (cert_ValidPrincipals cert) in
    let? _ := checkTime (default now (Clock c)) cert in
    checkCertSignature cert.

(** [remote] is the remote address as text. *)
Definition CheckHostKey (now : Z) (c : CertChecker) (addr remote : bytes) (key : PublicKey) : outcome unit :=
  match key with
  | certPublicKey cert =>
      if negb (cert_CertType cert =? HostCert) then
        Fail (Errorf "ssh: certificate presented as a host key has type %d" [FNum (cert_CertType cert)])
      else
        let? isHostAuthority := callFunc (IsHostAuthority c) in
        let? authority := isHostAuthority (cert_SignatureKey cert) addr in
        if negb authority then Fail (Errorf "ssh: no authorities for hostname: %v" [FStr addr])
        else
          let? (hostname, _) := splitHostPort addr in
          CheckCert now c hostname cert
  | _ =>
      match HostKeyFallback c with
      | Some fallback => fallback addr remote key
      | None => Fail (errNew "ssh: non-certificate host key")
      end
  end.

Definition Authenticate (now : Z) (c : CertChecker) (user : bytes) (pubKey : PublicKey) : outcome (option Permissions) :=
  match pubKey with
  | certPublicKey cert =>
      if negb (cert_CertType cert =? UserCert) then Fail (Errorf "ssh: cert has type %d" [FNum (cert_CertType cert)])
      else
        let? isUserAuthority := callFunc (IsUserAuthority c) in
        let? authority := isUserAuthority (cert_SignatureKey cert) in
        if negb authority then Fail (errNew "ssh: certificate signed by unrecognized authority")
        else
          let? _ := CheckCert now c user cert in
          Ret (Some (mkPermissions (cert_CriticalOptions cert) (cert_Extensions cert)))
  | _ =>
      match UserKeyFallback c with
      | Some fallback => fallback user pubKey
      | None => Fail (errNew "ssh: normal key pairs not accepted")
      end
  end.
End Check.

(** [SignCert] changes the certificate in place, the nonce and the authority
    also when it fails later: the result comes with the certificate after. *)
Definition withNonce (nonce : bytes) (c : Certificate) : Certificate :=
  mkCertificate nonce (cert_Key c) (cert_Serial c) (cert_CertType c) (cert_KeyId c)
    (cert_ValidPrincipals c) (cert_ValidAfter c) (cert_ValidBefore c) (cert_CriticalOptions c)
    (cert_Extensions c) (cert_Reserved c) (cert_SignatureKey c) (cert_Signature c).

Definition withAuthority (k : PublicKey) (c : Certificate) : Certificate :=
  mkCertificate (cert_Nonce c) (cert_Key c) (cert_Serial c) (cert_CertType c) (cert_KeyId c)
    (cert_ValidPrincipals c) (cert_ValidAfter c) (cert_ValidBefore c) (cert_CriticalOptions c)
    (cert_Extensions c) (cert_Reserved c) (Some k) (cert_Signature c).

Definition withSignature (s : Signature) (c : Certificate) : Certificate :=
  mkCertificate (cert_Nonce c) (cert_Key c) (cert_Serial c) (cert_CertType c) (cert_KeyId c)
    (cert_ValidPrincipals c) (cert_ValidAfter c) (cert_ValidBefore c) (cert_CriticalOptions c)
    (cert_Extensions c) (cert_Reserved c) (cert_SignatureKey c) (Some s).

Section Sign.
Context `{KeyLib, SignLib}.

(** [rand] is what the random source delivers. *)
Definition SignCert (rand : bytes) (authority : signer) (c : Certificate) : outcome unit * Certificate :=
  if zlen rand <? 32 then
    (Fail (if zlen rand =? 0 then EOF else ErrUnexpectedEOF),
     withNonce (rand ++ repeat "000"%byte (32 - length rand)) c)
  else
    let c := withNonce (ztake 32 rand) c in
    let c := withAuthority (signer_PublicKey authority) c in
    match (let? signed := bytesForSigning c in signer_Sign authority (zdrop 32 rand) signed) with
    | Ret sig => (Ret tt, withSignature sig c)
    | Fail e => (Fail e, c)
    | Panic w => (Panic w, c)
    end.
End Sign.
