(* ===== verification/CertsFacts.v ===== *)
(** * Signatures and certificates: what is accepted

    Signatures verify under the signer's public key; [CheckCert] accepts exactly
    the certificates that are within their limits and signed; the signature
    covers every field; a certificate made by [SignCert] is accepted, also after
    it went over the wire. *)

From S2P Require Import Prelude Text Wire Codec Negotiate Kex KexFacts Auth Keys KeysFacts Signers Certs.

(** ** The DSA blob *)

Lemma be_decode_zeros n l : be_decode (repeat "000"%byte n ++ l) = be_decode l.
Proof. induction n as [|n IH]; [done|]. exact IH. Qed.

Lemma bigBytes_fits n b : 0 <= n < 2 ^ (8 * b) -> 0 <= b -> zlen (bigBytes n) <= b.
Proof.
  intros Hn Hb. rewrite bigBytes_zlen by lia. unfold bitLen. destruct (n =? 0) eqn:E; b2p; [change ((0 + 7) / 8) with 0; lia|].
  rewrite Z.abs_eq by lia. assert (Z.log2 n < 8 * b) by (apply Z.log2_lt_pow2; lia). dlia.
Qed.

Lemma zlen_repeat {A} (x : A) n : zlen (repeat x n) = Z.of_nat n.
Proof. unfold zlen. by rewrite repeat_length. Qed.

Lemma dsaBlob_parts r s : 0 <= r < 2 ^ 160 -> 0 <= s < 2 ^ 160 ->
  exists blob, dsaBlob r s = Ret blob /\ zlen blob = 40 /\
    be_decode (ztake 20 blob) = r /\ be_decode (zdrop 20 blob) = s.
Proof.
  intros Hr Hs. pose proof (bigBytes_fits r 20 Hr ltac:(lia)) as Lr. pose proof (bigBytes_fits s 20 Hs ltac:(lia)) as Ls.
  pose proof (zlen_nonneg (bigBytes r)). pose proof (zlen_nonneg (bigBytes s)).
  unfold dsaBlob. replace (20 <? zlen (bigBytes r)) with false by lia. replace (40 <? zlen (bigBytes s)) with false by lia.
  eexists. split; [done|].
  set (half := repeat "000"%byte (Z.to_nat (20 - zlen (bigBytes r))) ++ bigBytes r).
  assert (Hh : zlen half = 20) by (unfold half; rewrite zlen_app, zlen_repeat; lia).
  assert (Ht : ztake (40 - zlen (bigBytes s)) (repeat "000"%byte (Z.to_nat (20 - zlen (bigBytes r))) ++ bigBytes r ++ repeat "000"%byte 20)
    = half ++ repeat "000"%byte (Z.to_nat (20 - zlen (bigBytes s)))).
  { rewrite app_assoc. fold half. unfold ztake. rewrite take_app.
    rewrite take_ge by (unfold zlen in *; lia). f_equal.
    replace (Z.to_nat (40 - zlen (bigBytes s)) - length half)%nat with (Z.to_nat (20 - zlen (bigBytes s))) by (unfold zlen in *; lia).
    replace 20%nat with (Z.to_nat (20 - zlen (bigBytes s)) + Z.to_nat (zlen (bigBytes s)))%nat at 1 by lia.
    rewrite repeat_app. apply take_app_length'. by rewrite repeat_length. }
  rewrite Ht, <- app_assoc. split_and!.
  - rewrite !zlen_app, zlen_repeat. lia.
  - rewrite ztake_app by done. unfold half. rewrite be_decode_zeros. apply bigBytes_decode. lia.
  - rewrite zdrop_app by done. rewrite be_decode_zeros. apply bigBytes_decode. lia.
Qed.

(** ** Signatures verify *)

(** The keys of two encodings that fit are the same when the encodings are. *)
Lemma pub_Marshal_inj `{KeyLib} k k' p :
  key_wf k -> key_fits k -> key_wf k' -> key_fits k' -> zlen p < 2 ^ 32 ->
  pub_Marshal k = Ret p -> pub_Marshal k' = Ret p -> k = k'.
Proof.
  intros Hw Hf Hw' Hf' Hl Hp Hp'. apply Ret_inj.
  by rewrite <- (parsePublicKey_enc k p (parseFuel p)), <- (parsePublicKey_enc k' p (parseFuel p)).
Qed.

Section Signing.
Context `{KeyLib, SignLib}.

(** What a [crypto.Signer] returns is a signature of the digest, in the format
    of its package, under its public key. *)
Definition raw_honest (cs : cryptoSigner) (pubKey : PublicKey) : Prop :=
  forall rand digest h raw, cs_Sign cs rand digest h = Ret raw ->
  match pubKey with
  | rsaPublicKey E N => rsa_VerifyPKCS1v15 E N SHA1 digest raw = None
  | dsaPublicKey P Q G Y => exists r s, asn1_Unmarshal_RS raw = Ret (r, s) /\
      0 <= r < 2 ^ 160 /\ 0 <= s < 2 ^ 160 /\ dsa_Verify (P, Q, G, Y) digest r s = true
  | ecdsaPublicKey c X Y => exists r s, asn1_Unmarshal_RS raw = Ret (r, s) /\
      0 <= r < 2 ^ 600 /\ 0 <= s < 2 ^ 600 /\ ecdsa_Verify c X Y digest r s = true
  | ed25519PublicKey key => ed25519_Verify key digest raw = Ret true
  | certPublicKey _ => True
  end.

Fixpoint honest (s : signer) : Prop :=
  match s with
  | wrappedSigner cs pubKey => raw_honest cs pubKey
  | dsaSigner P Q G Y X => forall rand digest r s, dsa_Sign rand (P, Q, G, Y) X digest = Ret (r, s) ->
      0 <= r < 2 ^ 160 /\ 0 <= s < 2 ^ 160 /\ dsa_Verify (P, Q, G, Y) digest r s = true
  | openSSHCertSigner pub s => honest s /\ cert_Key pub = signer_PublicKey s
  end.

Lemma ecSig_roundtrip r s : 0 <= r < 2 ^ 600 -> 0 <= s < 2 ^ 600 ->
  marshalStruct [] ecSig_struct (r, (s, tt)) = Ret (enc_int r ++ enc_int s) /\
  Unmarshal ecSig_struct (enc_int r ++ enc_int s) = Ret (r, (s, tt)).
Proof.
  intros Hr Hs. pose proof (mpint_contents_bound r 600 Hr ltac:(lia)). pose proof (mpint_contents_bound s 600 Hs ltac:(lia)).
  rewrite (marshalStruct_value _ []) by done.
  assert (E : struct_enc (st_fields ecSig_struct) (r, (s, tt)) = enc_int r ++ enc_int s).
  { cbn -[be_encode]. by rewrite app_nil_r. }
  rewrite E. split; [done|]. rewrite <- E. apply Unmarshal_untagged; [done| |rewrite E|by repeat split].
  - rewrite E. unfold enc_int at 1. by destruct (enc_str_cons (mpint_contents r) (enc_int s)) as (? & ? & ->).
  - unfold enc_int. rewrite zlen_app, !zlen_enc_str. change (600 / 8) with 75 in *. lia.
Qed.

Lemma checkFormat_type k t blob : pub_Type k = Ret t -> checkFormat k (mk_Signature t blob) = Ret tt.
Proof. intros Ht. unfold checkFormat. rewrite Ht. cbn [obind Signature_Format]. by rewrite bool_decide_true. Qed.

Lemma dsa_blob_verifies P Q G Y data r s blob :
  0 <= r < 2 ^ 160 -> 0 <= s < 2 ^ 160 -> dsa_Verify (P, Q, G, Y) (hashSum SHA1 data) r s = true ->
  dsaBlob r s = Ret blob ->
  pub_Verify (dsaPublicKey P Q G Y) data (mk_Signature (str "ssh-dss") blob) = Ret tt.
Proof.
  intros Hr Hs Hv Hb. destruct (dsaBlob_parts r s Hr Hs) as (b & Hb' & Hl & Hdr & Hds).
  assert (b = blob) as -> by congruence.
  verify_key. rewrite checkFormat_type by done. cbn [obind Signature_Blob]. rewrite Hl. cbn [Z.eqb negb].
  by rewrite Hdr, Hds, Hv.
Qed.

Lemma wrapped_Sign_verifies cs pubKey rand data sig :
  raw_honest cs pubKey -> wrapped_Sign cs pubKey rand data = Ret sig -> pub_Verify pubKey data sig = Ret tt.
Proof.
  intros Hh Hs. unfold wrapped_Sign in Hs. apply obind_ret in Hs as (h & Eh & Hs). apply obind_ret in Hs as (raw & Hraw & Hs).
  apply Hh in Hraw. apply obind_ret in Hs as (blob & Hblob & Hs). apply obind_ret in Hs as (t & Ht & Hs). simplify_eq.
  destruct pubKey as [E N|P Q G Y|c X Y|key|c]; cbn [signHash] in Eh; simplify_eq; verify_key.
  - rewrite checkFormat_type by done. cbn [obind Signature_Blob]. by rewrite Hraw.
  - destruct Hraw as (r & s & Ha & Hr & Hs & Hv). rewrite Ha in Hblob. cbn in Ht. simplify_eq.
    exact (dsa_blob_verifies P Q G Y data r s blob Hr Hs Hv Hblob).
  - destruct Hraw as (r & s & Ha & Hr & Hs & Hv). rewrite Ha in Hblob. cbn [obind] in Hblob.
    destruct (ecSig_roundtrip r s Hr Hs) as [Hm Hu]. rewrite Hm in Hblob. apply Ret_inj in Hblob as <-.
    rewrite checkFormat_type by done. cbn [obind Signature_Blob]. rewrite Hu. cbn [obind]. by rewrite Hv.
  - rewrite checkFormat_type by done. cbn [obind Signature_Blob]. by rewrite Hraw.
Qed.

Lemma signer_Sign_verifies s rand data sig :
  honest s -> signer_Sign s rand data = Ret sig -> pub_Verify (signer_PublicKey s) data sig = Ret tt.
Proof.
  induction s as [cs pubKey|P Q G Y X|pub s IH]; intros Hh Hs; cbn [signer_PublicKey signer_Sign honest] in *.
  - by eapply wrapped_Sign_verifies.
  - apply obind_ret in Hs as ([r s] & Hrs & Hs). apply Hh in Hrs as (Hr & Hs' & Hv).
    apply obind_ret in Hs as (blob & Hb & Hs). apply Ret_inj in Hs as <-.
    exact (dsa_blob_verifies P Q G Y data r s blob Hr Hs' Hv Hb).
  - destruct Hh as [Hh Hk]. verify_key. rewrite Hk. by apply IH.
Qed.
End Signing.

(** ** What [CheckCert] accepts *)

Lemma checkOptions_iff c opts : checkOptions c opts = Ret tt <-> Forall (fun o => optionSupported c o = true) opts.
Proof.
  induction opts as [|o opts IH]; [done|]. cbn [checkOptions]. rewrite Forall_cons, <- IH.
  destruct (optionSupported c o); naive_solver.
Qed.

Lemma checkPrincipal_iff principal valid : checkPrincipal principal valid = Ret tt <-> valid = [] \/ principal ∈ valid.
Proof.
  unfold checkPrincipal. destruct valid as [|v valid]; [split; auto|].
  replace (0 <? zlen (v :: valid)) with true by (rewrite zlen_cons; pose proof (zlen_nonneg valid); lia).
  case_bool_decide; naive_solver.
Qed.

(** The period of a certificate: the bounds are 64-bit numbers, and one with
    the top bit set is never reached, except that all ones mean no end. *)
Definition valid_at (now : Z) (cert : Certificate) : Prop :=
  cert_ValidAfter cert < 2 ^ 63 /\ cert_ValidAfter cert <= now /\
  (cert_ValidBefore cert = CertTimeInfinity \/ (cert_ValidBefore cert < 2 ^ 63 /\ now < cert_ValidBefore cert)).

Lemma i64_u64 z : 0 <= z < 2 ^ 64 -> i64 z = if z <? 2 ^ 63 then z else z - 2 ^ 64.
Proof.
  intros Hz. unfold i64. destruct (z <? 2 ^ 63) eqn:E; b2p.
  - rewrite Z.mod_small; lia.
  - replace (z + 2 ^ 63) with ((z - 2 ^ 63) + 1 * 2 ^ 64) by lia. rewrite Z.mod_add, Z.mod_small; lia.
Qed.

Lemma checkTime_iff now cert :
  0 <= cert_ValidAfter cert < 2 ^ 64 -> 0 <= cert_ValidBefore cert < 2 ^ 64 ->
  checkTime now cert = Ret tt <-> valid_at now cert.
Proof.
  intros Ha Hb. unfold checkTime, valid_at, CertTimeInfinity. rewrite !i64_u64 by done.
  destruct (cert_ValidAfter cert <? 2 ^ 63) eqn:E1, (cert_ValidBefore cert <? 2 ^ 63) eqn:E2; b2p;
    repeat (match goal with |- context [if ?b then _ else _] => destruct b eqn:? end);
    repeat match goal with
    | H : (_ || _) = true |- _ => apply orb_true_iff in H as [?|?]
    | H : (_ && _) = false |- _ => apply andb_false_iff in H as [?|?]
    end; b2p; split; intros; try done; lia.
Qed.

Section Checking.
Context `{KeyLib}.

(** The signature of the certificate's authority over everything else. *)
Definition cert_signed (cert : Certificate) : Prop :=
  exists sk sig signed, cert_SignatureKey cert = Some sk /\ cert_Signature cert = Some sig /\
    bytesForSigning cert = Ret signed /\ pub_Verify sk signed sig = Ret tt.

Definition cert_acceptable (c : CertChecker) (now : Z) (principal : bytes) (cert : Certificate) : Prop :=
  (forall f, IsRevoked c = Some f -> f cert = Ret false) /\
  (forall o, is_Some (cert_CriticalOptions cert !! o) ->
     o = sourceAddressCriticalOption \/ o ∈ SupportedCriticalOptions c) /\
  (cert_ValidPrincipals cert = [] \/ principal ∈ cert_ValidPrincipals cert) /\
  valid_at now cert /\ cert_signed cert.

Lemma checkCertSignature_iff cert : checkCertSignature cert = Ret tt <-> cert_signed cert.
Proof.
  unfold checkCertSignature, cert_signed. split.
  - destruct (cert_SignatureKey cert) as [sk|], (cert_Signature cert) as [sig|]; try done.
    intros Hc. apply obind_ret in Hc as (signed & Hs & Hv). destruct (pub_Verify sk signed sig) as [[]| |] eqn:E; [|done..].
    by exists sk, sig, signed.
  - intros (sk & sig & signed & -> & -> & Hs & Hv). rewrite Hs. cbn [obind]. by rewrite Hv.
Qed.

Lemma options_supported c (cert : Certificate) :
  checkOptions c (map_to_list (cert_CriticalOptions cert)).*1 = Ret tt <->
  forall o, is_Some (cert_CriticalOptions cert !! o) -> o = sourceAddressCriticalOption \/ o ∈ SupportedCriticalOptions c.
Proof.
  rewrite checkOptions_iff, Forall_forall. unfold optionSupported. split; intros Hs o Ho.
  - destruct Ho as [v Hv]. specialize (Hs o). rewrite orb_true_iff, !bool_decide_eq_true in Hs. apply Hs.
    apply list_elem_of_fmap. exists (o, v). by rewrite elem_of_map_to_list.
  - rewrite orb_true_iff, !bool_decide_eq_true. apply Hs. apply list_elem_of_fmap in Ho as ([k v] & -> & Hv).
    apply elem_of_map_to_list in Hv. by exists v.
Qed.

Lemma obind_unit_iff {B} (m : outcome unit) (k : outcome B) b :
  (let? _ := m in k) = Ret b <-> m = Ret tt /\ k = Ret b.
Proof. destruct m as [[]| |]; cbn [obind]; naive_solver. Qed.

Lemma CheckCert_iff now c principal cert :
  0 <= cert_ValidAfter cert < 2 ^ 64 -> 0 <= cert_ValidBefore cert < 2 ^ 64 ->
  CheckCert now c principal cert = Ret tt <-> cert_acceptable c (default now (Clock c)) principal cert.
Proof.
  intros Ha Hb. unfold CheckCert, cert_acceptable.
  rewrite <- options_supported, <- checkPrincipal_iff, <- checkTime_iff, <- checkCertSignature_iff by done.
  destruct (IsRevoked c) as [f|].
  - assert (Hf : (forall f0, Some f = Some f0 -> f0 cert = Ret false) <-> f cert = Ret false).
    { split; [by eauto|]. intros ? ? [= <-]. done. }
    rewrite Hf. destruct (f cert) as [[]| |]; cbn [obind]; rewrite ?obind_unit_iff;
      (split; [try done|intros [? ?]; try done]); tauto.
  - cbn [obind]. rewrite !obind_unit_iff. split; [|tauto]. intros ?. split; [by intros|done].
Qed.

(** ** The signature covers the certificate *)

Definition enc_sig (sig : Signature) : bytes := enc_str (Signature_Format sig) ++ enc_str (Signature_Blob sig).

Lemma enc_generic_split c skp : exists g, forall sig, enc_generic c skp sig = g ++ enc_str sig.
Proof.
  unfold enc_generic. eexists. intros sig.
  cbn [struct_enc field_enc st_fields genericCertData_struct struct_cons_codec struct_nil_codec
    uint64_codec uint32_codec string_codec bytes_codec fst snd].
  rewrite app_nil_r. change (be_encode 4 (zlen sig) ++ sig) with (enc_str sig). rewrite !app_assoc. reflexivity.
Qed.

(** A certificate but for its signature. *)
Definition cert_wf (c : Certificate) : Prop :=
  let k := certPublicKey (withSignature (mk_Signature [] []) c) in key_wf k /\ key_fits k.

Lemma cert_wf_signed c sig :
  cert_wf c -> key_wf (certPublicKey (withSignature sig c)) /\ key_fits (certPublicKey (withSignature sig c)).
Proof. 
  intros [(Hk & H1 & H2 & H3 & H4 & _ & Hs) Hf]. split; [|done].
  exact (conj Hk (conj H1 (conj H2 (conj H3 (conj H4 (conj (mk_is_Some _ _ eq_refl) Hs)))))).
Qed.

Lemma cert_wf_withSignature c sig : cert_wf c -> cert_wf (withSignature sig c).
Proof. done. Qed.

(** What is signed, and the encoding of the signed certificate. *)
Lemma bytesForSigning_enc c : cert_wf c ->
  exists b, bytesForSigning c = Ret b /\ forall sig, cert_Marshal (withSignature sig c) = Ret (b ++ enc_str (enc_sig sig)).
Proof.
  intros [(Hk & _ & _ & _ & _ & _ & Hs) [Hkf Hsf]]. cbn [cert_Key cert_SignatureKey withSignature] in *.
  destruct (cert_SignatureKey c) as [sk|] eqn:Hsk; [|done].
  destruct (key_Marshal_total sk Hs) as [skp Hskp].
  destruct (plain_roundtrip _ Hk) as (algo & body & cert & Ht & Hm & Hc & _).
  destruct (enc_generic_split c skp) as [g Hg].
  exists (enc_str cert ++ enc_str (cert_Nonce c) ++ body ++ g). split.
  - unfold bytesForSigning, cert_Marshal.
    rewrite (cert_Marshal_enc (withoutSignature c) sk skp algo body cert) by eauto. cbn [obind].
    change (enc_generic (withoutSignature c) skp _) with (enc_generic c skp []). rewrite Hg.
    cbn [cert_Nonce withoutSignature]. rewrite !app_assoc. set (x := ((enc_str cert ++ _) ++ body) ++ g).
    rewrite zlen_app, zlen_enc_str, zlen_nil. pose proof (zlen_nonneg x).
    replace (zlen x + (4 + 0) <? 4) with false by lia. f_equal. apply ztake_app. lia.
  - intros sig. unfold cert_Marshal. rewrite (cert_Marshal_enc (withSignature sig c) sk skp algo body cert) by eauto.
    change (enc_generic (withSignature sig c) skp _) with (enc_generic c skp (enc_sig sig)). rewrite Hg.
    cbn [cert_Nonce withSignature]. by rewrite <- !app_assoc.
Qed.

Lemma signed_roundtrip c sig b :
  cert_wf c -> bytesForSigning c = Ret b -> zlen b + zlen (enc_sig sig) < 2 ^ 32 - 4 ->
  ParsePublicKey (b ++ enc_str (enc_sig sig)) = Ret (certPublicKey (withSignature sig c)).
Proof.
  intros Hw Hb Hl. destruct (cert_wf_signed c sig Hw) as [Hwf Hf].
  destruct (bytesForSigning_enc c Hw) as (b' & Hb' & Hm). rewrite Hb in Hb'. simplify_eq.
  apply parsePublicKey_enc; [done | done | apply Hm | rewrite zlen_app, zlen_enc_str; lia | done].
Qed.

(** Two certificates with the same signed bytes differ in the signature only. *)
Lemma bytesForSigning_inj c c' b :
  cert_wf c -> cert_wf c' -> zlen b < 2 ^ 31 -> bytesForSigning c = Ret b -> bytesForSigning c' = Ret b ->
  withoutSignature c = withoutSignature c'.
Proof.
  intros Hw Hw' Hl Hb Hb'. set (s0 := mk_Signature [] []).
  assert (E : Ret (certPublicKey (withSignature s0 c)) = Ret (certPublicKey (withSignature s0 c'))).
  { rewrite <- (signed_roundtrip c s0 b), <- (signed_roundtrip c' s0 b) by (done || (change (zlen (enc_sig s0)) with 8; lia)).
    done. }
  apply Ret_inj in E. assert (E' : withSignature s0 c = withSignature s0 c') by congruence.
  change (withoutSignature (withSignature s0 c) = withoutSignature (withSignature s0 c')). by rewrite E'.
Qed.
End Checking.

Lemma bytesForSigning_ignores_signature `{KeyLib} c sig : bytesForSigning (withSignature sig c) = bytesForSigning c.
Proof. done. Qed.

(** ** A small signing library for examples *)

Definition toySignLib : SignLib := {|
  rsa_Sign _ _ _ _ _ digest _ := Ret digest;
  ecdsa_Sign _ _ _ _ _ digest _ := Ret (be_encode 20 (be_decode digest) ++ be_encode 20 7);
  ed25519_Sign _ _ digest _ := Ret digest;
  ed25519_Public key := if zlen key =? 64 then Ret (zdrop 32 key) else Panic "slice bounds out of range";
  rsa_Validate _ _ _ _ := None;
  pem_Decode b := Some (mkPemBlock (str "OPENSSH PRIVATE KEY") ∅ b []);
  x509_IsEncryptedPEMBlock _ := false;
  x509_DecryptPEMBlock b _ := Ret (pem_Bytes b, pem_Spare b);
  x509_IncorrectPasswordError := errNew "x509: decryption password incorrect";
  x509_ParsePKCS1PrivateKey _ := Fail (errNew "x509");
  x509_ParseECPrivateKey _ := Fail (errNew "x509");
  asn1_UnmarshalDSA _ := Fail (errNew "asn1")
|}.

(** An ed25519 authority. *)
Definition toyAuthority : signer :=
  wrappedSigner
    (mkCryptoSigner (Ret (CryptoEd25519 (repeat "001"%byte 32))) (fun _ digest _ => Ret digest))
    (ed25519PublicKey (repeat "001"%byte 32)).

Lemma toyAuthority_honest : @honest toyKeyLib toyAuthority.
Proof. intros rand digest h raw [= <-]. cbn. by rewrite bool_decide_true. Qed.

(** ** Properties *)

(** whatever a signer of the package signs verifies under its public key:
    RSA, DSA (through the 40-byte blob), ECDSA (through the two integers),
    ed25519, and a certificate over one of them; the underlying [crypto.Signer]
    is assumed to return a signature of the digest it is given. *)
Theorem sign_verify `{KeyLib, SignLib} (s : signer) (rand data : bytes) (sig : Signature) :
  honest s -> signer_Sign s rand data = Ret sig -> pub_Verify (signer_PublicKey s) data sig = Ret tt.
Proof. apply signer_Sign_verifies. Qed.

Lemma toyECDSA_honest X Y D :
  @honest toyKeyLib (wrappedSigner (mkCryptoSigner (Ret (CryptoECDSA P256 X Y)) (@ecdsa_Sign toySignLib P256 X Y D))
    (ecdsaPublicKey P256 X Y)).
Proof.
  intros rand digest h raw Hraw. apply Ret_inj in Hraw as <-. exists (be_decode digest mod 2 ^ 160), 7.
  assert (Hd : be_decode (be_encode 20 (be_decode digest)) = be_decode digest mod 2 ^ 160) by apply be_decode_encode.
  pose proof (Z.mod_pos_bound (be_decode digest) (2 ^ 160)).
  unfold asn1_Unmarshal_RS, ecdsa_Verify, toyKeyLib, toyRS. rewrite zlen_app, !zlen_be_encode.
  change (_ =? 40) with true. rewrite ztake_app, zdrop_app by (by rewrite zlen_be_encode). rewrite Hd, Z.eqb_refl.
  split_and!; try done; lia.
Qed.

Lemma sign_verify_witness :
  @pub_Verify toyKeyLib (ecdsaPublicKey P256 5 6) (str "data")
    (mk_Signature (str "ecdsa-sha2-nistp256")
       (enc_int (be_decode (str "data" ++ repeat "000"%byte 16)) ++ enc_int 7)) = Ret tt.
Proof.
  apply (@sign_verify toyKeyLib toySignLib _ [] (str "data") _ (toyECDSA_honest 5 6 1)).
  by vm_compute.
Defined.

(** C11: the checker accepts a host certificate exactly when it is a host
    certificate, the callback knows its authority for the address, the host of
    the address is among its principals (or it has none), every critical option
    is understood, it is not revoked, the time is within its period (read as
    signed 64-bit numbers), and the authority's signature over everything but
    the signature verifies.  An option is understood when it is listed in
    [SupportedCriticalOptions] or is source-address: the code asks both of host
    certificates too, although the comments say that the list is only used for user
    certificates and that source-address is enforced elsewhere, which it is for
    users only. *)
Theorem check_host_certificate `{KeyLib} (now : Z) (c : CertChecker) (addr remote : bytes) (cert : Certificate)
    (isHostAuthority : option PublicKey -> bytes -> outcome bool) :
  IsHostAuthority c = Some isHostAuthority ->
  0 <= cert_ValidAfter cert < 2 ^ 64 -> 0 <= cert_ValidBefore cert < 2 ^ 64 ->
  CheckHostKey now c addr remote (certPublicKey cert) = Ret tt <->
  cert_CertType cert = HostCert /\ isHostAuthority (cert_SignatureKey cert) addr = Ret true /\
  exists host port, splitHostPort addr = Ret (host, port) /\ cert_acceptable c (default now (Clock c)) host cert.
Proof.
  intros Hh Ha Hb. unfold CheckHostKey. rewrite Hh. cbn [callFunc obind].
  destruct (cert_CertType cert =? HostCert) eqn:Et; b2p; cbn [negb]; [|naive_solver].
  destruct (isHostAuthority _ addr) as [[]| |]; cbn [obind negb]; try naive_solver.
  destruct (splitHostPort addr) as [[host port]| |]; cbn [obind]; try naive_solver.
  rewrite CheckCert_iff by done. naive_solver.
Qed.

Definition toyChecker : CertChecker :=
  mkCertChecker [str "force-command"] None (Some (fun _ _ => Ret true)) (Some 150) None None None.

(** [sampleCert] signed by [toyAuthority]. *)
Definition signedCert : Certificate := Eval vm_compute in (@SignCert toyKeyLib (repeat "002"%byte 32) toyAuthority sampleCert).2.

Lemma check_host_certificate_witness :
  cert_CertType signedCert = HostCert /\ @Ret bool true = Ret true /\
  exists host port, splitHostPort (str "host1:22") = Ret (host, port) /\
    @cert_acceptable toyKeyLib toyChecker 150 host signedCert.
Proof.
  apply (@check_host_certificate toyKeyLib 0 toyChecker (str "host1:22") [] signedCert (fun _ _ => Ret true)).
  - done.
  - by vm_compute.
  - by vm_compute.
  - by vm_compute.
Defined.

(** the signature of a certificate covers all of it: two well-formed
    certificates with the same signed bytes have the same nonce, key, serial
    number, type, identifier, principals, period, options, extensions and
    authority, so that a signature cannot be moved to another certificate. *)
Theorem certificate_signature_binding `{KeyLib} (c c' : Certificate) (b : bytes) :
  cert_wf c -> cert_wf c' -> zlen b < 2 ^ 31 -> bytesForSigning c = Ret b -> bytesForSigning c' = Ret b ->
  withoutSignature c = withoutSignature c'.
Proof. apply bytesForSigning_inj. Qed.

Lemma signedCert_wf : @cert_wf toyKeyLib signedCert.
Proof.
  split; [by repeat split|]. split; [|exact I]. intros p Hp.
  vm_compute in Hp. apply Ret_inj in Hp as <-. by vm_compute.
Qed.

Lemma certificate_signature_binding_witness :
  withoutSignature signedCert = withoutSignature (withSignature (mk_Signature [] []) signedCert).
Proof.
  destruct (@bytesForSigning toyKeyLib signedCert) as [b| |] eqn:E; [|vm_compute in E; discriminate..].
  apply (@certificate_signature_binding toyKeyLib _ _ b).
  - exact signedCert_wf.
  - exact (@cert_wf_withSignature toyKeyLib signedCert _ signedCert_wf).
  - vm_compute in E. injection E as <-. by vm_compute.
  - exact E.
  - exact E.
Defined.

(** C27: a certificate that [SignCert] signed with an honest authority, and whose
    encoding has fewer than 2^32 bytes, comes back from the wire as it was, and
    [CheckCert] accepts it exactly when the checker has no objection to it: it is
    not revoked, every critical option other than source-address is among the
    supported ones, the principal is listed (or none is), and the time is within
    its period; the signature never is the reason to refuse it. *)
Theorem signed_certificate_accepted `{KeyLib, SignLib} (rand : bytes) (authority : signer) (c c' : Certificate)
    (checker : CertChecker) (now : Z) (principal p : bytes) :
  SignCert rand authority c = (Ret tt, c') -> honest authority -> cert_wf c' ->
  cert_Marshal c' = Ret p -> zlen p < 2 ^ 32 ->
  ParsePublicKey p = Ret (certPublicKey c') /\
  (CheckCert now checker principal c' = Ret tt <->
   (forall f, IsRevoked checker = Some f -> f c' = Ret false) /\
   (forall o, is_Some (cert_CriticalOptions c' !! o) ->
      o = sourceAddressCriticalOption \/ o ∈ SupportedCriticalOptions checker) /\
   (cert_ValidPrincipals c' = [] \/ principal ∈ cert_ValidPrincipals c') /\
   valid_at (default now (Clock checker)) c').
Proof.
  intros Hsign Hh Hw Hm Hl. unfold SignCert in Hsign. destruct (zlen rand <? 32); [done|].
  set (c0 := withAuthority _ _) in Hsign.
  destruct (let? signed := bytesForSigning c0 in _) as [sig| |] eqn:Es; [|done..]. injection Hsign as <-.
  apply obind_ret in Es as (signed & Hb & Hs).
  destruct (cert_wf_signed _ sig Hw) as [Hwf Hf]. split.
  - by apply parsePublicKey_enc.
  - assert (Hrange := Hwf). destruct Hrange as (_ & _ & _ & Ha & Hb' & _). rewrite CheckCert_iff by done.
    unfold cert_acceptable. split; [tauto|]. intros (Hr & Ho & Hp & Hv). split_and!; try done.
    exists (signer_PublicKey authority), sig, signed. split_and!; [done | done | done |].
    by eapply signer_Sign_verifies.
Qed.

(** A checker with a list of revoked serial numbers. *)
Definition revokingChecker : CertChecker :=
  mkCertChecker [str "force-command"] None (Some (fun _ _ => Ret true)) (Some 150) None None
    (Some (fun c => Ret (bool_decide (cert_Serial c ∈ [99; 100])))).

Lemma signed_certificate_accepted_witness :
  (exists p, @cert_Marshal toyKeyLib signedCert = Ret p /\ @ParsePublicKey toyKeyLib p = Ret (certPublicKey signedCert)) /\
  @CheckCert toyKeyLib 0 revokingChecker (str "host1") signedCert = Ret tt /\
  @CheckCert toyKeyLib 0 revokingChecker (str "host9") signedCert <> Ret tt.
Proof.
  destruct (@cert_Marshal toyKeyLib signedCert) as [p| |] eqn:E; [|vm_compute in E; discriminate..].
  assert (Hl : zlen p < 2 ^ 32) by (vm_compute in E; injection E as <-; by vm_compute).
  assert (HW := fun principal => @signed_certificate_accepted toyKeyLib toySignLib (repeat "002"%byte 32) toyAuthority
    sampleCert signedCert revokingChecker 0 principal p ltac:(by vm_compute) toyAuthority_honest signedCert_wf E Hl).
  split_and!.
  - exists p. split; [done|]. exact (proj1 (HW [])).
  - apply (HW (str "host1")). split_and!.
    + by intros f [= <-].
    + apply (options_supported revokingChecker signedCert). by vm_compute.
    + right. decide_vm.
    + change (100 < 2 ^ 63 /\ 100 <= 150 /\ (200 = CertTimeInfinity \/ 200 < 2 ^ 63 /\ 150 < 200)). lia.
  - intros Hc. apply (HW (str "host9")) in Hc as (_ & _ & [Hp|Hp] & _); [done|]. revert Hp. decide_vm.
Defined.
