(* ===== verification/KeyFiles.v ===== *)
(** * The text formats of public keys (keys.go)

    [authorized_keys] lines with their options, entries of [known_hosts] files,
    and [MarshalAuthorizedKey].  The loops over lines have the length of the
    input as fuel: every round consumes a line. *)

From S2P Require Import Prelude Text Wire Codec Negotiate Kex Keys KeysFacts.

Definition newlineByte : byte := "010".
Definition returnByte : byte := "013".
Definition spaceByte : byte := " ".
Definition quoteByte : byte := "034".
Definition backslashByte : byte := "092".

(** The first line and what follows it. *)
Definition nextLine (i : bytes) : bytes * bytes :=
  match cutAt (Byte.eqb newlineByte) i with
  | Some (line, _ :: rest) => (line, rest)
  | Some (line, []) => (line, [])
  | None => (i, [])
  end.

Definition cutReturn (line : bytes) : bytes :=
  match cutAt (Byte.eqb returnByte) line with
  | Some (a, _) => a
  | None => line
  end.

(** The line without its end and the space around it. *)
Definition cleanLine (line : bytes) : bytes := trimSpace (cutReturn line).

Definition isComment (line : bytes) : bool :=
  match line with [] => true | c :: _ => Byte.eqb c "#" end.

(** ** Options *)

(** The loop over the bytes of a line, from the byte after [prev] on: the
    options before the first blank outside quotes and the line from there on,
    or from its last byte when there is no such blank. *)
Fixpoint scanOptions (prev : option byte) (inQuote : bool) (cur : bytes) (acc : list bytes) (s : bytes)
  : list bytes * bytes :=
  match s with
  | [] => (acc, [])
  | b :: s' =>
      let isEnd := negb inQuote && isBlank b in
      let stop := (Byte.eqb b "," && negb inQuote) || isEnd in
      let acc := if stop && (0 <? zlen cur) then acc ++ [reverse cur] else acc in
      let cur := if stop then [] else b :: cur in
      if isEnd then (acc, s)
      else
        let toggle := Byte.eqb b quoteByte && match prev with Some p => negb (Byte.eqb p backslashByte) | None => true end in
        let inQuote := if toggle then negb inQuote else inQuote in
        match s' with
        | [] => (acc, s)
        | _ => scanOptions (Some b) inQuote cur acc s'
        end
  end.

Fixpoint dropBlanks (s : bytes) : bytes :=
  match s with
  | c :: s' => if isBlank c then dropBlanks s' else s
  | [] => []
  end.

(** ** Parsing *)

Section Files.
Context `{KeyLib}.

Definition parseAuthorizedKey (i : bytes) : outcome (PublicKey * bytes) :=
  let i := trimSpace i in
  let '(base64Key, rest) := match cutAt isBlank i with Some (a, b) => (a, b) | None => (i, []) end in
  let? key := b64decode base64Key in
  let? out := ParsePublicKey key in
  Ret (out, trimSpace rest).

Record authorizedKey := mkAuthorizedKey {
  ak_out : PublicKey;
  ak_comment : bytes;
  ak_options : list bytes;
  ak_rest : bytes
}.

(** What one line gives, as text after the key type: a key, an error (the loop
    goes on), or a panic. *)
Definition keyAfterType (line : bytes) : option (outcome (PublicKey * bytes)) :=
  match cutAt isBlank line with
  | None => None
  | Some (_, after) => Some (parseAuthorizedKey after)
  end.

Definition authorizedLine (line : bytes) : outcome (option (PublicKey * bytes * list bytes)) :=
  if isComment line then Ret None
  else
    match keyAfterType line with
    | None => Ret None
    | Some (Ret (out, comment)) => Ret (Some (out, comment, []))
    | Some (Panic w) => Panic w
    | Some (Fail _) =>
        let '(candidateOptions, tail) := scanOptions None false [] [] line in
        match keyAfterType (dropBlanks tail) with
        | Some (Ret (out, comment)) => Ret (Some (out, comment, candidateOptions))
        | Some (Panic w) => Panic w
        | Some (Fail _) | None => Ret None
        end
    end.

Fixpoint authorizedLoop (fuel : nat) (i : bytes) : outcome authorizedKey :=
  match i, fuel with
  | [], _ => Fail (errNew "ssh: no key found")
  | _, O => Panic "out of fuel"
  | _, S fuel =>
      let '(line, rest) := nextLine i in
      let? r := authorizedLine (cleanLine line) in
      match r with
      | Some (out, comment, options) => Ret (mkAuthorizedKey out comment options rest)
      | None => authorizedLoop fuel rest
      end
  end.

Definition ParseAuthorizedKey (i : bytes) : outcome authorizedKey := authorizedLoop (length i) i.

Record knownHost := mkKnownHost {
  kh_marker : bytes;
  kh_hosts : list bytes;
  kh_pubKey : PublicKey;
  kh_comment : bytes;
  kh_rest : bytes
}.

(** An entry, from its fields. *)
Definition knownHostEntry (keyFields : list bytes) (rest : bytes) : outcome knownHost :=
  if (zlen keyFields <? 3) || (5 <? zlen keyFields) then Fail (errNew "ssh: invalid entry in known_hosts data")
  else
    let '(marker, keyFields) :=
      match keyFields with
      | (c :: m) :: more => if Byte.eqb c "@" then (m, more) else ([], keyFields)
      | _ => ([], keyFields)
      end in
    let hosts := default [] (head keyFields) in
    let? (pubKey, comment) := parseAuthorizedKey (join_byte spaceByte (drop 2 keyFields)) in
    Ret (mkKnownHost marker (split_byte comma hosts) pubKey comment rest).

Fixpoint knownHostsLoop (fuel : nat) (i : bytes) : outcome knownHost :=
  match i, fuel with
  | [], _ => Fail EOF
  | _, O => Panic "out of fuel"
  | _, S fuel =>
      let '(line, rest) := nextLine i in
      let line := cleanLine line in
      if isComment line then knownHostsLoop fuel rest
      else
        match cutAt isBlank line with
        | None => knownHostsLoop fuel rest
        | Some _ => knownHostEntry (fields line) rest
        end
  end.

Definition ParseKnownHosts (i : bytes) : outcome knownHost := knownHostsLoop (length i) i.

Definition MarshalAuthorizedKey (key : PublicKey) : outcome bytes :=
  let? t := pub_Type key in
  let? m := pub_Marshal key in
  Ret (t ++ [spaceByte] ++ b64encode true m ++ [newlineByte]).
End Files.
