(* ===== verification/KeyFilesFacts.v ===== *)
(** * Key files: what is read back

    [ParseAuthorizedKey] reads what [MarshalAuthorizedKey] writes and finds the
    options, the key and the comment of a line; [ParseKnownHosts] likewise; both
    end on every input without a panic. *)

From S2P Require Import Prelude Text Wire Codec Negotiate Kex Keys KeysFacts KeyFiles.

(** ** Names of key types *)

Definition algoNames : list bytes := certAlgoNames.*1 ++ certAlgoNames.*2.

(** Printable, without commas and quotes, no comment, not base64. *)
Definition goodName (t : bytes) : bool :=
  forallb solid t && negb (has comma t) && negb (has quoteByte t) && negb (isComment t) &&
  bool_decide (b64decode t = Fail errBase64).

Lemma algoNames_good t : t ∈ algoNames -> goodName t = true.
Proof.
  assert (Hf : forallb goodName algoNames = true) by by vm_compute.
  rewrite forallb_forall in Hf. intros Ht%list_elem_of_In. by apply Hf.
Qed.

Lemma plain_type_name `{KeyLib} k : plain_wf k -> exists t, pub_Type k = Ret t /\ t ∈ certAlgoNames.*1.
Proof.
  destruct k as [E N|P Q G Y|c X Y|key|c]; intros Hw; [..|done].
  1,2,4: eexists; split; [reflexivity | by apply list_elem_of_In; vm_compute; tauto].
  destruct Hw as [Hc _]. destruct c; [done|..];
    (eexists; split; [reflexivity | by apply list_elem_of_In; vm_compute; tauto]).
Qed.

Lemma certAlgoOf_name t : t ∈ certAlgoNames.*1 -> exists a, certAlgoOf t = Some a /\ a ∈ certAlgoNames.*2.
Proof.
  intros Ht. assert (Hf : forallb (fun t => match certAlgoOf t with Some a => bool_decide (a ∈ certAlgoNames.*2) | None => false end)
    certAlgoNames.*1 = true) by by vm_compute.
  rewrite forallb_forall in Hf. apply list_elem_of_In in Ht. specialize (Hf t Ht).
  destruct (certAlgoOf t) as [a|]; [|done]. apply bool_decide_eq_true in Hf. eauto.
Qed.

Lemma key_type_name `{KeyLib} k : key_wf k -> exists t, pub_Type k = Ret t /\ t ∈ algoNames.
Proof.
  unfold algoNames. destruct k as [E N|P Q G Y|c X Y|key|c]; intros Hw.
  1-4: destruct (plain_type_name _ Hw) as (t & Ht & Hin); exists t; split; [done | set_solver].
  destruct Hw as [Hk _]. destruct (plain_type_name _ Hk) as (t & Ht & Hin).
  destruct (certAlgoOf_name t Hin) as (a & Ha & Hina). exists a. cbn [pub_Type]. rewrite Ht. cbn [obind]. rewrite Ha.
  split; [done | set_solver].
Qed.

Lemma goodName_parts t : goodName t = true ->
  Forall (fun c => solid c = true) t /\ has comma t = false /\ has quoteByte t = false /\ isComment t = false /\
  b64decode t = Fail errBase64 /\ t <> [].
Proof.
  unfold goodName. rewrite !andb_true_iff, !negb_true_iff, bool_decide_eq_true.
  intros ((((Hs & ?) & ?) & Hc) & ?). split_and!; try done.
  - apply Forall_forall. intros x Hx. rewrite forallb_forall in Hs. by apply Hs, list_elem_of_In.
  - by intros ->.
Qed.

(** ** Lines *)

Definition noEnd (s : bytes) : Prop := Forall (fun c => isLineEnd c = false) s.

Lemma noEnd_bytes s : noEnd s ->
  Forall (fun c => Byte.eqb newlineByte c = false) s /\ Forall (fun c => Byte.eqb returnByte c = false) s.
Proof.
  intros Hs. split; (eapply Forall_impl; [exact Hs|]); intros c Hc;
    apply byte_eqb_false; intros <-; by vm_compute in Hc.
Qed.

Lemma nextLine_app line rest : noEnd line -> nextLine (line ++ newlineByte :: rest) = (line, rest).
Proof. intros Hl. unfold nextLine. by rewrite cutAt_app by (done || by apply noEnd_bytes). Qed.

Lemma cleanLine_framed line : noEnd line -> framed line -> cleanLine line = line.
Proof.
  intros Hl Hf. unfold cleanLine, cutReturn. rewrite cutAt_none by by apply noEnd_bytes.
  by apply trimSpace_framed.
Qed.

Lemma solid_noEnd s : Forall (fun c => solid c = true) s -> noEnd s.
Proof. intros Hs. eapply Forall_impl; [exact Hs|]. intros c Hc. by apply solid_plain in Hc as (_ & _ & _ & _ & ?). Qed.

Section Files.
Context `{KeyLib}.

(** The text of a key after its type, with an optional comment. *)
Definition keyText (m comment : bytes) : bytes :=
  b64encode true m ++ match comment with [] => [] | _ => spaceByte :: comment end.

Lemma parseAuthorizedKey_text k m comment :
  ParsePublicKey m = Ret k -> m <> [] -> comment = [] \/ framed comment ->
  parseAuthorizedKey (spaceByte :: keyText m comment) = Ret (k, comment).
Proof.
  intros Hk Hm Hc. unfold parseAuthorizedKey. rewrite trimSpace_blank by done.
  pose proof (b64encode_solid true m) as Hs. assert (Hne : b64encode true m <> []) by (intros E%b64encode_nil; done).
  pose proof (framed_solids _ Hne Hs) as Hf. unfold keyText. destruct comment as [|c comment].
  - rewrite app_nil_r, trimSpace_framed by done. rewrite cutAt_none by by apply solids_no_blank.
    rewrite b64decode_encode. cbn [obind]. by rewrite Hk.
  - destruct Hc as [?|Hc]; [done|]. rewrite trimSpace_framed by (apply (framed_app _ _ Hf Hc [spaceByte])).
    rewrite cutAt_app by (done || by apply solids_no_blank). rewrite b64decode_encode. cbn [obind]. rewrite Hk. cbn [obind].
    rewrite trimSpace_blank by done. by rewrite trimSpace_framed.
Qed.

Lemma keyAfterType_text t k m comment :
  goodName t = true -> ParsePublicKey m = Ret k -> m <> [] -> comment = [] \/ framed comment ->
  keyAfterType (t ++ spaceByte :: keyText m comment) = Some (Ret (k, comment)).
Proof.
  intros (Hs & _)%goodName_parts Hk Hm Hc. unfold keyAfterType.
  rewrite cutAt_app by (done || by apply solids_no_blank). by rewrite (parseAuthorizedKey_text k).
Qed.

Lemma keyText_framed t m comment :
  goodName t = true -> m <> [] -> comment = [] \/ framed comment -> framed (t ++ spaceByte :: keyText m comment).
Proof.
  intros (Hs & _ & _ & _ & _ & Hne)%goodName_parts Hm Hc. pose proof (framed_solids _ Hne Hs) as Ht.
  assert (Hb : framed (b64encode true m)).
  { apply framed_solids; [|apply b64encode_solid]. intros E%b64encode_nil. done. }
  unfold keyText. destruct comment as [|c comment].
  - rewrite app_nil_r. apply (framed_app _ _ Ht Hb [spaceByte]).
  - destruct Hc as [?|Hc]; [done|]. pose proof (framed_app _ _ Ht Hc (spaceByte :: b64encode true m ++ [spaceByte])) as Hf.
    by rewrite <- app_comm_cons, <- app_assoc in Hf.
Qed.

Lemma keyText_noEnd t m comment : goodName t = true -> noEnd comment -> noEnd (t ++ spaceByte :: keyText m comment).
Proof.
  intros (Hs & _)%goodName_parts Hc. unfold keyText. apply Forall_app. split; [by apply solid_noEnd|].
  apply Forall_cons. split; [done|]. apply Forall_app. split; [apply solid_noEnd, b64encode_solid|].
  destruct comment; [done|]. by apply Forall_cons.
Qed.

Lemma authorizedLoop_line fuel line rest :
  noEnd line -> framed line ->
  authorizedLoop (S fuel) (line ++ newlineByte :: rest) =
    let? r := authorizedLine line in
    match r with
    | Some (out, comment, options) => Ret (mkAuthorizedKey out comment options rest)
    | None => authorizedLoop fuel rest
    end.
Proof.
  intros Hn Hf. destruct (line ++ newlineByte :: rest) as [|b i] eqn:E; [by destruct line|].
  cbn [authorizedLoop]. rewrite <- E, nextLine_app, cleanLine_framed by done. done.
Qed.

(** A line that is a key. *)
Lemma ParseAuthorizedKey_line t k m comment rest :
  goodName t = true -> ParsePublicKey m = Ret k -> m <> [] -> comment = [] \/ framed comment -> noEnd comment ->
  ParseAuthorizedKey ((t ++ spaceByte :: keyText m comment) ++ newlineByte :: rest) = Ret (mkAuthorizedKey k comment [] rest).
Proof.
  intros Ht Hk Hm Hc Hn. unfold ParseAuthorizedKey.
  destruct (length _) as [|fuel] eqn:El; [by apply nil_length_inv in El; destruct (t ++ spaceByte :: keyText m comment)|].
  rewrite authorizedLoop_line by (by apply keyText_noEnd || by apply keyText_framed).
  unfold authorizedLine. rewrite (keyAfterType_text t k) by done.
  replace (isComment (t ++ spaceByte :: keyText m comment)) with false; [done|].
  apply goodName_parts in Ht as (_ & _ & _ & Hi & _). by destruct t.
Qed.
End Files.

(** ** Options *)

Definition plainOpt (c : byte) : bool := negb (isBlank c) && negb (Byte.eqb c comma) && negb (Byte.eqb c quoteByte).

Definition notBackslash (p : option byte) : bool :=
  match p with Some c => negb (Byte.eqb c backslashByte) | None => true end.

Definition lastOr (p : option byte) (s : bytes) : option byte := foldl (fun _ c => Some c) p s.

Lemma scan_plain n prev cur acc rest :
  Forall (fun c => plainOpt c = true) n -> rest <> [] ->
  scanOptions prev false cur acc (n ++ rest) = scanOptions (lastOr prev n) false (reverse n ++ cur) acc rest.
Proof.
  intros Hn Hr. revert prev cur. induction Hn as [|c n Hc Hn IH]; intros prev cur; [done|].
  unfold plainOpt in Hc. b2p. cbn [app scanOptions negb andb].
  destruct (isBlank c); [done|]. destruct (Byte.eqb c comma) eqn:Ec; [done|].
  change ","%byte with comma. rewrite Ec. destruct (Byte.eqb c quoteByte); [done|]. cbn [andb orb].
  destruct (n ++ rest) as [|x l] eqn:E; [by destruct n; destruct rest|]. rewrite IH, reverse_cons, <- app_assoc. done.
Qed.

Lemma scan_quoted v prev cur acc rest :
  has quoteByte v = false -> rest <> [] ->
  scanOptions prev true cur acc (v ++ rest) = scanOptions (lastOr prev v) true (reverse v ++ cur) acc rest.
Proof.
  intros Hv%has_false Hr. revert prev cur. induction Hv as [|c v Hc Hv IH]; intros prev cur; [done|].
  cbn [app scanOptions negb andb]. rewrite andb_false_r. cbn [orb andb].
  replace (Byte.eqb c quoteByte) with false by (symmetry; apply byte_eqb_false; apply byte_eqb_false in Hc; congruence).
  cbn [andb]. destruct (v ++ rest) as [|x l] eqn:E; [by destruct v; destruct rest|].
  rewrite IH, reverse_cons, <- app_assoc. done.
Qed.

Lemma scan_quote prev q cur acc rest :
  notBackslash prev = true -> rest <> [] ->
  scanOptions prev q cur acc (quoteByte :: rest) = scanOptions (Some quoteByte) (negb q) (quoteByte :: cur) acc rest.
Proof.
  intros Hp Hr. cbn [scanOptions]. change (isBlank quoteByte) with false. change (Byte.eqb quoteByte ",") with false.
  rewrite andb_false_r, byte_eqb_refl. fold (notBackslash prev). rewrite Hp. cbn [andb orb].
  destruct rest; [done|]. done.
Qed.

(** An option: a word, or a word and a quoted text ([name="text"]); a quote
    after a backslash would not count. *)
Definition option_ok (o : bytes) : Prop :=
  (o <> [] /\ Forall (fun c => plainOpt c = true) o) \/
  exists n v, o = n ++ quoteByte :: v ++ [quoteByte] /\ Forall (fun c => plainOpt c = true) n /\
    has quoteByte v = false /\ notBackslash (lastOr None n) = true /\ notBackslash (lastOr None v) = true.

Lemma lastOr_notBackslash p s : notBackslash p = true -> notBackslash (lastOr None s) = true -> notBackslash (lastOr p s) = true.
Proof. intros Hp Hs. destruct s as [|c s]; [done|]. exact Hs. Qed.

Lemma scan_option o prev acc rest :
  option_ok o -> notBackslash prev = true -> rest <> [] ->
  exists p, scanOptions prev false [] acc (o ++ rest) = scanOptions p false (reverse o) acc rest.
Proof.
  intros [[_ Ho]|(n & v & -> & Hn & Hv & Hbn & Hbv)] Hp Hr.
  - rewrite scan_plain by done. rewrite app_nil_r. eauto.
  - rewrite <- app_assoc. rewrite scan_plain by done. rewrite app_nil_r. cbn [app].
    rewrite scan_quote; [|by apply lastOr_notBackslash|by destruct v]. rewrite <- app_assoc.
    rewrite scan_quoted by done. cbn [app]. rewrite scan_quote; [|by apply lastOr_notBackslash|done].
    eexists. f_equal. rewrite !reverse_app, reverse_cons, reverse_app. cbn. by rewrite <- !app_assoc.
Qed.

Lemma option_ok_ne o : option_ok o -> o <> [].
Proof. intros [[? _]|(n & v & -> & _)]; [done|]. by destruct n. Qed.

Lemma scan_options opts prev acc tail :
  opts <> [] -> Forall option_ok opts -> notBackslash prev = true ->
  scanOptions prev false [] acc (join_byte comma opts ++ spaceByte :: tail) = (acc ++ opts, spaceByte :: tail).
Proof.
  intros Hne Ho. revert prev acc Hne. induction Ho as [|o opts Ho Hos IH]; intros prev acc Hne Hp; [done|].
  assert (Hz : (0 <? zlen (reverse o)) = true).
  { pose proof (option_ok_ne o Ho). unfold zlen. rewrite length_reverse. destruct o; [done|]. cbn [length]. apply Z.ltb_lt. lia. }
  destruct opts as [|o' opts].
  - cbn [join_byte]. destruct (scan_option o prev acc (spaceByte :: tail)) as [p ->]; [done..|].
    cbn [scanOptions]. change (isBlank spaceByte) with true. cbn [negb andb]. rewrite orb_true_r, Hz. cbn [andb].
    by rewrite reverse_involutive.
  - change (join_byte comma (o :: o' :: opts)) with (o ++ comma :: join_byte comma (o' :: opts)).
    rewrite <- app_assoc. destruct (scan_option o prev acc ((comma :: join_byte comma (o' :: opts)) ++ spaceByte :: tail)) as [p ->]; [done..|].
    cbn [app scanOptions]. change (isBlank comma) with false. change (Byte.eqb comma ",") with true.
    change (Byte.eqb comma quoteByte) with false. cbn [negb andb orb]. rewrite Hz.
    destruct (join_byte comma (o' :: opts) ++ spaceByte :: tail) as [|x l] eqn:E; [by destruct (join_byte comma (o' :: opts))|].
    rewrite reverse_involutive, IH by done. by rewrite <- app_assoc.
Qed.

(** ** Every input *)

Section Lines.
Context `{LawfulKeyLib}.

Lemma parseAuthorizedKey_not_panic i : panics (parseAuthorizedKey i) = false.
Proof.
  unfold parseAuthorizedKey. destruct (cutAt isBlank (trimSpace i)) as [[a b]|];
    (apply obind_not_panic; [apply b64decode_not_panic|]; intros m _;
     apply obind_not_panic; [apply parse_fuel; unfold parseFuel; lia|done]).
Qed.

Lemma keyAfterType_not_panic line w : keyAfterType line <> Some (Panic w).
Proof.
  unfold keyAfterType. destruct (cutAt isBlank line) as [[a b]|]; [|done].
  intros [= E]. pose proof (parseAuthorizedKey_not_panic b) as Hp. by rewrite E in Hp.
Qed.

Lemma authorizedLine_not_panic line : panics (authorizedLine line) = false.
Proof.
  unfold authorizedLine. destruct (isComment line); [done|].
  destruct (keyAfterType line) as [[[out c]|e|w]|] eqn:E; [done| |by apply keyAfterType_not_panic in E|done].
  destruct (scanOptions None false [] [] line) as [opts tail].
  destruct (keyAfterType (dropBlanks tail)) as [[[out c]|e'|w]|] eqn:E'; [done|done|by apply keyAfterType_not_panic in E'|done].
Qed.

Lemma nextLine_shorter b i line rest : nextLine (b :: i) = (line, rest) -> (length rest < length (b :: i))%nat.
Proof.
  unfold nextLine. pose proof (cutAt_spec (Byte.eqb newlineByte) (b :: i)) as Hc.
  destruct (cutAt _ (b :: i)) as [[a t]|]; [|intros; simplify_eq; simpl; lia].
  destruct Hc as (E & _ & c & t' & -> & _). intros; simplify_eq. rewrite E, length_app. simpl. lia.
Qed.

Lemma authorizedLoop_not_panic fuel i : (length i <= fuel)%nat -> panics (authorizedLoop fuel i) = false.
Proof.
  revert i. induction fuel as [|fuel IH]; intros [|b i] Hf; try done; [simpl in Hf; lia|].
  cbn [authorizedLoop]. destruct (nextLine (b :: i)) as [line rest] eqn:E. apply nextLine_shorter in E.
  apply obind_not_panic; [apply authorizedLine_not_panic|]. intros [[[out c] opts]|] _; [done|]. apply IH. simpl in *. lia.
Qed.

Lemma knownHostEntry_not_panic fs rest : panics (knownHostEntry fs rest) = false.
Proof.
  unfold knownHostEntry. destruct (_ || _); [done|].
  destruct (match fs with (c :: m) :: more => _ | _ => _ end) as [marker fs'].
  apply obind_not_panic; [apply parseAuthorizedKey_not_panic|]. by intros [] _.
Qed.

Lemma knownHostsLoop_not_panic fuel i : (length i <= fuel)%nat -> panics (knownHostsLoop fuel i) = false.
Proof.
  revert i. induction fuel as [|fuel IH]; intros [|b i] Hf; try done; [simpl in Hf; lia|].
  cbn [knownHostsLoop]. destruct (nextLine (b :: i)) as [line rest] eqn:E. apply nextLine_shorter in E.
  destruct (isComment _); [apply IH; simpl in *; lia|].
  destruct (cutAt isBlank _); [apply knownHostEntry_not_panic | apply IH; simpl in *; lia].
Qed.

(** A line with options. *)
Lemma authorizedLine_options opts t k m comment :
  opts <> [] -> Forall option_ok opts -> goodName t = true -> ParsePublicKey m = Ret k -> m <> [] ->
  comment = [] \/ framed comment ->
  let line := join_byte comma opts ++ spaceByte :: t ++ spaceByte :: keyText m comment in
  isComment line = false -> (forall kc, keyAfterType line <> Some (Ret kc)) ->
  authorizedLine line = Ret (Some (k, comment, opts)).
Proof.
  intros Hne Ho Ht Hk Hm Hc line Hi Hfirst. unfold authorizedLine. rewrite Hi.
  assert (Hs : scanOptions None false [] [] line = (opts, spaceByte :: t ++ spaceByte :: keyText m comment)).
  { by apply (scan_options opts None []). }
  rewrite Hs. cbn [dropBlanks]. change (isBlank spaceByte) with true. cbn iota.
  assert (Hd : dropBlanks (t ++ spaceByte :: keyText m comment) = t ++ spaceByte :: keyText m comment).
  { apply goodName_parts in Ht as (Hsol & _ & _ & _ & _ & Hnt). destruct t as [|c t]; [done|]. cbn [app dropBlanks].
    apply Forall_cons in Hsol as [Hc0 _]. by apply solid_plain in Hc0 as (_ & _ & _ & -> & _). }
  rewrite Hd, (keyAfterType_text t k) by done.
  destruct (keyAfterType line) as [[kc|e|w]|] eqn:E.
  - by destruct (Hfirst kc).
  - done.
  - by apply keyAfterType_not_panic in E.
  - exfalso. unfold keyAfterType in E. destruct (cutAt isBlank line) as [[]|] eqn:Ec; [done|].
    pose proof (cutAt_spec isBlank line) as Hcut. rewrite Ec in Hcut. unfold line in Hcut.
    apply Forall_app in Hcut as [_ [Hb _]%Forall_cons]. done.
Qed.
End Lines.

(** ** Properties *)

(** what [MarshalAuthorizedKey] writes for a well-formed key, followed by
    anything, is read back by [ParseAuthorizedKey]: the same key, no comment, no
    options, and the rest of the input. *)
Theorem authorized_key_roundtrip `{KeyLib} (k : PublicKey) (m text rest : bytes) :
  key_wf k -> key_fits k -> pub_Marshal k = Ret m -> zlen m < 2 ^ 32 -> MarshalAuthorizedKey k = Ret text ->
  ParseAuthorizedKey (text ++ rest) = Ret (mkAuthorizedKey k [] [] rest).
Proof.
  intros Hw Hf Hm Hl Ht. destruct (key_type_name k Hw) as (t & Htype & Hin). unfold MarshalAuthorizedKey in Ht.
  rewrite Htype, Hm in Ht. cbn [obind] in Ht. apply Ret_inj in Ht as <-.
  pose proof (parsePublicKey_enc k m (parseFuel m) Hw Hf Hm Hl (le_n _)) as Hp.
  assert (Hne : m <> []) by by intros ->.
  pose proof (ParseAuthorizedKey_line t k m [] rest (algoNames_good t Hin) Hp Hne (or_introl eq_refl) (Forall_nil_2 _)) as Hk.
  unfold keyText in Hk. rewrite app_nil_r in Hk. rewrite <- Hk. f_equal. rewrite <- !app_assoc. done.
Qed.

Lemma authorized_key_roundtrip_witness :
  exists text, @MarshalAuthorizedKey toyKeyLib (rsaPublicKey 3 15) = Ret text /\
    @ParseAuthorizedKey toyKeyLib (text ++ str "next line") = Ret (mkAuthorizedKey (rsaPublicKey 3 15) [] [] (str "next line")).
Proof.
  destruct (@MarshalAuthorizedKey toyKeyLib (rsaPublicKey 3 15)) as [text| |] eqn:E; [|vm_compute in E; discriminate..].
  exists text. split; [done|].
  apply (@authorized_key_roundtrip toyKeyLib _ (enc_str KeyAlgoRSA ++ enc_int 3 ++ enc_int 15)).
  - by split.
  - done.
  - by vm_compute.
  - by vm_compute.
  - exact E.
Defined.

(** a line of an [authorized_keys] file with options, separated by commas and
    perhaps with quoted text that contains commas and blanks, then the key type,
    the key and perhaps a comment, is read as exactly these, unless the text
    after the first blank of the line is already a key (the code looks there
    first, also inside quotes). *)
Theorem authorized_options `{LawfulKeyLib} (opts : list bytes) (t m comment rest : bytes) (k : PublicKey) :
  let line := join_byte comma opts ++ spaceByte :: t ++ spaceByte :: keyText m comment in
  opts <> [] -> Forall option_ok opts -> t ∈ algoNames -> ParsePublicKey m = Ret k -> m <> [] ->
  comment = [] \/ framed comment -> framed line -> noEnd line -> isComment line = false ->
  (forall kc, keyAfterType line <> Some (Ret kc)) ->
  ParseAuthorizedKey (line ++ newlineByte :: rest) = Ret (mkAuthorizedKey k comment opts rest).
Proof.
  intros line Hne Ho Ht Hk Hm Hc Hf Hn Hi Hfirst. unfold ParseAuthorizedKey.
  destruct (length _) as [|fuel] eqn:El; [by apply nil_length_inv in El; destruct line|].
  rewrite authorizedLoop_line by done.
  assert (Hl : authorizedLine line = Ret (Some (k, comment, opts))).
  { apply (authorizedLine_options opts t k m comment); eauto using algoNames_good. }
  by rewrite Hl.
Qed.

Definition optionSample : list bytes := [str "no-pty"; str "command=" ++ [quoteByte] ++ str "ls -l, cat" ++ [quoteByte]].
Definition keySample : bytes := enc_str KeyAlgoRSA ++ enc_int 3 ++ enc_int 15.

Lemma authorized_options_witness :
  @ParseAuthorizedKey toyKeyLib
    ((join_byte comma optionSample ++ spaceByte :: KeyAlgoRSA ++ spaceByte :: keyText keySample (str "me")) ++ newlineByte :: [])
  = Ret (mkAuthorizedKey (rsaPublicKey 3 15) (str "me") optionSample []).
Proof.
  apply (@authorized_options toyKeyLib toyKeyLib_lawful optionSample KeyAlgoRSA keySample (str "me") [] (rsaPublicKey 3 15)).
  - done.
  - apply Forall_cons. split; [left; split; [done | by repeat constructor]|]. apply Forall_cons. split; [|done].
    right. exists (str "command="), (str "ls -l, cat"). split_and!; try done. by repeat constructor.
  - by apply list_elem_of_In; vm_compute; tauto.
  - by vm_compute.
  - done.
  - right. apply framed_solids; [done | by repeat constructor].
  - by apply (framed_ends _ "n" "e").
  - by repeat constructor.
  - done.
  - intros kc. by vm_compute.
Defined.

(** both parsers of key files end on every input, with an entry or an error
    and without a panic: the length of the input is enough fuel. *)
Theorem key_files_total `{LawfulKeyLib} (i : bytes) :
  panics (ParseAuthorizedKey i) = false /\ panics (ParseKnownHosts i) = false.
Proof. split; [by apply authorizedLoop_not_panic | by apply knownHostsLoop_not_panic]. Qed.

Lemma key_files_total_witness :
  panics (@ParseAuthorizedKey toyKeyLib (str "# comment")) = false /\ panics (@ParseKnownHosts toyKeyLib (str "# comment")) = false.
Proof. apply (@key_files_total toyKeyLib toyKeyLib_lawful). Defined.
