(* ===== verification/KnownHosts.v ===== *)
(** * The known_hosts database (knownhosts/knownhosts.go)

    Reading the file (markers, host patterns, hashed hosts, keys), matching
    addresses, and the host key callback that [New] returns.  HMAC-SHA1 and the
    file system are parameters. *)

From S2P Require Import Prelude Text Wire Codec Negotiate Kex Auth Keys KeyFiles Certs.

(** ** Addresses and patterns *)

Record addr := mkAddr { addr_host : bytes; addr_port : bytes }.

Definition addr_String (a : addr) : bytes :=
  let h := addr_host a in
  let h := if has colon h then [lbracket] ++ h ++ [rbracket] else h in
  h ++ [colon] ++ addr_port a.

Record hostPattern := mkHostPattern { hp_negate : bool; hp_addr : addr }.

Definition star : byte := "*".
Definition question : byte := "?".

(** The non-empty suffixes, [str[j:]] for the indices of [str]. *)
Fixpoint suffixes (s : bytes) : list bytes :=
  match s with
  | [] => []
  | _ :: s' => s :: suffixes s'
  end.

Fixpoint wildcardMatch (pat s : bytes) : bool :=
  match pat with
  | [] => bool_decide (s = [])
  | p :: pat' =>
      match s with
      | [] => false
      | c :: s' =>
          if Byte.eqb p star then
            match pat' with
            | [] => true
            | _ => existsb (wildcardMatch pat') (suffixes s)
            end
          else if Byte.eqb p question || Byte.eqb p c then wildcardMatch pat' s'
          else false
      end
  end.

Definition pattern_match (p : hostPattern) (a : addr) : bool :=
  wildcardMatch (addr_host (hp_addr p)) (addr_host a) && bool_decide (addr_port (hp_addr p) = addr_port a).

(** The inner loop: [None] when a negated pattern matches. *)
Fixpoint patternAddrs (p : hostPattern) (addrs : list addr) (matched : bool) : option bool :=
  match addrs with
  | [] => Some matched
  | a :: addrs' =>
      if negb (pattern_match p a) then patternAddrs p addrs' matched
      else if hp_negate p then None
      else patternAddrs p addrs' true
  end.

Fixpoint patternsLoop (ps : list hostPattern) (addrs : list addr) (matched : bool) : bool :=
  match ps with
  | [] => matched
  | p :: ps' =>
      match patternAddrs p addrs matched with
      | None => false
      | Some matched => patternsLoop ps' addrs matched
      end
  end.

Definition hostPatterns_match (ps : list hostPattern) (addrs : list addr) : bool := patternsLoop ps addrs false.

(** ** Normal form *)

Definition Normalize (address : bytes) : bytes :=
  let '(host, port) :=
    match splitHostPort address with
    | Ret (host, port) => (host, port)
    | _ => (address, str "22")
    end in
  if negb (bool_decide (port = str "22")) then [lbracket] ++ host ++ [rbracket; colon] ++ port
  else if has colon host && negb (hasPrefix [lbracket] host) then [lbracket] ++ host ++ [rbracket]
  else host.

(** ** Hashed hosts *)

Definition bar : byte := "|".
Definition sha1HashType : bytes := str "1".

Definition encodeHash (typ salt hash : bytes) : bytes :=
  join_byte bar [[]; typ; b64encode true salt; b64encode true hash].

Definition decodeHash (encoded : bytes) : outcome (bytes * bytes * bytes) :=
  if negb (hasPrefix [bar] encoded) then Fail (errNew "knownhosts: hashed host must start with '|'")
  else
    match split_byte bar encoded with
    | [_; hashType; salt; hash] =>
        let? salt := b64decode salt in
        let? hash := b64decode hash in
        Ret (hashType, salt, hash)
    | components => Fail (Errorf "knownhosts: got %d components, want 3" [FNum (zlen components)])
    end.

Class HostLib := { hmac_sha1 : bytes -> bytes -> bytes }.

Section Hashing.
Context `{HostLib}.

Definition hashHost (hostname salt : bytes) : bytes := hmac_sha1 salt hostname.

(** [rand] is what the random source delivers. *)
Definition HashHostname (rand hostname : bytes) : outcome bytes :=
  if zlen rand <? 20 then Panic "crypto/rand failure"
  else
    let salt := ztake 20 rand in
    Ret (encodeHash sha1HashType salt (hashHost hostname salt)).

Definition hashedHost_match (salt hash : bytes) (addrs : list addr) : bool :=
  existsb (fun a => bool_decide (hashHost (Normalize (addr_String a)) salt = hash)) addrs.
End Hashing.

Definition newHashedHost (encoded : bytes) : outcome (bytes * bytes) :=
  let? (typ, salt, hash) := decodeHash encoded in
  if negb (bool_decide (typ = sha1HashType)) then Fail (Errorf "knownhosts: got hash type %s, must be '1'" [FStr typ])
  else Ret (salt, hash).

(** ** The database *)

Inductive matcher :=
| HostPatterns (ps : list hostPattern)
| HashedHost (salt hash : bytes).

Record KnownKey := mkKnownKey { kk_Key : PublicKey; kk_Filename : bytes; kk_Line : Z }.

Record keyDBLine := mkKeyDBLine { dl_cert : bool; dl_matcher : matcher; dl_knownKey : KnownKey }.

Record hostKeyDB := mkHostKeyDB { db_revoked : gmap bytes KnownKey; db_lines : list keyDBLine }.

Definition newHostKeyDB : hostKeyDB := mkHostKeyDB ∅ [].

Definition markerCert : bytes := str "@cert-authority".
Definition markerRevoked : bytes := str "@revoked".

Definition nextWord (line : bytes) : bytes * bytes :=
  match cutAt isBlank line with
  | None => (line, [])
  | Some (a, b) => (a, trimSpace b)
  end.

(** One pattern of a list, [None] when it is empty. *)
Definition parsePattern (p : bytes) : outcome (option hostPattern) :=
  match p with
  | [] => Ret None
  | c :: p' =>
      let '(negate, p) := if Byte.eqb c "!" then (true, p') else (false, p) in
      match p with
      | [] => Fail (errNew "knownhosts: negation without following hostname")
      | c :: _ =>
          if Byte.eqb c lbracket then
            let? (host, port) := splitHostPort p in
            Ret (Some (mkHostPattern negate (mkAddr host port)))
          else
            Ret (Some (mkHostPattern negate
              match splitHostPort p with
              | Ret (host, port) => mkAddr host port
              | _ => mkAddr p (str "22")
              end))
      end
  end.

Fixpoint parsePatterns (ps : list bytes) : outcome (list hostPattern) :=
  match ps with
  | [] => Ret []
  | p :: ps' =>
      let? hp := parsePattern p in
      let? hps := parsePatterns ps' in
      Ret (match hp with Some h => h :: hps | None => hps end)
  end.

Definition newHostnameMatcher (pattern : bytes) : outcome (list hostPattern) := parsePatterns (split_byte comma pattern).

Inductive checkError :=
| KeyError (Want : list KnownKey)
| RevokedError (Revoked : KnownKey)
| OtherError (e : error).

(** As an [error]. *)
Definition checkError_Error (e : checkError) : error :=
  match e with
  | KeyError [] => errNew "knownhosts: key is unknown"
  | KeyError _ => errNew "knownhosts: key mismatch"
  | RevokedError _ => errNew "knownhosts: key is revoked"
  | OtherError e => e
  end.

Section Database.
Context `{KeyLib, HostLib}.

Definition matcher_match (m : matcher) (addrs : list addr) : bool :=
  match m with
  | HostPatterns ps => hostPatterns_match ps addrs
  | HashedHost salt hash => hashedHost_match salt hash addrs
  end.

Definition serialize (k : PublicKey) : outcome bytes :=
  let? t := pub_Type k in
  let? m := pub_Marshal k in
  Ret (t ++ [spaceByte] ++ b64encode true m).

Definition Line (addresses : list bytes) (key : PublicKey) : outcome bytes :=
  let? s := serialize key in
  Ret (join_byte comma (map Normalize addresses) ++ [spaceByte] ++ s).

(** *** Reading *)

Definition parseLine (line : bytes) : outcome (bytes * bytes * PublicKey) :=
  let '(w, next) := nextWord line in
  let '(marker, line) := if bool_decide (w = markerCert \/ w = markerRevoked) then (w, next) else ([], line) in
  let '(host, line) := nextWord line in
  if bool_decide (line = []) then Fail (errNew "knownhosts: missing host pattern")
  else
    let '(_, line) := nextWord line in
    if bool_decide (line = []) then Fail (errNew "knownhosts: missing key type pattern")
    else
      let '(keyBlob, _) := nextWord line in
      let? keyBytes := b64decode keyBlob in
      let? key := ParsePublicKey keyBytes in
      Ret (marker, host, key).

Definition db_parseLine (db : hostKeyDB) (line filename : bytes) (linenum : Z) : outcome hostKeyDB :=
  let? (marker, pattern, key) := parseLine line in
  let known := mkKnownKey key filename linenum in
  if bool_decide (marker = markerRevoked) then
    let? m := pub_Marshal key in
    Ret (mkHostKeyDB (<[m := known]> (db_revoked db)) (db_lines db))
  else
    match pattern with
    | [] => Panic "index out of range"
    | c :: _ =>
        let? m :=
          if Byte.eqb c bar then let? (salt, hash) := newHashedHost pattern in Ret (HashedHost salt hash)
          else let? ps := newHostnameMatcher pattern in Ret (HostPatterns ps) in
        Ret (mkHostKeyDB (db_revoked db) (db_lines db ++ [mkKeyDBLine (bool_decide (marker = markerCert)) m known]))
    end.

(** The longest line of a [bufio.Scanner]. *)
Definition maxScanToken : Z := 65536.

(** A line of a [bufio.Scanner] loses one carriage return at its end. *)
Definition dropCR (line : bytes) : bytes :=
  match reverse line with
  | c :: r => if Byte.eqb c returnByte then reverse r else line
  | [] => []
  end.

(** [Read] changes the database up to the line that fails. *)
Fixpoint readLines (fuel : nat) (i filename : bytes) (lineNum : Z) (db : hostKeyDB) : outcome unit * hostKeyDB :=
  match i, fuel with
  | [], _ => (Ret tt, db)
  | _, O => (Panic "out of fuel", db)
  | _, S fuel =>
      let '(line, rest) := nextLine i in
      if maxScanToken <=? zlen line then (Fail (errNew "bufio.Scanner: token too long"), db)
      else
        let lineNum := lineNum + 1 in
        let line := trimSpace (dropCR line) in
        if isComment line then readLines fuel rest filename lineNum db
        else
          match db_parseLine db line filename lineNum with
          | Ret db => readLines fuel rest filename lineNum db
          | Fail _ => (Fail (Errorf "knownhosts: %s:%d: %v" [FStr filename; FNum lineNum]), db)
          | Panic w => (Panic w, db)
          end
  end.

Definition Read (contents filename : bytes) (db : hostKeyDB) : outcome unit * hostKeyDB :=
  readLines (length contents) contents filename 0 db.

(** *** Checking *)

Definition keyEq (a b : PublicKey) : outcome bool :=
  let? x := pub_Marshal a in
  let? y := pub_Marshal b in
  Ret (bool_decide (x = y)).

Fixpoint authorityLines (ls : list keyDBLine) (remote : option PublicKey) (a : addr) : outcome bool :=
  match ls with
  | [] => Ret false
  | l :: ls' =>
      if dl_cert l then
        let? remoteKey := match remote with Some k => Ret k | None => Panic "nil pointer dereference" end in
        let? eq := keyEq (kk_Key (dl_knownKey l)) remoteKey in
        if eq && matcher_match (dl_matcher l) [a] then Ret true else authorityLines ls' remote a
      else authorityLines ls' remote a
  end.

Definition db_IsHostAuthority (db : hostKeyDB) (remote : option PublicKey) (address : bytes) : outcome bool :=
  match splitHostPort address with
  | Ret (h, p) => authorityLines (db_lines db) remote (mkAddr h p)
  | _ => Ret false
  end.

Definition db_IsRevoked (db : hostKeyDB) (key : Certificate) : outcome bool :=
  let? m := cert_Marshal key in
  Ret (bool_decide (is_Some (db_revoked db !! m))).

(** The first key of each type among the lines that match. *)
Fixpoint collectKeys (ls : list keyDBLine) (addrs : list addr) (known : gmap bytes KnownKey) : outcome (gmap bytes KnownKey) :=
  match ls with
  | [] => Ret known
  | l :: ls' =>
      if matcher_match (dl_matcher l) addrs then
        let? typ := pub_Type (kk_Key (dl_knownKey l)) in
        collectKeys ls' addrs
          (match known !! typ with Some _ => known | None => <[typ := dl_knownKey l]> known end)
      else collectKeys ls' addrs known
  end.

(** [None] for a key that is accepted.  Go lists the wanted keys in any
    order. *)
Definition checkAddrs (db : hostKeyDB) (addrs : list addr) (remoteKey : PublicKey) : outcome (option checkError) :=
  let? knownKeys := collectKeys (db_lines db) addrs ∅ in
  let keyErr := KeyError (map_to_list knownKeys).*2 in
  if bool_decide (knownKeys = ∅) then Ret (Some keyErr)
  else
    let? t := pub_Type remoteKey in
    match knownKeys !! t with
    | None => Ret (Some keyErr)
    | Some known =>
        let? eq := keyEq (kk_Key known) remoteKey in
        Ret (if eq : bool then None else Some keyErr)
    end.

(** [remote] is the remote address as text. *)
Definition check (db : hostKeyDB) (address remote : bytes) (remoteKey : PublicKey) : outcome (option checkError) :=
  let? m := pub_Marshal remoteKey in
  match db_revoked db !! m with
  | Some revoked => Ret (Some (RevokedError revoked))
  | None =>
      match splitHostPort remote with
      | Fail _ => Ret (Some (OtherError (Errorf "knownhosts: SplitHostPort(%s): %v" [FStr remote])))
      | Panic w => Panic w
      | Ret (host, port) =>
          if bool_decide (address = []) then checkAddrs db [mkAddr host port] remoteKey
          else
            match splitHostPort address with
            | Fail _ => Ret (Some (OtherError (Errorf "knownhosts: SplitHostPort(%s): %v" [FStr address])))
            | Panic w => Panic w
            | Ret (host', port') => checkAddrs db [mkAddr host port; mkAddr host' port'] remoteKey
            end
      end
  end.

(** *** The callback *)

Definition fallback (db : hostKeyDB) (address remote : bytes) (key : PublicKey) : outcome unit :=
  let? r := check db address remote key in
  match r with None => Ret tt | Some e => Fail (checkError_Error e) end.

Definition certChecker (db : hostKeyDB) : CertChecker :=
  mkCertChecker [] None (Some (db_IsHostAuthority db)) None None (Some (fallback db)) (Some (db_IsRevoked db)).

(** [open] is [os.Open] with the contents of the file. *)
Fixpoint readFiles (open : bytes -> outcome bytes) (files : list bytes) (db : hostKeyDB) : outcome hostKeyDB :=
  match files with
  | [] => Ret db
  | fn :: files' =>
      let? contents := open fn in
      let '(r, db) := Read contents fn db in
      let? _ := r in
      readFiles open files' db
  end.

Definition New (open : bytes -> outcome bytes) (files : list bytes)
  : outcome (Z -> bytes -> bytes -> PublicKey -> outcome unit) :=
  let? db := readFiles open files newHostKeyDB in
  Ret (fun now => CheckHostKey now (certChecker db)).
End Database.
