(* ===== verification/KnownHostsFacts.v ===== *)
(** * known_hosts: what is accepted

    The matcher against a reference definition of patterns, lists of patterns,
    what [check] accepts, and that lines written by [Line] and [HashHostname]
    are read back to a database that accepts the key. *)

From S2P Require Import Prelude Text Wire Codec Negotiate Kex Auth Keys KeysFacts KeyFiles KeyFilesFacts Certs KnownHosts.

(** ** Patterns *)

(** The usual meaning of a pattern: [?] is one character, [*] any text. *)
Inductive globs : bytes -> bytes -> Prop :=
| globs_nil : globs [] []
| globs_star p s t : globs p t -> globs (star :: p) (s ++ t)
| globs_any p c s : globs p s -> globs (question :: p) (c :: s)
| globs_char p c s : c <> star -> globs p s -> globs (c :: p) (c :: s).

Definition allStars (p : bytes) : bool := forallb (Byte.eqb star) p.

Lemma allStars_star p : allStars (star :: p) = allStars p.
Proof. unfold allStars. cbn [forallb]. by rewrite byte_eqb_refl. Qed.

(** A pattern that ends in stars asks for one more character there. *)
Fixpoint demand (p : bytes) : bytes :=
  match p with
  | [] => []
  | c :: p' => if allStars p then question :: p else c :: demand p'
  end.

Lemma suffixes_elem t s : t ∈ suffixes s <-> t <> [] /\ exists u, s = u ++ t.
Proof.
  induction s as [|c s IH]; cbn [suffixes].
  - split; [by intros ?%elem_of_nil|]. intros [Hne [u Hu]]. symmetry in Hu. by apply app_nil in Hu as [_ ->].
  - rewrite elem_of_cons, IH. split.
    + intros [->|[Hne [u ->]]]; [split; [done | by exists []]|]. split; [done | by exists (c :: u)].
    + intros [Hne [[|x u] Hu]]; simplify_eq/=; [by left|]. right. eauto.
Qed.

Lemma globs_star_inv p s : globs (star :: p) s <-> exists u t, s = u ++ t /\ globs p t.
Proof.
  split.
  - inversion 1; simplify_eq; eauto; done.
  - intros (u & t & -> & Ht). by constructor.
Qed.

Lemma globs_any_inv p s : globs (question :: p) s <-> exists c t, s = c :: t /\ globs p t.
Proof.
  split.
  - inversion 1; simplify_eq; eauto.
  - intros (c & t & -> & Ht). by constructor.
Qed.

Lemma globs_char_inv c p s : c <> star -> c <> question -> globs (c :: p) s <-> exists t, s = c :: t /\ globs p t.
Proof.
  intros Hs Hq. split.
  - inversion 1; simplify_eq; eauto.
  - intros (t & -> & Ht). by constructor.
Qed.

Lemma globs_allStars p s : allStars p = true -> p <> [] -> globs p s.
Proof.
  unfold allStars. revert s. induction p as [|c p IH]; intros s Ha Hne; [done|]. cbn [forallb] in Ha.
  apply andb_true_iff in Ha as [<-%byte_eqb_true Ha]. apply globs_star_inv.
  destruct p as [|d p]; [exists s, []; rewrite app_nil_r; eauto using globs_nil|]. exists [], s. by split; [|apply IH].
Qed.

(** A pattern that is not empty and demands its last character matches no empty
    text. *)
Lemma demand_nonempty p s : p <> [] -> globs (demand p) s -> s <> [].
Proof.
  revert s. induction p as [|c p IH]; intros s Hne Hg ->; [done|]. cbn [demand] in Hg.
  destruct (allStars (c :: p)) eqn:Ea.
  - apply globs_any_inv in Hg as (? & ? & ? & _). done.
  - destruct (decide (c = star)) as [->|Hc]; [|by inversion Hg].
    apply globs_star_inv in Hg as (u & t & Et & Ht). symmetry in Et. apply app_nil in Et as [-> ->].
    apply (IH [] ltac:(by intros ->)); done.
Qed.

Lemma wildcard_globs pat s : wildcardMatch pat s = true <-> globs (demand pat) s.
Proof.
  revert s. induction pat as [|p pat IH]; intros s.
  { cbn. rewrite bool_decide_eq_true. split; [intros ->; constructor | by inversion 1]. }
  destruct s as [|c s].
  { split; [done|]. intros Hg. by apply demand_nonempty in Hg. }
  cbn [wildcardMatch demand]. destruct (Byte.eqb p star) eqn:Ep.
  - apply byte_eqb_true in Ep as ->. destruct pat as [|p2 pat].
    { split; [intros _|done]. apply globs_any_inv. exists c, s. split; [done|]. by apply globs_allStars. }
    rewrite existsb_exists, allStars_star. destruct (allStars (p2 :: pat)) eqn:Ea.
    + split; [intros _|intros _].
      * apply globs_any_inv. exists c, s. split; [done|]. apply globs_allStars; [by rewrite allStars_star | done].
      * exists (c :: s). split; [by left|]. apply IH. cbn [demand]. rewrite Ea.
        apply globs_any_inv. exists c, s. split; [done|]. by apply globs_allStars.
    + rewrite globs_star_inv. split.
      * intros (t & Ht%list_elem_of_In & Hm). apply suffixes_elem in Ht as [_ [u ->]]. apply IH in Hm. eauto.
      * intros (u & t & Et & Ht). exists t. split; [|by apply IH].
        apply list_elem_of_In, suffixes_elem. split; [|eauto]. by apply demand_nonempty in Ht.
  - apply byte_eqb_false in Ep. replace (allStars (p :: pat)) with false.
    2: { symmetry. unfold allStars. cbn [forallb]. apply andb_false_iff. left. apply byte_eqb_false. congruence. }
    destruct (Byte.eqb p question) eqn:Eq.
    + apply byte_eqb_true in Eq as ->. cbn [orb]. rewrite globs_any_inv, IH. naive_solver.
    + apply byte_eqb_false in Eq. cbn [orb]. rewrite globs_char_inv by done. destruct (Byte.eqb p c) eqn:Epc.
      * apply byte_eqb_true in Epc as ->. rewrite IH. naive_solver.
      * apply byte_eqb_false in Epc. naive_solver.
Qed.

Lemma wildcardMatch_refl h : wildcardMatch h h = true.
Proof.
  induction h as [|c h IH]; [done|]. cbn [wildcardMatch]. destruct (Byte.eqb c star).
  - destruct h as [|d h]; [done|]. apply existsb_exists. exists (d :: h). split; [|done].
    apply list_elem_of_In, suffixes_elem. split; [done | by exists [c]].
  - by rewrite byte_eqb_refl, orb_true_r.
Qed.

(** Lists of patterns. *)
Definition anyMatch (neg : bool) (ps : list hostPattern) (addrs : list addr) : bool :=
  existsb (fun p => Bool.eqb (hp_negate p) neg && existsb (pattern_match p) addrs) ps.

Lemma patternAddrs_spec p addrs matched :
  patternAddrs p addrs matched =
    if existsb (pattern_match p) addrs then if hp_negate p then None else Some true else Some matched.
Proof.
  revert matched. induction addrs as [|a addrs IH]; intros matched; [done|]. cbn [patternAddrs existsb].
  destruct (pattern_match p a); cbn [negb orb]; [|apply IH]. destruct (hp_negate p); [done|].
  rewrite IH. by destruct (existsb _ _).
Qed.

Lemma patternsLoop_spec ps addrs matched :
  patternsLoop ps addrs matched = (matched || anyMatch false ps addrs) && negb (anyMatch true ps addrs).
Proof.
  revert matched. induction ps as [|p ps IH]; intros matched; cbn [patternsLoop]; [by destruct matched|].
  rewrite patternAddrs_spec. unfold anyMatch in *. cbn [existsb].
  destruct (existsb (pattern_match p) addrs), (hp_negate p); cbn [Bool.eqb andb orb negb]; rewrite ?IH, ?orb_true_r, ?andb_false_r; try done.
  all: by destruct matched.
Qed.

(** ** What [check] looks at *)

Section Checking.
Context `{KeyLib, HostLib}.

(** The addresses that [check] tries. *)
Definition addressesOf (address remote : bytes) : option (list addr) :=
  match splitHostPort remote with
  | Ret (host, port) =>
      if bool_decide (address = []) then Some [mkAddr host port]
      else match splitHostPort address with
           | Ret (host', port') => Some [mkAddr host port; mkAddr host' port']
           | _ => None
           end
  | _ => None
  end.

Definition lineMatches (addrs : list addr) (l : keyDBLine) : bool := matcher_match (dl_matcher l) addrs.

Definition lineOfType (addrs : list addr) (t : bytes) (l : keyDBLine) : bool :=
  lineMatches addrs l && bool_decide (pub_Type (kk_Key (dl_knownKey l)) = Ret t).

(** The lines of a database that was read hold keys with a name and an encoding. *)
Definition line_ok (l : keyDBLine) : Prop :=
  exists t m, pub_Type (kk_Key (dl_knownKey l)) = Ret t /\ pub_Marshal (kk_Key (dl_knownKey l)) = Ret m.

Lemma collectKeys_spec ls addrs known : Forall line_ok ls ->
  exists known', collectKeys ls addrs known = Ret known' /\
    (forall t, known' !! t = match known !! t with
                             | Some k => Some k
                             | None => dl_knownKey <$> find (lineOfType addrs t) ls
                             end) /\
    (known' = ∅ <-> known = ∅ /\ Forall (fun l => lineMatches addrs l = false) ls).
Proof.
  intros Hls. revert known. induction Hls as [|l ls (t & m & Ht & Hm) Hls IH]; intros known.
  - exists known. split_and!; [done| |naive_solver]. intros t. by destruct (known !! t).
  - cbn [collectKeys find]. unfold lineOfType at 1. unfold lineMatches at 1. setoid_rewrite Forall_cons. unfold lineMatches in *.
    destruct (matcher_match (dl_matcher l) addrs) eqn:Em; cbn [andb].
    + rewrite Ht. cbn [obind]. destruct (IH (match known !! t with Some _ => known | None => <[t:=dl_knownKey l]> known end))
        as (known' & -> & Hl & He). exists known'. split_and!; [done| |].
      * intros t'. rewrite Hl. destruct (decide (t' = t)) as [->|Hne].
        -- rewrite bool_decide_true by done. destruct (known !! t) eqn:Ek; by rewrite ?Ek, ?lookup_insert_eq.
        -- rewrite bool_decide_false by congruence. destruct (known !! t); [done|]. by rewrite lookup_insert_ne.
      * split; [|naive_solver]. rewrite He. intros [Hk _]. destruct (known !! t) eqn:Ek.
        -- by rewrite Hk, lookup_empty in Ek.
        -- by apply insert_non_empty in Hk.
    + destruct (IH known) as (known' & -> & Hl & He). exists known'. split_and!; [done|done|]. rewrite He. naive_solver.
Qed.

Lemma map_to_list_values_nil (known : gmap bytes KnownKey) : (map_to_list known).*2 = [] <-> known = ∅.
Proof.
  split; [|intros ->; by rewrite map_to_list_empty]. intros E%fmap_nil_inv. by apply map_to_list_empty_iff.
Qed.

Lemma checkAddrs_spec db addrs key t m :
  Forall line_ok (db_lines db) -> pub_Type key = Ret t -> pub_Marshal key = Ret m ->
  exists r, checkAddrs db addrs key = Ret r /\
    (r = None <-> exists l, find (lineOfType addrs t) (db_lines db) = Some l /\ pub_Marshal (kk_Key (dl_knownKey l)) = Ret m) /\
    (r = Some (KeyError []) <-> Forall (fun l => lineMatches addrs l = false) (db_lines db)).
Proof.
  intros Hls Ht Hm. destruct (collectKeys_spec _ addrs ∅ Hls) as (known & Hc & Hl & He).
  unfold checkAddrs. rewrite Hc. cbn [obind]. specialize (Hl t). rewrite lookup_empty in Hl.
  assert (Hnil : (Some (KeyError (map_to_list known).*2) = Some (KeyError [])) <-> known = ∅).
  { rewrite <- map_to_list_values_nil. split; [by intros [=] | by intros ->]. }
  case_bool_decide as Hk.
  - eexists. split; [done|]. rewrite Hnil. split; [|naive_solver]. split; [done|]. intros (l & Hf & _).
    by rewrite Hk, lookup_empty, Hf in Hl.
  - rewrite Ht. cbn [obind]. rewrite Hl. destruct (find _ _) as [l|] eqn:Hf; cbn [fmap option_fmap option_map].
    + assert (Hin : line_ok l). { apply find_some in Hf as [Hin%list_elem_of_In _]. rewrite Forall_forall in Hls. by apply Hls. }
      destruct Hin as (t' & m' & _ & Hm'). unfold keyEq. rewrite Hm, Hm'. cbn [obind].
      eexists. split; [done|]. case_bool_decide as Eq.
      * split; [|naive_solver]. subst m'. naive_solver.
      * rewrite Hnil. split; [|naive_solver]. split; [done|]. intros (l' & [= <-] & E'). congruence.
    + eexists. split; [done|]. rewrite Hnil. naive_solver.
Qed.
End Checking.

(** ** Addresses as text *)

(** The characters of host names and addresses. *)
Definition hostByte (c : byte) : bool := solid c && negb (has c (str "[],|!@#")).

Definition portByte (c : byte) : bool := hostByte c && negb (Byte.eqb c colon).

Definition addr_ok (a : addr) : Prop :=
  addr_host a <> [] /\ Forall (fun c => hostByte c = true) (addr_host a) /\ Forall (fun c => portByte c = true) (addr_port a).

(** An address that [Line] can write: the port of an IPv6 address is not 22. *)
Definition addr_writable (a : addr) : Prop := addr_ok a /\ (has colon (addr_host a) = true -> addr_port a <> str "22").

Lemma byte_eqb_sym a b : Byte.eqb a b = Byte.eqb b a.
Proof. by apply eq_true_iff_eq; rewrite !byte_eqb_true. Qed.

Lemma hostByte_parts c : hostByte c = true -> solid c = true /\
  Byte.eqb lbracket c = false /\ Byte.eqb rbracket c = false /\ Byte.eqb comma c = false /\
  Byte.eqb bar c = false /\ Byte.eqb "!" c = false /\ Byte.eqb "@" c = false /\ Byte.eqb "#" c = false.
Proof.
  unfold hostByte. rewrite andb_true_iff, negb_true_iff. intros [Hs Hh]. split; [done|].
  apply has_false in Hh. change (str "[],|!@#") with [lbracket; rbracket; comma; bar; "!"%byte; "@"%byte; "#"%byte] in Hh.
  rewrite !Forall_cons in Hh. setoid_rewrite byte_eqb_false. setoid_rewrite byte_eqb_false in Hh.
  destruct Hh as (?&?&?&?&?&?&?&_). split_and!; congruence.
Qed.

Lemma portByte_parts c : portByte c = true -> hostByte c = true /\ Byte.eqb colon c = false.
Proof.
  unfold portByte. rewrite andb_true_iff, negb_true_iff. intros [? E]. split; [done|].
  apply byte_eqb_false in E. apply byte_eqb_false. congruence.
Qed.

Lemma hosts_lack b s : (forall c, hostByte c = true -> Byte.eqb b c = false) ->
  Forall (fun c => hostByte c = true) s -> has b s = false.
Proof. intros Hb Hs. apply has_false. eapply Forall_impl; eauto. Qed.

Lemma ports_lack b s : (forall c, portByte c = true -> Byte.eqb b c = false) ->
  Forall (fun c => portByte c = true) s -> has b s = false.
Proof. intros Hb Hs. apply has_false. eapply Forall_impl; eauto. Qed.

Lemma ports_hosts s : Forall (fun c => portByte c = true) s -> Forall (fun c => hostByte c = true) s.
Proof. intros Hs. eapply Forall_impl; [exact Hs|]. intros c Hc. by apply portByte_parts. Qed.

Lemma hosts_no_brackets s : Forall (fun c => hostByte c = true) s ->
  has lbracket s = false /\ has rbracket s = false /\ has comma s = false.
Proof. intros Hs. split_and!; (eapply hosts_lack; [|exact Hs]); intros c Hc; by apply hostByte_parts in Hc as (?&?&?&?&_). Qed.

Lemma ports_no_colon s : Forall (fun c => portByte c = true) s -> has colon s = false.
Proof. intros Hs. eapply ports_lack; [|exact Hs]. intros c Hc. by apply portByte_parts in Hc as [_ ?]. Qed.

Lemma splitHostPort_no_colon h : has colon h = false -> exists e, splitHostPort h = Fail e.
Proof.
  intros Hc%has_false. unfold splitHostPort, cutLastColon. rewrite cutAt_none by by apply Forall_reverse. by eexists.
Qed.

Lemma splitHostPort_String a : addr_ok a -> splitHostPort (addr_String a) = Ret (addr_host a, addr_port a).
Proof.
  destruct a as [h p]. intros (Hne & Hh & Hp). cbn [addr_host addr_port] in *. unfold addr_String. cbn [addr_host addr_port].
  destruct (hosts_no_brackets _ Hh) as (? & ? & _), (hosts_no_brackets _ (ports_hosts _ Hp)) as (? & ? & _).
  pose proof (ports_no_colon _ Hp). destruct (has colon h) eqn:Ec.
  - rewrite <- !app_assoc. by apply splitHostPort_brackets.
  - by apply splitHostPort_plain.
Qed.

Definition normalized (a : addr) : bytes :=
  if bool_decide (addr_port a = str "22") then addr_host a else [lbracket] ++ addr_host a ++ [rbracket; colon] ++ addr_port a.

Lemma Normalize_String a : addr_writable a -> Normalize (addr_String a) = normalized a.
Proof.
  intros [Ha Hw]. unfold Normalize. rewrite splitHostPort_String by done. unfold normalized.
  case_bool_decide as Hp; cbn [negb]; [|done]. destruct (has colon (addr_host a)); [by destruct Hw | done].
Qed.

Lemma parsePattern_normalized a : addr_writable a -> parsePattern (normalized a) = Ret (Some (mkHostPattern false a)).
Proof.
  destruct a as [h p]. intros [(Hne & Hh & Hp) Hw]. unfold normalized. cbn [addr_host addr_port] in *.
  destruct (hosts_no_brackets _ Hh) as (? & ? & _), (hosts_no_brackets _ (ports_hosts _ Hp)) as (? & ? & _).
  pose proof (ports_no_colon _ Hp). case_bool_decide as E.
  - assert (Hc : has colon h = false) by (destruct (has colon h); [by destruct Hw | done]).
    destruct (splitHostPort_no_colon h Hc) as [e He]. destruct h as [|c h]; [done|]. unfold parsePattern.
    apply Forall_cons in Hh as [(_ & Hl & _ & _ & _ & Hx & _)%hostByte_parts _].
    rewrite (byte_eqb_sym c "!"), Hx, (byte_eqb_sym c lbracket), Hl, He. by rewrite E.
  - unfold parsePattern. cbn [app]. change (Byte.eqb lbracket "!") with false. cbn iota.
    change (Byte.eqb lbracket lbracket) with true. cbn iota.
    change (lbracket :: h ++ rbracket :: colon :: p) with ([lbracket] ++ h ++ [rbracket; colon] ++ p).
    by rewrite splitHostPort_brackets.
Qed.

Lemma normalized_solid a : addr_ok a ->
  normalized a <> [] /\ Forall (fun c => solid c = true) (normalized a) /\ has comma (normalized a) = false /\
  match normalized a with c :: _ => c <> bar /\ c <> "#"%byte /\ c <> "@"%byte | [] => False end.
Proof.
  destruct a as [h p]. intros (Hne & Hh & Hp). cbn [addr_host addr_port] in *. apply ports_hosts in Hp.
  destruct (hosts_no_brackets _ Hh) as (_ & _ & Hc), (hosts_no_brackets _ Hp) as (_ & _ & Hpc).
  assert (Hs : forall s, Forall (fun c => hostByte c = true) s -> Forall (fun c => solid c = true) s).
  { intros s Hs. eapply Forall_impl; [exact Hs|]. intros c Hb. by apply hostByte_parts in Hb as [? _]. }
  unfold normalized. cbn [addr_host addr_port]. case_bool_decide.
  - split_and!; auto. destruct h as [|c h]; [done|]. apply Forall_cons in Hh as [Hb _].
    apply hostByte_parts in Hb as (_ & _ & _ & _ & H1 & _ & H2 & H3).
    apply byte_eqb_false in H1, H2, H3. split_and!; congruence.
  - split_and!; try done.
    + cbn [app]. apply Forall_cons. split; [done|]. apply Forall_app. split; [auto|].
      do 2 (apply Forall_cons; split; [done|]). auto.
    + unfold has in *. cbn [app existsb]. rewrite existsb_app. cbn [existsb]. rewrite Hc, Hpc. done.
Qed.

(** ** Lines *)

Lemma nextWord_app w rest : Forall (fun c => solid c = true) w -> framed rest -> nextWord (w ++ spaceByte :: rest) = (w, rest).
Proof.
  intros Hw Hr. unfold nextWord. rewrite cutAt_app by (done || by apply solids_no_blank).
  by rewrite trimSpace_blank, trimSpace_framed.
Qed.

Lemma nextWord_last w : Forall (fun c => solid c = true) w -> nextWord w = (w, []).
Proof. intros Hw. unfold nextWord. by rewrite cutAt_none by by apply solids_no_blank. Qed.

Lemma dropCR_framed s : framed s -> dropCR s = s.
Proof.
  intros [_ (s' & c & -> & Hc)]. unfold dropCR. rewrite reverse_snoc.
  replace (Byte.eqb c returnByte) with false; [done|]. symmetry. apply byte_eqb_false. by intros ->.
Qed.

Lemma framed_ne s : framed s -> s <> [].
Proof. intros [(c & s' & -> & _) _]. done. Qed.

Section Reading.
Context `{KeyLib, HostLib}.

(** A word for the hosts that is neither a comment nor a marker. *)
Definition hostsWord (w : bytes) : Prop :=
  Forall (fun c => solid c = true) w /\ match w with c :: _ => c <> "#"%byte /\ c <> "@"%byte | [] => False end.

Lemma hostsWord_framed w : hostsWord w -> framed w.
Proof. intros [Hs Hc]. apply framed_solids; [by intros -> | done]. Qed.

(** The text of a line for a key. *)
Definition entryText (hosts t m : bytes) : bytes := hosts ++ spaceByte :: t ++ spaceByte :: b64encode true m.

Lemma b64encode_framed m : m <> [] -> framed (b64encode true m).
Proof. intros Hm. apply framed_solids; [by intros E%b64encode_nil | apply b64encode_solid]. Qed.

Lemma entry_framed hosts t m : hostsWord hosts -> goodName t = true -> m <> [] ->
  framed (t ++ spaceByte :: b64encode true m) /\ framed (entryText hosts t m).
Proof.
  intros Hh (Ht & _ & _ & _ & _ & Hne)%goodName_parts Hm. pose proof (framed_solids _ Hne Ht) as Hft.
  pose proof (framed_app _ _ Hft (b64encode_framed m Hm) [spaceByte]) as Hf. split; [exact Hf|].
  exact (framed_app _ _ (hostsWord_framed _ Hh) Hf [spaceByte]).
Qed.

Lemma entry_noEnd hosts t m : hostsWord hosts -> goodName t = true -> noEnd (entryText hosts t m).
Proof.
  intros [Hh _] (Ht & _)%goodName_parts. unfold entryText, noEnd.
  apply Forall_app. split; [by apply solid_noEnd|]. apply Forall_cons. split; [done|].
  apply Forall_app. split; [by apply solid_noEnd|]. apply Forall_cons. split; [done|]. apply solid_noEnd, b64encode_solid.
Qed.

Lemma parseLine_entry hosts t m k :
  hostsWord hosts -> goodName t = true -> m <> [] -> ParsePublicKey m = Ret k ->
  parseLine (entryText hosts t m) = Ret ([], hosts, k).
Proof.
  intros Hh Ht Hm Hk. destruct (entry_framed hosts t m Hh Ht Hm) as [Hf _]. destruct Hh as [Hs Hc].
  unfold parseLine, entryText. rewrite nextWord_app by done. rewrite bool_decide_false.
  2: { intros [-> | ->]; by destruct Hc as [_ Hc]. }
  rewrite nextWord_app by done. rewrite bool_decide_false by by apply framed_ne.
  apply goodName_parts in Ht as (Ht & _). rewrite nextWord_app by (done || by apply b64encode_framed).
  rewrite bool_decide_false by by apply framed_ne, b64encode_framed. rewrite nextWord_last by apply b64encode_solid.
  rewrite b64decode_encode. cbn [obind]. by rewrite Hk.
Qed.

Lemma Read_entry hosts t m filename db :
  hostsWord hosts -> goodName t = true -> m <> [] -> zlen (entryText hosts t m) < maxScanToken ->
  Read (entryText hosts t m ++ [newlineByte]) filename db =
    match db_parseLine db (entryText hosts t m) filename 1 with
    | Ret db => (Ret tt, db)
    | Fail _ => (Fail (Errorf "knownhosts: %s:%d: %v" [FStr filename; FNum 1]), db)
    | Panic w => (Panic w, db)
    end.
Proof.
  intros Hh Ht Hm Hl. destruct (entry_framed hosts t m Hh Ht Hm) as [_ Hf]. pose proof (entry_noEnd hosts t m Hh Ht) as Hn.
  unfold Read. rewrite length_app. cbn [length]. rewrite Nat.add_1_r.
  destruct (entryText hosts t m ++ [newlineByte]) as [|b i] eqn:E; [by destruct (entryText hosts t m)|].
  cbn [readLines]. rewrite <- E, nextLine_app by done. replace (maxScanToken <=? _) with false by lia.
  rewrite dropCR_framed, trimSpace_framed by done.
  replace (isComment (entryText hosts t m)) with false.
  - destruct (db_parseLine _ _ _ _); [by destruct (length (entryText hosts t m)) | done | done].
  - destruct Hh as [_ Hc]. unfold entryText. destruct hosts as [|c hosts]; [done|]. cbn.
    symmetry. apply byte_eqb_false. naive_solver.
Qed.

Lemma parsePatterns_normalized addrs : Forall addr_writable addrs ->
  parsePatterns (map normalized addrs) = Ret (map (mkHostPattern false) addrs).
Proof.
  induction 1 as [|a addrs Ha _ IH]; [done|]. cbn [map parsePatterns].
  rewrite parsePattern_normalized by done. cbn [obind]. by rewrite IH.
Qed.

Lemma hosts_matcher addrs : addrs <> [] -> Forall addr_writable addrs ->
  newHostnameMatcher (join_byte comma (map normalized addrs)) = Ret (map (mkHostPattern false) addrs).
Proof.
  intros Hne Ha. unfold newHostnameMatcher. rewrite split_join.
  - by apply parsePatterns_normalized.
  - by destruct addrs.
  - apply Forall_map. eapply Forall_impl; [exact Ha|]. intros a [Hok _].
    destruct (normalized_solid a Hok) as (_ & _ & Hc & _). intros Hin. cbn in Hin. apply has_In in Hin. congruence.
Qed.

Lemma hosts_word addrs : addrs <> [] -> Forall addr_ok addrs ->
  hostsWord (join_byte comma (map normalized addrs)) /\ head (join_byte comma (map normalized addrs)) <> Some bar.
Proof.
  intros Hne Ha. destruct addrs as [|a addrs]; [done|]. apply Forall_cons in Ha as [Ha Has].
  destruct (normalized_solid a Ha) as (Hn & Hs & _ & Hh).
  assert (Hj : exists rest, join_byte comma (map normalized (a :: addrs)) = normalized a ++ rest /\
    Forall (fun c => solid c = true) rest).
  { cbn [map]. clear Hne Hn Hs Hh Ha. revert a. induction Has as [|b addrs Hb _ IH]; intros a.
    - exists []. cbn. by rewrite app_nil_r.
    - destruct (IH b) as (rest & Hr & Hsr). exists (comma :: normalized b ++ rest).
      change (join_byte comma (normalized a :: map normalized (b :: addrs)))
        with (normalized a ++ comma :: join_byte comma (normalized b :: map normalized addrs)).
      rewrite Hr. split; [done|]. apply Forall_cons. split; [done|]. apply Forall_app. split; [|done].
      by apply normalized_solid. }
  destruct Hj as (rest & -> & Hr). destruct (normalized a) as [|c n] eqn:E; [done|]. split; [split|].
  - by apply Forall_app.
  - naive_solver.
  - cbn. naive_solver.
Qed.

Lemma hash_word salt hash : hostsWord (encodeHash sha1HashType salt hash) /\ exists r, encodeHash sha1HashType salt hash = bar :: r.
Proof.
  unfold encodeHash. cbn [join_byte app]. split; [|by eexists]. split; [|by split].
  apply Forall_cons. split; [done|]. change sha1HashType with ["1"%byte]. cbn [app].
  apply Forall_cons. split; [done|]. apply Forall_cons. split; [done|].
  apply Forall_app. split; [apply b64encode_solid|]. apply Forall_cons. split; [done|]. apply b64encode_solid.
Qed.

Lemma b64encode_no_bar s : bar ∉ b64encode true s.
Proof.
  intros Hin. pose proof (b64encode_ok true s) as Hs. rewrite Forall_forall in Hs. specialize (Hs bar Hin). by vm_compute in Hs.
Qed.

Lemma newHashedHost_encode salt hash : newHashedHost (encodeHash sha1HashType salt hash) = Ret (salt, hash).
Proof.
  unfold newHashedHost, decodeHash, encodeHash. rewrite split_join.
  - change (hasPrefix [bar] _) with true. cbn [negb]. rewrite !b64decode_encode. done.
  - done.
  - repeat (apply Forall_cons; split; [|]); try apply b64encode_no_bar; [..|done].
    + apply not_elem_of_nil.
    + intros Hin%has_In. by vm_compute in Hin.
Qed.

(** A database with one line that matches the address accepts the key. *)
Lemma check_single address remote a h p l t m :
  address <> [] -> splitHostPort remote = Ret (h, p) -> splitHostPort address = Ret (addr_host a, addr_port a) ->
  lineMatches [mkAddr h p; a] l = true ->
  pub_Type (kk_Key (dl_knownKey l)) = Ret t -> pub_Marshal (kk_Key (dl_knownKey l)) = Ret m ->
  check (mkHostKeyDB ∅ [l]) address remote (kk_Key (dl_knownKey l)) = Ret None.
Proof.
  intros Hne Hr Ha Hl Ht Hm. unfold check. rewrite Hm. cbn [obind db_revoked]. rewrite lookup_empty, Hr, Ha.
  rewrite bool_decide_false by done. replace (mkAddr (addr_host a) (addr_port a)) with a by by destruct a.
  destruct (checkAddrs_spec (mkHostKeyDB ∅ [l]) [mkAddr h p; a] (kk_Key (dl_knownKey l)) t m) as (r & -> & Hn & _); [|done|done|].
  - apply Forall_singleton. by exists t, m.
  - f_equal. apply Hn. exists l. split; [|done]. cbn [find db_lines]. unfold lineOfType. rewrite Hl. by rewrite bool_decide_true.
Qed.

Lemma addr_String_ne a : addr_String a <> [].
Proof. unfold addr_String. cbn. by destruct (if has colon (addr_host a) then _ else _). Qed.

Lemma hosts_match addrs a a0 : a ∈ addrs -> hostPatterns_match (map (mkHostPattern false) addrs) [a0; a] = true.
Proof.
  intros Hin. unfold hostPatterns_match. rewrite patternsLoop_spec. cbn [orb]. apply andb_true_iff. split.
  - apply existsb_exists. exists (mkHostPattern false a). split; [apply in_map; by apply list_elem_of_In|]. cbn.
    unfold pattern_match. cbn. rewrite wildcardMatch_refl, (bool_decide_true (addr_port a = addr_port a)) by done.
    by rewrite orb_true_r.
  - apply negb_true_iff, not_true_iff_false. unfold anyMatch. rewrite existsb_exists.
    intros (p & Hp & Hb). apply in_map_iff in Hp as (x & <- & _). done.
Qed.
End Reading.

(** ** Every file *)

(** Text that starts with no white space. *)
Definition trimmed (s : bytes) : Prop := match s with c :: _ => space1 c = false | [] => True end.

Lemma trimLeft_trimmed s : trimmed (trimLeft s).
Proof.
  induction s as [s IH] using (induction_ltof1 _ (@length byte)). unfold ltof in IH.
  destruct s as [|a s1]; [done|]. simpl. destruct (space1 a) eqn:Ea; [apply IH; simpl; lia|].
  destruct s1 as [|b s2]; [done|]. destruct (space2 a b); [apply IH; simpl; lia|].
  destruct s2 as [|c s3]; [done|]. destruct (space3 a b c); [apply IH; simpl; lia | done].
Qed.

Lemma trimRev_suffix s : exists p, s = p ++ trimRev s.
Proof.
  induction s as [s IH] using (induction_ltof1 _ (@length byte)). unfold ltof in IH.
  assert (Hs : forall a t, s = a ++ t -> a <> [] -> exists p, s = p ++ trimRev t).
  { intros a t -> Ha. destruct (IH t) as [p Hp]; [destruct a; [done|]; rewrite length_app; simpl; lia|].
    exists (a ++ p). by rewrite <- app_assoc, <- Hp. }
  destruct s as [|a s1]; [by exists []|]. simpl. destruct (space1 a); [by apply (Hs [a])|].
  destruct s1 as [|b s2]; [by exists []|]. destruct (space2 b a); [by apply (Hs [a; b])|].
  destruct s2 as [|c s3]; [by exists []|]. destruct (space3 c b a); [by apply (Hs [a; b; c]) | by exists []].
Qed.

Lemma trimSpace_trimmed s : trimmed (trimSpace s).
Proof.
  unfold trimSpace. pose proof (trimLeft_trimmed s) as Ht. destruct (trimRev_suffix (reverse (trimLeft s))) as [p Hp].
  apply (f_equal reverse) in Hp. rewrite reverse_involutive, reverse_app in Hp. rewrite Hp in Ht.
  by destruct (reverse (trimRev _)).
Qed.

Lemma isBlank_space c : isBlank c = true -> space1 c = true.
Proof. unfold isBlank. rewrite orb_true_iff, !byte_eqb_true. by intros [-> | ->]. Qed.

Lemma nextWord_trimmed line w rest : trimmed line -> nextWord line = (w, rest) -> trimmed rest /\ (rest <> [] -> w <> []).
Proof.
  intros Hl. unfold nextWord. pose proof (cutAt_spec isBlank line) as Hc.
  destruct (cutAt isBlank line) as [[a b]|]; intros [= <- <-]; [|done]. split; [apply trimSpace_trimmed|].
  intros _ ->. destruct Hc as (-> & _ & c & b' & -> & Hb). cbn in Hl. apply isBlank_space in Hb. congruence.
Qed.

Section Total.
Context `{LawfulKeyLib, HostLib}.

Lemma ParsePublicKey_not_panic i : panics (ParsePublicKey i) = false.
Proof. apply parse_fuel. unfold parseFuel. lia. Qed.

Lemma parseLine_total line : trimmed line ->
  panics (parseLine line) = false /\ forall marker host key, parseLine line = Ret (marker, host, key) -> host <> [] /\ key_wf key.
Proof.
  intros Hl. unfold parseLine. destruct (nextWord line) as [w next] eqn:Ew.
  destruct (nextWord_trimmed _ _ _ Hl Ew) as [Hnext _].
  assert (Hc : exists marker line', (if bool_decide (w = markerCert \/ w = markerRevoked) then (w, next) else ([], line)) = (marker, line')
    /\ trimmed line') by (case_bool_decide; eauto).
  destruct Hc as (marker & line' & -> & Hl'). destruct (nextWord line') as [host rest] eqn:Eh.
  destruct (nextWord_trimmed _ _ _ Hl' Eh) as [_ Hhost]. case_bool_decide as Er; [done|].
  destruct (nextWord rest) as [ty rest2]. case_bool_decide; [done|]. destruct (nextWord rest2) as [blob rest3]. split.
  - apply obind_not_panic; [apply b64decode_not_panic|]. intros kb _.
    apply obind_not_panic; [apply ParsePublicKey_not_panic | done].
  - intros mk h k Hr. destruct (b64decode blob) as [kb| |]; [|done..]. cbn [obind] in Hr.
    destruct (ParsePublicKey kb) as [key| |] eqn:Ek; [|done..]. cbn [obind] in Hr. simplify_eq.
    split; [by apply Hhost|]. by eapply parse_wf.
Qed.

Lemma splitHostPort_not_panic s : panics (splitHostPort s) = false.
Proof. unfold splitHostPort. by repeat case_match. Qed.

Lemma newHostnameMatcher_not_panic p : panics (newHostnameMatcher p) = false.
Proof.
  unfold newHostnameMatcher. induction (split_byte comma p) as [|w ws IH]; [done|]. cbn [parsePatterns].
  apply obind_not_panic; [|intros hp _; by apply obind_not_panic; [apply IH|]]. unfold parsePattern.
  repeat case_match; try done; (apply obind_not_panic; [apply splitHostPort_not_panic | by intros [] _]).
Qed.

Lemma newHashedHost_not_panic p : panics (newHashedHost p) = false.
Proof.
  unfold newHashedHost. apply obind_not_panic; [|intros [[t s] h] _; by case_match]. unfold decodeHash.
  destruct (negb _); [done|]. destruct (split_byte bar p) as [|? [|? [|? [|? [|]]]]]; try done.
  apply obind_not_panic; [apply b64decode_not_panic|]. intros x _.
  apply obind_not_panic; [apply b64decode_not_panic | done].
Qed.

Definition db_ok (db : hostKeyDB) : Prop := Forall (fun l => key_wf (kk_Key (dl_knownKey l))) (db_lines db).

Lemma db_parseLine_total db line filename n : trimmed line ->
  panics (db_parseLine db line filename n) = false /\
  forall db', db_ok db -> db_parseLine db line filename n = Ret db' -> db_ok db'.
Proof.
  intros Hl. destruct (parseLine_total line Hl) as [Hp Hwf]. unfold db_parseLine.
  destruct (parseLine line) as [[[marker pat] key]| |]; [|done..]. cbn [obind].
  destruct (Hwf _ _ _ eq_refl) as [Hpat Hkey]. case_bool_decide.
  - destruct (key_Marshal_total key Hkey) as [m ->]. cbn [obind]. split; [done|]. by intros db' Hdb [= <-].
  - destruct pat as [|c pat]; [done|]. split.
    + apply obind_not_panic; [|done]. destruct (Byte.eqb c bar).
      * apply obind_not_panic; [apply newHashedHost_not_panic | by intros [] _].
      * apply obind_not_panic; [apply newHostnameMatcher_not_panic | done].
    + intros db' Hdb Hr. destruct (if Byte.eqb c bar then _ else _) as [m'| |]; [|done..].
      cbn [obind] in Hr. apply Ret_inj in Hr as <-. unfold db_ok. cbn [db_lines]. apply Forall_app. split; [done|].
      by apply Forall_singleton.
Qed.

Lemma readLines_total fuel i filename n db : (length i <= fuel)%nat ->
  panics (readLines fuel i filename n db).1 = false /\ (db_ok db -> db_ok (readLines fuel i filename n db).2).
Proof.
  revert i n db. induction fuel as [|fuel IH]; intros [|b i] n db Hf; try done; [simpl in Hf; lia|].
  cbn [readLines]. destruct (nextLine (b :: i)) as [line rest] eqn:E. apply nextLine_shorter in E. simpl in *.
  destruct (maxScanToken <=? zlen line); [done|]. destruct (isComment _); [apply IH; lia|].
  destruct (db_parseLine_total db (trimSpace (dropCR line)) filename (n + 1) (trimSpace_trimmed _)) as [Hp Hdb].
  destruct (db_parseLine _ _ _ _) as [db'| |]; [|done..].
  destruct (IH rest (n + 1) db') as [? ?]; [lia|]. split; [done|]. auto.
Qed.

Lemma key_wf_line_ok l : key_wf (kk_Key (dl_knownKey l)) -> line_ok l.
Proof.
  intros Hk. destruct (key_Marshal_total _ Hk) as [m Hm], (key_type_name _ Hk) as (t & Ht & _). by exists t, m.
Qed.
End Total.

(** ** Properties *)

(** A pattern matches an address: the host by the reference, the port exactly. *)
Definition hostMatches (p : hostPattern) (a : addr) : Prop :=
  globs (demand (addr_host (hp_addr p))) (addr_host a) /\ addr_port (hp_addr p) = addr_port a.

Lemma pattern_match_spec p a : pattern_match p a = true <-> hostMatches p a.
Proof. unfold pattern_match, hostMatches. by rewrite andb_true_iff, bool_decide_eq_true, wildcard_globs. Qed.

Lemma anyMatch_spec neg ps addrs :
  anyMatch neg ps addrs = true <-> exists p a, p ∈ ps /\ a ∈ addrs /\ hp_negate p = neg /\ hostMatches p a.
Proof.
  unfold anyMatch. rewrite existsb_exists. setoid_rewrite andb_true_iff. setoid_rewrite existsb_exists.
  setoid_rewrite eqb_true_iff. setoid_rewrite pattern_match_spec. setoid_rewrite <- list_elem_of_In. naive_solver.
Qed.

(** C25: a list of host patterns matches a list of addresses as the reference
    says: some pattern that is not negated matches some address and no negated
    pattern matches any; a pattern matches when the ports are equal and the host
    is in the language of the pattern, in which a star stands for any text, a
    question mark for one character, and stars at the end of the pattern for at
    least one character. *)
Theorem host_patterns_equivalence (ps : list hostPattern) (addrs : list addr) :
  hostPatterns_match ps addrs = true <->
    (exists p a, p ∈ ps /\ a ∈ addrs /\ hp_negate p = false /\ hostMatches p a) /\
    ~ (exists p a, p ∈ ps /\ a ∈ addrs /\ hp_negate p = true /\ hostMatches p a).
Proof.
  unfold hostPatterns_match. rewrite patternsLoop_spec. cbn [orb].
  rewrite andb_true_iff, negb_true_iff, <- not_true_iff_false, !anyMatch_spec. done.
Qed.

(** The star at the end of a pattern does not stand for the empty text. *)
Example trailing_star_needs_text :
  wildcardMatch (str "host*") (str "host") = false /\ wildcardMatch (str "*host") (str "host") = true.
Proof. done. Qed.

(** C16: what [check] decides for a key, for any database whose lines hold keys
    with an encoding: it returns; it accepts exactly when the key is not revoked,
    both addresses parse, and the first line of the key's type that matches one
    of the addresses has this very key; it calls the key unknown exactly when it
    is not revoked, the addresses parse and no line matches. *)
Theorem known_host_check `{KeyLib, HostLib} (db : hostKeyDB) (address remote : bytes) (key : PublicKey) (t m : bytes) :
  Forall line_ok (db_lines db) -> pub_Type key = Ret t -> pub_Marshal key = Ret m ->
  exists r, check db address remote key = Ret r /\
    (r = None <-> db_revoked db !! m = None /\ exists addrs l, addressesOf address remote = Some addrs /\
       find (lineOfType addrs t) (db_lines db) = Some l /\ pub_Marshal (kk_Key (dl_knownKey l)) = Ret m) /\
    (r = Some (KeyError []) <-> db_revoked db !! m = None /\ exists addrs, addressesOf address remote = Some addrs /\
       Forall (fun l => lineMatches addrs l = false) (db_lines db)).
Proof.
  intros Hls Ht Hm. unfold check. rewrite Hm. cbn [obind]. destruct (db_revoked db !! m) as [rv|]; [by eexists; naive_solver|].
  unfold addressesOf. pose proof (splitHostPort_not_panic remote) as Hp1. pose proof (splitHostPort_not_panic address) as Hp2.
  destruct (splitHostPort remote) as [[h p]|e|w]; [|by eexists; naive_solver|done]. case_bool_decide.
  - destruct (checkAddrs_spec db [mkAddr h p] key t m Hls Ht Hm) as (r & -> & Hn & Hu). eexists. split; [done|].
    rewrite Hn, Hu. naive_solver.
  - destruct (splitHostPort address) as [[h' p']|e|w]; [|by eexists; naive_solver|done].
    destruct (checkAddrs_spec db [mkAddr h p; mkAddr h' p'] key t m Hls Ht Hm) as (r & -> & Hn & Hu). eexists. split; [done|].
    rewrite Hn, Hu. naive_solver.
Qed.

(** HMAC-SHA1 for examples: 20 bytes of the salt and the text. *)
Definition toyHostLib : HostLib := {| hmac_sha1 salt text := ztake 20 (text ++ salt ++ repeat "000"%byte 20) |}.

Definition sampleKey : PublicKey := rsaPublicKey 3 15.
Definition sampleAddr : addr := mkAddr (str "host.example") (str "2222").
Definition sampleLine : keyDBLine :=
  mkKeyDBLine false (HostPatterns [mkHostPattern false sampleAddr]) (mkKnownKey sampleKey (str "known_hosts") 1).

Lemma known_host_check_witness :
  exists r, @check toyKeyLib toyHostLib (mkHostKeyDB ∅ [sampleLine]) (addr_String sampleAddr) (str "10.0.0.1:2222") sampleKey = Ret r /\
    r = None.
Proof.
  destruct (@known_host_check toyKeyLib toyHostLib (mkHostKeyDB ∅ [sampleLine]) (addr_String sampleAddr) (str "10.0.0.1:2222")
    sampleKey KeyAlgoRSA keySample) as (r & Hr & Hn & _).
  - apply Forall_singleton. exists KeyAlgoRSA, keySample. by vm_compute.
  - done.
  - by vm_compute.
  - exists r. split; [done|]. apply Hn. split; [done|].
    exists [mkAddr (str "10.0.0.1") (str "2222"); sampleAddr], sampleLine. split_and!; by vm_compute.
Defined.

Section Roundtrip.
Context `{KeyLib, HostLib}.

Lemma entry_accepted hosts mt (k : PublicKey) t m filename address remote a h p :
  key_wf k -> key_fits k -> pub_Type k = Ret t -> t ∈ algoNames -> pub_Marshal k = Ret m -> zlen m < 2 ^ 32 ->
  hostsWord hosts -> zlen (entryText hosts t m) < maxScanToken ->
  (match hosts with
   | [] => Panic "index out of range"
   | c :: _ => if Byte.eqb c bar then let? (salt, hash) := newHashedHost hosts in Ret (HashedHost salt hash)
               else let? ps := newHostnameMatcher hosts in Ret (HostPatterns ps)
   end) = Ret mt ->
  address <> [] -> splitHostPort remote = Ret (h, p) -> splitHostPort address = Ret (addr_host a, addr_port a) ->
  matcher_match mt [mkAddr h p; a] = true ->
  exists db, Read (entryText hosts t m ++ [newlineByte]) filename newHostKeyDB = (Ret tt, db) /\
    check db address remote k = Ret None.
Proof.
  intros Hw Hf Ht Hin Hm Hl Hh Hz Hmt Hne Hr Ha Hmatch.
  pose proof (algoNames_good t Hin) as Hg. assert (Hm0 : m <> []).
  { intros ->. pose proof (parsePublicKey_enc k [] (parseFuel []) Hw Hf Hm Hl (le_n _)). done. }
  pose proof (parsePublicKey_enc k m (parseFuel m) Hw Hf Hm Hl (le_n _)) as Hk.
  rewrite Read_entry by done. unfold db_parseLine. rewrite (parseLine_entry hosts t m k) by done. cbn [obind].
  change (bool_decide ([] = markerRevoked)) with false. change (bool_decide ([] = markerCert)) with false. cbn iota.
  destruct hosts as [|c hosts]; [done|]. rewrite Hmt. cbn [obind]. eexists. split; [done|].
  cbn [newHostKeyDB db_revoked db_lines app].
  by apply (check_single address remote a h p (mkKeyDBLine false mt (mkKnownKey k filename 1)) t m).
Qed.
End Roundtrip.

(** C26: the line that [Line] writes for a list of addresses and a key is read by
    [Read], and the database accepts that key for every one of the addresses,
    whatever address the connection came from: host names on port 22 and any
    host, IPv6 addresses included, on another port. *)
Theorem known_hosts_roundtrip `{KeyLib, HostLib} (addrs : list addr) (k : PublicKey) (m text filename remote h p : bytes) :
  addrs <> [] -> Forall addr_writable addrs -> key_wf k -> key_fits k -> pub_Marshal k = Ret m -> zlen m < 2 ^ 32 ->
  Line (map addr_String addrs) k = Ret text -> zlen text < maxScanToken -> splitHostPort remote = Ret (h, p) ->
  forall a, a ∈ addrs ->
  exists db, Read (text ++ [newlineByte]) filename newHostKeyDB = (Ret tt, db) /\ check db (addr_String a) remote k = Ret None.
Proof.
  intros Hne Hw Hk Hf Hm Hl Hline Hz Hr a Ha. destruct (key_type_name k Hk) as (t & Ht & Hin).
  unfold Line, serialize in Hline. rewrite Ht, Hm in Hline. cbn [obind] in Hline. apply Ret_inj in Hline as <-.
  assert (Hn : map Normalize (map addr_String addrs) = map normalized addrs).
  { rewrite map_map. apply map_ext_in. intros x Hx%list_elem_of_In. rewrite Forall_forall in Hw. by apply Normalize_String, Hw. }
  rewrite Hn in *. change (join_byte comma (map normalized addrs) ++ [spaceByte] ++ t ++ [spaceByte] ++ b64encode true m)
    with (entryText (join_byte comma (map normalized addrs)) t m) in *.
  assert (Hok : Forall addr_ok addrs) by (eapply Forall_impl; [exact Hw|]; by intros ? [? _]).
  destruct (hosts_word addrs Hne Hok) as [Hword Hbar].
  apply (entry_accepted _ (HostPatterns (map (mkHostPattern false) addrs)) k t m filename _ remote a h p); try done.
  - destruct (join_byte comma (map normalized addrs)) as [|c r] eqn:E; [by destruct Hword|].
    replace (Byte.eqb c bar) with false; [|symmetry; apply byte_eqb_false; by intros ->].
    rewrite <- E, hosts_matcher by done. done.
  - apply addr_String_ne.
  - rewrite Forall_forall in Hok. by apply splitHostPort_String, Hok.
  - by apply hosts_match.
Qed.

Lemma known_hosts_roundtrip_witness :
  exists text db, @Line toyKeyLib (map addr_String [sampleAddr; mkAddr (str "::1") (str "222"); mkAddr (str "h") (str "22")]) sampleKey = Ret text /\
    @Read toyKeyLib (text ++ [newlineByte]) (str "f") newHostKeyDB = (Ret tt, db) /\
    @check toyKeyLib toyHostLib db (str "[::1]:222") (str "10.0.0.1:22") sampleKey = Ret None.
Proof.
  destruct (@Line toyKeyLib (map addr_String [sampleAddr; mkAddr (str "::1") (str "222"); mkAddr (str "h") (str "22")]) sampleKey)
    as [text| |] eqn:E; [|vm_compute in E; discriminate..].
  destruct (@known_hosts_roundtrip toyKeyLib toyHostLib [sampleAddr; mkAddr (str "::1") (str "222"); mkAddr (str "h") (str "22")]
    sampleKey keySample text (str "f") (str "10.0.0.1:22") (str "10.0.0.1") (str "22")) with (a := mkAddr (str "::1") (str "222")) as (db & Hr & Hc).
  - done.
  - repeat (apply Forall_cons; split); [..|done]; (split; [split_and!; [done | by repeat constructor | by repeat constructor] | done]).
  - by split.
  - done.
  - by vm_compute.
  - by vm_compute.
  - exact E.
  - vm_compute in E. injection E as <-. by vm_compute.
  - by vm_compute.
  - set_solver.
  - by exists text, db.
Defined.

(** a line with a host hashed by [HashHostname], from the normal form of an
    address, is read back to a database that accepts the key for that address. *)
Theorem hashed_host_roundtrip `{KeyLib, HostLib} (a : addr) (k : PublicKey) (rand hosts m s filename remote h p : bytes) :
  addr_ok a -> key_wf k -> key_fits k -> pub_Marshal k = Ret m -> zlen m < 2 ^ 32 ->
  HashHostname rand (Normalize (addr_String a)) = Ret hosts -> serialize k = Ret s ->
  zlen (hosts ++ [spaceByte] ++ s) < maxScanToken -> splitHostPort remote = Ret (h, p) ->
  exists db, Read ((hosts ++ [spaceByte] ++ s) ++ [newlineByte]) filename newHostKeyDB = (Ret tt, db) /\
    check db (addr_String a) remote k = Ret None.
Proof.
  intros Hok Hk Hf Hm Hl Hh Hs Hz Hr. destruct (key_type_name k Hk) as (t & Ht & Hin).
  unfold serialize in Hs. rewrite Ht, Hm in Hs. cbn [obind] in Hs. apply Ret_inj in Hs as <-.
  change (hosts ++ [spaceByte] ++ t ++ [spaceByte] ++ b64encode true m) with (entryText hosts t m) in *.
  unfold HashHostname in Hh. destruct (zlen rand <? 20); [done|]. apply Ret_inj in Hh as <-.
  destruct (hash_word (ztake 20 rand) (hashHost (Normalize (addr_String a)) (ztake 20 rand))) as [Hword [r Hbar]].
  apply (entry_accepted _ (HashedHost (ztake 20 rand) (hashHost (Normalize (addr_String a)) (ztake 20 rand)))
    k t m filename _ remote a h p); try done.
  - rewrite Hbar. change (Byte.eqb bar bar) with true. cbn iota. by rewrite <- Hbar, newHashedHost_encode.
  - apply addr_String_ne.
  - by apply splitHostPort_String.
  - cbn. rewrite (bool_decide_true (hashHost (Normalize (addr_String a)) _ = _)) by done. by rewrite orb_true_r.
Qed.

Lemma hashed_host_roundtrip_witness :
  exists hosts s db, @HashHostname toyHostLib (repeat "007"%byte 20) (Normalize (str "[::1]:22")) = Ret hosts /\
    @serialize toyKeyLib sampleKey = Ret s /\
    @Read toyKeyLib ((hosts ++ [spaceByte] ++ s) ++ [newlineByte]) (str "f") newHostKeyDB = (Ret tt, db) /\
    @check toyKeyLib toyHostLib db (str "[::1]:22") (str "10.0.0.1:22") sampleKey = Ret None.
Proof.
  destruct (@HashHostname toyHostLib (repeat "007"%byte 20) (Normalize (str "[::1]:22"))) as [hosts| |] eqn:Eh; [|vm_compute in Eh; discriminate..].
  destruct (@serialize toyKeyLib sampleKey) as [s| |] eqn:Es; [|vm_compute in Es; discriminate..].
  destruct (@hashed_host_roundtrip toyKeyLib toyHostLib (mkAddr (str "::1") (str "22")) sampleKey (repeat "007"%byte 20) hosts
    keySample s (str "f") (str "10.0.0.1:22") (str "10.0.0.1") (str "22")) as (db & Hr & Hc).
  - split_and!; [done | by repeat constructor | by repeat constructor].
  - by split.
  - done.
  - by vm_compute.
  - by vm_compute.
  - exact Eh.
  - exact Es.
  - vm_compute in Eh, Es. injection Eh as <-. injection Es as <-. by vm_compute.
  - by vm_compute.
  - by exists hosts, s, db.
Defined.

(** [Read] ends on every input with a database or an error, without a panic:
    the length of the input is enough fuel; and the keys in the lines of the
    database are well formed, so that a key is always checked to the end. *)
Theorem known_hosts_read_total `{LawfulKeyLib, HostLib} (contents filename : bytes) :
  panics (Read contents filename newHostKeyDB).1 = false /\
  Forall line_ok (db_lines (Read contents filename newHostKeyDB).2).
Proof.
  destruct (readLines_total (length contents) contents filename 0 newHostKeyDB (le_n _)) as [Hp Hdb].
  split; [done|]. eapply Forall_impl; [apply Hdb; apply Forall_nil_2 | apply key_wf_line_ok].
Qed.

Lemma known_hosts_read_total_witness :
  panics (@Read toyKeyLib (str "@revoked * ssh-rsa AAAA") (str "f") newHostKeyDB).1 = false /\
  Forall (@line_ok toyKeyLib) (db_lines (@Read toyKeyLib (str "@revoked * ssh-rsa AAAA") (str "f") newHostKeyDB).2).
Proof. apply (@known_hosts_read_total toyKeyLib toyKeyLib_lawful toyHostLib). Defined.

(** the line that [Line] writes for an IPv6 address on port 22 is refused by
    [Read]: its normal form is the address in brackets, which the reader takes
    for an address that lacks its port. *)
Theorem ipv6_line_refused `{KeyLib, HostLib} (a : addr) (k : PublicKey) (m text filename : bytes) :
  addr_ok a -> has colon (addr_host a) = true -> addr_port a = str "22" ->
  key_wf k -> key_fits k -> pub_Marshal k = Ret m -> zlen m < 2 ^ 32 ->
  Line [addr_String a] k = Ret text -> zlen text < maxScanToken ->
  exists e, (Read (text ++ [newlineByte]) filename newHostKeyDB).1 = Fail e.
Proof.
  intros Hok Hc Hp Hk Hf Hm Hl Hline Hz. destruct (key_type_name k Hk) as (t & Ht & Hin).
  unfold Line, serialize in Hline. rewrite Ht, Hm in Hline. cbn [obind] in Hline. apply Ret_inj in Hline as <-.
  assert (Hn : Normalize (addr_String a) = [lbracket] ++ addr_host a ++ [rbracket]).
  { unfold Normalize. rewrite splitHostPort_String by done. rewrite (bool_decide_true _ Hp). cbn [negb]. rewrite Hc.
    destruct Hok as (Hne & Hh & _). destruct (addr_host a) as [|c r]; [done|].
    apply Forall_cons in Hh as [(_ & Hb & _)%hostByte_parts _]. cbn [hasPrefix]. rewrite Hb. done. }
  cbn [map join_byte] in *. rewrite Hn in *.
  set (hosts := [lbracket] ++ addr_host a ++ [rbracket]) in *.
  change (hosts ++ [spaceByte] ++ t ++ [spaceByte] ++ b64encode true m) with (entryText hosts t m) in *.
  assert (Hword : hostsWord hosts).
  { destruct Hok as (_ & Hh & _). split; [|by split]. apply Forall_cons. split; [done|]. apply Forall_app. split; [|by repeat constructor].
    eapply Forall_impl; [exact Hh|]. intros c Hb. by apply hostByte_parts in Hb as [? _]. }
  pose proof (parsePublicKey_enc k m (parseFuel m) Hk Hf Hm Hl (le_n _)) as Hparse.
  assert (Hm0 : m <> []) by (intros ->; done). pose proof (algoNames_good t Hin) as Hg.
  rewrite Read_entry by done. unfold db_parseLine. rewrite (parseLine_entry hosts t m k) by done. cbn [obind].
  change (bool_decide ([] = markerRevoked)) with false. cbn iota.
  assert (Hs : exists e, newHostnameMatcher hosts = Fail e).
  { destruct Hok as (_ & Hh & _). destruct (hosts_no_brackets _ Hh) as (Hnl & Hnr & Hnc).
    unfold newHostnameMatcher. rewrite split_byte_no_sep.
    2: { intros Hcm%has_In. unfold hosts in Hcm. rewrite !has_app, Hnc in Hcm. done. }
    cbn [parsePatterns]. unfold parsePattern, hosts. cbn [app].
    change (Byte.eqb lbracket "!") with false. change (Byte.eqb lbracket lbracket) with true. cbn iota.
    assert (Hsp : exists e, splitHostPort (lbracket :: addr_host a ++ [rbracket]) = Fail e).
    { unfold splitHostPort. destruct (cutLastColon _) as [[x y]|]; [|by eexists].
      change (hasPrefix [lbracket] (lbracket :: _)) with true. cbn iota.
      change (lbracket :: addr_host a ++ [rbracket]) with ((lbracket :: addr_host a) ++ rbracket :: []).
      rewrite cutAt_app; [|apply Forall_cons; split; [done | by apply has_false]|done]. by eexists. }
    destruct Hsp as [e ->]. by eexists. }
  destruct Hs as [e He]. unfold hosts at 1. cbn [app]. change (Byte.eqb lbracket bar) with false. cbn iota.
  fold hosts. change (lbracket :: addr_host a ++ [rbracket]) with hosts. rewrite He. by eexists.
Qed.

Lemma ipv6_line_refused_witness :
  exists text e, @Line toyKeyLib [str "[::1]:22"] sampleKey = Ret text /\
    (@Read toyKeyLib (text ++ [newlineByte]) (str "f") newHostKeyDB).1 = Fail e.
Proof.
  destruct (@Line toyKeyLib [str "[::1]:22"] sampleKey) as [text| |] eqn:E; [|vm_compute in E; discriminate..].
  destruct (@ipv6_line_refused toyKeyLib toyHostLib (mkAddr (str "::1") (str "22")) sampleKey keySample text (str "f")) as [e He].
  - split_and!; [done | by repeat constructor | by repeat constructor].
  - done.
  - done.
  - by split.
  - done.
  - by vm_compute.
  - by vm_compute.
  - exact E.
  - vm_compute in E. injection E as <-. by vm_compute.
  - by exists text, e.
Defined.
