(* ===== verification/Agent.v ===== *)
(** * The agent interface and the keyring (agent/client.go, agent/keyring.go)

    [Agent] is the interface of the package; [keyring] is the implementation in
    memory.  An operation gets what it reads of the world ([env]: the clock and
    the random source) and the state, and returns a result and the state, which
    may have changed before an error. *)

From S2P Require Import Prelude Text Wire Codec Negotiate Kex Keys Signers KeyFiles.

(** ** Keys *)

(** [agent.Key], which is also an [ssh.PublicKey]. *)
Record Key := mkKey { key_Format : bytes; key_Blob : bytes; key_Comment : bytes }.

#[global] Instance Key_eq_decision : EqDecision Key.
Proof. solve_decision. Defined.

Definition Key_String (k : Key) : bytes :=
  let s := key_Format k ++ [spaceByte] ++ b64encode true (key_Blob k) in
  if negb (bool_decide (key_Comment k = [])) then s ++ [spaceByte] ++ key_Comment k else s.

Definition Key_Type (k : Key) : bytes := key_Format k.

Definition Key_Marshal (k : Key) : bytes := key_Blob k.

Definition Key_Verify `{KeyLib} (k : Key) (data : bytes) (sig : Signature) : outcome unit :=
  match ParsePublicKey (key_Blob k) with
  | Ret pubKey => pub_Verify pubKey data sig
  | Fail _ => Fail (errNew "agent: bad public key: %v")
  | Panic w => Panic w
  end.

(** The keys that are handed to an agent: of the package ssh or of this one. *)
Inductive keyArg :=
| SSHKey (k : PublicKey)
| AgentKey (k : Key).

Definition keyArg_Marshal `{KeyLib} (k : keyArg) : outcome bytes :=
  match k with
  | SSHKey k => pub_Marshal k
  | AgentKey k => Ret (Key_Marshal k)
  end.

Record ConstraintExtension := mkConstraintExtension { ext_Name : bytes; ext_Details : bytes }.

Record AddedKey := mkAddedKey {
  ak_PrivateKey : privateKey;
  ak_Certificate : option Certificate;
  ak_Comment : bytes;
  ak_LifetimeSecs : Z;
  ak_ConfirmBeforeUse : bool;
  ak_ConstraintExtensions : list ConstraintExtension
}.

(** The signers that an agent lists: its own or references to the keys of a
    remote agent. *)
Inductive agentSigner :=
| localSigner (s : signer)
| agentKeyringSigner (pub : Key).

(** ** The interface *)

(** The clock, read by [i]-th use (nanoseconds), and random bytes. *)
Record env := mkEnv { env_now : nat -> Z; env_rand : bytes }.

Definition op (S A : Type) : Type := env -> S -> outcome A * S.

Class Agent (S : Type) := {
  agent_List : op S (list Key);
  agent_Sign : keyArg -> bytes -> op S Signature;
  agent_Add : AddedKey -> op S unit;
  agent_Remove : keyArg -> op S unit;
  agent_RemoveAll : op S unit;
  agent_Lock : bytes -> op S unit;
  agent_Unlock : bytes -> op S unit;
  agent_Signers : op S (list agentSigner)
}.

(** ** The keyring *)

Record privKey := mkPrivKey { pk_signer : signer; pk_comment : bytes; pk_expire : option Z }.

Record keyring := mkKeyring { kr_keys : list privKey; kr_locked : bool; kr_passphrase : bytes }.

Definition errLocked : error := errNew "agent: locked".
Definition errKeyNotFound : error := errNew "agent: key not found".
Definition errNotFound : error := errNew "not found".

Definition NewKeyring : keyring := mkKeyring [] false [].

(** The slice [r.keys]: its array, which keeps what lies behind the length, and
    its length. *)
Record keySlice := mkKeySlice { ks_array : list privKey; ks_len : nat }.

Definition keySlice_of (keys : list privKey) : keySlice := mkKeySlice keys (length keys).

Definition visible (s : keySlice) : list privKey := take (ks_len s) (ks_array s).

Section Keyring.
Context `{KeyLib, SignLib}.

Definition priv_blob (k : privKey) : outcome bytes := pub_Marshal (signer_PublicKey (pk_signer k)).

(** The loop of [removeLocked]: the last key takes the place of one that is
    removed. *)
Fixpoint removeLoop (fuel : nat) (want : bytes) (i : nat) (found : bool) (s : keySlice) : outcome (bool * keySlice) :=
  if (i <? ks_len s)%nat then
    match fuel with
    | O => Panic "out of fuel"
    | S fuel =>
        match ks_array s !! i, ks_array s !! (ks_len s - 1)%nat with
        | Some k, Some last =>
            let? blob := priv_blob k in
            if bool_decide (blob = want) then
              removeLoop fuel want i true (mkKeySlice (<[i := last]> (ks_array s)) (ks_len s - 1))
            else removeLoop fuel want (i + 1) found s
        | _, _ => Panic "index out of range"
        end
    end
  else Ret (found, s).

Definition removeLocked (want : bytes) (s : keySlice) : outcome (bool * keySlice) :=
  removeLoop (ks_len s) want 0 false s.

Definition expired (now : Z) (k : privKey) : bool :=
  match pk_expire k with Some t => t <? now | None => false end.

(** [range r.keys] takes the array and the length before the loop; the loop
    reads the array while [removeLocked] changes it. *)
Fixpoint expireLoop (now : nat -> Z) (n i : nat) (s : keySlice) : outcome keySlice :=
  match n with
  | O => Ret s
  | S n =>
      match ks_array s !! i with
      | None => Panic "index out of range"
      | Some k =>
          let? s :=
            if expired (now i) k then
              let? want := priv_blob k in
              let? (_, s) := removeLocked want s in
              Ret s
            else Ret s in
          expireLoop now n (S i) s
      end
  end.

Definition expireKeysLocked (now : nat -> Z) (keys : list privKey) : outcome (list privKey) :=
  let? s := expireLoop now (length keys) 0 (keySlice_of keys) in
  Ret (visible s).

Definition setKeys (r : keyring) (keys : list privKey) : keyring := mkKeyring keys (kr_locked r) (kr_passphrase r).

Definition keyring_RemoveAll : op keyring unit := fun _ r =>
  if kr_locked r then (Fail errLocked, r) else (Ret tt, setKeys r []).

Definition keyring_Remove (key : keyArg) : op keyring unit := fun _ r =>
  if kr_locked r then (Fail errLocked, r)
  else
    match (let? want := keyArg_Marshal key in removeLocked want (keySlice_of (kr_keys r))) with
    | Ret (found, s) =>
        (if found : bool then Ret tt else Fail errKeyNotFound, setKeys r (visible s))
    | Fail e => (Fail e, r)
    | Panic w => (Panic w, r)
    end.

Definition keyring_Lock (passphrase : bytes) : op keyring unit := fun _ r =>
  if kr_locked r then (Fail errLocked, r)
  else (Ret tt, mkKeyring (kr_keys r) true passphrase).

Definition keyring_Unlock (passphrase : bytes) : op keyring unit := fun _ r =>
  if negb (kr_locked r) then (Fail (errNew "agent: not locked"), r)
  else if negb (zlen passphrase =? zlen (kr_passphrase r)) || negb (bool_decide (passphrase = kr_passphrase r)) then
    (Fail (errNew "agent: incorrect passphrase"), r)
  else (Ret tt, mkKeyring (kr_keys r) false []).

(** Runs the rest of an operation on the keys that have not expired. *)
Definition withLive {A} (e : env) (r : keyring) (f : list privKey -> outcome A) : outcome A * keyring :=
  match expireKeysLocked (env_now e) (kr_keys r) with
  | Ret keys => (f keys, setKeys r keys)
  | Fail err => (Fail err, r)
  | Panic w => (Panic w, r)
  end.

Definition listKey (k : privKey) : outcome Key :=
  let pub := signer_PublicKey (pk_signer k) in
  let? t := pub_Type pub in
  let? m := pub_Marshal pub in
  Ret (mkKey t m (pk_comment k)).

Fixpoint listKeys (keys : list privKey) : outcome (list Key) :=
  match keys with
  | [] => Ret []
  | k :: keys' =>
      let? id := listKey k in
      let? ids := listKeys keys' in
      Ret (id :: ids)
  end.

Definition keyring_List : op keyring (list Key) := fun e r =>
  if kr_locked r then (Ret [], r) else withLive e r listKeys.

(** The signer of an added key. *)
Definition addedSigner (key : AddedKey) : outcome signer :=
  let? s := NewSignerFromKey (ak_PrivateKey key) in
  match ak_Certificate key with
  | Some cert => NewCertSigner cert s
  | None => Ret s
  end.

Definition second : Z := 1000000000.

Definition keyring_Add (key : AddedKey) : op keyring unit := fun e r =>
  if kr_locked r then (Fail errLocked, r)
  else
    match addedSigner key with
    | Ret s =>
        let expire := if 0 <? ak_LifetimeSecs key then Some (env_now e 0%nat + ak_LifetimeSecs key * second) else None in
        (Ret tt, setKeys r (kr_keys r ++ [mkPrivKey s (ak_Comment key) expire]))
    | Fail err => (Fail err, r)
    | Panic w => (Panic w, r)
    end.

Fixpoint signLoop (keys : list privKey) (wanted rand data : bytes) : outcome Signature :=
  match keys with
  | [] => Fail errNotFound
  | k :: keys' =>
      let? blob := priv_blob k in
      if bool_decide (blob = wanted) then signer_Sign (pk_signer k) rand data
      else signLoop keys' wanted rand data
  end.

Definition keyring_Sign (key : keyArg) (data : bytes) : op keyring Signature := fun e r =>
  if kr_locked r then (Fail errLocked, r)
  else withLive e r (fun keys => let? wanted := keyArg_Marshal key in signLoop keys wanted (env_rand e) data).

Definition keyring_Signers : op keyring (list agentSigner) := fun e r =>
  if kr_locked r then (Fail errLocked, r)
  else withLive e r (fun keys => Ret (map (fun k => localSigner (pk_signer k)) keys)).

#[global] Instance keyring_Agent : Agent keyring := {
  agent_List := keyring_List;
  agent_Sign := keyring_Sign;
  agent_Add := keyring_Add;
  agent_Remove := keyring_Remove;
  agent_RemoveAll := keyring_RemoveAll;
  agent_Lock := keyring_Lock;
  agent_Unlock := keyring_Unlock;
  agent_Signers := keyring_Signers
}.
End Keyring.

(** ** Commands *)

(** A call of an agent and what it returns. *)
Inductive command :=
| CList
| CSign (key : keyArg) (data : bytes)
| CAdd (key : AddedKey)
| CRemove (key : keyArg)
| CRemoveAll
| CLock (passphrase : bytes)
| CUnlock (passphrase : bytes)
| CSigners.

Inductive reply :=
| RKeys (r : outcome (list Key))
| RSig (r : outcome Signature)
| RUnit (r : outcome unit)
| RSigners (r : outcome (list agentSigner)).

Definition via {S A} (f : outcome A -> reply) (p : outcome A * S) : reply * S := (f p.1, p.2).

Definition run `{Agent T} (c : command) (e : env) (s : T) : reply * T :=
  match c with
  | CList => via RKeys (agent_List e s)
  | CSign key data => via RSig (agent_Sign key data e s)
  | CAdd key => via RUnit (agent_Add key e s)
  | CRemove key => via RUnit (agent_Remove key e s)
  | CRemoveAll => via RUnit (agent_RemoveAll e s)
  | CLock passphrase => via RUnit (agent_Lock passphrase e s)
  | CUnlock passphrase => via RUnit (agent_Unlock passphrase e s)
  | CSigners => via RSigners (agent_Signers e s)
  end.

Fixpoint runs `{Agent T} (cs : list (command * env)) (s : T) : list reply * T :=
  match cs with
  | [] => ([], s)
  | (c, e) :: cs' =>
      let '(r, s) := run c e s in
      let '(rs, s) := runs cs' s in
      (r :: rs, s)
  end.
