(* ===== verification/AgentFacts.v ===== *)
(** * The keyring: what it keeps and when

    The loop that removes expired keys reads the array that it changes; these
    lemmas show that it nevertheless removes exactly the keys it should, and
    that the keyring implements an abstract agent whose keys have no order. *)

From S2P Require Import Prelude Text Wire Codec Negotiate Kex Keys KeysFacts Signers Certs CertsFacts KeyFiles KeyFilesFacts Agent.

Section Slices.
Context `{KeyLib}.

Definition blob (k : privKey) : bytes := match priv_blob k with Ret b => b | _ => [] end.

(** A key that can be listed. *)
Definition key_ok (k : privKey) : Prop :=
  exists t, pub_Type (signer_PublicKey (pk_signer k)) = Ret t /\ priv_blob k = Ret (blob k).

Lemma take_pred_snoc {A} (a : list A) n last : (0 < n)%nat -> a !! (n - 1)%nat = Some last -> take n a = take (n - 1) a ++ [last].
Proof. intros Hn Hl. replace n with (S (n - 1)) at 1 by lia. by apply take_S_r. Qed.

(** Moving the last key over one that is removed. *)
Lemma swap_remove (a : list privKey) n i k last :
  (i < n)%nat -> a !! i = Some k -> a !! (n - 1)%nat = Some last ->
  k :: take (n - 1) (<[i := last]> a) ≡ₚ take n a.
Proof.
  intros Hi Hk Hl. rewrite (take_pred_snoc a n last) by (lia || done).
  destruct (decide (i = n - 1)%nat) as [->|Hne].
  - rewrite take_insert_ge by lia. simplify_eq. by rewrite Permutation_app_comm.
  - rewrite take_insert_lt by lia. set (b := take (n - 1) a).
    assert (Hb : b !! i = Some k) by (unfold b; rewrite lookup_take_lt by lia; done).
    assert (Hswap : forall l1 l2, k :: l1 ++ last :: l2 ≡ₚ (l1 ++ k :: l2) ++ [last]).
    { intros l1 l2. rewrite <- Permutation_cons_append, <- !Permutation_middle. constructor. }
    rewrite insert_take_drop by by eapply lookup_lt_Some.
    by rewrite Hswap, (take_drop_middle b i k Hb).
Qed.

(** How the array changes while keys with the blob [want] are removed: a cell
    keeps its key, or it held such a key and gets one from further on. *)
Definition moves (want : bytes) (a a' : list privKey) : Prop :=
  length a' = length a /\
  forall j x', a' !! j = Some x' -> exists j', (j <= j')%nat /\ a !! j' = Some x' /\
    (j' = j \/ exists x, a !! j = Some x /\ blob x = want).

Lemma moves_refl want a : moves want a a.
Proof. split; [done|]. intros j x' Hj. exists j. auto. Qed.

Lemma moves_swap want a a' n i k last :
  (i < n)%nat -> a !! i = Some k -> blob k = want -> a !! (n - 1)%nat = Some last ->
  moves want (<[i := last]> a) a' -> moves want a a'.
Proof.
  intros Hi Hk Hb Hl [Hlen Hm]. rewrite length_insert in Hlen. split; [done|]. intros j x' Hj.
  assert (Hil : (i < length a)%nat) by by eapply lookup_lt_Some.
  destruct (Hm j x' Hj) as (j' & Hle & Hx & Hc). destruct (decide (j' = i)) as [->|Hne].
  - rewrite list_lookup_insert_eq in Hx by done. simplify_eq. exists (n - 1)%nat. split_and!; [lia|done|].
    right. destruct Hc as [->|(x & Hxj & Hbx)]; [eauto|].
    destruct (decide (j = i)) as [->|Hji]; [eauto|]. rewrite list_lookup_insert_ne in Hxj by done. eauto.
  - rewrite list_lookup_insert_ne in Hx by done. exists j'. split_and!; [done|done|].
    destruct Hc as [->|(x & Hxj & Hbx)]; [by left|]. right.
    destruct (decide (j = i)) as [->|Hji]; [eauto|]. rewrite list_lookup_insert_ne in Hxj by done. eauto.
Qed.

Lemma visible_lookup s i : (i < ks_len s)%nat -> visible s !! i = ks_array s !! i.
Proof. intros. unfold visible. by rewrite lookup_take_lt. Qed.

(** What removing leaves; [found] tells whether a key was removed before. *)
Definition removed (want : bytes) (found : bool) (s : keySlice) (found' : bool) (s' : keySlice) : Prop :=
  visible s' ≡ₚ filter (fun k => blob k <> want) (visible s) /\ moves want (ks_array s) (ks_array s') /\
  (ks_len s' <= length (ks_array s'))%nat /\
  (found' = true <-> found = true \/ exists k, k ∈ visible s /\ blob k = want).

Lemma removed_none want found s :
  (ks_len s <= length (ks_array s))%nat -> Forall (fun k => blob k <> want) (visible s) -> removed want found s found s.
Proof.
  intros Hlen Hall. split_and!; [by rewrite filter_all | apply moves_refl | done |].
  split; [by left|]. intros [?|(k & Hk & Hb)]; [done|]. rewrite Forall_forall in Hall. by destruct (Hall k Hk).
Qed.

Lemma removeLoop_spec fuel want i found s :
  (ks_len s <= length (ks_array s))%nat -> Forall key_ok (visible s) -> (ks_len s - i <= fuel)%nat ->
  (forall j k, (j < i)%nat -> visible s !! j = Some k -> blob k <> want) ->
  exists found' s', removeLoop fuel want i found s = Ret (found', s') /\ removed want found s found' s'.
Proof.
  revert i found s. induction fuel as [|fuel IH]; intros i found s Hlen Hok Hf Hpre; cbn [removeLoop].
  all: destruct (Nat.ltb_spec i (ks_len s)) as [Hi|Hi]; try lia.
  1,3: exists found, s; split; [done|]; apply removed_none; [done|]; apply Forall_lookup; intros j k Hj;
    apply (Hpre j); [|done]; apply lookup_lt_Some in Hj; unfold visible in Hj; rewrite length_take in Hj; lia.
  destruct (ks_array s !! i) as [k|] eqn:Hk; [|apply lookup_ge_None in Hk; lia].
  destruct (ks_array s !! (ks_len s - 1)%nat) as [last|] eqn:Hl; [|apply lookup_ge_None in Hl; lia].
  assert (Hkok : key_ok k). { eapply Forall_lookup_1; [exact Hok|]. rewrite visible_lookup by done. exact Hk. }
  destruct Hkok as (t & _ & Hb). rewrite Hb. cbn [obind]. pose proof (swap_remove _ _ _ _ _ Hi Hk Hl) as Hp.
  case_bool_decide as Hw.
  - set (s1 := mkKeySlice (<[i := last]> (ks_array s)) (ks_len s - 1)).
    destruct (IH i true s1) as (found' & s' & -> & Hv & Hm & Hls & Hf').
    + cbn. rewrite length_insert. lia.
    + unfold visible in *. rewrite <- Hp in Hok. by apply Forall_cons in Hok as [_ ?].
    + cbn. lia.
    + intros j x Hj Hx. destruct (decide (j < ks_len s - 1)%nat) as [Hj'|].
      2: { apply lookup_lt_Some in Hx. unfold visible in Hx. cbn in Hx. rewrite length_take in Hx. lia. }
      rewrite visible_lookup in Hx by done. cbn in Hx. rewrite list_lookup_insert_ne in Hx by lia.
      apply (Hpre j); [done|]. by rewrite visible_lookup by lia.
    + exists found', s'. split; [done|]. split_and!; [| |done|].
      * rewrite Hv. unfold visible at 2. rewrite <- Hp, filter_cons_False by (cbn; by intros []). done.
      * by eapply moves_swap.
      * rewrite Hf'. split; [|by left]. intros _. right. exists k. split; [|done].
        apply list_elem_of_lookup. exists i. by rewrite visible_lookup.
  - apply IH; [done|done|lia|]. intros j x Hj Hx. destruct (decide (j = i)) as [->|]; [|by apply (Hpre j); [lia|]].
    rewrite visible_lookup, Hk in Hx by done. by simplify_eq.
Qed.

Lemma removeLocked_spec want s :
  (ks_len s <= length (ks_array s))%nat -> Forall key_ok (visible s) ->
  exists found s', removeLocked want s = Ret (found, s') /\ removed want false s found s'.
Proof. intros. apply removeLoop_spec; [done|done|lia|lia]. Qed.

(** *** Expiry *)

(** A key whose lifetime has passed at the time [t]: strictly, the key is still
    there in the instant at which its lifetime ends. *)
Definition outlived (t : Z) (k : privKey) : Prop := exists e, pk_expire k = Some e /\ e < t.

#[export] Instance outlived_dec t k : Decision (outlived t k).
Proof.
  destruct (pk_expire k) as [e|] eqn:E; [destruct (decide (e < t))|].
  - left. by exists e.
  - right. intros (e' & E' & ?). by simplify_eq.
  - right. intros (e' & E' & ?). congruence.
Defined.

Lemma expired_outlived t k : expired t k = true <-> outlived t k.
Proof.
  unfold expired, outlived. destruct (pk_expire k) as [e|]; [rewrite Z.ltb_lt; naive_solver|]. naive_solver.
Qed.

(** The blobs of the keys whose lifetime has passed when the loop comes to them. *)
Definition expiredBlobs (now : nat -> Z) (keys : list privKey) : list bytes :=
  mjoin (imap (fun i k => if decide (outlived (now i) k) then [blob k] else []) keys).

Lemma expiredBlobs_elem now keys b :
  b ∈ expiredBlobs now keys <-> exists i k, keys !! i = Some k /\ expired (now i) k = true /\ blob k = b.
Proof.
  unfold expiredBlobs. rewrite list_elem_of_join. split.
  - intros (l & Hb & Hl). apply elem_of_lookup_imap_1 in Hl as (i & k & -> & Hk).
    destruct (decide (outlived (now i) k)) as [E|]; [|by apply elem_of_nil in Hb].
    apply list_elem_of_singleton in Hb as ->. apply expired_outlived in E. eauto.
  - intros (i & k & Hk & He & <-). exists [blob k]. split; [by apply list_elem_of_singleton|].
    apply elem_of_lookup_imap. exists i, k. by rewrite decide_True by by apply expired_outlived.
Qed.

Lemma Forall_filter_ok {A} (P Q : A -> Prop) `{forall x, Decision (Q x)} l : Forall P l -> Forall P (filter Q l).
Proof. rewrite !Forall_forall. intros Hl x [_ Hx]%list_elem_of_filter. by apply Hl. Qed.

(** The keys that stay. *)
Definition live (now : nat -> Z) (keys : list privKey) : list privKey :=
  filter (fun k => blob k ∉ expiredBlobs now keys) keys.

Definition monotone (now : nat -> Z) : Prop := forall i j, (i <= j)%nat -> now i <= now j.

Lemma expired_monotone now i j k : monotone now -> (i <= j)%nat -> expired (now i) k = true -> expired (now j) k = true.
Proof. intros Hm Hij. unfold expired. destruct (pk_expire k); [|done]. specialize (Hm i j Hij). lia. Qed.

(** The state of the loop at index [i], when the keys with blobs in [B] are gone. *)
Definition expire_inv (now : nat -> Z) (keys : list privKey) (i : nat) (s : keySlice) (B : list bytes) : Prop :=
  B ⊆ expiredBlobs now keys /\
  (forall j k, (j < i)%nat -> keys !! j = Some k -> expired (now j) k = true -> blob k ∈ B) /\
  visible s ≡ₚ filter (fun k => blob k ∉ B) keys /\ length (ks_array s) = length keys /\
  (ks_len s <= length (ks_array s))%nat /\
  forall j x', ks_array s !! j = Some x' -> exists j', (j <= j')%nat /\ keys !! j' = Some x' /\
    (j' = j \/ exists x, keys !! j = Some x /\ blob x ∈ B).

Lemma expire_step now keys i s B k :
  monotone now -> Forall key_ok keys -> expire_inv now keys i s B -> ks_array s !! i = Some k ->
  exists s' B',
    (if expired (now i) k then let? want := priv_blob k in let? (_, s) := removeLocked want s in Ret s else Ret s) = Ret s' /\
    expire_inv now keys (S i) s' B'.
Proof.
  intros Hmono Hok (HB & Hpre & Hvis & Hlen & Hle & Hcells) Hk.
  destruct (Hcells i k Hk) as (j' & Hij & Hkj & Hc). destruct (expired (now i) k) eqn:He.
  - assert (Hkok : key_ok k) by by eapply Forall_lookup_1. destruct Hkok as (t & _ & ->). cbn [obind].
    destruct (removeLocked_spec (blob k) s Hle) as (found & s' & -> & Hv & [Hml Hm] & Hle' & _).
    { rewrite Hvis. by apply Forall_filter_ok. }
    exists s', (blob k :: B). split; [done|]. split_and!; [..|congruence|done|].
    + intros b [->|Hb]%elem_of_cons; [|by apply HB]. apply expiredBlobs_elem. exists j', k.
      split_and!; [done| |done]. by eapply expired_monotone.
    + intros j x Hj Hx Hex. destruct (decide (j = i)) as [->|]; [|right; eapply Hpre; eauto; lia].
      destruct Hc as [->|(y & Hy & HyB)]; [|right; congruence]. simplify_eq. by left.
    + rewrite Hv, Hvis, list_filter_filter. apply eq_subrelation; [apply _|]. apply list_filter_iff. set_solver.
    + intros j x' Hj. destruct (Hm j x' Hj) as (j1 & Hj1 & Hx1 & Hc1).
      destruct (Hcells j1 x' Hx1) as (j2 & Hj2 & Hx2 & Hc2). exists j2. split_and!; [lia|done|].
      destruct (decide (j2 = j)) as [|Hne]; [by left|]. right.
      destruct Hc1 as [->|(x & Hxj & Hbx)]; [destruct Hc2 as [->|(y & ? & ?)]; [done|]; set_solver|].
      destruct (Hcells j x Hxj) as (j3 & _ & Hx3 & [->|(y & Hy & HyB)]); [set_solver|]. set_solver.
  - exists s, B. split; [done|]. split_and!; try done. intros j x Hj Hx Hex.
    destruct (decide (j = i)) as [->|]; [|eapply Hpre; eauto; lia].
    destruct Hc as [->|(y & Hy & HyB)]; [congruence|]. by simplify_eq.
Qed.

Lemma expireLoop_spec now keys n i s B :
  monotone now -> Forall key_ok keys -> expire_inv now keys i s B -> (n + i = length keys)%nat ->
  exists s' B', expireLoop now n i s = Ret s' /\ expire_inv now keys (length keys) s' B'.
Proof.
  intros Hm Hok. revert i s B. induction n as [|n IH]; intros i s B Hinv Hn; cbn [expireLoop].
  - exists s, B. simpl in Hn. by rewrite <- Hn.
  - destruct (ks_array s !! i) as [k|] eqn:Hk.
    2: { apply lookup_ge_None in Hk. destruct Hinv as (_ & _ & _ & Hlen & _). lia. }
    destruct (expire_step now keys i s B k Hm Hok Hinv Hk) as (s' & B' & -> & Hinv'). cbn [obind].
    apply (IH (S i) s' B'); [done | lia].
Qed.

Lemma expireKeysLocked_spec now keys : monotone now -> Forall key_ok keys ->
  exists keys', expireKeysLocked now keys = Ret keys' /\ keys' ≡ₚ live now keys.
Proof.
  intros Hm Hok. destruct (expireLoop_spec now keys (length keys) 0 (keySlice_of keys) [] Hm Hok) as (s & B & Hs & Hinv); [|lia|].
  - split_and!; [set_solver | lia | | done | done |].
    + unfold visible. cbn. rewrite firstn_all, filter_all; [done|]. apply Forall_forall. set_solver.
    + intros j x Hj. exists j. auto.
  - unfold expireKeysLocked. rewrite Hs. cbn [obind]. exists (visible s). split; [done|].
    destruct Hinv as (HB & Hall & -> & _). unfold live. apply eq_subrelation; [apply _|].
    apply list_filter_iff. intros k. split; [|set_solver]. intros Hk Hin. apply Hk.
    apply expiredBlobs_elem in Hin as (i & x & Hx & He & <-). by eapply Hall; [eapply lookup_lt_Some| |].
Qed.
End Slices.

(** ** The abstract agent

    Keys without an order, and a passphrase while it is locked. *)

Record agentSpec := mkAgentSpec { as_keys : list privKey; as_lock : option bytes }.

Section Spec.
Context `{KeyLib, SignLib}.

(** What is listed for a key. *)
Definition identity (k : privKey) : Key :=
  mkKey (match pub_Type (signer_PublicKey (pk_signer k)) with Ret t => t | _ => [] end) (blob k) (pk_comment k).

Definition addedKey (e : env) (key : AddedKey) (s : signer) : privKey :=
  mkPrivKey s (ak_Comment key)
    (if 0 <? ak_LifetimeSecs key then Some (env_now e 0%nat + ak_LifetimeSecs key * second) else None).

(** The reply of a locked agent to a command that needs it unlocked. *)
Definition lockedReply (c : command) : option reply :=
  match c with
  | CList => Some (RKeys (Ret []))
  | CSign _ _ => Some (RSig (Fail errLocked))
  | CSigners => Some (RSigners (Fail errLocked))
  | CUnlock _ => None
  | _ => Some (RUnit (Fail errLocked))
  end.

(** One call.  In every rule for an unlocked agent the keys that stay are given
    up to their order. *)
Inductive spec_step (e : env) : agentSpec -> command -> reply -> agentSpec -> Prop :=
| spec_locked st p c r :
    as_lock st = Some p -> lockedReply c = Some r -> spec_step e st c r st
| spec_unlock st p keys :
    as_lock st = Some p -> keys ≡ₚ as_keys st -> spec_step e st (CUnlock p) (RUnit (Ret tt)) (mkAgentSpec keys None)
| spec_unlock_wrong st p q err :
    as_lock st = Some p -> p <> q -> spec_step e st (CUnlock q) (RUnit (Fail err)) st
| spec_not_locked st q err :
    as_lock st = None -> spec_step e st (CUnlock q) (RUnit (Fail err)) st
| spec_lock st p keys :
    as_lock st = None -> keys ≡ₚ as_keys st -> spec_step e st (CLock p) (RUnit (Ret tt)) (mkAgentSpec keys (Some p))
| spec_list st keys ids :
    as_lock st = None -> keys ≡ₚ live (env_now e) (as_keys st) -> ids ≡ₚ map identity keys ->
    spec_step e st CList (RKeys (Ret ids)) (mkAgentSpec keys None)
| spec_signers st keys ss :
    as_lock st = None -> keys ≡ₚ live (env_now e) (as_keys st) ->
    ss ≡ₚ map (fun k => localSigner (pk_signer k)) keys ->
    spec_step e st CSigners (RSigners (Ret ss)) (mkAgentSpec keys None)
| spec_sign st keys key want data k :
    as_lock st = None -> keys ≡ₚ live (env_now e) (as_keys st) -> keyArg_Marshal key = Ret want ->
    k ∈ keys -> blob k = want ->
    spec_step e st (CSign key data) (RSig (signer_Sign (pk_signer k) (env_rand e) data)) (mkAgentSpec keys None)
| spec_sign_unknown st keys key want data :
    as_lock st = None -> keys ≡ₚ live (env_now e) (as_keys st) -> keyArg_Marshal key = Ret want ->
    Forall (fun k => blob k <> want) keys ->
    spec_step e st (CSign key data) (RSig (Fail errNotFound)) (mkAgentSpec keys None)
| spec_add st key s keys :
    as_lock st = None -> addedSigner key = Ret s -> keys ≡ₚ addedKey e key s :: as_keys st ->
    spec_step e st (CAdd key) (RUnit (Ret tt)) (mkAgentSpec keys None)
| spec_add_refused st key err :
    as_lock st = None -> addedSigner key = Fail err -> spec_step e st (CAdd key) (RUnit (Fail err)) st
| spec_add_panic st key w :
    as_lock st = None -> addedSigner key = Panic w -> spec_step e st (CAdd key) (RUnit (Panic w)) st
| spec_remove st key want keys :
    as_lock st = None -> keyArg_Marshal key = Ret want -> (exists k, k ∈ as_keys st /\ blob k = want) ->
    keys ≡ₚ filter (fun k => blob k <> want) (as_keys st) ->
    spec_step e st (CRemove key) (RUnit (Ret tt)) (mkAgentSpec keys None)
| spec_remove_unknown st key want keys :
    as_lock st = None -> keyArg_Marshal key = Ret want -> Forall (fun k => blob k <> want) (as_keys st) ->
    keys ≡ₚ as_keys st ->
    spec_step e st (CRemove key) (RUnit (Fail errKeyNotFound)) (mkAgentSpec keys None)
| spec_remove_all st :
    as_lock st = None -> spec_step e st CRemoveAll (RUnit (Ret tt)) (mkAgentSpec [] None).

Inductive spec_steps : agentSpec -> list (command * env) -> list reply -> agentSpec -> Prop :=
| spec_done st : spec_steps st [] [] st
| spec_next st c e r st1 cs rs st2 :
    spec_step e st c r st1 -> spec_steps st1 cs rs st2 -> spec_steps st ((c, e) :: cs) (r :: rs) st2.

(** The abstraction of a keyring. *)
Definition absKeyring (r : keyring) : agentSpec :=
  mkAgentSpec (kr_keys r) (if kr_locked r then Some (kr_passphrase r) else None).

(** The caller's part: a clock that does not run backwards, keys that have an
    encoding. *)
Definition command_ok (ce : command * env) : Prop :=
  monotone (env_now ce.2) /\
  match ce.1 with
  | CSign key _ | CRemove key => exists want, keyArg_Marshal key = Ret want
  | CAdd key => forall s, addedSigner key = Ret s -> key_ok (addedKey ce.2 key s)
  | _ => True
  end.

Definition keyring_ok (r : keyring) : Prop := Forall key_ok (kr_keys r).

Lemma listKeys_ok keys : Forall key_ok keys -> listKeys keys = Ret (map identity keys).
Proof.
  induction 1 as [|k keys (t & Ht & Hb) _ IH]; [done|]. cbn [listKeys map]. unfold listKey, identity.
  fold (priv_blob k). unfold priv_blob in *. rewrite Ht, Hb. cbn [obind]. by rewrite IH.
Qed.

Lemma signLoop_ok keys wanted rand data : Forall key_ok keys ->
  (exists k, k ∈ keys /\ blob k = wanted /\ signLoop keys wanted rand data = signer_Sign (pk_signer k) rand data) \/
  (Forall (fun k => blob k <> wanted) keys /\ signLoop keys wanted rand data = Fail errNotFound).
Proof.
  induction 1 as [|k keys (t & Ht & Hb) _ IH]; [by right|]. cbn [signLoop]. rewrite Hb. cbn [obind]. case_bool_decide as Hw.
  - left. exists k. by split; [left|].
  - destruct IH as [(k' & Hin & ? & ->)|[Hall ->]]; [left; exists k'; set_solver | right; split; [by constructor | done]].
Qed.

Lemma live_ok now keys keys' : Forall key_ok keys -> keys' ≡ₚ live now keys -> Forall key_ok keys'.
Proof. intros Hk ->. by apply Forall_filter_ok. Qed.

(** An operation on the live keys. *)
Lemma withLive_ok {A} e r (f : list privKey -> outcome A) : kr_locked r = false -> keyring_ok r -> monotone (env_now e) ->
  exists keys, withLive e r f = (f keys, setKeys r keys) /\ keys ≡ₚ live (env_now e) (kr_keys r) /\ Forall key_ok keys.
Proof.
  intros Hl Hok Hm. unfold withLive. destruct (expireKeysLocked_spec (env_now e) (kr_keys r) Hm Hok) as (keys & -> & Hp).
  exists keys. eauto using live_ok.
Qed.

Lemma abs_setKeys r keys : kr_locked r = false -> absKeyring (setKeys r keys) = mkAgentSpec keys None.
Proof. intros Hl. unfold absKeyring. cbn. by rewrite Hl. Qed.

Lemma keyring_remove_ok e r key want : kr_locked r = false -> keyring_ok r -> keyArg_Marshal key = Ret want ->
  exists rep r', keyring_Remove key e r = (rep, r') /\ keyring_ok r' /\
    spec_step e (absKeyring r) (CRemove key) (RUnit rep) (absKeyring r').
Proof.
  intros Hl Hok Hw. unfold keyring_Remove. rewrite Hl, Hw. cbn [obind].
  assert (Hvis : visible (keySlice_of (kr_keys r)) = kr_keys r) by (unfold visible; cbn; apply firstn_all).
  destruct (removeLocked_spec want (keySlice_of (kr_keys r))) as (found & s' & -> & Hv & _ & _ & Hf); [cbn; lia | by rewrite Hvis|].
  rewrite Hvis in Hv, Hf. eexists _, _. split; [done|]. split; [unfold keyring_ok; cbn; rewrite Hv; by apply Forall_filter_ok|].
  rewrite abs_setKeys by done. unfold absKeyring. rewrite Hl. destruct found.
  - apply spec_remove with want; [done|done| |done]. cbn. destruct Hf as [[?|?] _]; done.
  - assert (Hall : Forall (fun k => blob k <> want) (kr_keys r)).
    { apply Forall_forall. intros k Hk Hb. destruct Hf as [_ Hf]. discriminate Hf. right. eauto. }
    apply spec_remove_unknown with want; [done|done|done|]. cbn. by rewrite Hv, filter_all.
Qed.

(** Shows which operation a command runs. *)
Ltac run_keyring :=
  cbn [run agent_List agent_Sign agent_Add agent_Remove agent_RemoveAll agent_Lock agent_Unlock agent_Signers keyring_Agent via];
  unfold via; cbn [fst snd].

(** One call of a keyring that is locked, and of one that is not, is a step of
    the abstract agent. *)
Definition refines_step (c : command) (e : env) (r : keyring) : Prop :=
  exists rep r', run c e r = (rep, r') /\ keyring_ok r' /\ spec_step e (absKeyring r) c rep (absKeyring r').

Lemma keyring_step_locked c e r : keyring_ok r -> kr_locked r = true -> refines_step c e r.
Proof.
  intros Hok Hl. assert (Ha : as_lock (absKeyring r) = Some (kr_passphrase r)) by (unfold absKeyring; by rewrite Hl).
  destruct c; run_keyring;
    try (eexists _, r; split; [unfold run, via; cbn; unfold keyring_List, keyring_Sign, keyring_Add, keyring_Remove,
      keyring_RemoveAll, keyring_Lock, keyring_Signers; rewrite Hl; reflexivity|]; split; [done|];
      by apply spec_locked with (kr_passphrase r)).
  unfold refines_step. run_keyring. unfold keyring_Unlock. rewrite Hl. cbn [negb].
  destruct (decide (passphrase = kr_passphrase r)) as [->|Hne].
  - rewrite Z.eqb_refl, bool_decide_true by done. eexists _, _. split; [reflexivity|]. split; [done|].
    apply (spec_unlock e (absKeyring r)); done.
  - rewrite (bool_decide_false (passphrase = _)), orb_true_r by done. eexists _, r. split; [reflexivity|].
    split; [done|]. by apply spec_unlock_wrong with (kr_passphrase r).
Qed.

Lemma keyring_step_unlocked c e r : keyring_ok r -> command_ok (c, e) -> kr_locked r = false -> refines_step c e r.
Proof.
  intros Hok [Hm Hc] Hl. cbn in Hm, Hc. unfold refines_step.
  assert (Ha : as_lock (absKeyring r) = None) by (unfold absKeyring; by rewrite Hl).
  destruct c; run_keyring.
  - unfold keyring_List. rewrite Hl. destruct (withLive_ok e r listKeys Hl Hok Hm) as (keys & -> & Hp & Hk).
    rewrite listKeys_ok by done. eexists _, _. split; [reflexivity|]. split; [done|]. cbn [fst snd]; rewrite abs_setKeys by done.
    by apply spec_list.
  - destruct Hc as [want Hw]. unfold keyring_Sign. rewrite Hl.
    destruct (withLive_ok e r (fun keys => let? wanted := keyArg_Marshal key in signLoop keys wanted (env_rand e) data) Hl Hok Hm)
      as (keys & -> & Hp & Hk).
    rewrite Hw. cbn [obind]. eexists _, _. split; [reflexivity|]. split; [done|]. cbn [fst snd]; rewrite abs_setKeys by done.
    destruct (signLoop_ok keys want (env_rand e) data Hk) as [(k & Hin & Hb & Hs)|[Hall Hs]]; cbn [fst]; rewrite Hs.
    + by apply spec_sign with want.
    + by apply spec_sign_unknown with want.
  - unfold keyring_Add. rewrite Hl. destruct (addedSigner key) as [s|err|w] eqn:Es.
    + eexists _, _. split; [reflexivity|]. split.
      * apply Forall_app. split; [done|]. apply Forall_singleton. by apply Hc.
      * cbn [fst snd]; rewrite abs_setKeys by done. apply spec_add with s; [done|done|]. symmetry. apply Permutation_cons_append.
    + eexists _, r. split; [reflexivity|]. split; [done|]. by apply spec_add_refused.
    + eexists _, r. split; [reflexivity|]. split; [done|]. by apply spec_add_panic.
  - destruct Hc as [want Hw]. destruct (keyring_remove_ok e r key want Hl Hok Hw) as (rep & r' & -> & Hok' & Hs). by eexists _, _.
  - unfold keyring_RemoveAll. rewrite Hl. eexists _, _. split; [reflexivity|]. split; [by apply Forall_nil_2|].
    cbn [fst snd]; rewrite abs_setKeys by done. by apply spec_remove_all.
  - unfold keyring_Lock. rewrite Hl. eexists _, _. split; [reflexivity|]. split; [done|].
    by apply (spec_lock e (absKeyring r)).
  - unfold keyring_Unlock. rewrite Hl. eexists _, r. split; [reflexivity|]. split; [done|]. by apply spec_not_locked.
  - unfold keyring_Signers. rewrite Hl.
    destruct (withLive_ok e r (fun keys => Ret (map (fun k => localSigner (pk_signer k)) keys)) Hl Hok Hm) as (keys & -> & Hp & Hk).
    eexists _, _. split; [reflexivity|]. split; [done|]. cbn [fst snd]; rewrite abs_setKeys by done. by apply spec_signers.
Qed.

Lemma keyring_step c e r : keyring_ok r -> command_ok (c, e) -> refines_step c e r.
Proof. intros. destruct (kr_locked r) eqn:Hl; [by apply keyring_step_locked | by apply keyring_step_unlocked]. Qed.

Lemma keyring_steps cs r : keyring_ok r -> Forall command_ok cs ->
  spec_steps (absKeyring r) cs (runs cs r).1 (absKeyring (runs cs r).2).
Proof.
  intros Hok Hcs. revert r Hok. induction Hcs as [|[c e] cs Hc _ IH]; intros r Hok; [constructor|]. cbn [runs].
  destruct (keyring_step c e r Hok Hc) as (rep & r1 & -> & Hok1 & Hs). specialize (IH r1 Hok1).
  destruct (runs cs r1) as [rs r2]. by econstructor.
Qed.
End Spec.

(** ** Properties *)

(** [expireKeysLocked] removes, while it walks over the array that
    [removeLocked] shortens and fills from the end, exactly the keys whose blob
    is the blob of a key that has expired when the loop comes to it, and keeps
    all others, whatever their order: no expired key is skipped because another
    one took its place and no key is lost.  A key without a lifetime goes with an
    expired one of the same blob. *)
Theorem expired_keys_removed `{KeyLib} (now : nat -> Z) (keys : list privKey) :
  monotone now -> Forall key_ok keys ->
  exists keys', expireKeysLocked now keys = Ret keys' /\ keys' ≡ₚ live now keys.
Proof. apply expireKeysLocked_spec. Qed.

(** Signing is not used by the examples. *)
Definition idleSigner (E N : Z) : signer :=
  wrappedSigner (mkCryptoSigner (Ret (CryptoRSA E N)) (fun _ digest _ => Ret digest)) (rsaPublicKey E N).

Definition sampleKeys : list privKey :=
  [mkPrivKey (idleSigner 3 15) (str "a") (Some 10); mkPrivKey (idleSigner 5 15) (str "b") None;
   mkPrivKey (idleSigner 3 21) (str "c") (Some 10); mkPrivKey (idleSigner 3 15) (str "d") None].

Lemma sampleKeys_ok : Forall (@key_ok toyKeyLib) sampleKeys.
Proof. repeat (apply Forall_cons; split; [by eexists; split; [|by vm_compute]|]). done. Qed.

Lemma expired_keys_removed_witness :
  exists keys', @expireKeysLocked toyKeyLib (fun _ => 20) sampleKeys = Ret keys' /\
    keys' ≡ₚ @live toyKeyLib (fun _ => 20) sampleKeys.
Proof. apply (@expired_keys_removed toyKeyLib); [done | exact sampleKeys_ok]. Defined.

(** The last of the keys has no lifetime but the blob of the first. *)
Example expiry_takes_duplicates :
  @expireKeysLocked toyKeyLib (fun _ => 20) sampleKeys = Ret [mkPrivKey (idleSigner 5 15) (str "b") None].
Proof. by vm_compute. Qed.

(** C13: from the empty keyring on, every sequence of calls of the keyring (list,
    sign, signers, add, remove, remove all, lock and unlock, at times that do not
    run backwards within a call) is a run of the abstract agent with the same
    replies: locked, it lists nothing, signs, adds and removes nothing, and
    unlocks with its passphrase only; unlocked, it lists the live keys in some
    order, signs with a live key of the wanted blob or reports that there is
    none, adds and removes.  A key added with a lifetime is live up to and including
    the instant at which its lifetime ends (the comment in the code says that it is
    removed then), unless a key of the same blob has outlived its own. *)
Theorem keyring_refines `{KeyLib, SignLib} (cs : list (command * env)) :
  Forall command_ok cs ->
  spec_steps (absKeyring NewKeyring) cs (runs cs NewKeyring).1 (absKeyring (runs cs NewKeyring).2).
Proof. intros Hcs. apply keyring_steps; [by apply Forall_nil_2 | done]. Qed.

(** A key for a minute, a listing before and after, and a lock. *)
Definition sampleAdded : AddedKey := mkAddedKey (rsaPrivateKey 3 15 1 [3; 5]) None (str "me") 60 false [].

Definition sampleCommands : list (command * env) :=
  [(CAdd sampleAdded, mkEnv (fun _ => 0) []); (CList, mkEnv (fun _ => second) []); (CLock (str "pw"), mkEnv (fun _ => 0) []);
   (CList, mkEnv (fun _ => second) []); (CUnlock (str "no"), mkEnv (fun _ => 0) []); (CUnlock (str "pw"), mkEnv (fun _ => 0) []);
   (CList, mkEnv (fun _ => 61 * second) [])].

Lemma keyring_refines_witness :
  @spec_steps toyKeyLib toySignLib (absKeyring NewKeyring) sampleCommands
    (@runs _ (@keyring_Agent toyKeyLib toySignLib) sampleCommands NewKeyring).1
    (absKeyring (@runs _ (@keyring_Agent toyKeyLib toySignLib) sampleCommands NewKeyring).2).
Proof.
  apply (@keyring_refines toyKeyLib toySignLib). repeat (apply Forall_cons; split); try done.
  split; [done|]. intros s Hs. vm_compute in Hs. injection Hs as <-. by exists KeyAlgoRSA.
Defined.
