(* ===== verification/AgentWire.v ===== *)
(** * The agent protocol: client and server (agent/client.go, agent/server.go)

    The messages, the client that turns calls of [Agent] into requests, and the
    server that turns requests into calls of an [Agent].  A connection is the
    class [Conn] of what the two sides use of an [io.ReadWriter]. *)

From S2P Require Import Prelude Text Wire Codec Negotiate Kex Keys Signers KeyFiles Agent.

(** ** Messages *)

Definition agentRequestV1Identities : Z := 1.
Definition agentRemoveAllV1Identities : Z := 9.
Definition agentAddIdentity : Z := 17.
Definition agentRemoveIdentity : Z := 18.
Definition agentRemoveAllIdentities : Z := 19.
Definition agentAddIdConstrained : Z := 25.
Definition agentLock : Z := 22.
Definition agentUnlock : Z := 23.
Definition agentConstrainLifetime : Z := 1.
Definition agentConstrainConfirm : Z := 2.
Definition agentConstrainExtension : Z := 3.
Definition agentFailure : Z := 5.
Definition agentSuccess : Z := 6.
Definition agentRequestIdentities : Z := 11.
Definition agentIdentitiesAnswer : Z := 12.
Definition agentSignRequest : Z := 13.
Definition agentSignResponse : Z := 14.
Definition agentV1IdentitiesAnswer : Z := 2.

Definition maxAgentResponseBytes : Z := 16 * 2 ^ 20.

Definition identitiesAnswer_struct : structType :=
  StructType "identitiesAnswerAgentMsg" "12" [("NumKeys", KUint32); ("Keys", KBytes true)].
Definition signRequest_struct : structType :=
  StructType "signRequestAgentMsg" "13" [("KeyBlob", KBytes false); ("Data", KBytes false); ("Flags", KUint32)].
Definition signResponse_struct : structType :=
  StructType "signResponseAgentMsg" "14" [("SigBlob", KBytes false)].
Definition constrainLifetime_struct : structType :=
  StructType "constrainLifetimeAgentMsg" "1" [("LifetimeSecs", KUint32)].
Definition constrainExtension_struct : structType :=
  StructType "constrainExtensionAgentMsg" "3"
    [("ExtensionName", KString); ("ExtensionDetails", KBytes false); ("Rest", KBytes true)].
Definition wireKey_struct : structType := StructType "wireKey" "" [("Format", KString); ("Rest", KBytes true)].
Definition parseKey_struct : structType :=
  StructType "" "" [("Blob", KBytes false); ("Comment", KString); ("Rest", KBytes true)].
Definition marshalKey_struct : structType := StructType "" "" [("Blob", KBytes false); ("Comment", KString)].
Definition v1Identity_struct : structType := StructType "agentV1IdentityMsg" "2" [("Numkeys", KUint32)].
Definition removeIdentity_struct : structType := StructType "agentRemoveIdentityMsg" "18" [("KeyBlob", KBytes false)].
Definition lock_struct : structType := StructType "agentLockMsg" "22" [("Passphrase", KBytes false)].
Definition unlock_struct : structType := StructType "agentUnlockMsg" "23" [("Passphrase", KBytes false)].

Definition rsaKeyMsg_struct : structType :=
  StructType "rsaKeyMsg" "17|25" [("Type", KString); ("N", KBigInt); ("E", KBigInt); ("D", KBigInt); ("Iqmp", KBigInt);
    ("P", KBigInt); ("Q", KBigInt); ("Comments", KString); ("Constraints", KBytes true)].
Definition dsaKeyMsg_struct : structType :=
  StructType "dsaKeyMsg" "17|25" [("Type", KString); ("P", KBigInt); ("Q", KBigInt); ("G", KBigInt); ("Y", KBigInt);
    ("X", KBigInt); ("Comments", KString); ("Constraints", KBytes true)].
Definition ecdsaKeyMsg_struct : structType :=
  StructType "ecdsaKeyMsg" "17|25" [("Type", KString); ("Curve", KString); ("KeyBytes", KBytes false); ("D", KBigInt);
    ("Comments", KString); ("Constraints", KBytes true)].
Definition ed25519KeyMsg_struct : structType :=
  StructType "ed25519KeyMsg" "17|25" [("Type", KString); ("Pub", KBytes false); ("Priv", KBytes false);
    ("Comments", KString); ("Constraints", KBytes true)].
Definition rsaCertMsg_struct : structType :=
  StructType "rsaCertMsg" "17|25" [("Type", KString); ("CertBytes", KBytes false); ("D", KBigInt); ("Iqmp", KBigInt);
    ("P", KBigInt); ("Q", KBigInt); ("Comments", KString); ("Constraints", KBytes true)].
Definition dsaCertMsg_struct : structType :=
  StructType "dsaCertMsg" "17|25" [("Type", KString); ("CertBytes", KBytes false); ("X", KBigInt);
    ("Comments", KString); ("Constraints", KBytes true)].
Definition ecdsaCertMsg_struct : structType :=
  StructType "ecdsaCertMsg" "17|25" [("Type", KString); ("CertBytes", KBytes false); ("D", KBigInt);
    ("Comments", KString); ("Constraints", KBytes true)].
Definition ed25519CertMsg_struct : structType :=
  StructType "ed25519CertMsg" "17|25" [("Type", KString); ("CertBytes", KBytes false); ("Pub", KBytes false);
    ("Priv", KBytes false); ("Comments", KString); ("Constraints", KBytes true)].
Definition insertRecord_struct : structType := StructType "" "17|25" [("Type", KString); ("Rest", KBytes true)].

(** What the server answers and the client understands. *)
Inductive agentMsg :=
| failureAgentMsg
| successAgentMsg
| identitiesAnswerAgentMsg (NumKeys : Z) (Keys : bytes)
| signResponseAgentMsg (SigBlob : bytes)
| agentV1IdentityMsg (Numkeys : Z).

(** ** Operations on a state with errors *)

Definition pureOp {T A} (r : outcome A) : op T A := fun _ s => (r, s).

Definition bindOp {T A B} (m : op T A) (k : A -> op T B) : op T B := fun e s =>
  match m e s with
  | (Ret a, s) => k a e s
  | (Fail err, s) => (Fail err, s)
  | (Panic w, s) => (Panic w, s)
  end.

Notation "'let!' x := m 'in' k" := (bindOp m (fun x => k)) (at level 10, x pattern, m at level 100, k at level 200).

Definition mapErr {T A} (f : error -> error) (m : op T A) : op T A := fun e s =>
  match m e s with
  | (Fail err, s) => (Fail (f err), s)
  | r => r
  end.

(** What is used of an [io.ReadWriter]. *)
Class Conn (C : Type) := {
  conn_Write : bytes -> op C unit;
  conn_ReadFull : Z -> op C bytes
}.

(** [rsa.PrivateKey.Precompute]: the value of [Precomputed.Qinv]. *)
Class RSALib := { rsa_Precompute : Z -> Z -> list Z -> outcome Z }.

(** ** The client *)

Definition clientErr (err : error) : error := errNew "agent: client error: %v".

Definition parseKey (i : bytes) : outcome (Key * bytes) :=
  let? (Blob, (Comment, (Rest, _))) := Unmarshal parseKey_struct i in
  let? (Format, _) := Unmarshal wireKey_struct Blob in
  Ret (mkKey Format Blob Comment, Rest).

Definition unmarshal (packet : bytes) : outcome agentMsg :=
  match packet with
  | [] => Fail (errNew "agent: empty packet")
  | tag :: _ =>
      let tag := b2z tag in
      if tag =? agentFailure then Ret failureAgentMsg
      else if tag =? agentSuccess then Ret successAgentMsg
      else if tag =? agentIdentitiesAnswer then
        let? (NumKeys, (Keys, _)) := Unmarshal identitiesAnswer_struct packet in
        Ret (identitiesAnswerAgentMsg NumKeys Keys)
      else if tag =? agentSignResponse then
        let? (SigBlob, _) := Unmarshal signResponse_struct packet in
        Ret (signResponseAgentMsg SigBlob)
      else if tag =? agentV1IdentitiesAnswer then
        let? (Numkeys, _) := Unmarshal v1Identity_struct packet in
        Ret (agentV1IdentityMsg Numkeys)
      else Fail (Errorf "agent: unknown type tag %d" [FNum tag])
  end.

Fixpoint parseKeys (n : nat) (data : bytes) : outcome (list Key) :=
  match n with
  | O => Ret []
  | S n =>
      let? (key, data) := parseKey data in
      let? keys := parseKeys n data in
      Ret (key :: keys)
  end.

(** The name of a curve: [nistp] and its size. *)
Definition curveID (c : ellipticCurve) : bytes :=
  match c with P224 => str "nistp224" | P256 => str "nistp256" | P384 => str "nistp384" | P521 => str "nistp521" end.

(** The message of a key with constraints has another type. *)
Definition retag (constraints req : bytes) : outcome bytes :=
  if zlen constraints =? 0 then Ret req
  else match req with [] => Panic "index out of range" | _ :: r => Ret (z2b agentAddIdConstrained :: r) end.

Definition errUnsupportedKey : error := errNew "agent: unsupported key type %T".

Section Client.
Context `{KeyLib, SignLib, RSALib} {C : Type} `{Conn C}.

Definition call (req : bytes) : op C agentMsg :=
  let msg := be_encode 4 (zlen req) ++ req in
  let! _ := mapErr clientErr (conn_Write msg) in
  let! respSizeBuf := mapErr clientErr (conn_ReadFull 4) in
  let respSize := be_decode respSizeBuf in
  if maxAgentResponseBytes <? respSize then pureOp (Fail (clientErr EOF))
  else
    let! buf := mapErr clientErr (conn_ReadFull respSize) in
    mapErr clientErr (pureOp (unmarshal buf)).

Definition simpleCall (req : bytes) : op C unit :=
  let! resp := call req in
  match resp with
  | successAgentMsg => pureOp (Ret tt)
  | _ => pureOp (Fail (errNew "agent: failure"))
  end.

Definition client_RemoveAll : op C unit := simpleCall [z2b agentRemoveAllIdentities].

Definition client_Remove (key : keyArg) : op C unit :=
  let! blob := pureOp (keyArg_Marshal key) in
  let! req := pureOp (marshalStruct [] removeIdentity_struct (blob, tt)) in
  simpleCall req.

Definition client_Lock (passphrase : bytes) : op C unit :=
  let! req := pureOp (marshalStruct [] lock_struct (passphrase, tt)) in
  simpleCall req.

Definition client_Unlock (passphrase : bytes) : op C unit :=
  let! req := pureOp (marshalStruct [] unlock_struct (passphrase, tt)) in
  simpleCall req.

Definition client_List : op C (list Key) :=
  let! msg := call [z2b agentRequestIdentities] in
  match msg with
  | identitiesAnswerAgentMsg NumKeys Keys =>
      if maxAgentResponseBytes / 8 <? NumKeys then pureOp (Fail (errNew "agent: too many keys in agent reply"))
      else pureOp (parseKeys (Z.to_nat NumKeys) Keys)
  | failureAgentMsg => pureOp (Fail (errNew "agent: failed to list keys"))
  | _ => pureOp (Panic "unreachable")
  end.

Definition client_Sign (key : keyArg) (data : bytes) : op C Signature :=
  let! blob := pureOp (keyArg_Marshal key) in
  let! req := pureOp (marshalStruct [] signRequest_struct (blob, (data, (0, tt)))) in
  let! msg := call req in
  match msg with
  | signResponseAgentMsg SigBlob => pureOp (unmarshalMsg Signature SigBlob)
  | failureAgentMsg => pureOp (Fail (errNew "agent: failed to sign challenge"))
  | _ => pureOp (Panic "unreachable")
  end.

(** The request of [insertKey]. *)
Definition insertKeyReq (s : privateKey) (comment constraints : bytes) : outcome bytes :=
  match s with
  | rsaPrivateKey E N D Primes =>
      match Primes with
      | [P; Q] =>
          let? Qinv := rsa_Precompute N D Primes in
          marshalStruct [] rsaKeyMsg_struct (KeyAlgoRSA, (N, (E, (D, (Qinv, (P, (Q, (comment, (constraints, tt)))))))))
      | _ => Fail (Errorf "agent: unsupported RSA key with %d primes" [FNum (zlen Primes)])
      end
  | dsaPrivateKey P Q G Y X =>
      marshalStruct [] dsaKeyMsg_struct (KeyAlgoDSA, (P, (Q, (G, (Y, (X, (comment, (constraints, tt))))))))
  | ecdsaPrivateKey c X Y D =>
      let nistID := curveID c in
      marshalStruct [] ecdsaKeyMsg_struct
        (str "ecdsa-sha2-" ++ nistID, (nistID, (elliptic_Marshal c X Y, (D, (comment, (constraints, tt))))))
  | ed25519PrivateKey k =>
      if zlen k <? 32 then Panic "slice bounds out of range"
      else marshalStruct [] ed25519KeyMsg_struct (KeyAlgoED25519, (zdrop 32 k, (k, (comment, (constraints, tt)))))
  | _ => Fail errUnsupportedKey
  end.

Definition insertKey (s : privateKey) (comment constraints : bytes) : op C unit :=
  let! req := pureOp (insertKeyReq s comment constraints) in
  let! req := pureOp (retag constraints req) in
  simpleCall req.

(** The request of [insertCert]. *)
Definition insertCertReq (s : privateKey) (cert : Certificate) (comment constraints : bytes) : outcome bytes :=
  let certType := pub_Type (certPublicKey cert) in
  match s with
  | rsaPrivateKey E N D Primes =>
      match Primes with
      | [P; Q] =>
          let? Qinv := rsa_Precompute N D Primes in
          let? t := certType in
          let? CertBytes := cert_Marshal cert in
          marshalStruct [] rsaCertMsg_struct (t, (CertBytes, (D, (Qinv, (P, (Q, (comment, (constraints, tt))))))))
      | _ => Fail (Errorf "agent: unsupported RSA key with %d primes" [FNum (zlen Primes)])
      end
  | dsaPrivateKey P Q G Y X =>
      let? t := certType in
      let? CertBytes := cert_Marshal cert in
      marshalStruct [] dsaCertMsg_struct (t, (CertBytes, (X, (comment, (constraints, tt)))))
  | ecdsaPrivateKey c X Y D =>
      let? t := certType in
      let? CertBytes := cert_Marshal cert in
      marshalStruct [] ecdsaCertMsg_struct (t, (CertBytes, (D, (comment, (constraints, tt)))))
  | ed25519PrivateKey k =>
      let? t := certType in
      let? CertBytes := cert_Marshal cert in
      if zlen k <? 32 then Panic "slice bounds out of range"
      else marshalStruct [] ed25519CertMsg_struct (t, (CertBytes, (zdrop 32 k, (k, (comment, (constraints, tt))))))
  | _ => Fail errUnsupportedKey
  end.

Definition insertCert (s : privateKey) (cert : Certificate) (comment constraints : bytes) : op C unit :=
  let! req := pureOp (insertCertReq s cert comment constraints) in
  let! req := pureOp (retag constraints req) in
  let! signer := pureOp (NewSignerFromKey s) in
  let! a := pureOp (pub_Marshal (cert_Key cert)) in
  let! b := pureOp (pub_Marshal (signer_PublicKey signer)) in
  if negb (bool_decide (a = b)) then pureOp (Fail (errNew "agent: signer and cert have different public key"))
  else simpleCall req.

(** The constraints that are sent: not the extensions. *)
Definition constraintBytes (key : AddedKey) : outcome bytes :=
  let? lifetime :=
    if negb (ak_LifetimeSecs key =? 0) then marshalStruct [] constrainLifetime_struct (ak_LifetimeSecs key, tt) else Ret [] in
  Ret (lifetime ++ if ak_ConfirmBeforeUse key then [z2b agentConstrainConfirm] else []).

Definition client_Add (key : AddedKey) : op C unit :=
  let! constraints := pureOp (constraintBytes key) in
  match ak_Certificate key with
  | None => insertKey (ak_PrivateKey key) (ak_Comment key) constraints
  | Some cert => insertCert (ak_PrivateKey key) cert (ak_Comment key) constraints
  end.

Definition client_Signers : op C (list agentSigner) :=
  let! keys := client_List in
  pureOp (Ret (map agentKeyringSigner keys)).

(** [agentKeyringSigner.Sign]. *)
Definition keyringSigner_Sign (pub : Key) (rand data : bytes) : op C Signature := client_Sign (AgentKey pub) data.

#[global] Instance client_Agent : Agent C := {
  agent_List := client_List;
  agent_Sign := client_Sign;
  agent_Add := client_Add;
  agent_Remove := client_Remove;
  agent_RemoveAll := client_RemoveAll;
  agent_Lock := client_Lock;
  agent_Unlock := client_Unlock;
  agent_Signers := client_Signers
}.
End Client.

(** ** The server *)

(** A uint32 at [constraints[1:5]]; the rest of a message has no spare capacity. *)
Fixpoint parseConstraintsLoop (fuel : nat) (constraints : bytes) (lifetimeSecs : Z) (confirm : bool)
    (extensions : list ConstraintExtension) : outcome (Z * bool * list ConstraintExtension) :=
  match constraints, fuel with
  | [], _ => Ret (lifetimeSecs, confirm, extensions)
  | _, O => Panic "out of fuel"
  | c :: rest, S fuel =>
      if b2z c =? agentConstrainLifetime then
        if zlen rest <? 4 then Panic "slice bounds out of range"
        else parseConstraintsLoop fuel (zdrop 4 rest) (be_decode (ztake 4 rest)) confirm extensions
      else if b2z c =? agentConstrainConfirm then parseConstraintsLoop fuel rest lifetimeSecs true extensions
      else if b2z c =? agentConstrainExtension then
        let? (name, (details, (rest, _))) := Unmarshal constrainExtension_struct constraints in
        parseConstraintsLoop fuel rest lifetimeSecs confirm (extensions ++ [mkConstraintExtension name details])
      else Fail (Errorf "unknown constraint type: %d" [FNum (b2z c)])
  end.

Definition parseConstraints (constraints : bytes) : outcome (Z * bool * list ConstraintExtension) :=
  parseConstraintsLoop (length constraints) constraints 0 false [].

(** An added key with the constraints of its message ([setConstraints]). *)
Definition setConstraints (priv : privateKey) (cert : option Certificate) (comment constraints : bytes) : outcome AddedKey :=
  let? (lifetimeSecs, confirm, extensions) := parseConstraints constraints in
  Ret (mkAddedKey priv cert comment lifetimeSecs confirm extensions).

Definition errExponent : error := errNew "agent: RSA public exponent too large".

(** A reply or nothing, which stands for success. *)
Definition marshalReply (rep : agentMsg) : outcome bytes :=
  match rep with
  | identitiesAnswerAgentMsg NumKeys Keys => marshalStruct [] identitiesAnswer_struct (NumKeys, (Keys, tt))
  | signResponseAgentMsg SigBlob => marshalStruct [] signResponse_struct (SigBlob, tt)
  | agentV1IdentityMsg Numkeys => marshalStruct [] v1Identity_struct (Numkeys, tt)
  | failureAgentMsg | successAgentMsg => Panic "reflect: Field index out of bounds"
  end.

Definition marshalKey (k : Key) : outcome bytes :=
  marshalStruct [] marshalKey_struct (Key_Marshal k, (key_Comment k, tt)).

Fixpoint marshalKeyList (keys : list Key) : outcome bytes :=
  match keys with
  | [] => Ret []
  | k :: keys' =>
      let? b := marshalKey k in
      let? rest := marshalKeyList keys' in
      Ret (b ++ rest)
  end.

Section Parsers.
Context `{KeyLib, RSALib}.

Definition parseRSAKey (req : bytes) : outcome AddedKey :=
  let? (_, (N, (E, (D, (_, (P, (Q, (Comments, (Constraints, _))))))))) := Unmarshal rsaKeyMsg_struct req in
  if 30 <? bitLen E then Fail errExponent
  else
    let priv := rsaPrivateKey (i64 E) N D [P; Q] in
    let? _ := rsa_Precompute N D [P; Q] in
    setConstraints priv None Comments Constraints.

Definition parseEd25519Key (req : bytes) : outcome AddedKey :=
  let? (_, (_, (Priv, (Comments, (Constraints, _))))) := Unmarshal ed25519KeyMsg_struct req in
  setConstraints (ed25519PrivateKey Priv) None Comments Constraints.

Definition parseDSAKey (req : bytes) : outcome AddedKey :=
  let? (_, (P, (Q, (G, (Y, (X, (Comments, (Constraints, _)))))))) := Unmarshal dsaKeyMsg_struct req in
  setConstraints (dsaPrivateKey P Q G Y X) None Comments Constraints.

Definition unmarshalECDSA (curveName keyBytes : bytes) (privScalar : Z) : outcome privateKey :=
  let? c :=
    if bool_decide (curveName = str "nistp256") then Ret P256
    else if bool_decide (curveName = str "nistp384") then Ret P384
    else if bool_decide (curveName = str "nistp521") then Ret P521
    else Fail (Errorf "agent: unknown curve %q" [FStr curveName]) in
  match elliptic_Unmarshal c keyBytes with
  | Some (X, Y) => Ret (ecdsaPrivateKey c X Y privScalar)
  | None => Fail (errNew "agent: point not on curve")
  end.

Definition parseECDSAKey (req : bytes) : outcome AddedKey :=
  let? (_, (Curve, (KeyBytes, (D, (Comments, (Constraints, _)))))) := Unmarshal ecdsaKeyMsg_struct req in
  let? priv := unmarshalECDSA Curve KeyBytes D in
  setConstraints priv None Comments Constraints.

(** [ssh.ParsePublicKey] and the assertion that it is a certificate. *)
Definition parseCertBytes (CertBytes : bytes) (bad : string) : outcome Certificate :=
  let? pubKey := ParsePublicKey CertBytes in
  match pubKey with
  | certPublicKey cert => Ret cert
  | _ => Fail (errNew bad)
  end.

Definition parseEd25519Cert (req : bytes) : outcome AddedKey :=
  let? (_, (CertBytes, (_, (Priv, (Comments, (Constraints, _)))))) := Unmarshal ed25519CertMsg_struct req in
  let? cert := parseCertBytes CertBytes "agent: bad ED25519 certificate" in
  setConstraints (ed25519PrivateKey Priv) (Some cert) Comments Constraints.

(** An error of [Unmarshal] with another text. *)
Definition reword {A} (r : outcome A) (e : error) : outcome A :=
  match r with Fail _ => Fail e | r => r end.

Definition errPublicKey : error := errNew "agent: Unmarshal failed to parse public key: %v".

(** The primes come in the other order than in [parseRSAKey]. *)
Definition parseRSACert (req : bytes) : outcome AddedKey :=
  let? (_, (CertBytes, (D, (_, (P, (Q, (Comments, (Constraints, _)))))))) := Unmarshal rsaCertMsg_struct req in
  let? cert := parseCertBytes CertBytes "agent: bad RSA certificate" in
  let? keyBytes := pub_Marshal (cert_Key cert) in
  let? (_, (E, (N, _))) := reword (Unmarshal rsaWire_struct keyBytes) errPublicKey in
  if 30 <? bitLen E then Fail errExponent
  else
    let priv := rsaPrivateKey (i64 E) N D [Q; P] in
    let? _ := rsa_Precompute N D [Q; P] in
    setConstraints priv (Some cert) Comments Constraints.

Definition parseDSACert (req : bytes) : outcome AddedKey :=
  let? (_, (CertBytes, (X, (Comments, (Constraints, _))))) := Unmarshal dsaCertMsg_struct req in
  let? cert := parseCertBytes CertBytes "agent: bad DSA certificate" in
  let? keyBytes := pub_Marshal (cert_Key cert) in
  let? (_, (P, (Q, (G, (Y, _))))) := reword (Unmarshal dsaWire_struct keyBytes) errPublicKey in
  setConstraints (dsaPrivateKey P Q G Y X) (Some cert) Comments Constraints.

Definition parseECDSACert (req : bytes) : outcome AddedKey :=
  let? (_, (CertBytes, (D, (Comments, (Constraints, _))))) := Unmarshal ecdsaCertMsg_struct req in
  let? cert := parseCertBytes CertBytes "agent: bad ECDSA certificate" in
  let? keyBytes := pub_Marshal (cert_Key cert) in
  let? (_, (ID, (KeyBytes, _))) := Unmarshal ecdsaWire_struct keyBytes in
  let? priv := unmarshalECDSA ID KeyBytes D in
  setConstraints priv (Some cert) Comments Constraints.

(** The key of an identity message, by its type. *)
Definition parseByType (Type_ req : bytes) : outcome AddedKey :=
  if bool_decide (Type_ = KeyAlgoRSA) then parseRSAKey req
  else if bool_decide (Type_ = KeyAlgoDSA) then parseDSAKey req
  else if bool_decide (Type_ ∈ [KeyAlgoECDSA256; KeyAlgoECDSA384; KeyAlgoECDSA521]) then parseECDSAKey req
  else if bool_decide (Type_ = KeyAlgoED25519) then parseEd25519Key req
  else if bool_decide (Type_ = CertAlgoRSAv01) then parseRSACert req
  else if bool_decide (Type_ = CertAlgoDSAv01) then parseDSACert req
  else if bool_decide (Type_ ∈ [CertAlgoECDSA256v01; CertAlgoECDSA384v01; CertAlgoECDSA521v01]) then parseECDSACert req
  else if bool_decide (Type_ = CertAlgoED25519v01) then parseEd25519Cert req
  else Fail (Errorf "agent: not implemented: %q" [FStr Type_]).

Definition parseIdentity (req : bytes) : outcome AddedKey :=
  let? (Type_, _) := Unmarshal insertRecord_struct req in
  parseByType Type_ req.
End Parsers.

Section Server.
Context `{KeyLib, RSALib} {T : Type} `{Agent T}.

Definition insertIdentity (req : bytes) : op T unit :=
  let! addedKey := pureOp (parseIdentity req) in
  agent_Add addedKey.

(** The key that a blob of the wire stands for. *)
Definition wireArg (blob : bytes) : outcome keyArg :=
  let? (Format, _) := Unmarshal wireKey_struct blob in
  Ret (AgentKey (mkKey Format blob [])).

(** A call whose result is [nil]. *)
Definition noReply (m : op T unit) : op T (option agentMsg) :=
  let! _ := m in pureOp (Ret None).

Definition processRequest (data : bytes) : op T (option agentMsg) :=
  match data with
  | [] => pureOp (Panic "index out of range")
  | tag :: _ =>
      let tag := b2z tag in
      if tag =? agentRequestV1Identities then pureOp (Ret (Some (agentV1IdentityMsg 0)))
      else if tag =? agentRemoveAllV1Identities then pureOp (Ret None)
      else if tag =? agentRemoveIdentity then
        let! (KeyBlob, _) := pureOp (Unmarshal removeIdentity_struct data) in
        let! key := pureOp (wireArg KeyBlob) in
        noReply (agent_Remove key)
      else if tag =? agentRemoveAllIdentities then noReply agent_RemoveAll
      else if tag =? agentLock then
        let! (Passphrase, _) := pureOp (Unmarshal lock_struct data) in
        noReply (agent_Lock Passphrase)
      else if tag =? agentUnlock then
        let! (Passphrase, _) := pureOp (Unmarshal unlock_struct data) in
        noReply (agent_Unlock Passphrase)
      else if tag =? agentSignRequest then
        let! (KeyBlob, (Data, _)) := pureOp (Unmarshal signRequest_struct data) in
        let! k := pureOp (wireArg KeyBlob) in
        let! sig := agent_Sign k Data in
        let! SigBlob := pureOp (Marshal sig) in
        pureOp (Ret (Some (signResponseAgentMsg SigBlob)))
      else if tag =? agentRequestIdentities then
        let! keys := agent_List in
        let! Keys := pureOp (marshalKeyList keys) in
        pureOp (Ret (Some (identitiesAnswerAgentMsg (u32 (zlen keys)) Keys)))
      else if (tag =? agentAddIdConstrained) || (tag =? agentAddIdentity) then noReply (insertIdentity data)
      else pureOp (Fail (Errorf "unknown opcode %d" [FNum tag]))
  end.

Definition processRequestBytes (reqData : bytes) : op T bytes := fun e s =>
  match processRequest reqData e s with
  | (Fail _, s) => (Ret [z2b agentFailure], s)
  | (Ret None, s) => (Ret [z2b agentSuccess], s)
  | (Ret (Some rep), s) => (marshalReply rep, s)
  | (Panic w, s) => (Panic w, s)
  end.

Context {C : Type} `{Conn C}.

Definition onAgent {A} (m : op T A) : op (T * C) A := fun e s =>
  let '(r, a) := m e s.1 in (r, (a, s.2)).

Definition onConn {A} (m : op C A) : op (T * C) A := fun e s =>
  let '(r, c) := m e s.2 in (r, (s.1, c)).

(** One turn of the loop of [ServeAgent]. *)
Definition serveRequest : op (T * C) unit :=
  let! length := onConn (conn_ReadFull 4) in
  let l := be_decode length in
  if maxAgentResponseBytes <? l then pureOp (Fail (Errorf "agent: request too large: %d" [FNum l]))
  else
    let! req := onConn (conn_ReadFull l) in
    let! repData := onAgent (processRequestBytes req) in
    if maxAgentResponseBytes <? zlen repData then
      pureOp (Fail (Errorf "agent: reply too large: %d bytes" [FNum (zlen repData)]))
    else
      let! _ := onConn (conn_Write (be_encode 4 (zlen repData))) in
      onConn (conn_Write repData).

(** The first [n] turns, each in its own world; [Ret] when all of them went
    well and the server goes on. *)
Fixpoint ServeAgent (n : nat) (envs : nat -> env) (s : T * C) : outcome unit * (T * C) :=
  match n with
  | O => (Ret tt, s)
  | S n =>
      match ServeAgent n envs s with
      | (Ret _, s) => serveRequest (envs n) s
      | r => r
      end
  end.
End Server.
