(* ===== verification/AgentWireFacts.v ===== *)
(** * A remote agent behaves as the agent behind it

    The client and the server are connected by a pair of buffers.  For every
    agent, a call through the client has the effect and the result of the same
    call on the agent itself, errors losing their text. *)

From S2P Require Import Prelude Text Wire Codec Negotiate Kex Keys KeysFacts Signers Certs CertsFacts KeyFiles KeyFilesFacts Agent AgentFacts AgentWire.

(** ** Connections of the examples *)

Record buffer := mkBuffer { buf_in : bytes; buf_out : bytes }.

Definition takeBytes (n : Z) (s : bytes) : outcome (bytes * bytes) :=
  if zlen s <? n then Fail EOF else Ret (ztake n s, zdrop n s).

(** The server's side: it reads what the client wrote. *)
#[global] Instance buffer_Conn : Conn buffer := {
  conn_Write m := fun _ b => (Ret tt, mkBuffer (buf_in b) (buf_out b ++ m));
  conn_ReadFull n := fun _ b =>
    match takeBytes n (buf_in b) with
    | Ret (x, rest) => (Ret x, mkBuffer rest (buf_out b))
    | Fail e => (Fail e, b)
    | Panic w => (Panic w, b)
    end
}.

Section Loopback.
Context `{KeyLib, RSALib} {T : Type} `{Agent T}.

(** The client's side: the server takes its turn when a request has been
    written, and the client reads what the server wrote. *)
#[global] Instance loop_Conn : Conn (T * buffer) := {
  conn_Write m := fun e s =>
    match serveRequest e (s.1, mkBuffer (buf_in s.2 ++ m) (buf_out s.2)) with
    | (Panic w, s) => (Panic w, s)
    | (_, s) => (Ret tt, s)
    end;
  conn_ReadFull n := fun e s =>
    match takeBytes n (buf_out s.2) with
    | Ret (x, rest) => (Ret x, (s.1, mkBuffer (buf_in s.2) rest))
    | Fail err => (Fail err, s)
    | Panic w => (Panic w, s)
    end
}.

Definition idle (s : T) : T * buffer := (s, mkBuffer [] []).

Lemma takeBytes_app n (a b : bytes) : zlen a = n -> takeBytes n (a ++ b) = Ret (a, b).
Proof.
  intros Ha. unfold takeBytes. pose proof (zlen_nonneg b). replace (zlen (a ++ b) <? n) with false by (rewrite zlen_app; lia).
  by rewrite ztake_app, zdrop_app.
Qed.

Definition short (p : bytes) : Prop := zlen p <= maxAgentResponseBytes.

Lemma short_length p : short p -> be_decode (be_encode 4 (zlen p)) = zlen p /\ (maxAgentResponseBytes <? be_decode (be_encode 4 (zlen p))) = false.
Proof.
  unfold short, maxAgentResponseBytes. intros Hp. pose proof (zlen_nonneg p).
  rewrite be_decode_encode_small by (change (256 ^ Z.of_nat 4) with (2 ^ 32); lia). split; [done|]. lia.
Qed.

(** One turn of the server on a whole request. *)
Lemma serveRequest_turn req e s rep s' :
  short req -> processRequestBytes req e s = (Ret rep, s') -> short rep ->
  serveRequest e (s, mkBuffer (be_encode 4 (zlen req) ++ req) []) = (Ret tt, (s', mkBuffer [] (be_encode 4 (zlen rep) ++ rep))).
Proof.
  intros Hq Hp Hr. destruct (short_length req Hq) as [Hd Hc], (short_length rep Hr) as [_ _].
  unfold serveRequest, bindOp, onConn, conn_ReadFull, buffer_Conn. cbn [fst snd buf_in buf_out].
  rewrite takeBytes_app by (by rewrite zlen_be_encode). rewrite Hc, Hd. cbn [fst snd buf_in buf_out].
  rewrite <- (app_nil_r req) at 2. rewrite takeBytes_app by done. unfold onAgent. cbn [fst snd]. rewrite Hp.
  replace (maxAgentResponseBytes <? zlen rep) with false by (unfold short in Hr; lia). done.
Qed.

(** A call of the client. *)
Lemma call_turn req e s rep s' :
  short req -> processRequestBytes req e s = (Ret rep, s') -> short rep ->
  call req e (idle s) = mapErr clientErr (pureOp (unmarshal rep)) e (idle s').
Proof.
  intros Hq Hp Hr. destruct (short_length rep Hr) as [Hd Hc]. unfold call, bindOp, mapErr at 1 2 3, idle.
  cbn [conn_Write conn_ReadFull loop_Conn fst snd buf_in buf_out app].
  rewrite (serveRequest_turn req e s rep s') by done. cbn [fst snd buf_in buf_out].
  rewrite takeBytes_app by (by rewrite zlen_be_encode). cbn [fst snd buf_in buf_out]. rewrite Hc, Hd.
  cbn [fst snd buf_in buf_out]. rewrite <- (app_nil_r rep) at 2. rewrite takeBytes_app by done. done.
Qed.

(** The same result, errors aside. *)
Definition agrees {A} (r r' : outcome A) : Prop :=
  match r, r' with
  | Ret a, Ret b => a = b
  | Fail _, Fail _ => True
  | _, _ => False
  end.

Lemma simpleCall_turn req (m : op T unit) e s r s' :
  short req -> processRequest req e s = noReply m e s -> m e s = (r, s') -> panics r = false ->
  exists r', simpleCall req e (idle s) = (r', idle s') /\ agrees r r'.
Proof.
  intros Hq Hp Hm Hnp. unfold noReply, bindOp in Hp. rewrite Hm in Hp. unfold simpleCall, bindOp.
  destruct r as [[]|err|w]; [| |done].
  - rewrite (call_turn req e s [z2b agentSuccess] s') by (try done; unfold processRequestBytes; by rewrite Hp).
    unfold mapErr, pureOp. cbn. by exists (Ret tt).
  - rewrite (call_turn req e s [z2b agentFailure] s') by (try done; unfold processRequestBytes; by rewrite Hp).
    unfold mapErr, pureOp. cbn. by eexists (Fail _).
Qed.

Lemma zlen_cons_tag (c : byte) (p : bytes) : zlen (c :: p) = 1 + zlen p.
Proof. rewrite zlen_cons. lia. Qed.

(** The server reads the tag and the fields of a request. *)
Lemma short_fields (c : byte) p : short (c :: p) -> zlen p < 2 ^ 32.
Proof. unfold short, maxAgentResponseBytes. rewrite zlen_cons_tag. lia. Qed.

(** What the server does with a request, by its type. *)
Lemma processRequest_sign p : processRequest (z2b agentSignRequest :: p) =
  (let! (KeyBlob, (Data, _)) := pureOp (Unmarshal signRequest_struct (z2b agentSignRequest :: p)) in
   let! k := pureOp (wireArg KeyBlob) in
   let! sig := agent_Sign k Data in
   let! SigBlob := pureOp (Marshal sig) in
   pureOp (Ret (Some (signResponseAgentMsg SigBlob)))).
Proof. done. Qed.

Lemma processRequest_remove p : processRequest (z2b agentRemoveIdentity :: p) =
  (let! (KeyBlob, _) := pureOp (Unmarshal removeIdentity_struct (z2b agentRemoveIdentity :: p)) in
   let! key := pureOp (wireArg KeyBlob) in
   noReply (agent_Remove key)).
Proof. done. Qed.

Lemma processRequest_list : processRequest [z2b agentRequestIdentities] =
  (let! keys := agent_List in
   let! Keys := pureOp (marshalKeyList keys) in
   pureOp (Ret (Some (identitiesAnswerAgentMsg (u32 (zlen keys)) Keys)))).
Proof. done. Qed.

Lemma processRequest_add tag p : tag = agentAddIdentity \/ tag = agentAddIdConstrained ->
  processRequest (z2b tag :: p) = noReply (insertIdentity (z2b tag :: p)).
Proof. by intros [-> | ->]. Qed.

(** ** Requests without a key *)

Lemma remote_RemoveAll e s r s' : agent_RemoveAll e s = (r, s') -> panics r = false ->
  exists r', client_RemoveAll e (idle s) = (r', idle s') /\ agrees r r'.
Proof. intros Hm Hp. by apply (simpleCall_turn _ agent_RemoveAll e s r s'). Qed.

Lemma remote_Lock passphrase e s r s' : short (z2b agentLock :: enc_str passphrase) ->
  agent_Lock passphrase e s = (r, s') -> panics r = false ->
  exists r', client_Lock passphrase e (idle s) = (r', idle s') /\ agrees r r'.
Proof.
  intros Hs Hm Hp. unfold client_Lock, bindOp, pureOp. rewrite (marshalStruct_value _ [22]) by done.
  change (tag_bytes [22] ++ struct_enc _ _) with (z2b agentLock :: enc_str passphrase ++ []). rewrite app_nil_r.
  apply (simpleCall_turn _ (agent_Lock passphrase) e s r s'); try done.
  unfold processRequest. change (b2z (z2b agentLock)) with 22. cbn [Z.eqb Pos.eqb]. unfold bindOp at 1, pureOp.
  pose proof (Unmarshal_tagged lock_struct [22] agentLock (passphrase, tt)) as Hu.
  change (struct_enc _ _) with (enc_str passphrase ++ []) in Hu. rewrite app_nil_r in Hu.
  rewrite Hu; [done | done | by left | done | by eapply short_fields | done].
Qed.

Lemma remote_Unlock passphrase e s r s' : short (z2b agentUnlock :: enc_str passphrase) ->
  agent_Unlock passphrase e s = (r, s') -> panics r = false ->
  exists r', client_Unlock passphrase e (idle s) = (r', idle s') /\ agrees r r'.
Proof.
  intros Hs Hm Hp. unfold client_Unlock, bindOp, pureOp. rewrite (marshalStruct_value _ [23]) by done.
  change (tag_bytes [23] ++ struct_enc _ _) with (z2b agentUnlock :: enc_str passphrase ++ []). rewrite app_nil_r.
  apply (simpleCall_turn _ (agent_Unlock passphrase) e s r s'); try done.
  unfold processRequest. change (b2z (z2b agentUnlock)) with 23. cbn [Z.eqb Pos.eqb]. unfold bindOp at 1, pureOp.
  pose proof (Unmarshal_tagged unlock_struct [23] agentUnlock (passphrase, tt)) as Hu.
  change (struct_enc _ _) with (enc_str passphrase ++ []) in Hu. rewrite app_nil_r in Hu.
  rewrite Hu; [done | done | by left | done | by eapply short_fields | done].
Qed.

(** ** Keys *)

(** A blob starts with the name of its format. *)
Definition blobFormat (format blob : bytes) : Prop := exists rest, blob = enc_str format ++ rest.

Lemma wireKey_format format blob : blobFormat format blob -> zlen blob < 2 ^ 32 ->
  exists rest, Unmarshal wireKey_struct blob = Ret (format, (rest, tt)).
Proof.
  intros [rest ->] Hl. exists rest. pose proof (Unmarshal_untagged wireKey_struct (format, (rest, tt))) as Hu.
  change (struct_enc _ _) with (enc_str format ++ rest) in Hu. apply Hu; done.
Qed.

Lemma wireArg_format format blob : blobFormat format blob -> zlen blob < 2 ^ 32 ->
  wireArg blob = Ret (AgentKey (mkKey format blob [])).
Proof. intros Hf Hl. unfold wireArg. by destruct (wireKey_format format blob Hf Hl) as [rest ->]. Qed.

Lemma remote_Remove key format blob e s r s' :
  keyArg_Marshal key = Ret blob -> blobFormat format blob -> short (z2b agentRemoveIdentity :: enc_str blob) ->
  agent_Remove (AgentKey (mkKey format blob [])) e s = (r, s') -> panics r = false ->
  exists r', client_Remove key e (idle s) = (r', idle s') /\ agrees r r'.
Proof.
  intros Hk Hf Hs Hm Hp. unfold client_Remove, bindOp, pureOp. rewrite Hk. rewrite (marshalStruct_value _ [18]) by done.
  change (tag_bytes [18] ++ struct_enc _ _) with (z2b agentRemoveIdentity :: enc_str blob ++ []). rewrite app_nil_r.
  apply (simpleCall_turn _ (agent_Remove (AgentKey (mkKey format blob []))) e s r s'); try done.
  assert (Hl : zlen blob < 2 ^ 32). { apply short_fields in Hs. rewrite zlen_enc_str in Hs. lia. }
  rewrite processRequest_remove. unfold bindOp at 1 2, pureOp.
  pose proof (Unmarshal_tagged removeIdentity_struct [18] agentRemoveIdentity (blob, tt)) as Hu.
  change (struct_enc _ _) with (enc_str blob ++ []) in Hu. rewrite app_nil_r in Hu.
  rewrite Hu; [|done|by left|done|by eapply short_fields|done]. by rewrite (wireArg_format format).
Qed.

Definition signReq (blob data : bytes) : bytes := z2b agentSignRequest :: enc_str blob ++ enc_str data ++ be_encode 4 0.

Definition sigBlob (sig : Signature) : bytes := enc_str (Signature_Format sig) ++ enc_str (Signature_Blob sig).

Lemma remote_Sign key format blob data e s r s' :
  keyArg_Marshal key = Ret blob -> blobFormat format blob -> short (signReq blob data) ->
  agent_Sign (AgentKey (mkKey format blob [])) data e s = (r, s') -> panics r = false ->
  (forall sig, r = Ret sig -> short (z2b agentSignResponse :: enc_str (sigBlob sig))) ->
  exists r', client_Sign key data e (idle s) = (r', idle s') /\ agrees r r'.
Proof.
  intros Hk Hf Hs Hm Hp Hsig. unfold client_Sign. unfold bindOp at 1 2, pureOp at 1 2. rewrite Hk.
  rewrite (marshalStruct_value _ [13]) by done.
  change (tag_bytes [13] ++ struct_enc _ _) with (z2b agentSignRequest :: enc_str blob ++ enc_str data ++ be_encode 4 0 ++ []).
  rewrite app_nil_r. fold (signReq blob data).
  assert (Hl : zlen blob < 2 ^ 32). { apply short_fields in Hs. rewrite zlen_app, zlen_enc_str in Hs. pose proof (zlen_nonneg (enc_str data ++ be_encode 4 0)). lia. }
  assert (Hreq : processRequest (signReq blob data) e s =
    (let! sig := agent_Sign (AgentKey (mkKey format blob [])) data in
     let! SigBlob := pureOp (Marshal sig) in pureOp (Ret (Some (signResponseAgentMsg SigBlob)))) e s).
  { unfold signReq. rewrite processRequest_sign. unfold bindOp at 1 2, pureOp at 1 2.
    pose proof (Unmarshal_tagged signRequest_struct [13] agentSignRequest (blob, (data, (0, tt)))) as Hu.
    change (struct_enc _ _) with (enc_str blob ++ enc_str data ++ be_encode 4 0 ++ []) in Hu. rewrite app_nil_r in Hu.
    rewrite Hu; [|done|by left|done|by eapply short_fields|by repeat split]. by rewrite (wireArg_format format). }
  unfold bindOp at 1 in Hreq. rewrite Hm in Hreq. unfold bindOp. destruct r as [sig|err|w]; [| |done].
  - unfold bindOp, pureOp in Hreq. rewrite Signature_Marshal_enc in Hreq. fold (sigBlob sig) in Hreq.
    pose proof (Hsig sig eq_refl) as Hshort.
    rewrite (call_turn _ e s (z2b agentSignResponse :: enc_str (sigBlob sig)) s'); [|done| |done].
    2: { unfold processRequestBytes. rewrite Hreq. unfold marshalReply. rewrite (marshalStruct_value _ [14]) by done.
      change (tag_bytes [14] ++ struct_enc _ _) with (z2b agentSignResponse :: enc_str (sigBlob sig) ++ []). by rewrite app_nil_r. }
    unfold mapErr, pureOp, unmarshal. change (b2z (z2b agentSignResponse)) with 14. cbn [Z.eqb Pos.eqb].
    pose proof (Unmarshal_tagged signResponse_struct [14] agentSignResponse (sigBlob sig, tt)) as Hu.
    change (struct_enc _ _) with (enc_str (sigBlob sig) ++ []) in Hu. rewrite app_nil_r in Hu.
    rewrite Hu; [|done|by left|done|by eapply short_fields|done]. cbn [obind].
    exists (Ret sig). split; [|done]. f_equal.
    apply (Unmarshal_value [] sig (sigBlob sig)); [done | done | apply Signature_Marshal_enc | done | | done].
    apply short_fields in Hshort. rewrite zlen_enc_str in Hshort. lia.
  - rewrite (call_turn _ e s [z2b agentFailure] s') by (try done; unfold processRequestBytes; by rewrite Hreq).
    unfold mapErr, pureOp. cbn. by eexists (Fail _).
Qed.

(** ** Listing *)

Definition encKey (k : Key) : bytes := enc_str (key_Blob k) ++ enc_str (key_Comment k).

Definition encKeys (keys : list Key) : bytes := concat (map encKey keys).

Lemma marshalKeyList_enc keys : marshalKeyList keys = Ret (encKeys keys).
Proof.
  induction keys as [|k keys IH]; [done|]. cbn [marshalKeyList]. unfold marshalKey.
  rewrite (marshalStruct_value _ []) by done. cbn [obind]. rewrite IH. cbn [obind].
  change (struct_enc _ _) with (enc_str (key_Blob k) ++ enc_str (key_Comment k) ++ []). by rewrite app_nil_r.
Qed.

Definition keyFormat (k : Key) : Prop := blobFormat (key_Format k) (key_Blob k).

Lemma parseKeys_enc keys : Forall keyFormat keys -> zlen (encKeys keys) < 2 ^ 32 ->
  parseKeys (length keys) (encKeys keys) = Ret keys.
Proof.
  induction 1 as [|k keys Hk _ IH]; intros Hl; [done|]. cbn [parseKeys length]. unfold encKeys in *. cbn [map concat] in *.
  unfold encKey at 1 in Hl. unfold parseKey, encKey at 1.
  pose proof (Unmarshal_untagged parseKey_struct (key_Blob k, (key_Comment k, (concat (map encKey keys), tt)))) as Hu.
  change (struct_enc _ _) with (enc_str (key_Blob k) ++ enc_str (key_Comment k) ++ concat (map encKey keys)) in Hu.
  rewrite <- app_assoc in *. rewrite Hu by done. cbn [obind].
  assert (Hb : zlen (key_Blob k) < 2 ^ 32). { apply zlen_lt_app_l in Hl. rewrite zlen_enc_str in Hl. lia. }
  destruct (wireKey_format _ _ Hk Hb) as [rest ->]. cbn [obind].
  rewrite IH by by do 2 eapply zlen_lt_app_r. cbn [obind]. by destruct k.
Qed.

Lemma encKeys_length keys : 8 * zlen keys <= zlen (encKeys keys).
Proof.
  induction keys as [|k keys IH]; [done|]. unfold encKeys in *. cbn [map concat]. rewrite zlen_app.
  unfold encKey at 1. rewrite zlen_app, !zlen_enc_str, zlen_cons.
  pose proof (zlen_nonneg (key_Blob k)). pose proof (zlen_nonneg (key_Comment k)). lia.
Qed.

Lemma unmarshal_list p : unmarshal (z2b agentIdentitiesAnswer :: p) =
  let? (NumKeys, (Keys, _)) := Unmarshal identitiesAnswer_struct (z2b agentIdentitiesAnswer :: p) in
  Ret (identitiesAnswerAgentMsg NumKeys Keys).
Proof. done. Qed.

Definition listReply (keys : list Key) : bytes := z2b agentIdentitiesAnswer :: be_encode 4 (zlen keys) ++ encKeys keys.

Lemma remote_List e s r s' :
  agent_List e s = (r, s') -> panics r = false ->
  (forall keys, r = Ret keys -> Forall keyFormat keys /\ short (listReply keys)) ->
  exists r', client_List e (idle s) = (r', idle s') /\ agrees r r'.
Proof.
  intros Hm Hp Hkeys. unfold client_List, bindOp.
  assert (Hreq : processRequest [z2b agentRequestIdentities] e s =
    match r with
    | Ret keys => (Ret (Some (identitiesAnswerAgentMsg (u32 (zlen keys)) (encKeys keys))), s')
    | Fail err => (Fail err, s')
    | Panic w => (Panic w, s')
    end).
  { rewrite processRequest_list. unfold bindOp, pureOp. rewrite Hm. destruct r; [by rewrite marshalKeyList_enc|done|done]. }
  destruct r as [keys|err|w]; [| |done].
  - destruct (Hkeys keys eq_refl) as [Hf Hs].
    assert (Hn : 0 <= zlen keys /\ 5 + 8 * zlen keys <= maxAgentResponseBytes /\ zlen (encKeys keys) < 2 ^ 32).
    { pose proof (encKeys_length keys). pose proof (zlen_nonneg keys). unfold short, listReply in Hs.
      rewrite zlen_cons_tag, zlen_app, zlen_be_encode in Hs. unfold maxAgentResponseBytes in *. lia. }
    destruct Hn as (Hn0 & Hn1 & Hl). assert (Hu32 : u32 (zlen keys) = zlen keys).
    { unfold u32. apply Z.mod_small. unfold maxAgentResponseBytes in *. lia. }
    rewrite (call_turn _ e s (listReply keys) s'); [|done| |done].
    2: { unfold processRequestBytes. rewrite Hreq. unfold marshalReply. rewrite (marshalStruct_value _ [12]) by done.
      by rewrite Hu32. }
    unfold mapErr, pureOp, listReply. rewrite unmarshal_list.
    pose proof (Unmarshal_tagged identitiesAnswer_struct [12] agentIdentitiesAnswer (zlen keys, (encKeys keys, tt))) as Hu.
    change (struct_enc _ _) with (be_encode 4 (zlen keys) ++ encKeys keys) in Hu.
    rewrite Hu; [|done|by left|done|by eapply short_fields|].
    2: { repeat split; try done. cbn. unfold maxAgentResponseBytes in *. lia. }
    cbn [obind]. replace (maxAgentResponseBytes / 8 <? zlen keys) with false.
    2: { symmetry. apply Z.ltb_ge. unfold maxAgentResponseBytes in *. change (16 * 2 ^ 20 / 8) with 2097152. lia. }
    replace (Z.to_nat (zlen keys)) with (length keys) by (unfold zlen; lia).
    rewrite parseKeys_enc by done. by exists (Ret keys).
  - rewrite (call_turn _ e s [z2b agentFailure] s') by (try done; unfold processRequestBytes; by rewrite Hreq).
    unfold mapErr, pureOp. cbn. by eexists (Fail _).
Qed.

(** ** Adding *)

Definition addTag (constraints : bytes) : Z := if zlen constraints =? 0 then agentAddIdentity else agentAddIdConstrained.

Lemma addTag_cases cs : addTag cs = agentAddIdentity \/ addTag cs = agentAddIdConstrained.
Proof. unfold addTag. destruct (zlen cs =? 0); auto. Qed.

Lemma addTag_in cs : In (addTag cs) [17; 25] /\ 0 < addTag cs < 256.
Proof. unfold addTag. destruct (zlen cs =? 0); (split; [simpl; auto | by split]). Qed.

Lemma retag_spec cs p : retag cs (z2b agentAddIdentity :: p) = Ret (z2b (addTag cs) :: p).
Proof. unfold retag, addTag. by destruct (zlen cs =? 0). Qed.

Lemma parseIdentity_type cs ty body : zlen (enc_str ty ++ body) < 2 ^ 32 ->
  parseIdentity (z2b (addTag cs) :: enc_str ty ++ body) = parseByType ty (z2b (addTag cs) :: enc_str ty ++ body).
Proof.
  intros Hl. unfold parseIdentity. destruct (addTag_in cs) as [Hin Hpos].
  pose proof (Unmarshal_tagged insertRecord_struct [17; 25] (addTag cs) (ty, (body, tt))) as Hu.
  change (struct_enc _ _) with (enc_str ty ++ body) in Hu. by rewrite Hu.
Qed.

(** The constraints of the client, read by the server. *)
Definition confirmBytes (c : bool) : bytes := if c then [z2b agentConstrainConfirm] else [].

Definition encConstraints (key : AddedKey) : bytes :=
  (if ak_LifetimeSecs key =? 0 then [] else z2b agentConstrainLifetime :: be_encode 4 (ak_LifetimeSecs key)) ++
  confirmBytes (ak_ConfirmBeforeUse key).

Lemma constraintBytes_enc key : constraintBytes key = Ret (encConstraints key).
Proof.
  unfold constraintBytes, encConstraints. destruct (ak_LifetimeSecs key =? 0); cbn [negb]; [done|].
  rewrite (marshalStruct_value _ [1]) by done. cbn [obind].
  change (tag_bytes [1] ++ struct_enc _ _) with (z2b agentConstrainLifetime :: be_encode 4 (ak_LifetimeSecs key) ++ []).
  by rewrite app_nil_r.
Qed.

Lemma parseConfirm fuel l c : (length (confirmBytes c) <= fuel)%nat ->
  parseConstraintsLoop fuel (confirmBytes c) l false [] = Ret (l, c, []).
Proof. destruct c, fuel as [|fuel]; simpl; intros; try done; try lia. by destruct fuel. Qed.

Lemma parseConstraints_enc key : 0 <= ak_LifetimeSecs key < 2 ^ 32 ->
  parseConstraints (encConstraints key) = Ret (ak_LifetimeSecs key, ak_ConfirmBeforeUse key, []).
Proof.
  intros Hl. unfold parseConstraints, encConstraints. destruct (ak_LifetimeSecs key =? 0) eqn:E.
  - b2p. rewrite E. cbn [app]. apply parseConfirm. lia.
  - rewrite <- app_comm_cons. cbn [length parseConstraintsLoop].
    change (b2z (z2b agentConstrainLifetime) =? agentConstrainLifetime) with true. cbn iota.
    rewrite zlen_app, zlen_be_encode. pose proof (zlen_nonneg (confirmBytes (ak_ConfirmBeforeUse key))).
    replace (Z.of_nat 4 + _ <? 4) with false by (symmetry; apply Z.ltb_ge; lia). rewrite ztake_app, zdrop_app by by rewrite zlen_be_encode.
    rewrite be_decode_encode_small by (change (256 ^ Z.of_nat 4) with (2 ^ 32); lia). apply parseConfirm.
    rewrite length_app. lia.
Qed.

Lemma setConstraints_enc priv cert comment key : 0 <= ak_LifetimeSecs key < 2 ^ 32 ->
  setConstraints priv cert comment (encConstraints key) =
    Ret (mkAddedKey priv cert comment (ak_LifetimeSecs key) (ak_ConfirmBeforeUse key) []).
Proof. intros Hl. unfold setConstraints. by rewrite parseConstraints_enc. Qed.

(** What the client can send and the server accepts of a private key. *)
Definition privSendable (priv : privateKey) : Prop :=
  match priv with
  | rsaPrivateKey E N D [P; Q] =>
      0 <= E < 2 ^ 30 /\ (exists q, rsa_Precompute N D [P; Q] = Ret q) /\ (exists q, rsa_Precompute N D [Q; P] = Ret q)
  | dsaPrivateKey _ _ _ _ _ => True
  | ecdsaPrivateKey c X Y D => c <> P224 /\ elliptic_Unmarshal c (elliptic_Marshal c X Y) = Some (X, Y)
  | ed25519PrivateKey k => 32 <= zlen k
  | _ => False
  end.

Lemma small_exponent E : 0 <= E < 2 ^ 30 -> (30 <? bitLen E) = false /\ i64 E = E.
Proof.
  intros HE. split; [|unfold i64; rewrite Z.mod_small; lia]. apply Z.ltb_ge. unfold bitLen.
  destruct (E =? 0) eqn:E0; [lia|]. rewrite Z.abs_eq by lia.
  enough (Z.log2 E < 30) by lia. apply Z.log2_lt_pow2; lia.
Qed.

Lemma unmarshalECDSA_curve c X Y D : c <> P224 -> elliptic_Unmarshal c (elliptic_Marshal c X Y) = Some (X, Y) ->
  unmarshalECDSA (curveID c) (elliptic_Marshal c X Y) D = Ret (ecdsaPrivateKey c X Y D).
Proof.
  intros Hc Hp. unfold unmarshalECDSA.
  destruct c; [done|..]; cbn [curveID]; repeat (rewrite bool_decide_false by done); rewrite bool_decide_true by done;
    cbn [obind]; by rewrite Hp.
Qed.

(** A request for a key: its type, the rest, and what the server makes of it. *)
Definition requestFor (key : AddedKey) (req : outcome bytes) (out : AddedKey) : Prop :=
  exists ty body, req = Ret (z2b agentAddIdentity :: enc_str ty ++ body) /\
    (zlen (enc_str ty ++ body) < 2 ^ 32 ->
     parseByType ty (z2b (addTag (encConstraints key)) :: enc_str ty ++ body) = Ret out).

(** The struct of a request, written and read. *)
Ltac read_request t v :=
  let Hu := fresh "Hu" in
  intros Hl; match goal with |- context[z2b (addTag ?cs)] =>
    destruct (addTag_in cs) as [Hin Hpos]; pose proof (Unmarshal_tagged t [17; 25] (addTag cs) v eq_refl Hin Hpos) as Hu end;
  match goal with Hl : zlen ?body < _ |- _ => change (struct_enc _ _) with body in Hu end;
  rewrite Hu by (done || by repeat split); cbn [obind].

Lemma insertKey_request key :
  privSendable (ak_PrivateKey key) -> 0 <= ak_LifetimeSecs key < 2 ^ 32 ->
  requestFor key (insertKeyReq (ak_PrivateKey key) (ak_Comment key) (encConstraints key))
    (mkAddedKey (ak_PrivateKey key) None (ak_Comment key) (ak_LifetimeSecs key) (ak_ConfirmBeforeUse key) []).
Proof.
  intros Hs Hlife. pose proof (fun priv => setConstraints_enc priv None (ak_Comment key) key Hlife) as Hset.
  destruct (ak_PrivateKey key) as [E N D [|P [|Q [|]]]|P Q G Y X|c X Y D|k| |]; try done; cbn [insertKeyReq].
  - destruct Hs as (HE & [q Hq] & _). rewrite Hq. cbn [obind]. rewrite (marshalStruct_value _ [17; 25]) by done.
    destruct (small_exponent E HE) as [Hb Hi].
    exists KeyAlgoRSA, (enc_int N ++ enc_int E ++ enc_int D ++ enc_int q ++ enc_int P ++ enc_int Q ++ enc_str (ak_Comment key) ++ encConstraints key).
    split; [done|]. change (parseByType KeyAlgoRSA) with parseRSAKey. unfold parseRSAKey.
    read_request rsaKeyMsg_struct (KeyAlgoRSA, (N, (E, (D, (q, (P, (Q, (ak_Comment key, (encConstraints key, tt))))))))).
    rewrite Hb, Hi. cbn [kind_type]. rewrite Hq. cbn [obind]. apply Hset.
  - rewrite (marshalStruct_value _ [17; 25]) by done.
    exists KeyAlgoDSA, (enc_int P ++ enc_int Q ++ enc_int G ++ enc_int Y ++ enc_int X ++ enc_str (ak_Comment key) ++ encConstraints key).
    split; [done|]. change (parseByType KeyAlgoDSA) with parseDSAKey. unfold parseDSAKey.
    read_request dsaKeyMsg_struct (KeyAlgoDSA, (P, (Q, (G, (Y, (X, (ak_Comment key, (encConstraints key, tt)))))))). apply Hset.
  - destruct Hs as [Hc Hp]. rewrite (marshalStruct_value _ [17; 25]) by done.
    exists (str "ecdsa-sha2-" ++ curveID c),
      (enc_str (curveID c) ++ enc_str (elliptic_Marshal c X Y) ++ enc_int D ++ enc_str (ak_Comment key) ++ encConstraints key).
    split; [done|]. replace (parseByType (str "ecdsa-sha2-" ++ curveID c)) with parseECDSAKey by (destruct c; done).
    unfold parseECDSAKey.
    read_request ecdsaKeyMsg_struct (str "ecdsa-sha2-" ++ curveID c, (curveID c, (elliptic_Marshal c X Y, (D, (ak_Comment key, (encConstraints key, tt)))))).
    rewrite unmarshalECDSA_curve by done. cbn [obind]. apply Hset.
  - cbn in Hs. replace (zlen k <? 32) with false by lia. rewrite (marshalStruct_value _ [17; 25]) by done.
    exists KeyAlgoED25519, (enc_str (zdrop 32 k) ++ enc_str k ++ enc_str (ak_Comment key) ++ encConstraints key).
    split; [done|]. change (parseByType KeyAlgoED25519) with parseEd25519Key. unfold parseEd25519Key.
    read_request ed25519KeyMsg_struct (KeyAlgoED25519, (zdrop 32 k, (k, (ak_Comment key, (encConstraints key, tt))))). apply Hset.
Qed.

Context `{SignLib}.

(** The certificate of a key that is added: well formed and for that key. *)
Definition certSendable (priv : privateKey) (cert : Certificate) : Prop :=
  key_wf (certPublicKey cert) /\ key_fits (certPublicKey cert) /\
  (exists cb, cert_Marshal cert = Ret cb /\ zlen cb < 2 ^ 32) /\
  exists s, NewSignerFromKey priv = Ret s /\ signer_PublicKey s = cert_Key cert.

Lemma certSendable_parse priv cert bad : certSendable priv cert ->
  exists cb kb, cert_Marshal cert = Ret cb /\ parseCertBytes cb bad = Ret cert /\
    pub_Marshal (cert_Key cert) = Ret kb /\ zlen kb < 2 ^ 32.
Proof.
  intros (Hw & Hf & (cb & Hcb & Hl) & _). destruct Hf as [Hkf Hsf]. destruct Hw as [Hp Hw'] eqn:E. clear E.
  destruct (plain_roundtrip _ Hp) as (algo & body & ca & _ & Hm & _). exists cb, (enc_str algo ++ body).
  split_and!; [done| |done|by apply Hkf]. unfold parseCertBytes.
  assert (Hparse : ParsePublicKey cb = Ret (certPublicKey cert)).
  { apply parsePublicKey_enc; [done|by split|done|done|unfold parseFuel; lia]. }
  by rewrite Hparse.
Qed.

(** What the certificate's key is, by the kind of the private key. *)
Lemma certSendable_key priv cert : certSendable priv cert ->
  match priv with
  | rsaPrivateKey E N _ _ => cert_Key cert = rsaPublicKey E N /\ pub_Type (certPublicKey cert) = Ret CertAlgoRSAv01
  | dsaPrivateKey P Q G Y _ => cert_Key cert = dsaPublicKey P Q G Y /\ pub_Type (certPublicKey cert) = Ret CertAlgoDSAv01
  | ecdsaPrivateKey c X Y _ => cert_Key cert = ecdsaPublicKey c X Y /\
      exists t, pub_Type (certPublicKey cert) = Ret t /\ t ∈ [CertAlgoECDSA256v01; CertAlgoECDSA384v01; CertAlgoECDSA521v01]
  | ed25519PrivateKey _ => pub_Type (certPublicKey cert) = Ret CertAlgoED25519v01
  | _ => True
  end.
Proof.
  intros (_ & _ & _ & s & Hs & Hk). destruct priv as [E N D primes|P Q G Y X|c X Y D|k| |]; try done; cbn in Hs.
  - apply Ret_inj in Hs as <-. cbn in Hk. cbn [pub_Type]. by rewrite <- Hk.
  - apply Ret_inj in Hs as <-. cbn in Hk. cbn [pub_Type]. by rewrite <- Hk.
  - destruct c; [done|..]; apply Ret_inj in Hs as <-; cbn in Hk; cbn [pub_Type]; rewrite <- Hk;
      (split; [done|]; eexists; split; [reflexivity|]; set_solver).
  - unfold NewSignerFromSigner in Hs. cbn in Hs. destruct (ed25519_Public k) as [pub| |]; try done. cbn in Hs.
    apply Ret_inj in Hs as <-. cbn in Hk. cbn [pub_Type]. by rewrite <- Hk.
Qed.

Lemma rsaWire_read E N kb : pub_Marshal (rsaPublicKey E N) = Ret kb -> zlen kb < 2 ^ 32 ->
  Unmarshal rsaWire_struct kb = Ret (KeyAlgoRSA, (E, (N, tt))).
Proof.
  marshal_key. rewrite (marshalStruct_value _ []) by done. intros Hk%Ret_inj Hl. subst kb.
  apply Unmarshal_untagged; [done | discriminate | done | by repeat split].
Qed.

Lemma dsaWire_read P Q G Y kb : pub_Marshal (dsaPublicKey P Q G Y) = Ret kb -> zlen kb < 2 ^ 32 ->
  Unmarshal dsaWire_struct kb = Ret (str "ssh-dss", (P, (Q, (G, (Y, tt))))).
Proof.
  marshal_key. rewrite (marshalStruct_value _ []) by done. intros Hk%Ret_inj Hl. subst kb.
  apply Unmarshal_untagged; [done | discriminate | done | by repeat split].
Qed.

Lemma ecdsaWire_read c X Y kb : c <> P224 -> pub_Marshal (ecdsaPublicKey c X Y) = Ret kb -> zlen kb < 2 ^ 32 ->
  exists name, Unmarshal ecdsaWire_struct kb = Ret (name, (curveID c, (elliptic_Marshal c X Y, tt))).
Proof.
  intros Hc. marshal_key. cbn [pub_Type]. assert (Hid : nistID c = Ret (curveID c)) by by destruct c.
  rewrite Hid. cbn [obind]. rewrite (marshalStruct_value _ []) by done. intros Hk%Ret_inj Hl. subst kb.
  eexists. apply Unmarshal_untagged; [done | discriminate | done | by repeat split].
Qed.

(** The private key that arrives: the primes of an RSA key with a certificate
    change places. *)
Definition sentPriv (key : AddedKey) : privateKey :=
  match ak_PrivateKey key, ak_Certificate key with
  | rsaPrivateKey E N D [P; Q], Some _ => rsaPrivateKey E N D [Q; P]
  | k, _ => k
  end.

(** What arrives of an added key: not its extensions. *)
Definition sent (key : AddedKey) : AddedKey :=
  mkAddedKey (sentPriv key) (ak_Certificate key) (ak_Comment key) (ak_LifetimeSecs key) (ak_ConfirmBeforeUse key) [].

Lemma insertCert_request key cert :
  ak_Certificate key = Some cert -> privSendable (ak_PrivateKey key) -> certSendable (ak_PrivateKey key) cert ->
  0 <= ak_LifetimeSecs key < 2 ^ 32 ->
  requestFor key (insertCertReq (ak_PrivateKey key) cert (ak_Comment key) (encConstraints key)) (sent key).
Proof.
  intros Hcert Hs Hc Hlife. pose proof (fun priv => setConstraints_enc priv (Some cert) (ak_Comment key) key Hlife) as Hset.
  pose proof (certSendable_key _ _ Hc) as Hkey. unfold sent, sentPriv. rewrite Hcert.
  pose proof (fun bad => certSendable_parse _ _ bad Hc) as Hparse.
  destruct (ak_PrivateKey key) as [E N D [|P [|Q [|]]]|P Q G Y X|c X Y D|k| |]; try done; unfold insertCertReq.
  - destruct Hs as (HE & [q Hq] & [q' Hq']), Hkey as [Hk Ht]. destruct (small_exponent E HE) as [Hb Hi].
    destruct (Hparse "agent: bad RSA certificate") as (cb & kb & Hcb & Hpc & Hkb & Hlk). rewrite Hq, Ht, Hcb. cbn [obind].
    rewrite (marshalStruct_value _ [17; 25]) by done.
    exists CertAlgoRSAv01, (enc_str cb ++ enc_int D ++ enc_int q ++ enc_int P ++ enc_int Q ++ enc_str (ak_Comment key) ++ encConstraints key).
    split; [done|]. change (parseByType CertAlgoRSAv01) with parseRSACert. unfold parseRSACert.
    read_request rsaCertMsg_struct (CertAlgoRSAv01, (cb, (D, (q, (P, (Q, (ak_Comment key, (encConstraints key, tt)))))))).
    rewrite Hpc. cbn [obind]. rewrite Hkb. cbn [obind]. rewrite Hk in Hkb. rewrite (rsaWire_read E N) by done.
    cbn [reword obind]. rewrite Hb, Hi. cbn [kind_type]. rewrite Hq'. cbn [obind]. apply Hset.
  - destruct Hkey as [Hk Ht]. destruct (Hparse "agent: bad DSA certificate") as (cb & kb & Hcb & Hpc & Hkb & Hlk).
    rewrite Ht, Hcb. cbn [obind]. rewrite (marshalStruct_value _ [17; 25]) by done.
    exists CertAlgoDSAv01, (enc_str cb ++ enc_int X ++ enc_str (ak_Comment key) ++ encConstraints key).
    split; [done|]. change (parseByType CertAlgoDSAv01) with parseDSACert. unfold parseDSACert.
    read_request dsaCertMsg_struct (CertAlgoDSAv01, (cb, (X, (ak_Comment key, (encConstraints key, tt))))).
    rewrite Hpc. cbn [obind]. rewrite Hkb. cbn [obind]. rewrite Hk in Hkb. rewrite (dsaWire_read P Q G Y) by done.
    cbn [reword obind]. apply Hset.
  - destruct Hs as [Hcv Hpt], Hkey as (Hk & t & Ht & Htn). destruct (Hparse "agent: bad ECDSA certificate") as (cb & kb & Hcb & Hpc & Hkb & Hlk).
    rewrite Ht, Hcb. cbn [obind]. rewrite (marshalStruct_value _ [17; 25]) by done.
    exists t, (enc_str cb ++ enc_int D ++ enc_str (ak_Comment key) ++ encConstraints key).
    split; [done|]. replace (parseByType t) with parseECDSACert.
    2: { apply list_elem_of_In in Htn. destruct Htn as [<-|[<-|[<-|[]]]]; done. }
    unfold parseECDSACert. read_request ecdsaCertMsg_struct (t, (cb, (D, (ak_Comment key, (encConstraints key, tt))))).
    rewrite Hpc. cbn [obind]. rewrite Hkb. cbn [obind]. rewrite Hk in Hkb. destruct (ecdsaWire_read c X Y kb Hcv Hkb Hlk) as [name ->].
    cbn [obind]. rewrite unmarshalECDSA_curve by done. cbn [obind]. apply Hset.
  - cbn in Hs. destruct (Hparse "agent: bad ED25519 certificate") as (cb & kb & Hcb & Hpc & _). rewrite Hkey, Hcb. cbn [obind].
    replace (zlen k <? 32) with false by lia. rewrite (marshalStruct_value _ [17; 25]) by done.
    exists CertAlgoED25519v01, (enc_str cb ++ enc_str (zdrop 32 k) ++ enc_str k ++ enc_str (ak_Comment key) ++ encConstraints key).
    split; [done|]. change (parseByType CertAlgoED25519v01) with parseEd25519Cert. unfold parseEd25519Cert.
    read_request ed25519CertMsg_struct (CertAlgoED25519v01, (cb, (zdrop 32 k, (k, (ak_Comment key, (encConstraints key, tt)))))).
    rewrite Hpc. cbn [obind]. apply Hset.
Qed.

(** The request of the client for a key. *)
Definition addRequest (key : AddedKey) : outcome bytes :=
  let cs := encConstraints key in
  let? req :=
    match ak_Certificate key with
    | None => insertKeyReq (ak_PrivateKey key) (ak_Comment key) cs
    | Some cert => insertCertReq (ak_PrivateKey key) cert (ak_Comment key) cs
    end in
  retag cs req.

Definition sendable (key : AddedKey) : Prop :=
  privSendable (ak_PrivateKey key) /\ 0 <= ak_LifetimeSecs key < 2 ^ 32 /\
  (forall cert, ak_Certificate key = Some cert -> certSendable (ak_PrivateKey key) cert) /\
  (forall req, addRequest key = Ret req -> short req).

Lemma sendable_request key : sendable key ->
  exists ty body, addRequest key = Ret (z2b (addTag (encConstraints key)) :: enc_str ty ++ body) /\
    short (z2b (addTag (encConstraints key)) :: enc_str ty ++ body) /\
    parseIdentity (z2b (addTag (encConstraints key)) :: enc_str ty ++ body) = Ret (sent key).
Proof.
  intros (Hp & Hlife & Hc & Hs).
  assert (Hreq : requestFor key
    match ak_Certificate key with
    | None => insertKeyReq (ak_PrivateKey key) (ak_Comment key) (encConstraints key)
    | Some cert => insertCertReq (ak_PrivateKey key) cert (ak_Comment key) (encConstraints key)
    end (sent key)).
  { destruct (ak_Certificate key) as [cert|] eqn:E; [by apply insertCert_request; auto|].
    replace (sent key) with (mkAddedKey (ak_PrivateKey key) None (ak_Comment key) (ak_LifetimeSecs key) (ak_ConfirmBeforeUse key) []);
      [by apply insertKey_request|]. unfold sent, sentPriv. rewrite E. by destruct (ak_PrivateKey key) as [? ? ? [|? [|? [|]]]| | | | |]. }
  destruct Hreq as (ty & body & Hr & Hparse). exists ty, body.
  assert (Ha : addRequest key = Ret (z2b (addTag (encConstraints key)) :: enc_str ty ++ body)).
  { unfold addRequest. rewrite Hr. cbn [obind]. apply retag_spec. }
  pose proof (Hs _ Ha) as Hshort. pose proof (short_fields _ _ Hshort) as Hl. split_and!; [done|done|].
  rewrite parseIdentity_type by done. by apply Hparse.
Qed.

Lemma remote_Add key e s r s' : sendable key -> agent_Add (sent key) e s = (r, s') -> panics r = false ->
  exists r', client_Add key e (idle s) = (r', idle s') /\ agrees r r'.
Proof.
  intros Hs Hm Hp. destruct (sendable_request key Hs) as (ty & body & Hreq & Hshort & Hparse).
  assert (Hclient : client_Add key e (idle s) = simpleCall (z2b (addTag (encConstraints key)) :: enc_str ty ++ body) e (idle s)).
  { unfold client_Add, bindOp at 1, pureOp at 1. rewrite constraintBytes_enc. unfold addRequest in Hreq.
    destruct Hs as (_ & _ & Hc & _). destruct (ak_Certificate key) as [cert|].
    - destruct (Hc cert eq_refl) as (Hw & _ & _ & sg & Hsg & Hkey). unfold insertCert, bindOp, pureOp.
      destruct (insertCertReq _ _ _ _) as [req| |]; [|done..]. cbn [obind] in Hreq. rewrite Hreq, Hsg, Hkey.
      destruct (plain_roundtrip _ (proj1 Hw)) as (algo & b & ca & _ & -> & _). by rewrite bool_decide_true.
    - unfold insertKey, bindOp, pureOp. destruct (insertKeyReq _ _ _) as [req| |]; [|done..]. cbn [obind] in Hreq. by rewrite Hreq. }
  rewrite Hclient. apply (simpleCall_turn _ (agent_Add (sent key)) e s r s'); [done| |done|done].
  rewrite processRequest_add by apply addTag_cases. unfold noReply, insertIdentity. unfold bindOp at 1 2, pureOp at 2.
  rewrite Hparse. done.
Qed.

(** ** All calls *)

(** A call of the client and the call of the agent that it becomes, when the
    request is within the limits of the protocol. *)
Inductive sends : command -> command -> Prop :=
| sends_list : sends CList CList
| sends_signers : sends CSigners CList
| sends_sign key format blob data :
    keyArg_Marshal key = Ret blob -> blobFormat format blob -> short (signReq blob data) ->
    sends (CSign key data) (CSign (AgentKey (mkKey format blob [])) data)
| sends_remove key format blob :
    keyArg_Marshal key = Ret blob -> blobFormat format blob -> short (z2b agentRemoveIdentity :: enc_str blob) ->
    sends (CRemove key) (CRemove (AgentKey (mkKey format blob [])))
| sends_remove_all : sends CRemoveAll CRemoveAll
| sends_lock p : short (z2b agentLock :: enc_str p) -> sends (CLock p) (CLock p)
| sends_unlock p : short (z2b agentUnlock :: enc_str p) -> sends (CUnlock p) (CUnlock p)
| sends_add key : sendable key -> sends (CAdd key) (CAdd (sent key)).

(** The agent's reply is no crash and fits a message. *)
Definition reply_ok (r : reply) : Prop :=
  match r with
  | RKeys r => panics r = false /\ forall keys, r = Ret keys -> Forall keyFormat keys /\ short (listReply keys)
  | RSig r => panics r = false /\ forall sig, r = Ret sig -> short (z2b agentSignResponse :: enc_str (sigBlob sig))
  | RUnit r => panics r = false
  | RSigners r => False
  end.

(** What the client makes of the agent's reply. *)
Definition replies (r r' : reply) : Prop :=
  match r, r' with
  | RKeys r, RKeys r' => agrees r r'
  | RKeys r, RSigners r' => agrees (let? keys := r in Ret (map agentKeyringSigner keys)) r'
  | RSig r, RSig r' => agrees r r'
  | RUnit r, RUnit r' => agrees r r'
  | _, _ => False
  end.

Lemma remote_run c c' e s r s' : sends c c' -> run c' e s = (r, s') -> reply_ok r ->
  exists r', run c e (idle s) = (r', idle s') /\ replies r r'.
Proof.
  assert (Hvia : forall {A} f (m : outcome A * T), via f m = (r, s') -> exists o, r = f o /\ m = (o, s')).
  { intros A f [o x] [= <- <-]. by exists o. }
  intros Hs Hr Hok. destruct Hs as [| |key format blob data Hk Hf Hsh|key format blob Hk Hf Hsh| |p Hsh|p Hsh|key Hkey];
    cbn [run] in Hr; apply Hvia in Hr as (o & -> & Hm); cbn [reply_ok] in Hok; cbn [run]; unfold via.
  - destruct Hok as [Hp Hkeys]. destruct (remote_List e s o s' Hm Hp Hkeys) as (r' & Hc & Ha).
    exists (RKeys r'). split; [|done]. change (agent_List e (idle s)) with (client_List e (idle s)). by rewrite Hc.
  - destruct Hok as [Hp Hkeys]. destruct (remote_List e s o s' Hm Hp Hkeys) as (r' & Hc & Ha).
    exists (RSigners (let? keys := r' in Ret (map agentKeyringSigner keys))).
    change (agent_Signers e (idle s)) with (client_Signers e (idle s)). unfold client_Signers, bindOp. rewrite Hc.
    destruct o, r'; try done. cbn in *. by subst.
  - destruct Hok as [Hp Hsig]. destruct (remote_Sign key format blob data e s o s' Hk Hf Hsh Hm Hp Hsig) as (r' & Hc & Ha).
    exists (RSig r'). split; [|done]. change (agent_Sign key data e (idle s)) with (client_Sign key data e (idle s)). by rewrite Hc.
  - destruct (remote_Remove key format blob e s o s' Hk Hf Hsh Hm Hok) as (r' & Hc & Ha).
    exists (RUnit r'). split; [|done]. change (agent_Remove key e (idle s)) with (client_Remove key e (idle s)). by rewrite Hc.
  - destruct (remote_RemoveAll e s o s' Hm Hok) as (r' & Hc & Ha).
    exists (RUnit r'). split; [|done]. change (agent_RemoveAll e (idle s)) with (client_RemoveAll e (idle s)). by rewrite Hc.
  - destruct (remote_Lock p e s o s' Hsh Hm Hok) as (r' & Hc & Ha).
    exists (RUnit r'). split; [|done]. change (agent_Lock p e (idle s)) with (client_Lock p e (idle s)). by rewrite Hc.
  - destruct (remote_Unlock p e s o s' Hsh Hm Hok) as (r' & Hc & Ha).
    exists (RUnit r'). split; [|done]. change (agent_Unlock p e (idle s)) with (client_Unlock p e (idle s)). by rewrite Hc.
  - destruct (remote_Add key e s o s' Hkey Hm Hok) as (r' & Hc & Ha).
    exists (RUnit r'). split; [|done]. change (agent_Add key e (idle s)) with (client_Add key e (idle s)). by rewrite Hc.
Qed.
End Loopback.

(** ** Properties *)

(** C12: for every agent, a call through the client, over a connection to a server
    of that agent, leaves the agent in the state of the call that it becomes on the
    agent itself and returns that call's result (an error for an error), with
    nothing left on the connection.  List, remove all, lock and unlock become the
    same call; sign and remove become the call with the key's blob and the
    algorithm named in it; add (of RSA, DSA, ECDSA and ed25519 keys with and
    without certificate, lifetime and confirmation) the call with what is sent of
    the key: not the extensions, and the primes of an RSA key with a certificate in
    the other order.  Signers of the client becomes List, not Signers, of the agent,
    with a signer for each listed key, so that a locked keyring has an empty list of
    signers remotely and refuses locally.  The conditions are those of [sends] and
    [reply_ok]: the request and the reply have at most [maxAgentResponseBytes]
    bytes, a key's blob starts with an algorithm's name, an added key can be
    encoded and its lifetime fits 32 bits, and the agent's own call does not
    panic. *)
Theorem remote_agent `{KeyLib, RSALib, SignLib} {T : Type} `{Agent T} (c c' : command) (e : env) (s s' : T) (r : reply) :
  sends c c' -> run c' e s = (r, s') -> reply_ok r ->
  exists r', run c e (idle s) = (r', idle s') /\ replies r r'.
Proof. apply remote_run. Qed.

Definition toyRSALib : RSALib := {| rsa_Precompute _ _ _ := Ret 1 |}.

Lemma remote_agent_witness :
  exists r' r2,
    @run _ (@client_Agent toyKeyLib toySignLib toyRSALib _ (@loop_Conn toyKeyLib toyRSALib keyring (@keyring_Agent toyKeyLib toySignLib)))
      (CAdd sampleAdded) (mkEnv (fun _ => 0) []) (idle NewKeyring) = (RUnit r', idle r2) /\ r' = Ret tt /\
    r2 = (@run _ (@keyring_Agent toyKeyLib toySignLib) (CAdd sampleAdded) (mkEnv (fun _ => 0) []) NewKeyring).2.
Proof.
  destruct (@remote_agent toyKeyLib toyRSALib toySignLib keyring (@keyring_Agent toyKeyLib toySignLib) (CAdd sampleAdded)
    (CAdd (sent sampleAdded)) (mkEnv (fun _ => 0) []) NewKeyring
    (@run _ (@keyring_Agent toyKeyLib toySignLib) (CAdd sampleAdded) (mkEnv (fun _ => 0) []) NewKeyring).2 (RUnit (Ret tt))) as (r' & Hr & Ha).
  - constructor. split_and!; [by split_and!; [..|eexists|eexists] | done | done | done |].
    intros req Hreq. vm_compute in Hreq. injection Hreq as <-. by vm_compute.
  - done.
  - done.
  - destruct r' as [x|x|x|x]; cbn [replies] in Ha; [destruct Ha|destruct Ha| |destruct Ha].
    destruct x as [[]|x|x]; cbn [agrees] in Ha; [|destruct Ha|destruct Ha].
    eexists _, _. split; [exact Hr|]. split; reflexivity.
Defined.

(** signers of a locked keyring: refused by the keyring, none through the client. *)
Theorem locked_signers_differ `{KeyLib, RSALib, SignLib} (e : env) (keys : list privKey) (passphrase : bytes) :
  let r := mkKeyring keys true passphrase in
  run CSigners e r = (RSigners (Fail errLocked), r) /\
  run CSigners e (idle r) = (RSigners (Ret []), idle r).
Proof.
  intros r. split; [done|]. destruct (remote_run CSigners CList e r (RKeys (Ret [])) r) as (r' & Hrun & Hr).
  - constructor.
  - done.
  - cbn. split; [done|]. intros ? [= <-]. split; [constructor|]. by vm_compute.
  - rewrite Hrun. cbn [run] in Hrun. unfold via in Hrun. destruct (agent_Signers e (idle r)). injection Hrun as <- _.
    cbn in Hr. case_match; [by subst | done..].
Qed.

(** The message that adds an ed25519 key with the given constraints. *)
Definition ed25519Request (pub priv comment constraints : bytes) : bytes :=
  z2b agentAddIdConstrained :: enc_str KeyAlgoED25519 ++ enc_str pub ++ enc_str priv ++ enc_str comment ++ constraints.

(** two requests crash every server, whatever agent it serves: an empty one,
    and one that adds a key whose constraints end within a lifetime. *)
Theorem server_crashes `{KeyLib, RSALib} {T : Type} `{Agent T} (e : env) (s : T) (pub priv comment rest : bytes) :
  zlen rest < 4 -> short (ed25519Request pub priv comment (z2b agentConstrainLifetime :: rest)) ->
  panics (serveRequest e (s, mkBuffer (be_encode 4 0) [])).1 = true /\
  panics (processRequestBytes (ed25519Request pub priv comment (z2b agentConstrainLifetime :: rest)) e s).1 = true.
Proof.
  intros Hrest Hs. split; [done|]. unfold ed25519Request in *. apply short_fields in Hs.
  set (body := enc_str pub ++ enc_str priv ++ enc_str comment ++ z2b agentConstrainLifetime :: rest) in *.
  unfold processRequestBytes. rewrite processRequest_add by by right. unfold noReply, insertIdentity, bindOp, pureOp.
  change agentAddIdConstrained with (addTag ["000"%byte]). rewrite parseIdentity_type by done.
  change (parseByType KeyAlgoED25519) with parseEd25519Key. unfold parseEd25519Key.
  pose proof (Unmarshal_tagged ed25519KeyMsg_struct [17; 25] (addTag ["000"%byte])
    (KeyAlgoED25519, (pub, (priv, (comment, (z2b agentConstrainLifetime :: rest, tt)))))) as Hu.
  change (struct_enc _ _) with (enc_str KeyAlgoED25519 ++ body) in Hu.
  rewrite Hu; [|done|by right; left|done|done|by repeat split]. cbn [obind].
  unfold setConstraints, parseConstraints. cbn [length parseConstraintsLoop].
  change (b2z (z2b agentConstrainLifetime) =? agentConstrainLifetime) with true. cbn iota.
  by replace (zlen rest <? 4) with true by lia.
Qed.

Lemma server_crashes_witness :
  panics (@serveRequest toyKeyLib toyRSALib keyring (@keyring_Agent toyKeyLib toySignLib) buffer _
    (mkEnv (fun _ => 0) []) (NewKeyring, mkBuffer (be_encode 4 0) [])).1 = true /\
  panics (@processRequestBytes toyKeyLib toyRSALib keyring (@keyring_Agent toyKeyLib toySignLib)
    (ed25519Request [] [] [] [z2b agentConstrainLifetime]) (mkEnv (fun _ => 0) []) NewKeyring).1 = true.
Proof. apply (@server_crashes toyKeyLib toyRSALib keyring (@keyring_Agent toyKeyLib toySignLib)); by vm_compute. Defined.

(** A client that lists the keys of an agent panics when the agent answers with
    a plain success. *)
Lemma list_success_panics `{KeyLib, SignLib, RSALib} {C : Type} `{Conn C} (e : env) (c c' : C) :
  call [z2b agentRequestIdentities] e c = (Ret successAgentMsg, c') -> client_List e c = (Panic "unreachable", c').
Proof. intros Hc. unfold client_List, bindOp. by rewrite Hc. Qed.
