(* ===== verification/Terminal.v ===== *)
(** * The line editor (terminal/terminal.go)

    [Terminal] with its keys, its line, its cursor and its history.  The
    connection is a parameter with a [Write]; [Read] runs without the lock, so
    [readLine] is cut there: [readPass] handles what has been read, [readGot] takes
    what [Read] returned, and other calls may come in between.  The completion
    callback also runs without the lock; it is a function here and no other call
    comes in while it runs ([completeKey]).  Runes, positions and sizes are
    numbers, far from the limits of [int]. *)

From S2P Require Import Prelude Text Utf8.

(** ** Keys *)

Definition keyCtrlD : Z := 4.
Definition keyCtrlU : Z := 21.
Definition keyEnter : Z := 13.
Definition keyEscape : Z := 27.
Definition keyBackspace : Z := 127.
Definition keyUnknown : Z := 0xd800 + 5.
Definition keyUp : Z := 0xd800 + 6.
Definition keyDown : Z := 0xd800 + 7.
Definition keyLeft : Z := 0xd800 + 8.
Definition keyRight : Z := 0xd800 + 9.
Definition keyAltLeft : Z := 0xd800 + 10.
Definition keyAltRight : Z := 0xd800 + 11.
Definition keyHome : Z := 0xd800 + 12.
Definition keyEnd : Z := 0xd800 + 13.
Definition keyDeleteWord : Z := 0xd800 + 14.
Definition keyDeleteLine : Z := 0xd800 + 15.
Definition keyClearScreen : Z := 0xd800 + 16.
Definition keyPasteStart : Z := 0xd800 + 17.
Definition keyPasteEnd : Z := 0xd800 + 18.

Definition crlf : bytes := [x0d; x0a].
Definition pasteStart : bytes := x1b :: str "[200~".
Definition pasteEnd : bytes := x1b :: str "[201~".

Definition blank : Z := 32.

(** A byte that ends a key sequence. *)
Definition endsSequence (c : byte) : bool :=
  ((97 <=? b2z c) && (b2z c <=? 122)) || ((65 <=? b2z c) && (b2z c <=? 90)) || (b2z c =? 126).

(** A control key outside a paste. *)
Definition controlKey (b : Z) : option Z :=
  if b =? 1 then Some keyHome
  else if b =? 5 then Some keyEnd
  else if b =? 8 then Some keyBackspace
  else if b =? 11 then Some keyDeleteLine
  else if b =? 12 then Some keyClearScreen
  else if b =? 23 then Some keyDeleteWord
  else None.

(** The keys of three bytes, [ESC [ x], and of six bytes, [ESC [ 1 ; 3 x]. *)
Definition arrowKey (c : byte) : option Z :=
  if Byte.eqb c "A" then Some keyUp
  else if Byte.eqb c "B" then Some keyDown
  else if Byte.eqb c "C" then Some keyRight
  else if Byte.eqb c "D" then Some keyLeft
  else if Byte.eqb c "H" then Some keyHome
  else if Byte.eqb c "F" then Some keyEnd
  else None.

Definition altKey (c : byte) : option Z :=
  if Byte.eqb c "C" then Some keyAltRight
  else if Byte.eqb c "D" then Some keyAltLeft
  else None.

Definition escapeKey (b : bytes) : option (Z * bytes) :=
  match b with
  | _ :: b1 :: c :: rest =>
      if Byte.eqb b1 lbracket then
        match arrowKey c with
        | Some k => Some (k, rest)
        | None =>
            match c, rest with
            | "1"%byte, ";"%byte :: "3"%byte :: d :: rest =>
                match altKey d with Some k => Some (k, rest) | None => None end
            | _, _ => None
            end
        end
      else None
  | _ => None
  end.

(** The first key in [b] and the rest of the input; [RuneError] when there is no
    whole key. *)
Definition bytesToKey (b : bytes) (pasteActive : bool) : Z * bytes :=
  match b with
  | [] => (RuneError, [])
  | b0 :: rest =>
      match (if pasteActive then None else controlKey (b2z b0)) with
      | Some k => (k, rest)
      | None =>
          if negb (b2z b0 =? keyEscape) then if negb (fullRune b) then (RuneError, b) else decodeRune b
          else
            match (if pasteActive then None else escapeKey b) with
            | Some r => r
            | None =>
                if negb pasteActive && bool_decide (take 6 b = pasteStart) then (keyPasteStart, drop 6 b)
                else if pasteActive && bool_decide (take 6 b = pasteEnd) then (keyPasteEnd, drop 6 b)
                else match cutAt endsSequence b with
                     | Some (_, _ :: rest) => (keyUnknown, rest)
                     | _ => (RuneError, b)
                     end
            end
      end
  end.

Definition isPrintable (key : Z) : bool :=
  let isInSurrogateArea := (0xd800 <=? key) && (key <=? 0xdbff) in
  (32 <=? key) && negb isInSurrogateArea.

Definition isLetter (r : Z) : bool := ((97 <=? r) && (r <=? 122)) || ((65 <=? r) && (r <=? 90)).

Fixpoint visualLoop (runes : list Z) (inEscapeSeq : bool) (length : Z) : Z :=
  match runes with
  | [] => length
  | r :: runes' =>
      if inEscapeSeq then visualLoop runes' (negb (isLetter r)) length
      else if r =? keyEscape then visualLoop runes' true length
      else visualLoop runes' false (length + 1)
  end.

Definition visualLength (runes : list Z) : Z := visualLoop runes false 0.

(** ** The history *)

Record stRingBuffer := mkRing { rb_entries : list bytes; rb_max : Z; rb_head : Z; rb_size : Z }.

Definition emptyRing : stRingBuffer := mkRing [] 0 0 0.

Definition defaultNumEntries : Z := 100.

(** An index into a slice. *)
Definition at_index {A} (l : list A) (i : Z) : outcome A :=
  if i <? 0 then Panic "index out of range"
  else match l !! Z.to_nat i with Some a => Ret a | None => Panic "index out of range" end.

Definition ring_Add (s : stRingBuffer) (a : bytes) : outcome stRingBuffer :=
  let s := match rb_entries s with
           | [] => mkRing (repeat [] (Z.to_nat defaultNumEntries)) defaultNumEntries (rb_head s) (rb_size s)
           | _ => s
           end in
  let head := Z.rem (rb_head s + 1) (rb_max s) in
  let? _ := at_index (rb_entries s) head in
  Ret (mkRing (<[Z.to_nat head := a]> (rb_entries s)) (rb_max s) head
         (if rb_size s <? rb_max s then rb_size s + 1 else rb_size s)).

Definition NthPreviousEntry (s : stRingBuffer) (n : Z) : outcome (option bytes) :=
  if rb_size s <=? n then Ret None
  else
    let index := rb_head s - n in
    let index := if index <? 0 then index + rb_max s else index in
    let? v := at_index (rb_entries s) index in
    Ret (Some v).

(** ** The terminal *)

(** What is used of the connection for output. *)
Class Writer (C : Type) := { w_Write : bytes -> C -> Z * option error * C }.

Record Terminal (C : Type) := mkTerminal {
  tm_c : C;
  tm_prompt : list Z;
  tm_line : list Z;
  tm_pos : Z;
  tm_echo : bool;
  tm_pasteActive : bool;
  tm_cursorX : Z;
  tm_cursorY : Z;
  tm_maxLine : Z;
  tm_termWidth : Z;
  tm_termHeight : Z;
  tm_outBuf : bytes;
  tm_remainder : bytes;
  tm_history : stRingBuffer;
  tm_historyIndex : Z;
  tm_historyPending : bytes
}.

Arguments mkTerminal {C} _ _ _ _ _ _ _ _ _ _ _ _ _ _ _ _.
Arguments tm_c {C} _.
Arguments tm_prompt {C} _.
Arguments tm_line {C} _.
Arguments tm_pos {C} _.
Arguments tm_echo {C} _.
Arguments tm_pasteActive {C} _.
Arguments tm_cursorX {C} _.
Arguments tm_cursorY {C} _.
Arguments tm_maxLine {C} _.
Arguments tm_termWidth {C} _.
Arguments tm_termHeight {C} _.
Arguments tm_outBuf {C} _.
Arguments tm_remainder {C} _.
Arguments tm_history {C} _.
Arguments tm_historyIndex {C} _.
Arguments tm_historyPending {C} _.

Definition maxLineLength : Z := 4096.
Definition inBufSize : Z := 256.

Definition errPasteIndicator : error := errNew "terminal: ErrPasteIndicator not correctly handled".

Definition NewTerminal {C} (c : C) (prompt : bytes) : Terminal C :=
  mkTerminal c (decodeRunes prompt) [] 0 true false 0 0 0 80 24 [] [] emptyRing (-1) [].

(** The runes that move the cursor. *)
Definition repeatMove (n : Z) (dir : Z) : list Z := concat (repeat [keyEscape; 91; dir] (Z.to_nat n)).

Definition movement (up down left right : Z) : list Z :=
  repeatMove up 65 ++ repeatMove down 66 ++ repeatMove left 68 ++ repeatMove right 67.

(** Changes of some fields. *)
Definition put_line {C} (t : Terminal C) (line : list Z) (pos : Z) : Terminal C :=
  mkTerminal (tm_c t) (tm_prompt t) line pos (tm_echo t) (tm_pasteActive t) (tm_cursorX t) (tm_cursorY t) (tm_maxLine t) (tm_termWidth t) (tm_termHeight t) (tm_outBuf t) (tm_remainder t) (tm_history t) (tm_historyIndex t) (tm_historyPending t).

Definition put_cursor {C} (t : Terminal C) (x y : Z) : Terminal C :=
  mkTerminal (tm_c t) (tm_prompt t) (tm_line t) (tm_pos t) (tm_echo t) (tm_pasteActive t) x y (tm_maxLine t) (tm_termWidth t) (tm_termHeight t) (tm_outBuf t) (tm_remainder t) (tm_history t) (tm_historyIndex t) (tm_historyPending t).

Definition put_maxLine {C} (t : Terminal C) (m : Z) : Terminal C :=
  mkTerminal (tm_c t) (tm_prompt t) (tm_line t) (tm_pos t) (tm_echo t) (tm_pasteActive t) (tm_cursorX t) (tm_cursorY t) m (tm_termWidth t) (tm_termHeight t) (tm_outBuf t) (tm_remainder t) (tm_history t) (tm_historyIndex t) (tm_historyPending t).

Definition put_out {C} (t : Terminal C) (out : bytes) : Terminal C :=
  mkTerminal (tm_c t) (tm_prompt t) (tm_line t) (tm_pos t) (tm_echo t) (tm_pasteActive t) (tm_cursorX t) (tm_cursorY t) (tm_maxLine t) (tm_termWidth t) (tm_termHeight t) out (tm_remainder t) (tm_history t) (tm_historyIndex t) (tm_historyPending t).

Definition put_conn {C} (t : Terminal C) (c : C) : Terminal C :=
  mkTerminal c (tm_prompt t) (tm_line t) (tm_pos t) (tm_echo t) (tm_pasteActive t) (tm_cursorX t) (tm_cursorY t) (tm_maxLine t) (tm_termWidth t) (tm_termHeight t) (tm_outBuf t) (tm_remainder t) (tm_history t) (tm_historyIndex t) (tm_historyPending t).

Definition put_paste {C} (t : Terminal C) (b : bool) : Terminal C :=
  mkTerminal (tm_c t) (tm_prompt t) (tm_line t) (tm_pos t) (tm_echo t) b (tm_cursorX t) (tm_cursorY t) (tm_maxLine t) (tm_termWidth t) (tm_termHeight t) (tm_outBuf t) (tm_remainder t) (tm_history t) (tm_historyIndex t) (tm_historyPending t).

Definition put_remainder {C} (t : Terminal C) (r : bytes) : Terminal C :=
  mkTerminal (tm_c t) (tm_prompt t) (tm_line t) (tm_pos t) (tm_echo t) (tm_pasteActive t) (tm_cursorX t) (tm_cursorY t) (tm_maxLine t) (tm_termWidth t) (tm_termHeight t) (tm_outBuf t) r (tm_history t) (tm_historyIndex t) (tm_historyPending t).

Definition put_history {C} (t : Terminal C) (h : stRingBuffer) (i : Z) : Terminal C :=
  mkTerminal (tm_c t) (tm_prompt t) (tm_line t) (tm_pos t) (tm_echo t) (tm_pasteActive t) (tm_cursorX t) (tm_cursorY t) (tm_maxLine t) (tm_termWidth t) (tm_termHeight t) (tm_outBuf t) (tm_remainder t) h i (tm_historyPending t).

Definition put_pending {C} (t : Terminal C) (i : Z) (p : bytes) : Terminal C :=
  mkTerminal (tm_c t) (tm_prompt t) (tm_line t) (tm_pos t) (tm_echo t) (tm_pasteActive t) (tm_cursorX t) (tm_cursorY t) (tm_maxLine t) (tm_termWidth t) (tm_termHeight t) (tm_outBuf t) (tm_remainder t) (tm_history t) i p.

Definition put_prompt {C} (t : Terminal C) (p : list Z) (echo : bool) : Terminal C :=
  mkTerminal (tm_c t) p (tm_line t) (tm_pos t) echo (tm_pasteActive t) (tm_cursorX t) (tm_cursorY t) (tm_maxLine t) (tm_termWidth t) (tm_termHeight t) (tm_outBuf t) (tm_remainder t) (tm_history t) (tm_historyIndex t) (tm_historyPending t).

Definition put_size {C} (t : Terminal C) (w h : Z) : Terminal C :=
  mkTerminal (tm_c t) (tm_prompt t) (tm_line t) (tm_pos t) (tm_echo t) (tm_pasteActive t) (tm_cursorX t) (tm_cursorY t) (tm_maxLine t) w h (tm_outBuf t) (tm_remainder t) (tm_history t) (tm_historyIndex t) (tm_historyPending t).

(** ** Output *)

Section Screen.
Context {C : Type}.
Implicit Types t : Terminal C.

Definition queue t (data : list Z) : Terminal C := put_out t (tm_outBuf t ++ encodeRunes data).

Definition move t (up down left right : Z) : Terminal C := queue t (movement up down left right).

Definition clearLineToRight t : Terminal C := queue t [keyEscape; 91; 75].

Definition moveCursorToPos t (pos : Z) : Terminal C :=
  if negb (tm_echo t) then t
  else
    let x := visualLength (tm_prompt t) + pos in
    let y := Z.quot x (tm_termWidth t) in
    let x := Z.rem x (tm_termWidth t) in
    let up := if y <? tm_cursorY t then tm_cursorY t - y else 0 in
    let down := if tm_cursorY t <? y then y - tm_cursorY t else 0 in
    let left := if x <? tm_cursorX t then tm_cursorX t - x else 0 in
    let right := if tm_cursorX t <? x then x - tm_cursorX t else 0 in
    move (put_cursor t x y) up down left right.

Definition advanceCursor t (places : Z) : Terminal C :=
  let cursorX := tm_cursorX t + places in
  let cursorY := tm_cursorY t + Z.quot cursorX (tm_termWidth t) in
  let t := if tm_maxLine t <? cursorY then put_maxLine t cursorY else t in
  let cursorX := Z.rem cursorX (tm_termWidth t) in
  let t := put_cursor t cursorX cursorY in
  if (0 <? places) && (cursorX =? 0) then put_out t (tm_outBuf t ++ crlf) else t.

(** [line[:n]] and [line[n:]]. *)
Definition upto (line : list Z) (n : Z) : outcome (list Z) :=
  if (n <? 0) || (zlen line <? n) then Panic "slice bounds out of range" else Ret (ztake n line).

Definition from (line : list Z) (n : Z) : outcome (list Z) :=
  if (n <? 0) || (zlen line <? n) then Panic "slice bounds out of range" else Ret (zdrop n line).

Fixpoint writeLoop (fuel : nat) t (line : list Z) : outcome (Terminal C) :=
  match line, fuel with
  | [], _ => Ret t
  | _, O => Panic "out of fuel"
  | _, S fuel =>
      let remainingOnLine := tm_termWidth t - tm_cursorX t in
      let todo := zlen line in
      let todo := if remainingOnLine <? todo then remainingOnLine else todo in
      let? part := upto line todo in
      let? rest := from line todo in
      writeLoop fuel (advanceCursor (queue t part) (visualLength part)) rest
  end.

Definition writeLine t (line : list Z) : outcome (Terminal C) := writeLoop (length line) t line.

(** [n] times [f]. *)
Fixpoint times (n : nat) (f : Terminal C -> outcome (Terminal C)) t : outcome (Terminal C) :=
  match n with
  | O => Ret t
  | S n => let? t := f t in times n f t
  end.

Definition setLine t (newLine : list Z) (newPos : Z) : outcome (Terminal C) :=
  let? t :=
    if tm_echo t then
      let t := moveCursorToPos t 0 in
      let? t := writeLine t newLine in
      let? t := times (Z.to_nat (zlen (tm_line t) - zlen newLine)) (fun t => writeLine t [blank]) t in
      Ret (moveCursorToPos t newPos)
    else Ret t in
  Ret (put_line t newLine newPos).

Definition eraseNPreviousChars t (n : Z) : outcome (Terminal C) :=
  if n =? 0 then Ret t
  else
    let n := if tm_pos t <? n then tm_pos t else n in
    let pos := tm_pos t - n in
    let t := moveCursorToPos (put_line t (tm_line t) pos) pos in
    let? before := upto (tm_line t) pos in
    let? after := from (tm_line t) (n + pos) in
    let t := put_line t (before ++ after) pos in
    if tm_echo t then
      let? t := writeLine t after in
      let t := queue t (repeat blank (Z.to_nat n)) in
      let t := advanceCursor t n in
      Ret (moveCursorToPos t (tm_pos t))
    else Ret t.

(** ** Words *)

(** The loops of [countToLeftWord]: over spaces, then over the word.  The index
    is below [t.pos], which is at most the length of the line. *)
Fixpoint leftSpaces (line : list Z) (pos : nat) : nat :=
  match pos with
  | O => O
  | S p => if negb (default 0 (line !! pos) =? blank) then pos else leftSpaces line p
  end.

Fixpoint leftWord (line : list Z) (pos : nat) : nat :=
  match pos with
  | O => O
  | S p => if default 0 (line !! pos) =? blank then S pos else leftWord line p
  end.

Definition countToLeftWord t : Z :=
  if tm_pos t =? 0 then 0
  else
    let pos := leftSpaces (tm_line t) (Z.to_nat (tm_pos t - 1)) in
    tm_pos t - Z.of_nat (leftWord (tm_line t) pos).

Fixpoint skipWhile (f : Z -> bool) (line : list Z) : list Z :=
  match line with
  | [] => []
  | r :: line' => if f r then skipWhile f line' else line
  end.

Definition countToRightWord t : Z :=
  let rest := zdrop (tm_pos t) (tm_line t) in
  zlen rest - zlen (skipWhile (Z.eqb blank) (skipWhile (fun r => negb (Z.eqb blank r)) rest)).

(** ** Keys *)

(** Inserts a key at the cursor. *)
Definition addKeyToLine t (key : Z) : outcome (Terminal C) :=
  let? before := upto (tm_line t) (tm_pos t) in
  let? after := from (tm_line t) (tm_pos t) in
  let t := put_line t (before ++ key :: after) (tm_pos t) in
  let? t := if tm_echo t then writeLine t (key :: after) else Ret t in
  let t := put_line t (tm_line t) (tm_pos t + 1) in
  Ret (moveCursorToPos t (tm_pos t)).

Definition clearScreenCodes : list Z := [keyEscape; 91; 50; 74; keyEscape; 91; 72].

(** Moves the logical cursor. *)
Definition goto t (pos : Z) : Terminal C := moveCursorToPos (put_line t (tm_line t) pos) pos.

(** The callback: line, position in bytes, key; the new line and position. *)
Definition callback : Type := bytes -> Z -> Z -> option (bytes * Z).

Context (AutoCompleteCallback : option callback).

(** What is left for other keys. *)
Definition insertKey t (key : Z) : outcome (Terminal C) :=
  if negb (isPrintable key) then Ret t
  else if zlen (tm_line t) =? maxLineLength then Ret t
  else addKeyToLine t key.

(** The code gives up the lock around the callback; here the call is one step
    with what follows it, so that a [Write], [SetPrompt] or [SetSize] of another
    goroutine comes before or after a completion, not within it. *)
Definition completeKey t (key : Z) : outcome (Terminal C) :=
  match AutoCompleteCallback with
  | None => insertKey t key
  | Some f =>
      let? before := upto (tm_line t) (tm_pos t) in
      let? after := from (tm_line t) (tm_pos t) in
      let prefix := encodeRunes before in
      match f (prefix ++ encodeRunes after) (zlen prefix) key with
      | Some (newLine, newPos) =>
          if (newPos <? 0) || (zlen newLine <? newPos) then Panic "slice bounds out of range"
          else setLine t (decodeRunes newLine) (runeCount (ztake newPos newLine))
      | None => insertKey t key
      end
  end.

(** A line from the history, and the cursor at its end. *)
Definition showEntry t (entry : bytes) : outcome (Terminal C) :=
  let runes := decodeRunes entry in setLine t runes (zlen runes).

Definition historyUp t : outcome (Terminal C) :=
  let? entry := NthPreviousEntry (tm_history t) (tm_historyIndex t + 1) in
  match entry with
  | None => Ret t
  | Some entry =>
      let pending := if tm_historyIndex t =? -1 then encodeRunes (tm_line t) else tm_historyPending t in
      showEntry (put_pending t (tm_historyIndex t + 1) pending) entry
  end.

Definition historyDown t : outcome (Terminal C) :=
  if tm_historyIndex t =? -1 then Ret t
  else if tm_historyIndex t =? 0 then
    let? t := showEntry t (tm_historyPending t) in
    Ret (put_pending t (tm_historyIndex t - 1) (tm_historyPending t))
  else
    let? entry := NthPreviousEntry (tm_history t) (tm_historyIndex t - 1) in
    match entry with
    | Some entry => showEntry (put_pending t (tm_historyIndex t - 1) (tm_historyPending t)) entry
    | None => Ret t
    end.

Definition enterKey t : bytes * Terminal C :=
  let t := moveCursorToPos t (zlen (tm_line t)) in
  let t := queue t [13; 10] in
  let line := encodeRunes (tm_line t) in
  (line, put_maxLine (put_cursor (put_line t [] 0) 0 0) 0).

Definition deleteLine t : outcome (Terminal C) :=
  let? before := upto (tm_line t) (tm_pos t) in
  let? t := times (Z.to_nat (zlen (tm_line t) - tm_pos t)) (fun t => Ret (advanceCursor (queue t [blank]) 1)) t in
  Ret (moveCursorToPos (put_line t before (tm_pos t)) (tm_pos t)).

Definition clearScreen t : outcome (Terminal C) :=
  let t := queue t clearScreenCodes in
  let t := queue t (tm_prompt t) in
  let t := put_cursor t 0 0 in
  let t := advanceCursor t (visualLength (tm_prompt t)) in
  setLine t (tm_line t) (tm_pos t).

(** The line when [key] is enter. *)
Definition handleKey t (key : Z) : outcome (option bytes * Terminal C) :=
  let keep (m : outcome (Terminal C)) := let? t := m in Ret (None, t) in
  if tm_pasteActive t && negb (key =? keyEnter) then keep (addKeyToLine t key)
  else if key =? keyBackspace then
    if tm_pos t =? 0 then Ret (None, t) else keep (eraseNPreviousChars t 1)
  else if key =? keyAltLeft then Ret (None, goto t (tm_pos t - countToLeftWord t))
  else if key =? keyAltRight then Ret (None, goto t (tm_pos t + countToRightWord t))
  else if key =? keyLeft then Ret (None, if tm_pos t =? 0 then t else goto t (tm_pos t - 1))
  else if key =? keyRight then Ret (None, if tm_pos t =? zlen (tm_line t) then t else goto t (tm_pos t + 1))
  else if key =? keyHome then Ret (None, if tm_pos t =? 0 then t else goto t 0)
  else if key =? keyEnd then
    Ret (None, if tm_pos t =? zlen (tm_line t) then t else goto t (zlen (tm_line t)))
  else if key =? keyUp then keep (historyUp t)
  else if key =? keyDown then keep (historyDown t)
  else if key =? keyEnter then let '(line, t) := enterKey t in Ret (Some line, t)
  else if key =? keyDeleteWord then keep (eraseNPreviousChars t (countToLeftWord t))
  else if key =? keyDeleteLine then keep (deleteLine t)
  else if key =? keyCtrlD then
    if tm_pos t <? zlen (tm_line t) then keep (eraseNPreviousChars (put_line t (tm_line t) (tm_pos t + 1)) 1)
    else Ret (None, t)
  else if key =? keyCtrlU then keep (eraseNPreviousChars t (tm_pos t))
  else if key =? keyClearScreen then keep (clearScreen t)
  else keep (completeKey t key).

(** ** Reading lines *)

Context `{Writer C}.

(** [t.c.Write(t.outBuf)] and the reset of the buffer; the error is dropped. *)
Definition flush t : Terminal C :=
  let '(_, _, c) := w_Write (tm_outBuf t) (tm_c t) in
  put_out (put_conn t c) [].

Definition showPrompt t : outcome (Terminal C) :=
  if (tm_cursorX t =? 0) && (tm_cursorY t =? 0) then
    let? t := writeLine t (tm_prompt t) in
    Ret (flush t)
  else Ret t.

(** The result of the loop over the keys that have been read: a line, the end of
    the input, or more input wanted; with what is left of the input. *)
Inductive keysResult :=
| KLine (line : bytes)
| KEOF
| KMore.

Fixpoint keysLoop (fuel : nat) (rest : bytes) (lineIsPasted : bool) t : outcome (keysResult * bytes * bool * Terminal C) :=
  let '(key, rest) := bytesToKey rest (tm_pasteActive t) in
  if key =? RuneError then Ret (KMore, rest, lineIsPasted, t)
  else
    match fuel with
    | O => Panic "out of fuel"
    | S fuel =>
        if negb (tm_pasteActive t) && (key =? keyCtrlD) && (zlen (tm_line t) =? 0) then Ret (KEOF, rest, lineIsPasted, t)
        else if negb (tm_pasteActive t) && (key =? keyPasteStart) then
          keysLoop fuel rest (if zlen (tm_line t) =? 0 then true else lineIsPasted) (put_paste t true)
        else if tm_pasteActive t && (key =? keyPasteEnd) then keysLoop fuel rest lineIsPasted (put_paste t false)
        else
          let lineIsPasted := if negb (tm_pasteActive t) then false else lineIsPasted in
          let? (r, t) := handleKey t key in
          match r with
          | Some line => Ret (KLine line, rest, lineIsPasted, t)
          | None => keysLoop fuel rest lineIsPasted t
          end
    end.

(** What [readLine] does up to its next [Read]: [Some] for a result. *)
Definition readPass (lineIsPasted : bool) t : outcome (option (bytes * option error) * bool * Terminal C) :=
  let? (r, rest, lineIsPasted, t) := keysLoop (length (tm_remainder t)) (tm_remainder t) lineIsPasted t in
  match r with
  | KEOF => Ret (Some ([], Some EOF), lineIsPasted, t)
  | KLine line =>
      let t := flush (put_remainder t (ztake inBufSize rest)) in
      let? t :=
        if tm_echo t then
          let? h := ring_Add (tm_history t) line in
          Ret (put_history t h (-1))
        else Ret t in
      Ret (Some (line, if lineIsPasted then Some errPasteIndicator else None), lineIsPasted, t)
  | KMore => Ret (None, lineIsPasted, flush (put_remainder t (ztake inBufSize rest)))
  end.

(** [Read] into the space behind the remainder returned [chunk]. *)
Definition readSpace t : Z := inBufSize - zlen (tm_remainder t).

Definition readGot t (chunk : bytes) : Terminal C := put_remainder t (tm_remainder t ++ chunk).

(** [readLine] with what [Read] returns: the chunks, then an error.  A [Read]
    delivers the chunk up to the space it is given and leaves the rest of it to the
    next one; without space it delivers nothing, and the loop does not end. *)
Definition unread (space : Z) (chunk : bytes) (reads : list bytes) : list bytes :=
  if zlen chunk <=? space then reads else zdrop space chunk :: reads.

Fixpoint readLoop (fuel : nat) (reads : list bytes) (err : error) (lineIsPasted : bool) t
  : outcome (bytes * option error * list bytes * Terminal C) :=
  let? (r, lineIsPasted, t) := readPass lineIsPasted t in
  match r with
  | Some (line, e) => Ret (line, e, reads, t)
  | None =>
      match reads, fuel with
      | [], _ => Ret ([], Some err, [], t)
      | _, O => Panic "out of fuel"
      | chunk :: reads, S fuel =>
          readLoop fuel (unread (readSpace t) chunk reads) err lineIsPasted (readGot t (ztake (readSpace t) chunk))
      end
  end.

(** Every [Read] with space takes a byte, or a chunk. *)
Definition readFuel (reads : list bytes) : nat := length reads + length (concat reads).

Definition readLine (reads : list bytes) (err : error) t : outcome (bytes * option error * list bytes * Terminal C) :=
  let? t := showPrompt t in
  readLoop (readFuel reads) reads err (tm_pasteActive t) t.

Definition ReadLine := readLine.

Definition ReadPassword (reads : list bytes) (err : error) t (prompt : bytes)
  : outcome (bytes * option error * list bytes * Terminal C) :=
  let oldPrompt := tm_prompt t in
  let? (line, e, reads, t) := readLine reads err (put_prompt t (decodeRunes prompt) false) in
  Ret (line, e, reads, put_prompt t oldPrompt true).

(** ** Writing and resizing *)

(** [writeWithCRLF]: the bytes of [buf] that were written. *)
Fixpoint writeCRLF (fuel : nat) (buf : bytes) (n : Z) (c : C) : Z * option error * C :=
  match buf, fuel with
  | [], _ | _, O => (n, None, c)
  | _, S fuel =>
      match cutAt (Byte.eqb x0a) buf with
      | None =>
          match w_Write buf c with
          | (nn, Some e, c) => (n + nn, Some e, c)
          | (nn, None, c) => (n + nn, None, c)
          end
      | Some (a, rest) =>
          match w_Write a c with
          | (nn, Some e, c) => (n + nn, Some e, c)
          | (nn, None, c) =>
              match w_Write crlf c with
              | (_, Some e, c) => (n + nn, Some e, c)
              | (_, None, c) => writeCRLF fuel (drop 1 rest) (n + nn + 1) c
              end
          end
      end
  end.

Definition writeWithCRLF (buf : bytes) (c : C) : Z * option error * C := writeCRLF (length buf) buf 0 c.

(** One row up, cleared; [n] rows. *)
Fixpoint clearUp (n : nat) t : Terminal C :=
  match n with
  | O => t
  | S n =>
      let t := move t 1 0 0 0 in
      let t := put_cursor t (tm_cursorX t) (tm_cursorY t - 1) in
      clearUp n (clearLineToRight t)
  end.

Fixpoint clearDown (n : nat) t : Terminal C :=
  match n with
  | O => t
  | S n =>
      let t := move t 0 1 0 0 in
      let t := put_cursor t (tm_cursorX t) (tm_cursorY t + 1) in
      clearDown n (clearLineToRight t)
  end.

Definition Write t (buf : bytes) : outcome (Z * option error * Terminal C) :=
  if (tm_cursorX t =? 0) && (tm_cursorY t =? 0) then
    let '(n, e, c) := writeWithCRLF buf (tm_c t) in
    Ret (n, e, put_conn t c)
  else
    let t := move t 0 0 (tm_cursorX t) 0 in
    let t := clearLineToRight (put_cursor t 0 (tm_cursorY t)) in
    let t := clearUp (Z.to_nat (tm_cursorY t)) t in
    match w_Write (tm_outBuf t) (tm_c t) with
    | (_, Some e, c) => Ret (0, Some e, put_conn t c)
    | (_, None, c) =>
        let t := put_out (put_conn t c) [] in
        match writeWithCRLF buf (tm_c t) with
        | (n, Some e, c) => Ret (n, Some e, put_conn t c)
        | (n, None, c) =>
            let t := put_conn t c in
            let? t := writeLine t (tm_prompt t) in
            let? t := if tm_echo t then writeLine t (tm_line t) else Ret t in
            let t := moveCursorToPos t (tm_pos t) in
            match w_Write (tm_outBuf t) (tm_c t) with
            | (_, Some e, c) => Ret (n, Some e, put_conn t c)
            | (_, None, c) => Ret (n, None, put_out (put_conn t c) [])
            end
        end
    end.

Definition SetPrompt t (prompt : bytes) : Terminal C := put_prompt t (decodeRunes prompt) (tm_echo t).

Definition clearAndRepaintLinePlusNPrevious t (numPrevLines : Z) : outcome (Terminal C) :=
  let t := move t (tm_cursorY t) 0 (tm_cursorX t) 0 in
  let t := clearLineToRight (put_cursor t 0 0) in
  let t := clearDown (Z.to_nat numPrevLines) t in
  let t := put_cursor (move t (tm_cursorY t) 0 0 0) 0 0 in
  let t := queue t (tm_prompt t) in
  let t := advanceCursor t (visualLength (tm_prompt t)) in
  let? t := writeLine t (tm_line t) in
  Ret (moveCursorToPos t (tm_pos t)).

Definition SetSize t (width height : Z) : outcome (option error * Terminal C) :=
  let width := if width =? 0 then 1 else width in
  let oldWidth := tm_termWidth t in
  let t := put_size t width height in
  if width =? oldWidth then Ret (None, t)
  else if (zlen (tm_line t) =? 0) && (tm_cursorX t =? 0) && (tm_cursorY t =? 0) then Ret (None, t)
  else
    let? t :=
      if width <? oldWidth then
        let x := if tm_termWidth t <=? tm_cursorX t then tm_termWidth t - 1 else tm_cursorX t in
        clearAndRepaintLinePlusNPrevious (put_cursor t x (tm_cursorY t * 2)) (tm_maxLine t * 2)
      else clearAndRepaintLinePlusNPrevious t (tm_maxLine t) in
    let '(_, e, c) := w_Write (tm_outBuf t) (tm_c t) in
    Ret (e, put_out (put_conn t c) []).

Definition SetBracketedPasteMode t (on : bool) : Terminal C :=
  let '(_, _, c) := w_Write (x1b :: str (if on then "[?2004h" else "[?2004l")) (tm_c t) in
  put_conn t c.
End Screen.

(** ** Passwords *)

(** [readPasswordLine] on what the reader delivers byte by byte, then [err]. *)
Fixpoint readPasswordLine (input : bytes) (err : error) (ret : bytes) : bytes * option error * bytes :=
  match input with
  | [] => if bool_decide (err = EOF) && (0 <? zlen ret) then (ret, None, []) else (ret, Some err, [])
  | b :: input' =>
      if Byte.eqb b x0a then (ret, None, input')
      else if Byte.eqb b x0d then readPasswordLine input' err ret
      else readPasswordLine input' err (ret ++ [b])
  end.
