(* ===== verification/TerminalFacts.v ===== *)
(** * The line editor: editing and reading

    The terminal edits its line as a text with a cursor and a list of past lines
    does, whatever it draws meanwhile; no key panics, and what is typed is what
    [ReadLine] returns, however the input is cut into reads. *)

From S2P Require Import Prelude Text Utf8 Terminal.

(** ** The history as a list *)

(** The ring holds [past], the last line first. *)
Definition ring_holds (s : stRingBuffer) (past : list bytes) : Prop :=
  zlen past = rb_size s /\
  ((s = emptyRing) \/
   (zlen (rb_entries s) = defaultNumEntries /\ rb_max s = defaultNumEntries /\
    0 <= rb_head s < defaultNumEntries /\ rb_size s <= defaultNumEntries)) /\
  forall i, 0 <= i < rb_size s ->
    rb_entries s !! Z.to_nat ((rb_head s - i) mod defaultNumEntries) = past !! Z.to_nat i.

(** At most a hundred lines are kept. *)
Definition remember (past : list bytes) (a : bytes) : list bytes := ztake defaultNumEntries (a :: past).

Lemma ring_empty : ring_holds emptyRing [].
Proof. split; [done|]. split; [by left|]. cbn. lia. Qed.

Lemma at_index_some {A} (l : list A) i a : 0 <= i -> l !! Z.to_nat i = Some a -> at_index l i = Ret a.
Proof. intros Hi Hl. unfold at_index. by rewrite (proj2 (Z.ltb_ge _ _)), Hl by lia. Qed.

Lemma ring_nth s past n : ring_holds s past -> 0 <= n -> NthPreviousEntry s n = Ret (past !! Z.to_nat n).
Proof.
  intros (Hlen & Hs & Hi) Hn. unfold NthPreviousEntry. destruct (Z.leb_spec (rb_size s) n) as [Hge|Hlt].
  - f_equal. symmetry. apply lookup_ge_None. unfold zlen in Hlen. lia.
  - destruct Hs as [->|(He & Hm & Hh & Hsz)]; [cbn in Hlt; lia|]. specialize (Hi n ltac:(lia)).
    assert (E : (if rb_head s - n <? 0 then rb_head s - n + rb_max s else rb_head s - n) = (rb_head s - n) mod defaultNumEntries).
    { rewrite Hm. unfold defaultNumEntries in *. destruct (Z.ltb_spec (rb_head s - n) 0); dlia. }
    rewrite E. destruct (past !! Z.to_nat n) as [a|] eqn:Ha.
    + rewrite (at_index_some _ _ a); [done | unfold defaultNumEntries; dlia | done].
    + apply lookup_ge_None in Ha. unfold zlen in Hlen. lia.
Qed.

Lemma ring_add s past a : ring_holds s past -> exists s', ring_Add s a = Ret s' /\ ring_holds s' (remember past a).
Proof.
  intros (Hlen & Hs & Hi). unfold ring_Add.
  set (s1 := match rb_entries s with [] => _ | _ => s end).
  assert (H1 : zlen (rb_entries s1) = defaultNumEntries /\ rb_max s1 = defaultNumEntries /\
               0 <= rb_head s1 < defaultNumEntries /\ rb_size s1 = rb_size s /\ rb_size s <= defaultNumEntries /\
               forall i, 0 <= i < rb_size s -> rb_entries s1 !! Z.to_nat ((rb_head s1 - i) mod defaultNumEntries) = past !! Z.to_nat i).
  { destruct Hs as [->|(He & Hm & Hh & Hsz)]; [subst s1; cbn; unfold defaultNumEntries; split_and!; try done; lia|].
    subst s1. destruct (rb_entries s) eqn:E; [done|]. rewrite ?E. split_and!; done || lia. }
  clearbody s1. destruct H1 as (He & Hm & Hh & Hsz & Hle & Hi1). rewrite Hm, Z.rem_mod_nonneg by (unfold defaultNumEntries; lia).
  set (h := (rb_head s1 + 1) mod defaultNumEntries). assert (0 <= h < 100) by (subst h; unfold defaultNumEntries; dlia).
  destruct (rb_entries s1 !! Z.to_nat h) as [b|] eqn:Eb.
  2: { apply lookup_ge_None in Eb. unfold zlen, defaultNumEntries in He. lia. }
  rewrite (at_index_some _ _ b) by (done || lia). cbn [obind]. eexists. split; [done|].
  unfold ring_holds, remember. cbn [rb_size rb_entries rb_max rb_head]. rewrite Hsz. pose proof (zlen_nonneg past).
  split; [|split; [right|]].
  - unfold zlen, ztake in *. rewrite length_take. cbn [length]. unfold defaultNumEntries in *.
    destruct (Z.ltb_spec (rb_size s) 100); lia.
  - unfold zlen in *. rewrite length_insert. unfold defaultNumEntries in *. destruct (Z.ltb_spec (rb_size s) 100); lia.
  - intros i Hi2. assert (Hb : i < 100 /\ i - 1 < rb_size s).
    { unfold defaultNumEntries in *. destruct (Z.ltb_spec (rb_size s) 100); lia. }
    unfold ztake. rewrite lookup_take_lt by (unfold defaultNumEntries; lia).
    destruct (decide (i = 0)) as [->|Hne].
    + replace (Z.to_nat ((h - 0) mod defaultNumEntries)) with (Z.to_nat h)
        by (rewrite Z.sub_0_r, Z.mod_small by (unfold defaultNumEntries; lia); done).
      rewrite list_lookup_insert_eq; [done|]. unfold zlen, defaultNumEntries in He. lia.
    + replace (Z.to_nat i) with (S (Z.to_nat (i - 1))) by lia. cbn [lookup list_lookup]. rewrite <- Hi1 by lia.
      assert (E : (h - i) mod defaultNumEntries = (rb_head s1 - (i - 1)) mod defaultNumEntries).
      { subst h. rewrite Zminus_mod_idemp_l. f_equal. lia. }
      rewrite E. apply list_lookup_insert_ne. subst h. unfold defaultNumEntries in *. intros Hc. apply Z2Nat.inj in Hc; dlia.
Qed.

(** ** Drawing keeps the rest

    Every routine that draws moves the cursor within the width and appends to the
    output; of the rest it changes the line and the position alone. *)

Section Moving.
Context {C : Type}.
Implicit Types t : Terminal C.

Definition cursor_ok t : Prop := 0 < tm_termWidth t /\ 0 <= tm_cursorX t < tm_termWidth t /\ 0 <= tm_cursorY t.

Definition shift t (x y m : Z) (out : bytes) : Terminal C := put_out (put_maxLine (put_cursor t x y) m) out.

Definition moved t t' (line : list Z) (pos : Z) : Prop :=
  exists x y m out, t' = shift (put_line t line pos) x y m (tm_outBuf t ++ out) /\ 0 <= x < tm_termWidth t /\ 0 <= y.

Definition stays t t' : Prop := moved t t' (tm_line t) (tm_pos t).

Lemma moved_cursor t t' l p : cursor_ok t -> moved t t' l p -> cursor_ok t'.
Proof. intros (Hw & _) (x & y & m & out & -> & Hx & Hy). unfold cursor_ok. cbn. lia. Qed.

Lemma moved_line t t' l p : moved t t' l p -> tm_line t' = l /\ tm_pos t' = p.
Proof. by intros (x & y & m & out & -> & _). Qed.

Lemma moved_trans t t1 t2 l1 p1 l2 p2 : moved t t1 l1 p1 -> moved t1 t2 l2 p2 -> moved t t2 l2 p2.
Proof.
  intros (x1 & y1 & m1 & out1 & -> & Hx1 & Hy1) (x2 & y2 & m2 & out2 & -> & Hx2 & Hy2).
  exists x2, y2, m2, (out1 ++ out2). cbn in *. by rewrite app_assoc.
Qed.

Lemma stays_trans t t1 t2 : stays t t1 -> stays t1 t2 -> stays t t2.
Proof.
  unfold stays. intros H1 H2. destruct (moved_line _ _ _ _ H1) as [E1 E2]. rewrite E1, E2 in H2. by eapply moved_trans.
Qed.

Lemma moved_put t l p : cursor_ok t -> moved t (put_line t l p) l p.
Proof.
  intros (Hw & Hx & Hy). exists (tm_cursorX t), (tm_cursorY t), (tm_maxLine t), []. by rewrite app_nil_r.
Qed.

Lemma stays_refl t : cursor_ok t -> stays t t.
Proof. intros Ht. pose proof (moved_put t (tm_line t) (tm_pos t) Ht) as H. by destruct t. Qed.

Lemma queue_stays t rs : cursor_ok t -> stays t (queue t rs).
Proof. intros (Hw & Hx & Hy). exists (tm_cursorX t), (tm_cursorY t), (tm_maxLine t), (encodeRunes rs). by destruct t. Qed.

Lemma moveCursorToPos_stays t pos : cursor_ok t -> 0 <= visualLength (tm_prompt t) + pos -> stays t (moveCursorToPos t pos).
Proof.
  intros Ht Hpos. unfold moveCursorToPos. destruct (tm_echo t); cbn [negb]; [|by apply stays_refl].
  destruct Ht as (Hw & Hx & Hy). set (v := visualLength (tm_prompt t) + pos) in *.
  rewrite Z.quot_div_nonneg, Z.rem_mod_nonneg by lia.
  pose proof (Z.mod_pos_bound v (tm_termWidth t) Hw). pose proof (Z.div_pos v (tm_termWidth t)).
  eexists (v mod tm_termWidth t), (v / tm_termWidth t), (tm_maxLine t), _. split; [by destruct t | lia].
Qed.

Lemma advanceCursor_stays t n : cursor_ok t -> 0 <= n -> stays t (advanceCursor t n).
Proof.
  intros (Hw & Hx & Hy) Hn. unfold advanceCursor. rewrite Z.quot_div_nonneg by lia.
  assert (Hq : 0 <= (tm_cursorX t + n) / tm_termWidth t) by (apply Z.div_pos; lia).
  assert (E : tm_termWidth (if tm_maxLine t <? tm_cursorY t + (tm_cursorX t + n) / tm_termWidth t
                            then put_maxLine t (tm_cursorY t + (tm_cursorX t + n) / tm_termWidth t) else t) = tm_termWidth t)
    by by destruct (_ <? _).
  rewrite E, Z.rem_mod_nonneg by lia. pose proof (Z.mod_pos_bound (tm_cursorX t + n) (tm_termWidth t) Hw).
  eexists ((tm_cursorX t + n) mod tm_termWidth t), (tm_cursorY t + (tm_cursorX t + n) / tm_termWidth t),
    (if tm_maxLine t <? tm_cursorY t + (tm_cursorX t + n) / tm_termWidth t then tm_cursorY t + (tm_cursorX t + n) / tm_termWidth t else tm_maxLine t),
    (if (0 <? n) && ((tm_cursorX t + n) mod tm_termWidth t =? 0) then crlf else []).
  split; [|lia]. destruct (tm_maxLine t <? _), (_ && _); unfold shift; destruct t; cbn; rewrite ?app_nil_r; done.
Qed.

Lemma visualLoop_mono rs b n : n <= visualLoop rs b n.
Proof.
  revert b n. induction rs as [|r rs IH]; intros b n; cbn [visualLoop]; [lia|].
  destruct b; [apply IH|]. destruct (r =? keyEscape); [apply IH|]. specialize (IH false (n + 1)). lia.
Qed.

Lemma visualLength_nonneg rs : 0 <= visualLength rs.
Proof. apply visualLoop_mono. Qed.

Lemma upto_ok (l : list Z) n : 0 <= n <= zlen l -> upto l n = Ret (ztake n l).
Proof. intros. unfold upto. by rewrite (proj2 (Z.ltb_ge _ _)), (proj2 (Z.ltb_ge _ _)) by lia. Qed.

Lemma from_ok (l : list Z) n : 0 <= n <= zlen l -> from l n = Ret (zdrop n l).
Proof. intros. unfold from. by rewrite (proj2 (Z.ltb_ge _ _)), (proj2 (Z.ltb_ge _ _)) by lia. Qed.

Lemma writeLine_stays t line : cursor_ok t -> exists t', writeLine t line = Ret t' /\ stays t t'.
Proof.
  unfold writeLine. intros Ht. assert (Hl : (length line <= length line)%nat) by lia. revert Hl.
  generalize (length line) at 2 3 as fuel. intros fuel. revert t line Ht.
  induction fuel as [|fuel IH]; intros t [|r line] Ht Hl; cbn [writeLoop]; try (eexists; split; [done | by apply stays_refl]).
  { cbn in Hl. lia. }
  assert (Ht' := Ht). destruct Ht' as (Hw & Hx & Hy). set (full := r :: line) in *.
  assert (Hf : 1 <= zlen full) by (subst full; rewrite zlen_cons; pose proof (zlen_nonneg line); lia).
  set (todo := if _ <? _ then _ else _).
  assert (Htodo : 1 <= todo <= zlen full) by (subst todo; destruct (Z.ltb_spec (tm_termWidth t - tm_cursorX t) (zlen full)); lia).
  rewrite upto_ok, from_ok by lia. cbn [obind].
  assert (H1 := queue_stays t (ztake todo full) Ht). assert (C1 := moved_cursor _ _ _ _ Ht H1).
  assert (H2 := advanceCursor_stays _ (visualLength (ztake todo full)) C1 (visualLength_nonneg _)).
  assert (C2 := moved_cursor _ _ _ _ C1 H2).
  destruct (IH _ (zdrop todo full) C2) as (t' & Et & H3).
  { pose proof (zlen_zdrop todo full). unfold zlen in *. lia. }
  exists t'. split; [done|]. eapply stays_trans; [exact H1|]. by eapply stays_trans.
Qed.

Lemma times_stays n f t : (forall t, cursor_ok t -> exists t', f t = Ret t' /\ stays t t') -> cursor_ok t ->
  exists t', times n f t = Ret t' /\ stays t t'.
Proof.
  intros Hf. revert t. induction n as [|n IH]; intros t Ht; cbn [times]; [eexists; split; [done | by apply stays_refl]|].
  destruct (Hf t Ht) as (t1 & -> & H1). cbn [obind].
  destruct (IH t1 (moved_cursor _ _ _ _ Ht H1)) as (t2 & -> & H2). exists t2. split; [done|]. by eapply stays_trans.
Qed.
Lemma moved_then_put t t1 l1 p1 l p : cursor_ok t -> moved t t1 l1 p1 -> moved t (put_line t1 l p) l p.
Proof. intros Ht H1. eapply moved_trans; [exact H1|]. apply moved_put. by eapply moved_cursor. Qed.

Lemma moved_then_stays t t1 t2 l p : moved t t1 l p -> stays t1 t2 -> moved t t2 l p.
Proof. unfold stays. intros H1 H2. destruct (moved_line _ _ _ _ H1) as [E1 E2]. rewrite E1, E2 in H2. by eapply moved_trans. Qed.

Lemma prompt_pos t p : 0 <= p -> 0 <= visualLength (tm_prompt t) + p.
Proof. pose proof (visualLength_nonneg (tm_prompt t)). lia. Qed.

Lemma goto_moved t p : cursor_ok t -> 0 <= p -> moved t (goto t p) (tm_line t) p.
Proof.
  intros Ht Hp. assert (H1 := moved_put t (tm_line t) p Ht). eapply moved_then_stays; [exact H1|].
  apply moveCursorToPos_stays; [by eapply moved_cursor | by apply prompt_pos].
Qed.

Lemma setLine_moved t l p : cursor_ok t -> 0 <= p -> exists t', setLine t l p = Ret t' /\ moved t t' l p.
Proof.
  intros Ht Hp. unfold setLine. destruct (tm_echo t); cbn [obind].
  2: { eexists. split; [done | by apply moved_put]. }
  assert (H1 := moveCursorToPos_stays t 0 Ht (prompt_pos t 0 ltac:(lia))). assert (C1 := moved_cursor _ _ _ _ Ht H1).
  destruct (writeLine_stays _ l C1) as (t2 & -> & H2). cbn [obind]. assert (C2 := moved_cursor _ _ _ _ C1 H2).
  destruct (times_stays (Z.to_nat (zlen (tm_line t2) - zlen l)) (fun t => writeLine t [blank]) t2
              (fun t => writeLine_stays t [blank]) C2) as (t3 & -> & H3). cbn [obind].
  assert (C3 := moved_cursor _ _ _ _ C2 H3). assert (H4 := moveCursorToPos_stays t3 p C3 (prompt_pos t3 p Hp)).
  eexists. split; [done|]. eapply moved_then_put; [done|].
  eapply stays_trans; [exact H1|]. eapply stays_trans; [exact H2|]. by eapply stays_trans.
Qed.

Lemma erase_moved t a m b : cursor_ok t -> tm_line t = a ++ m ++ b -> tm_pos t = zlen (a ++ m) ->
  exists t', eraseNPreviousChars t (zlen m) = Ret t' /\ moved t t' (a ++ b) (zlen a).
Proof.
  intros Ht El Ep. unfold eraseNPreviousChars. rewrite zlen_app in Ep. pose proof (zlen_nonneg a) as Ha. pose proof (zlen_nonneg m) as Hm.
  destruct (Z.eqb_spec (zlen m) 0) as [E0|E0].
  { apply zlen_zero in E0 as ->. eexists. split; [done|]. rewrite zlen_nil, Z.add_0_r in Ep. cbn in El. rewrite <- El, <- Ep.
    by apply stays_refl. }
  rewrite (proj2 (Z.ltb_ge _ _)) by lia. replace (tm_pos t - zlen m) with (zlen a) by lia.
  fold (goto t (zlen a)). assert (H1 := goto_moved t (zlen a) Ht ltac:(lia)). assert (C1 := moved_cursor _ _ _ _ Ht H1).
  destruct (moved_line _ _ _ _ H1) as [E1 _]. rewrite E1, El. pose proof (zlen_nonneg b) as Hb.
  rewrite upto_ok, from_ok by (rewrite !zlen_app; lia). cbn [obind].
  rewrite ztake_app_zlen, app_assoc, (Z.add_comm (zlen m)), <- zlen_app, zdrop_app_zlen.
  assert (H2 := moved_then_put t _ _ _ (a ++ b) (zlen a) Ht H1). assert (C2 := moved_cursor _ _ _ _ Ht H2).
  destruct (tm_echo _); [|by eexists]. destruct (writeLine_stays _ b C2) as (t3 & -> & H3). cbn [obind].
  assert (C3 := moved_cursor _ _ _ _ C2 H3).
  assert (H4 := queue_stays t3 (repeat blank (Z.to_nat (zlen m))) C3). assert (C4 := moved_cursor _ _ _ _ C3 H4).
  assert (H5 := advanceCursor_stays _ (zlen m) C4 ltac:(lia)). assert (C5 := moved_cursor _ _ _ _ C4 H5).
  eexists. split; [done|]. eapply moved_then_stays; [exact H2|]. eapply stays_trans; [exact H3|].
  eapply stays_trans; [exact H4|]. eapply stays_trans; [exact H5|]. apply moveCursorToPos_stays; [done|]. apply prompt_pos.
  destruct (moved_line _ _ _ _ H5) as [_ ->]. destruct (moved_line _ _ _ _ H3) as [_ E3]. cbn. rewrite E3. cbn. lia.
Qed.

Lemma addKey_moved t a b key : cursor_ok t -> tm_line t = a ++ b -> tm_pos t = zlen a ->
  exists t', addKeyToLine t key = Ret t' /\ moved t t' (a ++ key :: b) (zlen a + 1).
Proof.
  intros Ht El Ep. unfold addKeyToLine. pose proof (zlen_nonneg a) as Ha. pose proof (zlen_nonneg b) as Hb.
  rewrite El, Ep, upto_ok, from_ok by (rewrite zlen_app; lia). cbn [obind]. rewrite ztake_app_zlen, zdrop_app_zlen.
  assert (H1 := moved_put t (a ++ key :: b) (zlen a) Ht). assert (C1 := moved_cursor _ _ _ _ Ht H1).
  assert (exists t2, (if tm_echo (put_line t (a ++ key :: b) (zlen a)) then writeLine (put_line t (a ++ key :: b) (zlen a)) (key :: b)
                      else Ret (put_line t (a ++ key :: b) (zlen a))) = Ret t2 /\ stays (put_line t (a ++ key :: b) (zlen a)) t2)
    as (t2 & -> & H2).
  { destruct (tm_echo _); [by apply writeLine_stays | eexists; split; [done | by apply stays_refl]]. }
  cbn [obind]. assert (H3 := moved_then_stays _ _ _ _ _ H1 H2). destruct (moved_line _ _ _ _ H3) as [E3 F3]. rewrite E3, F3.
  eexists. split; [done|]. assert (H4 := moved_then_put t _ _ _ (a ++ key :: b) (zlen a + 1) Ht H3).
  eapply moved_then_stays; [exact H4|]. apply moveCursorToPos_stays; [exact (moved_cursor _ _ _ _ Ht H4)|].
  apply prompt_pos. cbn. lia.
Qed.

Lemma deleteLine_moved t a b : cursor_ok t -> tm_line t = a ++ b -> tm_pos t = zlen a ->
  exists t', deleteLine t = Ret t' /\ moved t t' a (zlen a).
Proof.
  intros Ht El Ep. unfold deleteLine. pose proof (zlen_nonneg a) as Ha. pose proof (zlen_nonneg b) as Hb.
  rewrite El, Ep, upto_ok by (rewrite zlen_app; lia). cbn [obind]. rewrite ztake_app_zlen.
  edestruct (times_stays (Z.to_nat (zlen (a ++ b) - zlen a)) (fun t => Ret (advanceCursor (queue t [blank]) 1)) t) as (t2 & -> & H2); [|done|].
  { intros t1 Ht1. eexists. split; [done|]. assert (H1 := queue_stays t1 [blank] Ht1). eapply stays_trans; [exact H1|].
    apply advanceCursor_stays; [by eapply moved_cursor | lia]. }
  cbn [obind]. eexists. split; [done|]. assert (H3 := moved_then_put t _ _ _ a (zlen a) Ht H2).
  destruct (moved_line _ _ _ _ H2) as [_ ->]. rewrite Ep. eapply moved_then_stays; [exact H3|].
  apply moveCursorToPos_stays; [exact (moved_cursor _ _ _ _ Ht H3)|]. apply prompt_pos. cbn. lia.
Qed.

Lemma clearScreen_moved t : cursor_ok t -> 0 <= tm_pos t -> exists t', clearScreen t = Ret t' /\ stays t t'.
Proof.
  intros Ht Hp. unfold clearScreen. assert (H1 := queue_stays t clearScreenCodes Ht). assert (C1 := moved_cursor _ _ _ _ Ht H1).
  assert (H2 := queue_stays _ (tm_prompt (queue t clearScreenCodes)) C1). assert (C2 := moved_cursor _ _ _ _ C1 H2).
  set (t2 := queue _ (tm_prompt _)) in *.
  assert (H3 : stays t2 (put_cursor t2 0 0)).
  { destruct C2 as (Hw & _). exists 0, 0, (tm_maxLine t2), []. rewrite app_nil_r. by destruct t2. }
  assert (C3 := moved_cursor _ _ _ _ C2 H3).
  assert (H4 := advanceCursor_stays _ (visualLength (tm_prompt (put_cursor t2 0 0))) C3 (visualLength_nonneg _)).
  assert (C4 := moved_cursor _ _ _ _ C3 H4). set (t4 := advanceCursor _ _) in *.
  assert (H5 : stays t t4) by exact (stays_trans _ _ _ H1 (stays_trans _ _ _ H2 (stays_trans _ _ _ H3 H4))).
  destruct (moved_line _ _ _ _ H5) as [E1 E2]. rewrite E1, E2.
  destruct (setLine_moved t4 (tm_line t) (tm_pos t) C4 Hp) as (t5 & -> & H6). exists t5. split; [done|]. by eapply moved_trans.
Qed.

Lemma enterKey_moved t : cursor_ok t -> exists t', enterKey t = (encodeRunes (tm_line t), t') /\ moved t t' [] 0.
Proof.
  intros Ht. unfold enterKey. assert (H1 := moveCursorToPos_stays t (zlen (tm_line t)) Ht (prompt_pos _ _ (zlen_nonneg _))).
  assert (C1 := moved_cursor _ _ _ _ Ht H1). assert (H2 := queue_stays _ [13; 10] C1). assert (H3 := stays_trans _ _ _ H1 H2).
  set (t2 := queue _ _) in *. assert (C2 := moved_cursor _ _ _ _ C1 H2). destruct (moved_line _ _ _ _ H3) as [-> _].
  eexists. split; [done|]. eapply moved_trans; [exact H3|]. destruct C2 as (Hw & _).
  exists 0, 0, 0, []. rewrite app_nil_r. split; [by destruct t2 | lia].
Qed.
End Moving.

(** ** The editor

    A text with a cursor: what is to the left, nearest rune first, and to the
    right; the past lines, the one shown, and the line that was being typed. *)

Record editor := mkEditor {
  ed_left : list Z;
  ed_right : list Z;
  ed_past : list bytes;
  ed_index : Z;
  ed_pending : bytes
}.

Definition ed_text (e : editor) : list Z := rev (ed_left e) ++ ed_right e.

Definition with_text (e : editor) (left right : list Z) : editor :=
  mkEditor left right (ed_past e) (ed_index e) (ed_pending e).

Definition set_text (e : editor) (text : list Z) (n : Z) : editor := with_text e (rev (ztake n text)) (zdrop n text).

Definition with_index (e : editor) (i : Z) (pending : bytes) : editor :=
  mkEditor (ed_left e) (ed_right e) (ed_past e) i pending.

(** What is left of the cursor before the word; a single rune before a word
    belongs to it. *)
Definition wordStart (left : list Z) : list Z :=
  match skipWhile (fun r => negb (Z.eqb blank r)) (skipWhile (Z.eqb blank) left) with
  | [_] => []
  | left' => left'
  end.

Definition wordEnd (right : list Z) : list Z :=
  skipWhile (Z.eqb blank) (skipWhile (fun r => negb (Z.eqb blank r)) right).

(** The cursor [n] runes to the left, to the right. *)
Definition back (e : editor) (n : nat) : editor :=
  with_text e (drop n (ed_left e)) (rev (take n (ed_left e)) ++ ed_right e).

Definition forth (e : editor) (n : nat) : editor :=
  with_text e (rev (take n (ed_right e)) ++ ed_left e) (drop n (ed_right e)).

Definition showPast (e : editor) (entry : bytes) : editor := with_text e (rev (decodeRunes entry)) [].

Definition ed_up (e : editor) : editor :=
  match ed_past e !! Z.to_nat (ed_index e + 1) with
  | None => e
  | Some entry =>
      let pending := if ed_index e =? -1 then encodeRunes (ed_text e) else ed_pending e in
      showPast (with_index e (ed_index e + 1) pending) entry
  end.

Definition ed_down (e : editor) : editor :=
  if ed_index e =? -1 then e
  else
    let e' := with_index e (ed_index e - 1) (ed_pending e) in
    if ed_index e =? 0 then showPast e' (ed_pending e)
    else match ed_past e !! Z.to_nat (ed_index e - 1) with
         | Some entry => showPast e' entry
         | None => e
         end.

Definition ed_insert (e : editor) (key : Z) : editor :=
  if isPrintable key && negb (zlen (ed_text e) =? maxLineLength) then with_text e (key :: ed_left e) (ed_right e) else e.

Definition ed_complete (cb : option callback) (e : editor) (key : Z) : editor :=
  let prefix := encodeRunes (rev (ed_left e)) in
  match cb with
  | Some f =>
      match f (prefix ++ encodeRunes (ed_right e)) (zlen prefix) key with
      | Some (newLine, newPos) => set_text e (decodeRunes newLine) (runeCount (ztake newPos newLine))
      | None => ed_insert e key
      end
  | None => ed_insert e key
  end.

(** One key: the line that is entered, and the editor after it. *)
Definition edit (cb : option callback) (paste : bool) (e : editor) (key : Z) : option bytes * editor :=
  let left := ed_left e in
  let right := ed_right e in
  if paste && negb (key =? keyEnter) then (None, with_text e (key :: left) right)
  else if key =? keyBackspace then (None, with_text e (drop 1 left) right)
  else if key =? keyAltLeft then (None, back e (length left - length (wordStart left)))
  else if key =? keyAltRight then (None, forth e (length right - length (wordEnd right)))
  else if key =? keyLeft then (None, back e 1)
  else if key =? keyRight then (None, forth e 1)
  else if key =? keyHome then (None, back e (length left))
  else if key =? keyEnd then (None, forth e (length right))
  else if key =? keyUp then (None, ed_up e)
  else if key =? keyDown then (None, ed_down e)
  else if key =? keyEnter then (Some (encodeRunes (ed_text e)), with_text e [] [])
  else if key =? keyDeleteWord then (None, with_text e (wordStart left) right)
  else if key =? keyDeleteLine then (None, with_text e left [])
  else if key =? keyCtrlD then (None, with_text e left (drop 1 right))
  else if key =? keyCtrlU then (None, with_text e [] right)
  else if key =? keyClearScreen then (None, e)
  else (None, ed_complete cb e key).

(** A completion returns whole runes and a position between two of them. *)
Definition callback_ok (cb : option callback) : Prop :=
  forall f line pos key l p, cb = Some f -> f line pos key = Some (l, p) ->
    exists a b, l = encodeRunes (a ++ b) /\ p = zlen (encodeRunes a) /\ Forall (fun r => validRune r = true) (a ++ b).

(** *** Words *)

Lemma skipWhile_suffix f l : exists m, l = m ++ skipWhile f l.
Proof.
  induction l as [|r l [m E]]; cbn [skipWhile]; [by exists []|].
  destruct (f r); [exists (r :: m); cbn; by rewrite <- E | by exists []].
Qed.

Lemma wordStart_suffix left : exists m, left = m ++ wordStart left.
Proof.
  unfold wordStart. destruct (skipWhile_suffix (Z.eqb blank) left) as [m E].
  destruct (skipWhile_suffix (fun r => negb (Z.eqb blank r)) (skipWhile (Z.eqb blank) left)) as [m' E'].
  rewrite E', app_assoc in E. set (s := skipWhile _ (skipWhile _ _)) in *. clearbody s. clear E'.
  destruct s as [|x [|y s]]; [by exists (m ++ m') | exists left; by rewrite app_nil_r | by exists (m ++ m')].
Qed.

Lemma wordEnd_suffix right : exists m, right = m ++ wordEnd right.
Proof.
  unfold wordEnd. destruct (skipWhile_suffix (fun r => negb (Z.eqb blank r)) right) as [m E].
  destruct (skipWhile_suffix (Z.eqb blank) (skipWhile (fun r => negb (Z.eqb blank r)) right)) as [m' E'].
  exists (m ++ m'). by rewrite <- app_assoc, <- E'.
Qed.

Lemma lookup_left (left : list Z) (x : Z) (right : list Z) : (rev (x :: left) ++ right) !! length left = Some x.
Proof. cbn [rev]. rewrite <- app_assoc, lookup_app_r; rewrite length_rev; [|lia]. by rewrite Nat.sub_diag. Qed.

Lemma leftSpaces_spec left right :
  leftSpaces (rev left ++ right) (length left - 1) = (length (skipWhile (Z.eqb blank) left) - 1)%nat.
Proof.
  revert right. induction left as [|x left IH]; intros right; [done|]. replace (length (x :: left) - 1)%nat with (length left) by (cbn; lia).
  destruct left as [|y left].
  { cbn [leftSpaces leftWord skipWhile length]. by destruct (blank =? x). }
  cbn [leftSpaces length]. change (S (length left)) with (length (y :: left)). rewrite lookup_left. change (default 0 (Some x)) with x.
  rewrite (Z.eqb_sym x). remember (y :: left) as l eqn:El. cbn [skipWhile]. destruct (blank =? x); cbn [negb]; [|cbn; lia]. subst l.
  cbn [rev] in *. rewrite <- app_assoc. specialize (IH ([x] ++ right)). rewrite <- IH. f_equal. cbn. lia.
Qed.

Lemma leftWord_spec left right :
  leftWord (rev left ++ right) (length left - 1) =
  length (match skipWhile (fun r => negb (Z.eqb blank r)) left with [_] => [] | l => l end).
Proof.
  revert right. induction left as [|x left IH]; intros right; [done|]. replace (length (x :: left) - 1)%nat with (length left) by (cbn; lia).
  destruct left as [|y left].
  { cbn [leftSpaces leftWord skipWhile length]. by destruct (blank =? x). }
  cbn [leftWord length]. change (S (length left)) with (length (y :: left)). rewrite lookup_left. change (default 0 (Some x)) with x.
  rewrite (Z.eqb_sym x). remember (y :: left) as l eqn:El. cbn [skipWhile]. destruct (blank =? x); cbn [negb]; subst l; [done|].
  cbn [rev] in *. rewrite <- app_assoc. specialize (IH ([x] ++ right)). rewrite <- IH. f_equal. cbn. lia.
Qed.

Lemma countToLeftWord_spec {C} (t : Terminal C) left right : tm_line t = rev left ++ right -> tm_pos t = zlen left ->
  countToLeftWord t = zlen left - zlen (wordStart left).
Proof.
  intros El Ep. unfold countToLeftWord. rewrite El, Ep. destruct (Z.eqb_spec (zlen left) 0) as [E|E].
  { apply zlen_zero in E as ->. done. }
  unfold zlen in E |- *. replace (Z.to_nat (Z.of_nat (length left) - 1)) with (length left - 1)%nat by lia.
  rewrite leftSpaces_spec. destruct (skipWhile_suffix (Z.eqb blank) left) as [m Em].
  set (s := skipWhile (Z.eqb blank) left) in *. assert (E' : rev left ++ right = rev s ++ rev m ++ right) by (rewrite Em, rev_app_distr; by rewrite app_assoc).
  rewrite E', leftWord_spec. done.
Qed.

Lemma countToRightWord_spec {C} (t : Terminal C) left right : tm_line t = rev left ++ right -> tm_pos t = zlen left ->
  countToRightWord t = zlen right - zlen (wordEnd right).
Proof.
  intros El Ep. unfold countToRightWord. rewrite El, Ep. replace (zlen left) with (zlen (rev left)) by (unfold zlen; by rewrite length_rev).
  by rewrite zdrop_app_zlen.
Qed.

(** *** The terminal is such an editor *)

Lemma zlen_rev {A} (l : list A) : zlen (rev l) = zlen l.
Proof. unfold zlen. by rewrite length_rev. Qed.

Section Editing.
Context {C : Type}.
Implicit Types t : Terminal C.

Definition views t (e : editor) : Prop :=
  tm_line t = ed_text e /\ tm_pos t = zlen (ed_left e) /\ ring_holds (tm_history t) (ed_past e) /\
  tm_historyIndex t = ed_index e /\ tm_historyPending t = ed_pending e /\ -1 <= ed_index e.

Definition kept t t' : Prop :=
  tm_c t' = tm_c t /\ tm_prompt t' = tm_prompt t /\ tm_echo t' = tm_echo t /\ tm_pasteActive t' = tm_pasteActive t /\
  tm_termWidth t' = tm_termWidth t /\ tm_remainder t' = tm_remainder t /\ tm_history t' = tm_history t.

Definition follows t t' (e : editor) : Prop := cursor_ok t' /\ views t' e /\ kept t t'.

Lemma kept_refl t : kept t t.
Proof. by unfold kept. Qed.

Lemma kept_trans t t1 t2 : kept t t1 -> kept t1 t2 -> kept t t2.
Proof. unfold kept. intros (?&?&?&?&?&?&?) (?&?&?&?&?&?&?). split_and!; congruence. Qed.

Lemma moved_follows t t' e l r : cursor_ok t -> views t e -> moved t t' (rev l ++ r) (zlen l) -> follows t t' (with_text e l r).
Proof.
  intros Ht (V1 & V2 & V3 & V4 & V5 & V6) H. split; [by eapply moved_cursor|].
  destruct H as (x & y & m & out & -> & _). by split.
Qed.

Lemma follows_same t e : cursor_ok t -> views t e -> follows t t e.
Proof. intros Ht Hv. split; [done|]. split; [done | apply kept_refl]. Qed.

Lemma view_text t e : views t e -> tm_line t = rev (ed_left e) ++ ed_right e /\ tm_pos t = zlen (ed_left e).
Proof. by intros (V1 & V2 & _). Qed.

Lemma with_text_id e : with_text e (ed_left e) (ed_right e) = e.
Proof. by destruct e. Qed.

Lemma goto_back t e n : cursor_ok t -> views t e -> (n <= length (ed_left e))%nat ->
  follows t (goto t (tm_pos t - Z.of_nat n)) (back e n).
Proof.
  intros Ht Hv Hn. destruct (view_text _ _ Hv) as [El Ep]. apply moved_follows; [done | done|].
  replace (zlen (drop n (ed_left e))) with (tm_pos t - Z.of_nat n) by (rewrite Ep; unfold zlen; rewrite length_drop; lia).
  rewrite app_assoc, <- rev_app_distr, take_drop, <- El. apply goto_moved; [done|]. rewrite Ep. unfold zlen. lia.
Qed.

Lemma goto_forth t e n : cursor_ok t -> views t e -> (n <= length (ed_right e))%nat ->
  follows t (goto t (tm_pos t + Z.of_nat n)) (forth e n).
Proof.
  intros Ht Hv Hn. destruct (view_text _ _ Hv) as [El Ep]. apply moved_follows; [done | done|].
  replace (zlen (rev (take n (ed_right e)) ++ ed_left e)) with (tm_pos t + Z.of_nat n)
    by (rewrite Ep; unfold zlen; rewrite length_app, length_rev, length_take; lia).
  rewrite rev_app_distr, rev_involutive, <- app_assoc, take_drop, <- El. apply goto_moved; [done|]. rewrite Ep. unfold zlen. lia.
Qed.

Lemma erase_follows t e m l : cursor_ok t -> views t e -> ed_left e = m ++ l ->
  exists t', eraseNPreviousChars t (zlen m) = Ret t' /\ follows t t' (with_text e l (ed_right e)).
Proof.
  intros Ht Hv Em. destruct (view_text _ _ Hv) as [El Ep]. rewrite Em, rev_app_distr, <- app_assoc in El.
  destruct (erase_moved t (rev l) (rev m) (ed_right e) Ht El) as (t' & E & H).
  { by rewrite <- rev_app_distr, zlen_rev, <- Em. }
  rewrite !zlen_rev in *. exists t'. split; [done|]. by apply moved_follows.
Qed.

Lemma add_follows t e key : cursor_ok t -> views t e ->
  exists t', addKeyToLine t key = Ret t' /\ follows t t' (with_text e (key :: ed_left e) (ed_right e)).
Proof.
  intros Ht Hv. destruct (view_text _ _ Hv) as [El Ep].
  destruct (addKey_moved t (rev (ed_left e)) (ed_right e) key Ht El) as (t' & E & H); [by rewrite zlen_rev|].
  exists t'. split; [done|]. apply moved_follows; [done | done|]. cbn [rev]. rewrite <- app_assoc, zlen_cons, Z.add_comm.
  by rewrite zlen_rev in H.
Qed.

Lemma setLine_follows t e text n : cursor_ok t -> views t e -> 0 <= n <= zlen text ->
  exists t', setLine t text n = Ret t' /\ follows t t' (set_text e text n).
Proof.
  intros Ht Hv Hn. destruct (setLine_moved t text n Ht) as (t' & E & H); [lia|]. exists t'. split; [done|].
  apply moved_follows; [done | done|]. rewrite rev_involutive, ztake_zdrop, zlen_rev, zlen_ztake by lia. done.
Qed.

Lemma showEntry_follows t e entry : cursor_ok t -> views t e ->
  exists t', showEntry t entry = Ret t' /\ follows t t' (showPast e entry).
Proof.
  intros Ht Hv. destruct (setLine_follows t e (decodeRunes entry) (zlen (decodeRunes entry)) Ht Hv) as (t' & E & H).
  { pose proof (zlen_nonneg (decodeRunes entry)). lia. }
  exists t'. split; [done|]. unfold set_text in H. by rewrite ztake_all, zdrop_all in H by lia.
Qed.

Lemma put_pending_views t e i p : -1 <= i -> views t e -> views (put_pending t i p) (with_index e i p).
Proof. intros Hi (V1 & V2 & V3 & V4 & V5 & V6). by split. Qed.

Lemma follows_pending t t' e i p : follows (put_pending t i p) t' e -> follows t t' e.
Proof. intros (H1 & H2 & H3). split; [done|]. split; [done|]. exact H3. Qed.

Lemma up_follows t e : cursor_ok t -> views t e -> exists t', historyUp t = Ret t' /\ follows t t' (ed_up e).
Proof.
  intros Ht Hv. assert (Hv' := Hv). destruct Hv' as (V1 & V2 & V3 & V4 & V5 & V6). unfold historyUp, ed_up.
  rewrite (ring_nth _ _ _ V3), V4, V5, V1 by lia. cbn [obind].
  destruct (_ !! _) as [entry|]; [|eexists; split; [done | by apply follows_same]].
  set (p := if _ =? _ then _ else _). edestruct (showEntry_follows (put_pending t (ed_index e + 1) p)) as (t' & E & H);
    [exact Ht | apply put_pending_views; [|exact Hv]; lia|].
  exists t'. split; [exact E|]. by eapply follows_pending.
Qed.

Lemma down_follows t e : cursor_ok t -> views t e -> exists t', historyDown t = Ret t' /\ follows t t' (ed_down e).
Proof.
  intros Ht Hv. assert (Hv' := Hv). destruct Hv' as (V1 & V2 & V3 & V4 & V5 & V6). unfold historyDown, ed_down.
  rewrite V4, V5. destruct (Z.eqb_spec (ed_index e) (-1)); [eexists; split; [done | by apply follows_same]|].
  destruct (Z.eqb_spec (ed_index e) 0) as [E0|].
  - destruct (showEntry_follows t e (ed_pending e) Ht Hv) as (t' & -> & H1 & H2 & H3). cbn [obind]. eexists. split; [done|].
    destruct H2 as (W1 & W2 & W3 & W4 & W5 & W6). rewrite W4, W5, E0.
    split; [done|]. split; [|exact H3]. unfold views. cbn. split_and!; done || lia.
  - rewrite (ring_nth _ _ _ V3) by lia. cbn [obind].
    destruct (_ !! _) as [entry|]; [|eexists; split; [done | by apply follows_same]].
    edestruct (showEntry_follows (put_pending t (ed_index e - 1) (ed_pending e))) as (t' & E & H);
      [exact Ht | apply put_pending_views; [|exact Hv]; lia|].
    exists t'. split; [exact E|]. by eapply follows_pending.
Qed.
Lemma insert_follows t e key : cursor_ok t -> views t e ->
  exists t', insertKey t key = Ret t' /\ follows t t' (ed_insert e key).
Proof.
  intros Ht Hv. unfold insertKey, ed_insert. destruct (view_text _ _ Hv) as [El _]. rewrite El. fold (ed_text e).
  destruct (isPrintable key); cbn [negb andb]; [|eexists; split; [done | by apply follows_same]].
  destruct (_ =? _); cbn [negb]; [eexists; split; [done | by apply follows_same] | by apply add_follows].
Qed.

Lemma complete_follows cb t e key : callback_ok cb -> cursor_ok t -> views t e ->
  exists t', completeKey cb t key = Ret t' /\ follows t t' (ed_complete cb e key).
Proof.
  intros Hcb Ht Hv. unfold completeKey, ed_complete. destruct (view_text _ _ Hv) as [El Ep].
  destruct cb as [f|]; [|by apply insert_follows]. pose proof (zlen_nonneg (ed_left e)). pose proof (zlen_nonneg (ed_right e)).
  rewrite El, Ep, <- (zlen_rev (ed_left e)), upto_ok, from_ok by (rewrite zlen_app, zlen_rev; lia). cbn [obind].
  rewrite ztake_app_zlen, zdrop_app_zlen.
  destruct (f _ _ _) as [[l p]|] eqn:Ef; [|by apply insert_follows].
  destruct (Hcb _ _ _ _ _ _ eq_refl Ef) as (a & b & -> & -> & Hval).
  assert (EL := encodeRunes_app a b). assert (Ha := Hval). apply Forall_app in Ha as [Ha _].
  pose proof (zlen_nonneg (encodeRunes a)). pose proof (zlen_nonneg (encodeRunes b)). pose proof (zlen_nonneg a). pose proof (zlen_nonneg b).
  rewrite !(proj2 (Z.ltb_ge _ _)) by (rewrite ?EL, ?zlen_app; lia). cbn [orb]. apply setLine_follows; [done | done|].
  unfold runeCount. rewrite EL, ztake_app_zlen, <- EL, !decodeRunes_encode, zlen_app by done. lia.
Qed.

Lemma keep_follows (m : outcome (Terminal C)) t e :
  (exists t', m = Ret t' /\ follows t t' e) ->
  exists t', (let? t' := m in Ret (None, t')) = Ret (@None bytes, t') /\ follows t t' e.
Proof. intros (t' & -> & H). by exists t'. Qed.

Lemma pure_follows t t' e : follows t t' e -> exists t1, Ret (@None bytes, t') = Ret (None, t1) /\ follows t t1 e.
Proof. intros. by exists t'. Qed.

Lemma left_of_zero t e : views t e -> tm_pos t = 0 -> ed_left e = [].
Proof. intros (V1 & V2 & _) H. apply zlen_zero. lia. Qed.

Lemma right_of_end t e : views t e -> tm_pos t = zlen (tm_line t) -> ed_right e = [].
Proof.
  intros Hv H. destruct (view_text _ _ Hv) as [El Ep]. apply zlen_zero. rewrite El, zlen_app, zlen_rev in H. lia.
Qed.

Lemma back_none e n : ed_left e = [] -> back e n = e.
Proof. intros E. unfold back. rewrite E, drop_nil, take_nil. destruct e; cbn in *. by subst. Qed.

Lemma forth_none e n : ed_right e = [] -> forth e n = e.
Proof. intros E. unfold forth. rewrite E, drop_nil, take_nil. destruct e; cbn in *. by subst. Qed.

Lemma move_left t e n : cursor_ok t -> views t e -> (1 <= length (ed_left e) -> n <= length (ed_left e))%nat ->
  follows t (if tm_pos t =? 0 then t else goto t (tm_pos t - Z.of_nat n)) (back e n).
Proof.
  intros Ht Hv Hn. destruct (Z.eqb_spec (tm_pos t) 0) as [E|E].
  - rewrite back_none by by eapply left_of_zero. by apply follows_same.
  - apply goto_back; [done | done|]. destruct (view_text _ _ Hv) as [_ Ep]. apply Hn. unfold zlen in Ep. lia.
Qed.

Lemma move_right t e n : cursor_ok t -> views t e -> (1 <= length (ed_right e) -> n <= length (ed_right e))%nat ->
  follows t (if tm_pos t =? zlen (tm_line t) then t else goto t (tm_pos t + Z.of_nat n)) (forth e n).
Proof.
  intros Ht Hv Hn. destruct (Z.eqb_spec (tm_pos t) (zlen (tm_line t))) as [E|E].
  - rewrite forth_none by by eapply right_of_end. by apply follows_same.
  - apply goto_forth; [done | done|]. destruct (view_text _ _ Hv) as [El Ep]. apply Hn.
    rewrite El, Ep, zlen_app, zlen_rev in E. unfold zlen in E. lia.
Qed.

Lemma ctrlD_follows t e : cursor_ok t -> views t e ->
  exists t', (if tm_pos t <? zlen (tm_line t) then
                let? t' := eraseNPreviousChars (put_line t (tm_line t) (tm_pos t + 1)) 1 in Ret (None, t')
              else Ret (None, t)) = Ret (@None bytes, t') /\ follows t t' (with_text e (ed_left e) (drop 1 (ed_right e))).
Proof.
  intros Ht Hv. destruct (view_text _ _ Hv) as [El Ep]. destruct (Z.ltb_spec (tm_pos t) (zlen (tm_line t))) as [Hlt|Hge].
  - destruct (ed_right e) as [|r right] eqn:Er; [rewrite El, Ep, app_nil_r, zlen_rev in Hlt; lia|].
    set (t1 := put_line t (tm_line t) (tm_pos t + 1)). assert (H1 := moved_put t (tm_line t) (tm_pos t + 1) Ht).
    assert (H2 : follows t t1 (with_text e (r :: ed_left e) right)).
    { apply moved_follows; [done | done|]. cbn [rev]. rewrite <- app_assoc, zlen_cons, Z.add_comm, <- Ep. cbn [app]. by rewrite <- El. }
    destruct H2 as (C2 & V2 & K2). destruct (erase_follows t1 _ [r] (ed_left e) C2 V2 eq_refl) as (t' & E & C3 & V3 & K3).
    change (zlen [r]) with 1 in E. rewrite E. cbn [obind]. exists t'. split; [done|]. split; [done|]. split; [done|]. by eapply kept_trans.
  - assert (Er : ed_right e = []) by (eapply right_of_end; [done|]; rewrite El, Ep, zlen_app, zlen_rev in *; pose proof (zlen_nonneg (ed_right e)); lia).
    exists t. split; [done|]. rewrite Er. cbn [drop]. rewrite <- Er, with_text_id. by apply follows_same.
Qed.
Lemma backspace_follows t e : cursor_ok t -> views t e ->
  exists t', (if tm_pos t =? 0 then Ret (None, t) else let? t' := eraseNPreviousChars t 1 in Ret (None, t')) = Ret (@None bytes, t') /\
             follows t t' (with_text e (drop 1 (ed_left e)) (ed_right e)).
Proof.
  intros Ht Hv. destruct (Z.eqb_spec (tm_pos t) 0) as [E|E].
  - exists t. split; [done|]. assert (En := left_of_zero _ _ Hv E). rewrite En. cbn [drop]. rewrite <- En, with_text_id. by apply follows_same.
  - destruct (view_text _ _ Hv) as [_ Ep]. destruct (ed_left e) as [|r l] eqn:Er; [by rewrite Ep in E|].
    apply keep_follows. by apply (erase_follows t e [r] l).
Qed.

Lemma suffix_count {A} (m l k : list A) : l = m ++ k -> zlen l - zlen k = zlen m /\ zlen m = Z.of_nat (length l - length k).
Proof. intros ->. unfold zlen. rewrite length_app. lia. Qed.

Lemma word_left_follows t e : cursor_ok t -> views t e ->
  follows t (goto t (tm_pos t - countToLeftWord t)) (back e (length (ed_left e) - length (wordStart (ed_left e)))).
Proof.
  intros Ht Hv. destruct (view_text _ _ Hv) as [El Ep]. rewrite (countToLeftWord_spec t _ _ El Ep).
  destruct (wordStart_suffix (ed_left e)) as [m Em]. destruct (suffix_count _ _ _ Em) as [-> ->]. apply goto_back; [done | done | lia].
Qed.

Lemma word_right_follows t e : cursor_ok t -> views t e ->
  follows t (goto t (tm_pos t + countToRightWord t)) (forth e (length (ed_right e) - length (wordEnd (ed_right e)))).
Proof.
  intros Ht Hv. destruct (view_text _ _ Hv) as [El Ep]. rewrite (countToRightWord_spec t _ _ El Ep).
  destruct (wordEnd_suffix (ed_right e)) as [m Em]. destruct (suffix_count _ _ _ Em) as [-> ->]. apply goto_forth; [done | done | lia].
Qed.

Lemma delete_word_follows t e : cursor_ok t -> views t e ->
  exists t', eraseNPreviousChars t (countToLeftWord t) = Ret t' /\ follows t t' (with_text e (wordStart (ed_left e)) (ed_right e)).
Proof.
  intros Ht Hv. destruct (view_text _ _ Hv) as [El Ep]. rewrite (countToLeftWord_spec t _ _ El Ep).
  destruct (wordStart_suffix (ed_left e)) as [m Em]. destruct (suffix_count _ _ _ Em) as [-> _]. by apply erase_follows.
Qed.

Lemma home_follows t e : cursor_ok t -> views t e -> follows t (if tm_pos t =? 0 then t else goto t 0) (back e (length (ed_left e))).
Proof.
  intros Ht Hv. destruct (view_text _ _ Hv) as [El Ep].
  replace (goto t 0) with (goto t (tm_pos t - Z.of_nat (length (ed_left e)))) by (f_equal; rewrite Ep; unfold zlen; lia).
  apply move_left; [done | done | lia].
Qed.

Lemma end_follows t e : cursor_ok t -> views t e ->
  follows t (if tm_pos t =? zlen (tm_line t) then t else goto t (zlen (tm_line t))) (forth e (length (ed_right e))).
Proof.
  intros Ht Hv. destruct (view_text _ _ Hv) as [El Ep].
  replace (goto t (zlen (tm_line t))) with (goto t (tm_pos t + Z.of_nat (length (ed_right e))))
    by (f_equal; rewrite El, Ep, zlen_app, zlen_rev; unfold zlen; lia). apply move_right; [done | done | lia].
Qed.

Lemma delete_line_follows t e : cursor_ok t -> views t e -> exists t', deleteLine t = Ret t' /\ follows t t' (with_text e (ed_left e) []).
Proof.
  intros Ht Hv. destruct (view_text _ _ Hv) as [El Ep].
  destruct (deleteLine_moved t (rev (ed_left e)) (ed_right e) Ht El) as (t' & -> & H); [by rewrite zlen_rev|].
  exists t'. split; [done|]. apply moved_follows; [done | done|]. rewrite app_nil_r. by rewrite zlen_rev in H.
Qed.

Lemma clear_follows t e : cursor_ok t -> views t e -> exists t', clearScreen t = Ret t' /\ follows t t' e.
Proof.
  intros Ht Hv. destruct (view_text _ _ Hv) as [El Ep].
  destruct (clearScreen_moved t Ht) as (t' & -> & H); [rewrite Ep; apply zlen_nonneg|]. exists t'. split; [done|].
  assert (Hf : follows t t' (with_text e (ed_left e) (ed_right e))) by (apply moved_follows; [done | done|]; by rewrite <- El, <- Ep).
  by rewrite with_text_id in Hf.
Qed.

Lemma handleKey_follows cb t e key : cursor_ok t -> views t e -> callback_ok cb ->
  exists t', handleKey cb t key = Ret (fst (edit cb (tm_pasteActive t) e key), t') /\
             follows t t' (snd (edit cb (tm_pasteActive t) e key)).
Proof.
  intros Ht Hv Hcb. destruct (view_text _ _ Hv) as [El Ep]. unfold handleKey, edit.
  destruct (tm_pasteActive t && _); cbn [fst snd]; [by apply keep_follows, add_follows|].
  destruct (key =? keyBackspace); cbn [fst snd]; [by apply backspace_follows|].
  destruct (key =? keyAltLeft); cbn [fst snd]; [by apply pure_follows, word_left_follows|].
  destruct (key =? keyAltRight); cbn [fst snd]; [by apply pure_follows, word_right_follows|].
  destruct (key =? keyLeft); cbn [fst snd]; [apply pure_follows, (move_left t e 1); try done; lia|].
  destruct (key =? keyRight); cbn [fst snd]; [apply pure_follows, (move_right t e 1); try done; lia|].
  destruct (key =? keyHome); cbn [fst snd]; [by apply pure_follows, home_follows|].
  destruct (key =? keyEnd); cbn [fst snd]; [by apply pure_follows, end_follows|].
  destruct (key =? keyUp); cbn [fst snd]; [by apply keep_follows, up_follows|].
  destruct (key =? keyDown); cbn [fst snd]; [by apply keep_follows, down_follows|].
  destruct (key =? keyEnter); cbn [fst snd].
  { destruct (enterKey_moved t Ht) as (t' & -> & H). exists t'. rewrite El. split; [done|]. by apply moved_follows. }
  destruct (key =? keyDeleteWord); cbn [fst snd]; [by apply keep_follows, delete_word_follows|].
  destruct (key =? keyDeleteLine); cbn [fst snd]; [by apply keep_follows, delete_line_follows|].
  destruct (key =? keyCtrlD); cbn [fst snd]; [by apply ctrlD_follows|].
  destruct (key =? keyCtrlU); cbn [fst snd].
  { apply keep_follows. rewrite Ep. apply erase_follows; [done | done | by rewrite app_nil_r]. }
  destruct (key =? keyClearScreen); cbn [fst snd]; [by apply keep_follows, clear_follows|].
  by apply keep_follows, complete_follows.
Qed.
End Editing.

(** ** The terminal never panics *)


Lemma escapeKey_shorter b k rest : escapeKey b = Some (k, rest) -> (length rest < length b)%nat.
Proof. unfold escapeKey. intros H. repeat case_match; simplify_eq; cbn [length]; lia. Qed.

Lemma bytesToKey_shorter b paste key rest : bytesToKey b paste = (key, rest) -> key <> RuneError -> (length rest < length b)%nat.
Proof.
  unfold bytesToKey. destruct b as [|b0 b]; [by intros [= <- <-]|].
  destruct (if paste then None else controlKey (b2z b0)) as [k|]; [intros [= <- <-] _; cbn; lia|].
  destruct (negb (b2z b0 =? keyEscape)).
  { destruct (negb (fullRune (b0 :: b))); [by intros [= <- <-]|]. intros Hd _. by eapply decodeRune_length. }
  destruct (if paste then None else escapeKey (b0 :: b)) as [[k r]|] eqn:Ek.
  { intros [= <- <-] _. destruct paste; [done|]. by eapply escapeKey_shorter. }
  pose proof (cutAt_spec endsSequence (b0 :: b)) as Hc.
  destruct (negb paste && _); [intros [= <- <-] _; rewrite length_drop; cbn; lia|].
  destruct (paste && _); [intros [= <- <-] _; rewrite length_drop; cbn; lia|].
  destruct (cutAt endsSequence (b0 :: b)) as [[u [|c v]]|]; try by intros [= <- <-].
  intros [= <- <-] _. destruct Hc as (-> & _). rewrite length_app. cbn. lia.
Qed.

Section Steps.
Context {C : Type} (cb : option callback) `{!Writer C}.
Implicit Types t : Terminal C.

Definition tm_ok t : Prop := cursor_ok t /\ exists e, views t e.

Lemma moved_ok t t' l p : tm_ok t -> moved t t' l p -> 0 <= p <= zlen l -> tm_ok t'.
Proof.
  intros [Ht [e Hv]] H Hp. destruct (moved_follows t t' e (rev (ztake p l)) (zdrop p l) Ht Hv) as (C' & V' & _).
  { by rewrite rev_involutive, ztake_zdrop, zlen_rev, zlen_ztake by lia. }
  by split; [|eexists].
Qed.

Lemma ok_pos t : tm_ok t -> 0 <= tm_pos t <= zlen (tm_line t).
Proof.
  intros [_ [e Hv]]. destruct (view_text _ _ Hv) as [-> ->]. rewrite zlen_app, zlen_rev.
  pose proof (zlen_nonneg (ed_left e)). pose proof (zlen_nonneg (ed_right e)). lia.
Qed.

Lemma stays_ok t t' : tm_ok t -> stays t t' -> tm_ok t'.
Proof. intros Ht H. eapply moved_ok; [done | exact H | by apply ok_pos]. Qed.

Lemma flush_ok t : tm_ok t -> tm_ok (flush t).
Proof. intros Ht. unfold flush. destruct (w_Write _ _) as [[n e] c]. exact Ht. Qed.

Lemma write_ok t l : tm_ok t -> exists t', writeLine t l = Ret t' /\ tm_ok t'.
Proof. intros Ht. destruct (writeLine_stays t l (proj1 Ht)) as (t' & E & H). exists t'. split; [done | by eapply stays_ok]. Qed.

Lemma goto_ok t : tm_ok t -> tm_ok (moveCursorToPos t (tm_pos t)).
Proof. intros Ht. eapply stays_ok; [done|]. apply moveCursorToPos_stays; [apply Ht | apply prompt_pos; by apply ok_pos]. Qed.

Lemma queue_ok t rs : tm_ok t -> tm_ok (queue t rs).
Proof. intros Ht. exact Ht. Qed.

Lemma cursor_put_ok t x y : tm_ok t -> 0 <= x < tm_termWidth t -> 0 <= y -> tm_ok (put_cursor t x y).
Proof. intros [(Hw & _ & _) Hv] Hx Hy. by split. Qed.

Lemma advance_ok t n : tm_ok t -> 0 <= n -> tm_ok (advanceCursor t n).
Proof. intros Ht Hn. eapply stays_ok; [done|]. by apply advanceCursor_stays; [apply Ht|]. Qed.

Lemma showPrompt_ok t : tm_ok t -> exists t', showPrompt t = Ret t' /\ tm_ok t'.
Proof.
  intros Ht. unfold showPrompt. destruct (_ && _); [|by eexists]. destruct (write_ok t (tm_prompt t) Ht) as (t' & -> & H').
  eexists. split; [done | by apply flush_ok].
Qed.

(** The keys that have been read are enough fuel. *)
Lemma keysLoop_ok fuel rest b t : callback_ok cb -> tm_ok t -> (length rest <= fuel)%nat ->
  exists r rest' b' t', keysLoop cb fuel rest b t = Ret (r, rest', b', t') /\ tm_ok t'.
Proof.
  intros Hcb. revert rest b t. induction fuel as [|fuel IH]; intros rest b t Ht Hf; cbn [keysLoop];
    destruct (bytesToKey rest (tm_pasteActive t)) as [key rest'] eqn:Ek; (destruct (Z.eqb_spec key RuneError); [by eauto 10|]);
    apply bytesToKey_shorter in Ek; try done; [lia|].
  destruct (_ && (key =? keyCtrlD) && _); [by eauto 10|].
  destruct (_ && (key =? keyPasteStart)); [apply IH; [exact Ht | lia]|].
  destruct (_ && (key =? keyPasteEnd)); [apply IH; [exact Ht | lia]|].
  destruct Ht as [Ht [e Hv]]. destruct (handleKey_follows cb t e key Ht Hv Hcb) as (t1 & -> & C1 & V1 & _). cbn [obind].
  destruct (fst _) as [line|]; [do 4 eexists; split; [done|]; by split; [|eexists]|].
  apply IH; [by split; [|eexists] | lia].
Qed.

Lemma readPass_ok b t : callback_ok cb -> tm_ok t -> exists r b' t', readPass cb b t = Ret (r, b', t') /\ tm_ok t'.
Proof.
  intros Hcb Ht. unfold readPass. destruct (keysLoop_ok (length (tm_remainder t)) (tm_remainder t) b t Hcb Ht) as (r & rest & b' & t1 & -> & H1); [lia|].
  cbn [obind]. destruct r as [line| |]; [|by eauto 10 | do 3 eexists; split; [done|]; by apply flush_ok].
  set (t2 := flush _). assert (H2 : tm_ok t2) by by apply flush_ok. destruct (tm_echo t2); cbn [obind]; [|by eauto 10].
  destruct H2 as [C2 [e (V1 & V2 & V3 & V4 & V5 & V6)]]. destruct (ring_add _ _ line V3) as (h & -> & Hh). cbn [obind].
  do 3 eexists. split; [done|]. split; [exact C2|]. exists (mkEditor (ed_left e) (ed_right e) (remember (ed_past e) line) (-1) (ed_pending e)).
  unfold views. cbn. split_and!; done || lia.
Qed.

Lemma clearUp_ok n t : tm_ok t -> Z.of_nat n <= tm_cursorY t -> tm_ok (clearUp n t).
Proof.
  revert t. induction n as [|n IH]; intros t Ht Hn; cbn [clearUp]; [done|]. apply IH; cbn; [|lia].
  apply queue_ok, cursor_put_ok; cbn; [exact Ht | apply Ht | lia].
Qed.

Lemma clearDown_ok n t : tm_ok t -> tm_ok (clearDown n t).
Proof.
  revert t. induction n as [|n IH]; intros t Ht; cbn [clearDown]; [done|]. apply IH.
  destruct Ht as [(Hw & Hx & Hy) Hv]. apply queue_ok, cursor_put_ok; cbn; [by split | done | lia].
Qed.

Lemma Write_ok t buf : tm_ok t -> exists n e t', Write t buf = Ret (n, e, t') /\ tm_ok t'.
Proof.
  intros Ht. unfold Write. destruct (_ && _); [destruct (writeWithCRLF _ _) as [[n e] c]; by eauto 10|].
  set (t1 := clearLineToRight (put_cursor _ 0 _)). assert (H1 : tm_ok t1).
  { destruct Ht as [(Hw & Hx & Hy) Hv]. apply queue_ok, cursor_put_ok; cbn; [by split | lia | lia]. }
  set (t2 := clearUp _ t1). assert (H2 : tm_ok t2). { apply clearUp_ok; [done|]. destruct H1 as [(_ & _ & Hy) _]. lia. }
  destruct (w_Write _ _) as [[n1 [e1|]] c1]; [by eauto 10|]. cbn zeta.
  destruct (writeWithCRLF _ _) as [[n2 [e2|]] c2]; [by eauto 10|].
  destruct (write_ok (put_conn (put_out (put_conn t2 c1) []) c2) (tm_prompt t2) H2) as (t3 & E3 & H3).
  cbn [tm_prompt put_conn put_out] in *. rewrite E3. cbn [obind].
  assert (exists t4, (if tm_echo t3 then writeLine t3 (tm_line t3) else Ret t3) = Ret t4 /\ tm_ok t4) as (t4 & -> & H4).
  { destruct (tm_echo t3); [by apply write_ok | by eexists]. }
  cbn [obind]. assert (H5 := goto_ok _ H4). destruct (w_Write _ _) as [[n5 [e5|]] c5]; by eauto 10.
Qed.

Lemma repaint_ok t n : tm_ok t -> exists t', clearAndRepaintLinePlusNPrevious t n = Ret t' /\ tm_ok t'.
Proof.
  intros Ht. unfold clearAndRepaintLinePlusNPrevious. set (t1 := clearLineToRight (put_cursor _ 0 0)).
  assert (H1 : tm_ok t1). { destruct Ht as [(Hw & Hx & Hy) Hv]. apply queue_ok, cursor_put_ok; cbn; [by split | lia | lia]. }
  set (t2 := clearDown _ t1). assert (H2 : tm_ok t2) by by apply clearDown_ok. set (t3 := put_cursor _ 0 0).
  assert (H3 : tm_ok t3). { apply cursor_put_ok; cbn; [exact H2 | destruct H2 as [(Hw & _) _]; lia | lia]. }
  set (t4 := queue t3 _). set (t5 := advanceCursor t4 _). assert (H5 : tm_ok t5) by (apply advance_ok; [exact H3 | apply visualLength_nonneg]).
  destruct (write_ok t5 (tm_line t5) H5) as (t6 & -> & H6). cbn [obind]. eexists. split; [done | by apply goto_ok].
Qed.

Lemma SetSize_ok t w h : tm_ok t -> 0 <= w -> exists e t', SetSize t w h = Ret (e, t') /\ tm_ok t'.
Proof.
  intros Ht Hw. unfold SetSize. set (w' := if w =? 0 then 1 else w). assert (Hw' : 0 < w') by (subst w'; destruct (Z.eqb_spec w 0); lia).
  destruct Ht as [(Hw0 & Hx & Hy) Hv]. cbn [tm_line put_size tm_cursorX tm_cursorY tm_maxLine tm_termWidth].
  destruct (Z.eqb_spec w' (tm_termWidth t)) as [E|E]; [do 2 eexists; split; [done|]; split; [unfold cursor_ok; cbn; lia | exact Hv]|].
  destruct ((zlen (tm_line t) =? 0) && (tm_cursorX t =? 0) && (tm_cursorY t =? 0)) eqn:Ez.
  { apply andb_true_iff in Ez as [[_ Ex]%andb_true_iff _]. apply Z.eqb_eq in Ex. do 2 eexists. split; [done|].
    split; [unfold cursor_ok; cbn; lia | exact Hv]. }
  assert (exists t1, (if w' <? tm_termWidth t
                      then clearAndRepaintLinePlusNPrevious
                             (put_cursor (put_size t w' h) (if w' <=? tm_cursorX t then w' - 1 else tm_cursorX t) (tm_cursorY t * 2)) (tm_maxLine t * 2)
                      else clearAndRepaintLinePlusNPrevious (put_size t w' h) (tm_maxLine t)) = Ret t1 /\ tm_ok t1) as (t1 & -> & H1).
  { destruct (Z.ltb_spec w' (tm_termWidth t)); apply repaint_ok; (split; [unfold cursor_ok; cbn | exact Hv]); [|lia].
    destruct (Z.leb_spec w' (tm_cursorX t)); lia. }
  cbn [obind]. destruct (w_Write _ _) as [[n e] c]. by do 2 eexists.
Qed.
End Steps.

(** ** What is typed is what is read *)

(** A character that stands for itself. *)
Definition plainKey (r : Z) : Prop := 32 <= r /\ r <> keyBackspace /\ validRune r = true /\ r <> RuneError.

Lemma encode_first r : validRune r = true ->
  exists b u, encodeRune r = b :: u /\ (b2z b = r /\ r < 0x80 \/ 0xC2 <= b2z b /\ 0x80 <= r).
Proof.
  intros Hv. unfold encodeRune. rewrite Hv. apply validRune_spec in Hv. unfold encodeValid.
  destruct (Z.ltb_spec r 0x80); [do 2 eexists; split; [done|]; left; utf8_bytes; lia|].
  destruct (Z.ltb_spec r 0x800); [|destruct (Z.ltb_spec r 0x10000)]; (do 2 eexists; split; [done|]; right; utf8_bytes; dlia).
Qed.

(** Compares a number with constants it is far from. *)
Ltac not_key := repeat match goal with |- context[?a =? ?b] => replace (a =? b) with false by (symmetry; apply Z.eqb_neq; lia) end.

Lemma ordinary_byte b : b2z b = 4 \/ b2z b = 13 \/ 32 <= b2z b -> controlKey (b2z b) = None /\ (b2z b =? keyEscape) = false.
Proof. intros Hb. unfold controlKey, keyEscape. generalize dependent (b2z b). intros z Hz. by not_key. Qed.

Lemma whole_key r rest p : validRune r = true -> r = 4 \/ r = 13 \/ 32 <= r -> bytesToKey (encodeRune r ++ rest) p = (r, rest).
Proof.
  intros Hv Hr. destruct (decode_encode r rest Hv) as [Hd Hf]. destruct (encode_first r Hv) as (b & u & E & Hb).
  rewrite E in *. unfold bytesToKey. cbn [app] in *. destruct (ordinary_byte b) as [-> ->]; [lia|].
  rewrite Hf, Hd. by destruct p.
Qed.

Lemma partial_key r s u p : validRune r = true -> encodeRune r = s ++ u -> u <> [] -> bytesToKey s p = (RuneError, s) /\ zlen s <= 3.
Proof.
  intros Hv E Hu. destruct s as [|b s]; [by split|]. destruct (partial_rune r (b :: s) u Hv E ltac:(done) Hu) as (Hf & b' & v & [= <- <-] & Hb).
  split.
  - unfold bytesToKey. destruct (ordinary_byte b) as [-> ->]; [lia|]. rewrite Hf. by destruct p.
  - assert (Hl : (length (encodeRune r) <= 4)%nat) by (unfold encodeRune, encodeValid; repeat case_match; cbn; lia).
    rewrite E, length_app in Hl. destruct u; [done|]. unfold zlen. cbn [length] in *. lia.
Qed.

Lemma edit_plain e r : plainKey r -> zlen (ed_text e) < maxLineLength ->
  edit None false e r = (None, with_text e (r :: ed_left e) (ed_right e)).
Proof.
  intros (H1 & H2 & H3 & H4) Hl. apply validRune_spec in H3. unfold edit, ed_complete, ed_insert, isPrintable. cbn [andb].
  unfold keyBackspace, keyAltLeft, keyAltRight, keyLeft, keyRight, keyHome, keyEnd, keyUp, keyDown, keyEnter, keyDeleteWord, keyDeleteLine,
    keyCtrlD, keyCtrlU, keyClearScreen in *. not_key. rewrite (proj2 (Z.leb_le 32 r)) by lia.
  replace ((0xd800 <=? r) && (r <=? 0xdbff)) with false; [done|].
  symmetry. apply andb_false_iff. rewrite !Z.leb_gt. lia.
Qed.

Section Typing.
Context {C : Type} `{!Writer C}.
Implicit Types t : Terminal C.

(** The next key of the input is handled. *)
Lemma keysLoop_plain fuel r s b t e : plainKey r -> cursor_ok t -> views t e -> tm_pasteActive t = false ->
  zlen (ed_text e) < maxLineLength -> (length (encodeRune r ++ s) <= fuel)%nat ->
  exists t', follows t t' (with_text e (r :: ed_left e) (ed_right e)) /\
    keysLoop None fuel (encodeRune r ++ s) b t = keysLoop None (Nat.pred fuel) s false t' /\ (length s <= Nat.pred fuel)%nat.
Proof.
  intros Hr Ht Hv Hp Hl Hf. assert (Hr' := Hr). destruct Hr' as (H1 & H2 & H3 & H4). assert (Hs := H3). apply validRune_spec in Hs.
  destruct (encode_first r H3) as (b0 & u & E & _). destruct fuel as [|fuel]; [rewrite E in Hf; cbn in Hf; lia|].
  destruct (handleKey_follows None t e r Ht Hv) as (t' & Ek & Hk); [by intros ? ? ? ? ? ? [=]|]. rewrite Hp, edit_plain in Ek, Hk by done.
  exists t'. split; [done|]. split; [|rewrite E in Hf; cbn in Hf |- *; rewrite length_app in Hf; lia].
  cbn [keysLoop Nat.pred]. rewrite whole_key by (done || lia). rewrite (proj2 (Z.eqb_neq r RuneError)) by done.
  rewrite Hp. cbn [negb andb]. unfold keyCtrlD, keyPasteStart. not_key. cbn [andb]. rewrite Ek. done.
Qed.

Lemma keysLoop_enter fuel s b t e : cursor_ok t -> views t e -> tm_pasteActive t = false -> (length s < fuel)%nat ->
  exists t', follows t t' (with_text e [] []) /\
    keysLoop None fuel (x0d :: s) b t = Ret (KLine (encodeRunes (ed_text e)), s, false, t').
Proof.
  intros Ht Hv Hp Hf. destruct fuel as [|fuel]; [lia|].
  destruct (handleKey_follows None t e 13 Ht Hv) as (t' & Ek & Hk); [by intros ? ? ? ? ? ? [=]|]. rewrite Hp in Ek, Hk. cbn [edit] in Ek, Hk.
  exists t'. split; [exact Hk|]. cbn [keysLoop]. assert (Hb := whole_key 13 s (tm_pasteActive t) eq_refl (or_intror (or_introl eq_refl))).
  change (encodeRune 13 ++ s) with (x0d :: s) in Hb. rewrite Hb, Hp. cbn [negb andb].
  change (13 =? RuneError) with false. change (13 =? keyCtrlD) with false. change (13 =? keyPasteStart) with false. cbn [andb]. rewrite Ek. done.
Qed.

Definition typed (e : editor) (text : list Z) : editor := with_text e (rev text ++ ed_left e) [].

(** What has been read ends in the middle of the text, or goes past its end. *)
Definition textPart (t : Terminal C) (e : editor) (text : list Z) (future tail s : bytes) (m : outcome (keysResult * bytes * bool * Terminal C)) : Prop :=
  (exists done todo s' b t', text = done ++ todo /\ m = Ret (KMore, s', b, t') /\ s' ++ future = encodeRunes todo ++ x0d :: tail /\
     zlen s' <= 3 /\ future <> [] /\ follows t t' (typed e done)) \/
  (exists s' t', m = Ret (KLine (encodeRunes (ed_text (typed e text))), s', false, t') /\ s' ++ future = tail /\ zlen s' <= zlen s /\
     follows t t' (with_text e [] [])).

Lemma typed_cons e r text : typed (with_text e (r :: ed_left e) []) text = typed e (r :: text).
Proof. unfold typed, with_text. cbn. by rewrite <- app_assoc. Qed.

Lemma typed_nil e : ed_right e = [] -> typed e [] = e.
Proof. intros E. destruct e. cbn in E. by subst. Qed.

Lemma textPart_cons t t1 e r text future tail k s m : ed_right e = [] ->
  follows t t1 (with_text e (r :: ed_left e) []) -> zlen k <= zlen s ->
  textPart t1 (with_text e (r :: ed_left e) []) text future tail k m -> textPart t e (r :: text) future tail s m.
Proof.
  intros Er (C1 & V1 & K1) Hks [(dn & todo & s' & b' & t' & E1 & E2 & E3 & E4 & E5 & C2 & V2 & K2)|(s' & t' & E1 & E2 & E3 & C2 & V2 & K2)];
    [left | right]; rewrite typed_cons in *.
  - exists (r :: dn), todo, s', b', t'. rewrite E1. split_and!; try done. split; [done|]. split; [done | by eapply kept_trans].
  - exists s', t'. split_and!; try done; [lia|]. split; [done|]. split; [done | by eapply kept_trans].
Qed.

Lemma keysLoop_typed text fuel s future tail b t e : Forall plainKey text -> cursor_ok t -> views t e -> ed_right e = [] ->
  tm_pasteActive t = false -> zlen (ed_left e) + zlen text <= maxLineLength -> s ++ future = encodeRunes text ++ x0d :: tail ->
  (length s <= fuel)%nat -> textPart t e text future tail s (keysLoop None fuel s b t).
Proof.
  intros Htext. revert fuel s b t e. induction Htext as [|r text Hr _ IH]; intros fuel s b t e Ht Hv Er Hp Hl Hs Hf.
  - cbn in Hs. destruct s as [|c s]; [left; exists [], [], [], b, t|right].
    + split_and!; [done | by destruct fuel | done | done | by destruct future | by rewrite typed_nil; [apply follows_same|]].
    + cbn [app] in Hs. injection Hs as -> Hs. destruct (keysLoop_enter fuel s b t e Ht Hv Hp) as (t' & Hk & ->); [cbn in Hf; lia|].
      exists s, t'. rewrite typed_nil, zlen_cons by done. split_and!; [done | done | lia | done].
  - change (encodeRunes (r :: text)) with (encodeRune r ++ encodeRunes text) in Hs. rewrite <- app_assoc in Hs.
    assert (whole : forall k, s = encodeRune r ++ k -> k ++ future = encodeRunes text ++ x0d :: tail ->
                    textPart t e (r :: text) future tail s (keysLoop None fuel s b t)).
    { intros k -> Hk. rewrite zlen_cons in Hl. pose proof (zlen_nonneg text) as Htl.
      destruct (keysLoop_plain fuel r k b t e Hr Ht Hv Hp) as (t1 & F1 & -> & Hf1);
        [unfold ed_text; rewrite Er, app_nil_r, zlen_rev; lia | done|]. rewrite Er in F1.
      eapply (textPart_cons _ _ _ _ _ _ _ k); [done | exact F1 | rewrite zlen_app; pose proof (zlen_nonneg (encodeRune r)); lia|]. destruct F1 as (C1 & V1 & K1).
      apply IH; [done | done | done | | cbn [ed_left with_text]; rewrite zlen_cons; lia | done | done].
      destruct K1 as (_ & _ & _ & -> & _). done. }
    apply app_eq_inv in Hs as [(k & -> & Hs)|(k & Ek & Hs)]; [by apply (whole k)|].
    destruct (decide (k = [])) as [->|Hk]; [apply (whole []); [by rewrite app_nil_r in * | done]|].
    left. destruct (partial_key r s k (tm_pasteActive t) (proj1 (proj2 (proj2 Hr))) Ek Hk) as [Hb Hs3].
    exists [], (r :: text), s, b, t. split_and!; [done | | | done | by rewrite Hs; destruct k | by rewrite typed_nil; [apply follows_same|]].
    + destruct fuel; cbn [keysLoop]; rewrite Hb; done.
    + rewrite Hs, app_assoc, <- Ek. change (encodeRunes (r :: text)) with (encodeRune r ++ encodeRunes text). by rewrite <- app_assoc.
Qed.

(** The editor after a line has been entered. *)
Definition entered (echo : bool) (e : editor) (line : bytes) : editor :=
  if echo then mkEditor [] [] (remember (ed_past e) line) (-1) (ed_pending e) else with_text e [] [].

Definition same_mode t t' : Prop := tm_echo t' = tm_echo t /\ tm_pasteActive t' = tm_pasteActive t.

Lemma flush_view t e : cursor_ok t -> views t e -> let t' := flush t in
  cursor_ok t' /\ views t' e /\ same_mode t t' /\ tm_remainder t' = tm_remainder t.
Proof. intros Ht Hv. unfold flush. destruct (w_Write _ _) as [[n e'] c]. cbn. by split_and!. Qed.

Lemma follows_mode t t' e : follows t t' e -> same_mode t t'.
Proof. intros (_ & _ & K). unfold kept in K. by destruct K as (_ & _ & ? & ? & _). Qed.

Lemma readPass_typed text future tail b t e : Forall plainKey text -> cursor_ok t -> views t e -> ed_right e = [] ->
  tm_pasteActive t = false -> zlen (ed_left e) + zlen text <= maxLineLength ->
  tm_remainder t ++ future = encodeRunes text ++ x0d :: tail -> zlen (tm_remainder t) <= inBufSize ->
  (exists dn todo b' t', text = dn ++ todo /\ readPass None b t = Ret (None, b', t') /\ cursor_ok t' /\ views t' (typed e dn) /\ same_mode t t' /\
     tm_remainder t' ++ future = encodeRunes todo ++ x0d :: tail /\ zlen (tm_remainder t') <= 3 /\ future <> []) \/
  (exists t', let line := encodeRunes (ed_text (typed e text)) in
     readPass None b t = Ret (Some (line, None), false, t') /\ cursor_ok t' /\ views t' (entered (tm_echo t) e line) /\ same_mode t t' /\
     tm_remainder t' ++ future = tail /\ zlen (tm_remainder t') <= inBufSize).
Proof.
  intros Htext Ht Hv Er Hp Hl Hs Hr. unfold readPass.
  destruct (keysLoop_typed text (length (tm_remainder t)) (tm_remainder t) future tail b t e Htext Ht Hv Er Hp Hl Hs)
    as [(dn & todo & s' & b' & t1 & E1 & -> & E3 & E4 & E5 & F1)|(s' & t1 & -> & E2 & E3 & F1)]; [done | left | right];
    cbn [obind]; assert (M1 := follows_mode _ _ _ F1); destruct F1 as (C1 & V1 & K1);
    (rewrite ztake_all by (unfold inBufSize in *; lia)); destruct (flush_view (put_remainder t1 s') _ C1 V1) as (C2 & V2 & M2 & R2);
    set (t2 := flush _) in *; change (tm_remainder (put_remainder t1 s')) with s' in R2;
    (assert (M3 : same_mode t t2) by (unfold same_mode in *; cbn in M2; destruct M1, M2; split; congruence)).
  - exists dn, todo, b', t2. rewrite R2. by split_and!.
  - cbn zeta. assert (Ee : tm_echo t2 = tm_echo t) by apply M3. rewrite Ee. unfold entered. destruct (tm_echo t); cbn [obind].
    + destruct V2 as (W1 & W2 & W3 & W4 & W5 & W6).
      destruct (ring_add _ _ (encodeRunes (ed_text (typed e text))) W3) as (h & -> & Hh). cbn [obind]. eexists. split; [done|].
      cbn [tm_remainder put_history]. rewrite R2. split; [exact C2|]. split; [unfold views; cbn in *; by split_and!|]. split; [exact M3|]. split; [done | lia].
    + exists t2. rewrite R2. split_and!; try done. lia.
Qed.

(** A [Read] into the space behind a partial rune. *)
Lemma unread_bytes space chunk reads : ztake space chunk ++ concat (unread space chunk reads) = chunk ++ concat reads.
Proof.
  unfold unread. destruct (zlen chunk <=? space) eqn:E; b2p; [by rewrite ztake_all|].
  cbn [concat]. by rewrite app_assoc, ztake_zdrop.
Qed.

Lemma unread_fuel space chunk reads fuel : 0 < space -> (readFuel (chunk :: reads) <= S fuel)%nat ->
  (readFuel (unread space chunk reads) <= fuel)%nat.
Proof.
  intros Hs. unfold readFuel, unread. cbn [concat length]. rewrite length_app.
  destruct (zlen chunk <=? space) eqn:E; b2p; [lia|]. cbn [concat length]. unfold zdrop. rewrite length_app, length_drop.
  unfold zlen in E. lia.
Qed.

Definition lineRead (t t' : Terminal C) (e : editor) (line tail : bytes) (reads' : list bytes) : Prop :=
  cursor_ok t' /\ views t' (entered (tm_echo t) e line) /\ same_mode t t' /\
  tm_remainder t' ++ concat reads' = tail /\ zlen (tm_remainder t') <= inBufSize.

Lemma typed_app e a b : typed (typed e a) b = typed e (a ++ b).
Proof. unfold typed, with_text. cbn. by rewrite rev_app_distr, app_assoc. Qed.

Lemma entered_typed echo e a line : entered echo (typed e a) line = entered echo e line.
Proof. by destruct echo. Qed.

Lemma lineRead_mode t t1 t' e line tail reads' : same_mode t t1 -> lineRead t1 t' e line tail reads' -> lineRead t t' e line tail reads'.
Proof. intros [M1 M2] (C2 & V2 & [M3 M4] & R2). unfold lineRead, same_mode. rewrite <- M1. split_and!; try done; try congruence; apply R2. Qed.

Lemma readLoop_typed fuel reads err text tail b t e : Forall plainKey text -> cursor_ok t -> views t e -> ed_right e = [] ->
  tm_pasteActive t = false -> zlen (ed_left e) + zlen text <= maxLineLength ->
  tm_remainder t ++ concat reads = encodeRunes text ++ x0d :: tail -> zlen (tm_remainder t) <= inBufSize ->
  (readFuel reads <= fuel)%nat ->
  exists reads' t', let line := encodeRunes (ed_text (typed e text)) in
    readLoop None fuel reads err b t = Ret (line, None, reads', t') /\ lineRead t t' e line tail reads'.
Proof.
  revert reads text b t e. induction fuel as [|fuel IH]; intros reads text b t e Htext Ht Hv Er Hp Hl Hs Hr Hf; cbn [readLoop];
    destruct (readPass_typed text _ tail b t e Htext Ht Hv Er Hp Hl Hs Hr)
      as [(dn & todo & b' & t1 & -> & -> & C1 & V1 & M1 & R1 & R1' & Hne)|(t1 & -> & C1 & V1 & M1 & R1 & R1')]; cbn [obind];
    try (eexists _, t1; split; [done|]; by split_and!); destruct reads as [|chunk reads]; try done.
  { unfold readFuel in Hf. cbn in Hf. lia. }
  assert (Hspace : 253 <= readSpace t1) by (unfold readSpace, inBufSize; lia).
  apply Forall_app in Htext as [_ Htodo]. rewrite zlen_app in Hl.
  destruct (IH (unread (readSpace t1) chunk reads) todo b' (readGot t1 (ztake (readSpace t1) chunk)) (typed e dn))
    as (reads' & t' & E & H); try done.
  - destruct M1 as [_ M1]. cbn. congruence.
  - unfold typed. cbn [ed_left with_text]. rewrite zlen_app, zlen_rev. lia.
  - cbn. by rewrite <- app_assoc, unread_bytes.
  - cbn. rewrite zlen_app. unfold readSpace, inBufSize in *. unfold zlen, ztake in *. rewrite length_take. lia.
  - apply unread_fuel; [lia | done].
  - cbn zeta in *. rewrite typed_app in *. exists reads', t'. split; [done|].
    unfold lineRead in H. cbn [tm_echo readGot put_remainder] in H. rewrite entered_typed in H. by eapply lineRead_mode.
Qed.

Lemma showPrompt_view t e : cursor_ok t -> views t e ->
  exists t', showPrompt t = Ret t' /\ cursor_ok t' /\ views t' e /\ same_mode t t' /\ tm_remainder t' = tm_remainder t.
Proof.
  intros Ht Hv. unfold showPrompt. destruct (_ && _); [|by exists t; split_and!].
  destruct (writeLine_stays t (tm_prompt t) Ht) as (t1 & -> & H1). cbn [obind]. eexists. split; [done|].
  destruct (moved_follows t t1 e (ed_left e) (ed_right e) Ht Hv) as (C1 & V1 & K1).
  { destruct (view_text _ _ Hv) as [<- <-]. exact H1. }
  rewrite with_text_id in V1. destruct (flush_view t1 e C1 V1) as (C2 & V2 & M2 & R2). split_and!; try done.
  - destruct K1 as (_ & _ & K3 & K4 & _), M2 as [M3 M4]. split; congruence.
  - destruct K1 as (_ & _ & _ & _ & _ & K6 & _). congruence.
Qed.

Lemma readLine_typed reads err text tail t e : Forall plainKey text -> cursor_ok t -> views t e -> ed_text e = [] ->
  tm_pasteActive t = false -> zlen text <= maxLineLength ->
  tm_remainder t ++ concat reads = encodeRunes text ++ x0d :: tail -> zlen (tm_remainder t) <= inBufSize ->
  exists reads' t', ReadLine None reads err t = Ret (encodeRunes text, None, reads', t') /\ lineRead t t' e (encodeRunes text) tail reads'.
Proof.
  intros Htext Ht Hv He Hp Hl Hs Hr. unfold ReadLine, readLine.
  destruct (showPrompt_view t e Ht Hv) as (t1 & -> & C1 & V1 & M1 & R1). cbn [obind].
  unfold ed_text in He. apply app_eq_nil in He as [He1 He2]. apply (f_equal (@rev Z)) in He1. rewrite rev_involutive in He1. cbn in He1.
  destruct (readLoop_typed (readFuel reads) reads err text tail (tm_pasteActive t1) t1 e) as (reads' & t' & E & H); try done.
  - destruct M1 as [_ M1]. congruence.
  - rewrite He1, zlen_nil. lia.
  - by rewrite R1.
  - by rewrite R1.
  - assert (El : ed_text (typed e text) = text) by (unfold ed_text, typed; cbn; by rewrite He1, !app_nil_r, rev_involutive).
    cbn zeta in *. rewrite El in *. exists reads', t'. split; [done|]. by eapply lineRead_mode.
Qed.

(** Calls of [ReadLine] one after the other: the results, and the reads that are
    left. *)
Fixpoint readLines (n : nat) (reads : list bytes) (err : error) t : outcome (list (bytes * option error) * list bytes * Terminal C) :=
  match n with
  | O => Ret ([], reads, t)
  | S n =>
      let? (line, e, reads, t) := ReadLine None reads err t in
      let? (lines, reads, t) := readLines n reads err t in
      Ret ((line, e) :: lines, reads, t)
  end.

Lemma entered_text echo e line : ed_text (entered echo e line) = [].
Proof. by destruct echo. Qed.

Lemma readLines_typed texts reads err tail t e : Forall (Forall plainKey) texts -> Forall (fun text => zlen text <= maxLineLength) texts ->
  cursor_ok t -> views t e -> ed_text e = [] -> tm_pasteActive t = false ->
  tm_remainder t ++ concat reads = concat (map (fun text => encodeRunes text ++ [x0d]) texts) ++ tail ->
  zlen (tm_remainder t) <= inBufSize ->
  exists reads' t', readLines (length texts) reads err t = Ret (map (fun text => (encodeRunes text, None)) texts, reads', t') /\
    cursor_ok t' /\ views t' (foldl (entered (tm_echo t)) e (map encodeRunes texts)) /\ tm_remainder t' ++ concat reads' = tail.
Proof.
  intros Htexts Hlens. revert reads t e. induction Htexts as [|text texts Htext _ IH]; intros reads t e Ht Hv He Hp Hs Hr.
  - exists reads, t. by split_and!.
  - apply Forall_cons in Hlens as [Hlen Hlens]. cbn [map concat] in Hs. rewrite <- !app_assoc in Hs. cbn [app] in Hs.
    destruct (readLine_typed reads err text _ t e Htext Ht Hv He Hp Hlen Hs Hr) as (reads1 & t1 & E1 & C1 & V1 & [M1 M2] & S1 & R1).
    destruct (IH Hlens reads1 t1 (entered (tm_echo t) e (encodeRunes text))) as (reads2 & t2 & E2 & C2 & V2 & S2);
      [done | done | apply entered_text | congruence | done | done|].
    exists reads2, t2. cbn [length readLines map foldl]. rewrite E1. cbn [obind]. rewrite E2. cbn [obind]. rewrite M1 in V2. by split_and!.
Qed.

(** After [^D] on an empty line the input is not consumed. *)
Lemma ctrl_d_eof reads err rest t e : cursor_ok t -> views t e -> ed_text e = [] -> tm_pasteActive t = false -> tm_remainder t = x04 :: rest ->
  exists t', ReadLine None reads err t = Ret ([], Some EOF, reads, t') /\ cursor_ok t' /\ views t' e /\ same_mode t t' /\ tm_remainder t' = tm_remainder t.
Proof.
  intros Ht Hv He Hp Hr. unfold ReadLine, readLine. destruct (showPrompt_view t e Ht Hv) as (t1 & -> & C1 & V1 & M1 & R1). cbn [obind].
  exists t1. split; [|by split_and!]. assert (H0 : tm_line t1 = []) by (destruct V1 as [-> _]; done).
  assert (Hp1 : tm_pasteActive t1 = false) by (destruct M1; congruence). rewrite Hp1.
  assert (Hpass : readPass None false t1 = Ret (Some ([], Some EOF), false, t1)).
  { unfold readPass. rewrite R1, Hr. cbn [length keysLoop]. rewrite Hp1, H0.
    assert (Hb := whole_key 4 rest false eq_refl (or_introl eq_refl)). change (encodeRune 4 ++ rest) with (x04 :: rest) in Hb. by rewrite Hb. }
  destruct (readFuel reads); cbn [readLoop]; rewrite Hpass; done.
Qed.
End Typing.

(** ** Calls in any order

    [ReadLine] gives up the lock while it reads, so that other calls come between
    its parts. *)

Inductive call :=
| CBegin
| CKeys (lineIsPasted : bool)
| CInput (chunk : bytes)
| CWrite (buf : bytes)
| CSetPrompt (prompt : bytes)
| CSetSize (width height : Z)
| CPasteMode (on : bool)
| CPassword (prompt : bytes)
| CPasswordEnd (oldPrompt : list Z).

Section Calls.
Context {C : Type} (cb : option callback) `{!Writer C}.
Implicit Types t : Terminal C.

Definition perform t (a : call) : outcome (Terminal C) :=
  match a with
  | CBegin => showPrompt t
  | CKeys b => let? (_, _, t) := readPass cb b t in Ret t
  | CInput chunk => Ret (readGot t chunk)
  | CWrite buf => let? (_, _, t) := Write t buf in Ret t
  | CSetPrompt prompt => Ret (SetPrompt t prompt)
  | CSetSize w h => let? (_, t) := SetSize t w h in Ret t
  | CPasteMode on => Ret (SetBracketedPasteMode t on)
  | CPassword prompt => Ret (put_prompt t (decodeRunes prompt) false)
  | CPasswordEnd oldPrompt => Ret (put_prompt t oldPrompt true)
  end.

Fixpoint performs t (calls : list call) : outcome (Terminal C) :=
  match calls with
  | [] => Ret t
  | a :: calls => let? t := perform t a in performs t calls
  end.

(** Sizes are not negative. *)
Definition call_ok (a : call) : Prop := match a with CSetSize w _ => 0 <= w | _ => True end.

Lemma perform_ok t a : callback_ok cb -> tm_ok t -> call_ok a -> exists t', perform t a = Ret t' /\ tm_ok t'.
Proof.
  intros Hcb Ht Ha. destruct a; cbn [perform call_ok] in *; try (eexists; split; [done | exact Ht]).
  - by apply showPrompt_ok.
  - destruct (readPass_ok cb lineIsPasted t Hcb Ht) as (r & b & t' & -> & H'). by exists t'.
  - destruct (Write_ok t buf Ht) as (n & e & t' & -> & H'). by exists t'.
  - destruct (SetSize_ok t width height Ht Ha) as (e & t' & -> & H'). by exists t'.
  - eexists. split; [done|]. unfold SetBracketedPasteMode. destruct (w_Write _ _) as [[n e] c]. exact Ht.
Qed.

Lemma performs_ok calls t : callback_ok cb -> tm_ok t -> Forall call_ok calls -> exists t', performs t calls = Ret t' /\ tm_ok t'.
Proof.
  intros Hcb Ht Hc. revert t Ht. induction Hc as [|a calls Ha _ IH]; intros t Ht; cbn [performs]; [by exists t|].
  destruct (perform_ok t a Hcb Ht Ha) as (t1 & -> & H1). by apply IH.
Qed.

Lemma new_ok (c : C) prompt : tm_ok (NewTerminal c prompt).
Proof. split; [unfold cursor_ok; cbn; lia|]. exists (mkEditor [] [] [] (-1) []). unfold views. cbn. split_and!; try done. apply ring_empty. Qed.
End Calls.

(** ** Text with line ends *)

(** The contract of [io.Writer], with what has been written. *)
Class WriterLog (C : Type) `{Writer C} := {
  w_log : C -> bytes;
  w_Write_log : forall b c, let '(n, e, c') := w_Write b c in
    0 <= n <= zlen b /\ w_log c' = w_log c ++ ztake n b /\ (e = None -> n = zlen b)
}.

Fixpoint addCR (s : bytes) : bytes :=
  match s with
  | [] => []
  | b :: s => if Byte.eqb x0a b then x0d :: x0a :: addCR s else b :: addCR s
  end.

Lemma addCR_app a b : addCR (a ++ b) = addCR a ++ addCR b.
Proof. induction a as [|x a IH]; cbn [addCR app]; [done|]. rewrite IH. by destruct (Byte.eqb x0a x). Qed.

Lemma addCR_plain a : Forall (fun c => Byte.eqb x0a c = false) a -> addCR a = a.
Proof. induction 1 as [|x a Hx _ IH]; cbn [addCR]; [done|]. by rewrite Hx, IH. Qed.

Lemma ztake_app_le {A} k (a b : list A) : 0 <= k <= zlen a -> ztake k (a ++ b) = ztake k a.
Proof. intros Hk. unfold ztake, zlen in *. rewrite take_app_le by lia. done. Qed.

Lemma ztake_beyond {A} k (a b : list A) : 0 <= k -> ztake (zlen a + k) (a ++ b) = a ++ ztake k b.
Proof. intros Hk. unfold ztake, zlen in *. rewrite take_app_ge by lia. f_equal. f_equal. lia. Qed.

Section Lines.
Context {C : Type} `{WriterLog C}.

(** [k] bytes of [buf] count as written from [c] to [c']. *)
Definition translated (buf : bytes) (k : Z) (e : option error) (c c' : C) : Prop :=
  0 <= k <= zlen buf /\ (e = None -> k = zlen buf) /\
  exists w, w_log c' = w_log c ++ w /\ addCR (ztake k buf) `prefix_of` w /\ w `prefix_of` addCR buf.

Lemma translated_plain a b c : Forall (fun x => Byte.eqb x0a x = false) a ->
  let '(k, e, c') := w_Write a c in (e = None -> b = []) -> translated (a ++ b) k e c c'.
Proof.
  intros Ha. pose proof (w_Write_log a c) as Hw. destruct (w_Write a c) as [[k e] c']. destruct Hw as (Hk & Hl & He). intros Hb.
  pose proof (zlen_nonneg b). split; [rewrite zlen_app; lia|]. split.
  { intros E. rewrite (Hb E), app_nil_r. auto. }
  exists (ztake k a). split; [done|]. rewrite ztake_app_le by lia.
  assert (Hta : addCR (ztake k a) = ztake k a) by (apply addCR_plain, Forall_take, Ha). rewrite Hta. split; [done|].
  rewrite addCR_app, addCR_plain by done. exists (zdrop k a ++ addCR b). by rewrite app_assoc, ztake_zdrop.
Qed.

Lemma writeCRLF_translates fuel buf n c : (length buf <= fuel)%nat ->
  let '(n', e, c') := writeCRLF fuel buf n c in translated buf (n' - n) e c c'.
Proof.
  revert buf n c. induction fuel as [|fuel IH]; intros [|x buf] n c Hf; cbn [writeCRLF]; try (cbn in Hf; lia);
    try (rewrite Z.sub_diag; split; [done|]; split; [done|]; exists []; by rewrite app_nil_r).
  set (b := x :: buf) in *. pose proof (cutAt_spec (Byte.eqb x0a) b) as Hc. destruct (cutAt (Byte.eqb x0a) b) as [[a rest]|].
  - destruct Hc as (Eb & Ha & c1 & rest' & -> & Hc1). apply byte_eqb_true in Hc1 as <-. change (drop 1 (x0a :: rest')) with rest'.
    assert (Hp := translated_plain a (x0a :: rest') c Ha). pose proof (w_Write_log a c) as Hw.
    destruct (w_Write a c) as [[k [e|]] c1]; [rewrite Eb; replace (n + k - n) with k by lia; by apply Hp|]. clear Hp.
    destruct Hw as (_ & Hl & Hk). rewrite (Hk eq_refl), ztake_all in * by lia. clear Hk.
    pose proof (w_Write_log crlf c1) as Hw. destruct (w_Write crlf c1) as [[m [e|]] c2]; destruct Hw as (Hm & Hl2 & Hm2).
    + replace (n + zlen a - n) with (zlen a) by lia. rewrite Eb. pose proof (zlen_nonneg a).
      split; [rewrite zlen_app; pose proof (zlen_nonneg (x0a :: rest')); lia|]. split; [done|].
      exists (a ++ ztake m crlf). rewrite Hl2, Hl, ztake_app_zlen, addCR_app, addCR_plain by done. split; [by rewrite app_assoc|].
      split; [by eexists|]. exists (zdrop m crlf ++ addCR rest'). rewrite <- !app_assoc, (app_assoc (ztake m crlf)), ztake_zdrop. done.
    + specialize (IH rest' (n + zlen a + 1) c2). assert (Hr : (length rest' <= fuel)%nat) by (rewrite Eb, length_app in Hf; cbn in Hf; lia).
      specialize (IH Hr). destruct (writeCRLF fuel rest' (n + zlen a + 1) c2) as [[n' e] c']. destruct IH as (Hb & He & w & Hw & Hw1 & Hw2).
      rewrite (Hm2 eq_refl), ztake_all in Hl2 by lia. replace (n' - n) with (zlen a + (1 + (n' - (n + zlen a + 1)))) by lia.
      set (j := n' - (n + zlen a + 1)) in *. rewrite Eb. pose proof (zlen_nonneg a).
      split; [rewrite zlen_app, zlen_cons; lia|]. split; [intros E; rewrite zlen_app, zlen_cons, (He E); lia|].
      exists (a ++ crlf ++ w). rewrite Hw, Hl2, Hl, <- !app_assoc. split; [done|]. rewrite ztake_beyond, addCR_app, addCR_plain by (done || lia).
      replace (ztake (1 + j) (x0a :: rest')) with (x0a :: ztake j rest') by (unfold ztake; replace (Z.to_nat (1 + j)) with (S (Z.to_nat j)) by lia; done).
      rewrite addCR_app, (addCR_plain a) by done. split; apply prefix_app; by do 2 apply prefix_cons.
  - assert (Hp := translated_plain b [] c Hc). rewrite app_nil_r in Hp. destruct (w_Write b c) as [[k [e|]] c'];
      (replace (n + k - n) with k by lia; by apply Hp).
Qed.
End Lines.

(** ** Passwords *)

Lemma readPasswordLine_spec input err ret :
  readPasswordLine input err ret =
  match cutAt (Byte.eqb x0a) input with
  | Some (a, rest) => (ret ++ filter (fun b => Byte.eqb x0d b = false) a, None, drop 1 rest)
  | None =>
      let got := ret ++ filter (fun b => Byte.eqb x0d b = false) input in
      (got, if bool_decide (err = EOF) && (0 <? zlen got) then None else Some err, [])
  end.
Proof.
  revert ret. induction input as [|b input IH]; intros ret; cbn [readPasswordLine cutAt].
  - change (filter _ []) with (@nil byte). rewrite app_nil_r. by destruct (bool_decide (err = EOF) && _).
  - destruct (Byte.eqb b x0a) eqn:E1.
    { apply byte_eqb_true in E1 as ->. rewrite byte_eqb_refl. cbn. by rewrite app_nil_r. }
    assert (E1' : Byte.eqb x0a b = false) by (apply byte_eqb_false; apply byte_eqb_false in E1; congruence). rewrite E1'.
    destruct (Byte.eqb b x0d) eqn:E2.
    + apply byte_eqb_true in E2 as ->. rewrite IH. destruct (cutAt _ input) as [[a rest]|]; done.
    + assert (E2' : Byte.eqb x0d b = false) by (apply byte_eqb_false; apply byte_eqb_false in E2; congruence).
      rewrite IH. destruct (cutAt _ input) as [[a rest]|]; rewrite !filter_cons_True by done; rewrite <- !app_assoc; done.
Qed.

(** ** The claims *)

(** A connection that keeps what is written. *)
#[export] Instance log_Writer : Writer bytes := {| w_Write b c := (zlen b, None, c ++ b) |}.

#[export] Instance log_WriterLog : WriterLog bytes.
Proof.
  refine {| w_log c := c |}. intros b c. cbn. split; [pose proof (zlen_nonneg b); lia|]. by rewrite ztake_all by lia.
Defined.

(** C18: [handleKey] edits as a text with a cursor does.  When the
    cursor is within the width and the terminal holds the text, the past lines and
    the line being typed of an editor, then for every key, in a paste or not, and
    with every completion that returns whole runes, [handleKey] returns, without a
    panic, the line that the editor enters, holds the editor after that key, and
    leaves the connection, the prompt, the modes, the unread input and the history
    as they were. *)
Theorem terminal_refines_editor {C} (cb : option callback) (t : Terminal C) e key : cursor_ok t -> views t e -> callback_ok cb ->
  exists t', handleKey cb t key = Ret (fst (edit cb (tm_pasteActive t) e key), t') /\
             cursor_ok t' /\ views t' (snd (edit cb (tm_pasteActive t) e key)) /\ kept t t'.
Proof. apply handleKey_follows. Qed.

Lemma terminal_refines_editor_witness :
  exists t', handleKey None (put_line (NewTerminal (@nil byte) (str "> ")) [97; 98; 32; 99] 3) keyDeleteWord = Ret (None, t') /\
             tm_line t' = [99] /\ tm_pos t' = 0.
Proof.
  destruct (terminal_refines_editor None (put_line (NewTerminal (@nil byte) (str "> ")) [97; 98; 32; 99] 3)
              (mkEditor [32; 98; 97] [99] [] (-1) []) keyDeleteWord) as (t' & E & _ & (V1 & V2 & _) & _).
  - unfold cursor_ok. cbn. lia.
  - unfold views. cbn. split; [done|]. split; [done|]. split; [apply ring_empty|]. split; [done|]. split; [done | lia].
  - intros ? ? ? ? ? ? [=].
  - exists t'. split; [exact E|]. split; [exact V1 | exact V2].
Defined.

(** C19: What is typed is what [ReadLine] returns.  Lines of plain
    characters, none longer than the limit, each ended by Enter, are returned by
    as many calls of [ReadLine], in order and without error, however the bytes come
    in (in chunks of any length, cut even in the middle of a character; a [Read]
    takes what fits its buffer); what follows is left in the terminal and in the
    later reads, and with echo the last hundred lines are the history.  The
    terminal has no [AutoCompleteCallback], is not within a paste and starts with
    an empty line. *)
Theorem typed_lines_read {C} `{!Writer C} (texts : list (list Z)) reads err tail (t : Terminal C) e :
  Forall (Forall plainKey) texts -> Forall (fun text => zlen text <= maxLineLength) texts ->
  cursor_ok t -> views t e -> ed_text e = [] -> tm_pasteActive t = false ->
  tm_remainder t ++ concat reads = concat (map (fun text => encodeRunes text ++ [x0d]) texts) ++ tail ->
  zlen (tm_remainder t) <= inBufSize ->
  exists reads' t', readLines (length texts) reads err t = Ret (map (fun text => (encodeRunes text, None)) texts, reads', t') /\
    cursor_ok t' /\ views t' (foldl (entered (tm_echo t)) e (map encodeRunes texts)) /\ tm_remainder t' ++ concat reads' = tail.
Proof. apply readLines_typed. Qed.

Lemma typed_lines_read_witness :
  exists reads' t',
    readLines 2 [str "h"; [xc3]; xa9 :: x0d :: str "o"; x0d :: str "k"; str "x"] EOF (NewTerminal (@nil byte) (str "> ")) =
      Ret ([(x68 :: xc3 :: [xa9], None); (str "o", None)], reads', t') /\
    tm_remainder t' ++ concat reads' = str "kx".
Proof.
  destruct (typed_lines_read [[104; 233]; [111]] [str "h"; [xc3]; xa9 :: x0d :: str "o"; x0d :: str "k"; str "x"] EOF (str "kx")
              (NewTerminal (@nil byte) (str "> ")) (mkEditor [] [] [] (-1) [])) as (reads' & t' & E & _ & _ & R).
  - repeat constructor; unfold plainKey, keyBackspace, RuneError; try lia; done.
  - repeat constructor; unfold zlen, maxLineLength; cbn; lia.
  - unfold cursor_ok. cbn. lia.
  - unfold views. cbn. split; [done|]. split; [done|]. split; [apply ring_empty|]. split; [done|]. split; [done | lia].
  - done.
  - done.
  - vm_compute. reflexivity.
  - vm_compute. discriminate.
  - exists reads', t'. split; [exact E | exact R].
Defined.

(** C30: The terminal does not panic as long as its completions are well formed
    and its width is not set to a negative number.  From a new terminal, the parts of
    [ReadLine] and [ReadPassword] between two reads, whatever bytes are read, and
    the calls [Write], [SetPrompt], [SetSize] and [SetBracketedPasteMode] that come
    between them, in any order, all return: every index is in range, every loop
    ends within the fuel it is given, and the position stays within the line and the
    cursor within the width.  The conditions are needed ([completion_position],
    [negative_width_panics]): a completion is a line of whole characters with a
    position between two of them, and [SetSize] is called with a width of at least
    0.  The callback is a function: it makes no calls of the terminal itself. *)
Theorem terminal_never_panics {C} (cb : option callback) `{!Writer C} (c : C) prompt calls : callback_ok cb -> Forall call_ok calls ->
  exists t', performs cb (NewTerminal c prompt) calls = Ret t' /\ cursor_ok t' /\ 0 <= tm_pos t' <= zlen (tm_line t').
Proof.
  intros Hcb Hc. destruct (performs_ok cb calls _ Hcb (new_ok c prompt) Hc) as (t' & E & H). exists t'. split; [done|].
  split; [apply H | by apply ok_pos].
Qed.

Lemma terminal_never_panics_witness :
  exists t', performs None (NewTerminal (@nil byte) (str "> "))
               [CBegin; CInput (x1b :: str "[Aab"); CKeys false; CSetSize 0 5; CWrite (str "news"); CInput [x7f]; CKeys false] = Ret t' /\
             0 <= tm_pos t' <= zlen (tm_line t').
Proof.
  destruct (terminal_never_panics None (@nil byte) (str "> ")
              [CBegin; CInput (x1b :: str "[Aab"); CKeys false; CSetSize 0 5; CWrite (str "news"); CInput [x7f]; CKeys false]) as (t' & E & _ & H).
  - intros ? ? ? ? ? ? [=].
  - repeat constructor; cbn; try exact I; lia.
  - exists t'. split; [exact E | exact H].
Defined.

(** Once [^D] was read on an empty line, every later [ReadLine]
    reports the end of the input: the byte stays in front of the unread input, and
    no further read is made. *)
Theorem eof_is_sticky {C} `{!Writer C} reads err rest (t : Terminal C) e :
  cursor_ok t -> views t e -> ed_text e = [] -> tm_pasteActive t = false -> tm_remainder t = x04 :: rest ->
  exists t1 t2, ReadLine None reads err t = Ret ([], Some EOF, reads, t1) /\ ReadLine None reads err t1 = Ret ([], Some EOF, reads, t2) /\
    tm_remainder t2 = x04 :: rest.
Proof.
  intros Ht Hv He Hp Hr. destruct (ctrl_d_eof reads err rest t e Ht Hv He Hp Hr) as (t1 & E1 & C1 & V1 & [M1 M2] & R1).
  destruct (ctrl_d_eof reads err rest t1 e C1 V1 He) as (t2 & E2 & _ & _ & _ & R2); [congruence | congruence|].
  exists t1, t2. split; [done|]. split; [done | congruence].
Qed.

Lemma eof_is_sticky_witness :
  exists t1 t2, ReadLine None [str "ls"] EOF (put_remainder (NewTerminal (@nil byte) (str "> ")) [x04]) = Ret ([], Some EOF, [str "ls"], t1) /\
    ReadLine None [str "ls"] EOF t1 = Ret ([], Some EOF, [str "ls"], t2).
Proof.
  destruct (eof_is_sticky [str "ls"] EOF [] (put_remainder (NewTerminal (@nil byte) (str "> ")) [x04]) (mkEditor [] [] [] (-1) []))
    as (t1 & t2 & E1 & E2 & _).
  - unfold cursor_ok. cbn. lia.
  - unfold views. cbn. split; [done|]. split; [done|]. split; [apply ring_empty|]. split; [done|]. split; [done | lia].
  - done.
  - done.
  - done.
  - exists t1, t2. split; [exact E1 | exact E2].
Defined.

(** Output is written with every line feed as a carriage return
    and a line feed.  With a connection that keeps the contract of [io.Writer], what
    [writeWithCRLF] has written is between the translation of the bytes it counts
    and the translation of the whole; without an error it counts the whole and has
    written exactly its translation. *)
Theorem write_translates {C} `{WriterLog C} (buf : bytes) (c : C) :
  let '(n, e, c') := writeWithCRLF buf c in
  0 <= n <= zlen buf /\ (e = None -> n = zlen buf /\ w_log c' = w_log c ++ addCR buf) /\
  exists w, w_log c' = w_log c ++ w /\ addCR (ztake n buf) `prefix_of` w /\ w `prefix_of` addCR buf.
Proof.
  unfold writeWithCRLF. pose proof (writeCRLF_translates (length buf) buf 0 c ltac:(lia)) as Ht. destruct (writeCRLF _ _ _ _) as [[n e] c'].
  rewrite Z.sub_0_r in Ht. destruct Ht as (Hn & He & w & Hw & H1 & H2). split; [done|]. split; [|by exists w].
  intros E. split; [auto|]. rewrite (He E), ztake_all in H1 by lia. rewrite Hw. f_equal. by apply (anti_symm prefix).
Qed.

Lemma write_translates_witness :
  let '(n, e, c') := writeWithCRLF (str "a" ++ x0a :: str "b") (@nil byte) in
  e = None /\ n = 3 /\ c' = str "a" ++ x0d :: x0a :: str "b".
Proof.
  pose proof (write_translates (str "a" ++ x0a :: str "b") (@nil byte)) as H. cbv zeta in H.
  destruct (writeWithCRLF (str "a" ++ x0a :: str "b") []) as [[n e] c'] eqn:E. vm_compute in E. injection E as <- <- <-.
  destruct H as (_ & He & _). destruct (He eq_refl) as [En El]. split; [reflexivity|]. split; [exact En|exact El].
Defined.

(** A blank in front of the first word is taken for a part of it. *)
Lemma leading_blank_in_word {C} (c : C) prompt :
  countToLeftWord (put_line (NewTerminal c prompt) [32; 97] 2) = 2 /\
  countToLeftWord (put_line (NewTerminal c prompt) [97; 32; 97] 3) = 1.
Proof. done. Qed.

(** A completion that puts the position inside a character leaves the position
    behind the line, and the next rune panics. *)
Lemma completion_position :
  exists f t', handleKey (Some f) (NewTerminal (@nil byte) []) 9 = Ret (None, t') /\
    tm_line t' = [0x20AC] /\ tm_pos t' = 2 /\ panics (handleKey None t' 97) = true.
Proof.
  exists (fun _ _ _ => Some ([xe2; x82; xac], 2)). eexists. split; [vm_compute; reflexivity|]. split; [vm_compute; reflexivity|].
  split; vm_compute; reflexivity.
Qed.

(** [SetSize] accepts a negative width; the next rune is then sliced up to a
    negative length. *)
Lemma negative_width_panics :
  exists t', SetSize (NewTerminal (@nil byte) []) (-1) 24 = Ret (None, t') /\ tm_termWidth t' = -1 /\
    panics (handleKey None t' 97) = true.
Proof. eexists. split; [vm_compute; reflexivity|]. split; vm_compute; reflexivity. Qed.
