(* ===== verification/TerminalScreen.v ===== *)
(** * The line editor: what the screen shows

    A screen that interprets the output shows the prompt and the line, with the
    cursor at its place, after every key. *)

From S2P Require Import Prelude Text Utf8 Terminal TerminalFacts.

(** ** The screen

    A VT100 of [w] columns and as many rows as needed: cells are numbered row by
    row, and a cursor that has written the last column stays there until the next
    character. *)

Inductive parser := PNormal | PEscape | PSequence.

Record screen := mkScreen {
  sc_row : Z;
  sc_col : Z;
  sc_wrap : bool;
  sc_cells : Z -> Z;
  sc_parser : parser
}.

Definition put (cells : Z -> Z) (p r : Z) : Z -> Z := fun q => if q =? p then r else cells q.

Definition printRune (w : Z) (s : screen) (r : Z) : screen :=
  let '(row, col) := if sc_wrap s then (sc_row s + 1, 0) else (sc_row s, sc_col s) in
  let cells := put (sc_cells s) (row * w + col) r in
  if col + 1 =? w then mkScreen row col true cells PNormal else mkScreen row (col + 1) false cells PNormal.

(** Text from a cell on. *)
Fixpoint overlay (p : Z) (rs : list Z) (cells : Z -> Z) : Z -> Z :=
  match rs with
  | [] => cells
  | r :: rs => overlay (p + 1) rs (put cells p r)
  end.

(** The end of a sequence: cursor up, down, right and left; erase to the end of
    the row; erase all; home. *)
Definition command (w : Z) (s : screen) (r : Z) : screen :=
  let row := sc_row s in
  let col := sc_col s in
  let cells := sc_cells s in
  if r =? 65 then mkScreen (row - 1) col false cells PNormal
  else if r =? 66 then mkScreen (row + 1) col false cells PNormal
  else if r =? 67 then mkScreen row (Z.min (w - 1) (col + 1)) false cells PNormal
  else if r =? 68 then mkScreen row (Z.max 0 (col - 1)) false cells PNormal
  else if r =? 75 then
    mkScreen row col false (overlay (row * w + col) (repeat blank (Z.to_nat (w - col))) cells) PNormal
  else if r =? 74 then mkScreen row col false (fun _ => blank) PNormal
  else if r =? 72 then mkScreen 0 0 false cells PNormal
  else mkScreen row col (sc_wrap s) cells PNormal.

Definition screenStep (w : Z) (s : screen) (r : Z) : screen :=
  match sc_parser s with
  | PNormal =>
      if r =? keyEscape then mkScreen (sc_row s) (sc_col s) (sc_wrap s) (sc_cells s) PEscape
      else if r =? 13 then mkScreen (sc_row s) 0 false (sc_cells s) PNormal
      else if r =? 10 then mkScreen (sc_row s + 1) (sc_col s) false (sc_cells s) PNormal
      else printRune w s r
  | PEscape => mkScreen (sc_row s) (sc_col s) (sc_wrap s) (sc_cells s) (if r =? 91 then PSequence else PNormal)
  | PSequence => if isLetter r then command w s r else s
  end.

Definition screenRun (w : Z) (rs : list Z) (s : screen) : screen := foldl (screenStep w) s rs.

Definition cursorAt (x y : Z) (cells : Z -> Z) : screen := mkScreen y x false cells PNormal.

Lemma screenRun_app w a b s : screenRun w (a ++ b) s = screenRun w b (screenRun w a s).
Proof. apply foldl_app. Qed.

Lemma overlay_app p a b c : overlay p (a ++ b) c = overlay (p + zlen a) b (overlay p a c).
Proof.
  revert p c. induction a as [|r a IH]; intros p c; cbn [overlay app]; [by rewrite zlen_nil, Z.add_0_r|].
  rewrite IH, zlen_cons. f_equal. lia.
Qed.

Lemma overlay_lookup p rs c q :
  overlay p rs c q = if (p <=? q) && (q <? p + zlen rs) then default 0 (rs !! Z.to_nat (q - p)) else c q.
Proof.
  revert p c. induction rs as [|r rs IH]; intros p c; cbn [overlay].
  - rewrite zlen_nil. destruct (Z.leb_spec p q), (Z.ltb_spec q (p + 0)); try lia; done.
  - rewrite IH, zlen_cons. unfold put. pose proof (zlen_nonneg rs).
    destruct (Z.eqb_spec q p) as [->|Hne].
    + rewrite (proj2 (Z.leb_gt (p + 1) p)) by lia. cbn [andb].
      rewrite Z.leb_refl, (proj2 (Z.ltb_lt _ _)) by lia. cbn [andb]. by replace (p - p) with 0 by lia.
    + destruct (Z.leb_spec (p + 1) q), (Z.leb_spec p q); try lia; cbn [andb]; [|done].
      replace (p + 1 + zlen rs) with (p + (zlen rs + 1)) by lia. rewrite (Z.add_comm 1 (zlen rs)).
      destruct (q <? p + (zlen rs + 1)); [|done]. replace (Z.to_nat (q - p)) with (S (Z.to_nat (q - (p + 1)))) by lia. done.
Qed.

(** *** Writing text *)

(** A character with its own cell and encoding. *)
Definition glyph (r : Z) : Prop := 32 <= r /\ validRune r = true.

(** The screen after text up to cell [lin]. *)
Definition penAt (w lin : Z) (cells : Z -> Z) : screen :=
  if lin mod w =? 0 then mkScreen (lin / w - 1) (w - 1) true cells PNormal
  else mkScreen (lin / w) (lin mod w) false cells PNormal.

Lemma glyph_step w s r : glyph r -> sc_parser s = PNormal -> screenStep w s r = printRune w s r.
Proof.
  intros [Hr _] Hp. unfold screenStep, keyEscape. rewrite Hp.
  by rewrite (proj2 (Z.eqb_neq r 27)), (proj2 (Z.eqb_neq r 13)), (proj2 (Z.eqb_neq r 10)) by lia.
Qed.

Lemma div_step w lin : 0 < w ->
  ((lin + 1) mod w = 0 /\ lin mod w + 1 = w /\ (lin + 1) / w = lin / w + 1) \/
  ((lin + 1) mod w = lin mod w + 1 /\ lin mod w + 1 <> w /\ (lin + 1) / w = lin / w).
Proof.
  intros Hw. pose proof (Z.mod_pos_bound lin w Hw). pose proof (Z.div_mod lin w).
  destruct (decide (lin mod w + 1 = w)) as [E|E]; [left | right].
  - assert (lin + 1 = w * (lin / w + 1)) as -> by lia. rewrite (Z.mul_comm w), Z_mod_mult, Z_div_mult by lia. lia.
  - assert (lin + 1 = w * (lin / w) + (lin mod w + 1)) as -> by lia.
    rewrite (Z.mul_comm w), (Z.add_comm (_ * w)), Z_mod_plus_full, Z_div_plus_full by lia.
    rewrite Z.mod_small, Z.div_small by lia. lia.
Qed.

Lemma print_next w row col cells r : 0 < w -> 0 <= col < w ->
  printRune w (mkScreen row col false cells PNormal) r = penAt w (row * w + col + 1) (put cells (row * w + col) r).
Proof.
  intros Hw Hc. unfold printRune, penAt. cbn [sc_wrap sc_row sc_col sc_cells].
  assert (Hm : (row * w + col) mod w = col) by (rewrite Z.add_comm, Z_mod_plus_full; apply Z.mod_small; lia).
  assert (Hd : (row * w + col) / w = row) by (rewrite Z.add_comm, Z_div_plus_full, Z.div_small by lia; lia).
  destruct (div_step w (row * w + col) Hw) as [(E1 & E2 & E3)|(E1 & E2 & E3)]; rewrite Hm, Hd in *.
  - rewrite E1, E3, (proj2 (Z.eqb_eq (col + 1) w)), Z.eqb_refl by lia. f_equal; lia.
  - rewrite E1, E3, (proj2 (Z.eqb_neq (col + 1) w)), (proj2 (Z.eqb_neq (col + 1) 0)) by lia. done.
Qed.

Lemma print_pen w lin cells r : 0 < w -> printRune w (penAt w lin cells) r = penAt w (lin + 1) (put cells lin r).
Proof.
  intros Hw. pose proof (Z.mod_pos_bound lin w Hw). pose proof (Z.div_mod lin w). unfold penAt at 1.
  destruct (Z.eqb_spec (lin mod w) 0) as [E|E].
  - transitivity (printRune w (mkScreen (lin / w) 0 false cells PNormal) r).
    { unfold printRune. cbn [sc_wrap sc_row sc_col sc_cells]. by replace (lin / w - 1 + 1) with (lin / w) by lia. }
    rewrite print_next by lia. f_equal; [lia|]. f_equal; lia.
  - rewrite print_next by lia. f_equal; [lia|]. f_equal; lia.
Qed.

Lemma penAt_parser w lin cells : sc_parser (penAt w lin cells) = PNormal.
Proof. unfold penAt. by destruct (_ =? 0). Qed.

Lemma run_pen w rs lin cells : 0 < w -> Forall glyph rs ->
  screenRun w rs (penAt w lin cells) = penAt w (lin + zlen rs) (overlay lin rs cells).
Proof.
  intros Hw Hrs. revert lin cells. induction Hrs as [|r rs Hr _ IH]; intros lin cells.
  - cbn. by rewrite zlen_nil, Z.add_0_r.
  - cbn [screenRun foldl overlay]. rewrite glyph_step by (done || apply penAt_parser). rewrite print_pen by done.
    fold (screenRun w rs (penAt w (lin + 1) (put cells lin r))). rewrite IH, zlen_cons. f_equal. lia.
Qed.

Lemma run_glyphs w rs x y cells : 0 < w -> 0 <= x < w -> Forall glyph rs -> rs <> [] ->
  screenRun w rs (cursorAt x y cells) = penAt w (y * w + x + zlen rs) (overlay (y * w + x) rs cells).
Proof.
  intros Hw Hx Hrs Hne. destruct Hrs as [|r rs Hr Hrs]; [done|]. cbn [screenRun foldl overlay].
  rewrite glyph_step by done. unfold cursorAt. rewrite print_next by done.
  fold (screenRun w rs (penAt w (y * w + x + 1) (put cells (y * w + x) r))). rewrite run_pen, zlen_cons by done. f_equal. lia.
Qed.

Lemma run_crlf w lin cells : 0 < w -> lin mod w = 0 -> screenRun w [13; 10] (penAt w lin cells) = cursorAt 0 (lin / w) cells.
Proof. intros Hw Hm. unfold penAt. rewrite Hm. cbn. unfold cursorAt. f_equal. lia. Qed.

(** *** Moving *)

Lemma run_up w n x y cells : 0 <= n -> screenRun w (repeatMove n 65) (cursorAt x y cells) = cursorAt x (y - n) cells.
Proof.
  intros Hn. unfold repeatMove. rewrite <- (Z2Nat.id n Hn) at 2. generalize (Z.to_nat n) as k. clear.
  intros k. revert y. induction k as [|k IH]; intros y; [cbn; unfold cursorAt; f_equal; lia|].
  cbn [repeat concat]. rewrite screenRun_app. change (screenRun w [keyEscape; 91; 65] (cursorAt x y cells)) with (cursorAt x (y - 1) cells).
  rewrite IH. f_equal. lia.
Qed.

Lemma run_down w n x y cells : 0 <= n -> screenRun w (repeatMove n 66) (cursorAt x y cells) = cursorAt x (y + n) cells.
Proof.
  intros Hn. unfold repeatMove. rewrite <- (Z2Nat.id n Hn) at 2. generalize (Z.to_nat n) as k. clear.
  intros k. revert y. induction k as [|k IH]; intros y; [cbn; unfold cursorAt; f_equal; lia|].
  cbn [repeat concat]. rewrite screenRun_app. change (screenRun w [keyEscape; 91; 66] (cursorAt x y cells)) with (cursorAt x (y + 1) cells).
  rewrite IH. f_equal. lia.
Qed.

Lemma run_left w n x y cells : 0 <= n <= x -> screenRun w (repeatMove n 68) (cursorAt x y cells) = cursorAt (x - n) y cells.
Proof.
  intros Hn. unfold repeatMove. rewrite <- (Z2Nat.id n) at 2 by lia. assert (Hx : Z.of_nat (Z.to_nat n) <= x) by lia.
  generalize dependent (Z.to_nat n). clear. intros k. revert x.
  induction k as [|k IH]; intros x Hx; [cbn; unfold cursorAt; f_equal; lia|].
  cbn [repeat concat]. rewrite screenRun_app.
  change (screenRun w [keyEscape; 91; 68] (cursorAt x y cells)) with (cursorAt (Z.max 0 (x - 1)) y cells).
  rewrite Z.max_r, IH by lia. f_equal. lia.
Qed.

Lemma run_right w n x y cells : 0 <= n -> x + n < w -> screenRun w (repeatMove n 67) (cursorAt x y cells) = cursorAt (x + n) y cells.
Proof.
  intros Hn Hx. unfold repeatMove. rewrite <- (Z2Nat.id n Hn) at 2. assert (Hx' : x + Z.of_nat (Z.to_nat n) < w) by lia.
  generalize dependent (Z.to_nat n). clear. intros k. revert x.
  induction k as [|k IH]; intros x Hx; [cbn; unfold cursorAt; f_equal; lia|].
  cbn [repeat concat]. rewrite screenRun_app.
  change (screenRun w [keyEscape; 91; 67] (cursorAt x y cells)) with (cursorAt (Z.min (w - 1) (x + 1)) y cells).
  rewrite Z.min_r, IH by lia. f_equal. lia.
Qed.

Lemma run_movement w up down left right x y cells :
  0 <= up -> 0 <= down -> 0 <= left <= x -> 0 <= right -> x - left + right < w ->
  screenRun w (movement up down left right) (cursorAt x y cells) = cursorAt (x - left + right) (y - up + down) cells.
Proof.
  intros. unfold movement. rewrite !screenRun_app, run_up, run_down, run_left, run_right by lia. done.
Qed.

(** ** Drawing

    What the terminal queues moves the cursor of the screen as it moves its own,
    and changes the cells by a known function. *)

Lemma visualLoop_glyphs rs n : Forall glyph rs -> visualLoop rs false n = n + zlen rs.
Proof.
  intros Hrs. revert n. induction Hrs as [|r rs [Hr _] _ IH]; intros n; cbn [visualLoop]; [rewrite zlen_nil; lia|].
  unfold keyEscape. rewrite (proj2 (Z.eqb_neq r 27)), IH, zlen_cons by lia. lia.
Qed.

Lemma visualLength_glyphs rs : Forall glyph rs -> visualLength rs = zlen rs.
Proof. intros. unfold visualLength. by rewrite visualLoop_glyphs. Qed.

(** Every rune of the output has its encoding. *)
Notation "'encodable' os" := (Forall (fun r => validRune r = true) os) (at level 10, os at level 9, only parsing).

Section Drawing.
Context {C : Type}.
Implicit Types t : Terminal C.

(** The cell of the cursor. *)
Definition linear t : Z := tm_cursorY t * tm_termWidth t + tm_cursorX t.

(** From [t] to [t']: the line and the position are given, the cursor and the
    output may change, and the output draws [F]. *)
Definition evolves t t' (line : list Z) (pos : Z) (F : (Z -> Z) -> (Z -> Z)) : Prop :=
  exists x y m os,
    t' = shift (put_line t line pos) x y m (tm_outBuf t ++ encodeRunes os) /\
    0 <= x < tm_termWidth t /\ 0 <= y /\ encodable os /\
    forall c, screenRun (tm_termWidth t) os (cursorAt (tm_cursorX t) (tm_cursorY t) c) = cursorAt x y (F c).

Definition draws t t' (F : (Z -> Z) -> (Z -> Z)) : Prop := evolves t t' (tm_line t) (tm_pos t) F.

Lemma evolves_cursor t t' l p F : cursor_ok t -> evolves t t' l p F -> cursor_ok t'.
Proof. intros (Hw & _) (x & y & m & os & -> & Hx & Hy & _). unfold cursor_ok. cbn. lia. Qed.

Lemma evolves_fields t t' l p F : evolves t t' l p F ->
  tm_line t' = l /\ tm_pos t' = p /\ tm_prompt t' = tm_prompt t /\ tm_echo t' = tm_echo t /\ tm_termWidth t' = tm_termWidth t.
Proof. by intros (x & y & m & os & -> & _). Qed.

Lemma evolves_trans t t1 t2 l1 p1 l2 p2 F1 F2 :
  evolves t t1 l1 p1 F1 -> evolves t1 t2 l2 p2 F2 -> evolves t t2 l2 p2 (fun c => F2 (F1 c)).
Proof.
  intros (x1 & y1 & m1 & os1 & -> & Hx1 & Hy1 & Hv1 & Hs1) (x2 & y2 & m2 & os2 & -> & Hx2 & Hy2 & Hv2 & Hs2).
  exists x2, y2, m2, (os1 ++ os2). cbn in *. split; [by rewrite encodeRunes_app, app_assoc|].
  split; [lia|]. split; [lia|]. split; [by apply Forall_app|]. intros c. by rewrite screenRun_app, Hs1, Hs2.
Qed.

(** The drawn cells are what matters. *)
Lemma evolves_ext t t' l p F G : (forall c, F c = G c) -> evolves t t' l p F -> evolves t t' l p G.
Proof.
  intros HFG (x & y & m & os & E & Hx & Hy & Hv & Hs). exists x, y, m, os. split; [done|]. split; [done|]. split; [done|]. split; [done|].
  intros c. by rewrite <- HFG.
Qed.

Lemma draws_trans t t1 t2 F1 F2 : draws t t1 F1 -> draws t1 t2 F2 -> draws t t2 (fun c => F2 (F1 c)).
Proof.
  unfold draws. intros H1 H2. destruct (evolves_fields _ _ _ _ _ H1) as (E1 & E2 & _). rewrite E1, E2 in H2. by eapply evolves_trans.
Qed.

Lemma evolves_draws t t1 t2 l p F1 F2 : evolves t t1 l p F1 -> draws t1 t2 F2 -> evolves t t2 l p (fun c => F2 (F1 c)).
Proof.
  unfold draws. intros H1 H2. destruct (evolves_fields _ _ _ _ _ H1) as (E1 & E2 & _). rewrite E1, E2 in H2. by eapply evolves_trans.
Qed.

Lemma evolves_put t l p : cursor_ok t -> evolves t (put_line t l p) l p (fun c => c).
Proof.
  intros (Hw & Hx & Hy). exists (tm_cursorX t), (tm_cursorY t), (tm_maxLine t), []. rewrite app_nil_r.
  split; [by destruct t|]. split; [done|]. split; [done|]. by split.
Qed.

Lemma draws_put t t1 l p F : cursor_ok t -> draws t t1 F -> evolves t (put_line t1 l p) l p F.
Proof.
  intros Ht H1. eapply evolves_ext; [|eapply evolves_trans; [exact H1|]; apply evolves_put; by eapply evolves_cursor]. done.
Qed.

Lemma draws_refl t : cursor_ok t -> draws t t (fun c => c).
Proof. intros Ht. pose proof (evolves_put t (tm_line t) (tm_pos t) Ht) as H. by destruct t. Qed.

Lemma movement_valid up down left right : encodable (movement up down left right).
Proof.
  assert (H : forall n d, validRune d = true -> encodable (repeatMove n d)).
  { intros n d Hd. unfold repeatMove. induction (Z.to_nat n); cbn [repeat concat]; [done|].
    apply Forall_app. split; [by repeat constructor | done]. }
  unfold movement. rewrite !Forall_app. split; [|split; [|split]]; by apply H.
Qed.

Lemma moveCursorToPos_draws t pos : cursor_ok t -> tm_echo t = true -> 0 <= pos ->
  draws t (moveCursorToPos t pos) (fun c => c) /\ linear (moveCursorToPos t pos) = visualLength (tm_prompt t) + pos.
Proof.
  intros Ht He Hp. assert (Ht' := Ht). destruct Ht' as (Hw & Hx & Hy). unfold moveCursorToPos. rewrite He. cbn [negb].
  assert (Hpos := prompt_pos t pos Hp). set (v := visualLength (tm_prompt t) + pos) in *.
  rewrite Z.quot_div_nonneg, Z.rem_mod_nonneg by lia.
  pose proof (Z.mod_pos_bound v (tm_termWidth t) Hw). pose proof (Z.div_pos v (tm_termWidth t)). pose proof (Z.div_mod v (tm_termWidth t)).
  split; [|unfold linear; cbn; lia].
  eexists (v mod tm_termWidth t), (v / tm_termWidth t), (tm_maxLine t), _.
  split; [by destruct t|]. split; [lia|]. split; [lia|]. split; [apply movement_valid|].
  intros c. rewrite run_movement;
    try (destruct (Z.ltb_spec (v mod tm_termWidth t) (tm_cursorX t)), (Z.ltb_spec (tm_cursorX t) (v mod tm_termWidth t));
         destruct (Z.ltb_spec (v / tm_termWidth t) (tm_cursorY t)), (Z.ltb_spec (tm_cursorY t) (v / tm_termWidth t)); lia).
  destruct (Z.ltb_spec (v mod tm_termWidth t) (tm_cursorX t)), (Z.ltb_spec (tm_cursorX t) (v mod tm_termWidth t));
    destruct (Z.ltb_spec (v / tm_termWidth t) (tm_cursorY t)), (Z.ltb_spec (tm_cursorY t) (v / tm_termWidth t)); try lia;
    unfold cursorAt; f_equal; lia.
Qed.

Lemma glyphs_valid rs : Forall glyph rs -> encodable rs.
Proof. intros H. eapply Forall_impl; [exact H|]. by intros r []. Qed.

(** Text that is queued and then counted. *)
Lemma print_draws t rs : cursor_ok t -> Forall glyph rs ->
  draws t (advanceCursor (queue t rs) (zlen rs)) (overlay (linear t) rs) /\
  linear (advanceCursor (queue t rs) (zlen rs)) = linear t + zlen rs.
Proof.
  intros (Hw & Hx & Hy) Hrs. set (w := tm_termWidth t) in *. pose proof (zlen_nonneg rs) as Hn. set (n := tm_cursorX t + zlen rs).
  assert (Hdm := Z.div_mod n w ltac:(lia)). pose proof (Z.mod_pos_bound n w Hw) as Hm. assert (Hq : 0 <= n / w) by (apply Z.div_pos; lia).
  assert (Et : advanceCursor (queue t rs) (zlen rs) =
               shift (put_line t (tm_line t) (tm_pos t)) (n mod w) (tm_cursorY t + n / w)
                 (if tm_maxLine t <? tm_cursorY t + n / w then tm_cursorY t + n / w else tm_maxLine t)
                 (tm_outBuf t ++ encodeRunes (rs ++ if (0 <? zlen rs) && (n mod w =? 0) then [13; 10] else []))).
  { unfold advanceCursor. cbn [tm_cursorX tm_cursorY tm_termWidth tm_maxLine queue put_out]. fold w n. rewrite Z.quot_div_nonneg by lia.
    rewrite encodeRunes_app, app_assoc.
    destruct (tm_maxLine t <? tm_cursorY t + n / w); cbn [tm_termWidth put_maxLine put_out queue]; fold w; rewrite Z.rem_mod_nonneg by lia;
      destruct (_ && _); unfold shift; destruct t; cbn; rewrite ?app_nil_r; done. }
  rewrite Et. split; [|unfold linear, shift; cbn; fold w; nia].
  eexists _, _, _, _. split; [done|]. fold w. split; [lia|]. split; [lia|].
  split; [apply Forall_app; split; [by apply glyphs_valid | destruct (_ && _); by repeat constructor]|].
  intros c. destruct (decide (rs = [])) as [->|Hne].
  { cbn [zlen length] in *. subst n. change (zlen (@nil Z)) with 0. rewrite Z.add_0_r, Z.mod_small, Z.div_small, Z.add_0_r by lia. done. }
  assert (0 < zlen rs) by (destruct rs; [done|]; rewrite zlen_cons; pose proof (zlen_nonneg rs); lia).
  rewrite (proj2 (Z.ltb_lt 0 (zlen rs))) by lia. cbn [andb]. rewrite screenRun_app, run_glyphs by done. unfold linear. fold w.
  replace (tm_cursorY t * w + tm_cursorX t + zlen rs) with (n + tm_cursorY t * w) by lia.
  assert (Em : (n + tm_cursorY t * w) mod w = n mod w) by (rewrite Z_mod_plus_full; done).
  assert (Ed : (n + tm_cursorY t * w) / w = tm_cursorY t + n / w) by (rewrite Z_div_plus_full by lia; lia).
  destruct (Z.eqb_spec (n mod w) 0) as [E0|E0].
  - rewrite run_crlf by (done || lia). by rewrite Ed, E0.
  - cbn [screenRun foldl]. unfold penAt. rewrite Em, Ed, (proj2 (Z.eqb_neq _ _)) by done. done.
Qed.

Lemma writeLine_draws t line : cursor_ok t -> Forall glyph line ->
  exists t', writeLine t line = Ret t' /\ draws t t' (overlay (linear t) line) /\ linear t' = linear t + zlen line.
Proof.
  unfold writeLine. intros Ht Hg. assert (Hl : (length line <= length line)%nat) by lia. revert Hl.
  generalize (length line) at 2 3 as fuel. intros fuel. revert t line Ht Hg.
  induction fuel as [|fuel IH]; intros t [|r line] Ht Hg Hl; cbn [writeLoop];
    try (eexists; split; [done|]; split; [by apply draws_refl | rewrite zlen_nil; lia]).
  { cbn in Hl. lia. }
  assert (Ht' := Ht). destruct Ht' as (Hw & Hx & Hy). set (full := r :: line) in *.
  assert (Hf : 1 <= zlen full) by (subst full; rewrite zlen_cons; pose proof (zlen_nonneg line); lia).
  set (todo := if _ <? _ then _ else _).
  assert (Htodo : 1 <= todo <= zlen full) by (subst todo; destruct (Z.ltb_spec (tm_termWidth t - tm_cursorX t) (zlen full)); lia).
  rewrite upto_ok, from_ok by lia. cbn [obind]. rewrite <- (ztake_zdrop todo full) in Hg. apply Forall_app in Hg as [Hg1 Hg2].
  rewrite visualLength_glyphs by done. destruct (print_draws t (ztake todo full) Ht Hg1) as [D1 L1]. set (t1 := advanceCursor _ _) in *.
  destruct (IH t1 (zdrop todo full) (evolves_cursor _ _ _ _ _ Ht D1) Hg2) as (t2 & E2 & D2 & L2).
  { pose proof (zlen_zdrop todo full). unfold zlen in *. lia. }
  exists t2. split; [done|]. split; [|rewrite L2, L1, <- Z.add_assoc, <- zlen_app, ztake_zdrop; done].
  eapply evolves_ext; [|exact (draws_trans _ _ _ _ _ D1 D2)]. intros c. cbn beta. by rewrite L1, <- overlay_app, ztake_zdrop.
Qed.

Lemma blank_glyph : glyph blank.
Proof. split; [unfold blank; lia | done]. Qed.

Lemma blanks_glyph n : Forall glyph (repeat blank n).
Proof. induction n; constructor; [apply blank_glyph | done]. Qed.

(** A rune at a time. *)
Lemma times_draws n f t : (forall t, cursor_ok t -> exists t', f t = Ret t' /\ draws t t' (overlay (linear t) [blank]) /\ linear t' = linear t + 1) ->
  cursor_ok t -> exists t', times n f t = Ret t' /\ draws t t' (overlay (linear t) (repeat blank n)) /\ linear t' = linear t + Z.of_nat n.
Proof.
  intros Hf. revert t. induction n as [|n IH]; intros t Ht; cbn [times]; [eexists; split; [done|]; split; [by apply draws_refl | lia]|].
  destruct (Hf t Ht) as (t1 & -> & D1 & L1). cbn [obind]. destruct (IH t1 (evolves_cursor _ _ _ _ _ Ht D1)) as (t2 & -> & D2 & L2).
  exists t2. split; [done|]. split; [|lia]. eapply evolves_ext; [|exact (draws_trans _ _ _ _ _ D1 D2)]. intros c. cbn beta.
  rewrite L1. change 1 with (zlen [blank]) at 1. rewrite <- overlay_app. done.
Qed.

Lemma writeBlank_draws t : cursor_ok t ->
  exists t', writeLine t [blank] = Ret t' /\ draws t t' (overlay (linear t) [blank]) /\ linear t' = linear t + 1.
Proof. intros Ht. apply (writeLine_draws t [blank] Ht). apply (blanks_glyph 1). Qed.

Lemma setLine_draws t line pos : cursor_ok t -> tm_echo t = true -> Forall glyph line -> 0 <= pos ->
  exists t', setLine t line pos = Ret t' /\ linear t' = visualLength (tm_prompt t) + pos /\
    evolves t t' line pos (overlay (visualLength (tm_prompt t)) (line ++ repeat blank (Z.to_nat (zlen (tm_line t) - zlen line)))).
Proof.
  intros Ht He Hg Hp. unfold setLine. rewrite He.
  destruct (moveCursorToPos_draws t 0 Ht He) as [D1 L1]; [lia|]. rewrite Z.add_0_r in L1. set (t1 := moveCursorToPos t 0) in *.
  assert (C1 := evolves_cursor _ _ _ _ _ Ht D1). destruct (evolves_fields _ _ _ _ _ D1) as (Fl & _ & Fp & Fe & _).
  destruct (writeLine_draws t1 line C1 Hg) as (t2 & -> & D2 & L2). cbn [obind]. assert (C2 := evolves_cursor _ _ _ _ _ C1 D2).
  destruct (evolves_fields _ _ _ _ _ D2) as (Gl & _ & Gp & Ge & _). rewrite Gl, Fl.
  destruct (times_draws (Z.to_nat (zlen (tm_line t) - zlen line)) _ t2 writeBlank_draws C2) as (t3 & -> & D3 & L3). cbn [obind].
  assert (C3 := evolves_cursor _ _ _ _ _ C2 D3). destruct (evolves_fields _ _ _ _ _ D3) as (_ & _ & Kp & Ke & _).
  destruct (moveCursorToPos_draws t3 pos C3) as [D4 L4]; [congruence | done|]. eexists. split; [done|].
  split; [unfold linear in *; cbn; rewrite L4; congruence|].
  eapply evolves_ext; [|apply draws_put; [done|]; exact (draws_trans _ _ _ _ _ D1 (draws_trans _ _ _ _ _ D2 (draws_trans _ _ _ _ _ D3 D4)))].
  intros c. cbn beta. rewrite L2, L1, <- overlay_app. done.
Qed.

Lemma goto_draws t pos : cursor_ok t -> tm_echo t = true -> 0 <= pos ->
  evolves t (goto t pos) (tm_line t) pos (fun c => c) /\ linear (goto t pos) = visualLength (tm_prompt t) + pos.
Proof.
  intros Ht He Hp. unfold goto. assert (H1 := evolves_put t (tm_line t) pos Ht).
  destruct (moveCursorToPos_draws (put_line t (tm_line t) pos) pos (evolves_cursor _ _ _ _ _ Ht H1) He Hp) as [D2 L2].
  split; [exact (evolves_draws _ _ _ _ _ _ _ H1 D2) | exact L2].
Qed.

Lemma erase_draws t a m b : cursor_ok t -> tm_echo t = true -> Forall glyph b -> m <> [] -> tm_line t = a ++ m ++ b -> tm_pos t = zlen (a ++ m) ->
  exists t', eraseNPreviousChars t (zlen m) = Ret t' /\ linear t' = visualLength (tm_prompt t) + zlen a /\
    evolves t t' (a ++ b) (zlen a) (overlay (visualLength (tm_prompt t) + zlen a) (b ++ repeat blank (length m))).
Proof.
  intros Ht He Hg Hm El Ep. unfold eraseNPreviousChars. rewrite zlen_app in Ep. pose proof (zlen_nonneg a) as Ha. pose proof (zlen_nonneg b) as Hb.
  assert (0 < zlen m) by (destruct m; [done|]; rewrite zlen_cons; pose proof (zlen_nonneg m); lia).
  rewrite (proj2 (Z.eqb_neq _ _)), (proj2 (Z.ltb_ge _ _)) by lia. replace (tm_pos t - zlen m) with (zlen a) by lia. fold (goto t (zlen a)).
  destruct (goto_draws t (zlen a) Ht He Ha) as [D1 L1]. set (t1 := goto t (zlen a)) in *. assert (C1 := evolves_cursor _ _ _ _ _ Ht D1).
  destruct (evolves_fields _ _ _ _ _ D1) as (Fl & _ & Fp & Fe & Fw). rewrite Fl, El.
  rewrite upto_ok, from_ok by (rewrite !zlen_app; lia). cbn [obind].
  rewrite ztake_app_zlen, app_assoc, (Z.add_comm (zlen m)), <- zlen_app, zdrop_app_zlen.
  set (t2 := put_line t1 (a ++ b) (zlen a)). assert (C2 : cursor_ok t2) by exact C1. assert (D2 := evolves_put t1 (a ++ b) (zlen a) C1).
  assert (L2 : linear t2 = linear t1) by done.
  change (tm_echo t2) with (tm_echo t1). rewrite Fe, He. destruct (writeLine_draws t2 b C2 Hg) as (t3 & -> & D3 & L3). cbn [obind].
  assert (C3 := evolves_cursor _ _ _ _ _ C2 D3). destruct (evolves_fields _ _ _ _ _ D3) as (_ & Gq & Gp & Ge & _).
  destruct (print_draws t3 (repeat blank (length m)) C3 (blanks_glyph _)) as [D4 L4].
  assert (En : zlen (repeat blank (length m)) = zlen m) by (unfold zlen; by rewrite repeat_length).
  replace (Z.to_nat (zlen m)) with (length m) by (unfold zlen; lia). rewrite En in *. set (t4 := advanceCursor _ _) in *.
  assert (C4 := evolves_cursor _ _ _ _ _ C3 D4). destruct (evolves_fields _ _ _ _ _ D4) as (_ & Kq & Kp & Ke & _).
  assert (Eq4 : tm_pos t4 = zlen a) by (rewrite Kq, Gq; done). rewrite Eq4.
  destruct (moveCursorToPos_draws t4 (zlen a) C4) as [D5 L5]; [rewrite Ke, Ge; cbn; congruence | done|].
  eexists. split; [done|]. assert (Ev : tm_prompt t4 = tm_prompt t) by (rewrite Kp, Gp; cbn; done). rewrite Ev in L5. split; [done|].
  eapply evolves_ext; [|exact (evolves_draws _ _ _ _ _ _ _ (evolves_trans _ _ _ _ _ _ _ _ _ D1 D2) (draws_trans _ _ _ _ _ D3 (draws_trans _ _ _ _ _ D4 D5)))].
  intros c. cbn beta. rewrite L3, L2, L1, <- overlay_app. done.
Qed.

Lemma addKey_draws t a b key : cursor_ok t -> tm_echo t = true -> Forall glyph (key :: b) -> tm_line t = a ++ b -> tm_pos t = zlen a ->
  linear t = visualLength (tm_prompt t) + tm_pos t ->
  exists t', addKeyToLine t key = Ret t' /\ linear t' = visualLength (tm_prompt t) + (zlen a + 1) /\
    evolves t t' (a ++ key :: b) (zlen a + 1) (overlay (visualLength (tm_prompt t) + zlen a) (key :: b)).
Proof.
  intros Ht He Hg El Ep L0. unfold addKeyToLine. pose proof (zlen_nonneg a) as Ha. pose proof (zlen_nonneg b) as Hb.
  rewrite El, Ep, upto_ok, from_ok by (rewrite zlen_app; lia). cbn [obind]. rewrite ztake_app_zlen, zdrop_app_zlen.
  set (t1 := put_line t (a ++ key :: b) (zlen a)). assert (C1 : cursor_ok t1) by exact Ht.
  assert (D1 := evolves_put t (a ++ key :: b) (zlen a) Ht). change (tm_echo t1) with (tm_echo t). rewrite He.
  destruct (writeLine_draws t1 (key :: b) C1 Hg) as (t2 & -> & D2 & L2). cbn [obind]. assert (C2 := evolves_cursor _ _ _ _ _ C1 D2).
  destruct (evolves_fields _ _ _ _ _ D2) as (Gl & Gq & Gp & Ge & _). rewrite Gl, Gq. cbn [tm_line tm_pos put_line t1].
  set (t3 := put_line t2 (a ++ key :: b) (zlen a + 1)). assert (C3 : cursor_ok t3) by exact C2.
  destruct (moveCursorToPos_draws t3 (zlen a + 1) C3) as [D3 L3]; [cbn; rewrite Ge; done | lia|].
  eexists. split; [done|]. split; [rewrite L3; cbn; by rewrite Gp|].
  assert (D12 := evolves_draws _ _ _ _ _ _ _ D1 D2). assert (D123 := evolves_trans _ _ _ _ _ _ _ _ _ D12 (evolves_put t2 (a ++ key :: b) (zlen a + 1) C2)).
  eapply evolves_ext; [|exact (evolves_draws _ _ _ _ _ _ _ D123 D3)]. intros c. cbn beta.
  change (linear t1) with (linear t). by rewrite L0, Ep.
Qed.

Lemma deleteLine_draws t a b : cursor_ok t -> tm_echo t = true -> tm_line t = a ++ b -> tm_pos t = zlen a ->
  linear t = visualLength (tm_prompt t) + tm_pos t ->
  exists t', deleteLine t = Ret t' /\ linear t' = visualLength (tm_prompt t) + zlen a /\
    evolves t t' a (zlen a) (overlay (visualLength (tm_prompt t) + zlen a) (repeat blank (length b))).
Proof.
  intros Ht He El Ep L0. unfold deleteLine. pose proof (zlen_nonneg a) as Ha. pose proof (zlen_nonneg b) as Hb.
  rewrite El, Ep, upto_ok by (rewrite zlen_app; lia). cbn [obind]. rewrite ztake_app_zlen.
  replace (Z.to_nat (zlen (a ++ b) - zlen a)) with (length b) by (rewrite zlen_app; unfold zlen; lia).
  destruct (times_draws (length b) (fun t => Ret (advanceCursor (queue t [blank]) 1)) t) as (t1 & -> & D1 & L1); [|done|].
  { intros t1 Ht1. eexists. split; [done|]. apply (print_draws t1 [blank] Ht1), (blanks_glyph 1). }
  cbn [obind]. destruct (evolves_fields _ _ _ _ _ D1) as (_ & Gq & Gp & Ge & _). rewrite Gq, Ep.
  assert (D2 := draws_put t t1 a (zlen a) _ Ht D1). assert (C2 := evolves_cursor _ _ _ _ _ Ht D2).
  destruct (moveCursorToPos_draws (put_line t1 a (zlen a)) (zlen a) C2) as [D3 L3]; [cbn; congruence | done|].
  eexists. split; [done|]. split; [rewrite L3; cbn; by rewrite Gp|].
  eapply evolves_ext; [|exact (evolves_draws _ _ _ _ _ _ _ D2 D3)]. intros c. cbn beta. by rewrite L0, Ep.
Qed.

(** The screen is erased and the cursor put into its corner. *)
Lemma home_draws t : cursor_ok t -> draws t (put_cursor (queue t clearScreenCodes) 0 0) (fun _ _ => blank).
Proof.
  intros (Hw & Hx & Hy). exists 0, 0, (tm_maxLine t), clearScreenCodes. split; [by destruct t|]. split; [lia|]. split; [lia|].
  split; [by repeat constructor|]. done.
Qed.

Lemma queue_queue t a b x y : put_cursor (queue (queue t a) b) x y = queue (put_cursor (queue t a) x y) b.
Proof. by destruct t. Qed.

Lemma clearScreen_draws t : cursor_ok t -> tm_echo t = true -> Forall glyph (tm_prompt t) -> Forall glyph (tm_line t) -> 0 <= tm_pos t ->
  exists t', clearScreen t = Ret t' /\ linear t' = visualLength (tm_prompt t) + tm_pos t /\
    draws t t' (fun _ => overlay (zlen (tm_prompt t)) (tm_line t) (overlay 0 (tm_prompt t) (fun _ => blank))).
Proof.
  intros Ht He Hgp Hgl Hp. unfold clearScreen. cbn [tm_prompt queue put_out put_cursor]. rewrite queue_queue.
  assert (D1 := home_draws t Ht). set (t1 := put_cursor (queue t clearScreenCodes) 0 0) in *. assert (C1 := evolves_cursor _ _ _ _ _ Ht D1).
  rewrite (visualLength_glyphs (tm_prompt t)) by done. destruct (print_draws t1 (tm_prompt t) C1 Hgp) as [D2 L2].
  set (t2 := advanceCursor _ _) in *. assert (C2 := evolves_cursor _ _ _ _ _ C1 D2).
  destruct (evolves_fields _ _ _ _ _ D2) as (Gl & Gq & Gp & Ge & _). rewrite Gl, Gq. change (tm_line t1) with (tm_line t). change (tm_pos t1) with (tm_pos t).
  destruct (setLine_draws t2 (tm_line t) (tm_pos t) C2) as (t3 & -> & L3 & D3); [rewrite Ge; done | done | done|]. exists t3. split; [done|].
  assert (Ep : visualLength (tm_prompt t2) = zlen (tm_prompt t)) by (rewrite Gp; by apply visualLength_glyphs).
  rewrite Ep in *. split; [done|].
  eapply evolves_ext; [|exact (evolves_trans _ _ _ _ _ _ _ _ _ (draws_trans _ _ _ _ _ D1 D2) D3)].
  intros c. cbn beta. rewrite Gl. change (tm_line t1) with (tm_line t). rewrite Z.sub_diag. cbn [Z.to_nat repeat]. by rewrite app_nil_r.
Qed.

(** The next row, below the line that was entered. *)
Lemma enter_draws t : cursor_ok t -> tm_echo t = true ->
  exists os t', enterKey t = (encodeRunes (tm_line t), t') /\ tm_outBuf t' = tm_outBuf t ++ encodeRunes os /\ encodable os /\
    tm_line t' = [] /\ tm_cursorX t' = 0 /\ tm_cursorY t' = 0 /\
    forall c, screenRun (tm_termWidth t) os (cursorAt (tm_cursorX t) (tm_cursorY t) c) =
              cursorAt 0 ((visualLength (tm_prompt t) + zlen (tm_line t)) / tm_termWidth t + 1) c.
Proof.
  intros Ht He. unfold enterKey. destruct (moveCursorToPos_draws t (zlen (tm_line t)) Ht He (zlen_nonneg _)) as [D1 L1].
  set (t1 := moveCursorToPos _ _) in *. assert (Hw := proj1 Ht). destruct D1 as (x & y & m & os & Et & Hx & Hy & Hv & Hs).
  assert (Hrow : (visualLength (tm_prompt t) + zlen (tm_line t)) / tm_termWidth t = y).
  { rewrite <- L1, Et. unfold linear. cbn. rewrite Z.add_comm, Z_div_plus_full, Z.div_small by lia. lia. }
  exists (os ++ [13; 10]). eexists. split; [rewrite Et; done|]. cbn [tm_outBuf put_maxLine put_cursor put_line queue put_out].
  split; [cbn; by rewrite encodeRunes_app, app_assoc|]. split; [apply Forall_app; split; [done | by repeat constructor]|].
  split; [done|]. split; [done|]. split; [done|]. intros c. rewrite screenRun_app, Hs, Hrow. done.
Qed.
End Drawing.

(** ** The text on the screen *)

(** The cells from the start of the prompt on hold [text], then blanks. *)
Definition painted (text : list Z) (c : Z -> Z) : Prop := forall q, 0 <= q -> c q = default blank (text !! Z.to_nat q).

Lemma lookup_repeat {A} (x : A) j k : (j < k)%nat -> repeat x k !! j = Some x.
Proof. revert j. induction k as [|k IH]; intros [|j] Hj; cbn; try lia; [done|]. apply IH. lia. Qed.

(** Text and blanks over the end of the old text. *)
Lemma painted_overlay x y y' k c : painted (x ++ y) c -> (length y <= length y' + k)%nat ->
  painted (x ++ y') (overlay (zlen x) (y' ++ repeat blank k) c).
Proof.
  intros Hp Hk q Hq. rewrite overlay_lookup. unfold zlen. rewrite length_app, repeat_length.
  destruct (Z.leb_spec (Z.of_nat (length x)) q) as [Hge|Hlt]; cbn [andb].
  2: { rewrite Hp by done. by rewrite !lookup_app_l by lia. }
  rewrite (lookup_app_r x) by lia. replace (Z.to_nat q - length x)%nat with (Z.to_nat (q - Z.of_nat (length x))) by lia.
  set (i := Z.to_nat (q - Z.of_nat (length x))). destruct (Z.ltb_spec q (Z.of_nat (length x) + Z.of_nat (length y' + k))) as [Hin|Hout].
  - destruct (decide (i < length y')%nat) as [Hi|Hi].
    + rewrite lookup_app_l by done. by destruct (lookup_lt_is_Some_2 y' i Hi) as [r ->].
    + rewrite lookup_app_r, (lookup_ge_None_2 y') by lia. rewrite lookup_repeat by lia. done.
  - rewrite Hp, lookup_app_r, (lookup_ge_None_2 y), (lookup_ge_None_2 y') by lia. done.
Qed.

Lemma painted_blank : painted [] (fun _ => blank).
Proof. intros q Hq. done. Qed.

Section Display.
Context {C : Type}.
Implicit Types t : Terminal C.

(** The terminal while a line is typed: the cursor is where the text is. *)
Definition drawn t : Prop :=
  cursor_ok t /\ tm_echo t = true /\ Forall glyph (tm_prompt t) /\ Forall glyph (tm_line t) /\
  linear t = zlen (tm_prompt t) + tm_pos t /\ 0 <= tm_pos t <= zlen (tm_line t).

(** The screen follows from [t] to [t']. *)
Definition redraws t t' : Prop :=
  Forall glyph (tm_line t') /\ linear t' = zlen (tm_prompt t) + tm_pos t' /\
  exists F, evolves t t' (tm_line t') (tm_pos t') F /\
    forall c, painted (tm_prompt t ++ tm_line t) c -> painted (tm_prompt t ++ tm_line t') (F c).

Lemma redraws_intro t t' l p F : drawn t -> evolves t t' l p F -> linear t' = visualLength (tm_prompt t) + p -> Forall glyph l ->
  (forall c, painted (tm_prompt t ++ tm_line t) c -> painted (tm_prompt t ++ l) (F c)) -> redraws t t'.
Proof.
  intros (_ & _ & Hgp & _) D L Hg HF. destruct (evolves_fields _ _ _ _ _ D) as (El & Ep & _).
  rewrite visualLength_glyphs in L by done. unfold redraws. rewrite El, Ep. split; [done|]. split; [done|]. by exists F.
Qed.

Lemma redraws_refl t : drawn t -> redraws t t.
Proof.
  intros Hd. assert (Hd' := Hd). destruct Hd' as (Ht & He & Hgp & Hgl & L & Hp). apply (redraws_intro t t (tm_line t) (tm_pos t) (fun c => c)); try done.
  - by apply draws_refl.
  - by rewrite visualLength_glyphs.
Qed.

Lemma goto_redraws t p : drawn t -> 0 <= p -> redraws t (goto t p).
Proof.
  intros Hd Hp. assert (Hd' := Hd). destruct Hd' as (Ht & He & Hgp & Hgl & L & _).
  destruct (goto_draws t p Ht He Hp) as [D L']. eapply redraws_intro; try done.
Qed.

Lemma setLine_redraws t line pos : drawn t -> Forall glyph line -> 0 <= pos -> exists t', setLine t line pos = Ret t' /\ redraws t t'.
Proof.
  intros Hd Hg Hp. assert (Hd' := Hd). destruct Hd' as (Ht & He & Hgp & Hgl & L & _).
  destruct (setLine_draws t line pos Ht He Hg Hp) as (t' & E & L' & D). exists t'. split; [done|]. eapply redraws_intro; try done.
  intros c Hc. rewrite visualLength_glyphs by done. eapply painted_overlay; [exact Hc|]. unfold zlen. lia.
Qed.

Lemma erase_painted t x a m b c : tm_line t = a ++ m ++ b -> painted (x ++ tm_line t) c ->
  painted (x ++ a ++ b) (overlay (zlen x + zlen a) (b ++ repeat blank (length m)) c).
Proof.
  intros El Hc. rewrite El in Hc. rewrite app_assoc, <- zlen_app. rewrite app_assoc in Hc. eapply painted_overlay; [exact Hc|]. rewrite length_app. lia.
Qed.

Lemma erase_redraws t a m b p : drawn t -> tm_line t = a ++ m ++ b -> p = zlen (a ++ m) -> m <> [] ->
  exists t', eraseNPreviousChars (put_line t (tm_line t) p) (zlen m) = Ret t' /\ redraws t t'.
Proof.
  intros Hd El Ep Hm. assert (Hd' := Hd). destruct Hd' as (Ht & He & Hgp & Hgl & L & _).
  rewrite El in Hgl. apply Forall_app in Hgl as [Hga Hgl]. apply Forall_app in Hgl as [Hgm Hgb].
  assert (D0 := evolves_put t (tm_line t) p Ht).
  destruct (erase_draws (put_line t (tm_line t) p) a m b Ht He Hgb Hm El Ep) as (t' & E & L' & D). exists t'. split; [done|].
  eapply (redraws_intro t t' (a ++ b) (zlen a)); [done | exact (evolves_trans _ _ _ _ _ _ _ _ _ D0 D) | exact L' | by apply Forall_app|].
  intros c Hc. cbn [tm_prompt put_line]. rewrite visualLength_glyphs by done. by eapply erase_painted.
Qed.

Lemma put_line_id t : put_line t (tm_line t) (tm_pos t) = t.
Proof. by destruct t. Qed.

Lemma erase_here_redraws t a m b : drawn t -> tm_line t = a ++ m ++ b -> tm_pos t = zlen (a ++ m) ->
  exists t', eraseNPreviousChars t (zlen m) = Ret t' /\ redraws t t'.
Proof.
  intros Hd El Ep. destruct (decide (m = [])) as [->|Hm].
  - exists t. split; [done | by apply redraws_refl].
  - destruct (erase_redraws t a m b (tm_pos t) Hd El Ep Hm) as (t' & E & H). rewrite put_line_id in E. by exists t'.
Qed.

Lemma addKey_redraws t key : drawn t -> glyph key -> exists t', addKeyToLine t key = Ret t' /\ redraws t t'.
Proof.
  intros Hd Hk. assert (Hd' := Hd). destruct Hd' as (Ht & He & Hgp & Hgl & L & Hp).
  set (a := ztake (tm_pos t) (tm_line t)). set (b := zdrop (tm_pos t) (tm_line t)).
  assert (El : tm_line t = a ++ b) by (symmetry; apply ztake_zdrop). assert (Ep : tm_pos t = zlen a) by (symmetry; by apply zlen_ztake). clearbody a b.
  rewrite El in Hgl. apply Forall_app in Hgl as [Hga Hgb]. rewrite <- (visualLength_glyphs (tm_prompt t)) in L by done.
  destruct (addKey_draws t a b key Ht He (Forall_cons_2 _ _ _ Hk Hgb) El Ep L) as (t' & E & L' & D). exists t'. split; [done|].
  eapply redraws_intro; [done | exact D | exact L' | apply Forall_app; by split; [|constructor]|].
  intros c Hc. rewrite visualLength_glyphs by done. rewrite El in Hc. rewrite app_assoc in Hc. assert (Hq := painted_overlay (tm_prompt t ++ a) b (key :: b) 0 c Hc ltac:(cbn; lia)).
  cbn [repeat] in Hq. rewrite app_nil_r, zlen_app in Hq. by rewrite app_assoc.
Qed.

Lemma deleteLine_redraws t : drawn t -> exists t', deleteLine t = Ret t' /\ redraws t t'.
Proof.
  intros Hd. assert (Hd' := Hd). destruct Hd' as (Ht & He & Hgp & Hgl & L & Hp).
  set (a := ztake (tm_pos t) (tm_line t)). set (b := zdrop (tm_pos t) (tm_line t)).
  assert (El : tm_line t = a ++ b) by (symmetry; apply ztake_zdrop). assert (Ep : tm_pos t = zlen a) by (symmetry; by apply zlen_ztake). clearbody a b.
  rewrite El in Hgl. apply Forall_app in Hgl as [Hga Hgb]. rewrite <- (visualLength_glyphs (tm_prompt t)) in L by done.
  destruct (deleteLine_draws t a b Ht He El Ep L) as (t' & E & L' & D). exists t'. split; [done|]. eapply redraws_intro; try done.
  intros c Hc. rewrite visualLength_glyphs by done. rewrite El in Hc. rewrite app_assoc in Hc. assert (Hq := painted_overlay (tm_prompt t ++ a) b [] (length b) c Hc ltac:(cbn; lia)).
  cbn [app] in Hq. by rewrite app_nil_r, zlen_app in Hq.
Qed.

Lemma clearScreen_redraws t : drawn t -> exists t', clearScreen t = Ret t' /\ redraws t t'.
Proof.
  intros Hd. assert (Hd' := Hd). destruct Hd' as (Ht & He & Hgp & Hgl & L & Hp).
  destruct (clearScreen_draws t Ht He Hgp Hgl) as (t' & E & L' & D); [lia|]. exists t'. split; [done|]. eapply redraws_intro; try done.
  intros c _. assert (Hq := painted_overlay [] [] (tm_prompt t) 0 _ painted_blank ltac:(cbn; lia)). cbn [app repeat zlen length] in Hq.
  rewrite app_nil_r in Hq. rewrite <- (app_nil_r (tm_prompt t)) in Hq at 1.
  assert (Hr := painted_overlay (tm_prompt t) [] (tm_line t) 0 _ Hq ltac:(cbn; lia)). cbn [repeat] in Hr. by rewrite app_nil_r in Hr.
Qed.

(** A key that a decoder can return. *)
Definition keyOk (key : Z) : Prop := validRune key = true \/ 0xd800 <= key <= 0xdbff.

Definition glyphText (s : bytes) : Prop := Forall glyph (decodeRunes s).

(** Past lines and completions are text. *)
Definition history_text t : Prop := Forall glyphText (rb_entries (tm_history t)) /\ glyphText (tm_historyPending t).

Definition callback_text (cb : option callback) : Prop :=
  forall f line pos key l p, cb = Some f -> f line pos key = Some (l, p) -> glyphText l.

Definition ready t : Prop := drawn t /\ (exists e, views t e) /\ tm_pasteActive t = false /\ history_text t.

(** The output from [t] to [t'] takes the screen from the one to the other. *)
Definition displays t t' : Prop :=
  cursor_ok t' /\ tm_prompt t' = tm_prompt t /\ Forall glyph (tm_line t') /\ linear t' = zlen (tm_prompt t) + tm_pos t' /\
  history_text t' /\ tm_termWidth t' = tm_termWidth t /\
  exists os, tm_outBuf t' = tm_outBuf t ++ encodeRunes os /\ encodable os /\
    forall c, painted (tm_prompt t ++ tm_line t) c ->
      exists c', screenRun (tm_termWidth t) os (cursorAt (tm_cursorX t) (tm_cursorY t) c) = cursorAt (tm_cursorX t') (tm_cursorY t') c' /\
        painted (tm_prompt t ++ tm_line t') c'.

Lemma redraws_displays t t' : cursor_ok t -> history_text t -> redraws t t' -> displays t t'.
Proof.
  intros Ht Hh (Hg & L & F & D & HF). assert (C' := evolves_cursor _ _ _ _ _ Ht D). destruct (evolves_fields _ _ _ _ _ D) as (_ & _ & Ep & _ & Ew).
  split; [done|]. split; [done|]. split; [done|]. split; [done|]. destruct D as (x & y & m & os & Et & Hx & Hy & Hv & Hs).
  split; [rewrite Et; exact Hh|]. split; [done|]. exists os. split; [by rewrite Et|]. split; [done|].
  intros c Hc. exists (F c). split; [rewrite Hs, Et; done | by apply HF].
Qed.

(** Ends a case of [handleKey]. *)
Lemma keep_displays (m : outcome (Terminal C)) t : cursor_ok t -> history_text t -> (exists t', m = Ret t' /\ redraws t t') ->
  exists t', (let? t' := m in Ret (None, t')) = Ret (@None bytes, t') /\ displays t t'.
Proof. intros Ht Hh (t' & -> & H). exists t'. split; [done | by apply redraws_displays]. Qed.

Lemma pure_displays t t' : cursor_ok t -> history_text t -> redraws t t' ->
  exists t1, Ret (@None bytes, t') = Ret (None, t1) /\ displays t t1.
Proof. intros Ht Hh H. exists t'. split; [done | by apply redraws_displays]. Qed.

Lemma nth_entry s n entry : NthPreviousEntry s n = Ret (Some entry) -> entry ∈ rb_entries s.
Proof.
  unfold NthPreviousEntry. destruct (rb_size s <=? n); [done|]. set (i := if _ <? _ then _ else _). unfold at_index.
  destruct (i <? 0); [done|]. destruct (rb_entries s !! Z.to_nat i) as [v|] eqn:E; cbn [obind]; [|done].
  intros [= <-]. by apply list_elem_of_lookup_2 in E.
Qed.

Lemma showEntry_displays t entry i p : drawn t -> history_text t -> glyphText entry -> glyphText p ->
  exists t', showEntry (put_pending t i p) entry = Ret t' /\ displays t t'.
Proof.
  intros Hd (Hh & _) He Hp. destruct (setLine_redraws (put_pending t i p) (decodeRunes entry) (zlen (decodeRunes entry)) Hd He (zlen_nonneg _)) as (t' & E & H).
  exists t'. split; [exact E|]. exact (redraws_displays (put_pending t i p) t' (proj1 Hd) (conj Hh Hp) H).
Qed.

Lemma glyphText_line l : Forall glyph l -> glyphText (encodeRunes l).
Proof. intros Hl. unfold glyphText. rewrite decodeRunes_encode; [done | by apply glyphs_valid]. Qed.

Lemma keep_outcome (m : outcome (Terminal C)) t : (exists t', m = Ret t' /\ displays t t') ->
  exists t', (let? t' := m in Ret (None, t')) = Ret (@None bytes, t') /\ displays t t'.
Proof. intros (t' & -> & H). by exists t'. Qed.

Lemma up_displays t e : drawn t -> views t e -> history_text t -> exists t', historyUp t = Ret t' /\ displays t t'.
Proof.
  intros Hd Hv Hh. assert (Hv' := Hv). destruct Hv' as (V1 & V2 & V3 & V4 & V5 & V6). unfold historyUp.
  destruct (NthPreviousEntry (tm_history t) (tm_historyIndex t + 1)) as [[entry|]|err|] eqn:En.
  - cbn [obind]. apply nth_entry in En. assert (Hg := proj1 (Forall_forall _ _) (proj1 Hh) _ En).
    apply showEntry_displays; [done | done | done|]. destruct (_ =? _); [|apply Hh]. apply glyphText_line, Hd.
  - exists t. split; [done|]. apply redraws_displays; [apply Hd | done | by apply redraws_refl].
  - rewrite (ring_nth _ _ _ V3) in En by lia. done.
  - rewrite (ring_nth _ _ _ V3) in En by lia. done.
Qed.

Lemma down_displays t e : drawn t -> views t e -> history_text t -> exists t', historyDown t = Ret t' /\ displays t t'.
Proof.
  intros Hd Hv Hh. assert (Hv' := Hv). destruct Hv' as (V1 & V2 & V3 & V4 & V5 & V6). unfold historyDown. rewrite V4.
  assert (same : exists t', Ret t = Ret t' /\ displays t t').
  { exists t. split; [done|]. apply redraws_displays; [apply Hd | done | by apply redraws_refl]. }
  destruct (Z.eqb_spec (ed_index e) (-1)); [done|]. destruct (Z.eqb_spec (ed_index e) 0).
  - destruct (setLine_redraws t (decodeRunes (tm_historyPending t)) (zlen (decodeRunes (tm_historyPending t))) Hd (proj2 Hh) (zlen_nonneg _)) as (t' & E & H).
    unfold showEntry. rewrite E. cbn [obind]. eexists. split; [done|]. exact (redraws_displays t t' (proj1 Hd) Hh H).
  - rewrite (ring_nth _ _ _ V3) by lia. cbn [obind]. destruct (ed_past e !! Z.to_nat (ed_index e - 1)) as [entry|] eqn:En; [|done].
    apply showEntry_displays; [done | done | | apply Hh]. apply (proj1 (Forall_forall _ _) (proj1 Hh)).
    apply (nth_entry _ (ed_index e - 1)). rewrite (ring_nth _ _ _ V3) by lia. by rewrite En.
Qed.

(** The line and the cursor, split at the cursor. *)
Lemma left_erase t e m l : drawn t -> views t e -> ed_left e = m ++ l -> exists t', eraseNPreviousChars t (zlen m) = Ret t' /\ redraws t t'.
Proof.
  intros Hd Hv Em. destruct (view_text _ _ Hv) as [El Ep]. rewrite Em, rev_app_distr, <- app_assoc in El. rewrite <- (zlen_rev m).
  apply (erase_here_redraws t (rev l) (rev m) (ed_right e) Hd El). by rewrite <- rev_app_distr, zlen_rev, <- Em.
Qed.

Lemma ctrlD_displays t e : drawn t -> views t e -> history_text t ->
  exists t', (if tm_pos t <? zlen (tm_line t) then
                let? t' := eraseNPreviousChars (put_line t (tm_line t) (tm_pos t + 1)) 1 in Ret (None, t')
              else Ret (None, t)) = Ret (@None bytes, t') /\ displays t t'.
Proof.
  intros Hd Hv Hh. destruct (view_text _ _ Hv) as [El Ep].
  destruct (Z.ltb_spec (tm_pos t) (zlen (tm_line t))) as [Hlt|Hge]; [|apply pure_displays; [apply Hd | done | by apply redraws_refl]].
  destruct (ed_right e) as [|r right] eqn:Er; [rewrite El, Ep, app_nil_r, zlen_rev in Hlt; lia|].
  apply keep_displays; [apply Hd | done|]. change 1 with (zlen [r]) at 2. apply (erase_redraws t (rev (ed_left e)) [r] right _ Hd El); [|done].
  by rewrite zlen_app, zlen_rev, Ep.
Qed.

Lemma insert_displays cb t key : drawn t -> history_text t -> 0 <= tm_pos t <= zlen (tm_line t) -> keyOk key -> callback_text cb ->
  (forall f line pos l p, cb = Some f -> f line pos key = Some (l, p) -> 0 <= p <= zlen l) ->
  exists t', completeKey cb t key = Ret t' /\ displays t t'.
Proof.
  intros Hd Hh Hpos Hk Hcb Hpp. assert (Ht : cursor_ok t) by apply Hd.
  assert (ins : exists t', insertKey t key = Ret t' /\ displays t t').
  { unfold insertKey. destruct (isPrintable key) eqn:Ek; cbn [negb]; [|exists t; split; [done|]; by apply redraws_displays, redraws_refl].
    destruct (_ =? _); [exists t; split; [done|]; by apply redraws_displays, redraws_refl|].
    destruct (addKey_redraws t key Hd) as (t' & E & H).
    { unfold isPrintable in Ek. apply andb_true_iff in Ek as [E1%Z.leb_le E2%negb_true_iff]. destruct Hk as [Hk|Hk]; [by split|].
      by rewrite (proj2 (Z.leb_le _ _)), (proj2 (Z.leb_le _ _)) in E2 by lia. }
    exists t'. split; [done | by apply redraws_displays]. }
  unfold completeKey. destruct cb as [f|]; [|done]. rewrite upto_ok, from_ok by done. cbn [obind].
  destruct (f _ _ _) as [[l p]|] eqn:Ef; [|done]. assert (Hb := Hpp _ _ _ _ _ eq_refl Ef).
  rewrite !(proj2 (Z.ltb_ge _ _)) by lia. cbn [orb].
  destruct (setLine_redraws t (decodeRunes l) (runeCount (ztake p l)) Hd (Hcb _ _ _ _ _ _ eq_refl Ef) (zlen_nonneg _)) as (t' & E & H).
  exists t'. split; [done | by apply redraws_displays].
Qed.

Lemma callback_pos cb key : callback_ok cb ->
  forall f line pos l p, cb = Some f -> f line pos key = Some (l, p) -> 0 <= p <= zlen l.
Proof.
  intros Hcb f line pos l p E Ef. destruct (Hcb _ _ _ _ _ _ E Ef) as (a & b & -> & -> & _). rewrite encodeRunes_app, zlen_app.
  pose proof (zlen_nonneg (encodeRunes a)). pose proof (zlen_nonneg (encodeRunes b)). lia.
Qed.

Lemma handleKey_displays cb t key : ready t -> keyOk key -> callback_ok cb -> callback_text cb -> key <> keyEnter ->
  exists t', handleKey cb t key = Ret (None, t') /\ displays t t'.
Proof.
  intros (Hd & [e Hv] & Hp & Hh) Hk Hcb Hct Hne. destruct (view_text _ _ Hv) as [El Ep]. assert (Ht : cursor_ok t) by apply Hd.
  assert (Hpos : 0 <= tm_pos t <= zlen (tm_line t)) by apply Hd.
  destruct (wordStart_suffix (ed_left e)) as [m Em]. destruct (suffix_count _ _ _ Em) as [Es _].
  destruct (wordEnd_suffix (ed_right e)) as [m' Em']. destruct (suffix_count _ _ _ Em') as [Es' _].
  pose proof (zlen_nonneg m'). pose proof (zlen_nonneg (wordStart (ed_left e))).
  assert (Hsame : exists t', Ret (@None bytes, t) = Ret (None, t') /\ displays t t') by (apply pure_displays; [done | done | by apply redraws_refl]).
  assert (Hgoto : forall p, 0 <= p -> exists t', Ret (@None bytes, goto t p) = Ret (None, t') /\ displays t t')
    by (intros p Hp0; apply pure_displays; [done | done | by apply goto_redraws]).
  unfold handleKey. rewrite Hp, (countToLeftWord_spec t _ _ El Ep), (countToRightWord_spec t _ _ El Ep). cbn [andb].
  destruct (key =? keyBackspace).
  { destruct (Z.eqb_spec (tm_pos t) 0); [done|]. apply keep_displays; [done | done|].
    destruct (ed_left e) as [|r l] eqn:Er; [by rewrite Ep in n|]. by apply (left_erase t e [r] l). }
  destruct (key =? keyAltLeft); [apply Hgoto; lia|].
  destruct (key =? keyAltRight); [apply Hgoto; lia|].
  destruct (key =? keyLeft); [destruct (Z.eqb_spec (tm_pos t) 0); [done | apply Hgoto; lia]|].
  destruct (key =? keyRight); [destruct (_ =? _); [done | apply Hgoto; lia]|].
  destruct (key =? keyHome); [destruct (_ =? _); [done | apply Hgoto; lia]|].
  destruct (key =? keyEnd); [destruct (_ =? _); [done | apply Hgoto; lia]|].
  destruct (key =? keyUp); [by eapply keep_outcome, up_displays|].
  destruct (key =? keyDown); [by eapply keep_outcome, down_displays|].
  rewrite (proj2 (Z.eqb_neq key keyEnter)) by done.
  destruct (key =? keyDeleteWord); [apply keep_displays; [done | done|]; rewrite Es; by apply (left_erase t e m (wordStart (ed_left e)))|].
  destruct (key =? keyDeleteLine); [apply keep_displays; [done | done|]; by apply deleteLine_redraws|].
  destruct (key =? keyCtrlD); [by eapply ctrlD_displays|].
  destruct (key =? keyCtrlU).
  { apply keep_displays; [done | done|]. rewrite Ep. apply (left_erase t e (ed_left e) []); [done | done | by rewrite app_nil_r]. }
  destruct (key =? keyClearScreen); [apply keep_displays; [done | done|]; by apply clearScreen_redraws|].
  apply keep_outcome, insert_displays; try done. by apply callback_pos.
Qed.

Lemma handleKey_ready cb t key t' : ready t -> callback_ok cb -> displays t t' -> handleKey cb t key = Ret (None, t') -> ready t'.
Proof.
  intros (Hd & [e Hv] & Hp & Hh) Hcb (C1 & E1 & G1 & L1 & H1 & W1 & _) Ek.
  destruct (handleKey_follows cb t e key (proj1 Hd) Hv Hcb) as (t1 & Ek1 & C2 & V2 & (_ & _ & K3 & K4 & _)).
  rewrite Ek in Ek1. apply Ret_inj in Ek1. injection Ek1 as _ <-. assert (Hok : tm_ok t') by (split; [done | by eexists]).
  destruct Hd as (_ & He & Hgp & _). split; [|split; [by eexists|]; split; [congruence | done]].
  split; [done|]. split; [congruence|]. rewrite E1. split; [done|]. split; [done|]. split; [done | by apply ok_pos].
Qed.

(** Keys one after the other, none of which ends the line. *)
Fixpoint handleKeys (cb : option callback) t (keys : list Z) : outcome (Terminal C) :=
  match keys with
  | [] => Ret t
  | key :: keys => let? (_, t) := handleKey cb t key in handleKeys cb t keys
  end.

Lemma displays_trans t t1 t2 : displays t t1 -> displays t1 t2 -> displays t t2.
Proof.
  intros (C1 & E1 & G1 & L1 & H1 & W1 & os1 & O1 & X1 & S1) (C2 & E2 & G2 & L2 & H2 & W2 & os2 & O2 & X2 & S2).
  rewrite E1, W1 in *. split; [done|]. split; [done|]. split; [done|]. split; [done|]. split; [done|]. split; [done|].
  exists (os1 ++ os2). split; [by rewrite O2, O1, encodeRunes_app, app_assoc|]. split; [by apply Forall_app|].
  intros c Hc. destruct (S1 c Hc) as (c1 & R1 & P1). destruct (S2 c1 P1) as (c2 & R2 & P2). exists c2. by rewrite screenRun_app, R1.
Qed.

Lemma handleKeys_displays cb keys t : ready t -> callback_ok cb -> callback_text cb -> Forall (fun key => keyOk key /\ key <> keyEnter) keys ->
  exists t', handleKeys cb t keys = Ret t' /\ displays t t' /\ ready t'.
Proof.
  intros Hr Hcb Hct Hk. revert t Hr. induction Hk as [|key keys [Hk1 Hk2] _ IH]; intros t Hr; cbn [handleKeys].
  - exists t. split; [done|]. split; [|done]. destruct Hr as (Hd & _ & _ & Hh). apply redraws_displays; [apply Hd | done | by apply redraws_refl].
  - destruct (handleKey_displays cb t key Hr Hk1 Hcb Hct Hk2) as (t1 & E1 & D1). rewrite E1. cbn [obind].
    destruct (IH t1 (handleKey_ready cb t key t1 Hr Hcb D1 E1)) as (t2 & E2 & D2 & R2). exists t2.
    split; [done|]. split; [by eapply displays_trans | done].
Qed.

(** The prompt on an empty screen. *)
Lemma prompt_displays t : tm_ok t -> tm_echo t = true -> tm_pasteActive t = false -> history_text t -> Forall glyph (tm_prompt t) ->
  tm_line t = [] -> tm_cursorX t = 0 -> tm_cursorY t = 0 ->
  exists t' os, writeLine t (tm_prompt t) = Ret t' /\ ready t' /\ tm_outBuf t' = tm_outBuf t ++ encodeRunes os /\
    exists c, screenRun (tm_termWidth t) os (cursorAt 0 0 (fun _ => blank)) = cursorAt (tm_cursorX t') (tm_cursorY t') c /\
      painted (tm_prompt t' ++ tm_line t') c.
Proof.
  intros Hok He Hp Hh Hgp El Ex Ey. destruct (writeLine_draws t (tm_prompt t) (proj1 Hok) Hgp) as (t' & E & D & L).
  assert (Hpos := ok_pos t Hok). assert (Hok' := Hok). destruct Hok' as [Ht [e Hv]].
  destruct (moved_follows t t' e (ed_left e) (ed_right e) Ht Hv) as (C1 & V1 & _).
  { destruct (view_text _ _ Hv) as [<- <-]. destruct D as (x & y & m & os & -> & Hx & Hy & _). by eexists _, _, _, _. }
  destruct (evolves_fields _ _ _ _ _ D) as (Fl & Fq & Fp & Fe & Fw). rewrite El in Hpos. change (zlen (@nil Z)) with 0 in Hpos.
  assert (L0 : linear t = 0) by (unfold linear; rewrite Ex, Ey; lia). rewrite L0 in *.
  destruct D as (x & y & m & os & Et & Hx & Hy & Hv' & Hs). exists t', os. split; [done|]. split; [|split; [by rewrite Et|]].
  - split; [|split; [by eexists|]; split; [by rewrite Et | rewrite Et; exact Hh]].
    split; [done|]. rewrite Fp, Fl, El, Fq, L. split; [congruence|]. split; [done|]. split; [constructor|]. split; [lia | done].
  - exists (overlay 0 (tm_prompt t) (fun _ => blank)). rewrite Ex, Ey in Hs. split; [rewrite Hs, Et; done|].
    rewrite Fp, Fl, El, app_nil_r. assert (Hq := painted_overlay [] [] (tm_prompt t) 0 _ painted_blank ltac:(cbn; lia)).
    cbn [app repeat zlen length] in Hq. by rewrite app_nil_r in Hq.
Qed.
End Display.

(** The decoder returns such keys alone. *)
Lemma bytesToKey_ok b paste key rest : bytesToKey b paste = (key, rest) -> keyOk key.
Proof.
  assert (He : validRune RuneError = true) by done.
  unfold bytesToKey. destruct b as [|b0 b]; [intros [= <- _]; by left|].
  destruct (if paste then None else controlKey (b2z b0)) as [k|] eqn:Ec.
  { intros [= <- _]. destruct paste; [done|]. unfold controlKey in Ec. unfold keyHome, keyEnd, keyBackspace, keyDeleteLine, keyClearScreen, keyDeleteWord in Ec.
    repeat case_match; simplify_eq; first [by left | right; lia]. }
  destruct (negb (b2z b0 =? keyEscape)).
  { destruct (negb (fullRune (b0 :: b))); [intros [= <- _]; by left|]. intros Hd. left. by eapply decodeRune_valid. }
  destruct (if paste then None else escapeKey (b0 :: b)) as [[k r]|] eqn:Ek.
  { intros [= <- _]. destruct paste; [done|]. right. unfold escapeKey, arrowKey, altKey, keyUp, keyDown, keyRight, keyLeft, keyHome, keyEnd, keyAltRight, keyAltLeft in Ek.
    repeat case_match; simplify_eq; lia. }
  unfold keyPasteStart, keyPasteEnd, keyUnknown.
  repeat case_match; intros [= <- _]; first [by left | right; lia].
Qed.

(** C17: The screen shows what is typed.  From a terminal with an empty
    line at the start of a row, of any width, with a prompt and past lines of plain
    characters: once the prompt is written, and then after any keys but Enter (typing,
    erasing, moving, completions, past lines, clearing), a screen that started blank
    and interprets the output shows the prompt and then exactly the line, blanks
    behind it, and its cursor is where the terminal thinks it is, at the position in
    the line; wrapping at the last column included.  Echo is on, no paste is under
    way, and completions return lines of plain characters with a position between
    two of them. *)
Theorem screen_shows_line {C} (cb : option callback) (t : Terminal C) keys :
  tm_ok t -> tm_echo t = true -> tm_pasteActive t = false -> history_text t -> Forall glyph (tm_prompt t) ->
  tm_line t = [] -> tm_cursorX t = 0 -> tm_cursorY t = 0 -> tm_outBuf t = [] ->
  callback_ok cb -> callback_text cb -> Forall (fun key => keyOk key /\ key <> keyEnter) keys ->
  exists t0 t' os cells, writeLine t (tm_prompt t) = Ret t0 /\ handleKeys cb t0 keys = Ret t' /\ tm_outBuf t' = encodeRunes os /\
    screenRun (tm_termWidth t) os (cursorAt 0 0 (fun _ => blank)) = cursorAt (tm_cursorX t') (tm_cursorY t') cells /\
    painted (tm_prompt t ++ tm_line t') cells /\
    tm_cursorY t' * tm_termWidth t + tm_cursorX t' = zlen (tm_prompt t) + tm_pos t' /\ 0 <= tm_cursorX t' < tm_termWidth t.
Proof.
  intros Hok He Hp Hh Hgp El Ex Ey Ho Hcb Hct Hk.
  destruct (prompt_displays t Hok He Hp Hh Hgp El Ex Ey) as (t0 & os0 & E0 & R0 & O0 & c0 & S0 & P0).
  destruct (handleKeys_displays cb keys t0 R0 Hcb Hct Hk) as (t' & E' & (C1 & F1 & G1 & L1 & H1 & W1 & os & O1 & X1 & S1) & R1).
  destruct (S1 c0 P0) as (c' & S2 & P2).
  assert (Ep : tm_prompt t0 = tm_prompt t /\ tm_termWidth t0 = tm_termWidth t).
  { destruct (writeLine_stays t (tm_prompt t) (proj1 Hok)) as (t1 & E1 & x & y & m & out & -> & _). rewrite E0 in E1. apply Ret_inj in E1 as ->. done. }
  destruct Ep as [Ep Ew]. rewrite Ep, Ew in *. exists t0, t', (os0 ++ os), c'. split; [done|]. split; [done|].
  split; [by rewrite O1, O0, Ho, encodeRunes_app|]. split; [by rewrite screenRun_app, S0|]. split; [done|].
  unfold linear in L1. rewrite W1 in L1. split; [done|]. destruct C1 as (_ & Hx & _). by rewrite W1 in Hx.
Qed.

Lemma screen_shows_line_witness :
  exists t0 t' os cells, let t := put_size (NewTerminal (@nil byte) (str "> ")) 4 24 in
    writeLine t (tm_prompt t) = Ret t0 /\ handleKeys None t0 [97; 98; 99; keyLeft; 100; keyBackspace; keyHome; 120] = Ret t' /\
    tm_outBuf t' = encodeRunes os /\
    screenRun 4 os (cursorAt 0 0 (fun _ => blank)) = cursorAt (tm_cursorX t') (tm_cursorY t') cells /\
    painted (tm_prompt t ++ tm_line t') cells.
Proof.
  destruct (screen_shows_line None (put_size (NewTerminal (@nil byte) (str "> ")) 4 24) [97; 98; 99; keyLeft; 100; keyBackspace; keyHome; 120])
    as (t0 & t' & os & cells & E0 & E1 & E2 & E3 & E4 & _).
  - split; [unfold cursor_ok; cbn; lia|]. exact (proj2 (new_ok (@nil byte) (str "> "))).
  - done.
  - done.
  - split; [constructor|]. constructor.
  - repeat constructor; unfold glyph; cbn; (lia || done).
  - done.
  - done.
  - done.
  - done.
  - intros ? ? ? ? ? ? [=].
  - intros ? ? ? ? ? ? [=].
  - repeat constructor; first [by left | right; vm_compute; split; discriminate | vm_compute; discriminate].
  - exists t0, t', os, cells. split; [exact E0|]. split; [exact E1|]. split; [exact E2|]. split; [exact E3 | exact E4].
Defined.
