(* ===== verification/Session.v ===== *)
(** * Sessions (session.go)

    A remote command over a channel: its requests, [Start], [Shell] and [Wait],
    and the goroutines that copy its streams and collect its exit status.  The
    channel is what the class [SessionChannel] asks for, which the channels of
    channel.go provide; the data that is read and the outcome of a write are the
    environment's. *)

From S2P Require Import Prelude Text Wire Codec Messages Negotiate Halter Idle Window Buffer Channel.

Open Scope st_scope.

(** ** Messages *)

Definition setenvRequest_struct : structType := StructType "setenvRequest" "" [("Name", KString); ("Value", KString)].
Definition ptyRequestMsg_struct : structType :=
  StructType "ptyRequestMsg" ""
    [("Term", KString); ("Columns", KUint32); ("Rows", KUint32); ("Width", KUint32); ("Height", KUint32); ("Modelist", KString)].
Definition modeEntry_struct : structType := StructType "" "" [("Key", KUint8); ("Val", KUint32)].
Definition subsystemRequestMsg_struct : structType := StructType "subsystemRequestMsg" "" [("Subsystem", KString)].
Definition ptyWindowChangeMsg_struct : structType :=
  StructType "ptyWindowChangeMsg" "" [("Columns", KUint32); ("Rows", KUint32); ("Width", KUint32); ("Height", KUint32)].
Definition signalMsg_struct : structType := StructType "signalMsg" "" [("Signal", KString)].
Definition execMsg_struct : structType := StructType "execMsg" "" [("Command", KString)].
Definition sigval_struct : structType :=
  StructType "" "" [("Signal", KString); ("CoreDumped", KBool); ("Error", KString); ("Lang", KString)].

(** The numbers of the signals. *)
Definition signals : list (bytes * Z) :=
  [(str "ABRT", 6); (str "ALRM", 14); (str "FPE", 8); (str "HUP", 1); (str "ILL", 4); (str "INT", 2); (str "KILL", 9);
   (str "PIPE", 13); (str "QUIT", 3); (str "SEGV", 11); (str "TERM", 15)].

Definition signalNumber (name : bytes) : option Z :=
  match list_find (fun p => fst p = name) signals with Some (_, (_, n)) => Some n | None => None end.

Definition tty_OP_END : byte := x00.

(** ** The state *)

(** What is used of a channel. *)
Class SessionChannel (Ch : Type) := {
  sch_SendRequest : bytes -> bool -> bytes -> stm Ch (bool * option error);
  sch_CloseWrite : stm Ch (option error);
  sch_Close : stm Ch (option error);
  sch_Reply : bool -> stm Ch (option error)
}.

(** The channels of channel.go are such channels. *)
Definition channel_session (env : Env) : SessionChannel cstate := {|
  sch_SendRequest := Channel.SendRequest env;
  sch_CloseWrite := CloseWrite env;
  sch_Close := ChannelClose env;
  sch_Reply := ackRequest env
|}.

(** Readers and writers of the caller, by name. *)
Inductive writer := Discard | Sink (n : nat).

#[global] Instance writer_eq_decision : EqDecision writer.
Proof. solve_decision. Defined.

(** The copying functions of [stdin], [stdout] and [stderr]. *)
Inductive copyFunc := CopyStdin (fromPipe : bool) | CopyStdout | CopyStderr.

Record Session (Ch : Type) := mkSession {
  ss_Stdin : option nat;
  ss_Stdout : option writer;
  ss_Stderr : option writer;
  ss_ch : Ch;
  ss_started : bool;
  ss_copyFuncs : list copyFunc;
  ss_stdinpipe : bool;
  ss_stdoutpipe : bool;
  ss_stderrpipe : bool;
  ss_stdinPipeWriter : bool
}.
Arguments mkSession {Ch} _ _ _ _ _ _ _ _ _ _.
Arguments ss_Stdin {Ch} _.
Arguments ss_Stdout {Ch} _.
Arguments ss_Stderr {Ch} _.
Arguments ss_ch {Ch} _.
Arguments ss_started {Ch} _.
Arguments ss_copyFuncs {Ch} _.
Arguments ss_stdinpipe {Ch} _.
Arguments ss_stdoutpipe {Ch} _.
Arguments ss_stderrpipe {Ch} _.
Arguments ss_stdinPipeWriter {Ch} _.

Record Waitmsg := mkWaitmsg { wm_status : Z; wm_signal : bytes; wm_msg : bytes; wm_lang : bytes }.

(** The errors of [wait]. *)
Inductive waitError :=
| WaitError (e : error)
| ExitMissingError
| ExitError (w : Waitmsg).

Section Session.
Context {Ch : Type} `{!SessionChannel Ch}.
Notation "'sess'" := (Session Ch).

Definition put_ch (c : Ch) (s : sess) : sess :=
  mkSession (ss_Stdin s) (ss_Stdout s) (ss_Stderr s) c (ss_started s) (ss_copyFuncs s) (ss_stdinpipe s) (ss_stdoutpipe s) (ss_stderrpipe s) (ss_stdinPipeWriter s).

Definition put_started (b : bool) (s : sess) : sess :=
  mkSession (ss_Stdin s) (ss_Stdout s) (ss_Stderr s) (ss_ch s) b (ss_copyFuncs s) (ss_stdinpipe s) (ss_stdoutpipe s) (ss_stderrpipe s) (ss_stdinPipeWriter s).

Definition put_outputs (out err : option writer) (s : sess) : sess :=
  mkSession (ss_Stdin s) out err (ss_ch s) (ss_started s) (ss_copyFuncs s) (ss_stdinpipe s) (ss_stdoutpipe s) (ss_stderrpipe s) (ss_stdinPipeWriter s).

Definition put_copies (l : list copyFunc) (pipeWriter : bool) (s : sess) : sess :=
  mkSession (ss_Stdin s) (ss_Stdout s) (ss_Stderr s) (ss_ch s) (ss_started s) l (ss_stdinpipe s) (ss_stdoutpipe s) (ss_stderrpipe s) pipeWriter.

Definition put_pipes (i o e : bool) (s : sess) : sess :=
  mkSession (ss_Stdin s) (ss_Stdout s) (ss_Stderr s) (ss_ch s) (ss_started s) (ss_copyFuncs s) i o e (ss_stdinPipeWriter s).

(** An operation of the channel. *)
Definition onChannel {A} (m : stm Ch A) : stm sess A := fun s =>
  match m (ss_ch s) with
  | Done a c => Done a (put_ch c s)
  | Blocked c => Blocked (put_ch c s)
  | Crash w => Crash w
  end.

Definition gets {A} (f : sess -> A) : stm sess A := fun s => Done (f s) s.
Definition modifies (f : sess -> sess) : stm sess unit := fun s => Done tt (f s).

(** ** Requests *)

Definition SendRequest (name : bytes) (wantReply : bool) (payload : bytes) : stm sess (bool * option error) :=
  onChannel (sch_SendRequest name wantReply payload).

Definition Close : stm sess (option error) := onChannel sch_Close.

(** A request whose refusal is an error. *)
Definition mustSucceed (name : string) (payload : bytes) (refused : error) : stm sess (option error) :=
  let! (ok, err) := SendRequest (str name) true payload in
  ret (match err with Some e => Some e | None => if ok then None else Some refused end).

Definition Setenv (name value : bytes) : stm sess (option error) :=
  let! msg := liftO (marshalStruct [] setenvRequest_struct (name, (value, tt))) in
  mustSucceed "env" msg (errNew "ssh: setenv failed").

(** The modes, in the order in which the map is ranged over. *)
Fixpoint modeList (termmodes : list (Z * Z)) (tm : bytes) : outcome bytes :=
  match termmodes with
  | [] => Ret tm
  | (k, v) :: termmodes => let? kv := marshalStruct [] modeEntry_struct (k, (v, tt)) in modeList termmodes (tm ++ kv)
  end.

Definition RequestPty (term : bytes) (h w : Z) (termmodes : list (Z * Z)) : stm sess (option error) :=
  let! tm := liftO (modeList termmodes []) in
  let! req := liftO (marshalStruct [] ptyRequestMsg_struct
                       (term, (u32 w, (u32 h, (u32 (w * 8), (u32 (h * 8), (tm ++ [tty_OP_END], tt))))))) in
  mustSucceed "pty-req" req (errNew "ssh: pty-req failed").

Definition RequestSubsystem (subsystem : bytes) : stm sess (option error) :=
  let! msg := liftO (marshalStruct [] subsystemRequestMsg_struct (subsystem, tt)) in
  mustSucceed "subsystem" msg (errNew "ssh: subsystem request failed").

Definition WindowChange (h w : Z) : stm sess (option error) :=
  let! req := liftO (marshalStruct [] ptyWindowChangeMsg_struct (u32 w, (u32 h, (u32 (w * 8), (u32 (h * 8), tt))))) in
  let! (_, err) := SendRequest (str "window-change") false req in
  ret err.

Definition Signal (sig : bytes) : stm sess (option error) :=
  let! msg := liftO (marshalStruct [] signalMsg_struct (sig, tt)) in
  let! (_, err) := SendRequest (str "signal") false msg in
  ret err.

(** ** Starting *)

Definition stdin : stm sess unit :=
  let! s := gets (fun s => s) in
  if ss_stdinpipe s then ret tt
  else
    let fromPipe := match ss_Stdin s with Some _ => true | None => false end in
    modifies (put_copies (ss_copyFuncs s ++ [CopyStdin fromPipe]) (fromPipe || ss_stdinPipeWriter s)).

Definition orDiscard (w : option writer) : option writer := match w with None => Some Discard | w => w end.

Definition stdout : stm sess unit :=
  let! s := gets (fun s => s) in
  if ss_stdoutpipe s then ret tt
  else
    modifies (put_outputs (orDiscard (ss_Stdout s)) (ss_Stderr s)) ;;;
    modifies (put_copies (ss_copyFuncs s ++ [CopyStdout]) (ss_stdinPipeWriter s)).

Definition stderr : stm sess unit :=
  let! s := gets (fun s => s) in
  if ss_stderrpipe s then ret tt
  else
    modifies (put_outputs (ss_Stdout s) (orDiscard (ss_Stderr s))) ;;;
    modifies (put_copies (ss_copyFuncs s ++ [CopyStderr]) (ss_stdinPipeWriter s)).

(** The goroutines for the copying functions are in [world] below. *)
Definition start : stm sess (option error) :=
  modifies (put_started true) ;;;
  stdin ;;; stdout ;;; stderr ;;;
  ret None.

Definition errStarted : error := errNew "ssh: session already started".

Definition Start (cmd : bytes) : stm sess (option error) :=
  let! started := gets ss_started in
  if started then ret (Some errStarted)
  else
    let! req := liftO (marshalStruct [] execMsg_struct (cmd, tt)) in
    let! err := mustSucceed "exec" req (Errorf "ssh: command %v failed" [FStr cmd]) in
    match err with
    | Some e => ret (Some e)
    | None => start
    end.

Definition Shell : stm sess (option error) :=
  let! started := gets ss_started in
  if started then ret (Some errStarted)
  else
    let! err := mustSucceed "shell" [] (errNew "ssh: could not start shell") in
    match err with
    | Some e => ret (Some e)
    | None => start
    end.

(** The first parts of [Output] and [CombinedOutput]: a buffer for the output. *)
Definition prepareOutput (b : nat) : stm sess (option error) :=
  let! s := gets (fun s => s) in
  match ss_Stdout s with
  | Some _ => ret (Some (errNew "ssh: Stdout already set"))
  | None => modifies (put_outputs (Some (Sink b)) (ss_Stderr s)) ;;; ret None
  end.

Definition prepareCombined (b : nat) : stm sess (option error) :=
  let! s := gets (fun s => s) in
  match ss_Stdout s, ss_Stderr s with
  | Some _, _ => ret (Some (errNew "ssh: Stdout already set"))
  | None, Some _ => ret (Some (errNew "ssh: Stderr already set"))
  | None, None => modifies (put_outputs (Some (Sink b)) (Some (Sink b))) ;;; ret None
  end.

(** ** Pipes *)

Definition StdinPipe : stm sess (option error) :=
  let! s := gets (fun s => s) in
  match ss_Stdin s with
  | Some _ => ret (Some (errNew "ssh: Stdin already set"))
  | None =>
      if ss_started s then ret (Some (errNew "ssh: StdinPipe after process started"))
      else modifies (put_pipes true (ss_stdoutpipe s) (ss_stderrpipe s)) ;;; ret None
  end.

Definition StdoutPipe : stm sess (option error) :=
  let! s := gets (fun s => s) in
  match ss_Stdout s with
  | Some _ => ret (Some (errNew "ssh: Stdout already set"))
  | None =>
      if ss_started s then ret (Some (errNew "ssh: StdoutPipe after process started"))
      else modifies (put_pipes (ss_stdinpipe s) true (ss_stderrpipe s)) ;;; ret None
  end.

Definition StderrPipe : stm sess (option error) :=
  let! s := gets (fun s => s) in
  match ss_Stderr s with
  | Some _ => ret (Some (errNew "ssh: Stderr already set"))
  | None =>
      if ss_started s then ret (Some (errNew "ssh: StderrPipe after process started"))
      else modifies (put_pipes (ss_stdinpipe s) (ss_stdoutpipe s) true) ;;; ret None
  end.

(** [Close] of the pipe for the input. *)
Definition sessionStdin_Close : stm sess (option error) := onChannel sch_CloseWrite.

(** ** The exit status *)

(** One request in the loop of [wait]. *)
Definition waitOne (wm : Waitmsg) (msg : Request) : stm Ch (waitError + Waitmsg) :=
  if bool_decide (req_Type msg = str "exit-status") then
    if zlen (req_Payload msg) <? 4 then crash "index out of range"
    else ret (inr (mkWaitmsg (be_decode (take 4 (req_Payload msg))) (wm_signal wm) (wm_msg wm) (wm_lang wm)))
  else if bool_decide (req_Type msg = str "exit-signal") then
    match Unmarshal sigval_struct (req_Payload msg) with
    | Ret (signal, (_, (err, (lang, _)))) => ret (inr (mkWaitmsg (wm_status wm) signal err lang))
    | Fail e => ret (inl (WaitError e))
    | Panic w => crash w
    end
  else if req_WantReply msg then
    let! _ := sch_Reply false in ret (inr wm)
  else ret (inr wm).

(** After the requests: [None] for a zero status. *)
Definition waitResult (wm : Waitmsg) : option waitError :=
  if wm_status wm =? 0 then None
  else if wm_status wm =? -1 then
    if bool_decide (wm_signal wm = []) then Some ExitMissingError
    else
      let status := 128 + match signalNumber (wm_signal wm) with Some n => n | None => 0 end in
      Some (ExitError (mkWaitmsg status (wm_signal wm) (wm_msg wm) (wm_lang wm)))
  else Some (ExitError wm).

Definition newWaitmsg : Waitmsg := mkWaitmsg (-1) [] [] [].

(** [wait] over the requests that arrive before the channel is closed. *)
Fixpoint waitLoop (wm : Waitmsg) (reqs : list Request) : stm Ch (option waitError) :=
  match reqs with
  | [] => ret (waitResult wm)
  | msg :: reqs =>
      let! r := waitOne wm msg in
      match r with
      | inl e => ret (Some e)
      | inr wm => waitLoop wm reqs
      end
  end.

Definition wait (reqs : list Request) : stm Ch (option waitError) := waitLoop newWaitmsg reqs.

Definition newSession (ch : Ch) : sess := mkSession None None None ch false [] false false false false.
End Session.

(** [Waitmsg.String]; the texts are those of [fmt]. *)
Definition Waitmsg_String (sprint : Z -> bytes) (w : Waitmsg) : bytes :=
  str "Process exited with status " ++ sprint (wm_status w)
  ++ (if bool_decide (wm_signal w = []) then [] else str " from signal " ++ wm_signal w)
  ++ (if bool_decide (wm_msg w = []) then [] else str ". Reason was: " ++ wm_msg w).

(** ** The goroutines

    [newSession] starts the goroutine of [wait], [start] one for every copying
    function and, for an input given by the caller, one that feeds a pipe; [Wait]
    runs in the caller's.  A step is what one of them does between two points where
    it can block. *)

(** A copying goroutine: copying, its result ready, sent to [s.errors], or dropped
    because the connection is done. *)
Inductive copyState := CRun | CDone (err : option error) | CSent (err : option error) | CLost.

(** The goroutine of [wait]: in its loop, its result ready, gone. *)
Inductive waiter := WLoop (wm : Waitmsg) | WReady (r : option waitError) | WGone.

(** The goroutine that feeds the pipe: before a read, in a write, gone. *)
Inductive feeder := FRead | FWrite (data : bytes) (err : option error) | FGone.

(** The call of [Wait]: not yet made, at its first [select], collecting the results of the
    copies, returned. *)
Inductive waitCall :=
| WaitIdle
| WaitSelect
| WaitCopies (waitErr : option waitError) (left : nat) (copyError : option error)
| WaitReturned (r : option waitError).

Definition errNotStarted : error := errNew "ssh: session not started".
Definition errShortWrite : error := errNew "short write".

(** The world of a session, with what has been read of the two output streams,
    whether their end has been seen, and the pieces that were written, in order. *)
Record world (Ch : Type) := mkWorld {
  wd_s : Session Ch;
  wd_waiter : waiter;
  wd_exitStatus : list (option waitError);
  wd_copiers : list (copyFunc * copyState);
  wd_errors : list (option error);
  wd_done : bool;
  wd_feeder : feeder;
  wd_pipe : option error;
  wd_wait : waitCall;
  wd_sinks : nat -> bytes;
  wd_crashed : bool;
  wd_reqs : list Request;
  wd_read : bool -> bytes;
  wd_eof : bool -> bool;
  wd_log : list (bool * bytes)
}.
Arguments mkWorld {Ch} _ _ _ _ _ _ _ _ _ _ _ _ _ _ _.
Arguments wd_s {Ch} _.
Arguments wd_waiter {Ch} _.
Arguments wd_exitStatus {Ch} _.
Arguments wd_copiers {Ch} _.
Arguments wd_errors {Ch} _.
Arguments wd_done {Ch} _.
Arguments wd_feeder {Ch} _.
Arguments wd_pipe {Ch} _.
Arguments wd_wait {Ch} _.
Arguments wd_sinks {Ch} _.
Arguments wd_crashed {Ch} _.
Arguments wd_reqs {Ch} _.
Arguments wd_read {Ch} _.
Arguments wd_eof {Ch} _.
Arguments wd_log {Ch} _.

(** What a goroutine does next; the data that is read, the number of bytes that a
    write takes and the errors are the environment's. *)
Inductive event :=
| EOutput (i : nat) (data : bytes) (er : option error) (nw : Z) (ew : option error)
| EInput (i : nat) (n : nat) (nw : Z) (ew : option error)
| EFeed (data : bytes) (er : option error)
| EReport (i : nat)
| EGiveUp (i : nat)
| ERequest (msg : Request)
| EClosed
| EStatus
| ENoStatus
| EDone
| EWait
| EWaitStatus
| EWaitCopy
| EWaitDone.

(** One round of [io.Copy]: [None] when it goes on. *)
Definition copyRound (data : bytes) (er : option error) (nw : Z) (ew : option error) : option (option error) :=
  let read := match er with None => None | Some e => Some (if bool_decide (e = EOF) then None else Some e) end in
  match data, ew with
  | [], _ => read
  | _, Some e => Some (Some e)
  | _, None => if nw =? zlen data then read else Some (Some errShortWrite)
  end.

Definition extend (f : nat -> bytes) (w : option writer) (data : bytes) : nat -> bytes :=
  match w with
  | Some (Sink n) => fun m => if Nat.eqb m n then f m ++ data else f m
  | _ => f
  end.

Definition put_stream {A} (f : bool -> A) (b : bool) (v : A) : bool -> A := fun b' => if Bool.eqb b' b then v else f b'.

Section Steps.
Context {Ch : Type} `{!SessionChannel Ch}.
Notation "'world'" := (world Ch).

Definition start_world (s : Session Ch) (sinks : nat -> bytes) : world :=
  mkWorld s (WLoop newWaitmsg) [] (map (fun f => (f, CRun)) (ss_copyFuncs s)) [] false
    (if ss_stdinPipeWriter s then FRead else FGone) None WaitIdle sinks false [] (fun _ => []) (fun _ => false) [].

Definition with_s (s : Session Ch) (w : world) : world :=
  mkWorld s (wd_waiter w) (wd_exitStatus w) (wd_copiers w) (wd_errors w) (wd_done w) (wd_feeder w) (wd_pipe w) (wd_wait w) (wd_sinks w) (wd_crashed w) (wd_reqs w) (wd_read w) (wd_eof w) (wd_log w).

Definition with_waiter (a : waiter) (w : world) : world :=
  mkWorld (wd_s w) a (wd_exitStatus w) (wd_copiers w) (wd_errors w) (wd_done w) (wd_feeder w) (wd_pipe w) (wd_wait w) (wd_sinks w) (wd_crashed w) (wd_reqs w) (wd_read w) (wd_eof w) (wd_log w).

Definition with_exitStatus (l : list (option waitError)) (w : world) : world :=
  mkWorld (wd_s w) (wd_waiter w) l (wd_copiers w) (wd_errors w) (wd_done w) (wd_feeder w) (wd_pipe w) (wd_wait w) (wd_sinks w) (wd_crashed w) (wd_reqs w) (wd_read w) (wd_eof w) (wd_log w).

Definition with_copier (i : nat) (f : copyFunc) (c : copyState) (w : world) : world :=
  mkWorld (wd_s w) (wd_waiter w) (wd_exitStatus w) (<[i := (f, c)]> (wd_copiers w)) (wd_errors w) (wd_done w) (wd_feeder w) (wd_pipe w) (wd_wait w) (wd_sinks w) (wd_crashed w) (wd_reqs w) (wd_read w) (wd_eof w) (wd_log w).

Definition with_errors (l : list (option error)) (w : world) : world :=
  mkWorld (wd_s w) (wd_waiter w) (wd_exitStatus w) (wd_copiers w) l (wd_done w) (wd_feeder w) (wd_pipe w) (wd_wait w) (wd_sinks w) (wd_crashed w) (wd_reqs w) (wd_read w) (wd_eof w) (wd_log w).

Definition with_done (w : world) : world :=
  mkWorld (wd_s w) (wd_waiter w) (wd_exitStatus w) (wd_copiers w) (wd_errors w) true (wd_feeder w) (wd_pipe w) (wd_wait w) (wd_sinks w) (wd_crashed w) (wd_reqs w) (wd_read w) (wd_eof w) (wd_log w).

Definition with_pipe (f : feeder) (p : option error) (w : world) : world :=
  mkWorld (wd_s w) (wd_waiter w) (wd_exitStatus w) (wd_copiers w) (wd_errors w) (wd_done w) f p (wd_wait w) (wd_sinks w) (wd_crashed w) (wd_reqs w) (wd_read w) (wd_eof w) (wd_log w).

Definition with_wait (c : waitCall) (w : world) : world :=
  mkWorld (wd_s w) (wd_waiter w) (wd_exitStatus w) (wd_copiers w) (wd_errors w) (wd_done w) (wd_feeder w) (wd_pipe w) c (wd_sinks w) (wd_crashed w) (wd_reqs w) (wd_read w) (wd_eof w) (wd_log w).

Definition with_crash (w : world) : world :=
  mkWorld (wd_s w) (wd_waiter w) (wd_exitStatus w) (wd_copiers w) (wd_errors w) (wd_done w) (wd_feeder w) (wd_pipe w) (wd_wait w) (wd_sinks w) true (wd_reqs w) (wd_read w) (wd_eof w) (wd_log w).

Definition with_reqs (l : list Request) (w : world) : world :=
  mkWorld (wd_s w) (wd_waiter w) (wd_exitStatus w) (wd_copiers w) (wd_errors w) (wd_done w) (wd_feeder w) (wd_pipe w) (wd_wait w) (wd_sinks w) (wd_crashed w) l (wd_read w) (wd_eof w) (wd_log w).

Definition with_output (sinks : nat -> bytes) (read : bool -> bytes) (eof : bool -> bool) (log : list (bool * bytes)) (w : world) : world :=
  mkWorld (wd_s w) (wd_waiter w) (wd_exitStatus w) (wd_copiers w) (wd_errors w) (wd_done w) (wd_feeder w) (wd_pipe w) (wd_wait w) sinks (wd_crashed w) (wd_reqs w) read eof log.

(** The stream that a copying function reads, and the writer it fills. *)
Definition copySource (f : copyFunc) : option bool :=
  match f with CopyStdin _ => None | CopyStdout => Some false | CopyStderr => Some true end.

Definition copyTarget (s : Session Ch) (stderr : bool) : option writer := if stderr then ss_Stderr s else ss_Stdout s.

(** Copying goroutine [i] reads a piece of its stream and writes it. *)
Definition outputRound (i : nat) (data : bytes) (er : option error) (nw : Z) (ew : option error) (w : world) : option world :=
  match wd_copiers w !! i with
  | Some (f, CRun) =>
      match copySource f with
      | Some b =>
          let piece := ztake nw data in
          let w' := with_output (extend (wd_sinks w) (copyTarget (wd_s w) b) piece)
                      (put_stream (wd_read w) b (wd_read w b ++ data))
                      (put_stream (wd_eof w) b (wd_eof w b || bool_decide (er = Some EOF)))
                      (wd_log w ++ [(b, piece)]) w in
          Some (match copyRound data er nw ew with
                | Some err => with_copier i f (CDone err) w'
                | None => w'
                end)
      | None => None
      end
  | _ => None
  end.

(** What the input function reads next, at most [n] bytes. *)
Definition stdinRead (fromPipe : bool) (n : nat) (w : world) : option (bytes * option error * world) :=
  if negb fromPipe then Some ([], Some EOF, w)
  else
    match wd_pipe w, wd_feeder w with
    | Some e, _ => Some ([], Some e, w)
    | None, FWrite data err =>
        let rest := drop n data in
        let w' := match rest with
                  | [] => match err with
                          | None => with_pipe FRead None w
                          | Some e => with_pipe FGone (Some e) w
                          end
                  | _ => with_pipe (FWrite rest err) None w
                  end in
        Some (take n data, None, w')
    | None, _ => None
    end.

(** After the copy, [CloseWrite]. *)
Definition finishStdin (i : nat) (f : copyFunc) (err : option error) (w : world) : world :=
  match sch_CloseWrite (ss_ch (wd_s w)) with
  | Done err1 c =>
      let w := with_s (put_ch c (wd_s w)) w in
      let err := match err with
                 | Some e => Some e
                 | None => if bool_decide (err1 = Some EOF) then None else err1
                 end in
      with_copier i f (CDone err) w
  | Blocked c => with_s (put_ch c (wd_s w)) w
  | Crash _ => with_crash w
  end.

Definition inputRound (i n : nat) (nw : Z) (ew : option error) (w : world) : option world :=
  match wd_copiers w !! i with
  | Some (CopyStdin p, CRun) =>
      match stdinRead p n w with
      | None => None
      | Some (data, er, w) =>
          Some (match copyRound data er nw ew with
                | Some err => finishStdin i (CopyStdin p) err w
                | None => w
                end)
      end
  | _ => None
  end.

(** [io.Copy(w, s.Stdin)] and then [w.CloseWithError]. *)
Definition feed (data : bytes) (er : option error) (w : world) : option world :=
  match wd_feeder w with
  | FRead =>
      Some (match data, er with
            | [], None => w
            | [], Some e => with_pipe FGone (match wd_pipe w with Some e' => Some e' | None => Some e end) w
            | _, _ => match wd_pipe w with
                      | Some e => with_pipe FGone (Some e) w
                      | None => with_pipe (FWrite data er) None w
                      end
            end)
  | FWrite _ _ => match wd_pipe w with Some e => Some (with_pipe FGone (Some e) w) | None => None end
  | FGone => None
  end.

(** A request arrives at the goroutine of [wait]. *)
Definition requestStep (msg : Request) (w : world) : option world :=
  match wd_waiter w with
  | WLoop wm =>
      Some (match waitOne wm msg (ss_ch (wd_s w)) with
            | Done (inr wm) c => with_reqs (wd_reqs w ++ [msg]) (with_waiter (WLoop wm) (with_s (put_ch c (wd_s w)) w))
            | Done (inl e) c => with_reqs (wd_reqs w ++ [msg]) (with_waiter (WReady (Some e)) (with_s (put_ch c (wd_s w)) w))
            | Blocked c => with_s (put_ch c (wd_s w)) w
            | Crash _ => with_crash w
            end)
  | _ => None
  end.

(** [Wait], up to where it can block. *)
Definition Wait (e : event) (w : world) : option world :=
  match e, wd_wait w with
  | EWait, WaitIdle =>
      Some (with_wait (if ss_started (wd_s w) then WaitSelect else WaitReturned (Some (WaitError errNotStarted))) w)
  | EWaitDone, WaitSelect | EWaitDone, WaitCopies _ (S _) _ =>
      if wd_done w then Some (with_wait (WaitReturned (Some (WaitError EOF))) w) else None
  | EWaitStatus, WaitSelect =>
      match wd_exitStatus w with
      | waitErr :: l =>
          let w := with_exitStatus l w in
          let w := if ss_stdinPipeWriter (wd_s w)
                   then with_pipe (wd_feeder w) (match wd_pipe w with Some e => Some e | None => Some EOF end) w else w in
          Some (with_wait (WaitCopies waitErr (length (ss_copyFuncs (wd_s w))) None) w)
      | [] => None
      end
  | EWaitCopy, WaitCopies waitErr (S n) copyError =>
      match wd_errors w with
      | err :: l =>
          let copyError := match copyError with None => err | Some e => Some e end in
          Some (with_wait (WaitCopies waitErr n copyError) (with_errors l w))
      | [] => None
      end
  | EWaitCopy, WaitCopies waitErr O copyError =>
      Some (with_wait (WaitReturned (match waitErr with
                                     | Some e => Some e
                                     | None => match copyError with Some e => Some (WaitError e) | None => None end
                                     end)) w)
  | _, _ => None
  end.

(** [None] when the event cannot happen. *)
Definition sstep (e : event) (w : world) : option world :=
  if wd_crashed w then None
  else match e with
  | EOutput i data er nw ew => outputRound i data er nw ew w
  | EInput i n nw ew => inputRound i n nw ew w
  | EFeed data er => feed data er w
  | EReport i =>
      match wd_copiers w !! i with
      | Some (f, CDone err) => Some (with_errors (wd_errors w ++ [err]) (with_copier i f (CSent err) w))
      | _ => None
      end
  | EGiveUp i =>
      match wd_copiers w !! i with
      | Some (f, CDone err) => if wd_done w then Some (with_copier i f CLost w) else None
      | _ => None
      end
  | ERequest msg => requestStep msg w
  | EClosed => match wd_waiter w with WLoop wm => Some (with_waiter (WReady (waitResult wm)) w) | _ => None end
  | EStatus => match wd_waiter w with WReady r => Some (with_waiter WGone (with_exitStatus [r] w)) | _ => None end
  | ENoStatus => match wd_waiter w with WReady r => if wd_done w then Some (with_waiter WGone w) else None | _ => None end
  | EDone => Some (with_done w)
  | _ => Wait e w
  end.

Fixpoint sruns (es : list event) (w : world) : option world :=
  match es with
  | [] => Some w
  | e :: es => match sstep e w with Some w => sruns es w | None => None end
  end.

(** [Run], [Output] and [CombinedOutput] up to the first [select] of [Wait]; the world goes
    on from there. *)
Definition Run (sinks : nat -> bytes) (cmd : bytes) : stm (Session Ch) (error + world) :=
  let! err := Start cmd in
  match err with
  | Some e => ret (inl e)
  | None => fun s => Done (inr (with_wait WaitSelect (start_world s sinks))) s
  end.

(** The buffer that a call allocates is empty. *)
Definition freshSink (b : nat) (sinks : nat -> bytes) : nat -> bytes := fun n => if Nat.eqb n b then [] else sinks n.

Definition Output (b : nat) (sinks : nat -> bytes) (cmd : bytes) : stm (Session Ch) (error + world) :=
  let! err := prepareOutput b in
  match err with Some e => ret (inl e) | None => Run (freshSink b sinks) cmd end.

Definition CombinedOutput (b : nat) (sinks : nat -> bytes) (cmd : bytes) : stm (Session Ch) (error + world) :=
  let! err := prepareCombined b in
  match err with Some e => ret (inl e) | None => Run (freshSink b sinks) cmd end.
End Steps.
