(* ===== verification/SessionFacts.v ===== *)
(** * Sessions: what a command reports

    [Wait] returns nil only when the command exited with status zero and every
    stream was copied to its end; the exit status is the one that was sent; the
    requests decode to what was asked for; a session is started once. *)

From S2P Require Import Prelude Text Wire Codec Messages Negotiate Halter Idle Window Buffer Channel Session.

Open Scope st_scope.

(** ** The exit status *)

(** The last status and the last signal that were sent. *)
Definition statusOf (msg : Request) : option Z :=
  if bool_decide (req_Type msg = str "exit-status") then Some (be_decode (take 4 (req_Payload msg))) else None.

Definition signalOf (msg : Request) : option (bytes * bytes * bytes) :=
  if bool_decide (req_Type msg = str "exit-signal") then
    match Unmarshal sigval_struct (req_Payload msg) with
    | Ret (signal, (_, (err, (lang, _)))) => Some (signal, err, lang)
    | _ => None
    end
  else None.

Definition lastOf {A} (f : Request -> option A) (reqs : list Request) : option A :=
  foldl (fun acc msg => match f msg with Some a => Some a | None => acc end) None reqs.

(** What these two mean. *)
Definition exitReport (status : option Z) (signal : option (bytes * bytes * bytes)) : option waitError :=
  let '(name, msg, lang) := default ([], [], []) signal in
  match status with
  | Some n => if n =? 0 then None else Some (ExitError (mkWaitmsg n name msg lang))
  | None =>
      if bool_decide (name = []) then Some ExitMissingError
      else Some (ExitError (mkWaitmsg (128 + default 0 (signalNumber name)) name msg lang))
  end.

(** A status has four bytes, a signal can be parsed. *)
Definition exitRequest_ok (msg : Request) : Prop :=
  (req_Type msg = str "exit-status" -> 4 <= zlen (req_Payload msg)) /\
  (req_Type msg = str "exit-signal" -> is_Some (signalOf msg)).

Section Exit.
Context {Ch : Type} `{!SessionChannel Ch}.

(** Replies are sent, whatever comes of them. *)
Definition replies_done : Prop := forall c, exists e c', sch_Reply false c = Done e c'.

Definition waitmsg_of (status : option Z) (signal : option (bytes * bytes * bytes)) : Waitmsg :=
  let '(name, msg, lang) := default ([], [], []) signal in mkWaitmsg (default (-1) status) name msg lang.

Lemma status_range msg n : statusOf msg = Some n -> 0 <= n.
Proof.
  unfold statusOf. destruct (bool_decide _); [|done]. intros [= <-]. pose proof (be_decode_range (take 4 (req_Payload msg))). lia.
Qed.

Lemma waitOne_known st sg msg c : replies_done -> exitRequest_ok msg ->
  exists c', waitOne (waitmsg_of st sg) msg c =
    Done (inr (waitmsg_of (match statusOf msg with Some n => Some n | None => st end)
                          (match signalOf msg with Some s => Some s | None => sg end))) c'.
Proof.
  intros Hr [Hs Hg]. unfold waitOne, statusOf, signalOf in *. destruct (decide (req_Type msg = str "exit-status")) as [E1|E1].
  - rewrite (bool_decide_true _ E1), (bool_decide_false (req_Type msg = str "exit-signal")) by (by rewrite E1).
    rewrite (proj2 (Z.ltb_ge _ _)) by by apply Hs. eexists. unfold waitmsg_of. by destruct sg as [[[? ?] ?]|].
  - rewrite (bool_decide_false _ E1). destruct (decide (req_Type msg = str "exit-signal")) as [E2|E2].
    + specialize (Hg E2). rewrite (bool_decide_true _ E2) in *. destruct (Unmarshal _ _) as [[signal [core [err [lang []]]]]| |]; try by destruct Hg.
      eexists. unfold waitmsg_of. by destruct sg as [[[? ?] ?]|].
    + rewrite (bool_decide_false _ E2). destruct (req_WantReply msg); [|by eexists]. unfold bind. destruct (Hr c) as (e & c' & ->). by eexists.
Qed.

Lemma waitResult_report st sg : (forall n, st = Some n -> 0 <= n) -> waitResult (waitmsg_of st sg) = exitReport st sg.
Proof.
  intros Hst. unfold waitResult, exitReport, waitmsg_of. destruct (default _ sg) as [[name msg] lang].
  cbn [wm_status wm_signal wm_msg wm_lang]. destruct st as [n|]; cbn [default from_option id].
  - specialize (Hst n eq_refl). destruct (Z.eqb_spec n 0); [done|]. by rewrite (proj2 (Z.eqb_neq n (-1))) by lia.
  - destruct (bool_decide (name = [])); [done|]. by destruct (signalNumber name).
Qed.

Lemma waitLoop_known reqs st sg c : replies_done -> Forall exitRequest_ok reqs -> (forall n, st = Some n -> 0 <= n) ->
  exists c', waitLoop (waitmsg_of st sg) reqs c =
    Done (exitReport (foldl (fun acc msg => match statusOf msg with Some a => Some a | None => acc end) st reqs)
                     (foldl (fun acc msg => match signalOf msg with Some a => Some a | None => acc end) sg reqs)) c'.
Proof.
  intros Hr Hreqs. revert st sg c. induction Hreqs as [|msg reqs Hm _ IH]; intros st sg c Hst; cbn [waitLoop foldl].
  - eexists. by rewrite waitResult_report.
  - destruct (waitOne_known st sg msg c Hr Hm) as (c1 & E). unfold bind. rewrite E. apply IH.
    intros n. destruct (statusOf msg) as [k|] eqn:Ek; [intros [= <-]; by eapply status_range | apply Hst].
Qed.
End Exit.

(** ** Requests *)

Section Requests.
Context {Ch : Type} `{!SessionChannel Ch}.

(** The modes of a terminal request, as a receiver reads them: pairs up to the
    end mark. *)
Fixpoint parseModes (fuel : nat) (b : bytes) : option (list (Z * Z)) :=
  match fuel, b with
  | S fuel, k :: b =>
      if b2z k =? 0 then Some []
      else match parseModes fuel (drop 4 b) with
           | Some l => Some ((b2z k, be_decode (take 4 b)) :: l)
           | None => None
           end
  | _, _ => None
  end.

Definition mode_ok (kv : Z * Z) : Prop := 0 < fst kv < 256 /\ 0 <= snd kv < 2 ^ 32.

Definition modeBytes (kv : Z * Z) : bytes := z2b (fst kv) :: be_encode 4 (snd kv).

Lemma modeList_bytes modes tm : modeList modes tm = Ret (tm ++ concat (map modeBytes modes)).
Proof.
  revert tm. induction modes as [|[k v] modes IH]; intros tm; cbn [modeList map concat]; [by rewrite app_nil_r|].
  rewrite (marshalStruct_value _ []) by done. cbn [obind]. rewrite IH, <- app_assoc. done.
Qed.

Lemma parseModes_bytes modes rest fuel : Forall mode_ok modes -> (length modes < fuel)%nat ->
  parseModes fuel (concat (map modeBytes modes) ++ tty_OP_END :: rest) = Some modes.
Proof.
  intros Hm. revert fuel. induction Hm as [|[k v] modes [Hk Hv] _ IH]; intros [|fuel] Hf; cbn [length] in Hf; try lia; [done|].
  cbn [map concat fst snd] in *. change (modeBytes (k, v)) with (z2b k :: be_encode 4 v). cbn [app parseModes]. rewrite b2z_z2b_small, (proj2 (Z.eqb_neq k 0)) by lia.
  rewrite <- !app_assoc, drop_app_length', take_app_length', IH by (by rewrite be_encode_length || lia).
  rewrite be_decode_encode_small; [done|]. exact Hv.
Qed.

Definition refusedPty : error := errNew "ssh: pty-req failed".

Lemma pty_request term h w modes : Forall mode_ok modes -> zlen term + 5 * zlen modes < 2 ^ 31 ->
  exists p tm, Unmarshal ptyRequestMsg_struct p = Ret (term, (u32 w, (u32 h, (u32 (w * 8), (u32 (h * 8), (tm, tt)))))) /\
    parseModes (length tm) tm = Some modes /\
    forall s : Session Ch, RequestPty term h w modes s = mustSucceed "pty-req" p refusedPty s.
Proof.
  intros Hm Hl. set (tm := concat (map modeBytes modes) ++ [tty_OP_END]).
  assert (Htm : zlen tm = 5 * zlen modes + 1).
  { unfold tm. rewrite zlen_app. change (zlen [tty_OP_END]) with 1. f_equal. clear. induction modes as [|kv modes IH]; [done|].
    cbn [map concat]. rewrite zlen_app, IH, zlen_cons. unfold modeBytes. rewrite zlen_cons, zlen_be_encode. lia. }
  pose proof (zlen_nonneg term). pose proof (zlen_nonneg modes).
  set (v := (term, (u32 w, (u32 h, (u32 (w * 8), (u32 (h * 8), (tm, tt))))))).
  assert (Hsize : zlen (struct_enc (st_fields ptyRequestMsg_struct) v) = zlen term + zlen tm + 24).
  { change (struct_enc (st_fields ptyRequestMsg_struct) v) with
      ((be_encode 4 (zlen term) ++ term) ++ be_encode 4 (u32 w) ++ be_encode 4 (u32 h) ++ be_encode 4 (u32 (w * 8)) ++ be_encode 4 (u32 (h * 8))
         ++ (be_encode 4 (zlen tm) ++ tm) ++ []).
    rewrite !zlen_app, !zlen_be_encode, zlen_nil. lia. }
  destruct (plain_struct_roundtrip ptyRequestMsg_struct v eq_refl) as (p & Ep & Up).
  - cbn. pose proof (u32_range w). pose proof (u32_range h). pose proof (u32_range (w * 8)). pose proof (u32_range (h * 8)). tauto.
  - intros E. rewrite E, zlen_nil in Hsize. lia.
  - lia.
  - exists p, tm. split; [exact Up|]. split; [apply parseModes_bytes; [done|]; unfold zlen in *; lia|].
    intros s. unfold RequestPty. rewrite modeList_bytes. unfold bind at 1. cbn [liftO ret app]. fold tm. fold v. by rewrite Ep.
Qed.
End Requests.

(** ** The goroutines *)

(** The pieces of a stream, and those that went into a buffer. *)
Definition piecesOf (b : bool) (log : list (bool * bytes)) : bytes := concat (map snd (filter (fun p => fst p = b) log)).

Section World.
Context {Ch : Type} `{!SessionChannel Ch}.
Implicit Types (w : world Ch) (s : Session Ch).

Definition sinkText s (n : nat) (log : list (bool * bytes)) : bytes :=
  concat (map snd (filter (fun p => copyTarget s (fst p) = Some (Sink n)) log)).

(** A copy that has not failed. *)
Definition clean (c : copyState) : Prop := c = CRun \/ c = CDone None \/ c = CSent None.
Definition finished (c : copyState) : Prop := c = CDone None \/ c = CSent None.

(** The output: buffers hold the pieces in order; a copy that has not failed has
    passed on everything that was read; one that succeeded has seen the end. *)
Definition outInv (f0 : nat -> bytes) w : Prop :=
  (forall n, wd_sinks w n = f0 n ++ sinkText (wd_s w) n (wd_log w)) /\
  (forall i f c b, wd_copiers w !! i = Some (f, c) -> copySource f = Some b ->
     (clean c -> piecesOf b (wd_log w) = wd_read w b) /\ (finished c -> wd_eof w b = true)).

Definition sentErrors (l : list (copyFunc * copyState)) : list (option error) :=
  concat (map (fun p => match snd p with CSent e => [e] | _ => [] end) l).

Definition copies w : nat := length (wd_copiers w).

(** The errors that [Wait] has received, and those in the channel. *)
Definition errInv w : Prop := exists got,
  Permutation (got ++ wd_errors w) (sentErrors (wd_copiers w)) /\
  match wd_wait w with
  | WaitIdle | WaitSelect => got = []
  | WaitCopies _ n e => (length got + n = copies w)%nat /\ (e = None -> Forall (eq None) got)
  | WaitReturned None => (length got = copies w)%nat /\ Forall (eq None) got
  | WaitReturned (Some _) => True
  end.

(** One request in [wait], without the reply. *)
Definition exitOne (wm : Waitmsg) (msg : Request) : waitError + Waitmsg :=
  if bool_decide (req_Type msg = str "exit-status") then
    inr (mkWaitmsg (be_decode (take 4 (req_Payload msg))) (wm_signal wm) (wm_msg wm) (wm_lang wm))
  else if bool_decide (req_Type msg = str "exit-signal") then
    match Unmarshal sigval_struct (req_Payload msg) with
    | Ret (signal, (_, (err, (lang, _)))) => inr (mkWaitmsg (wm_status wm) signal err lang)
    | Fail e => inl (WaitError e)
    | Panic _ => inr wm
    end
  else inr wm.

Fixpoint exitOf (wm : Waitmsg) (reqs : list Request) : option waitError :=
  match reqs with
  | [] => waitResult wm
  | msg :: reqs => match exitOne wm msg with inl e => Some e | inr wm => exitOf wm reqs end
  end.

(** The exit status on its way. *)
Definition exitInv w : Prop :=
  let r := exitOf newWaitmsg (wd_reqs w) in
  match wd_waiter w with
  | WLoop wm => wd_exitStatus w = [] /\ (forall more, exitOf newWaitmsg (wd_reqs w ++ more) = exitOf wm more) /\
                match wd_wait w with WaitIdle | WaitSelect | WaitReturned (Some _) => True | _ => False end
  | WReady r' => r' = r /\ wd_exitStatus w = [] /\ match wd_wait w with WaitIdle | WaitSelect | WaitReturned (Some _) => True | _ => False end
  | WGone => Forall (eq r) (wd_exitStatus w) /\
      match wd_wait w with WaitCopies e _ _ => e = r | WaitReturned None => r = None | _ => True end
  end.

Definition worldInv (f0 : nat -> bytes) w : Prop :=
  outInv f0 w /\ errInv w /\ exitInv w /\ map fst (wd_copiers w) = ss_copyFuncs (wd_s w) /\
  List.NoDup (omap copySource (ss_copyFuncs (wd_s w))).

Lemma waitOne_exitOne wm msg c r c' : waitOne wm msg c = Done r c' -> r = exitOne wm msg.
Proof.
  unfold waitOne, exitOne. destruct (bool_decide (req_Type msg = str "exit-status")).
  - destruct (_ <? 4); [done|]. by intros [= <- _].
  - destruct (bool_decide (req_Type msg = str "exit-signal")).
    + destruct (Unmarshal _ _) as [[signal [core [err [lang []]]]]|e|]; by intros [= <- _].
    + destruct (req_WantReply msg); [|by intros [= <- _]]. unfold bind. destruct (sch_Reply false c); [|done|done]. by intros [= <- _].
Qed.

Lemma piecesOf_app b l b' p : piecesOf b (l ++ [(b', p)]) = piecesOf b l ++ (if Bool.eqb b' b then p else []).
Proof.
  unfold piecesOf. rewrite filter_app, map_app, concat_app. f_equal. destruct (decide (b' = b)) as [->|Hne].
  - rewrite filter_cons_True, eqb_reflx by done. cbn. by rewrite app_nil_r.
  - by rewrite filter_cons_False, (proj2 (eqb_false_iff _ _)) by done.
Qed.

Lemma sinkText_app s n l b p : sinkText s n (l ++ [(b, p)]) = sinkText s n l ++ (if decide (copyTarget s b = Some (Sink n)) then p else []).
Proof.
  unfold sinkText. rewrite filter_app, map_app, concat_app. f_equal. destruct (decide (copyTarget s b = Some (Sink n))) as [E|E].
  - rewrite filter_cons_True by done. cbn. by rewrite app_nil_r.
  - by rewrite filter_cons_False by done.
Qed.

Lemma extend_lookup f t p n : extend f t p n = f n ++ (if decide (t = Some (Sink n)) then p else []).
Proof.
  destruct t as [[|m]|]; cbn [extend]; [by rewrite decide_False, app_nil_r by done | | by rewrite decide_False, app_nil_r by done].
  destruct (Nat.eqb_spec n m) as [->|Hne]; [by rewrite decide_True by done|].
  rewrite decide_False; [by rewrite app_nil_r | congruence].
Qed.

(** A stream has one copying function. *)
Lemma one_copier (l : list (copyFunc * copyState)) i j f g c d b :
  List.NoDup (omap copySource (map fst l)) -> l !! i = Some (f, c) -> l !! j = Some (g, d) ->
  copySource f = Some b -> copySource g = Some b -> i = j.
Proof.
  revert i j. induction l as [|[h e] l IH]; intros i j Hnd Hi Hj Hf Hg; [done|]. cbn in Hnd.
  assert (Hin : forall k f c, l !! k = Some (f, c) -> copySource f = Some b -> b ∈ omap copySource (map fst l)).
  { intros k f' c' Hk Hf'. apply list_elem_of_omap. exists f'. split; [|done]. apply list_elem_of_fmap. exists (f', c'). split; [done|].
    by eapply list_elem_of_lookup_2. }
  destruct i as [|i], j as [|j]; cbn in Hi, Hj; simplify_eq; [done| | |].
  - rewrite Hf in Hnd. apply List.NoDup_cons_iff in Hnd as [Hn _]. exfalso. apply Hn, list_elem_of_In. by eapply Hin.
  - rewrite Hg in Hnd. apply List.NoDup_cons_iff in Hnd as [Hn _]. exfalso. apply Hn, list_elem_of_In. by eapply Hin.
  - f_equal. apply (IH i j); try done. destruct (copySource h); [by apply List.NoDup_cons_iff in Hnd as [_ ?] | done].
Qed.

(** What a round says of what was passed on. *)
Lemma copyRound_spec data er nw ew r : copyRound data er nw ew = r ->
  (r = None \/ r = Some None -> ztake nw data = data) /\ (r = Some None -> er = Some EOF).
Proof.
  unfold copyRound. destruct data as [|x data].
  { intros <-. split; [intros _; unfold ztake; by rewrite take_nil|]. destruct er as [e|]; [|done]. by case_bool_decide; subst. }
  destruct ew as [e|]; [intros <-; split; [by intros [|]|done]|]. destruct (Z.eqb_spec nw (zlen (x :: data))) as [->|Hne].
  - intros <-. split; [intros _; by rewrite ztake_all by lia|]. destruct er as [e|]; [|done]. by case_bool_decide; subst.
  - intros <-. split; [by intros [|] | done].
Qed.

Lemma outputRound_out f0 i data er nw ew w w' : worldInv f0 w -> outputRound i data er nw ew w = Some w' -> outInv f0 w'.
Proof.
  intros ([H1 H2] & _ & _ & Hf & Hnd) Hr. unfold outputRound in Hr.
  destruct (wd_copiers w !! i) as [[f [| | |]]|] eqn:Ei; try done. destruct (copySource f) as [b|] eqn:Eb; [|done]. cbn zeta in Hr.
  destruct (copyRound_spec data er nw ew _ eq_refl) as [Hpiece Heof]. rewrite <- Hf in Hnd.
  set (w1 := with_output _ _ _ _ w) in Hr.
  assert (Hsinks : forall n, wd_sinks w1 n = f0 n ++ sinkText (wd_s w1) n (wd_log w1)).
  { intros n. unfold w1; cbn [with_output with_copier wd_sinks wd_s wd_log wd_read wd_eof]. rewrite extend_lookup, H1, sinkText_app, app_assoc. done. }
  assert (Hother : forall j g c b', j <> i -> wd_copiers w !! j = Some (g, c) -> copySource g = Some b' ->
            (clean c -> piecesOf b' (wd_log w1) = wd_read w1 b') /\ (finished c -> wd_eof w1 b' = true)).
  { intros j g c b' Hne Hj Hg. assert (Hb : b' <> b).
    { intros ->. apply Hne. by eapply one_copier. }
    destruct (H2 j g c b' Hj Hg) as [K1 K2]. unfold w1; cbn [with_output with_copier wd_sinks wd_s wd_log wd_read wd_eof]. rewrite piecesOf_app. unfold put_stream.
    rewrite (proj2 (eqb_false_iff b b')), (proj2 (eqb_false_iff b' b)), app_nil_r by congruence. done. }
  destruct (H2 i f CRun b Ei Eb) as [K1 _]. specialize (K1 (or_introl eq_refl)).
  assert (Hself : copyRound data er nw ew = None \/ copyRound data er nw ew = Some None -> piecesOf b (wd_log w1) = wd_read w1 b).
  { intros Hc. unfold w1; cbn [with_output with_copier wd_sinks wd_s wd_log wd_read wd_eof]. rewrite piecesOf_app, eqb_reflx, Hpiece by done. unfold put_stream. by rewrite eqb_reflx, K1. }
  destruct (copyRound data er nw ew) as [err|] eqn:Ec; injection Hr as <-; (split; [exact Hsinks|]); intros j g c b' Hj Hg.
  - cbn [with_copier wd_copiers] in Hj. destruct (decide (j = i)) as [->|Hne]; [|rewrite list_lookup_insert_ne in Hj by done; by apply (Hother j g c b')].
    rewrite list_lookup_insert_eq in Hj by (by eapply lookup_lt_Some). injection Hj as <- <-. rewrite Eb in Hg. injection Hg as <-.
    split; [intros [|[[= ->]|]]; try done; apply Hself; by right | intros [[= ->]|]; [|done]].
    unfold w1; cbn [with_output with_copier wd_sinks wd_s wd_log wd_read wd_eof]. unfold put_stream. rewrite eqb_reflx, Heof by done. by rewrite bool_decide_true, orb_true_r by done.
  - destruct (decide (j = i)) as [->|Hne]; [|by apply (Hother j g c b')]. cbn in Hj. rewrite Ei in Hj. injection Hj as <- <-.
    rewrite Eb in Hg. injection Hg as <-. split; [intros _; apply Hself; by left | by intros [|]].
Qed.

Lemma copier_out f0 i f c c' w : outInv f0 w -> wd_copiers w !! i = Some (f, c) ->
  copySource f = None \/ ((clean c' -> clean c) /\ (finished c' -> finished c)) -> outInv f0 (with_copier i f c' w).
Proof.
  intros [H1 H2] Hi Hc. split; [exact H1|]. intros j g d b Hj Hg. cbn [with_copier wd_copiers] in Hj.
  destruct (decide (j = i)) as [->|Hne]; [|rewrite list_lookup_insert_ne in Hj by done; by apply (H2 j g d b)].
  rewrite list_lookup_insert_eq in Hj by (by eapply lookup_lt_Some). injection Hj as <- <-.
  destruct Hc as [Hc|[Hc1 Hc2]]; [congruence|]. destruct (H2 i f c b Hi Hg) as [K1 K2]. split; auto.
Qed.

Lemma stdinRead_frame p n w d e w' : stdinRead p n w = Some (d, e, w') -> exists fd pp, w' = with_pipe fd pp w.
Proof.
  unfold stdinRead. assert (Hid : w = with_pipe (wd_feeder w) (wd_pipe w) w) by by destruct w.
  destruct p; cbn [negb]; [|intros [= _ _ <-]; eauto]. destruct (wd_pipe w) as [pe|] eqn:Ep.
  - intros [= _ _ <-]. eauto.
  - destruct (wd_feeder w) as [|data err|] eqn:Ef; try done. destruct (drop n data); [destruct err|]; intros [= _ _ <-]; eauto.
Qed.

Lemma finishStdin_frame i f err w : exists w1, (wd_s w1 = wd_s w \/ exists c, wd_s w1 = put_ch c (wd_s w)) /\
  w1 = with_s (wd_s w1) w /\
  (finishStdin i f err w = w1 \/ finishStdin i f err w = with_crash w1 \/ exists e, finishStdin i f err w = with_copier i f (CDone e) w1).
Proof.
  unfold finishStdin. destruct (sch_CloseWrite _) as [e1 c|c|why].
  - exists (with_s (put_ch c (wd_s w)) w). split; [right; by eexists|]. split; [by destruct w|]. right. right. by eexists.
  - exists (with_s (put_ch c (wd_s w)) w). split; [right; by eexists|]. split; [by destruct w|]. by left.
  - exists w. split; [by left|]. split; [by destruct w|]. right. by left.
Qed.

(** *** The errors of the copies *)

Definition sentOf (c : copyState) : list (option error) := match c with CSent e => [e] | _ => [] end.

Lemma sentErrors_insert l i f c c' : l !! i = Some (f, c) -> sentOf c = [] ->
  Permutation (sentErrors (<[i := (f, c')]> l)) (sentErrors l ++ sentOf c').
Proof.
  revert i. induction l as [|[g d] l IH]; intros [|i] Hi Hc; try done; cbn in Hi.
  - injection Hi as <- <-. unfold sentErrors. cbn [insert list_insert map concat snd]. fold (sentOf c') (sentOf d). rewrite Hc. apply Permutation_app_comm.
  - specialize (IH i Hi Hc). unfold sentErrors in *. cbn [insert list_insert map concat snd]. by rewrite IH, app_assoc.
Qed.

Lemma errInv_copier i f c c' w : errInv w -> wd_copiers w !! i = Some (f, c) -> sentOf c = [] -> sentOf c' = [] -> errInv (with_copier i f c' w).
Proof.
  intros (got & Hp & Hw) Hi Hc Hc'. exists got. cbn [with_copier wd_errors wd_copiers wd_wait]. unfold copies in *. cbn [wd_copiers with_copier].
  rewrite length_insert. split; [|exact Hw]. by rewrite (sentErrors_insert _ _ _ _ _ Hi Hc), Hc', app_nil_r.
Qed.

Lemma errInv_report i f e w : errInv w -> wd_copiers w !! i = Some (f, CDone e) ->
  errInv (with_errors (wd_errors w ++ [e]) (with_copier i f (CSent e) w)).
Proof.
  intros (got & Hp & Hw) Hi. exists got. cbn [with_copier with_errors wd_errors wd_copiers wd_wait]. unfold copies in *. cbn [wd_copiers with_copier with_errors].
  rewrite length_insert. split; [|exact Hw]. rewrite (sentErrors_insert _ _ _ _ _ Hi eq_refl). cbn [sentOf]. by rewrite app_assoc, Hp.
Qed.

(** *** One step *)

Definition same_static w w' : Prop :=
  map fst (wd_copiers w') = map fst (wd_copiers w) /\ ss_copyFuncs (wd_s w') = ss_copyFuncs (wd_s w) /\
  ss_started (wd_s w') = ss_started (wd_s w) /\ forall b, copyTarget (wd_s w') b = copyTarget (wd_s w) b.

Lemma insert_static i f c c' w : wd_copiers w !! i = Some (f, c) -> map fst (<[i := (f, c')]> (wd_copiers w)) = map fst (wd_copiers w).
Proof.
  intros Hi. change (map fst) with (fmap (M := list) (@fst copyFunc copyState)). rewrite list_fmap_insert. apply list_insert_id.
  by rewrite list_lookup_fmap, Hi.
Qed.

(** The output and the input of the copies. *)
Lemma outputRound_inv f0 i data er nw ew w w' : worldInv f0 w -> outputRound i data er nw ew w = Some w' -> worldInv f0 w' /\ same_static w w'.
Proof.
  intros Hinv Hr. assert (Ho := outputRound_out _ _ _ _ _ _ _ _ Hinv Hr). destruct Hinv as (_ & He & Hx & Hf & Hnd). unfold outputRound in Hr.
  destruct (wd_copiers w !! i) as [[f [| | |]]|] eqn:Ei; try done. destruct (copySource f) as [b|] eqn:Eb; [|done]. cbn zeta in Hr.
  set (w1 := with_output _ _ _ _ w) in Hr. assert (He1 : errInv w1) by exact He. assert (Hi1 : wd_copiers w1 !! i = Some (f, CRun)) by exact Ei.
  destruct (copyRound data er nw ew) as [err|]; injection Hr as <-.
  - assert (Hm := insert_static i f CRun (CDone err) w1 Hi1). split; [|split; [exact Hm | done]]. split; [exact Ho|].
    split; [by eapply errInv_copier|]. split; [exact Hx|]. split; [|exact Hnd]. cbn [with_copier wd_copiers]. rewrite Hm. exact Hf.
  - split; [|done]. split; [exact Ho|]. split; [exact He1|]. split; [exact Hx|]. split; [exact Hf | exact Hnd].
Qed.

Lemma worldInv_s f0 w s' : worldInv f0 w -> ss_copyFuncs s' = ss_copyFuncs (wd_s w) -> (forall b, copyTarget s' b = copyTarget (wd_s w) b) ->
  worldInv f0 (with_s s' w).
Proof.
  intros ([H1 H2] & He & Hx & Hf & Hnd) Ef Et. split; [|split; [exact He|]; split; [exact Hx|]; cbn; by rewrite Ef].
  split; [|exact H2]. intros n. cbn [with_s wd_s wd_sinks wd_log]. rewrite H1. f_equal. unfold sinkText. f_equal. f_equal.
  apply list_filter_iff. intros p. by rewrite Et.
Qed.

Lemma inputRound_inv f0 i n nw ew w w' : worldInv f0 w -> inputRound i n nw ew w = Some w' -> worldInv f0 w' /\ same_static w w'.
Proof.
  intros Hinv Hr. unfold inputRound in Hr. destruct (wd_copiers w !! i) as [[[p| |] [| | |]]|] eqn:Ei; try done.
  destruct (stdinRead p n w) as [[[data er] w1]|] eqn:Er; [|done]. apply stdinRead_frame in Er as (fd & pp & ->).
  destruct (copyRound data er nw ew) as [err|]; injection Hr as <-; [|by split].
  destruct (finishStdin_frame i (CopyStdin p) err (with_pipe fd pp w)) as (w1 & Hs & Ew & Hc).
  assert (H1 : worldInv f0 w1 /\ same_static w w1).
  { rewrite Ew. destruct Hs as [->|[c ->]].
    - split; [exact Hinv | done].
    - split; [apply worldInv_s; [exact Hinv | done | done] | done]. }
  destruct H1 as [H1 S1]. destruct Hc as [->|[->|[e ->]]]; [by split | by split|].
  assert (Hi1 : wd_copiers w1 !! i = Some (CopyStdin p, CRun)) by (rewrite Ew; exact Ei). assert (Hm := insert_static i _ _ (CDone e) w1 Hi1).
  destruct H1 as (Ho & He & Hx & Hf & Hnd). destruct S1 as (S1 & S2 & S3 & S4). split.
  - split; [eapply copier_out; [done | done | by left]|]. split; [by eapply errInv_copier|]. split; [exact Hx|]. split; [|exact Hnd].
    cbn [with_copier wd_copiers]. by rewrite Hm.
  - split; [cbn [with_copier wd_copiers]; by rewrite Hm | done].
Qed.

Lemma requestStep_inv f0 msg w w' : worldInv f0 w -> requestStep msg w = Some w' -> worldInv f0 w' /\ same_static w w'.
Proof.
  intros Hinv Hr. unfold requestStep in Hr. destruct (wd_waiter w) as [wm| |] eqn:Ew; try done. injection Hr as <-.
  assert (Hs : forall c, worldInv f0 (with_s (put_ch c (wd_s w)) w)) by (intros c; by apply worldInv_s).
  destruct (waitOne wm msg (ss_ch (wd_s w))) as [r c|c|why] eqn:Eo; [|by split | by split].
  apply waitOne_exitOne in Eo. destruct (Hs c) as (Ho & He & Hx & Hf & Hnd). unfold exitInv in Hx. cbn [with_s wd_waiter] in Hx. rewrite Ew in Hx.
  destruct Hx as (X1 & X2 & X3). cbn [with_s wd_reqs wd_exitStatus wd_wait] in *.
  destruct r as [e|wm']; (split; [|done]); (split; [exact Ho|]; split; [exact He|]; split; [|by split]); unfold exitInv; cbn.
  - split; [|done]. rewrite X2. cbn [exitOf]. by rewrite <- Eo.
  - split; [done|]. split; [|done]. intros more. rewrite <- app_assoc, X2. cbn [app exitOf]. by rewrite <- Eo.
Qed.

Lemma Wait_inv f0 e w w' : worldInv f0 w -> Wait e w = Some w' -> worldInv f0 w' /\ same_static w w'.
Proof.
  intros (Ho & (got & Hp & Hw) & Hx & Hf & Hnd) Hr. unfold Wait in Hr.
  assert (Hn : copies w = length (ss_copyFuncs (wd_s w))) by (rewrite <- Hf; unfold copies; by rewrite length_map).
  unfold exitInv in Hx.
  destruct e; try done; destruct (wd_wait w) as [| |we [|n] ce|] eqn:Ewt; try done.
  - injection Hr as <-. split; [|done]. split; [exact Ho|]. split; [|split; [|by split]].
    + exists got. cbn. split; [done|]. by destruct (ss_started (wd_s w)).
    + unfold exitInv. cbn. destruct (wd_waiter w); destruct (ss_started (wd_s w)); done.
  - destruct (wd_exitStatus w) as [|r l] eqn:Es; [done|]. cbn zeta in Hr. set (w1 := if ss_stdinPipeWriter _ then _ else _) in Hr.
    assert (Hw1 : exists fd pp, w1 = with_pipe fd pp (with_exitStatus l w)).
    { unfold w1. destruct (ss_stdinPipeWriter _); [eauto|]. exists (wd_feeder w), (wd_pipe w). by destruct w. }
    clearbody w1. destruct Hw1 as (fd & pp & ->). injection Hr as <-. split; [|done]. split; [exact Ho|].
    destruct (wd_waiter w) as [wm|r'|] eqn:Eww; [by destruct Hx | by destruct Hx as (_ & ? & _)|]. destruct Hx as [Hx _].
    apply Forall_cons in Hx as [<- Hx]. split; [|split; [unfold exitInv; cbn; rewrite Eww; by split | by split]].
    exists got. cbn. split; [exact Hp|]. subst got. cbn. split; [by rewrite <- Hn | done].
  - injection Hr as <-. split; [|done]. split; [exact Ho|]. destruct (wd_waiter w) as [wm|r'|] eqn:Eww; [by destruct Hx as (_ & _ & ?) | by destruct Hx as (_ & _ & ?)|].
    destruct Hx as [Hx ->]. destruct Hw as [Hw1 Hw2]. split; [|split; [|by split]].
    + exists got. cbn. split; [done|]. destruct (exitOf newWaitmsg (wd_reqs w)); [done|]. destruct ce; [done|]. split; [unfold copies in *; cbn; lia | auto].
    + unfold exitInv. cbn. rewrite Eww. split; [done|]. destruct (exitOf newWaitmsg (wd_reqs w)); [done|]. by destruct ce.
  - destruct (wd_errors w) as [|err l] eqn:Ee; [done|]. injection Hr as <-. split; [|done]. split; [exact Ho|]. destruct Hw as [Hw1 Hw2].
    split; [|split; [|by split]].
    + exists (got ++ [err]). cbn. split; [by rewrite <- app_assoc|]. rewrite length_app. cbn. unfold copies in *. cbn. split; [lia|].
      intros Hc. destruct ce; [done|]. subst err. apply Forall_app. split; [by apply Hw2 | by repeat constructor].
    + unfold exitInv. cbn. destruct (wd_waiter w); [by destruct Hx as (_ & _ & ?) | by destruct Hx as (_ & _ & ?)|]. done.
  - destruct (wd_done w); [|done]. injection Hr as <-. split; [|done]. split; [exact Ho|]. split; [|split; [|by split]].
    + exists got. cbn. done.
    + unfold exitInv. cbn. destruct (wd_waiter w); naive_solver.
  - destruct (wd_done w); [|done]. injection Hr as <-. split; [|done]. split; [exact Ho|]. split; [|split; [|by split]].
    + exists got. cbn. done.
    + unfold exitInv. cbn. destruct (wd_waiter w); naive_solver.
Qed.

Lemma same_static_refl w : same_static w w.
Proof. done. Qed.

Lemma feed_inv f0 d e w w' : worldInv f0 w -> feed d e w = Some w' -> worldInv f0 w' /\ same_static w w'.
Proof.
  intros Hinv Hr. unfold feed in Hr. destruct (wd_feeder w); try done.
  - destruct d; [destruct e|destruct (wd_pipe w)]; injection Hr as <-; by split.
  - destruct (wd_pipe w); [|done]. injection Hr as <-. by split.
Qed.

Lemma sstep_inv f0 e w w' : worldInv f0 w -> sstep e w = Some w' -> worldInv f0 w' /\ same_static w w'.
Proof.
  intros Hinv Hr. unfold sstep in Hr. destruct (wd_crashed w); [done|]. destruct e.
  - by eapply outputRound_inv.
  - by eapply inputRound_inv.
  - by eapply feed_inv.
  - destruct (wd_copiers w !! i) as [[f [|err| |]]|] eqn:Ei; try done. injection Hr as <-. assert (Hm := insert_static i f _ (CSent err) w Ei).
    destruct Hinv as (Ho & He & Hx & Hf & Hnd). split; [|split; [exact Hm | done]].
    split; [eapply (copier_out f0 i f (CDone err) (CSent err) w Ho Ei); right; unfold clean, finished; naive_solver|].
    split; [by apply errInv_report|]. split; [exact Hx|]. split; [|exact Hnd]. cbn [with_errors with_copier wd_copiers]. rewrite Hm. exact Hf.
  - destruct (wd_copiers w !! i) as [[f [|err| |]]|] eqn:Ei; try done. destruct (wd_done w); [|done]. injection Hr as <-.
    assert (Hm := insert_static i f _ CLost w Ei). destruct Hinv as (Ho & He & Hx & Hf & Hnd). split; [|split; [exact Hm | done]].
    split; [eapply copier_out; [exact Ho | exact Ei | right; unfold clean, finished; naive_solver]|].
    split; [by eapply errInv_copier|]. split; [exact Hx|]. split; [|exact Hnd]. cbn [with_copier wd_copiers]. rewrite Hm. exact Hf.
  - by eapply requestStep_inv.
  - destruct (wd_waiter w) as [wm| |] eqn:Ew; try done. injection Hr as <-. destruct Hinv as (Ho & He & Hx & Hf & Hnd). split; [|done].
    split; [exact Ho|]. split; [exact He|]. split; [|by split]. unfold exitInv in *. rewrite Ew in Hx. cbn. destruct Hx as (X1 & X2 & X3).
    split; [|done]. specialize (X2 []). by rewrite app_nil_r in X2.
  - destruct (wd_waiter w) as [|r|] eqn:Ew; try done. injection Hr as <-. destruct Hinv as (Ho & He & Hx & Hf & Hnd). split; [|done].
    split; [exact Ho|]. split; [exact He|]. split; [|by split]. unfold exitInv in *. rewrite Ew in Hx. cbn. destruct Hx as (-> & X2 & X3).
    split; [by repeat constructor|]. destruct (wd_wait w) as [| | |[|]]; done.
  - destruct (wd_waiter w) as [|r|] eqn:Ew; try done. destruct (wd_done w); [|done]. injection Hr as <-. destruct Hinv as (Ho & He & Hx & Hf & Hnd). split; [|done].
    split; [exact Ho|]. split; [exact He|]. split; [|by split]. unfold exitInv in *. rewrite Ew in Hx. cbn. destruct Hx as (-> & X2 & X3).
    split; [by rewrite X2|]. destruct (wd_wait w) as [| | |[|]]; done.
  - injection Hr as <-. by split.
  - by eapply Wait_inv.
  - by eapply Wait_inv.
  - by eapply Wait_inv.
  - by eapply Wait_inv.
Qed.

Lemma sruns_inv f0 es w w' : worldInv f0 w -> sruns es w = Some w' -> worldInv f0 w' /\ same_static w w'.
Proof.
  revert w. induction es as [|e es IH]; intros w Hinv Hr; cbn [sruns] in Hr; [injection Hr as <-; by split|].
  destruct (sstep e w) as [w1|] eqn:Es; [|done]. destruct (sstep_inv f0 e w w1 Hinv Es) as [H1 (A1 & A2 & A3 & A4)].
  destruct (IH w1 H1 Hr) as [H2 (B1 & B2 & B3 & B4)]. split; [done|]. split; [congruence|]. split; [congruence|]. split; [congruence|].
  intros b. by rewrite B4.
Qed.

(** *** The end of [Wait] *)

Lemma sentErrors_length l : (length (sentErrors l) <= length l)%nat.
Proof. unfold sentErrors. induction l as [|[f c] l IH]; [done|]. cbn [map concat snd length]. rewrite length_app. destruct c; cbn; lia. Qed.

Lemma all_sent l : (length l <= length (sentErrors l))%nat -> Forall (eq None) (sentErrors l) -> Forall (fun p => snd p = CSent None) l.
Proof.
  unfold sentErrors. induction l as [|[f c] l IH]; [constructor|]. cbn [map concat snd length]. rewrite length_app. intros Hl Hf.
  pose proof (sentErrors_length l) as Hle. unfold sentErrors in Hle. apply Forall_app in Hf as [Hf1 Hf2].
  destruct c as [|e|e|]; cbn in Hl, Hf1; try lia. apply Forall_cons in Hf1 as [<- _]. constructor; [done|]. apply IH; [lia | done].
Qed.

Lemma returned_nil f0 w : worldInv f0 w -> wd_wait w = WaitReturned None ->
  exitOf newWaitmsg (wd_reqs w) = None /\ Forall (fun p => snd p = CSent None) (wd_copiers w).
Proof.
  intros (_ & (got & Hp & Hw) & Hx & _) Hr. unfold exitInv in Hx. rewrite Hr in *. destruct Hw as [Hl Hg].
  split; [destruct (wd_waiter w); naive_solver|]. assert (He : wd_errors w = []).
  { assert (H := Permutation_length Hp). rewrite length_app in H. pose proof (sentErrors_length (wd_copiers w)). unfold copies in Hl.
    destruct (wd_errors w); [done|]. cbn in H. lia. }
  rewrite He, app_nil_r in Hp. apply all_sent; [rewrite <- (Permutation_length Hp), Hl; done | by rewrite <- Hp].
Qed.

Lemma exitOf_zero wm reqs : exitOf wm reqs = None ->
  foldl (fun acc msg => match statusOf msg with Some a => Some a | None => acc end) (Some (wm_status wm)) reqs = Some 0.
Proof.
  revert wm. induction reqs as [|msg reqs IH]; intros wm; cbn [exitOf foldl].
  - unfold waitResult. destruct (Z.eqb_spec (wm_status wm) 0) as [->|]; [done|]. destruct (_ =? -1); [|done]. by destruct (bool_decide _).
  - assert (E : statusOf msg = if bool_decide (req_Type msg = str "exit-status") then Some (be_decode (take 4 (req_Payload msg))) else None) by done.
    rewrite E. unfold exitOne. destruct (bool_decide (req_Type msg = str "exit-status")).
    + intros H. by apply IH in H.
    + destruct (bool_decide (req_Type msg = str "exit-signal")); [|apply IH].
      destruct (Unmarshal _ _) as [[signal [core [err [lang []]]]]|e|]; [|done|]; intros H; by apply IH in H.
Qed.

Lemma foldl_default {A} (f : Request -> option A) a reqs :
  foldl (fun acc msg => match f msg with Some a => Some a | None => acc end) (Some a) reqs =
  Some (default a (lastOf f reqs)).
Proof.
  unfold lastOf. induction reqs as [|msg reqs IH] using rev_ind; [done|]. rewrite !foldl_app, IH. cbn [foldl]. by destruct (f msg).
Qed.

Lemma zero_status reqs : exitOf newWaitmsg reqs = None -> lastOf statusOf reqs = Some 0.
Proof. intros H. apply exitOf_zero in H. rewrite foldl_default in H. destruct (lastOf statusOf reqs); by injection H. Qed.

(** *** Starting *)

Lemma start_spec s : start s = Done None
  (put_copies (ss_copyFuncs s ++ (if ss_stdinpipe s then [] else [CopyStdin (bool_decide (is_Some (ss_Stdin s)))])
               ++ (if ss_stdoutpipe s then [] else [CopyStdout]) ++ (if ss_stderrpipe s then [] else [CopyStderr]))
     (if ss_stdinpipe s then ss_stdinPipeWriter s else (bool_decide (is_Some (ss_Stdin s))) || ss_stdinPipeWriter s)
     (put_outputs (if ss_stdoutpipe s then ss_Stdout s else orDiscard (ss_Stdout s))
                  (if ss_stderrpipe s then ss_Stderr s else orDiscard (ss_Stderr s)) (put_started true s))).
Proof. destruct s as [i o e c st l ip op ep pw]. destruct ip, op, ep, i; cbn; by rewrite ?app_nil_r, <- ?app_assoc. Qed.

Lemma Start_spec cmd s0 s : Start cmd s0 = Done None s -> exists c, start (put_ch c s0) = Done None s.
Proof.
  unfold Start, mustSucceed, SendRequest, onChannel, bind, gets, liftO, ret, crash. destruct (ss_started s0); [done|].
  destruct (marshalStruct _ _ _) as [req| |]; try done. destruct (sch_SendRequest _ _ _ _) as [[ok err] c|c|]; try done.
  destruct err; [done|]. destruct ok; [|done]. intros H. by exists c.
Qed.

Lemma start_worldInv cmd s0 s sinks : ss_copyFuncs s0 = [] -> Start cmd s0 = Done None s -> worldInv sinks (start_world s sinks).
Proof.
  intros H0 Hs. apply Start_spec in Hs as (c & Hs). rewrite start_spec in Hs. injection Hs as <-.
  set (s := put_copies _ _ _). split; [|split; [|split; [|split]]].
  - split; [intros n; cbn; by rewrite app_nil_r|]. intros i f st b Hi Hb. cbn in Hi. rewrite list_lookup_fmap in Hi.
    destruct (_ !! i); [|done]. injection Hi as <- <-. split; [done | by intros [|]].
  - exists []. cbn. split; [|done]. unfold sentErrors. rewrite map_map. cbn.
    assert (Hnil : forall l : list copyFunc, concat (map (fun _ => []) l) = @nil (option error)) by (intros l; by induction l).
    by rewrite Hnil.
  - unfold exitInv. cbn. done.
  - cbn [start_world wd_copiers wd_s]. rewrite map_map. cbn. apply map_id.
  - unfold s. cbn. rewrite H0. cbn. destruct (ss_stdinpipe s0), (ss_stdoutpipe s0), (ss_stderrpipe s0); cbn; repeat constructor; cbn; naive_solver.
Qed.
End World.

(** ** On the wire *)

Lemma request_Marshal m : Marshal m = Ret (z2b 98 :: be_encode 4 (channelRequestMsg_PeersId m) ++
  (be_encode 4 (zlen (channelRequestMsg_Request m)) ++ channelRequestMsg_Request m) ++
  [if channelRequestMsg_WantReply m then z2b 1 else z2b 0] ++ channelRequestMsg_RequestSpecificData m).
Proof. erewrite Marshal_value by reflexivity. reflexivity. Qed.

(** A request of an accepted channel is one packet that the peer decodes. *)
Lemma request_on_wire env name want payload s :
  ch_decided (cs_ch s) = true -> ch_sentClose (cs_ch s) = false -> env_connErr env = None ->
  0 <= ch_remoteId (cs_ch s) < 2 ^ 32 -> zlen name + zlen payload + 16 < 2 ^ 32 ->
  exists p, decode p = Ret (M_channelRequestMsg (mk_channelRequestMsg (ch_remoteId (cs_ch s)) name want payload)) /\
    match Channel.SendRequest env name want payload s with
    | Done _ s' | Blocked s' => cs_sent s' = cs_sent s ++ [p]
    | Crash _ => False
    end.
Proof.
  intros Hd Hc He Hid Hl. set (m := mk_channelRequestMsg (ch_remoteId (cs_ch s)) name want payload). set (id := ch_remoteId (cs_ch s)) in *.
  pose proof (zlen_nonneg name). pose proof (zlen_nonneg payload). assert (Em := request_Marshal m). set (p := z2b 98 :: _) in Em.
  assert (Hp : zlen p = zlen name + zlen payload + 10).
  { unfold p, m. cbn [channelRequestMsg_PeersId channelRequestMsg_Request channelRequestMsg_WantReply channelRequestMsg_RequestSpecificData].
    rewrite zlen_cons, !zlen_app, !zlen_be_encode. change (zlen [if want then z2b 1 else z2b 0]) with 1. lia. }
  assert (Hput : putPeersId id p = p).
  { unfold p, putPeersId. cbn [take drop]. unfold m at 2 3 4 5 6. cbn [channelRequestMsg_PeersId]. by rewrite drop_app_length' by by rewrite be_encode_length. }
  exists p. split; [apply (decode_ret_ok (M_channelRequestMsg m)); [exact Em | cbn; tauto | lia]|].
  unfold Channel.SendRequest, sendMessage. unfold bind at 1, get at 1. rewrite Hd. cbn [negb]. fold id. fold m. rewrite Em.
  unfold bind at 1. unfold bind at 1. cbn [liftO]. unfold ret at 1. unfold bind at 1, get at 1. rewrite (proj2 (Z.ltb_ge _ _)) by lia.
  fold id. rewrite Hput. unfold writePacket. unfold bind at 1, get at 1. rewrite Hc. unfold p at 1. fold p.
  unfold bind at 1, modify at 1. unfold bind at 1, connWrite at 1. rewrite He. unfold bind at 1, idleW_AttemptOK, modify at 1. unfold ret at 1.
  destruct want; [|done]. unfold bind at 1, get. cbn [cs_ch]. destruct (gq _) as [|r q]; [by destruct (_ || _)|].
  destruct (_ && _); [done|]. unfold bind, modify. by destruct r.
Qed.

(** ** Complete output *)

Lemma waited_nil {Ch} `{!SessionChannel Ch} cmd (s0 s : Session Ch) sinks es w :
  ss_copyFuncs s0 = [] -> Start cmd s0 = Done None s -> sruns es (start_world s sinks) = Some w -> wd_wait w = WaitReturned None ->
  lastOf statusOf (wd_reqs w) = Some 0 /\
  (ss_stdoutpipe s0 = false -> wd_eof w false = true /\ piecesOf false (wd_log w) = wd_read w false) /\
  (ss_stderrpipe s0 = false -> wd_eof w true = true /\ piecesOf true (wd_log w) = wd_read w true) /\
  (forall n, wd_sinks w n = sinks n ++ sinkText s n (wd_log w)) /\
  (forall n, ss_stdoutpipe s0 = false -> ss_Stdout s = Some (Sink n) -> ss_Stderr s <> Some (Sink n) -> wd_sinks w n = sinks n ++ wd_read w false).
Proof.
  intros H0 Hs Hr Hw. assert (Hinv := start_worldInv cmd s0 s sinks H0 Hs). destruct (sruns_inv sinks es _ _ Hinv Hr) as [H1 (S1 & S2 & S3 & S4)].
  destruct (returned_nil sinks w H1 Hw) as [Hx Hall]. apply zero_status in Hx. destruct H1 as ([Ho1 Ho2] & _ & _ & Hf & _).
  assert (Hstream : forall f b, f ∈ ss_copyFuncs s -> copySource f = Some b -> wd_eof w b = true /\ piecesOf b (wd_log w) = wd_read w b).
  { intros f b Hin Hb. cbn in S2. rewrite S2 in Hf. rewrite <- Hf in Hin. apply list_elem_of_fmap in Hin as ([f' c] & -> & Hin).
    apply list_elem_of_lookup in Hin as [i Hi]. apply (proj1 (Forall_lookup _ _)) with (i := i) (x := (f', c)) in Hall; [|done]. cbn in Hall. subst c.
    destruct (Ho2 i f' (CSent None) b Hi Hb) as [K1 K2]. split; [apply K2; by right | apply K1; right; by right]. }
  apply Start_spec in Hs as (c & Hs). rewrite start_spec in Hs. injection Hs as Es.
  assert (Ef : ss_copyFuncs s = (if ss_stdinpipe s0 then [] else [CopyStdin (bool_decide (is_Some (ss_Stdin s0)))])
               ++ (if ss_stdoutpipe s0 then [] else [CopyStdout]) ++ (if ss_stderrpipe s0 then [] else [CopyStderr])) by (rewrite <- Es; cbn; by rewrite H0).
  assert (Hout : ss_stdoutpipe s0 = false -> wd_eof w false = true /\ piecesOf false (wd_log w) = wd_read w false).
  { intros Hp. apply (Hstream CopyStdout false); [|done]. rewrite Ef, Hp. set_solver. }
  assert (Hsinks : forall n, wd_sinks w n = sinks n ++ sinkText s n (wd_log w)).
  { intros n. rewrite Ho1. f_equal. unfold sinkText. f_equal. f_equal. apply list_filter_iff. intros p. by rewrite S4. }
  split; [done|]. split; [done|]. split; [|split; [done|]].
  - intros Hp. apply (Hstream CopyStderr true); [|done]. rewrite Ef, Hp. set_solver.
  - intros n Hp Hn1 Hn2. rewrite Hsinks. f_equal. rewrite <- (proj2 (Hout Hp)). unfold sinkText, piecesOf. f_equal. f_equal.
    apply list_filter_iff. intros [[|] x]; cbn; naive_solver.
Qed.

Lemma prepareOutput_spec {Ch} `{!SessionChannel Ch} b (s : Session Ch) s1 : prepareOutput b s = Done None s1 ->
  ss_Stdout s = None /\ s1 = put_outputs (Some (Sink b)) (ss_Stderr s) s.
Proof. unfold prepareOutput, bind, gets, modifies, ret. destruct (ss_Stdout s); [done|]. intros H. by injection H as <-. Qed.

Lemma Run_spec {Ch} `{!SessionChannel Ch} sinks cmd (s0 s : Session Ch) w0 : Run sinks cmd s0 = Done (inr w0) s ->
  Start cmd s0 = Done None s /\ w0 = with_wait WaitSelect (start_world s sinks).
Proof.
  unfold Run, bind, ret. destruct (Start cmd s0) as [[e|] s'|s'|]; try done. intros H. by injection H as <- <-.
Qed.

Lemma Start_started {Ch} `{!SessionChannel Ch} cmd (s0 s : Session Ch) : Start cmd s0 = Done None s -> ss_started s = true.
Proof. intros H. apply Start_spec in H as (c & H). rewrite start_spec in H. by injection H as <-. Qed.

(** [Output] that returns nil returns the whole of standard output. *)
Lemma output_complete {Ch} `{!SessionChannel Ch} b sinks cmd (s0 s : Session Ch) w0 es w :
  ss_copyFuncs s0 = [] -> ss_stdoutpipe s0 = false -> ss_Stderr s0 <> Some (Sink b) ->
  Output b sinks cmd s0 = Done (inr w0) s -> sruns es w0 = Some w -> wd_wait w = WaitReturned None ->
  wd_sinks w b = wd_read w false /\ lastOf statusOf (wd_reqs w) = Some 0.
Proof.
  intros H0 Hp Hb Ho Hr Hw. unfold Output in Ho. unfold bind at 1 in Ho.
  destruct (prepareOutput b s0) as [[e|] s1|s1|] eqn:Ep; try done. apply prepareOutput_spec in Ep as [Hn ->].
  apply Run_spec in Ho as [Hs ->]. assert (Hst := Start_started _ _ _ Hs).
  assert (Hr' : sruns (EWait :: es) (start_world s (freshSink b sinks)) = Some w) by (cbn; by rewrite Hst).
  destruct (waited_nil cmd (put_outputs (Some (Sink b)) (ss_Stderr s0) s0) s _ _ w H0 Hs Hr' Hw) as (Hz & _ & _ & _ & Hout). split; [|done].
  apply Start_spec in Hs as (c & Hs). rewrite start_spec in Hs. injection Hs as Es.
  rewrite (Hout b Hp); [unfold freshSink; by rewrite Nat.eqb_refl | by rewrite <- Es; cbn; rewrite Hp|].
  rewrite <- Es. cbn. destruct (ss_stderrpipe s0); [done|]. by destruct (ss_Stderr s0).
Qed.

(** ** The claims *)

(** A channel that accepts every request and keeps them. *)
#[export] Instance log_session : SessionChannel (list (bytes * bool * bytes)) := {|
  sch_SendRequest name want payload := fun l => Done (true, None) (l ++ [(name, want, payload)]);
  sch_CloseWrite := fun l => Done None l;
  sch_Close := fun l => Done None l;
  sch_Reply _ := fun l => Done None l
|}.

(** C20: [Wait] returns nil only for a command that succeeded and whose
    output has arrived.  Whatever the goroutines of a session do after [Start], in any
    order and with any results of reads and writes: when [Wait] has returned nil, the
    last exit status that was sent is zero; both output streams, unless the caller
    took them as pipes, were read to their end and everything read was passed on; and
    every buffer of the caller holds exactly the pieces written to it, in order; with
    one of its own, standard output is there in full. *)
Theorem wait_nil_complete {Ch} `{!SessionChannel Ch} cmd (s0 s : Session Ch) sinks es w :
  ss_copyFuncs s0 = [] -> Start cmd s0 = Done None s -> sruns es (start_world s sinks) = Some w -> wd_wait w = WaitReturned None ->
  lastOf statusOf (wd_reqs w) = Some 0 /\
  (ss_stdoutpipe s0 = false -> wd_eof w false = true /\ piecesOf false (wd_log w) = wd_read w false) /\
  (ss_stderrpipe s0 = false -> wd_eof w true = true /\ piecesOf true (wd_log w) = wd_read w true) /\
  (forall n, wd_sinks w n = sinks n ++ sinkText s n (wd_log w)) /\
  (forall n, ss_stdoutpipe s0 = false -> ss_Stdout s = Some (Sink n) -> ss_Stderr s <> Some (Sink n) -> wd_sinks w n = sinks n ++ wd_read w false).
Proof. apply waited_nil. Qed.

(** A command that prints two pieces and exits. *)
Definition example_session : Session (list (bytes * bool * bytes)) := put_outputs (Some (Sink 0)) None (newSession []).

Definition example_started : Session (list (bytes * bool * bytes)) :=
  match Start (str "ls") example_session with Done _ s => s | _ => example_session end.

Definition example_events : list event :=
  [EOutput 1 (str "a") None 1 None; ERequest (mkRequest (str "exit-status") false [x00; x00; x00; x00] true); EInput 0 9 0 None;
   EOutput 2 [] (Some EOF) 0 None; EOutput 1 (str "b") (Some EOF) 1 None; EClosed; EStatus; EWait; EWaitStatus;
   EReport 0; EReport 1; EReport 2; EWaitCopy; EWaitCopy; EWaitCopy; EWaitCopy].

Lemma wait_nil_complete_witness :
  match sruns example_events (start_world example_started (fun _ => [])) with
  | Some w => wd_wait w = WaitReturned None /\ wd_sinks w 0%nat = str "ab"
  | None => False
  end.
Proof.
  assert (H1 : option_map wd_wait (sruns example_events (start_world example_started (fun _ => []))) = Some (WaitReturned None)) by (vm_compute; reflexivity).
  assert (H2 : option_map (fun w => wd_read w false) (sruns example_events (start_world example_started (fun _ => []))) = Some (str "ab"))
    by (vm_compute; reflexivity).
  assert (Hs : Start (str "ls") example_session = Done None example_started) by reflexivity.
  destruct (sruns example_events (start_world example_started (fun _ => []))) as [w|] eqn:E; [|discriminate H1].
  injection H1 as Hw. injection H2 as Hr. split; [exact Hw|].
  destruct (wait_nil_complete (str "ls") example_session example_started (fun _ => []) example_events w eq_refl Hs E Hw) as (_ & _ & _ & _ & Hn).
  rewrite (Hn 0%nat eq_refl eq_refl ltac:(discriminate)). exact Hr.
Defined.

(** The exit status is the one that was sent.  For requests whose
    payloads are well formed, [wait] answers the others with a refusal and then reports:
    nothing when the last status was zero, that status with the last signal when it was
    not, 128 plus the number of the signal when only a signal was sent, and a missing
    status when neither was. *)
Theorem exit_status_reported {Ch} `{!SessionChannel Ch} reqs (c : Ch) : replies_done (Ch := Ch) -> Forall exitRequest_ok reqs ->
  exists c', wait reqs c = Done (exitReport (lastOf statusOf reqs) (lastOf signalOf reqs)) c'.
Proof. intros Hr Hreqs. exact (waitLoop_known reqs None None c Hr Hreqs ltac:(done)). Qed.

Lemma exit_status_reported_witness :
  exists c', wait [mkRequest (str "keepalive") true [] true; mkRequest (str "exit-status") false [x00; x00; x01; x02] true] (@nil (bytes * bool * bytes)) =
    Done (Some (ExitError (mkWaitmsg 258 [] [] []))) c'.
Proof.
  destruct (exit_status_reported [mkRequest (str "keepalive") true [] true; mkRequest (str "exit-status") false [x00; x00; x01; x02] true]
              (@nil (bytes * bool * bytes))) as [c' E].
  - intros c. by exists None, c.
  - repeat constructor; vm_compute; try discriminate.
  - exists c'. exact E.
Defined.

(** The request for a terminal says what was asked.  For modes in
    any order (a Go map is ranged over in any), [RequestPty] sends one request, of type
    pty-req, whose payload a receiver decodes to the terminal's name, the columns and
    rows, eight times these as pixels, and the modes, and a refusal is an error. *)
Theorem pty_request_decodes {Ch} `{!SessionChannel Ch} term h w modes :
  Forall mode_ok modes -> zlen term + 5 * zlen modes < 2 ^ 31 ->
  exists p tm, Unmarshal ptyRequestMsg_struct p = Ret (term, (u32 w, (u32 h, (u32 (w * 8), (u32 (h * 8), (tm, tt)))))) /\
    parseModes (length tm) tm = Some modes /\
    forall (s : Session Ch), RequestPty term h w modes s = mustSucceed "pty-req" p (errNew "ssh: pty-req failed") s.
Proof. apply pty_request. Qed.

Lemma pty_request_decodes_witness :
  exists p tm, Unmarshal ptyRequestMsg_struct p = Ret (str "xterm", (80, (24, (640, (192, (tm, tt)))))) /\
    parseModes (length tm) tm = Some [(53, 0); (128, 14400)] /\
    RequestPty (str "xterm") 24 80 [(53, 0); (128, 14400)] (newSession (@nil (bytes * bool * bytes))) =
      Done None (newSession [(str "pty-req", true, p)]).
Proof.
  destruct (pty_request_decodes (Ch := list (bytes * bool * bytes)) (str "xterm") 24 80 [(53, 0); (128, 14400)]) as (p & tm & H1 & H2 & H3).
  - repeat constructor; vm_compute; discriminate.
  - vm_compute. reflexivity.
  - exists p, tm. split; [exact H1|]. split; [exact H2|]. rewrite H3. reflexivity.
Defined.

(** The command that is started is the command that the peer
    decodes.  On an accepted and open channel, with a working connection, [Start] hands one
    packet to the connection; the peer decodes it to a channel request for this channel,
    of type exec, that wants a reply, and its payload to the command. *)
Theorem exec_on_wire env cmd (s : Session cstate) :
  ss_started s = false -> ch_decided (cs_ch (ss_ch s)) = true -> ch_sentClose (cs_ch (ss_ch s)) = false -> env_connErr env = None ->
  0 <= ch_remoteId (cs_ch (ss_ch s)) < 2 ^ 32 -> zlen cmd < 2 ^ 31 ->
  exists p payload,
    decode p = Ret (M_channelRequestMsg (mk_channelRequestMsg (ch_remoteId (cs_ch (ss_ch s))) (str "exec") true payload)) /\
    Unmarshal execMsg_struct payload = Ret (cmd, tt) /\
    match @Start cstate (channel_session env) cmd s with
    | Done _ s' | Blocked s' => cs_sent (ss_ch s') = cs_sent (ss_ch s) ++ [p]
    | Crash _ => False
    end.
Proof.
  intros Hst Hd Hc He Hid Hl. pose proof (zlen_nonneg cmd).
  destruct (plain_struct_roundtrip execMsg_struct (cmd, tt) eq_refl) as (payload & Ep & Up).
  { cbn. tauto. }
  { change (struct_enc (st_fields execMsg_struct) (cmd, tt)) with ((be_encode 4 (zlen cmd) ++ cmd) ++ []). intros E. apply (f_equal zlen) in E.
    rewrite !zlen_app, zlen_be_encode in E. change (zlen (@nil byte)) with 0 in E. lia. }
  { change (struct_enc (st_fields execMsg_struct) (cmd, tt)) with ((be_encode 4 (zlen cmd) ++ cmd) ++ []). rewrite !zlen_app, zlen_be_encode, zlen_nil. lia. }
  assert (Hpl : zlen payload = zlen cmd + 4).
  { assert (Ep' := Ep). rewrite (marshalStruct_value _ []) in Ep' by done. apply Ret_inj in Ep'. rewrite <- Ep'.
    change (tag_bytes [] ++ struct_enc (st_fields execMsg_struct) (cmd, tt)) with ((be_encode 4 (zlen cmd) ++ cmd) ++ []).
    rewrite !zlen_app, zlen_be_encode, zlen_nil. lia. }
  destruct (request_on_wire env (str "exec") true payload (ss_ch s) Hd Hc He Hid) as (p & Dp & Hp).
  { change (zlen (str "exec")) with 4. lia. }
  exists p, payload. split; [done|]. split; [done|]. unfold Start. unfold bind at 1, gets at 1. rewrite Hst. rewrite Ep.
  unfold bind at 1. cbn [liftO]. unfold ret at 1. unfold bind at 1, mustSucceed at 1, bind at 1, SendRequest, onChannel.
  change (sch_SendRequest (SessionChannel := channel_session env)) with (Channel.SendRequest env).
  destruct (Channel.SendRequest env (str "exec") true payload (ss_ch s)) as [[ok err] c|c|]; [|exact Hp | done].
  unfold ret at 1. destruct err; [exact Hp|]. destruct ok; [|exact Hp]. rewrite start_spec. exact Hp.
Qed.

Lemma exec_on_wire_witness :
  let c := set_remoteId 7 (set_decided true (newChannel (str "session") channelOutbound [] 3)) in
  exists p payload,
    decode p = Ret (M_channelRequestMsg (mk_channelRequestMsg 7 (str "exec") true payload)) /\ Unmarshal execMsg_struct payload = Ret (str "ls", tt) /\
    match @Start cstate (channel_session (mkEnv 0 AnsReqStop None false false)) (str "ls") (newSession (mkCstate c [] [])) with
    | Done _ s' | Blocked s' => cs_sent (ss_ch s') = [p]
    | Crash _ => False
    end.
Proof.
  cbv zeta. apply (exec_on_wire (mkEnv 0 AnsReqStop None false false) (str "ls")
    (newSession (mkCstate (set_remoteId 7 (set_decided true (newChannel (str "session") channelOutbound [] 3))) [] [])));
    try reflexivity; vm_compute; try split; discriminate || reflexivity.
Defined.

(** A status of fewer than four bytes crashes the goroutine of [wait], and with it
    the process. *)
Lemma short_status_crashes {Ch} `{!SessionChannel Ch} wm payload (c : Ch) : zlen payload < 4 ->
  waitOne wm (mkRequest (str "exit-status") false payload true) c = Crash "index out of range".
Proof. intros Hl. unfold waitOne. cbn [req_Type req_Payload]. rewrite bool_decide_true by done. by rewrite (proj2 (Z.ltb_lt _ _)). Qed.
