(* ===== verification/Forward.v ===== *)
(** * Forwarding (tcpip.go, streamlocal.go)

    Listening on, and dialing from, the other end of a connection: the addresses,
    the list of forwards with its mutex and its Go channels, the listeners for ports
    and for Unix sockets, and the channels that are opened for a connection.

    The connection is what the class [ForwardConn] asks for, which the mux of mux.go
    provides.  [net.ParseIP], [IP.String] and [net.ResolveTCPAddr] are the parameter
    [IPLib], with what is relied on in [IPLaws]; the text of an error, which only
    goes into the message of a rejection, is a parameter too.  Addresses are values:
    the [*net.TCPAddr] that is handed to [ListenTCP] belongs to the listener. *)

From S2P Require Import Prelude Text Wire Codec Messages Negotiate Halter Idle Window Buffer Channel Mux.

Open Scope st_scope.

(** ** Messages *)

Definition channelForwardMsg_struct : structType := StructType "channelForwardMsg" "" [("addr", KString); ("rport", KUint32)].
Definition forwardedTCPPayload_struct : structType :=
  StructType "forwardedTCPPayload" "" [("Addr", KString); ("Port", KUint32); ("OriginAddr", KString); ("OriginPort", KUint32)].
Definition channelOpenDirectMsg_struct : structType :=
  StructType "channelOpenDirectMsg" "" [("raddr", KString); ("rport", KUint32); ("laddr", KString); ("lport", KUint32)].
Definition portReply_struct : structType := StructType "" "" [("Port", KUint32)].
Definition streamLocalChannelOpenDirectMsg_struct : structType :=
  StructType "streamLocalChannelOpenDirectMsg" "" [("socketPath", KString); ("reserved0", KString); ("reserved1", KUint32)].
Definition forwardedStreamLocalPayload_struct : structType :=
  StructType "forwardedStreamLocalPayload" "" [("SocketPath", KString); ("Reserved0", KString)].
Definition streamLocalChannelForwardMsg_struct : structType := StructType "streamLocalChannelForwardMsg" "" [("socketPath", KString)].

(** ** Addresses *)

Record TCPAddr := mkTCPAddr { ta_IP : bytes; ta_Port : Z; ta_Zone : bytes }.

Inductive Addr := ATCP (a : TCPAddr) | AUnix (name net : bytes).

#[global] Instance tcpaddr_eq_decision : EqDecision TCPAddr.
Proof. solve_decision. Defined.
#[global] Instance addr_eq_decision : EqDecision Addr.
Proof. solve_decision. Defined.

(** The functions of package net that deal with IP addresses. *)
Class IPLib := {
  IP_String : bytes -> bytes;
  ParseIP : bytes -> option bytes;
  ResolveTCPAddr : bytes -> bytes -> outcome TCPAddr;
  IPv4zero : bytes
}.

(** An address of four or sixteen bytes has a text that parses, to an address with the same
    text; the text of the empty one does not parse. *)
Class IPLaws `{!IPLib} := {
  parse_text : forall ip, zlen ip = 4 \/ zlen ip = 16 ->
    exists ip', ParseIP (IP_String ip) = Some ip' /\ IP_String ip' = IP_String ip /\ zlen ip' = 16;
  parse_size : forall s ip, ParseIP s = Some ip -> zlen ip = 16;
  nil_text : IP_String [] = str "<nil>";
  nil_parse : ParseIP (str "<nil>") = None
}.

(** The text of an error. *)
Class ErrText := { errText : error -> bytes }.

(** [strconv.Itoa]; a number has no more decimal than binary digits. *)
Fixpoint itoaLoop (fuel : nat) (n : Z) (acc : bytes) : bytes :=
  match fuel with
  | O => acc
  | S fuel =>
      let acc := z2b (48 + n mod 10) :: acc in
      if n <? 10 then acc else itoaLoop fuel (n / 10) acc
  end.

Definition itoa (n : Z) : bytes :=
  let digits n := itoaLoop (S (Z.to_nat (Z.log2 n))) n [] in
  if n <? 0 then str "-" ++ digits (- n) else digits n.

(** [net.JoinHostPort]. *)
Definition joinHostPort (host port : bytes) : bytes :=
  if has colon host then [lbracket] ++ host ++ [rbracket; colon] ++ port else host ++ [colon] ++ port.

Section Addresses.
Context `{!IPLib}.

(** [TCPAddr.String]: the empty address has no text. *)
Definition TCPAddr_String (a : TCPAddr) : bytes :=
  let ip := match ta_IP a with [] => [] | _ => IP_String (ta_IP a) end in
  if bool_decide (ta_Zone a = []) then joinHostPort ip (itoa (ta_Port a))
  else joinHostPort (ip ++ str "%" ++ ta_Zone a) (itoa (ta_Port a)).

Definition Addr_Network (a : Addr) : bytes := match a with ATCP _ => str "tcp" | AUnix _ net => net end.
Definition Addr_String (a : Addr) : bytes := match a with ATCP a => TCPAddr_String a | AUnix name _ => name end.

(** The comparison of [Remove] and [Forward]. *)
Definition sameAddr (a b : Addr) : bool :=
  bool_decide (Addr_Network a = Addr_Network b) && bool_decide (Addr_String a = Addr_String b).

Definition parseTCPAddr (addr : bytes) (port : Z) : outcome TCPAddr :=
  if (port =? 0) || (65535 <? port) then Fail (Errorf "ssh: port number out of range: %d" [FNum port])
  else
    match ParseIP addr with
    | None => Fail (Errorf "ssh: cannot parse IP address %q" [FStr addr])
    | Some ip => Ret (mkTCPAddr ip port [])
    end.

Definition unixAddr (path : bytes) : Addr := AUnix path (str "unix").
Definition anonymousUnix : Addr := unixAddr (str "@").
End Addresses.

(** ** The list of forwards *)

(** A channel that the peer opens: its name in the connection, its type and data. *)
Record NewChannel := mkNewChannel { nc_id : nat; nc_type : bytes; nc_extra : bytes }.

#[global] Instance newchannel_eq_decision : EqDecision NewChannel.
Proof. solve_decision. Defined.

Record forward := mkForward { fwd_newCh : NewChannel; fwd_raddr : Addr }.

#[global] Instance forward_eq_decision : EqDecision forward.
Proof. solve_decision. Defined.

(** What is used of a connection.  The context of [SendRequest] is there or is nil. *)
Class ForwardConn (M : Type) := {
  fc_SendRequest : bool -> bytes -> bool -> bytes -> stm M (bool * bytes * option error);
  fc_OpenChannel : bytes -> bytes -> stm M (error + nat);
  fc_Accept : nat -> stm M (option error);
  fc_Reject : nat -> Z -> bytes -> stm M (option error);
  fc_Reply : Request -> bool -> bytes -> stm M (option error)
}.

(** The mux is such a connection; a nil context panics when it is waited on. *)
Definition mux_forward (env : Menv) : ForwardConn mux := {|
  fc_SendRequest hasCtx name wantReply payload :=
    if hasCtx then muxSendRequest env name wantReply payload
    else
      let! err := muxSendMessage env (mk_globalRequestMsg name wantReply payload) in
      match err with
      | Some e => ret (false, [], Some e)
      | None => if wantReply then crash "nil pointer dereference" else ret (false, [], None)
      end;
  fc_OpenChannel name data := openChannel env env name data;
  fc_Accept p := onChan p (Channel.Accept (me_env env));
  fc_Reject p reason message := onChan p (Channel.Reject (me_env env) reason message);
  fc_Reply r ok payload := Reply env r 0 ok payload
|}.

(** The part of [Client] that has to do with incoming channels.  [cl_chans] are the Go channels
    of the forwards, by number; [cl_lock] is the mutex of the list while a goroutine waits with it. *)
Record Client (M : Type) := mkClient {
  cl_conn : M;
  cl_handlers : option (gmap bytes (gochan NewChannel));
  cl_entries : list (Addr * nat);
  cl_chans : list (gochan forward);
  cl_lock : bool
}.
Arguments mkClient {M} _ _ _ _ _.
Arguments cl_conn {M} _.
Arguments cl_handlers {M} _.
Arguments cl_entries {M} _.
Arguments cl_chans {M} _.
Arguments cl_lock {M} _.

Section Forwards.
Context {M : Type} `{!ForwardConn M, !IPLib}.
Notation "'client'" := (Client M).

Definition set_conn (m : M) (c : client) : client := mkClient m (cl_handlers c) (cl_entries c) (cl_chans c) (cl_lock c).
Definition set_handlers h (c : client) : client := mkClient (cl_conn c) h (cl_entries c) (cl_chans c) (cl_lock c).
Definition set_forwards es qs (c : client) : client := mkClient (cl_conn c) (cl_handlers c) es qs (cl_lock c).
Definition set_lock (b : bool) (c : client) : client := mkClient (cl_conn c) (cl_handlers c) (cl_entries c) (cl_chans c) b.

(** An operation of the connection. *)
Definition onConn {A} (m : stm M A) : stm client A := fun c =>
  match m (cl_conn c) with
  | Done a s => Done a (set_conn s c)
  | Blocked s => Blocked (set_conn s c)
  | Crash w => Crash w
  end.

(** [l.Lock(); defer l.Unlock()] around what does not wait. *)
Definition withLock {A} (m : stm client A) : stm client A := fun c => if cl_lock c then Blocked c else m c.

(** [add]: the number of the new Go channel. *)
Definition add (addr : Addr) : stm client nat := withLock (fun c =>
  let n := length (cl_chans c) in
  Done n (set_forwards (cl_entries c ++ [(addr, n)]) (cl_chans c ++ [newGochan]) c)).

(** [close(f.c)]. *)
Definition closeForward (n : nat) : stm client unit := fun c =>
  match cl_chans c !! n with
  | None => Crash "close of nil channel"
  | Some q =>
      if gclosed q then Crash "close of closed channel"
      else Done tt (set_forwards (cl_entries c) (<[n := mkGochan (gq q) true]> (cl_chans c)) c)
  end.

(** The first entry for an address. *)
Fixpoint findEntry (addr : Addr) (entries : list (Addr * nat)) : option nat :=
  match entries with
  | [] => None
  | (laddr, n) :: entries => if sameAddr addr laddr then Some n else findEntry addr entries
  end.

Fixpoint removeEntry (addr : Addr) (entries : list (Addr * nat)) : list (Addr * nat) :=
  match entries with
  | [] => []
  | (laddr, n) :: entries => if sameAddr addr laddr then entries else (laddr, n) :: removeEntry addr entries
  end.

Definition Remove (addr : Addr) : stm client unit := withLock (fun c =>
  match findEntry addr (cl_entries c) with
  | None => Done tt c
  | Some n => closeForward n (set_forwards (removeEntry addr (cl_entries c)) (cl_chans c) c)
  end).

Fixpoint closeForwards (ns : list nat) : stm client unit :=
  match ns with
  | [] => ret tt
  | n :: ns => closeForward n ;;; closeForwards ns
  end.

Definition CloseAll : stm client unit := withLock (fun c =>
  (closeForwards (map snd (cl_entries c)) ;;; (fun c => Done tt (set_forwards [] (cl_chans c) c))) c).

(** [Forward] up to its [select], with the mutex: the Go channel it will send to. *)
Definition forwardEnter (laddr : Addr) : stm client (option nat) := withLock (fun c =>
  match findEntry laddr (cl_entries c) with
  | None => Done None c
  | Some n => Done (Some n) (set_lock true c)
  end).

(** Its send, which waits while the Go channel is full, and the return that gives the mutex
    back. *)
Definition forwardSend (n : nat) (f : forward) : stm client unit := fun c =>
  match cl_chans c !! n with
  | None => Blocked c
  | Some q =>
      if gclosed q then Crash "send on closed channel"
      else
        match gq q with
        | [] => Done tt (set_lock false (set_forwards (cl_entries c) (<[n := mkGochan [f] false]> (cl_chans c)) c))
        | _ => Blocked c
        end
  end.

(** Its other cases. *)
Definition forwardLeave : stm client error := fun c => Done EOF (set_lock false c).

(** ** What a new channel is for *)

Inductive route :=
| RouteReject (reason : Z) (message : bytes)
| RouteForward (laddr raddr : Addr)
| RoutePanic.

Context `{!ErrText}.

(** [HandleChannels] for one channel, up to [l.Forward]. *)
Definition routeOf (ch : NewChannel) : route :=
  if bool_decide (nc_type ch = str "forwarded-tcpip") then
    match Unmarshal forwardedTCPPayload_struct (nc_extra ch) with
    | Ret (addr, (port, (originAddr, (originPort, _)))) =>
        match parseTCPAddr addr port with
        | Ret laddr =>
            match parseTCPAddr originAddr originPort with
            | Ret raddr => RouteForward (ATCP laddr) (ATCP raddr)
            | Fail e => RouteReject ConnectionFailed (errText e)
            | Panic _ => RoutePanic
            end
        | Fail e => RouteReject ConnectionFailed (errText e)
        | Panic _ => RoutePanic
        end
    | Fail e => RouteReject ConnectionFailed (str "could not parse forwarded-tcpip payload: " ++ errText e)
    | Panic _ => RoutePanic
    end
  else if bool_decide (nc_type ch = str "forwarded-streamlocal@openssh.com") then
    match Unmarshal forwardedStreamLocalPayload_struct (nc_extra ch) with
    | Ret (socketPath, _) => RouteForward (unixAddr socketPath) anonymousUnix
    | Fail e => RouteReject ConnectionFailed (str "could not parse forwarded-streamlocal@openssh.com payload: " ++ errText e)
    | Panic _ => RoutePanic
    end
  else RoutePanic.

(** ** Listening *)

Record tcpListener := mkTcpListener { tl_laddr : TCPAddr; tl_in : nat; tl_ctx : bool }.
Record unixListener := mkUnixListener { ul_socketPath : bytes; ul_in : nat }.

(** A channel with its addresses, as a [net.Conn]. *)
Record chanConn := mkChanConn { cc_channel : nat; cc_laddr : Addr; cc_raddr : Addr }.

Definition openSSHPrefix : bytes := str "OpenSSH_".

(** The text after the first occurrence of [p]. *)
Fixpoint after (p s : bytes) : option bytes :=
  if hasPrefix p s then Some (drop (length p) s)
  else match s with [] => None | _ :: s => after p s end.

Definition isDigit (c : byte) : bool := (48 <=? b2z c) && (b2z c <=? 57).

Fixpoint digits (s : bytes) : bytes :=
  match s with
  | c :: s => if isDigit c then c :: digits s else []
  | [] => []
  end.

Definition decimal (s : bytes) : Z := foldl (fun n c => n * 10 + (b2z c - 48)) 0 s.

(** [strconv.Atoi] of digits, without its error: zero for none, the greatest integer when they
    are too many. *)
Definition atoi (s : bytes) : Z := Z.min (decimal s) (2 ^ 63 - 1).

Definition isBrokenOpenSSHVersion (versionStr : bytes) : bool :=
  match after openSSHPrefix versionStr with
  | None => false
  | Some rest => atoi (digits rest) <? 6
  end.

Definition tries : nat := 10.

(** The loop of [autoPortListenWorkaround]; [port] draws from the random source. *)
Fixpoint tryPorts (listen : TCPAddr -> stm client (error + tcpListener)) (port : nat -> Z) (laddr : TCPAddr)
    (n i : nat) (err : option error) : stm client (error + tcpListener) :=
  match n with
  | O => ret (inl (Errorf "ssh: listen on random port failed after %d tries: %v" [FNum (Z.of_nat tries); FStr (match err with Some e => errText e | None => str "<nil>" end)]))
  | S n =>
      let! r := listen (mkTCPAddr (ta_IP laddr) (1024 + port i) (ta_Zone laddr)) in
      match r with
      | inr l => ret (inr l)
      | inl e => tryPorts listen port laddr n (S i) (Some e)
      end
  end.

Definition autoPortListenWorkaround listen port laddr := tryPorts listen port laddr tries 0 None.

(** [ListenTCP] without the workaround. *)
Definition requestForward (tmpCtx : bool) (laddr : TCPAddr) : stm client (error + tcpListener) :=
  let! m := liftO (marshalStruct [] channelForwardMsg_struct (IP_String (ta_IP laddr), (u32 (ta_Port laddr), tt))) in
  let! (ok, resp, err) := onConn (fc_SendRequest true (str "tcpip-forward") true m) in
  match err with
  | Some e => ret (inl e)
  | None =>
      if negb ok then ret (inl (errNew "ssh: tcpip-forward request denied by peer"))
      else
        match (if ta_Port laddr =? 0 then
                 match Unmarshal portReply_struct resp with
                 | Ret (port, _) => Ret (mkTCPAddr (ta_IP laddr) port (ta_Zone laddr))
                 | Fail e => Fail e
                 | Panic w => Panic w
                 end
               else Ret laddr) with
        | Ret laddr => let! ch := add (ATCP laddr) in ret (inr (mkTcpListener laddr ch tmpCtx))
        | Fail e => ret (inl e)
        | Panic w => crash w
        end
  end.

(** [ListenTCP] calls the workaround, which calls [ListenTCP]; [depth] bounds the calls, two are
    enough.  [tmpCtx] says whether the client's [TmpCtx] is set. *)
Fixpoint ListenTCP (depth : nat) (serverVersion : bytes) (tmpCtx : bool) (port : nat -> Z) (laddr : TCPAddr)
    : stm client (error + tcpListener) :=
  match depth with
  | O => crash "out of fuel"
  | S depth =>
      if (ta_Port laddr =? 0) && isBrokenOpenSSHVersion serverVersion
      then autoPortListenWorkaround (ListenTCP depth serverVersion tmpCtx port) port laddr
      else requestForward tmpCtx laddr
  end.

Definition ListenUnix (socketPath : bytes) : stm client (error + unixListener) :=
  let! m := liftO (marshalStruct [] streamLocalChannelForwardMsg_struct (socketPath, tt)) in
  let! (ok, _, err) := onConn (fc_SendRequest true (str "streamlocal-forward@openssh.com") true m) in
  match err with
  | Some e => ret (inl e)
  | None =>
      if negb ok then ret (inl (errNew "ssh: streamlocal-forward@openssh.com request denied by peer"))
      else let! ch := add (unixAddr socketPath) in ret (inr (mkUnixListener socketPath ch))
  end.

Definition isTCP (n : bytes) : bool := bool_decide (n = str "tcp") || bool_decide (n = str "tcp4") || bool_decide (n = str "tcp6").

Definition unsupported (n : bytes) : error := Errorf "ssh: unsupported protocol: %s" [FStr n].

Definition Listen (serverVersion : bytes) (tmpCtx : bool) (port : nat -> Z) (n addr : bytes)
    : stm client (error + (tcpListener + unixListener)) :=
  if isTCP n then
    match ResolveTCPAddr n addr with
    | Ret laddr =>
        let! r := ListenTCP 2 serverVersion tmpCtx port laddr in
        ret (match r with inl e => inl e | inr l => inr (inl l) end)
    | Fail e => ret (inl e)
    | Panic w => crash w
    end
  else if bool_decide (n = str "unix") then
    let! r := ListenUnix addr in
    ret (match r with inl e => inl e | inr l => inr (inr l) end)
  else ret (inl (unsupported n)).

(** A receive from the Go channel of a listener; [stopped] when a case of the [select] that
    gives up is ready, [pickStop] when it is the one taken. *)
Definition receive (stopped pickStop : bool) (n : nat) : stm client (option forward) := fun c =>
  match cl_chans c !! n with
  | None => if stopped then Done None c else Blocked c
  | Some q =>
      match gq q with
      | f :: l =>
          if stopped && pickStop then Done None c
          else Done (Some f) (set_forwards (cl_entries c) (<[n := mkGochan l (gclosed q)]> (cl_chans c)) c)
      | [] => if gclosed q || stopped then Done None c else Blocked c
      end
  end.

Definition acceptForward (laddr : Addr) (raddr : forward -> Addr) (r : option forward) : stm client (error + chanConn) :=
  match r with
  | None => ret (inl EOF)
  | Some s =>
      let! err := onConn (fc_Accept (nc_id (fwd_newCh s))) in
      ret (match err with
           | Some e => inl e
           | None => inr (mkChanConn (nc_id (fwd_newCh s)) laddr (raddr s))
           end)
  end.

(** [Accept] of the two listeners; the one for ports waits on its context. *)
Definition tcpListener_Accept (connDone ctxDone pickStop : bool) (l : tcpListener) : stm client (error + chanConn) :=
  if negb (tl_ctx l) then crash "nil pointer dereference"
  else
    let! r := receive (connDone || ctxDone) pickStop (tl_in l) in
    acceptForward (ATCP (tl_laddr l)) fwd_raddr r.

Definition unixListener_Accept (connDone pickStop : bool) (l : unixListener) : stm client (error + chanConn) :=
  let! r := receive connDone pickStop (ul_in l) in
  acceptForward (unixAddr (ul_socketPath l)) (fun _ => anonymousUnix) r.

(** The request that cancels a forward. *)
Definition cancelForward (hasCtx : bool) (name : string) (m : bytes) (refused : string) : stm client (option error) :=
  let! (ok, _, err) := onConn (fc_SendRequest hasCtx (str name) true m) in
  ret (match err with Some e => Some e | None => if ok then None else Some (errNew refused) end).

Definition tcpListener_Close (l : tcpListener) : stm client (option error) :=
  Remove (ATCP (tl_laddr l)) ;;;
  let! m := liftO (marshalStruct [] channelForwardMsg_struct (IP_String (ta_IP (tl_laddr l)), (u32 (ta_Port (tl_laddr l)), tt))) in
  cancelForward (tl_ctx l) "cancel-tcpip-forward" m "ssh: cancel-tcpip-forward failed".

Definition unixListener_Close (l : unixListener) : stm client (option error) :=
  Remove (unixAddr (ul_socketPath l)) ;;;
  let! m := liftO (marshalStruct [] streamLocalChannelForwardMsg_struct (ul_socketPath l, tt)) in
  cancelForward true "cancel-streamlocal-forward@openssh.com" m "ssh: cancel-streamlocal-forward@openssh.com failed".

(** ** Dialing *)

Definition dial (laddr : bytes) (lport : Z) (raddr : bytes) (rport : Z) : stm client (error + nat) :=
  let! msg := liftO (marshalStruct [] channelOpenDirectMsg_struct (raddr, (u32 rport, (laddr, (u32 lport, tt))))) in
  onConn (fc_OpenChannel (str "direct-tcpip") msg).

Definition dialStreamLocal (socketPath : bytes) : stm client (error + nat) :=
  let! msg := liftO (marshalStruct [] streamLocalChannelOpenDirectMsg_struct (socketPath, ([], (0, tt)))) in
  onConn (fc_OpenChannel (str "direct-streamlocal@openssh.com") msg).

(** [strconv.ParseUint(s, 10, 16)]. *)
Definition parseUint16 (s : bytes) : outcome Z :=
  if bool_decide (s = []) || negb (forallb isDigit s) then Fail (Errorf "strconv.ParseUint: parsing %q: invalid syntax" [FStr s])
  else if decimal s <? 65536 then Ret (decimal s) else Fail (Errorf "strconv.ParseUint: parsing %q: value out of range" [FStr s]).

Definition withAddrs (laddr raddr : Addr) (m : stm client (error + nat)) : stm client (error + chanConn) :=
  let! r := m in
  ret (match r with inl e => inl e | inr ch => inr (mkChanConn ch laddr raddr) end).

Definition zeroAddr : TCPAddr := mkTCPAddr IPv4zero 0 [].

Definition DialWithContext (n addr : bytes) : stm client (error + chanConn) :=
  if isTCP n then
    match splitHostPort addr with
    | Ret (host, portString) =>
        match parseUint16 portString with
        | Ret port => withAddrs (ATCP zeroAddr) (ATCP zeroAddr) (dial (IP_String IPv4zero) 0 host port)
        | Fail e => ret (inl e)
        | Panic w => crash w
        end
    | Fail e => ret (inl e)
    | Panic w => crash w
    end
  else if bool_decide (n = str "unix") then withAddrs anonymousUnix (unixAddr addr) (dialStreamLocal addr)
  else ret (inl (unsupported n)).

(** [Dial], with the client's context. *)
Definition Dial (n addr : bytes) : stm client (error + chanConn) := DialWithContext n addr.

Definition DialTCP (laddr : option TCPAddr) (raddr : TCPAddr) : stm client (error + chanConn) :=
  let laddr := default zeroAddr laddr in
  withAddrs (ATCP laddr) (ATCP raddr) (dial (IP_String (ta_IP laddr)) (ta_Port laddr) (IP_String (ta_IP raddr)) (ta_Port raddr)).

(** Deadlines are refused. *)
Definition SetReadDeadline (t : chanConn) (deadline : Z) : option error := Some (errNew "ssh: tcpChan: deadline not supported").
Definition SetWriteDeadline (t : chanConn) (deadline : Z) : option error := Some (errNew "ssh: tcpChan: deadline not supported").
Definition SetDeadline (t : chanConn) (deadline : Z) : option error :=
  match SetReadDeadline t deadline with Some e => Some e | None => SetWriteDeadline t deadline end.
End Forwards.
