(* ===== verification/ForwardFacts.v ===== *)
(** * Forwarding: listening and dialing

    A successful [ListenTCP] registers the address that was asked for, with the port of
    the peer's answer; the texts of addresses lead back to the same listener; requests
    and channels decode to the addresses that were given. *)

From S2P Require Import Prelude Text Wire Codec Messages Negotiate Halter Idle Window Buffer Channel Mux Forward.

Open Scope st_scope.

(** ** Addresses *)

Section Addresses.
Context {IP : IPLib} {Laws : IPLaws}.

Definition validIP (ip : bytes) : Prop := zlen ip = 4 \/ zlen ip = 16.

(** The text of an address, parsed, is an address of the same listener. *)
Lemma parse_own_address ip port : validIP ip -> 0 < port <= 65535 ->
  exists a, parseTCPAddr (IP_String ip) port = Ret a /\ sameAddr (ATCP a) (ATCP (mkTCPAddr ip port [])) = true.
Proof.
  intros Hv Hp. destruct (parse_text ip Hv) as (ip' & E & Es & Hl). exists (mkTCPAddr ip' port []). split.
  - unfold parseTCPAddr. rewrite (proj2 (Z.eqb_neq port 0)), (proj2 (Z.ltb_ge 65535 port)) by lia. cbn [orb]. by rewrite E.
  - unfold sameAddr. rewrite bool_decide_true by done. apply bool_decide_true. cbn [Addr_String]. unfold TCPAddr_String. cbn [ta_IP ta_Zone ta_Port].
    rewrite !bool_decide_true by done. f_equal. destruct ip', ip; try done; by destruct Hv.
Qed.

(** A port outside of 1 to 65535 is refused. *)
Lemma parse_port_range addr port a : parseTCPAddr addr port = Ret a -> 0 <= port -> ta_Port a = port /\ 1 <= port <= 65535.
Proof.
  unfold parseTCPAddr. destruct (Z.eqb_spec port 0); [done|]. destruct (Z.ltb_spec 65535 port); [done|]. cbn [orb]. destruct (ParseIP addr); [|done].
  intros [= <-] H0. cbn. lia.
Qed.

Lemma sameAddr_refl a : sameAddr a a = true.
Proof. unfold sameAddr. by rewrite !bool_decide_true. Qed.

Lemma sameAddr_trans a b c : sameAddr a b = true -> sameAddr b c = true -> sameAddr a c = true.
Proof. unfold sameAddr. rewrite !andb_true_iff, !bool_decide_eq_true. intros [-> ->] [-> ->]. done. Qed.

Lemma sameAddr_sym a b : sameAddr a b = sameAddr b a.
Proof. unfold sameAddr. f_equal; apply bool_decide_ext; by split. Qed.
End Addresses.

(** ** Versions *)

Lemma digits_app ds rest : Forall (fun c => isDigit c = true) ds -> match rest with c :: _ => isDigit c = false | [] => True end -> digits (ds ++ rest) = ds.
Proof. induction 1 as [|c ds Hc _ IH]; intros Hr; [destruct rest as [|c rest]; [done|]; cbn; by rewrite Hr|]. cbn. rewrite Hc. by rewrite IH. Qed.

Lemma hasPrefix_app p s : hasPrefix p (p ++ s) = true.
Proof. induction p as [|c p IH]; [done|]. cbn. by rewrite IH, byte_eqb_refl. Qed.

(** The prefix of a version string, where it first occurs. *)
Lemma after_app p s t : p <> [] -> (forall k, (k < length s)%nat -> hasPrefix p (drop k (s ++ p ++ t)) = false) -> after p (s ++ p ++ t) = Some t.
Proof.
  intros Hp. induction s as [|c s IH]; intros Hf.
  - destruct p as [|b p]; [done|]. cbn [app]. assert (E := hasPrefix_app (b :: p) t). cbn [app] in E. cbn [after]. rewrite E. f_equal.
    change (b :: p ++ t) with ((b :: p) ++ t). apply drop_app_length.
  - assert (H0 := Hf 0%nat ltac:(cbn; lia)). cbn [drop app] in H0. cbn [after app]. rewrite H0. apply IH. intros k Hk. apply (Hf (S k)). cbn. lia.
Qed.

(** The workaround is for a version of OpenSSH whose leading number is below six. *)
Lemma broken_version s ds rest : Forall (fun c => isDigit c = true) ds -> match rest with c :: _ => isDigit c = false | [] => True end ->
  (forall k, (k < length s)%nat -> hasPrefix openSSHPrefix (drop k (s ++ openSSHPrefix ++ ds ++ rest)) = false) ->
  isBrokenOpenSSHVersion (s ++ openSSHPrefix ++ ds ++ rest) = (decimal ds <? 6).
Proof.
  intros Hd Hr Hf. unfold isBrokenOpenSSHVersion. rewrite after_app by done. rewrite digits_app by done. unfold atoi.
  destruct (Z.ltb_spec (decimal ds) 6); [apply Z.ltb_lt | apply Z.ltb_ge]; lia.
Qed.

(** ** Listening *)

Section Listen.
Context {M : Type} {FC : ForwardConn M} {IP : IPLib} {ET : ErrText}.

(** Only the connection has changed. *)
Definition conn_only (c c' : Client M) : Prop := exists m, c' = set_conn m c.

Lemma conn_only_refl c : conn_only c c.
Proof. exists (cl_conn c). by destruct c. Qed.

Lemma conn_only_trans c1 c2 c3 : conn_only c1 c2 -> conn_only c2 c3 -> conn_only c1 c3.
Proof. intros [m ->] [m' ->]. by exists m'. Qed.

(** What a listener is registered as. *)
Definition registered (l : tcpListener) (c c' : Client M) : Prop :=
  cl_lock c = false /\ exists m, c' = set_forwards (cl_entries c ++ [(ATCP (tl_laddr l), tl_in l)]) (cl_chans c ++ [newGochan]) (set_conn m c) /\
  tl_in l = length (cl_chans c).

Lemma onConn_done {A} (m : stm M A) (c c' : Client M) a : onConn m c = Done a c' -> conn_only c c'.
Proof. unfold onConn. destruct (m (cl_conn c)) as [a' s|s|]; [|done..]. intros [= -> <-]. by exists s. Qed.

Lemma requestForward_spec ctx laddr c r c' : requestForward ctx laddr c = Done r c' ->
  match r with
  | inl _ => conn_only c c'
  | inr l => registered l c c' /\ tl_ctx l = ctx /\ ta_IP (tl_laddr l) = ta_IP laddr /\ ta_Zone (tl_laddr l) = ta_Zone laddr /\
             (ta_Port laddr <> 0 -> tl_laddr l = laddr)
  end.
Proof.
  unfold requestForward, bind at 1. destruct (liftO _ c) as [m c1|c1|] eqn:Em; [|done..].
  assert (c1 = c) as -> by (revert Em; unfold liftO, ret, crash; destruct (marshalStruct _ _ _); [|done..]; by intros [= _ <-]).
  unfold bind at 1. destruct (onConn _ c) as [[[ok resp] err] c1|c1|] eqn:Ec; [|done..]. apply onConn_done in Ec. unfold ret.
  destruct err; [by intros [= <- <-]|]. destruct ok; cbn [negb]; [|by intros [= <- <-]].
  destruct (if ta_Port laddr =? 0 then _ else _) as [laddr'|e|w] eqn:Ep; [|by intros [= <- <-] | done].
  unfold bind, add, withLock. destruct (cl_lock c1) eqn:Elk; [done|]. intros [= <- <-]. destruct Ec as [m' ->].
  split; [split; [exact Elk|]; by exists m'|]. split; [done|]. cbn [tl_laddr]. destruct (Z.eqb_spec (ta_Port laddr) 0) as [E0|].
  - destruct (Unmarshal _ _) as [[port []]|e|w]; [|done..]. injection Ep as <-. done.
  - injection Ep as <-. done.
Qed.

Lemma tryPorts_ext (listen listen' : TCPAddr -> stm (Client M) (error + tcpListener)) port laddr n i err c : (forall laddr c, ta_Port laddr <> 0 -> listen laddr c = listen' laddr c) ->
  (forall i, 0 <= port i) -> tryPorts listen port laddr n i err c = tryPorts listen' port laddr n i err c.
Proof.
  intros Hl Hport. revert i err c. induction n as [|n IH]; intros i err c; cbn [tryPorts]; [done|]. unfold bind. rewrite Hl by (cbn; specialize (Hport i); lia).
  by destruct (listen' _ c) as [[e|l] c1|c1|].
Qed.

Lemma tryPorts_spec ctx listen port laddr n i err c r c' :
  (forall laddr c r c', ta_Port laddr <> 0 -> listen laddr c = Done r c' ->
     match r with inl _ => conn_only c c' | inr l => registered l c c' /\ tl_laddr l = laddr /\ tl_ctx l = ctx end) ->
  (forall i, 0 <= port i) -> tryPorts listen port laddr n i err c = Done r c' ->
  match r with
  | inl _ => conn_only c c'
  | inr l => registered l c c' /\ tl_ctx l = ctx /\ ta_IP (tl_laddr l) = ta_IP laddr /\ ta_Zone (tl_laddr l) = ta_Zone laddr
  end.
Proof.
  intros Hlisten Hport. revert i err c. induction n as [|n IH]; intros i err c; cbn [tryPorts]; [intros [= <- <-]; apply conn_only_refl|].
  unfold bind at 1. destruct (listen _ c) as [[e|l] c1|c1|] eqn:El; [..|done|done].
  - apply Hlisten in El; [|cbn; specialize (Hport i); lia]. intros H. apply IH in H. destruct r as [e'|l]; [by eapply conn_only_trans|].
    destruct H as (Hr & H1). split; [|done]. destruct El as [m ->], Hr as (Hk & m' & -> & Hn). split; [done|]. exists m'. by split.
  - apply Hlisten in El; [|cbn; specialize (Hport i); lia]. intros [= <- <-]. destruct El as (Hr & -> & Hx). done.
Qed.

(** A successful [ListenTCP] registers the address, with and without the workaround. *)
Lemma ListenTCP_spec v ctx port laddr c l c' : (forall i, 0 <= port i) -> ListenTCP 2 v ctx port laddr c = Done (inr l) c' ->
  registered l c c' /\ tl_ctx l = ctx /\ ta_IP (tl_laddr l) = ta_IP laddr /\ ta_Zone (tl_laddr l) = ta_Zone laddr /\ (ta_Port laddr <> 0 -> tl_laddr l = laddr).
Proof.
  intros Hport. cbn [ListenTCP]. destruct (Z.eqb_spec (ta_Port laddr) 0) as [E0|Hne]; cbn [andb].
  - destruct (isBrokenOpenSSHVersion v) eqn:Eb.
    + unfold autoPortListenWorkaround. intros H. apply (tryPorts_spec ctx) in H; [naive_solver | | done].
      clear H. intros la d r d' Hla. cbn [ListenTCP]. rewrite (proj2 (Z.eqb_neq _ _) Hla). cbn [andb]. intros H. apply requestForward_spec in H. destruct r; naive_solver.
    + intros H. apply requestForward_spec in H. naive_solver.
  - intros H. apply requestForward_spec in H. naive_solver.
Qed.

(** Two calls are enough: the workaround asks for ports that are not zero. *)
Lemma ListenTCP_depth v ctx port laddr n : (forall i, 0 <= port i) -> forall c, ListenTCP (S (S n)) v ctx port laddr c = ListenTCP 2 v ctx port laddr c.
Proof.
  intros Hport c. cbn [ListenTCP]. destruct ((ta_Port laddr =? 0) && isBrokenOpenSSHVersion v) eqn:E; [|done].
  apply tryPorts_ext; [|done]. intros la d Hla. cbn [ListenTCP]. by rewrite (proj2 (Z.eqb_neq _ _) Hla).
Qed.

(** Without [TmpCtx], [Listen] returns a listener that cannot accept. *)
Lemma accept_without_context v port n addr c l c' : (forall i, 0 <= port i) -> Listen v false port n addr c = Done (inr (inl l)) c' ->
  tl_ctx l = false /\ forall d x p c'', tcpListener_Accept d x p l c'' = Crash "nil pointer dereference".
Proof.
  intros Hport. unfold Listen. destruct (isTCP n).
  - destruct (ResolveTCPAddr n addr) as [laddr|e|w]; [|done..]. unfold bind, ret.
    destruct (ListenTCP 2 v false port laddr c) as [[e|l'] c1|c1|] eqn:E; [done | | done | done]. intros [= <- <-].
    apply ListenTCP_spec in E; [|done]. destruct E as (_ & Hctx & _). split; [done|]. intros d x p c''. unfold tcpListener_Accept. by rewrite Hctx.
  - destruct (bool_decide _); [|done]. unfold bind, ret. by destruct (ListenUnix addr c) as [[|]| |].
Qed.
End Listen.

(** ** What is sent *)

Lemma digit_value d : 0 <= d < 10 -> b2z (z2b (48 + d)) = 48 + d.
Proof. intros Hd. apply b2z_z2b_small. lia. Qed.

Lemma decimal_snoc ds c : decimal (ds ++ [c]) = decimal ds * 10 + (b2z c - 48).
Proof. unfold decimal. by rewrite foldl_app. Qed.

Lemma itoaLoop_spec fuel n acc : 0 <= n < 10 ^ Z.of_nat fuel -> (0 < fuel)%nat ->
  exists ds, itoaLoop fuel n acc = ds ++ acc /\ ds <> [] /\ Forall (fun c => isDigit c = true) ds /\ decimal ds = n.
Proof.
  revert n acc. induction fuel as [|fuel IH]; intros n acc Hn Hf; [lia|]. cbn [itoaLoop]. assert (Hm := Z.mod_pos_bound n 10 ltac:(lia)).
  set (c := z2b (48 + n mod 10)). assert (Ec : b2z c = 48 + n mod 10) by (by apply digit_value).
  assert (Hc : isDigit c = true) by (unfold isDigit; rewrite Ec, andb_true_iff, !Z.leb_le; lia).
  destruct (Z.ltb_spec n 10).
  - exists [c]. split; [done|]. split; [done|]. split; [by repeat constructor|]. unfold decimal. cbn. rewrite Ec, Z.mod_small by lia. lia.
  - assert (Hq : 0 <= n / 10 < 10 ^ Z.of_nat fuel).
    { split; [apply Z.div_pos; lia|]. apply Z.div_lt_upper_bound; [lia|]. rewrite Nat2Z.inj_succ, Z.pow_succ_r in Hn by lia. lia. }
    destruct fuel as [|fuel]; [change (10 ^ Z.of_nat 0) with 1 in Hq; assert (1 <= n / 10) by (apply Z.div_le_lower_bound; lia); lia|].
    destruct (IH (n / 10) (c :: acc) Hq ltac:(lia)) as (ds & E & Hne & Hd & Hv). exists (ds ++ [c]). rewrite E, <- app_assoc. split; [done|].
    split; [by destruct ds|]. split; [apply Forall_app; split; [done | by repeat constructor]|]. rewrite decimal_snoc, Hv, Ec. pose proof (Z.div_mod n 10). lia.
Qed.

(** The digits of a number. *)
Lemma itoa_digits n : 0 <= n -> decimal (itoa n) = n /\ Forall (fun c => isDigit c = true) (itoa n) /\ itoa n <> [].
Proof.
  intros Hn. unfold itoa. rewrite (proj2 (Z.ltb_ge n 0)) by lia. destruct (itoaLoop_spec (S (Z.to_nat (Z.log2 n))) n []) as (ds & -> & Hne & Hd & Hv); [|lia|].
  - split; [done|]. rewrite Nat2Z.inj_succ, Z2Nat.id by apply Z.log2_nonneg. destruct (Z.eq_dec n 0) as [->|]; [done|].
    eapply Z.lt_le_trans; [apply (Z.log2_spec n); lia|]. apply Z.pow_le_mono_l. lia.
  - by rewrite app_nil_r.
Qed.

Lemma parseUint16_itoa port : 0 <= port < 65536 -> parseUint16 (itoa port) = Ret port.
Proof.
  intros Hp. destruct (itoa_digits port) as (H1 & H2 & H3); [lia|]. unfold parseUint16. 
  assert (Hb : forallb isDigit (itoa port) = true) by (apply forallb_forall; intros x Hx%list_elem_of_In; by apply (proj1 (Forall_forall _ _) H2)).
  rewrite bool_decide_false, Hb, H1 by done. cbn [orb negb].
  by rewrite (proj2 (Z.ltb_lt _ _)) by lia.
Qed.

(** A host without brackets and a port survive the text of an address. *)
Lemma split_host_join host port : has lbracket host = false -> has rbracket host = false -> 0 <= port < 65536 ->
  splitHostPort (joinHostPort host (itoa port)) = Ret (host, itoa port).
Proof.
  intros Hl Hr Hp. destruct (itoa_digits port) as (_ & Hd & _); [lia|].
  assert (Hno : forall c, isDigit c = false -> has c (itoa port) = false).
  { intros c Hc. apply has_false, Forall_forall. intros x Hx. apply byte_eqb_false. intros <-.
    rewrite (proj1 (Forall_forall _ _) Hd c Hx) in Hc. done. }
  unfold joinHostPort. destruct (has colon host) eqn:Ec.
  - apply splitHostPort_brackets; auto.
  - apply (splitHostPort_plain host (itoa port)); auto.
Qed.

(** A string and a number, as most messages have them, fit in a packet. *)
Lemma direct_payload raddr rport laddr lport : zlen raddr + zlen laddr + 16 < 2 ^ 32 -> 0 <= rport < 2 ^ 32 -> 0 <= lport < 2 ^ 32 ->
  exists p, marshalStruct [] channelOpenDirectMsg_struct (raddr, (rport, (laddr, (lport, tt)))) = Ret p /\
    Unmarshal channelOpenDirectMsg_struct p = Ret (raddr, (rport, (laddr, (lport, tt)))).
Proof.
  intros Hl H1 H2. pose proof (zlen_nonneg raddr). pose proof (zlen_nonneg laddr). set (v := (raddr, (rport, (laddr, (lport, tt)))) : struct_val (st_fields channelOpenDirectMsg_struct)).
  assert (Hsize : zlen (struct_enc (st_fields channelOpenDirectMsg_struct) v) = zlen raddr + zlen laddr + 16).
  { unfold v. change (zlen ((be_encode 4 (zlen raddr) ++ raddr) ++ be_encode 4 rport ++ (be_encode 4 (zlen laddr) ++ laddr) ++ be_encode 4 lport ++ []) = zlen raddr + zlen laddr + 16).
    rewrite !zlen_app, !zlen_be_encode, zlen_nil. lia. }
  destruct (plain_struct_roundtrip channelOpenDirectMsg_struct v eq_refl) as (p & E1 & E2); [cbn; tauto | intros E; rewrite E, zlen_nil in Hsize; lia | lia|].
  by exists p.
Qed.

Lemma forward_payload text port : zlen text + 8 < 2 ^ 32 -> 0 <= port < 2 ^ 32 ->
  exists p, marshalStruct [] channelForwardMsg_struct (text, (port, tt)) = Ret p /\ Unmarshal channelForwardMsg_struct p = Ret (text, (port, tt)).
Proof.
  intros Hl Hp. pose proof (zlen_nonneg text). set (v := (text, (port, tt)) : struct_val (st_fields channelForwardMsg_struct)).
  assert (Hsize : zlen (struct_enc (st_fields channelForwardMsg_struct) v) = zlen text + 8).
  { unfold v. change (zlen ((be_encode 4 (zlen text) ++ text) ++ be_encode 4 port ++ []) = zlen text + 8). rewrite !zlen_app, !zlen_be_encode, zlen_nil. lia. }
  destruct (plain_struct_roundtrip channelForwardMsg_struct v eq_refl) as (p & E1 & E2); [cbn; tauto | intros E; rewrite E, zlen_nil in Hsize; lia | lia|].
  by exists p.
Qed.

(** Listening on all interfaces asks for the address "<nil>", which is not one. *)
Lemma listen_anywhere_asks_nil {IP : IPLib} {Laws : IPLaws} {M} {FC : ForwardConn M} ctx port c : 0 <= port < 2 ^ 32 ->
  exists p, Unmarshal channelForwardMsg_struct p = Ret (str "<nil>", (port, tt)) /\
    match fc_SendRequest true (str "tcpip-forward") true p (cl_conn c) with
    | Done (false, _, None) m => requestForward (M := M) ctx (mkTCPAddr [] port []) c = Done (inl (errNew "ssh: tcpip-forward request denied by peer")) (set_conn m c)
    | Done (_, _, Some e) m => requestForward ctx (mkTCPAddr [] port []) c = Done (inl e) (set_conn m c)
    | Done (true, _, None) m => True
    | Blocked m => requestForward ctx (mkTCPAddr [] port []) c = Blocked (set_conn m c)
    | Crash w => requestForward ctx (mkTCPAddr [] port []) c = Crash w
    end.
Proof.
  intros Hp. destruct (forward_payload (str "<nil>") port) as (p & E1 & E2); [done | done|]. exists p. split; [done|].
  unfold requestForward. cbn [ta_IP ta_Port]. rewrite nil_text, (u32_small port) by done. rewrite E1. unfold bind, liftO, ret, onConn. cbv beta iota.
  destruct (fc_SendRequest _ _ _ _ _) as [[[[|] resp] [e|]] m|m|w]; done.
Qed.

(** ** Instances *)

(** Addresses in hexadecimal digits, those of four bytes as the end of one of sixteen. *)
Definition v4Prefix : bytes := replicate 10 x00 ++ [xff; xff].

Definition short (ip : bytes) : bytes := if bool_decide (take 12 ip = v4Prefix) && (zlen ip =? 16) then drop 12 ip else ip.

Definition nibble (n : Z) : byte := if n <? 10 then z2b (48 + n) else z2b (87 + n).

Definition nibbleVal (c : byte) : option Z :=
  if isDigit c then Some (b2z c - 48) else if (97 <=? b2z c) && (b2z c <=? 102) then Some (b2z c - 87) else None.

Fixpoint unhex (s : bytes) : option bytes :=
  match s with
  | [] => Some []
  | a :: b :: s =>
      match nibbleVal a, nibbleVal b, unhex s with
      | Some x, Some y, Some l => Some (z2b (x * 16 + y) :: l)
      | _, _, _ => None
      end
  | _ => None
  end.

Definition hexOf (ip : bytes) : bytes := concat (map (fun c => [nibble (b2z c / 16); nibble (b2z c mod 16)]) ip).

#[export] Instance example_net : IPLib := {|
  IP_String ip := match ip with [] => str "<nil>" | _ => hexOf (short ip) end;
  ParseIP s := match unhex s with
               | Some ip => if zlen ip =? 4 then Some (v4Prefix ++ ip) else if zlen ip =? 16 then Some ip else None
               | None => None
               end;
  ResolveTCPAddr _ addr := match splitHostPort addr with Ret (_, port) => Ret (mkTCPAddr [x7f; x00; x00; x01] (decimal port) []) | Fail e => Fail e | Panic w => Panic w end;
  IPv4zero := [x00; x00; x00; x00]
|}.

Lemma nibble_val n : 0 <= n < 16 -> nibbleVal (nibble n) = Some n.
Proof.
  intros Hn. assert (H : forallb (fun k => bool_decide (nibbleVal (nibble (Z.of_nat k)) = Some (Z.of_nat k))) (seq 0 16) = true) by (vm_compute; reflexivity).
  rewrite forallb_forall in H. specialize (H (Z.to_nat n)). rewrite Z2Nat.id, bool_decide_eq_true in H by lia. apply H, in_seq. lia.
Qed.

Lemma unhex_hexOf ip : unhex (hexOf ip) = Some ip.
Proof.
  induction ip as [|c ip IH]; [done|]. change (hexOf (c :: ip)) with (nibble (b2z c / 16) :: nibble (b2z c mod 16) :: hexOf ip). cbn [unhex].
  pose proof (b2z_range c). rewrite !nibble_val by (first [apply Z.mod_pos_bound; lia | split; [apply Z.div_pos; lia | apply Z.div_lt_upper_bound; lia]]).
  rewrite IH. do 2 f_equal. apply z2b_eq. pose proof (Z.div_mod (b2z c) 16). lia.
Qed.

#[export] Instance example_net_laws : IPLaws.
Proof.
  assert (Hpre : forall ip, zlen ip = 4 -> short (v4Prefix ++ ip) = ip).
  { intros ip Hl. unfold short. rewrite bool_decide_true by done. rewrite zlen_app, Hl. done. }
  split.
  - intros ip Hv. cbn [IP_String ParseIP example_net]. assert (Hne : ip <> []) by (intros ->; by destruct Hv).
    assert (E : (match ip with [] => str "<nil>" | _ => hexOf (short ip) end) = hexOf (short ip)) by (by destruct ip). rewrite E, unhex_hexOf.
    destruct Hv as [Hl|Hl].
    + assert (Es : short ip = ip) by (unfold short; rewrite Hl; by rewrite andb_false_r). rewrite Es, Hl. exists (v4Prefix ++ ip). split; [done|].
      split; [|rewrite zlen_app, Hl; done]. change (v4Prefix ++ ip) with (x00 :: (drop 1 v4Prefix ++ ip)). cbn iota. change (x00 :: (drop 1 v4Prefix ++ ip)) with (v4Prefix ++ ip).
      by rewrite Hpre.
    + unfold short. rewrite Hl. destruct (decide (take 12 ip = v4Prefix)) as [Ep|Ep].
      * rewrite bool_decide_true by done. change (true && (16 =? 16)) with true. cbn iota.
        assert (Hd : zlen (drop 12 ip) = 4) by (unfold zlen in *; rewrite length_drop; lia). rewrite Hd. exists ip. rewrite <- Ep at 1. rewrite take_drop.
        split; [done|]. split; [|done]. destruct ip; [done|]. unfold short. by rewrite Hl, bool_decide_true.
      * rewrite bool_decide_false by done. cbn [andb]. rewrite Hl. exists ip. split; [done|]. split; [|done]. destruct ip; [done|]. unfold short. by rewrite bool_decide_false.
  - intros s ip. cbn [ParseIP example_net]. destruct (unhex s) as [l|]; [|done]. destruct (Z.eqb_spec (zlen l) 4) as [E|]; [intros Hs; assert (ip = v4Prefix ++ l) as -> by congruence; by rewrite zlen_app, E|].
    destruct (Z.eqb_spec (zlen l) 16) as [E|]; [|done]. by intros [= <-].
  - done.
  - by vm_compute.
Qed.

#[export] Instance example_text : ErrText := {| errText e := match e with Errorf fmt _ => str fmt | _ => str "EOF" end |}.

(** A connection that keeps what it is given, and answers a request with a port. *)
#[export] Instance log_conn : ForwardConn (list (bytes * bytes)) := {|
  fc_SendRequest _ name _ payload := fun l => Done (true, be_encode 4 9000, None) (l ++ [(name, payload)]);
  fc_OpenChannel name data := fun l => Done (inr 7%nat) (l ++ [(name, data)]);
  fc_Accept _ := fun l => Done None l;
  fc_Reject _ _ message := fun l => Done None (l ++ [(str "reject", message)]);
  fc_Reply r _ _ := fun l => Done None (l ++ [(str "refuse", req_Type r)])
|}.

(** ** The claims *)

(** What is dialed is what the peer reads.  For a host without brackets and a
    port, the address that is dialed being their text (with brackets around a host that
    has colons), a channel of type direct-tcpip is opened, and its data decode to this
    host and this port, with the zero address as their origin. *)
Theorem dial_on_wire {M} {FC : ForwardConn M} {IP : IPLib} host port :
  has lbracket host = false -> has rbracket host = false -> 0 <= port < 65536 -> zlen host + zlen (IP_String IPv4zero) + 16 < 2 ^ 32 ->
  exists p, Unmarshal channelOpenDirectMsg_struct p = Ret (host, (port, (IP_String IPv4zero, (0, tt)))) /\
    forall c, DialWithContext (M := M) (str "tcp") (joinHostPort host (itoa port)) c =
      withAddrs (ATCP zeroAddr) (ATCP zeroAddr) (onConn (fc_OpenChannel (str "direct-tcpip") p)) c.
Proof.
  intros Hl Hr Hp Hz. destruct (direct_payload host port (IP_String IPv4zero) 0) as (p & E1 & E2); [lia | lia | lia|]. exists p. split; [done|]. intros c.
  unfold DialWithContext. change (isTCP (str "tcp")) with true. cbn iota. rewrite split_host_join, parseUint16_itoa by done.
  unfold withAddrs, dial. rewrite !u32_small by lia. rewrite E1. done.
Qed.

Lemma dial_on_wire_witness : exists p, Unmarshal channelOpenDirectMsg_struct p = Ret (str "::1", (22, (str "00000000", (0, tt)))) /\
  DialWithContext (str "tcp") (str "[::1]:22") (mkClient (@nil (bytes * bytes)) None [] [] false) =
    Done (inr (mkChanConn 7 (ATCP zeroAddr) (ATCP zeroAddr))) (mkClient [(str "direct-tcpip", p)] None [] [] false).
Proof.
  destruct (dial_on_wire (M := list (bytes * bytes)) (str "::1") 22) as (p & E1 & E2); [reflexivity | reflexivity | lia | vm_compute; reflexivity|].
  exists p. split; [exact E1|]. exact (E2 (mkClient [] None [] [] false)).
Defined.
