(* ===== verification/Client.v ===== *)
(** * Clients (client.go, and the goroutines of tcpip.go)

    What [NewClient] starts: the goroutine that refuses global requests, the one that
    hands every incoming channel to the handler for its type, the one that closes the
    listeners when the connection ends, and then, one after the other, the handlers of
    the two types of forwarded connections with the goroutines that take these to
    their listeners: the dispatcher runs before its handlers are there.  A step of the
    world is what [NewClient], one of the goroutines, or a caller of the client (once
    [NewClient] has returned) does between two points where it can wait. *)

From S2P Require Import Prelude Text Wire Codec Messages Negotiate Halter Idle Window Buffer Channel Mux Forward.

Open Scope st_scope.

(** The Go channel that [HandleChannelOpen] returns: nil, one that is closed, or the one for a
    type. *)
Inductive inChan := InNil | InClosed | InOf (typ : bytes).

#[global] Instance inChan_eq_decision : EqDecision inChan.
Proof. solve_decision. Defined.

(** [HandleChannels]: at its [select], with a channel and before the mutex of the list, in
    [Forward]'s [select] with the mutex, returned (with the channel it held). *)
Inductive handlerPC :=
| HIdle
| HLock (ch : NewChannel) (laddr raddr : Addr)
| HSend (n : nat) (f : forward)
| HGone (held : option NewChannel).

(** [HandleChannelOpens]: at its [select], sending to a handler, returned. *)
Inductive opensPC := OIdle | OSend (ch : NewChannel) | OGone (held : option NewChannel).

(** What became of a channel: rejected (while these types were still to be registered),
    forwarded, or taken by a caller. *)
Inductive fate := Rejected (reason : Z) (starting : list bytes) | Forwarded (n : nat) (raddr : Addr) | Handled.

(** Whose panic ended the process: one of the goroutines of this file, or the connection's. *)
Inductive culprit := InClient | InConn.

#[global] Instance culprit_eq_decision : EqDecision culprit.
Proof. solve_decision. Defined.

(** The world of a client, with the types that [NewClient] has yet to register and a record of
    what happened: the channels that arrived, the fate of each, the address of every forward
    and what its listener received. *)
Record world (M : Type) := mkWorld {
  wl_client : Client M;
  wl_opens : opensPC;
  wl_handlers : list (inChan * handlerPC);
  wl_requests : bool;
  wl_closer : bool;
  wl_done : bool;
  wl_crashed : option culprit;
  wl_starting : list bytes;
  wl_user : list bytes;
  wl_seen : list NewChannel;
  wl_fates : list (NewChannel * fate);
  wl_addrs : list Addr;
  wl_got : list (nat * forward)
}.
Arguments mkWorld {M} _ _ _ _ _ _ _ _ _ _ _ _ _.
Arguments wl_client {M} _.
Arguments wl_opens {M} _.
Arguments wl_handlers {M} _.
Arguments wl_requests {M} _.
Arguments wl_closer {M} _.
Arguments wl_done {M} _.
Arguments wl_crashed {M} _.
Arguments wl_starting {M} _.
Arguments wl_user {M} _.
Arguments wl_seen {M} _.
Arguments wl_fates {M} _.
Arguments wl_addrs {M} _.
Arguments wl_got {M} _.

Inductive event (M : Type) :=
| EvRegister
| EvOpens (ch : option NewChannel)
| EvOpensSend
| EvOpensStop
| EvTake (i : nat)
| EvLock (i : nat)
| EvSend (i : nat)
| EvStop (i : nat)
| EvRequest (r : option Request)
| EvRequestsStop
| EvCloser
| EvDone
| EvConn (m : M)
| EvAdd (addr : Addr)
| EvRemove (addr : Addr)
| EvCloseAll
| EvReceive (n : nat)
| EvHandle (typ : bytes)
| EvUserTake (typ : bytes).
Arguments EvRegister {M}.
Arguments EvOpens {M} _.
Arguments EvOpensSend {M}.
Arguments EvOpensStop {M}.
Arguments EvTake {M} _.
Arguments EvLock {M} _.
Arguments EvSend {M} _.
Arguments EvStop {M} _.
Arguments EvRequest {M} _.
Arguments EvRequestsStop {M}.
Arguments EvCloser {M}.
Arguments EvDone {M}.
Arguments EvConn {M} _.
Arguments EvAdd {M} _.
Arguments EvRemove {M} _.
Arguments EvCloseAll {M}.
Arguments EvReceive {M} _.
Arguments EvHandle {M} _.
Arguments EvUserTake {M} _.

Section Client.
Context {M : Type} {FC : ForwardConn M} {IP : IPLib} {ET : ErrText}.
Notation "'client'" := (Client M).
Notation "'world'" := (world M).
Notation "'event'" := (event M).

(** [HandleChannelOpen]. *)
Definition HandleChannelOpen (channelType : bytes) : stm client inChan := fun c =>
  match cl_handlers c with
  | None => Done InClosed c
  | Some h =>
      match h !! channelType with
      | Some _ => Done InNil c
      | None => Done (InOf channelType) (set_handlers (Some (<[channelType := newGochan]> h)) c)
      end
  end.

(** [NewSession], up to the session itself (Session.v). *)
Definition NewSession : stm client (error + nat) := onConn (fc_OpenChannel (str "session") []).

(** A receive from the Go channel of a type; [None] when there is nothing. *)
Definition takeHandler (typ : bytes) (c : client) : option (NewChannel * client) :=
  match cl_handlers c with
  | Some h =>
      match h !! typ with
      | Some q => match gq q with
                  | ch :: l => Some (ch, set_handlers (Some (<[typ := mkGochan l (gclosed q)]> h)) c)
                  | [] => None
                  end
      | None => None
      end
  | None => None
  end.

(** Setters of the world. *)
Definition with_client (c : client) (w : world) : world :=
  mkWorld c (wl_opens w) (wl_handlers w) (wl_requests w) (wl_closer w) (wl_done w) (wl_crashed w) (wl_starting w) (wl_user w) (wl_seen w) (wl_fates w) (wl_addrs w) (wl_got w).
Definition with_opens (o : opensPC) (w : world) : world :=
  mkWorld (wl_client w) o (wl_handlers w) (wl_requests w) (wl_closer w) (wl_done w) (wl_crashed w) (wl_starting w) (wl_user w) (wl_seen w) (wl_fates w) (wl_addrs w) (wl_got w).
Definition with_handler (i : nat) (ic : inChan) (p : handlerPC) (w : world) : world :=
  mkWorld (wl_client w) (wl_opens w) (<[i := (ic, p)]> (wl_handlers w)) (wl_requests w) (wl_closer w) (wl_done w) (wl_crashed w) (wl_starting w) (wl_user w) (wl_seen w) (wl_fates w) (wl_addrs w) (wl_got w).
Definition with_flags (requests closer done : bool) (w : world) : world :=
  mkWorld (wl_client w) (wl_opens w) (wl_handlers w) requests closer done (wl_crashed w) (wl_starting w) (wl_user w) (wl_seen w) (wl_fates w) (wl_addrs w) (wl_got w).
Definition with_user (l : list bytes) (w : world) : world :=
  mkWorld (wl_client w) (wl_opens w) (wl_handlers w) (wl_requests w) (wl_closer w) (wl_done w) (wl_crashed w) (wl_starting w) l (wl_seen w) (wl_fates w) (wl_addrs w) (wl_got w).
Definition saw (ch : NewChannel) (w : world) : world :=
  mkWorld (wl_client w) (wl_opens w) (wl_handlers w) (wl_requests w) (wl_closer w) (wl_done w) (wl_crashed w) (wl_starting w) (wl_user w) (wl_seen w ++ [ch]) (wl_fates w) (wl_addrs w) (wl_got w).
Definition met (ch : NewChannel) (f : fate) (w : world) : world :=
  mkWorld (wl_client w) (wl_opens w) (wl_handlers w) (wl_requests w) (wl_closer w) (wl_done w) (wl_crashed w) (wl_starting w) (wl_user w) (wl_seen w) (wl_fates w ++ [(ch, f)]) (wl_addrs w) (wl_got w).
Definition with_addrs (l : list Addr) (w : world) : world :=
  mkWorld (wl_client w) (wl_opens w) (wl_handlers w) (wl_requests w) (wl_closer w) (wl_done w) (wl_crashed w) (wl_starting w) (wl_user w) (wl_seen w) (wl_fates w) l (wl_got w).
Definition with_got (l : list (nat * forward)) (w : world) : world :=
  mkWorld (wl_client w) (wl_opens w) (wl_handlers w) (wl_requests w) (wl_closer w) (wl_done w) (wl_crashed w) (wl_starting w) (wl_user w) (wl_seen w) (wl_fates w) (wl_addrs w) l.

Definition registered (l : list bytes) (hs : list (inChan * handlerPC)) (w : world) : world :=
  mkWorld (wl_client w) (wl_opens w) hs (wl_requests w) (wl_closer w) (wl_done w) (wl_crashed w) l (wl_user w) (wl_seen w) (wl_fates w) (wl_addrs w) (wl_got w).
Definition crashed (x : culprit) (w : world) : world :=
  mkWorld (wl_client w) (wl_opens w) (wl_handlers w) (wl_requests w) (wl_closer w) (wl_done w) (Some x) (wl_starting w) (wl_user w) (wl_seen w) (wl_fates w) (wl_addrs w) (wl_got w).

(** An operation of the client: nothing happens while it waits. *)
Definition perform {A} (m : stm client A) (k : A -> world -> world) (w : world) : option world :=
  match m (wl_client w) with
  | Done a c => Some (k a (with_client c w))
  | Blocked _ => None
  | Crash _ => Some (crashed InClient w)
  end.

(** A call of the connection, which does not use the client: a panic of the connection is its own. *)
Definition call {A} (m : stm M A) (k : world -> world) (w : world) : option world :=
  match onConn m (wl_client w) with
  | Done _ c => Some (k (with_client c w))
  | Blocked _ => None
  | Crash _ => Some (crashed InConn (k w))
  end.

(** [NewClient]: the client, and the types it registers after it has started the first three
    goroutines. *)
Definition NewClient (conn : M) : client := mkClient conn (Some ∅) [] [] false.

Definition forwardedTypes : list bytes := [str "forwarded-tcpip"; str "forwarded-streamlocal@openssh.com"].

Definition start_world (conn : M) : world :=
  mkWorld (NewClient conn) OIdle [] true true false None forwardedTypes [] [] [] [] [].

(** The next of them, and its goroutine. *)
Definition registerStep (w : world) : option world :=
  match wl_starting w with
  | t :: ts => perform (HandleChannelOpen t) (fun ic w => registered ts (wl_handlers w ++ [(ic, HIdle)]) w) w
  | [] => None
  end.

Definition reject (ch : NewChannel) (reason : Z) (message : bytes) (k : world -> world) (w : world) : option world :=
  call (fc_Reject (nc_id ch) reason message) (fun w => k (met ch (Rejected reason (wl_starting w)) w)) w.

(** [HandleChannelOpens] receives; a nil channel comes from one that is closed. *)
Definition opensStep (ch : option NewChannel) (w : world) : option world :=
  match wl_opens w, ch with
  | OIdle, None => Some w
  | OIdle, Some ch =>
      match cl_handlers (wl_client w) with
      | Some h =>
          match h !! nc_type ch with
          | Some _ => Some (with_opens (OSend ch) (saw ch w))
          | None => reject ch UnknownChannelType (str "unknown channel type: " ++ nc_type ch) (fun w => w) (saw ch w)
          end
      | None => reject ch UnknownChannelType (str "unknown channel type: " ++ nc_type ch) (fun w => w) (saw ch w)
      end
  | _, _ => None
  end.

(** Its send to the handler. *)
Definition opensSend (w : world) : option world :=
  match wl_opens w with
  | OSend ch =>
      match cl_handlers (wl_client w) with
      | Some h =>
          match h !! nc_type ch with
          | Some q =>
              if gclosed q then Some (crashed InClient w)
              else if zlen (gq q) <? chanSize then
                Some (with_opens OIdle (with_client (set_handlers (Some (<[nc_type ch := mkGochan (gq q ++ [ch]) false]> h)) (wl_client w)) w))
              else None
          | None => None
          end
      | None => None
      end
  | _ => None
  end.

Definition opensStop (w : world) : option world :=
  if wl_done w then
    match wl_opens w with
    | OIdle => Some (with_opens (OGone None) w)
    | OSend ch => Some (with_opens (OGone (Some ch)) w)
    | OGone _ => None
    end
  else None.

(** [HandleChannels] receives a channel, and looks at what it is for. *)
Definition takeStep (i : nat) (w : world) : option world :=
  match wl_handlers w !! i with
  | Some (InClosed, HIdle) => Some (crashed InClient w)
  | Some (InOf typ, HIdle) =>
      match takeHandler typ (wl_client w) with
      | None => None
      | Some (ch, c) =>
          let w := with_client c w in
          match routeOf ch with
          | RouteReject reason message => reject ch reason message (fun w => w) w
          | RouteForward laddr raddr => Some (with_handler i (InOf typ) (HLock ch laddr raddr) w)
          | RoutePanic => Some (crashed InClient w)
          end
      end
  | _ => None
  end.

(** [Forward] takes the mutex and looks for the listener. *)
Definition lockStep (i : nat) (w : world) : option world :=
  match wl_handlers w !! i with
  | Some (ic, HLock ch laddr raddr) =>
      match forwardEnter laddr (wl_client w) with
      | Done None c => reject ch Prohibited (str "no forward for address") (with_handler i ic HIdle) (with_client c w)
      | Done (Some n) c => Some (with_handler i ic (HSend n (mkForward ch raddr)) (with_client c w))
      | Blocked _ => None
      | Crash _ => Some (crashed InClient w)
      end
  | _ => None
  end.

Definition sendStep (i : nat) (w : world) : option world :=
  match wl_handlers w !! i with
  | Some (ic, HSend n f) =>
      perform (forwardSend n f) (fun _ w => with_handler i ic HIdle (met (fwd_newCh f) (Forwarded n (fwd_raddr f)) w)) w
  | _ => None
  end.

(** A case of a [select] that ends the goroutine. *)
Definition stopStep (i : nat) (w : world) : option world :=
  if wl_done w then
    match wl_handlers w !! i with
    | Some (ic, HIdle) => Some (with_handler i ic (HGone None) w)
    | Some (ic, HSend n f) => perform forwardLeave (fun _ => with_handler i ic (HGone (Some (fwd_newCh f)))) w
    | _ => None
    end
  else None.

(** [HandleGlobalRequests]. *)
Definition requestStep (r : option Request) (w : world) : option world :=
  if wl_requests w then
    match r with
    | None => Some w
    | Some r => call (fc_Reply r false []) (fun w => w) w
    end
  else None.

(** What a caller does: [NewClient] has returned. *)
Definition callerStep (m : option world) (w : world) : option world :=
  match wl_starting w with [] => m | _ => None end.

Definition step (e : event) (w : world) : option world :=
  match wl_crashed w with Some _ => None | None =>
  match e with
  | EvRegister => registerStep w
  | EvOpens ch => opensStep ch w
  | EvOpensSend => opensSend w
  | EvOpensStop => opensStop w
  | EvTake i => takeStep i w
  | EvLock i => lockStep i w
  | EvSend i => sendStep i w
  | EvStop i => stopStep i w
  | EvRequest r => requestStep r w
  | EvRequestsStop => if wl_done w && wl_requests w then Some (with_flags false (wl_closer w) (wl_done w) w) else None
  | EvCloser => if wl_closer w then perform CloseAll (fun _ w => with_flags (wl_requests w) false (wl_done w) w) w else None
  | EvDone => Some (with_flags (wl_requests w) (wl_closer w) true w)
  | EvConn m => Some (with_client (set_conn m (wl_client w)) w)
  | EvAdd addr => callerStep (perform (add addr) (fun _ w => with_addrs (wl_addrs w ++ [addr]) w) w) w
  | EvRemove addr => callerStep (perform (Remove addr) (fun _ w => w) w) w
  | EvCloseAll => callerStep (perform CloseAll (fun _ w => w) w) w
  | EvReceive n => callerStep (perform (receive false false n)
                     (fun r w => match r with Some f => with_got (wl_got w ++ [(n, f)]) w | None => w end) w) w
  | EvHandle typ => callerStep (perform (HandleChannelOpen typ)
                      (fun r w => match r with InOf _ => with_user (wl_user w ++ [typ]) w | _ => w end) w) w
  | EvUserTake typ =>
      callerStep
        (if bool_decide (typ ∈ wl_user w) then
           match takeHandler typ (wl_client w) with
           | Some (ch, c) => Some (met ch Handled (with_client c w))
           | None => None
           end
         else None) w
  end end.

Fixpoint steps (es : list event) (w : world) : option world :=
  match es with
  | [] => Some w
  | e :: es => match step e w with Some w => steps es w | None => None end
  end.
End Client.
