(* ===== verification/ClientFacts.v ===== *)
(** * Clients: every incoming channel reaches one place

    Whatever [NewClient], its goroutines and its callers do, in any order: no Go channel
    is closed twice or used after that; the channels of a type are handled in the order in which
    they came, none is lost or handled twice; a listener receives exactly the
    connections that were forwarded to its address, in order.  The mutex of the list is
    held while a connection waits for its listener. *)

From S2P Require Import Prelude Text Wire Codec Messages Negotiate Halter Idle Window Buffer Channel ChannelFacts Mux MuxFacts Forward ForwardFacts Client.

Open Scope st_scope.

Definition tcpType : bytes := str "forwarded-tcpip".
Definition localType : bytes := str "forwarded-streamlocal@openssh.com".

(** ** The order of arrival *)

Definition ofType (t : bytes) (l : list NewChannel) : list NewChannel := filter (fun ch => nc_type ch = t) l.

Definition heldBy (p : handlerPC) : list NewChannel :=
  match p with
  | HIdle => []
  | HLock ch _ _ => [ch]
  | HSend _ f => [fwd_newCh f]
  | HGone h => option_list h
  end.

(** What the goroutine for a type holds. *)
Fixpoint heldIn (t : bytes) (hs : list (inChan * handlerPC)) : list NewChannel :=
  match hs with
  | [] => []
  | (ic, p) :: hs => (if decide (ic = InOf t) then heldBy p else []) ++ heldIn t hs
  end.

Definition queueOf (t : bytes) (h : gmap bytes (gochan NewChannel)) : list NewChannel :=
  match h !! t with Some q => gq q | None => [] end.

Definition opensHeld (o : opensPC) : list NewChannel :=
  match o with OIdle => [] | OSend ch => [ch] | OGone h => option_list h end.

(** The way of a channel of type [t]: with its goroutine, in its queue, with the dispatcher. *)
Definition pipeline (t : bytes) h hs o : list NewChannel := heldIn t hs ++ queueOf t h ++ ofType t (opensHeld o).

Definition typed (t : bytes) (l : list NewChannel) : Prop := Forall (fun ch => nc_type ch = t) l.

(** The goroutines that run are those for the types that are no longer to be registered. *)
Record routeInv h o (hs : list (inChan * handlerPC)) (user starting : list bytes) (seen : list NewChannel) (fates : list (NewChannel * fate)) : Prop := {
  ri_ins : map fst hs ++ map InOf starting = [InOf tcpType; InOf localType];
  ri_user : (tcpType ∉ user) /\ (localType ∉ user);
  ri_dom : forall t, is_Some (h !! t) <-> InOf t ∈ map fst hs \/ t ∈ user;
  ri_open : forall t q, h !! t = Some q -> gclosed q = false /\ typed t (gq q);
  ri_held : forall t, typed t (heldIn t hs);
  ri_send : forall ch, o = OSend ch -> is_Some (h !! nc_type ch);
  ri_order : forall t, ofType t seen = ofType t (map fst fates) ++ pipeline t h hs o;
  ri_start : user <> [] -> starting = []
}.

Lemma ofType_app t l k : ofType t (l ++ k) = ofType t l ++ ofType t k.
Proof. apply filter_app. Qed.

Lemma ofType_typed t l : typed t l -> ofType t l = l.
Proof. intros H. unfold ofType. induction H as [|x l Hx _ IH]; [done|]. rewrite filter_cons_True by done. by rewrite IH. Qed.

Lemma ofType_other t t' l : typed t' l -> t <> t' -> ofType t l = [].
Proof. intros H Hne. unfold ofType. induction H as [|x l Hx _ IH]; [done|]. rewrite filter_cons_False; [done | congruence]. Qed.

Lemma heldIn_none t hs : InOf t ∉ map fst hs -> heldIn t hs = [].
Proof.
  induction hs as [|[ic p] hs IH]; [done|]. cbn [heldIn map fst]. intros Hn. apply not_elem_of_cons in Hn as [Hi Hn].
  rewrite decide_False by congruence. by rewrite IH.
Qed.

Lemma heldIn_idle t hs : Forall (fun h => snd h = HIdle) hs -> heldIn t hs = [].
Proof. induction 1 as [|[ic p] hs Hp _ IH]; [done|]. cbn in Hp. subst p. cbn [heldIn heldBy]. rewrite IH. by destruct (decide _). Qed.

Lemma heldIn_new t t' hs : heldIn t (hs ++ [(InOf t', HIdle)]) = heldIn t hs.
Proof. induction hs as [|[ic p] hs IH]; cbn [heldIn app heldBy]; [by destruct (decide _) | by rewrite IH]. Qed.

(** One goroutine's state is what it holds for its type. *)
Lemma heldIn_at t hs i p : NoDup (map fst hs) -> hs !! i = Some (InOf t, p) -> heldIn t hs = heldBy p.
Proof.
  revert i. induction hs as [|[ic q] hs IH]; intros i Hnd Hi; [done|]. cbn [map fst] in Hnd. apply NoDup_cons in Hnd as [Hn Hnd].
  destruct i as [|i]; cbn in Hi.
  - injection Hi as -> ->. cbn [heldIn]. rewrite decide_True by done. rewrite (heldIn_none t hs Hn). apply app_nil_r.
  - cbn [heldIn]. rewrite decide_False; [by apply (IH i)|]. intros ->. apply Hn. apply list_elem_of_fmap. exists (InOf t, p).
    split; [done | by eapply list_elem_of_lookup_2].
Qed.

Lemma heldIn_insert_other t ic hs i p q : hs !! i = Some (ic, p) -> ic <> InOf t -> heldIn t (<[i := (ic, q)]> hs) = heldIn t hs.
Proof.
  revert i. induction hs as [|[ic' q'] hs IH]; intros i Hi Hne; [done|]. destruct i as [|i]; cbn in Hi.
  - injection Hi as -> ->. cbn. by rewrite !decide_False by congruence.
  - cbn. f_equal. by apply IH.
Qed.

Lemma map_fst_insert (hs : list (inChan * handlerPC)) i ic p q : hs !! i = Some (ic, p) -> map fst (<[i := (ic, q)]> hs) = map fst hs.
Proof. intros Hi. change (map fst) with (fmap (M := list) (@fst inChan handlerPC)). rewrite list_fmap_insert. apply list_insert_id. rewrite list_lookup_fmap, Hi. done. Qed.

Section Route.
Context (h : gmap bytes (gochan NewChannel)) (o : opensPC) (hs : list (inChan * handlerPC)) (user starting : list bytes) (seen : list NewChannel) (fates : list (NewChannel * fate)).
Hypothesis Inv : routeInv h o hs user starting seen fates.

Lemma all_nodup : NoDup (map fst hs ++ map InOf starting).
Proof. rewrite (ri_ins _ _ _ _ _ _ _ Inv). apply NoDup_cons. split; [by vm_compute; intros [?|?]%list_elem_of_In|]. apply NoDup_singleton. Qed.

Lemma ins_nodup : NoDup (map fst hs).
Proof. pose proof all_nodup as H. by apply NoDup_app in H as [? _]. Qed.

Lemma ins_type ic : ic ∈ map fst hs -> ic = InOf tcpType \/ ic = InOf localType.
Proof.
  intros Hi. assert (Hin : ic ∈ map fst hs ++ map InOf starting) by (apply elem_of_app; by left).
  rewrite (ri_ins _ _ _ _ _ _ _ Inv) in Hin. set_solver.
Qed.

Lemma handler_type i ic p : hs !! i = Some (ic, p) -> ic = InOf tcpType \/ ic = InOf localType.
Proof. intros Hi. apply ins_type, list_elem_of_fmap. exists (ic, p). split; [done | by eapply list_elem_of_lookup_2]. Qed.

Lemma user_in t : t ∈ user -> InOf t ∉ map fst hs.
Proof. intros Ht [E|E]%ins_type; injection E as ->; by destruct (ri_user _ _ _ _ _ _ _ Inv). Qed.

(** A type without a handler is neither of the two, or is still to be registered. *)
Lemma no_handler t : h !! t = None -> t ∈ starting \/ (t <> tcpType /\ t <> localType).
Proof.
  intros Hn. destruct (decide (t = tcpType \/ t = localType)) as [Ht|Ht]; [left | right; naive_solver].
  assert (Hin : InOf t ∈ map fst hs ++ map InOf starting) by (rewrite (ri_ins _ _ _ _ _ _ _ Inv); destruct Ht as [->| ->]; set_solver).
  apply elem_of_app in Hin as [Hin|Hin]; [destruct (proj2 (ri_dom _ _ _ _ _ _ _ Inv t) (or_introl Hin)); congruence|].
  apply list_elem_of_fmap in Hin as (t' & E & Hin). by injection E as ->.
Qed.

Lemma queueOf_insert t t' q : queueOf t (<[t' := q]> h) = if decide (t = t') then gq q else queueOf t h.
Proof. unfold queueOf. destruct (decide (t = t')) as [->|]; [by rewrite lookup_insert_eq | by rewrite lookup_insert_ne by congruence]. Qed.

(** The dispatcher takes a channel that has a handler. *)
Lemma route_arrive ch : o = OIdle -> is_Some (h !! nc_type ch) -> routeInv h (OSend ch) hs user starting (seen ++ [ch]) fates.
Proof.
  intros -> Hs. destruct Inv as [H1 H2 H3 H4 H5 H6 H7 H8]. split; try done; [intros ch' [= <-]; done|].
  intros t. rewrite ofType_app, H7. unfold pipeline. cbn [opensHeld]. change (ofType t []) with (@nil NewChannel). by rewrite app_nil_r, <- !app_assoc.
Qed.

(** A channel that has none. *)
Lemma route_unknown ch r : o = OIdle -> h !! nc_type ch = None -> routeInv h o hs user starting (seen ++ [ch]) (fates ++ [(ch, r)]).
Proof.
  intros Ho Hn. destruct Inv as [H1 H2 H3 H4 H5 H6 H7 H8]. split; try done. intros t. rewrite ofType_app, H7, map_app, ofType_app. cbn [map fst].
  rewrite <- !app_assoc. f_equal. destruct (decide (nc_type ch = t)) as [<-|Hne].
  - assert (Hp : pipeline (nc_type ch) h hs o = []).
    { unfold pipeline, queueOf. rewrite Hn, Ho. cbn. rewrite heldIn_none; [done|]. intros Hin.
      destruct (proj2 (H3 (nc_type ch))) as [q Hq]; [by left | congruence]. }
    by rewrite Hp, app_nil_r.
  - rewrite (ofType_other t (nc_type ch)) by (repeat constructor || congruence). by rewrite app_nil_r.
Qed.

(** The dispatcher puts it in the queue. *)
Lemma route_enqueue ch q : o = OSend ch -> h !! nc_type ch = Some q ->
  routeInv (<[nc_type ch := mkGochan (gq q ++ [ch]) false]> h) OIdle hs user starting seen fates.
Proof.
  intros Ho Hq. destruct Inv as [H1 H2 H3 H4 H5 H6 H7 H8]. split; try done.
  - intros t. rewrite <- H3. destruct (decide (t = nc_type ch)) as [->|]; [rewrite lookup_insert_eq, Hq; split; eauto | by rewrite lookup_insert_ne by congruence].
  - intros t q' Hl. destruct (decide (t = nc_type ch)) as [->|]; [|rewrite lookup_insert_ne in Hl by congruence; by apply H4].
    rewrite lookup_insert_eq in Hl. injection Hl as <-. split; [done|]. apply Forall_app. split; [by eapply H4 | by repeat constructor].
  - intros t. rewrite H7, Ho. unfold pipeline. rewrite queueOf_insert. cbn [opensHeld gq]. destruct (decide (t = nc_type ch)) as [->|Hne].
    + unfold queueOf. rewrite Hq. rewrite (ofType_typed _ [ch]) by by repeat constructor. change (ofType _ []) with (@nil NewChannel). by rewrite app_nil_r.
    + rewrite (ofType_other t (nc_type ch) [ch]) by (repeat constructor || congruence). done.
Qed.

(** The dispatcher returns. *)
Lemma route_dispatcher_gone o' : opensHeld o' = opensHeld o -> (forall ch, o' <> OSend ch) -> routeInv h o' hs user starting seen fates.
Proof. intros Ho Hn. destruct Inv as [H1 H2 H3 H4 H5 H6 H7 H8]. split; try done; [intros ch ->; by destruct (Hn ch)|]. intros t. rewrite H7. unfold pipeline. by rewrite Ho. Qed.

(** The goroutine for a type takes a channel and keeps it, or is done with it at once. *)
Lemma route_take i t ch l q p : hs !! i = Some (InOf t, HIdle) -> h !! t = Some q -> gq q = ch :: l -> heldBy p = [ch] ->
  routeInv (<[t := mkGochan l (gclosed q)]> h) o (<[i := (InOf t, p)]> hs) user starting seen fates.
Proof.
  intros Hi Hq El Hp. destruct Inv as [H1 H2 H3 H4 H5 H6 H7 H8]. pose proof ins_nodup as Hnd. destruct (H4 t q Hq) as [Hc Ht]. rewrite El in Ht.
  assert (Hnd' : NoDup (map fst (<[i := (InOf t, p)]> hs))) by by rewrite (map_fst_insert hs i _ _ _ Hi).
  assert (Hat : heldIn t (<[i := (InOf t, p)]> hs) = [ch]).
  { rewrite (heldIn_at t _ i p Hnd'); [done|]. apply list_lookup_insert_eq. by eapply lookup_lt_Some. }
  assert (Hdom : forall t', is_Some (<[t := mkGochan l (gclosed q)]> h !! t') <-> is_Some (h !! t')).
  { intros t'. destruct (decide (t' = t)) as [->|]; [rewrite lookup_insert_eq, Hq; split; eauto | by rewrite lookup_insert_ne by congruence]. }
  split; try done.
  - by rewrite (map_fst_insert hs i _ _ _ Hi).
  - intros t'. by rewrite Hdom, (map_fst_insert hs i _ _ _ Hi).
  - intros t' q' Hl. destruct (decide (t' = t)) as [->|]; [|rewrite lookup_insert_ne in Hl by congruence; by apply H4].
    rewrite lookup_insert_eq in Hl. injection Hl as <-. split; [done|]. by inversion Ht.
  - intros t'. destruct (decide (t' = t)) as [->|]; [rewrite Hat; constructor; [by inversion Ht | constructor]|].
    rewrite (heldIn_insert_other t' (InOf t) hs i _ _ Hi) by congruence. apply H5.
  - intros ch' Ho. rewrite Hdom. by apply H6.
  - intros t'. rewrite H7. unfold pipeline. rewrite queueOf_insert. f_equal. destruct (decide (t' = t)) as [->|].
    + rewrite (heldIn_at t hs i HIdle Hnd Hi), Hat. unfold queueOf. by rewrite Hq, El.
    + by rewrite (heldIn_insert_other t' (InOf t) hs i _ _ Hi) by congruence.
Qed.

(** A goroutine is done with the channel it holds. *)
Lemma route_settle i t p ch r : hs !! i = Some (InOf t, p) -> heldBy p = [ch] ->
  routeInv h o (<[i := (InOf t, HIdle)]> hs) user starting seen (fates ++ [(ch, r)]).
Proof.
  intros Hi Hp. destruct Inv as [H1 H2 H3 H4 H5 H6 H7 H8]. pose proof ins_nodup as Hnd.
  assert (Ht : nc_type ch = t) by (specialize (H5 t); rewrite (heldIn_at t hs i p Hnd Hi), Hp in H5; by inversion H5).
  assert (Hnd' : NoDup (map fst (<[i := (InOf t, HIdle)]> hs))) by by rewrite (map_fst_insert hs i _ _ _ Hi).
  assert (Hat : heldIn t (<[i := (InOf t, HIdle)]> hs) = []).
  { rewrite (heldIn_at t _ i HIdle Hnd'); [done|]. apply list_lookup_insert_eq. by eapply lookup_lt_Some. }
  split; try done.
  - by rewrite (map_fst_insert hs i _ _ _ Hi).
  - intros t'. by rewrite (map_fst_insert hs i _ _ _ Hi).
  - intros t'. destruct (decide (t' = t)) as [->|]; [rewrite Hat; constructor|]. rewrite (heldIn_insert_other t' (InOf t) hs i _ _ Hi) by congruence. apply H5.
  - intros t'. rewrite H7, map_app, ofType_app. cbn [map fst]. unfold pipeline. rewrite <- app_assoc. f_equal. destruct (decide (t' = t)) as [->|].
    + rewrite (heldIn_at t hs i p Hnd Hi), Hat, Hp. by rewrite (ofType_typed t [ch]) by by repeat constructor.
    + rewrite (heldIn_insert_other t' (InOf t) hs i _ _ Hi) by congruence. by rewrite (ofType_other t' t [ch]) by (repeat constructor; done).
Qed.

(** A goroutine goes on with what it holds. *)
Lemma route_keep i t p p' : hs !! i = Some (InOf t, p) -> heldBy p' = heldBy p -> routeInv h o (<[i := (InOf t, p')]> hs) user starting seen fates.
Proof.
  intros Hi Hp. destruct Inv as [H1 H2 H3 H4 H5 H6 H7 H8]. pose proof ins_nodup as Hnd.
  assert (Hnd' : NoDup (map fst (<[i := (InOf t, p')]> hs))) by by rewrite (map_fst_insert hs i _ _ _ Hi).
  assert (Hsame : forall t', heldIn t' (<[i := (InOf t, p')]> hs) = heldIn t' hs).
  { intros t'. destruct (decide (t' = t)) as [->|]; [|apply (heldIn_insert_other t' (InOf t) hs i _ _ Hi); congruence].
    rewrite (heldIn_at t hs i p Hnd Hi), (heldIn_at t _ i p' Hnd'); [done|]. apply list_lookup_insert_eq. by eapply lookup_lt_Some. }
  split; try done; [by rewrite (map_fst_insert hs i _ _ _ Hi) | intros t'; by rewrite (map_fst_insert hs i _ _ _ Hi) | intros t'; rewrite Hsame; apply H5|].
  intros t'. rewrite H7. unfold pipeline. by rewrite Hsame.
Qed.

(** A type gets its Go channel. *)
Lemma route_queue t : h !! t = None ->
  (forall t', is_Some (<[t := newGochan]> h !! t') <-> t' = t \/ is_Some (h !! t')) /\
  (forall t' q, <[t := newGochan]> h !! t' = Some q -> gclosed q = false /\ typed t' (gq q)) /\
  (forall t', queueOf t' (<[t := newGochan]> h) = queueOf t' h).
Proof.
  intros Hn. split; [|split].
  - intros t'. destruct (decide (t' = t)) as [->|]; [rewrite lookup_insert_eq; split; eauto|]. rewrite lookup_insert_ne by congruence. naive_solver.
  - intros t' q Hl. destruct (decide (t' = t)) as [->|]; [|rewrite lookup_insert_ne in Hl by congruence; by eapply ri_open].
    rewrite lookup_insert_eq in Hl. injection Hl as <-. by split; [|constructor].
  - intros t'. rewrite queueOf_insert. destruct (decide (t' = t)) as [->|]; [|done]. unfold queueOf. by rewrite Hn.
Qed.

(** A caller registers a type, once [NewClient] has returned, and takes from its queue. *)
Lemma route_register t : h !! t = None -> starting = [] -> routeInv (<[t := newGochan]> h) o hs (user ++ [t]) starting seen fates.
Proof.
  intros Hn Hst. destruct (route_queue t Hn) as (Hdom & Hopen & Hqs). destruct (no_handler t Hn) as [Hin|Hnew]; [rewrite Hst in Hin; by apply not_elem_of_nil in Hin|].
  destruct Inv as [H1 [U1 U2] H3 H4 H5 H6 H7 H8]. split; try done.
  - split; rewrite elem_of_app, list_elem_of_singleton; naive_solver.
  - intros t'. rewrite Hdom, H3, elem_of_app, list_elem_of_singleton. naive_solver.
  - intros ch Ho. rewrite Hdom. right. by apply H6.
  - intros t'. rewrite H7. unfold pipeline. by rewrite Hqs.
Qed.

(** [NewClient] registers the next of its types. *)
Lemma route_start t ts : starting = t :: ts -> h !! t = None /\
  routeInv (<[t := newGochan]> h) o (hs ++ [(InOf t, HIdle)]) user ts seen fates.
Proof.
  intros Hst. pose proof all_nodup as Hnd. rewrite Hst in Hnd. apply NoDup_app in Hnd as (_ & Hnd & _).
  assert (Hown : t = tcpType \/ t = localType).
  { assert (Hin : InOf t ∈ map fst hs ++ map InOf starting) by (rewrite Hst; apply elem_of_app; right; by left).
    rewrite (ri_ins _ _ _ _ _ _ _ Inv) in Hin. set_solver. }
  assert (Hn : h !! t = None).
  { destruct (h !! t) eqn:E; [|done]. destruct (proj1 (ri_dom _ _ _ _ _ _ _ Inv t)) as [Hin|Hin]; [by eauto | | ].
    - destruct (Hnd _ Hin). by left.
    - destruct (ri_user _ _ _ _ _ _ _ Inv) as [U1 U2]. by destruct Hown as [->| ->]. }
  split; [done|]. destruct (route_queue t Hn) as (Hdom & Hopen & Hqs). destruct Inv as [H1 U H3 H4 H5 H6 H7 H8]. split; try done.
  - rewrite map_app, <- app_assoc. by rewrite Hst in H1.
  - intros t'. rewrite Hdom, H3, map_app, elem_of_app. cbn [map fst]. rewrite list_elem_of_singleton. naive_solver.
  - intros t'. rewrite heldIn_new. apply H5.
  - intros ch Ho. rewrite Hdom. right. by apply H6.
  - intros t'. rewrite H7. unfold pipeline. by rewrite Hqs, heldIn_new.
  - intros Hu. rewrite (H8 Hu) in Hst. done.
Qed.

Lemma route_user_take t ch l q : t ∈ user -> h !! t = Some q -> gq q = ch :: l ->
  routeInv (<[t := mkGochan l (gclosed q)]> h) o hs user starting seen (fates ++ [(ch, Handled)]).
Proof.
  intros Hu Hq El. pose proof (user_in t Hu) as Hnin. destruct Inv as [H1 [U1 U2] H3 H4 H5 H6 H7 H8]. destruct (H4 t q Hq) as [Hc Ht]. rewrite El in Ht.
  assert (Hdom : forall t', is_Some (<[t := mkGochan l (gclosed q)]> h !! t') <-> is_Some (h !! t')).
  { intros t'. destruct (decide (t' = t)) as [->|]; [rewrite lookup_insert_eq, Hq; split; eauto | by rewrite lookup_insert_ne by congruence]. }
  split; try done.
  - intros t'. by rewrite Hdom.
  - intros t' q' Hl. destruct (decide (t' = t)) as [->|]; [|rewrite lookup_insert_ne in Hl by congruence; by apply H4].
    rewrite lookup_insert_eq in Hl. injection Hl as <-. split; [done|]. by inversion Ht.
  - intros ch' Ho. rewrite Hdom. by apply H6.
  - intros t'. rewrite H7, map_app, ofType_app. cbn [map fst]. unfold pipeline. rewrite queueOf_insert, <- app_assoc. f_equal.
    destruct (decide (t' = t)) as [->|].
    + rewrite heldIn_none by done. unfold queueOf. rewrite Hq, El. by rewrite (ofType_typed t [ch]) by (constructor; [by inversion Ht | done]).
    + by rewrite (ofType_other t' t [ch]) by (done || (constructor; [by inversion Ht | done])).
Qed.
End Route.

(** A goroutine takes a channel and is done with it. *)
Lemma route_refuse h o hs user starting seen fates i t ch l q r : routeInv h o hs user starting seen fates -> hs !! i = Some (InOf t, HIdle) -> h !! t = Some q -> gq q = ch :: l ->
  routeInv (<[t := mkGochan l (gclosed q)]> h) o hs user starting seen (fates ++ [(ch, r)]).
Proof.
  intros Inv Hi Hq El. assert (Hk := route_take _ _ _ _ _ _ _ Inv i t ch l q (HGone (Some ch)) Hi Hq El eq_refl).
  assert (Hs := route_settle _ _ _ _ _ _ _ Hk i t _ ch r (list_lookup_insert_eq hs i _ (lookup_lt_Some _ _ _ Hi)) eq_refl).
  by rewrite list_insert_insert_eq, (list_insert_id _ _ _ Hi) in Hs.
Qed.

(** A caller's step. *)
Lemma caller_spec {M : Type} m (w w' : world M) : callerStep m w = Some w' -> wl_starting w = [] /\ m = Some w'.
Proof. unfold callerStep. by destruct (wl_starting w). Qed.

Ltac caller := let H := fresh in intros [Hst H]%caller_spec; revert H.

(** ** The list of forwards and its mutex *)

Section Forwards.
Context {M : Type} {FC : ForwardConn M} {IP : IPLib} {ET : ErrText}.

Record lockInv (entries : list (Addr * nat)) (chans : list (gochan forward)) (lock : bool) (hs : list (inChan * handlerPC)) (addrs : list Addr) : Prop := {
  li_len : length addrs = length chans;
  li_nodup : NoDup (map snd entries);
  li_entry : forall a n, (a, n) ∈ entries -> addrs !! n = Some a /\ exists q, chans !! n = Some q /\ gclosed q = false;
  li_cap : forall n q, chans !! n = Some q -> (length (gq q) <= 1)%nat;
  li_send : forall i ic n f, hs !! i = Some (ic, HSend n f) -> lock = true /\ n ∈ map snd entries;
  li_one : forall i j ic jc n m f g, hs !! i = Some (ic, HSend n f) -> hs !! j = Some (jc, HSend m g) -> i = j;
  li_held : lock = true -> exists i ic n f, hs !! i = Some (ic, HSend n f)
}.

Lemma findEntry_spec a es n : findEntry a es = Some n ->
  exists l1 a' l2, es = l1 ++ (a', n) :: l2 /\ sameAddr a a' = true /\ Forall (fun e => sameAddr a (fst e) = false) l1 /\ removeEntry a es = l1 ++ l2.
Proof.
  induction es as [|[b m] es IH]; [done|]. cbn [findEntry removeEntry]. destruct (sameAddr a b) eqn:E.
  - intros [= ->]. by exists [], b, es.
  - intros H. destruct (IH H) as (l1 & a' & l2 & -> & Hs & Hf & ->). exists ((b, m) :: l1), a', l2. split; [done|]. split; [done|].
    split; [by constructor | done].
Qed.

Lemma findEntry_none a es : findEntry a es = None <-> Forall (fun e => sameAddr a (fst e) = false) es.
Proof.
  induction es as [|[b m] es IH]; [by split|]. cbn [findEntry]. destruct (sameAddr a b) eqn:E; split; intros H; try done.
  - apply Forall_inv in H. cbn in H. congruence.
  - constructor; [done | by apply IH].
  - apply IH. by apply Forall_inv_tail in H.
Qed.

Section Lock.
Context (entries : list (Addr * nat)) (chans : list (gochan forward)) (lock : bool) (hs : list (inChan * handlerPC)) (addrs : list Addr).
Hypothesis Inv : lockInv entries chans lock hs addrs.

(** A goroutine that is not in the [select] of [Forward] is not seen here. *)
Definition sending (p : handlerPC) : bool := match p with HSend _ _ => true | _ => false end.

Lemma lock_quiet i ic p p' : hs !! i = Some (ic, p) -> sending p = false -> sending p' = false -> lockInv entries chans lock (<[i := (ic, p')]> hs) addrs.
Proof.
  intros Hi Hp Hp'. destruct Inv as [H1 H2 H3 H4 H5 H6 H7].
  assert (Hold : forall j jc n f, <[i := (ic, p')]> hs !! j = Some (jc, HSend n f) -> hs !! j = Some (jc, HSend n f)).
  { intros j jc n f Hj. destruct (decide (i = j)) as [<-|]; [|by rewrite list_lookup_insert_ne in Hj].
    rewrite list_lookup_insert_eq in Hj by by eapply lookup_lt_Some. injection Hj as -> ->. done. }
  split; try done; [intros j jc n f Hj; eapply H5; by apply Hold | intros j k jc kc n m f g Hj Hk; eapply H6; by apply Hold|].
  intros Hl. destruct (H7 Hl) as (j & jc & n & f & Hj). exists j, jc, n, f. rewrite list_lookup_insert_ne; [done|]. intros <-. rewrite Hi in Hj.
  injection Hj as -> ->. done.
Qed.

Lemma lock_enter i ic p n f : lock = false -> hs !! i = Some (ic, p) -> n ∈ map snd entries ->
  lockInv entries chans true (<[i := (ic, HSend n f)]> hs) addrs.
Proof.
  intros -> Hi Hn. destruct Inv as [H1 H2 H3 H4 H5 H6 H7]. assert (Hlt := lookup_lt_Some _ _ _ Hi).
  assert (Hat : forall j jc m g, <[i := (ic, HSend n f)]> hs !! j = Some (jc, HSend m g) -> j = i /\ m = n).
  { intros j jc m g Hj. destruct (decide (i = j)) as [<-|]; [rewrite list_lookup_insert_eq in Hj by done; by injection Hj|].
    rewrite list_lookup_insert_ne in Hj by done. by destruct (H5 _ _ _ _ Hj). }
  split; try done.
  - intros j jc m g Hj. destruct (Hat j jc m g Hj) as [_ ->]. done.
  - intros j k jc kc m m' g g' Hj Hk. destruct (Hat _ _ _ _ Hj), (Hat _ _ _ _ Hk). congruence.
  - intros _. exists i, ic, n, f. by apply list_lookup_insert_eq.
Qed.

(** The goroutine that had the mutex gives it back, with its channel sent or not. *)
Lemma lock_leave i ic n f p chans' : hs !! i = Some (ic, HSend n f) -> sending p = false -> length chans' = length chans ->
  (forall m q, chans' !! m = Some q -> (length (gq q) <= 1)%nat) ->
  (forall m q, chans !! m = Some q -> exists q', chans' !! m = Some q' /\ gclosed q' = gclosed q) ->
  lockInv entries chans' false (<[i := (ic, p)]> hs) addrs.
Proof.
  intros Hi Hp Hlen Hcap Hkeep. destruct Inv as [H1 H2 H3 H4 H5 H6 H7].
  assert (Hnone : forall j jc m g, <[i := (ic, p)]> hs !! j <> Some (jc, HSend m g)).
  { intros j jc m g Hj. destruct (decide (i = j)) as [<-|Hne].
    - rewrite list_lookup_insert_eq in Hj by by eapply lookup_lt_Some. injection Hj as -> ->. done.
    - rewrite list_lookup_insert_ne in Hj by done. apply Hne. by eapply H6. }
  split; try done; [by rewrite Hlen | | intros j jc m g Hj; by destruct (Hnone j jc m g) | intros j k jc kc m m' g g' Hj; by destruct (Hnone j jc m g)].
  intros a m Hin. destruct (H3 a m Hin) as (Ha & q & Hq & Hc). split; [done|]. destruct (Hkeep m q Hq) as (q' & Hq' & Hc'). exists q'. by rewrite Hc'.
Qed.

Lemma lock_add a : lock = false -> lockInv (entries ++ [(a, length chans)]) (chans ++ [newGochan]) false hs (addrs ++ [a]).
Proof.
  intros ->. destruct Inv as [H1 H2 H3 H4 H5 H6 H7].
  assert (Hlt : forall b n, (b, n) ∈ entries -> (n < length chans)%nat) by (intros b n Hin; destruct (H3 b n Hin) as (_ & q & Hq & _); by eapply lookup_lt_Some).
  split; try done.
  - rewrite !length_app. cbn. lia.
  - rewrite map_app. apply NoDup_app. split; [done|]. split; [|apply NoDup_singleton]. intros n Hin. cbn.
    apply list_elem_of_fmap in Hin as ([b n'] & -> & Hin). cbn. rewrite list_elem_of_singleton. specialize (Hlt b n' Hin). lia.
  - intros b n Hin. apply elem_of_app in Hin as [Hin|Hin].
    + destruct (H3 b n Hin) as (Ha & q & Hq & Hc). split; [by apply lookup_app_l_Some|]. exists q. split; [by apply lookup_app_l_Some | done].
    + apply list_elem_of_singleton in Hin. injection Hin as -> ->. split; [rewrite <- H1; by apply list_lookup_middle|].
      exists newGochan. split; [by apply list_lookup_middle | done].
  - intros n q Hq. destruct (decide (n < length chans)%nat).
    + rewrite lookup_app_l in Hq by done. by eapply H4.
    + rewrite lookup_app_r in Hq by lia. destruct (n - length chans)%nat; [by injection Hq as <-; cbn; lia | done].
  - intros i ic n f Hi. by destruct (H5 i ic n f Hi).
Qed.

Lemma lock_remove l1 a n l2 q : lock = false -> entries = l1 ++ (a, n) :: l2 -> chans !! n = Some q ->
  lockInv (l1 ++ l2) (<[n := mkGochan (gq q) true]> chans) false hs addrs.
Proof.
  intros -> Ee Hq. destruct Inv as [H1 H2 H3 H4 H5 H6 H7]. rewrite Ee, map_app, map_cons in H2.
  assert (Hne : forall b m, (b, m) ∈ l1 ++ l2 -> m <> n).
  { intros b m Hin ->. apply NoDup_app in H2 as (_ & Hd & H2). apply NoDup_cons in H2 as [Hn _]. apply elem_of_app in Hin as [Hin|Hin].
    - apply (Hd n); [|left]. apply list_elem_of_fmap. by exists (b, n).
    - apply Hn. apply list_elem_of_fmap. by exists (b, n). }
  split; try done.
  - by rewrite length_insert.
  - rewrite map_app. apply NoDup_app in H2 as (Hd1 & Hd2 & Hd3). apply NoDup_cons in Hd3 as [_ Hd3]. apply NoDup_app. split; [done|]. split; [|done].
    intros m Hm Hm2. apply (Hd2 m Hm). by right.
  - intros b m Hin. destruct (H3 b m) as (Ha & q' & Hq' & Hc).
    { rewrite Ee. apply elem_of_app. apply elem_of_app in Hin as [|]; [by left | right; by right]. }
    split; [done|]. exists q'. rewrite list_lookup_insert_ne by (intros <-; by eapply Hne). done.
  - intros m q' Hm. destruct (decide (n = m)) as [<-|]; [|rewrite list_lookup_insert_ne in Hm by done; by eapply H4].
    rewrite list_lookup_insert_eq in Hm by by eapply lookup_lt_Some. injection Hm as <-. cbn. by eapply H4.
  - intros i ic m f Hi. by destruct (H5 i ic m f Hi).
Qed.

Lemma lock_receive n q f l : chans !! n = Some q -> gq q = f :: l -> lockInv entries (<[n := mkGochan l (gclosed q)]> chans) lock hs addrs.
Proof.
  intros Hq El. destruct Inv as [H1 H2 H3 H4 H5 H6 H7]. assert (Hlt := lookup_lt_Some _ _ _ Hq). split; try done.
  - by rewrite length_insert.
  - intros a m Hin. destruct (H3 a m Hin) as (Ha & q' & Hq' & Hc). split; [done|]. destruct (decide (n = m)) as [<-|].
    + rewrite list_lookup_insert_eq by done. assert (q' = q) as -> by congruence. eauto.
    + rewrite list_lookup_insert_ne by done. eauto.
  - intros m q' Hm. destruct (decide (n = m)) as [<-|]; [|rewrite list_lookup_insert_ne in Hm by done; by eapply H4].
    rewrite list_lookup_insert_eq in Hm by done. injection Hm as <-. specialize (H4 n q Hq). rewrite El in H4. cbn in *. lia.
Qed.
End Lock.

(** [CloseAll] closes each of them once. *)
Lemma closeForwards_ok (ns : list nat) (c : Client M) : NoDup ns -> (forall n, n ∈ ns -> exists q, cl_chans c !! n = Some q /\ gclosed q = false) ->
  exists chans', closeForwards ns c = Done tt (set_forwards (cl_entries c) chans' c) /\ length chans' = length (cl_chans c) /\
    (forall n, n ∉ ns -> chans' !! n = cl_chans c !! n) /\
    (forall n, option_map gq (chans' !! n) = option_map gq (cl_chans c !! n)).
Proof.
  revert c. induction ns as [|n ns IH]; intros c Hnd Hopen; [exists (cl_chans c); by destruct c|].
  apply NoDup_cons in Hnd as [Hn Hnd]. destruct (Hopen n) as (q & Hq & Hc); [by left|]. assert (Hlt := lookup_lt_Some _ _ _ Hq).
  cbn [closeForwards]. unfold bind at 1, closeForward at 1. rewrite Hq, Hc.
  destruct (IH (set_forwards (cl_entries c) (<[n := mkGochan (gq q) true]> (cl_chans c)) c)) as (chans' & E & Hl & Ho & Hg); [done| |].
  - intros m Hm. cbn. rewrite list_lookup_insert_ne by (intros <-; done). apply Hopen. by right.
  - exists chans'. rewrite E. cbn in *. split; [by destruct c|]. rewrite length_insert in Hl. split; [done|].
    assert (Hsame : forall m, m <> n -> <[n := mkGochan (gq q) true]> (cl_chans c) !! m = cl_chans c !! m) by (intros m Hm; by apply list_lookup_insert_ne).
    split.
    + intros m Hm. apply not_elem_of_cons in Hm as [Hm1 Hm2]. rewrite Ho by done. by apply Hsame.
    + intros m. rewrite Hg. destruct (decide (m = n)) as [->|]; [by rewrite list_lookup_insert_eq, Hq | by rewrite Hsame].
Qed.

Lemma lock_close_all entries chans chans' hs addrs : lockInv entries chans false hs addrs -> length chans' = length chans ->
  (forall n, option_map gq (chans' !! n) = option_map gq (chans !! n)) -> lockInv [] chans' false hs addrs.
Proof.
  intros [H1 H2 H3 H4 H5 H6 H7] Hl Hg. split; try done; [by rewrite Hl | constructor | intros a n Hin; by apply not_elem_of_nil in Hin | |].
  - intros n q Hq. specialize (Hg n). rewrite Hq in Hg. destruct (chans !! n) as [q'|] eqn:E; [|done]. injection Hg as ->. by eapply H4.
  - intros i ic n f Hi. by destruct (H5 i ic n f Hi).
Qed.

(** ** Fates *)

Definition sentTo (n : nat) (fates : list (NewChannel * fate)) : list forward :=
  omap (fun '(ch, f) => match f with Forwarded m r => if decide (m = n) then Some (mkForward ch r) else None | _ => None end) fates.

Definition gotFrom (n : nat) (got : list (nat * forward)) : list forward :=
  omap (fun '(m, f) => if decide (m = n) then Some f else None) got.

Definition queueAt (n : nat) (chans : list (gochan forward)) : list forward := match chans !! n with Some q => gq q | None => [] end.

Definition forwardable (addrs : list Addr) (ch : NewChannel) (n : nat) (raddr : Addr) : Prop :=
  exists laddr a, routeOf ch = RouteForward laddr raddr /\ addrs !! n = Some a /\ sameAddr laddr a = true.

(** A channel is rejected when nobody handles its type (for the types of forwarded connections:
    while [NewClient] has yet to register it), when its payload is not well formed, or when no
    listener has its address; it is forwarded to a listener with its address. *)
Definition fate_ok (addrs : list Addr) (e : NewChannel * fate) : Prop :=
  match snd e with
  | Rejected r starting =>
      (r = UnknownChannelType /\ (nc_type (fst e) ∈ starting \/ (nc_type (fst e) <> tcpType /\ nc_type (fst e) <> localType))) \/
      (exists message, routeOf (fst e) = RouteReject r message) \/
      (r = Prohibited /\ exists laddr raddr, routeOf (fst e) = RouteForward laddr raddr)
  | Forwarded n raddr => forwardable addrs (fst e) n raddr
  | Handled => nc_type (fst e) <> tcpType /\ nc_type (fst e) <> localType
  end.

Definition pc_ok (addrs : list Addr) (p : handlerPC) : Prop :=
  match p with
  | HLock ch laddr raddr => routeOf ch = RouteForward laddr raddr
  | HSend n f => forwardable addrs (fwd_newCh f) n (fwd_raddr f)
  | _ => True
  end.

Record fateInv fates got chans (hs : list (inChan * handlerPC)) addrs : Prop := {
  fi_listen : forall n, sentTo n fates = gotFrom n got ++ queueAt n chans;
  fi_fates : Forall (fate_ok addrs) fates;
  fi_pcs : Forall (fun h => pc_ok addrs (snd h)) hs
}.

Lemma sentTo_app n l k : sentTo n (l ++ k) = sentTo n l ++ sentTo n k.
Proof. apply omap_app. Qed.

Lemma gotFrom_app n l k : gotFrom n (l ++ k) = gotFrom n l ++ gotFrom n k.
Proof. apply omap_app. Qed.

Lemma queueAt_insert n m q chans : (m < length chans)%nat -> queueAt n (<[m := q]> chans) = if decide (n = m) then gq q else queueAt n chans.
Proof. intros Hl. unfold queueAt. destruct (decide (n = m)) as [->|]; [by rewrite list_lookup_insert_eq | by rewrite list_lookup_insert_ne by congruence]. Qed.

Lemma forwardable_more addrs a ch n r : forwardable addrs ch n r -> forwardable (addrs ++ [a]) ch n r.
Proof. intros (l & b & H1 & H2 & H3). exists l, b. split; [done|]. split; [by apply lookup_app_l_Some | done]. Qed.

(** Fates that send nothing, and goroutines that move on. *)
Lemma fate_quiet fates got chans hs addrs ch f : fateInv fates got chans hs addrs -> (forall n, sentTo n [(ch, f)] = []) -> fate_ok addrs (ch, f) ->
  fateInv (fates ++ [(ch, f)]) got chans hs addrs.
Proof.
  intros [H1 H2 H3] Hs Hf. split; [|by apply Forall_app; split; [done | repeat constructor]|done].
  intros n. rewrite sentTo_app, Hs, app_nil_r. apply H1.
Qed.

Lemma fate_pc fates got chans hs addrs i ic p : fateInv fates got chans hs addrs -> pc_ok addrs p ->
  fateInv fates got chans (<[i := (ic, p)]> hs) addrs.
Proof. intros [H1 H2 H3] Hp. split; try done. by apply Forall_insert. Qed.

Lemma fate_queues fates got chans chans' hs addrs : fateInv fates got chans hs addrs ->
  (forall n, option_map gq (chans' !! n) = option_map gq (chans !! n)) -> fateInv fates got chans' hs addrs.
Proof.
  intros [H1 H2 H3] Hg. split; try done. intros n. rewrite H1. f_equal. unfold queueAt. specialize (Hg n).
  destruct (chans' !! n), (chans !! n); try done. by injection Hg as ->.
Qed.

Lemma fate_add fates got chans hs addrs a : fateInv fates got chans hs addrs -> fateInv fates got (chans ++ [newGochan]) hs (addrs ++ [a]).
Proof.
  intros [H1 H2 H3]. split.
  - intros n. rewrite H1. f_equal. unfold queueAt. destruct (decide (n < length chans)%nat); [by rewrite lookup_app_l|].
    rewrite (lookup_ge_None_2 chans) by lia. rewrite lookup_app_r by lia. by destruct (n - length chans)%nat.
  - eapply Forall_impl; [exact H2|]. intros [ch [r st|n r|]]; try done. apply forwardable_more.
  - eapply Forall_impl; [exact H3|]. intros [ic [|ch l r|n f|h]]; try done. apply forwardable_more.
Qed.

Lemma fate_send fates got chans hs addrs n q f : fateInv fates got chans hs addrs -> chans !! n = Some q -> gq q = [] ->
  forwardable addrs (fwd_newCh f) n (fwd_raddr f) ->
  fateInv (fates ++ [(fwd_newCh f, Forwarded n (fwd_raddr f))]) got (<[n := mkGochan [f] false]> chans) hs addrs.
Proof.
  intros [H1 H2 H3] Hq El Hf. split; [|by apply Forall_app; split; [done | repeat constructor]|done].
  intros m. rewrite sentTo_app, H1, queueAt_insert by by eapply lookup_lt_Some. cbn. destruct (decide (m = n)) as [->|Hne].
  - rewrite decide_True by done. unfold queueAt. rewrite Hq, El, app_nil_r. by destruct f.
  - rewrite decide_False by congruence. cbn. by rewrite app_nil_r.
Qed.

Lemma fate_receive fates got chans hs addrs n q f l : fateInv fates got chans hs addrs -> chans !! n = Some q -> gq q = f :: l ->
  fateInv fates (got ++ [(n, f)]) (<[n := mkGochan l (gclosed q)]> chans) hs addrs.
Proof.
  intros [H1 H2 H3] Hq El. split; try done. intros m. rewrite H1, gotFrom_app, queueAt_insert by by eapply lookup_lt_Some. cbn.
  destruct (decide (m = n)) as [->|Hne].
  - rewrite decide_True by done. unfold queueAt. rewrite Hq, El. by rewrite <- app_assoc.
  - rewrite decide_False by congruence. cbn. by rewrite app_nil_r.
Qed.

(** A goroutine that starts. *)
Lemma lock_new entries chans lock hs addrs ic : lockInv entries chans lock hs addrs -> lockInv entries chans lock (hs ++ [(ic, HIdle)]) addrs.
Proof.
  intros [H1 H2 H3 H4 H5 H6 H7].
  assert (Hold : forall j jc n f, (hs ++ [(ic, HIdle)]) !! j = Some (jc, HSend n f) -> hs !! j = Some (jc, HSend n f)).
  { intros j jc n f Hj. apply lookup_app_Some in Hj as [Hj|[_ Hj]]; [done|]. by apply list_lookup_singleton_Some in Hj as [_ Hj]. }
  split; try done; [intros j jc n f Hj; eapply H5; by apply Hold | intros j k jc kc n m f g Hj Hk; eapply H6; by apply Hold|].
  intros Hl. destruct (H7 Hl) as (j & jc & n & f & Hj). exists j, jc, n, f. by apply lookup_app_l_Some.
Qed.

Lemma fate_new fates got chans hs addrs ic : fateInv fates got chans hs addrs -> fateInv fates got chans (hs ++ [(ic, HIdle)]) addrs.
Proof. intros [H1 H2 H3]. split; try done. apply Forall_app. split; [done | by repeat constructor]. Qed.

(** ** Reachable worlds *)

(** No goroutine of the client has panicked; the connection may have. *)
Definition worldInv (w : world M) : Prop :=
  wl_crashed w <> Some InClient /\
  (exists h, cl_handlers (wl_client w) = Some h /\ routeInv h (wl_opens w) (wl_handlers w) (wl_user w) (wl_starting w) (wl_seen w) (wl_fates w)) /\
  lockInv (cl_entries (wl_client w)) (cl_chans (wl_client w)) (cl_lock (wl_client w)) (wl_handlers w) (wl_addrs w) /\
  fateInv (wl_fates w) (wl_got w) (cl_chans (wl_client w)) (wl_handlers w) (wl_addrs w).

Lemma start_inv conn : worldInv (start_world conn).
Proof.
  split; [done|]. split; [|split].
  - exists ∅. split; [done|]. split; cbn; try done.
    + split; apply not_elem_of_nil.
    + intros t. rewrite lookup_empty. split; [by intros [] | by intros [?%not_elem_of_nil|?%not_elem_of_nil]].
    + intros t. constructor.
  - split; cbn; try done; [constructor | intros a n Hin; by apply not_elem_of_nil in Hin].
  - by split; cbn; constructor.
Qed.

Lemma crashed_inv w : worldInv w -> worldInv (crashed InConn w).
Proof. intros (_ & H). by split. Qed.

Lemma register_inv w w' : worldInv w -> registerStep w = Some w' -> worldInv w'.
Proof.
  intros (Hx & (h & Eh & Hr) & Hl & Hf). unfold registerStep. destruct (wl_starting w) as [|t ts] eqn:Est; [done|].
  destruct (route_start _ _ _ _ _ _ _ Hr t ts eq_refl) as [Hn Hr'].
  unfold perform, HandleChannelOpen. rewrite Eh, Hn. intros [= <-]. split; [done|]. split; [eexists; split; [done | exact Hr']|].
  split; [by apply lock_new | by apply fate_new].
Qed.

(** A payload is never a panic for the goroutine of its type. *)
Lemma route_total ch : nc_type ch = tcpType \/ nc_type ch = localType -> routeOf ch <> RoutePanic.
Proof.
  intros Ht. unfold routeOf.
  assert (Hp : forall t, st_fields t <> [] -> forall d w, Unmarshal t d <> Panic w).
  { intros t Hne d w E. assert (H := Unmarshal_not_panic t d Hne). by rewrite E in H. }
  assert (Ha : forall a p w, parseTCPAddr a p <> Panic w) by (intros a p w; unfold parseTCPAddr; destruct (_ || _); [done | by destruct (ParseIP a)]).
  destruct Ht as [Ht|Ht].
  - rewrite bool_decide_true by done. destruct (Unmarshal _ _) as [[addr [port [oaddr [oport []]]]]|e|w] eqn:E; [|done | by apply Hp in E].
    destruct (parseTCPAddr addr port) eqn:E1; [|done | by apply Ha in E1]. destruct (parseTCPAddr oaddr oport) eqn:E2; [done | done | by apply Ha in E2].
  - rewrite bool_decide_false by (rewrite Ht; by vm_compute). rewrite bool_decide_true by done.
    destruct (Unmarshal _ _) as [[path [r []]]|e|w] eqn:E; [done | done | by apply Hp in E].
Qed.

(** *** Steps *)

(** A call of the connection, whatever comes of it. *)
Lemma call_spec {A} (P : world M -> Prop) (m : stm M A) k (w w' : world M) :
  (forall c, cl_handlers c = cl_handlers (wl_client w) -> cl_entries c = cl_entries (wl_client w) -> cl_chans c = cl_chans (wl_client w) ->
     cl_lock c = cl_lock (wl_client w) -> P (k (with_client c w))) ->
  (forall v, P v -> P (crashed InConn v)) -> call m k w = Some w' -> P w'.
Proof.
  intros Hk Hv. unfold call, onConn. destruct (m _) as [a x|x|y]; [|done|]; intros [= <-]; [by apply Hk|]. apply Hv.
  assert (E : with_client (wl_client w) w = w) by by destruct w. rewrite <- E. by apply Hk.
Qed.

Lemma reject_spec (P : world M -> Prop) ch r message k (w w' : world M) :
  (forall c, cl_handlers c = cl_handlers (wl_client w) -> cl_entries c = cl_entries (wl_client w) -> cl_chans c = cl_chans (wl_client w) ->
     cl_lock c = cl_lock (wl_client w) -> P (k (met ch (Rejected r (wl_starting w)) (with_client c w)))) ->
  (forall v, P v -> P (crashed InConn v)) -> reject ch r message k w = Some w' -> P w'.
Proof. intros Hk Hv. by apply call_spec. Qed.

Ltac rejected c := apply (reject_spec worldInv); [intros c E1 E2 E3 E4; cbn in E1, E2, E3, E4; unfold worldInv; cbn; rewrite E1, E2, E3, E4 | by apply crashed_inv].

Lemma opens_inv ch w w' : worldInv w -> opensStep ch w = Some w' -> worldInv w'.
Proof.
  intros (Hx & (h & Eh & Hr) & Hl & Hf). unfold opensStep. destruct (wl_opens w) eqn:Eo; [|by destruct ch..].
  destruct ch as [ch|]; [|intros [= <-]; split; [done|]; split; [exists h; by rewrite Eo | done]]. rewrite Eh. destruct (h !! nc_type ch) as [q|] eqn:Eq.
  - intros [= <-]. split; [done|]. split; [|done]. exists h. split; [done|]. cbn. eapply route_arrive; eauto.
  - rejected c. split; [done|]. split; [exists h; split; [done|]; rewrite Eo; by eapply route_unknown|]. split; [done|].
    apply fate_quiet; [done | done|]. cbn. left. split; [done|]. by eapply no_handler.
Qed.

Lemma opensSend_inv w w' : worldInv w -> opensSend w = Some w' -> worldInv w'.
Proof.
  intros (Hx & (h & Eh & Hr) & Hl & Hf). unfold opensSend. destruct (wl_opens w) as [|ch|] eqn:Eo; try done. rewrite Eh.
  destruct (h !! nc_type ch) as [q|] eqn:Eq; [|done]. destruct (ri_open _ _ _ _ _ _ _ Hr _ _ Eq) as [-> _]. destruct (_ <? _); [|done].
  intros [= <-]. split; [done|]. split; [|done]. eexists. split; [done|]. cbn. eapply route_enqueue; eauto.
Qed.

Lemma opensStop_inv w w' : worldInv w -> opensStop w = Some w' -> worldInv w'.
Proof.
  intros (Hx & (h & Eh & Hr) & Hl & Hf). unfold opensStop. destruct (wl_done w); [|done].
  destruct (wl_opens w) as [|ch|] eqn:Eo; try done; intros [= <-]; split; (try done); (split; [|done]); exists h; (split; [done|]);
    by eapply route_dispatcher_gone.
Qed.

Lemma takeHandler_spec t (c c' : Client M) h ch : cl_handlers c = Some h -> takeHandler t c = Some (ch, c') ->
  exists q l, h !! t = Some q /\ gq q = ch :: l /\ c' = set_handlers (Some (<[t := mkGochan l (gclosed q)]> h)) c.
Proof.
  intros Eh. unfold takeHandler. rewrite Eh. destruct (h !! t) as [q|]; [|done]. destruct (gq q) as [|ch' l] eqn:El; [done|]. intros [= -> <-]. by exists q, l.
Qed.

Lemma take_inv i w w' : worldInv w -> takeStep i w = Some w' -> worldInv w'.
Proof.
  intros (Hx & (h & Eh & Hr) & Hl & Hf). unfold takeStep. destruct (wl_handlers w !! i) as [[ic p]|] eqn:Ei; [|done].
  destruct (handler_type _ _ _ _ _ _ _ Hr i ic p Ei) as [Hic|Hic]; rewrite Hic in *; destruct p; try done.
  all: destruct (takeHandler _ _) as [[ch c]|] eqn:Et; [|done]; destruct (takeHandler_spec _ _ _ h ch Eh Et) as (q & l & Hq & El & ->).
  all: assert (Hty : nc_type ch = tcpType \/ nc_type ch = localType) by (assert (H := proj2 (ri_open _ _ _ _ _ _ _ Hr _ _ Hq)); rewrite El in H; inversion H; auto).
  all: destruct (routeOf ch) as [r message|laddr raddr|] eqn:Er; [| |by apply route_total in Er].
  all: try (rejected c; split; [done|]; split; [|split; [done|]];
    [ eexists; split; [done|]; by eapply route_refuse
    | apply fate_quiet; [done | done|]; cbn; right; left; eauto ]).
  all: intros [= <-]; split; [done|]; split; [|split];
    [ eexists; split; [done|]; cbn; by eapply route_take | by eapply lock_quiet | by apply fate_pc ].
Qed.

Lemma findEntry_in a es n : findEntry a es = Some n -> n ∈ map snd es.
Proof. intros (l1 & a' & l2 & -> & _)%findEntry_spec. rewrite map_app. apply elem_of_app. right. by left. Qed.

Lemma findEntry_forwardable addrs chans lock hs ch laddr raddr es n : lockInv es chans lock hs addrs -> routeOf ch = RouteForward laddr raddr ->
  findEntry laddr es = Some n -> forwardable addrs ch n raddr.
Proof.
  intros Hl Hr (l1 & a' & l2 & -> & Hs & _)%findEntry_spec. exists laddr, a'. split; [done|]. split; [|done].
  eapply li_entry; [exact Hl|]. apply elem_of_app. right. by left.
Qed.

Lemma pc_at addrs (hs : list (inChan * handlerPC)) i ic p : Forall (fun h => pc_ok addrs (snd h)) hs -> hs !! i = Some (ic, p) -> pc_ok addrs p.
Proof. intros Hf Hi. by apply (proj1 (Forall_lookup _ _) Hf i (ic, p)). Qed.

Lemma lockStep_inv i w w' : worldInv w -> lockStep i w = Some w' -> worldInv w'.
Proof.
  intros (Hx & (h & Eh & Hr) & Hl & Hf). unfold lockStep. destruct (wl_handlers w !! i) as [[ic [|ch laddr raddr| |]]|] eqn:Ei; try done.
  assert (Hp := pc_at _ _ i ic _ (fi_pcs _ _ _ _ _ Hf) Ei). cbn in Hp. unfold forwardEnter, withLock. destruct (cl_lock (wl_client w)) eqn:El; [done|].
  destruct (findEntry laddr _) as [n|] eqn:Ef.
  - intros [= <-]. split; [done|]. split; [|split].
    + exists h. split; [done|]. cbn. destruct (handler_type _ _ _ _ _ _ _ Hr i ic _ Ei) as [->| ->]; by eapply route_keep.
    + cbn. eapply (lock_enter _ _ false); [exact Hl|done|exact Ei|by eapply findEntry_in].
    + cbn. apply fate_pc; [done|]. cbn. by eapply findEntry_forwardable.
  - rejected c. split; [done|]. split; [|split].
    + exists h. split; [done|]. destruct (handler_type _ _ _ _ _ _ _ Hr i ic _ Ei) as [->| ->]; by eapply route_settle.
    + rewrite El. by eapply lock_quiet.
    + apply fate_pc; [|done]. apply fate_quiet; [done | done|]. cbn. right. right. eauto.
Qed.

Lemma sendStep_inv i w w' : worldInv w -> sendStep i w = Some w' -> worldInv w'.
Proof.
  intros (Hx & (h & Eh & Hr) & Hl & Hf). unfold sendStep. destruct (wl_handlers w !! i) as [[ic [| |n f|]]|] eqn:Ei; try done.
  assert (Hp := pc_at _ _ i ic _ (fi_pcs _ _ _ _ _ Hf) Ei). cbn in Hp.
  destruct (li_send _ _ _ _ _ Hl i ic n f Ei) as [Elk Hn]. apply list_elem_of_fmap in Hn as ([a n'] & -> & Hn). cbn in Ei, Hp.
  destruct (li_entry _ _ _ _ _ Hl a n' Hn) as (Ha & q & Hq & Hcl). unfold perform, forwardSend. cbn [snd]. rewrite Hq, Hcl. destruct (gq q) eqn:El; [|done].
  intros [= <-]. split; [done|]. split; [|split].
  - exists h. split; [done|]. cbn. destruct (handler_type _ _ _ _ _ _ _ Hr i ic _ Ei) as [->| ->]; by eapply route_settle.
  - cbn. assert (Hlt := lookup_lt_Some _ _ _ Hq). eapply lock_leave; [exact Hl | exact Ei | done | by rewrite length_insert| |].
    + intros m q' Hm. destruct (decide (n' = m)) as [<-|]; [|rewrite list_lookup_insert_ne in Hm by done; by eapply li_cap].
      rewrite list_lookup_insert_eq in Hm by done. injection Hm as <-. cbn. lia.
    + intros m q' Hm. destruct (decide (n' = m)) as [<-|]; [|rewrite list_lookup_insert_ne by done; eauto].
      rewrite list_lookup_insert_eq by done. eexists. split; [done|]. cbn. congruence.
  - cbn. apply fate_pc; [|done]. by eapply fate_send.
Qed.

Lemma stopStep_inv i w w' : worldInv w -> stopStep i w = Some w' -> worldInv w'.
Proof.
  intros (Hx & (h & Eh & Hr) & Hl & Hf). unfold stopStep. destruct (wl_done w); [|done].
  destruct (wl_handlers w !! i) as [[ic [| |n f|]]|] eqn:Ei; try done; intros [= <-]; (split; [done|]); (split; [|split]).
  - exists h. split; [done|]. cbn. destruct (handler_type _ _ _ _ _ _ _ Hr i ic _ Ei) as [->| ->]; by eapply route_keep.
  - by eapply lock_quiet.
  - by apply fate_pc.
  - exists h. split; [done|]. cbn. destruct (handler_type _ _ _ _ _ _ _ Hr i ic _ Ei) as [->| ->]; by eapply route_keep.
  - cbn. eapply lock_leave; [exact Hl | exact Ei | done | done | intros m q; by eapply li_cap | eauto].
  - by apply fate_pc.
Qed.

Lemma CloseAll_spec (w : world M) : worldInv w -> cl_lock (wl_client w) = false ->
  exists chans', CloseAll (wl_client w) = Done tt (set_forwards [] chans' (wl_client w)) /\
    length chans' = length (cl_chans (wl_client w)) /\ (forall n, option_map gq (chans' !! n) = option_map gq (cl_chans (wl_client w) !! n)).
Proof.
  intros (_ & _ & Hl & _) El. unfold CloseAll, withLock. rewrite El.
  destruct (closeForwards_ok (map snd (cl_entries (wl_client w))) (wl_client w)) as (chans' & E & H1 & _ & H2).
  - apply Hl.
  - intros n Hn. apply list_elem_of_fmap in Hn as ([a n'] & -> & Hn). by destruct (li_entry _ _ _ _ _ Hl a n' Hn) as (_ & q & Hq & Hc); eauto.
  - exists chans'. unfold bind. rewrite E. by destruct (wl_client w).
Qed.

Lemma closeAll_inv k (w w' : world M) : worldInv w ->
  (forall c, worldInv (with_client c w) -> worldInv (k tt (with_client c w))) -> perform CloseAll k w = Some w' -> worldInv w'.
Proof.
  intros Hinv Hk. unfold perform. destruct (cl_lock (wl_client w)) eqn:El; [unfold CloseAll, withLock; by rewrite El|].
  destruct (CloseAll_spec w Hinv El) as (chans' & -> & H1 & H2). intros [= <-]. apply Hk. destruct Hinv as (Hx & (h & Eh & Hr) & Hl & Hf).
  split; [done|]. split; [by exists h|]. split.
  - cbn. rewrite El in *. by eapply lock_close_all.
  - cbn. by eapply fate_queues.
Qed.

Lemma remove_inv a (w w' : world M) : worldInv w -> perform (Remove a) (fun _ w => w) w = Some w' -> worldInv w'.
Proof.
  intros (Hx & (h & Eh & Hr) & Hl & Hf). unfold perform, Remove, withLock. destruct (cl_lock (wl_client w)) eqn:El; [done|].
  destruct (findEntry a _) as [n|] eqn:Ef; [|intros [= <-]; split; [done|]; split; [by exists h|]; split; cbn; [by rewrite El | done]].
  destruct (findEntry_spec a _ n Ef) as (l1 & a' & l2 & Ee & _ & _ & ->).
  destruct (li_entry _ _ _ _ _ Hl a' n) as (Ha & q & Hq & Hc); [rewrite Ee; apply elem_of_app; right; by left|].
  unfold closeForward. cbn. rewrite Hq, Hc. intros [= <-]. split; [done|]. split; [by exists h|]. split; cbn; rewrite ?El.
  - by eapply lock_remove.
  - eapply fate_queues; [exact Hf|]. intros m. destruct (decide (n = m)) as [<-|]; [|by rewrite list_lookup_insert_ne].
    rewrite list_lookup_insert_eq by by eapply lookup_lt_Some. by rewrite Hq.
Qed.

Lemma receive_inv n (w w' : world M) : worldInv w ->
  perform (receive false false n) (fun r w => match r with Some f => with_got (wl_got w ++ [(n, f)]) w | None => w end) w = Some w' -> worldInv w'.
Proof.
  intros (Hx & (h & Eh & Hr) & Hl & Hf). unfold perform, receive. destruct (cl_chans _ !! n) as [q|] eqn:Hq; [|done].
  destruct (gq q) as [|f l] eqn:El; cbn [andb].
  - destruct (_ || _); [|done]. intros [= <-]. split; [done|]. split; [by exists h|]. done.
  - intros [= <-]. split; [done|]. split; [by exists h|]. cbn. split; [by eapply lock_receive | by eapply fate_receive].
Qed.

Lemma step_inv e w w' : worldInv w -> step e w = Some w' -> worldInv w'.
Proof.
  intros Hinv. assert (H := Hinv). destruct H as (Hx & (h & Eh & Hr) & Hl & Hf). unfold step. destruct (wl_crashed w) eqn:Ex; [done|].
  destruct e as [|ch| | |i|i|i|i|r| | | |m|a|a| |n|t|t].
  - by apply register_inv.
  - by apply opens_inv.
  - by apply opensSend_inv.
  - by apply opensStop_inv.
  - by apply take_inv.
  - by apply lockStep_inv.
  - by apply sendStep_inv.
  - by apply stopStep_inv.
  - unfold requestStep. destruct (wl_requests w); [|done]. destruct r as [r|]; [|by intros [= <-]].
    apply (call_spec worldInv); [|by apply crashed_inv]. intros c E1 E2 E3 E4. unfold worldInv. cbn. rewrite E1, E2, E3, E4, Ex.
    split; [done|]. split; [by exists h | done].
  - destruct (_ && _); [|done]. intros [= <-]. split; [cbn; by rewrite Ex|]. by split; [exists h|].
  - destruct (wl_closer w); [|done]. apply closeAll_inv; [done|]. intros c (H1 & H2 & H3 & H4). by split.
  - intros [= <-]. split; [cbn; by rewrite Ex|]. by split; [exists h|].
  - intros [= <-]. split; [cbn; by rewrite Ex|]. by split; [exists h|].
  - caller. unfold perform, add, withLock. destruct (cl_lock (wl_client w)) eqn:El; [done|]. intros [= <-]. split; [cbn; by rewrite Ex|]. split; [by exists h|]. cbn. rewrite El.
    split; [by eapply lock_add | by apply fate_add].
  - caller. by apply remove_inv.
  - caller. apply closeAll_inv; [done|]. by intros c.
  - caller. by apply receive_inv.
  - caller. unfold perform, HandleChannelOpen. rewrite Eh. destruct (h !! t) eqn:Et; intros [= <-]; (split; [cbn; by rewrite Ex|]); (split; [|done]).
    + by exists h.
    + eexists. split; [done|]. cbn. by apply route_register.
  - caller. destruct (decide (t ∈ wl_user w)) as [Ht|Ht]; [|by rewrite bool_decide_false]. rewrite bool_decide_true by done.
    destruct (takeHandler t _) as [[ch c]|] eqn:E; [|done]. destruct (takeHandler_spec _ _ _ h ch Eh E) as (q & l & Hq & Eq & ->). intros [= <-].
    split; [cbn; by rewrite Ex|]. split; [eexists; split; [done|]; by eapply route_user_take|]. split; [done|]. cbn. apply fate_quiet; [done | done|]. cbn.
    assert (Ht' := proj2 (ri_open _ _ _ _ _ _ _ Hr _ _ Hq)). rewrite Eq in Ht'. apply Forall_inv in Ht'. cbn in Ht'. rewrite Ht'.
    destruct (ri_user _ _ _ _ _ _ _ Hr) as [U1 U2]. split; by intros ->.
Qed.

Lemma steps_inv es w w' : worldInv w -> steps es w = Some w' -> worldInv w'.
Proof.
  revert w. induction es as [|e es IH]; intros w Hinv H; cbn [steps] in H; [by injection H as <-|].
  destruct (step e w) as [w1|] eqn:E; [|done]. apply (IH w1); [by eapply step_inv | done].
Qed.
End Forwards.

(** ** A listener that is not serviced *)

Section Wedge.
Context {M : Type} {FC : ForwardConn M} {IP : IPLib} {ET : ErrText}.

(** A connection waits for the listener of Go channel [n], which is full. *)
Definition waiting (i n : nat) (w : world M) : Prop :=
  (exists ic f, wl_handlers w !! i = Some (ic, HSend n f)) /\ queueAt n (cl_chans (wl_client w)) <> [] /\
  cl_lock (wl_client w) = true /\ wl_done w = false.

(** The events that a listener or the end of the connection would cause. *)
Definition idleListener (n : nat) (e : event M) : bool :=
  match e with EvReceive m => negb (Nat.eqb m n) | EvDone => false | _ => true end.

Lemma waiting_crashed i n v : waiting i n v -> waiting i n (crashed InConn v).
Proof. done. Qed.

Lemma waiting_new i n ic l w : waiting i n w -> waiting i n (registered l (wl_handlers w ++ [(ic, HIdle)]) w).
Proof. intros ((jc & f & Hi) & H). split; [exists jc, f; by apply lookup_app_l_Some | done]. Qed.

Lemma reject_waiting i n ch r message (w w' : world M) : waiting i n w -> reject ch r message (fun w => w) w = Some w' -> waiting i n w'.
Proof.
  intros (H1 & H2 & H3 & H4). apply (reject_spec (waiting i n)); [|by apply waiting_crashed]. intros c E1 E2 E3 E4. unfold waiting. cbn. by rewrite E3, E4.
Qed.

Lemma waiting_handler i n j ic p q w : waiting i n w -> wl_handlers w !! j = Some (ic, p) -> sending p = false -> waiting i n (with_handler j ic q w).
Proof.
  intros (Hi & Hrest) Hj Hp. split; [|done]. destruct Hi as (ic' & f & Hi). exists ic', f. cbn. rewrite list_lookup_insert_ne; [done|].
  intros ->. rewrite Hi in Hj. by injection Hj as _ <-.
Qed.

Lemma waiting_step i n e w w' : worldInv w -> idleListener n e = true -> waiting i n w -> step e w = Some w' -> waiting i n w'.
Proof.
  intros (Hx & (h & Eh & Hr) & Hl & Hf) He Hw. assert (H := Hw). destruct H as ((ic & f & Hi) & Hq & Hlk & Hd). unfold step. destruct (wl_crashed w); [done|]. clear Hx.
  assert (Hblock : forall A (m : stm (Client M) A), withLock m (wl_client w) = Blocked (wl_client w)) by (intros A m; unfold withLock; by rewrite Hlk).
  destruct e as [|ch| | |j|j|j|j|r| | | |m|a|a| |m|t|t].
  - unfold registerStep. destruct (wl_starting w) as [|t ts]; [done|]. unfold perform, HandleChannelOpen. rewrite Eh.
    destruct (h !! t); intros [= <-]; (eapply (waiting_new i n _ ts) in Hw; exact Hw).
  - unfold opensStep. destruct (wl_opens w); [|by destruct ch..]. destruct ch as [ch|]; [|by intros [= <-]]. rewrite Eh.
    destruct (h !! nc_type ch); [by intros [= <-]|]. by apply reject_waiting.
  - unfold opensSend. destruct (wl_opens w) as [|ch|]; try done. rewrite Eh. destruct (h !! nc_type ch) as [q|] eqn:Eq; [|done].
    destruct (ri_open _ _ _ _ _ _ _ Hr _ _ Eq) as [-> _]. destruct (_ <? _); [|done]. by intros [= <-].
  - unfold opensStop. by rewrite Hd.
  - unfold takeStep. destruct (wl_handlers w !! j) as [[jc p]|] eqn:Ej; [|done].
    destruct (handler_type _ _ _ _ _ _ _ Hr j jc p Ej) as [Hjc|Hjc]; rewrite Hjc in *; destruct p; try done.
    all: destruct (takeHandler _ _) as [[ch c]|] eqn:Et; [|done]; destruct (takeHandler_spec _ _ _ h ch Eh Et) as (q & l & Hq' & El & ->).
    all: assert (Hw1 : forall x, waiting i n (with_client (set_handlers x (wl_client w)) w)) by (intros x; exact Hw).
    all: assert (Hty : nc_type ch = tcpType \/ nc_type ch = localType) by (assert (H := proj2 (ri_open _ _ _ _ _ _ _ Hr _ _ Hq')); rewrite El in H; inversion H; auto).
    all: destruct (routeOf ch) eqn:Er; [by apply reject_waiting, Hw1 | | by apply route_total in Er].
    all: intros [= <-]; eapply waiting_handler; [apply Hw1 | exact Ej | done].
  - unfold lockStep. destruct (wl_handlers w !! j) as [[jc [| | |]]|] eqn:Ej; try done. unfold forwardEnter. by rewrite Hblock.
  - unfold sendStep. destruct (wl_handlers w !! j) as [[jc [| |m g|]]|] eqn:Ej; try done.
    assert (i = j) as <- by (by eapply li_one). rewrite Hi in Ej. injection Ej as <- <- <-.
    unfold perform, forwardSend. unfold queueAt in Hq. destruct (cl_chans (wl_client w) !! n) as [q|] eqn:Eq; [|done].
    destruct (gclosed q) eqn:Ecl.
    + destruct (li_send _ _ _ _ _ Hl i ic n f Hi) as [_ Hn]. apply list_elem_of_fmap in Hn as ([a n'] & -> & Hn).
      destruct (li_entry _ _ _ _ _ Hl a n' Hn) as (_ & q' & Hq' & Hcl). cbn in Eq. congruence.
    + by destruct (gq q).
  - unfold stopStep. by rewrite Hd.
  - unfold requestStep. destruct (wl_requests w); [|done]. destruct r as [r|]; [|by intros [= <-]].
    apply (call_spec (waiting i n)); [|by apply waiting_crashed]. intros c E1 E2 E3 E4. unfold waiting. cbn. rewrite E3, E4. exact Hw.
  - by rewrite Hd.
  - destruct (wl_closer w); [|done]. unfold perform, CloseAll. by rewrite Hblock.
  - done.
  - by intros [= <-].
  - caller. unfold perform, add. by rewrite Hblock.
  - caller. unfold perform, Remove. by rewrite Hblock.
  - caller. unfold perform, CloseAll. by rewrite Hblock.
  - caller. cbn in He. apply negb_true_iff, Nat.eqb_neq in He. unfold perform, receive. destruct (cl_chans _ !! m) as [q|] eqn:Eq; [|done].
    destruct (gq q) as [|g l] eqn:El; cbn [andb]; [destruct (_ || _); [|done]; by intros [= <-]|]. intros [= <-]. split; [by exists ic, f|]. split; [|done].
    cbn. rewrite queueAt_insert by by eapply lookup_lt_Some. by rewrite decide_False.
  - caller. unfold perform, HandleChannelOpen. rewrite Eh. destruct (h !! t); by intros [= <-].
  - caller. destruct (bool_decide _); [|done]. destruct (takeHandler t _) as [[ch c]|] eqn:E; [|done].
    destruct (takeHandler_spec _ _ _ h ch Eh E) as (q & l & Hq' & Eq & ->). by intros [= <-].
Qed.

Lemma waiting_steps i n es w w' : worldInv w -> forallb (idleListener n) es = true -> waiting i n w -> steps es w = Some w' -> waiting i n w'.
Proof.
  revert w. induction es as [|e es IH]; intros w Hinv He Hw H; cbn [steps] in H; [by injection H as <-|].
  cbn [forallb] in He. apply andb_prop in He as [He1 He2]. destruct (step e w) as [w1|] eqn:E; [|done].
  apply (IH w1); [by eapply step_inv | done | by eapply waiting_step | done].
Qed.
End Wedge.

(** ** A type that a caller handles *)

Section UserType.
Context {M : Type} {FC : ForwardConn M} {IP : IPLib} {ET : ErrText}.

Definition queued (t : bytes) (w : world M) : list NewChannel := default [] (queueOf t <$> cl_handlers (wl_client w)).
Definition settled (t : bytes) (w : world M) : list NewChannel := ofType t (map fst (wl_fates w)).

(** The type [t] is a caller's, its Go channel is within its capacity, and these channels of its
    type have met their fate. *)
Definition userType (t : bytes) (l : list NewChannel) (w : world M) : Prop :=
  t ∈ wl_user w /\ zlen (queued t w) <= chanSize /\ settled t w = l.

Lemma userType_same t l w w' : wl_user w' = wl_user w -> cl_handlers (wl_client w') = cl_handlers (wl_client w) -> wl_fates w' = wl_fates w ->
  userType t l w -> userType t l w'.
Proof. unfold userType, queued, settled. by intros -> -> ->. Qed.

Lemma settled_met t l ch f w : nc_type ch <> t -> userType t l w -> userType t l (met ch f w).
Proof.
  intros Hne (Hu & Hq & Hs). split; [done|]. split; [done|]. unfold settled in *. cbn [met wl_fates]. rewrite map_app, ofType_app, Hs. cbn [map fst]. unfold ofType. rewrite filter_cons, filter_nil.
  by rewrite decide_False, app_nil_r.
Qed.

Lemma queue_at t w h : cl_handlers (wl_client w) = Some h -> queued t w = queueOf t h.
Proof. unfold queued. by intros ->. Qed.

(** The Go channel of another type does not count. *)
Lemma userType_handlers t t' l w h q : cl_handlers (wl_client w) = Some h -> t' <> t ->
  userType t l w -> userType t l (with_client (set_handlers (Some (<[t' := q]> h)) (wl_client w)) w).
Proof.
  intros Eh Hne (Hu & Hq & Hs). split; [done|]. split; [|done]. rewrite (queue_at t _ (<[t' := q]> h)) by done. rewrite queueOf_insert, decide_False by done.
  by rewrite <- (queue_at t w h).
Qed.

(** What a goroutine of the client holds has its type. *)
Lemma held_type (w : world M) h i ic p ch : routeInv h (wl_opens w) (wl_handlers w) (wl_user w) (wl_starting w) (wl_seen w) (wl_fates w) ->
  wl_handlers w !! i = Some (ic, p) -> heldBy p = [ch] -> nc_type ch = tcpType \/ nc_type ch = localType.
Proof.
  intros Hr Hi Hp. assert (Hn := ins_nodup _ _ _ _ _ _ _ Hr).
  destruct (handler_type _ _ _ _ _ _ _ Hr i ic p Hi) as [->| ->]; [left|right];
    assert (Ht := ri_held _ _ _ _ _ _ _ Hr); [specialize (Ht tcpType)|specialize (Ht localType)];
    rewrite (heldIn_at _ _ i p), Hp in Ht by done; by apply Forall_inv in Ht.
Qed.

Section Steps.
Context (t : bytes) (l : list NewChannel) (w : world M) (Hinv : worldInv w) (Hut : userType t l w).

Lemma user_registered h : cl_handlers (wl_client w) = Some h -> is_Some (h !! t).
Proof.
  destruct Hinv as (_ & (h' & Eh & Hr) & _). rewrite Eh. intros [= <-]. apply (ri_dom _ _ _ _ _ _ _ Hr). right. apply Hut.
Qed.

Lemma user_not_own t' : t' = tcpType \/ t' = localType -> t' <> t.
Proof.
  destruct Hinv as (_ & (h & Eh & Hr) & _), (ri_user _ _ _ _ _ _ _ Hr) as [U1 U2], Hut as (Hu & _). intros Ht <-. by destruct Ht as [E|E]; rewrite E in Hu.
Qed.

Lemma user_reject ch r message k v v' : nc_type ch <> t -> (forall w, userType t l w -> userType t l (k w)) -> userType t l v ->
  reject ch r message k v = Some v' -> userType t l v'.
Proof.
  intros Hch Hk Hv. apply (reject_spec (userType t l)); [|intros u Hu; by eapply userType_same, Hu]. intros c E1 _ _ _.
  apply Hk, settled_met; [done|]. by eapply userType_same, Hv.
Qed.

Lemma user_opens ch w' : opensStep ch w = Some w' -> userType t l w'.
Proof.
  unfold opensStep. destruct (wl_opens w); [|by destruct ch..]. destruct ch as [ch|]; [|by intros [= <-]].
  destruct (cl_handlers (wl_client w)) as [h|] eqn:Eh; [|by destruct Hinv as (_ & (h & Eh' & _) & _); rewrite Eh in Eh'].
  destruct (h !! nc_type ch) eqn:Eq; [intros [= <-]; by eapply userType_same, Hut|]. apply user_reject; [|done|by eapply userType_same, Hut].
  intros E. destruct (user_registered h Eh). congruence.
Qed.

Lemma user_send w' : opensSend w = Some w' -> userType t l w'.
Proof.
  pose proof Hinv as (_ & (h & Eh & Hr) & _). unfold opensSend. destruct (wl_opens w) as [|ch|]; try done. rewrite Eh.
  destruct (h !! nc_type ch) as [q|] eqn:Eq; [|done]. destruct (ri_open _ _ _ _ _ _ _ Hr _ _ Eq) as [-> _]. destruct (_ <? _) eqn:Elt; [|done].
  intros [= <-]. destruct (decide (nc_type ch = t)) as [Et|Hne].
  - split; [apply Hut|]. split; [|apply Hut]. rewrite (queue_at t _ (<[nc_type ch := mkGochan (gq q ++ [ch]) false]> h)) by done.
    rewrite queueOf_insert, decide_True by done. cbn [gq]. rewrite zlen_app. change (zlen [ch]) with 1. lia.
  - eapply userType_same; [..|by eapply (userType_handlers t (nc_type ch) l w h)]; done.
Qed.

Lemma user_take i w' : takeStep i w = Some w' -> userType t l w'.
Proof.
  pose proof Hinv as (_ & (h & Eh & Hr) & _). unfold takeStep. destruct (wl_handlers w !! i) as [[ic p]|] eqn:Ei; [|done].
  assert (Hic : exists t', ic = InOf t' /\ (t' = tcpType \/ t' = localType)) by (destruct (handler_type _ _ _ _ _ _ _ Hr i ic p Ei) as [->| ->]; eauto).
  destruct Hic as (t' & -> & Ht'). destruct p; try done. destruct (takeHandler _ _) as [[ch c]|] eqn:Et; [|done].
  destruct (takeHandler_spec _ _ _ h ch Eh Et) as (q & k & Hq & El & ->).
  assert (Hch : nc_type ch = t') by (assert (H := proj2 (ri_open _ _ _ _ _ _ _ Hr _ _ Hq)); rewrite El in H; by apply Forall_inv in H).
  assert (Hv : forall q, userType t l (with_client (set_handlers (Some (<[t' := q]> h)) (wl_client w)) w))
    by (intros; apply userType_handlers; [done | by apply user_not_own | apply Hut]).
  destruct (routeOf ch) eqn:Er.
  - apply user_reject; [rewrite Hch; by apply user_not_own | done | apply Hv].
  - intros [= <-]. eapply userType_same; [..|apply Hv]; done.
  - apply route_total in Er; [done | by rewrite Hch].
Qed.

Lemma user_lock i w' : lockStep i w = Some w' -> userType t l w'.
Proof.
  pose proof Hinv as (_ & (h & Eh & Hr) & _). unfold lockStep. destruct (wl_handlers w !! i) as [[ic [|ch laddr raddr| |]]|] eqn:Ei; try done.
  unfold forwardEnter, withLock. destruct (cl_lock _); [done|]. destruct (findEntry _ _); [intros [= <-]; by eapply userType_same, Hut|].
  apply user_reject; [by eapply user_not_own, held_type | intros v Hv; by eapply userType_same, Hv | by eapply userType_same, Hut].
Qed.

Lemma user_forward i w' : sendStep i w = Some w' -> userType t l w'.
Proof.
  pose proof Hinv as (_ & (h & Eh & Hr) & _). unfold sendStep. destruct (wl_handlers w !! i) as [[ic [| |n g|]]|] eqn:Ei; try done.
  unfold perform, forwardSend. destruct (cl_chans _ !! n) as [q|]; [|done]. destruct (gclosed q); [intros [= <-]; by eapply userType_same, Hut|].
  destruct (gq q); [|done]. intros [= <-].
  eapply userType_same; [..|apply (settled_met t l (fwd_newCh g) (Forwarded n (fwd_raddr g)) w); [by eapply user_not_own, held_type | apply Hut]]; done.
Qed.

Lemma user_close_all k w' : (forall v, userType t l v -> userType t l (k tt v)) -> perform CloseAll k w = Some w' -> userType t l w'.
Proof.
  intros Hk. unfold perform. destruct (cl_lock (wl_client w)) eqn:El; [unfold CloseAll, withLock; by rewrite El|].
  destruct (CloseAll_spec w) as (chans' & -> & _); [done..|]. intros [= <-]. apply Hk. by eapply userType_same, Hut.
Qed.

(** Only a receive by the caller takes a channel of the type away. *)
Lemma user_step e w' : e <> EvUserTake t -> step e w = Some w' -> userType t l w'.
Proof.
  intros He. pose proof Hinv as (Hx & (h & Eh & Hr) & _). unfold step. destruct (wl_crashed w) eqn:Ex; [done|]. destruct e as [|ch| | |j|j|j|j|r| | | |m|a|a| |m|t'|t'].
  - unfold registerStep. destruct (wl_starting w) as [|t' ts] eqn:Est; [done|]. destruct (route_start _ _ _ _ _ _ _ Hr t' ts eq_refl) as [Hn _].
    unfold perform, HandleChannelOpen. rewrite Eh, Hn. intros [= <-].
    assert (Hne : t' <> t) by (intros ->; destruct (user_registered h Eh); congruence).
    eapply userType_same; [..|by eapply (userType_handlers t t' l w h newGochan Eh)]; done.
  - apply user_opens.
  - apply user_send.
  - unfold opensStop. destruct (wl_done w), (wl_opens w); try done; intros [= <-]; by eapply userType_same, Hut.
  - apply user_take.
  - apply user_lock.
  - apply user_forward.
  - unfold stopStep. destruct (wl_done w); [|done]. destruct (wl_handlers w !! j) as [[jc [| |n g|]]|]; try done; intros [= <-]; by eapply userType_same, Hut.
  - unfold requestStep. destruct (wl_requests w); [|done]. destruct r as [r|]; [|by intros [= <-]].
    apply (call_spec (userType t l)); [|intros u Hu; by eapply userType_same, Hu]. intros c E1 _ _ _. by eapply userType_same, Hut.
  - destruct (_ && _); [|done]. intros [= <-]. by eapply userType_same, Hut.
  - destruct (wl_closer w); [|done]. apply user_close_all. intros v Hv. by eapply userType_same, Hv.
  - intros [= <-]. by eapply userType_same, Hut.
  - intros [= <-]. by eapply userType_same, Hut.
  - caller. unfold perform, add, withLock. destruct (cl_lock _); [done|]. intros [= <-]. by eapply userType_same, Hut.
  - caller. unfold perform, Remove, withLock, closeForward. destruct (cl_lock _); [done|].
    destruct (findEntry _ _) as [n|]; [|intros [= <-]; by eapply userType_same, Hut]. cbn.
    destruct (cl_chans _ !! n) as [q|]; [|intros [= <-]; by eapply userType_same, Hut]. destruct (gclosed q); intros [= <-]; by eapply userType_same, Hut.
  - caller. apply user_close_all. by intros.
  - caller. unfold perform, receive. destruct (cl_chans _ !! m) as [q|]; [|done]. destruct (gq q); cbn [andb]; [destruct (_ || _); [|done]|];
      intros [= <-]; by eapply userType_same, Hut.
  - caller. unfold perform, HandleChannelOpen. rewrite Eh. destruct (h !! t') eqn:Et; intros [= <-]; [by eapply userType_same, Hut|].
    assert (Hne : t' <> t) by (intros ->; destruct (user_registered h Eh); congruence).
    destruct (userType_handlers t t' l w h newGochan Eh Hne Hut) as (H1 & H2 & H3). split; [|by split]. cbn. apply elem_of_app. by left.
  - caller. destruct (bool_decide _); [|done]. destruct (takeHandler t' _) as [[ch c]|] eqn:E; [|done].
    destruct (takeHandler_spec _ _ _ h ch Eh E) as (q & k & Hq' & Eq & ->). intros [= <-].
    assert (Hin := proj2 (ri_open _ _ _ _ _ _ _ Hr _ _ Hq')). rewrite Eq in Hin. apply Forall_inv in Hin.
    apply settled_met; [rewrite Hin|apply userType_handlers; [done| |done]]; intros ->; done.
Qed.
End Steps.

(** *** Registration *)

Lemma perform_user {A} (m : stm (Client M) A) k w w' : (forall a v, wl_user (k a v) = wl_user v) -> perform m k w = Some w' -> wl_user w' = wl_user w.
Proof. intros Hk. unfold perform. destruct (m _); [|done|]; intros [= <-]; [by rewrite Hk | done]. Qed.

Lemma call_user {A} (m : stm M A) k (w w' : world M) : (forall v, wl_user (k v) = wl_user v) -> call m k w = Some w' -> wl_user w' = wl_user w.
Proof. intros Hk. apply (call_spec (fun w' => wl_user w' = wl_user w)); [|done]. intros c _ _ _ _. by rewrite Hk. Qed.

Lemma reject_user ch r message k (w w' : world M) : (forall v, wl_user (k v) = wl_user v) -> reject ch r message k w = Some w' -> wl_user w' = wl_user w.
Proof. intros Hk. apply call_user. intros v. by rewrite Hk. Qed.

(** Only [HandleChannelOpen] makes a type a caller's. *)
Lemma step_user e w w' : (forall t, e <> EvHandle t) -> step e w = Some w' -> wl_user w' = wl_user w.
Proof.
  intros He. unfold step. destruct (wl_crashed w); [done|]. destruct e as [|ch| | |j|j|j|j|r| | | |m|a|a| |m|t|t]; try (by intros [= <-]).
  - unfold registerStep. destruct (wl_starting w); [done|]. by apply perform_user.
  - unfold opensStep. destruct (wl_opens w), ch as [ch|]; try done; [|by intros [= <-]].
    destruct (cl_handlers _) as [h|]; [destruct (h !! _); [by intros [= <-]|]|]; (intros Hs; by apply reject_user in Hs).
  - unfold opensSend. repeat case_match; intros; by simplify_eq.
  - unfold opensStop. repeat case_match; intros; by simplify_eq.
  - unfold takeStep. destruct (wl_handlers w !! j) as [[[| |t] []]|]; try done; [by intros [= <-]|]. destruct (takeHandler _ _) as [[ch c]|]; [|done].
    destruct (routeOf ch); [(intros Hs; by apply reject_user in Hs) | by intros [= <-]..].
  - unfold lockStep. destruct (wl_handlers w !! j) as [[ic [| | |]]|]; try done.
    destruct (forwardEnter _ _) as [[n|] c|c|x]; [by intros [= <-] | (intros Hs; by apply reject_user in Hs) | done | by intros [= <-]].
  - unfold sendStep. destruct (wl_handlers w !! j) as [[ic [| | |]]|]; try done. by apply perform_user.
  - unfold stopStep. destruct (wl_done w); [|done]. destruct (wl_handlers w !! j) as [[ic [| | |]]|]; try done; [by intros [= <-] | by apply perform_user].
  - unfold requestStep. destruct (wl_requests w); [|done]. destruct r; [by apply call_user | by intros [= <-]].
  - destruct (_ && _); [by intros [= <-] | done].
  - destruct (wl_closer w); [by apply perform_user | done].
  - caller. by apply perform_user.
  - caller. by apply perform_user.
  - caller. by apply perform_user.
  - caller. apply perform_user. by intros [].
  - by destruct (He t).
  - caller. destruct (bool_decide _); [|done]. destruct (takeHandler _ _) as [[ch c]|]; [by intros [= <-] | done].
Qed.

Lemma step_registers t e w w' : worldInv w -> step e w = Some w' -> t ∉ wl_user w -> t ∈ wl_user w' -> queued t w' = [].
Proof.
  intros (Hx & (h & Eh & Hr) & _) Hs Hn Ht. destruct e as [|ch| | |j|j|j|j|r| | | |m|a|a| |m|t'|t'];
    try (by apply step_user in Hs; [rewrite Hs in Ht|]).
  unfold step in Hs. destruct (wl_crashed w); [done|]. apply caller_spec in Hs as [_ Hs]. unfold perform, HandleChannelOpen in Hs.
  rewrite Eh in Hs. destruct (h !! t') eqn:Et; injection Hs as <-; [done|].
  cbn in Ht. apply elem_of_app in Ht as [Ht|Ht]; [done|]. apply list_elem_of_singleton in Ht as ->.
  rewrite (queue_at t' _ (<[t' := newGochan]> h)) by done. by rewrite queueOf_insert, decide_True.
Qed.
End UserType.

(** ** After the start *)

Section Onward.
Context {M : Type} {FC : ForwardConn M} {IP : IPLib} {ET : ErrText}.

(** A fate that was met after [NewClient] had registered its types. *)
Definition late (e : NewChannel * fate) : Prop := forall r starting, snd e = Rejected r starting -> starting = [].

Definition onward (w w' : world M) : Prop := wl_starting w' = [] /\ exists l, wl_fates w' = wl_fates w ++ l /\ Forall late l.

Lemma onward_same w w' : wl_starting w = [] -> wl_starting w' = wl_starting w -> wl_fates w' = wl_fates w -> onward w w'.
Proof. intros H1 H2 H3. split; [congruence|]. exists []. by rewrite app_nil_r. Qed.

Lemma onward_met w w' ch f : wl_starting w = [] -> wl_starting w' = wl_starting w -> wl_fates w' = wl_fates w ++ [(ch, f)] -> late (ch, f) -> onward w w'.
Proof. intros H1 H2 H3 H4. split; [congruence|]. exists [(ch, f)]. split; [done | by repeat constructor]. Qed.

Lemma onward_trans w1 w2 w3 : onward w1 w2 -> onward w2 w3 -> onward w1 w3.
Proof. intros (_ & l & E1 & H1) (H2 & l' & E2 & H2'). split; [done|]. exists (l ++ l'). rewrite E2, E1, <- app_assoc. split; [done | by apply Forall_app]. Qed.

Lemma perform_onward {A} (m : stm (Client M) A) k (w w' : world M) : wl_starting w = [] ->
  (forall a v, wl_starting v = wl_starting w -> wl_fates v = wl_fates w -> onward w (k a v)) -> perform m k w = Some w' -> onward w w'.
Proof. intros Hw Hk. unfold perform. destruct (m _); [|done|]; intros [= <-]; [by apply Hk | by apply onward_same]. Qed.

Lemma reject_onward ch r message k (w v v' : world M) : wl_starting w = [] -> wl_starting v = wl_starting w -> wl_fates v = wl_fates w ->
  (forall u, wl_starting (k u) = wl_starting u /\ wl_fates (k u) = wl_fates u) -> reject ch r message k v = Some v' -> onward w v'.
Proof.
  intros Hw Hs Hf Hk. apply (reject_spec (onward w)); [|done]. intros c _ _ _ _.
  apply (onward_met _ _ ch (Rejected r (wl_starting v))); [done|..]; try (rewrite ?(proj1 (Hk _)), ?(proj2 (Hk _)); cbn; congruence).
  intros r' st [= _ <-]. congruence.
Qed.

Lemma step_onward e (w w' : world M) : wl_starting w = [] -> step e w = Some w' -> onward w w'.
Proof.
  intros Hw. unfold step. destruct (wl_crashed w); [done|].
  destruct e as [|ch| | |j|j|j|j|r| | | |m|a|a| |m|t|t]; try (by intros [= <-]; apply onward_same).
  - unfold registerStep. by rewrite Hw.
  - unfold opensStep. destruct (wl_opens w), ch as [ch|]; try done; [|by intros [= <-]; apply onward_same].
    destruct (cl_handlers _) as [h|]; [destruct (h !! _); [by intros [= <-]; apply onward_same|]|]; by apply reject_onward.
  - unfold opensSend. repeat case_match; intros; simplify_eq; by apply onward_same.
  - unfold opensStop. repeat case_match; intros; simplify_eq; by apply onward_same.
  - unfold takeStep. destruct (wl_handlers w !! j) as [[[| |t] []]|]; try done; [by intros [= <-]; apply onward_same|].
    destruct (takeHandler _ _) as [[ch c]|]; [|done]. destruct (routeOf ch); [by apply reject_onward | by intros [= <-]; apply onward_same..].
  - unfold lockStep. destruct (wl_handlers w !! j) as [[ic [| | |]]|]; try done.
    destruct (forwardEnter _ _) as [[n|] c|c|x]; [by intros [= <-]; apply onward_same | by apply reject_onward | done | by intros [= <-]; apply onward_same].
  - unfold sendStep. destruct (wl_handlers w !! j) as [[ic [| | |]]|]; try done. apply perform_onward; [done|]. intros a v H1 H2.
    eapply onward_met; [done | done | cbn; by rewrite H2 | done].
  - unfold stopStep. destruct (wl_done w); [|done]. destruct (wl_handlers w !! j) as [[ic [| | |]]|]; try done; [by intros [= <-]; apply onward_same|].
    apply perform_onward; [done|]. intros. by apply onward_same.
  - unfold requestStep. destruct (wl_requests w); [|done]. destruct r; [|by intros [= <-]; apply onward_same].
    apply (call_spec (onward w)); [|done]. intros. by apply onward_same.
  - destruct (_ && _); [|done]. intros [= <-]. by apply onward_same.
  - destruct (wl_closer w); [|done]. apply perform_onward; [done|]. intros. by apply onward_same.
  - caller. apply perform_onward; [done|]. intros. by apply onward_same.
  - caller. apply perform_onward; [done|]. intros. by apply onward_same.
  - caller. apply perform_onward; [done|]. intros. by apply onward_same.
  - caller. apply perform_onward; [done|]. intros [f|] v H1 H2; by apply onward_same.
  - caller. apply perform_onward; [done|]. intros [| |t'] v H1 H2; by apply onward_same.
  - caller. destruct (bool_decide _); [|done]. destruct (takeHandler _ _) as [[ch c]|]; [|done]. intros [= <-]. by eapply onward_met.
Qed.

Lemma steps_onward es (w w' : world M) : wl_starting w = [] -> steps es w = Some w' -> onward w w'.
Proof.
  revert w. induction es as [|e es IH]; intros w Hw Hs; cbn [steps] in Hs; [injection Hs as <-; by apply onward_same|].
  destruct (step e w) as [w1|] eqn:E; [|done]. assert (H1 := step_onward e w w1 Hw E). eapply onward_trans; [exact H1|].
  apply IH; [apply H1 | done].
Qed.

Lemma steps_app es es' (w : world M) : steps (es ++ es') w = match steps es w with Some w1 => steps es' w1 | None => None end.
Proof. revert w. induction es as [|e es IH]; intros w; cbn [app steps]; [done|]. destruct (step e w); [apply IH | done]. Qed.
End Onward.

(** ** From a listener to its connections *)

Section Receives.
Context {M : Type} {FC : ForwardConn M} {IP : IPLib} {Laws : IPLaws} {ET : ErrText}.

Lemma findEntry_last a b es n : findEntry b es = None -> sameAddr a b = true -> findEntry a (es ++ [(b, n)]) = Some n.
Proof.
  intros Hn Hs. apply findEntry_none in Hn. induction Hn as [|[d k] es Hd _ IH]; cbn [app findEntry]; [by rewrite Hs|]. cbn in Hd.
  destruct (sameAddr a d) eqn:E; [|done]. rewrite sameAddr_sym in Hs. by rewrite (sameAddr_trans b a d Hs E) in Hd.
Qed.

(** The payload of a connection to the address of a listener. *)
Lemma route_own ch ip port oaddr oport raddr : validIP ip -> 0 < port <= 65535 -> nc_type ch = tcpType ->
  Unmarshal forwardedTCPPayload_struct (nc_extra ch) = Ret (IP_String ip, (port, (oaddr, (oport, tt)))) -> parseTCPAddr oaddr oport = Ret raddr ->
  exists a, routeOf ch = RouteForward (ATCP a) (ATCP raddr) /\ sameAddr (ATCP a) (ATCP (mkTCPAddr ip port [])) = true.
Proof.
  intros Hv Hp Ht Hu Ho. destruct (parse_own_address ip port Hv Hp) as (a & Ea & Hs). exists a. split; [|done].
  unfold routeOf. rewrite bool_decide_true by done. by rewrite Hu, Ea, Ho.
Qed.

Definition deliver (ch : NewChannel) (n : nat) : list (event M) :=
  [EvOpens (Some ch); EvOpensSend; EvTake 0; EvLock 0; EvSend 0; EvReceive n].

Lemma steps_cons e es (w w1 : world M) : step e w = Some w1 -> steps (e :: es) w = steps es w1.
Proof. intros E. cbn [steps]. by rewrite E. Qed.

Lemma delivered t ch laddr raddr n h (w : world M) : wl_crashed w = None -> wl_starting w = [] -> wl_opens w = OIdle -> wl_handlers w !! 0%nat = Some (InOf t, HIdle) ->
  cl_handlers (wl_client w) = Some h -> h !! t = Some newGochan -> cl_lock (wl_client w) = false ->
  nc_type ch = t -> routeOf ch = RouteForward laddr raddr ->
  findEntry laddr (cl_entries (wl_client w)) = Some n -> cl_chans (wl_client w) !! n = Some newGochan ->
  exists w', steps (deliver ch n) w = Some w' /\ wl_got w' = wl_got w ++ [(n, mkForward ch raddr)].
Proof.
  intros Hx Hst Ho Hh Eh Eq Hlk Ht Hr Hf Hn. assert (Hlt := lookup_lt_Some _ _ _ Hh). assert (Hlt' := lookup_lt_Some _ _ _ Hn). unfold deliver.
  rewrite (steps_cons _ _ w (with_opens (OSend ch) (saw ch w))); [|unfold step; rewrite Hx; unfold opensStep; by rewrite Ho, Eh, Ht, Eq].
  set (c1 := set_handlers (Some (<[t := mkGochan [ch] false]> h)) (wl_client w)).
  rewrite (steps_cons _ _ _ (with_opens OIdle (with_client c1 (with_opens (OSend ch) (saw ch w)))));
    [|unfold step; cbn [wl_crashed with_opens saw]; rewrite Hx; unfold opensSend; cbn [wl_opens wl_client with_opens saw]; by rewrite Eh, Ht, Eq].
  set (w2 := with_opens OIdle _). set (c2 := set_handlers (Some (<[t := mkGochan [] false]> (<[t := mkGochan [ch] false]> h))) c1).
  rewrite (steps_cons _ _ _ (with_handler 0 (InOf t) (HLock ch laddr raddr) (with_client c2 w2))).
  2: { unfold step. change (wl_crashed w2) with (wl_crashed w). rewrite Hx. unfold takeStep. change (wl_handlers w2) with (wl_handlers w). rewrite Hh.
       unfold takeHandler. cbn [wl_client w2 with_opens with_client c1 set_handlers cl_handlers]. rewrite lookup_insert_eq. cbn [gq gclosed]. by rewrite Hr. }
  set (w3 := with_handler _ _ _ _). rewrite (steps_cons _ _ _ (with_handler 0 (InOf t) (HSend n (mkForward ch raddr)) (with_client (set_lock true c2) w3))).
  2: { unfold step. change (wl_crashed w3) with (wl_crashed w). rewrite Hx. unfold lockStep. cbn [w3 with_handler wl_handlers]. rewrite list_lookup_insert_eq by done.
       unfold forwardEnter, withLock. change (cl_lock (wl_client _)) with (cl_lock (wl_client w)). rewrite Hlk.
       change (cl_entries (wl_client _)) with (cl_entries (wl_client w)). by rewrite Hf. }
  set (w4 := with_handler _ _ (HSend _ _) _).
  set (c5 := set_lock false (set_forwards (cl_entries (wl_client w)) (<[n := mkGochan [mkForward ch raddr] false]> (cl_chans (wl_client w))) (wl_client w4))).
  rewrite (steps_cons _ _ _ (with_handler 0 (InOf t) HIdle (met ch (Forwarded n raddr) (with_client c5 w4)))).
  2: { unfold step. change (wl_crashed w4) with (wl_crashed w). rewrite Hx. unfold sendStep. cbn [w4 with_handler wl_handlers].
       rewrite list_lookup_insert_eq by (change (wl_handlers (with_client _ w3)) with (<[0%nat := (InOf t, HLock ch laddr raddr)]> (wl_handlers w)); by rewrite length_insert).
       unfold perform, forwardSend. change (cl_chans (wl_client _)) with (cl_chans (wl_client w)). by rewrite Hn. }
  set (w5 := with_handler _ _ HIdle _). cbn [steps]. unfold step. change (wl_crashed w5) with (wl_crashed w). rewrite Hx. unfold callerStep.
  change (wl_starting w5) with (wl_starting w). rewrite Hst. unfold perform, receive.
  change (cl_chans (wl_client w5)) with (<[n := mkGochan [mkForward ch raddr] false]> (cl_chans (wl_client w))). rewrite list_lookup_insert_eq by done.
  cbn [gq andb]. eexists. split; [reflexivity|]. done.
Qed.
End Receives.

(** ** The mux as the connection *)

(** For the channels it has handed out, the mux does what a client relies on. *)
Lemma mux_forward_safe env p reason message r ok payload m : mux_inv m -> is_Some (mx_heap m !! p) -> req_onChannel r = false ->
  wp (@fc_Reject mux (mux_forward env) p reason message) (fun _ => mux_inv) mux_inv m /\
  wp (@fc_Accept mux (mux_forward env) p) (fun _ => mux_inv) mux_inv m /\
  wp (@fc_Reply mux (mux_forward env) r ok payload) (fun _ => mux_inv) mux_inv m.
Proof.
  intros Hm Hp Hr. split; [|split].
  - apply onChan_keeps; [done..|]. intros F HF. by apply keeps_Reject.
  - apply onChan_keeps; [done..|]. intros F HF. by apply keeps_Accept.
  - cbn [fc_Reply mux_forward]. unfold Reply. rewrite Hr. destruct (req_WantReply r); [|done]. by apply muxAckRequest_inv.
Qed.

(** ** The claims *)


(** Connections to a Unix socket (the first one too early), and a channel that nobody handles. *)
Definition example_channel (id : nat) : NewChannel :=
  mkNewChannel id localType (match marshalStruct [] forwardedStreamLocalPayload_struct (str "/s", ([], tt)) with Ret p => p | _ => [] end).

Definition example_events : list (event (list (bytes * bytes))) :=
  [EvOpens (Some (example_channel 2)); EvRegister; EvRegister; EvAdd (unixAddr (str "/s")); EvOpens (Some (example_channel 3)); EvOpensSend; EvTake 1; EvOpens (Some (mkNewChannel 4 (str "x11") []));
   EvOpens (Some (example_channel 5)); EvLock 1; EvOpensSend; EvSend 1; EvTake 1; EvLock 1].


(** C39: A connection that its listener does not take blocks the whole list.  When
    one connection fills the Go channel of a listener and a second one waits for it, then,
    until somebody receives from this listener or the connection ends, whatever else
    happens: no forward can be added or removed (so the listener's own [Close] never
    returns), [CloseAll] does not return, and no goroutine can forward to any other
    listener. *)
Theorem unserviced_listener_wedges {M} {FC : ForwardConn M} {IP : IPLib} {ET : ErrText} (conn : M) es es' (w w' : world M) i ic n f :
  steps es (start_world conn) = Some w -> wl_handlers w !! i = Some (ic, HSend n f) ->
  queueAt n (cl_chans (wl_client w)) <> [] -> wl_done w = false ->
  forallb (idleListener n) es' = true -> steps es' w = Some w' ->
  (forall a, step (EvAdd a) w' = None /\ step (EvRemove a) w' = None) /\ step EvCloseAll w' = None /\ (forall j, step (EvLock j) w' = None).
Proof.
  intros Hs Hi Hq Hd He Hs'. assert (Hinv := steps_inv es _ w (start_inv conn) Hs).
  assert (Hw : waiting i n w) by (destruct Hinv as (_ & _ & Hl & _); split; [by exists ic, f|]; split; [done|]; split; [by destruct (li_send _ _ _ _ _ Hl i ic n f Hi) | done]).
  destruct (waiting_steps i n es' w w' Hinv He Hw Hs') as (_ & _ & Hlk & _).
  unfold step, callerStep, perform, lockStep, forwardEnter, add, Remove, CloseAll, withLock. rewrite Hlk.
  split; [by intros a; destruct (wl_crashed w'), (wl_starting w')|]. split; [by destruct (wl_crashed w'), (wl_starting w')|]. intros j.
  destruct (wl_crashed w'); [done|]. by destruct (wl_handlers w' !! j) as [[? []]|].
Qed.

Lemma unserviced_listener_wedges_witness :
  match steps example_events (start_world []) with
  | Some w => step (EvRemove (unixAddr (str "/s"))) w = None
  | None => False
  end.
Proof.
  assert (H1 : option_map (fun w => (wl_handlers w !! 1%nat, queueAt 0 (cl_chans (wl_client w)), wl_done w)) (steps example_events (start_world [])) =
    Some (Some (InOf localType, HSend 0 (mkForward (example_channel 5) anonymousUnix)), [mkForward (example_channel 3) anonymousUnix], false)) by (vm_compute; reflexivity).
  destruct (steps example_events (start_world [])) as [w|] eqn:E; [|discriminate H1]. injection H1 as Hi Hq Hd.
  destruct (unserviced_listener_wedges [] example_events [] w w 1 (InOf localType) 0 (mkForward (example_channel 5) anonymousUnix)) as (Ha & _).
  - exact E.
  - exact Hi.
  - rewrite Hq. discriminate.
  - exact Hd.
  - reflexivity.
  - reflexivity.
  - exact (proj2 (Ha (unixAddr (str "/s")))).
Defined.


(** A client after [NewClient]. *)
Definition started : world (list (bytes * bytes)) :=
  match steps [EvRegister; EvRegister] (start_world []) with Some w => w | None => start_world [] end.

Definition example_laddr : TCPAddr := mkTCPAddr [x7f; x00; x00; x01] 0 [].

Definition example_listened : error + tcpListener * Client (list (bytes * bytes)) :=
  match ListenTCP 2 (str "SSH-2.0-OpenSSH_9.0") true (fun _ => 0) example_laddr (wl_client started) with
  | Done (inr l) c => inr (l, c)
  | _ => inl EOF
  end.

Definition example_tcp : NewChannel :=
  mkNewChannel 3 tcpType (match marshalStruct [] forwardedTCPPayload_struct (str "7f000001", (9000, (str "0a000002", (40000, tt)))) with Ret p => p | _ => [] end).

