(* ===== verification/Setup.v ===== *)
(** * Setting up a connection (client.go, server.go, connection.go)

    [NewClientConn] and [NewServerConn]: the exchange of versions on the network
    connection, the handshake transport, the request for the authentication service,
    the authentication and the mux, in the order of the code; the host keys of a
    server, the host key checks of a client, and the goroutine that discards requests.

    What the goroutines of the handshake transport deliver to its reader, and the
    results of its writes, are the parameter [newHandshake] (Handshake.v has the
    transport itself); a nil transport is one that was shut down at once. *)

From S2P Require Import Prelude Text Wire Codec Messages Negotiate Channel Mux Cipher CipherFacts Transport Kex Handshake Auth Keys.

(** ** State *)

(** The network connection: what will be read, what was written, whether it was closed. *)
Record netConn := mkNetConn { net_in : bytes; net_out : writer; net_closed : bool }.

(** The fields of [connection] and [sshConn]. *)
Record connection := mkConnection {
  cn_halt : option object;
  cn_net : netConn;
  cn_clientVersion : bytes;
  cn_serverVersion : bytes;
  cn_sessionID : bytes;
  cn_user : bytes;
  cn_mux : option mux
}.

(** A handshake transport, as its user sees it: its session identifier once the first exchange is
    done, the packets it delivers and the results of writing. *)
Record hsTransport := mkHsTransport { ht_sessionID : bytes; ht_io : io }.

Definition put_net (n : netConn) (c : connection) : connection :=
  mkConnection (cn_halt c) n (cn_clientVersion c) (cn_serverVersion c) (cn_sessionID c) (cn_user c) (cn_mux c).
Definition put_versions (client server : bytes) (c : connection) : connection :=
  mkConnection (cn_halt c) (cn_net c) client server (cn_sessionID c) (cn_user c) (cn_mux c).
Definition put_session (id : bytes) (c : connection) : connection :=
  mkConnection (cn_halt c) (cn_net c) (cn_clientVersion c) (cn_serverVersion c) id (cn_user c) (cn_mux c).
Definition put_user (u : bytes) (c : connection) : connection :=
  mkConnection (cn_halt c) (cn_net c) (cn_clientVersion c) (cn_serverVersion c) (cn_sessionID c) u (cn_mux c).
Definition put_mux (m : mux) (c : connection) : connection :=
  mkConnection (cn_halt c) (cn_net c) (cn_clientVersion c) (cn_serverVersion c) (cn_sessionID c) (cn_user c) (Some m).

(** [newConnection], whose assertion is about the configuration it is given. *)
Definition newConnection (nc : netConn) (cfg : Config) : outcome connection :=
  match Halt cfg with
  | None => Panic "assert: cfg.Halt cannot be nil in newConnection()"
  | Some h => Ret (mkConnection (Some h) nc [] [] [] [] None)
  end.

Definition closeNet (n : netConn) : netConn := mkNetConn (net_in n) (net_out n) true.

Definition ErrShutDown : error := errNew "ssh: shutting down.".

(** ** Steps of both sides *)

Definition setup : Type -> Type := auth connection.

(** [exchangeVersions] on the network connection. *)
Definition exchange (versionLine : bytes) : setup bytes := fun '(c, s) =>
  match exchangeVersions versionLine (net_out (cn_net s)) (net_in (cn_net s)) with
  | Ret (them, w, r) => (Ret them, (c, put_net (mkNetConn r w (net_closed (cn_net s))) s))
  | Fail e => (Fail e, (c, s))
  | Panic w => (Panic w, (c, s))
  end.

(** The transport that was made, if it was. *)
Definition useTransport (t : option hsTransport) : setup bytes := fun '(c, s) =>
  match t with
  | None => (Fail ErrShutDown, (c, s))
  | Some t => (Ret (ht_sessionID t), (ht_io t, s))
  end.

(** [waitSession]. *)
Definition awaitSession : setup unit :=
  p ← readPacket;
  t ← packetType p;
  if t =? msgNewKeys then mret tt else raise (errNew "ssh: first packet should be msgNewKeys").

(** ** Servers *)

Record serverConfig := mkServerConf {
  sc_config : Config;
  sc_hostKeys : list Signer;
  sc_auth : ServerConfig;
  sc_version : bytes
}.

(** [AddHostKey]. *)
Fixpoint AddHostKey (key : Signer) (hostKeys : list Signer) : list Signer :=
  match hostKeys with
  | [] => [key]
  | k :: hostKeys => if bool_decide (sg_type k = sg_type key) then key :: hostKeys else k :: AddHostKey key hostKeys
  end.

(** [NewServerConn]'s copy of the configuration, with its defaults. *)
Definition fullServerConf (cfg : serverConfig) : serverConfig :=
  mkServerConf (SetDefaults (sc_config cfg)) (sc_hostKeys cfg) (withDefaultTries (sc_auth cfg)) (sc_version cfg).

Definition noMethods (a : ServerConfig) : bool :=
  negb (NoClientAuth a) && match PasswordCallback a with None => true | _ => false end
  && match PublicKeyCallback a with None => true | _ => false end && match KeyboardInteractiveCallback a with None => true | _ => false end.

Definition orDefault (version : bytes) : bytes := match version with [] => packageVersion | _ => version end.

(** [s.serverAuthenticate], which also records the user. *)
Definition authenticateServer (a : ServerConfig) (env : serverEnv) : setup (option Permissions) := fun '(c, s) =>
  let '(r, (c, v)) := serverAuthenticate a env c in (r, (c, put_user (sv_user v) s)).

(** What the server's packages give: see [serverEnv]; the session identifier is the transport's. *)
Record serverLibs := mkServerLibs { sl_addr : netAddr; sl_net : netLib; sl_ParsePublicKey : bytes -> outcome Auth.PublicKey }.

Definition serverEnvOf (l : serverLibs) (sessionID : bytes) : serverEnv := mkServerEnv sessionID (sl_addr l) (sl_net l) (sl_ParsePublicKey l).

Section Setup.
Context (newHandshake : hsConfig -> option hsTransport).

Definition serverHandshake (libs : serverLibs) (config : serverConfig) : setup (option Permissions) :=
  if bool_decide (sc_hostKeys config = []) then raise (errNew "ssh: server has no host keys")
  else if noMethods (sc_auth config) then raise (errNew "ssh: no authentication methods configured but NoClientAuth is also false")
  else
    let serverVersion := orDefault (sc_version config) in
    _ ← modS (put_versions [] serverVersion);
    clientVersion ← exchange serverVersion;
    _ ← modS (put_versions clientVersion serverVersion);
    sessionID ← useTransport (newHandshake (mkHsConfig (sc_config config) serverVersion clientVersion (sc_hostKeys config) []));
    _ ← awaitSession;
    _ ← modS (put_session sessionID);
    packet ← readPacket;
    serviceRequest ← lift (unmarshalMsg serviceRequestMsg packet);
    if negb (bool_decide (serviceRequestMsg_Service serviceRequest = serviceUserAuth)) then
      raise (Errorf "ssh: requested service '%s' before authenticating" [FStr (serviceRequestMsg_Service serviceRequest)])
    else
      _ ← writeMsg (mk_serviceAcceptMsg serviceUserAuth);
      perms ← authenticateServer (sc_auth config) (serverEnvOf libs sessionID);
      _ ← modS (put_mux (newMux 0));
      mret perms.

(** The results of [NewServerConn] and [NewClientConn]: the value, and the connection at the end. *)
Definition NewServerConn (libs : serverLibs) (config : serverConfig) (nc : netConn) : outcome (option Permissions) * (io * connection) :=
  let fullConf := fullServerConf config in
  match newConnection nc (sc_config fullConf) with
  | Ret s =>
      match serverHandshake libs fullConf (mkIo [] [] [], s) with
      | (Fail e, (c, s)) => (Fail e, (c, put_net (closeNet (cn_net s)) s))
      | r => r
      end
  | Fail e => (Fail e, (mkIo [] [] [], mkConnection None nc [] [] [] [] None))
  | Panic w => (Panic w, (mkIo [] [] [], mkConnection None nc [] [] [] [] None))
  end.

(** ** Clients *)

(** [HostKeyCallback] is given the address and the host key as it was sent. *)
Record ClientConfig := mkClientConfig {
  cc_config : Config;
  cc_user : bytes;
  cc_auth : list authMethod;
  cc_HostKeyCallback : option (bytes -> bytes -> option error);
  cc_version : bytes;
  cc_HostKeyAlgorithms : option (list bytes)
}.

Definition fullClientConf (cfg : ClientConfig) : ClientConfig :=
  mkClientConfig (SetDefaults (cc_config cfg)) (cc_user cfg) (cc_auth cfg) (cc_HostKeyCallback cfg) (cc_version cfg) (cc_HostKeyAlgorithms cfg).

(** [c.clientAuthenticate]; it counts the calls of the callbacks. *)
Definition authenticateClient (sessionID user : bytes) (auths : list authMethod) : setup unit := fun '(c, s) =>
  let '(r, (c, _)) := clientAuthenticate sessionID user auths (c, 0%nat) in (r, (c, s)).

Definition clientHandshake (config : ClientConfig) : setup unit :=
  let clientVersion := orDefault (cc_version config) in
  _ ← modS (put_versions clientVersion []);
  serverVersion ← exchange clientVersion;
  _ ← modS (put_versions clientVersion serverVersion);
  sessionID ← useTransport (newHandshake (mkHsConfig (cc_config config) serverVersion clientVersion [] (default supportedHostKeyAlgos (cc_HostKeyAlgorithms config))));
  _ ← awaitSession;
  _ ← modS (put_session sessionID);
  authenticateClient sessionID (cc_user config) (cc_auth config).

Definition failed (e : error) (nc : netConn) : outcome unit * (io * connection) :=
  (Fail e, (mkIo [] [] [], mkConnection None (closeNet nc) [] [] [] [] None)).

Definition NewClientConn (config : ClientConfig) (nc : netConn) : outcome unit * (io * connection) :=
  let fullConf := fullClientConf config in
  match cc_HostKeyCallback fullConf with
  | None => failed (errNew "ssh: must specify HostKeyCallback") nc
  | Some _ =>
      if bool_decide (Halt (cc_config fullConf) = None) then failed (errNew "ssh: config must provide Halt") nc
      else
        match newConnection nc (cc_config fullConf) with
        | Ret conn =>
            match clientHandshake fullConf (mkIo [] [] [], conn) with
            | (Ret _, (c, s)) => (Ret tt, (c, put_mux (newMux 0) s))
            | (Fail e, (c, s)) => (Fail (Errorf "ssh: handshake failed: %v" []), (c, put_net (closeNet (cn_net s)) s))
            | (Panic w, st) => (Panic w, st)
            end
        | Fail e => (Fail e, (mkIo [] [] [], mkConnection None nc [] [] [] [] None))
        | Panic w => (Panic w, (mkIo [] [] [], mkConnection None nc [] [] [] [] None))
        end
  end.

(** [Dial]; [dialed] is what [net.DialTimeout] returned. *)
Definition Dial (dialed : outcome netConn) (config : ClientConfig) : outcome unit * option (io * connection) :=
  match dialed with
  | Ret nc => let '(r, st) := NewClientConn config nc in (r, Some st)
  | Fail e => (Fail e, None)
  | Panic w => (Panic w, None)
  end.
End Setup.

(** [connection.Close]: the stop of the halter is Halter.v's. *)
Definition connection_Close (s : connection) : connection := put_net (closeNet (cn_net s)) s.

(** ** Host keys of a client *)

Definition InsecureIgnoreHostKey (hostname : bytes) (key : Keys.PublicKey) : option error := None.

(** [fixedHostKey.check]. *)
Definition fixedHostKey_check `{KeyLib} (fixed : option Keys.PublicKey) (hostname : bytes) (key : Keys.PublicKey) : outcome (option error) :=
  match fixed with
  | None => Ret (Some (errNew "ssh: required host key was nil"))
  | Some f =>
      let? a := pub_Marshal key in
      let? b := pub_Marshal f in
      Ret (if bool_decide (a = b) then None else Some (errNew "ssh: host key mismatch"))
  end.

Definition FixedHostKey `{KeyLib} (key : Keys.PublicKey) : bytes -> Keys.PublicKey -> outcome (option error) := fixedHostKey_check (Some key).

(** ** Requests that are discarded *)

(** One round of [DiscardRequests]: the requests left, and whether it goes on.  A closed Go
    channel is always ready, with a nil request; [pickStop] when a case that returns is taken. *)
Definition discardRound (stopped pickStop : bool) (q : gochan Request) : option (gochan Request * list Request * bool) :=
  match gq q with
  | req :: l =>
      if stopped && pickStop then Some (q, [], false)
      else Some (mkGochan l (gclosed q), if req_WantReply req then [req] else [], true)
  | [] =>
      if gclosed q && negb (stopped && pickStop) then Some (q, [], true)
      else if stopped then Some (q, [], false)
      else None
  end.

(** The loop, with the stop signal of every round; the requests that are refused.  [None] while
    it waits. *)
Fixpoint DiscardRequests (rounds : list (bool * bool)) (q : gochan Request) : option (gochan Request * list Request * bool) :=
  match rounds with
  | [] => Some (q, [], true)
  | (stopped, pickStop) :: rounds =>
      match discardRound stopped pickStop q with
      | Some (q, out, true) =>
          match DiscardRequests rounds q with
          | Some (q, out', goes) => Some (q, out ++ out', goes)
          | None => None
          end
      | r => r
      end
  end.
