(* ===== verification/SetupFacts.v ===== *)
(** * Setting up a connection: what a successful set-up means

    A server connection exists only for a user that was authenticated on this very
    session; a failure closes the network connection; a client and a server that are
    connected to each other both come up, with the same versions and session; host keys
    and host key checks are exact. *)

From S2P Require Import Prelude Text Wire Codec Messages Negotiate Channel Mux Cipher CipherFacts Transport TransportFacts Kex Handshake Auth AuthFacts Keys KeysFacts Setup.

(** ** Walking through the steps *)

Lemma readPacket_inv {S} (st : io * S) p st' : readPacket st = (Ret p, st') ->
  exists rs, io_in st.1 = Ret p :: rs /\ st' = (mkIo rs (io_errs st.1) (io_out st.1), st.2).
Proof.
  destruct st as [c s]. unfold readPacket, mbind, auth_bind, tryRead, lift. destruct (io_in c) as [|r rs] eqn:E; [done|].
  intros H. injection H as -> <-. by exists rs.
Qed.

Lemma lift_inv {S A} (m : outcome A) (st : io * S) a st' : lift m st = (Ret a, st') -> m = Ret a /\ st' = st.
Proof. intros H. by injection H. Qed.

Lemma exchange_inv v st them st' : exchange v st = (Ret them, st') ->
  exists w r, exchangeVersions v (net_out (cn_net st.2)) (net_in (cn_net st.2)) = Ret (them, w, r) /\
    st' = (st.1, put_net (mkNetConn r w (net_closed (cn_net st.2))) st.2).
Proof.
  destruct st as [c s]. unfold exchange. cbn [snd fst]. destruct (exchangeVersions _ _ _) as [[[them' w] r]|e|w]; [|done..].
  intros H. injection H as -> <-. by exists w, r.
Qed.

Lemma useTransport_inv t st id st' : useTransport t st = (Ret id, st') ->
  exists t', t = Some t' /\ id = ht_sessionID t' /\ st' = (ht_io t', st.2).
Proof. destruct st as [c s]. unfold useTransport. destruct t as [t|]; [|done]. intros H. injection H as <- <-. by exists t. Qed.

(** The first packet is the one that reports the key exchange. *)
Lemma awaitSession_inv st u st' : awaitSession st = (Ret u, st') ->
  exists p rs, io_in st.1 = Ret p :: rs /\ option_map b2z (head p) = Some msgNewKeys /\ st' = (mkIo rs (io_errs st.1) (io_out st.1), st.2).
Proof.
  intros H. apply bind_ret_inv in H as (p & st1 & Hp & H). apply readPacket_inv in Hp as (rs & E & ->).
  apply bind_ret_inv in H as (t & st2 & Ht & H). unfold packetType in Ht. destruct p as [|p0 p]; [done|]. injection Ht as <- <-.
  destruct (Z.eqb_spec (b2z p0) msgNewKeys) as [E0|]; [|done]. injection H as <- <-. exists (p0 :: p), rs. by rewrite <- E0.
Qed.

(** What a successful handshake of a server went through. *)
Lemma serverHandshake_inv hs libs cfg c s perms c' s' : serverHandshake hs libs cfg (c, s) = (Ret perms, (c', s')) ->
  sc_hostKeys cfg <> [] /\ noMethods (sc_auth cfg) = false /\
  exists t nk sp rest v,
    hs (mkHsConfig (sc_config cfg) (orDefault (sc_version cfg)) (cn_clientVersion s') (sc_hostKeys cfg) []) = Some t /\
    io_in (ht_io t) = Ret nk :: Ret sp :: rest /\ option_map b2z (head nk) = Some msgNewKeys /\
    unmarshalMsg serviceRequestMsg sp = Ret (mk_serviceRequestMsg serviceUserAuth) /\
    (exists c1, io_in c1 = rest /\ serverAuthenticate (sc_auth cfg) (serverEnvOf libs (ht_sessionID t)) c1 = (Ret perms, (c', v))) /\
    cn_user s' = sv_user v /\ cn_sessionID s' = ht_sessionID t /\ cn_serverVersion s' = orDefault (sc_version cfg) /\
    is_Some (cn_mux s') /\ net_closed (cn_net s') = net_closed (cn_net s).
Proof.
  unfold serverHandshake. destruct (decide (sc_hostKeys cfg = [])) as [->|Hk]; [by rewrite bool_decide_true|]. rewrite bool_decide_false by done.
  destruct (noMethods _) eqn:Em; [done|]. intros H. split; [done|]. split; [done|].
  apply bind_ret_inv in H as ([] & st1 & E1 & H). injection E1 as <-.
  apply bind_ret_inv in H as (cv & st2 & E2 & H). apply exchange_inv in E2 as (w & r & _ & ->). cbn [fst snd] in H.
  apply bind_ret_inv in H as ([] & st3 & E3 & H). injection E3 as <-.
  apply bind_ret_inv in H as (id & st4 & E4 & H). apply useTransport_inv in E4 as (t & Et & -> & ->). cbn [fst snd] in H.
  apply bind_ret_inv in H as ([] & st5 & E5 & H). apply awaitSession_inv in E5 as (nk & rs & Ein & Hnk & ->). cbn [fst snd] in H, Ein.
  apply bind_ret_inv in H as ([] & st6 & E6 & H). injection E6 as <-.
  apply bind_ret_inv in H as (sp & st7 & E7 & H). apply readPacket_inv in E7 as (rest & Ers & ->). cbn [fst snd io_in] in Ers, H.
  apply bind_ret_inv in H as (req & st8 & E8 & H). apply lift_inv in E8 as [Ereq ->].
  destruct (decide (serviceRequestMsg_Service req = serviceUserAuth)) as [Es|Es]; [|by rewrite bool_decide_false in H].
  rewrite bool_decide_true in H by done. cbn [negb] in H.
  apply bind_ret_inv in H as ([] & [c9 s9] & E9 & H).
  assert (H9 : io_in c9 = rest /\ s9 = put_session (ht_sessionID t) (put_versions cv (orDefault (sc_version cfg)) (put_net (mkNetConn r w (net_closed (cn_net s))) (put_versions [] (orDefault (sc_version cfg)) s)))).
  { apply bind_ret_inv in E9 as (p & st9 & Ep & E9). apply lift_inv in Ep as [_ ->]. unfold writePacket in E9. cbn [io_errs io_in io_out] in E9.
    destruct (io_errs (ht_io t)) as [|[e|] es]; [|done|]; injection E9 as <- <-; done. }
  destruct H9 as [Hin ->]. apply bind_ret_inv in H as (perms' & [c10 s10] & E10 & H). unfold authenticateServer in E10.
  destruct (serverAuthenticate _ _ c9) as [r' [c11 v]] eqn:Ea. injection E10 as -> <- <-.
  apply bind_ret_inv in H as ([] & st11 & E11 & H). injection E11 as <-. injection H as -> <- <-.
  exists t, nk, sp, rest, v. split; [exact Et|]. split; [by rewrite Ein, Ers|]. split; [done|].
  split; [destruct req; cbn in Es; by subst|]. split; [by exists c9|]. repeat split; done.
Qed.

(** What the steps of a handshake leave alone: nothing is closed, and there is no mux before the
    handshake has succeeded. *)
Definition unopened (s s' : connection) : Prop :=
  cn_mux s' = None /\ net_closed (cn_net s') = net_closed (cn_net s) /\ cn_halt s' = cn_halt s.

Definition fails_unopened {A} (m : setup A) : Prop := forall st, cn_mux st.2 = None -> unopened st.2 (m st).2.2.

Definition unopened_unless_ret {A} (m : setup A) : Prop := forall st, cn_mux st.2 = None ->
  match m st with
  | (Ret _, st') => net_closed (cn_net st'.2) = net_closed (cn_net st.2) /\ cn_halt st'.2 = cn_halt st.2
  | (_, st') => unopened st.2 st'.2
  end.

Lemma unopened_trans s1 s2 s3 : unopened s1 s2 -> unopened s2 s3 -> unopened s1 s3.
Proof. unfold unopened. intros (_ & H2 & H3) (H4 & H5 & H6). by rewrite H4, H5, H6, H2, H3. Qed.

Lemma unless_weaken {A} (m : setup A) : fails_unopened m -> unopened_unless_ret m.
Proof. intros H st Hs. specialize (H st Hs). destruct (m st) as [[] ?]; [apply H | done..]. Qed.

Lemma unless_bind {A B} (m : setup A) (k : A -> setup B) : fails_unopened m -> (forall a, unopened_unless_ret (k a)) -> unopened_unless_ret (m ≫= k).
Proof.
  intros Hm Hk st Hs. specialize (Hm st Hs). unfold mbind, auth_bind. destruct (m st) as [[a|e|w] st1]; [|done..]. cbn in Hm.
  specialize (Hk a st1 (proj1 Hm)). pose proof Hm as (_ & H2 & H3). destruct (k a st1) as [[b|e|w] st2]; [|by eapply unopened_trans..].
  by destruct Hk as [-> ->].
Qed.

Lemma fails_bind {A B} (m : setup A) (k : A -> setup B) : fails_unopened m -> (forall a, fails_unopened (k a)) -> fails_unopened (m ≫= k).
Proof.
  intros Hm Hk st Hs. specialize (Hm st Hs). unfold mbind, auth_bind. destruct (m st) as [[a|e|w] st1]; [|done..].
  cbn in Hm. eapply unopened_trans; [done|]. by apply Hk, Hm.
Qed.

Lemma fails_same {A} (m : setup A) : (forall st, (m st).2.2 = st.2) -> fails_unopened m.
Proof. intros Hm st Hs. by rewrite Hm. Qed.

Lemma fails_raise {A} e : fails_unopened (A := A) (raise e).
Proof. by apply fails_same. Qed.

Lemma fails_mod f : (forall s, cn_mux (f s) = cn_mux s /\ net_closed (cn_net (f s)) = net_closed (cn_net s) /\ cn_halt (f s) = cn_halt s) -> fails_unopened (modS f).
Proof. intros Hf [c s] Hs. cbn in *. destruct (Hf s) as (H1 & H2 & H3). split; [by rewrite H1 | done]. Qed.

Lemma fails_lift {A} (m : outcome A) : fails_unopened (lift m).
Proof. apply fails_same. intros [c s]. by destruct m. Qed.

Lemma fails_exchange v : fails_unopened (exchange v).
Proof. intros [c s] Hs. unfold exchange. by destruct (exchangeVersions _ _ _) as [[[? ?] ?]| |]. Qed.

Lemma fails_useTransport t : fails_unopened (useTransport t).
Proof. apply fails_same. intros [c s]. unfold useTransport. by destruct t. Qed.

Lemma fails_readPacket : fails_unopened readPacket.
Proof. apply fails_same. intros [c s]. unfold readPacket, mbind, auth_bind, tryRead, lift. by destruct (io_in c) as [|[p|e|w] rs]. Qed.

Lemma fails_writeMsg {T} `{SSHMessage T} (m : T) : fails_unopened (writeMsg m).
Proof. apply fails_same. intros [c s]. unfold writeMsg, mbind, auth_bind, lift. destruct (Marshal m); [|done..]. unfold writePacket. by destruct (io_errs c) as [|[e|] es]. Qed.

Lemma fails_await : fails_unopened awaitSession.
Proof.
  apply fails_bind; [apply fails_readPacket|]. intros p. apply fails_bind; [apply fails_same; intros [c s]; by destruct p|].
  intros t. destruct (_ =? _); [by apply fails_same | apply fails_raise].
Qed.

Lemma fails_authServer a env : fails_unopened (authenticateServer a env).
Proof. intros [c s] Hs. unfold authenticateServer. by destruct (serverAuthenticate a env c) as [[] [? ?]]. Qed.

Lemma fails_authClient id u auths : fails_unopened (authenticateClient id u auths).
Proof. intros [c s] Hs. unfold authenticateClient. by destruct (clientAuthenticate id u auths (c, 0%nat)) as [[] [? ?]]. Qed.

Create HintDb setup.
#[local] Hint Resolve fails_raise fails_lift fails_exchange fails_useTransport fails_readPacket fails_writeMsg fails_await fails_authServer fails_authClient : setup.
#[local] Hint Extern 1 (fails_unopened (modS _)) => apply fails_mod; done : setup.

Ltac walk_setup := repeat (apply unless_bind; [solve [auto with setup]|intros ?]).

Lemma serverHandshake_unopened hs libs cfg : unopened_unless_ret (serverHandshake hs libs cfg).
Proof.
  unfold serverHandshake. destruct (bool_decide _); [apply unless_weaken; auto with setup|].
  destruct (noMethods _); [apply unless_weaken; auto with setup|]. walk_setup.
  destruct (negb _); [apply unless_weaken; auto with setup|]. apply unless_bind; [auto with setup|]. intros _.
  apply unless_bind; [auto with setup|]. by intros perms [c s].
Qed.

Lemma clientHandshake_unopened hs cfg : unopened_unless_ret (clientHandshake hs cfg).
Proof. unfold clientHandshake. walk_setup. apply unless_weaken. auto with setup. Qed.

(** How a set-up ends: failed and closed, or up. *)
Definition ends {A} (nc : netConn) (r : outcome A * (io * connection)) : Prop :=
  match r with
  | (Ret _, (_, s)) => net_closed (cn_net s) = net_closed nc /\ is_Some (cn_mux s)
  | (Fail _, (_, s)) => net_closed (cn_net s) = true /\ cn_mux s = None
  | (Panic _, _) => True
  end.

Lemma server_result hs libs cfg nc : ends nc (NewServerConn hs libs cfg nc).
Proof.
  unfold NewServerConn, newConnection. cbn [fullServerConf sc_config SetDefaults Halt]. set (s0 := mkConnection _ _ _ _ _ _ _).
  pose proof (serverHandshake_unopened hs libs (fullServerConf cfg) (mkIo [] [] [], s0) eq_refl) as Hs.
  destruct (serverHandshake _ _ _ _) as [[perms|e|w] [c s]] eqn:E; [|split; [done | apply Hs] | done].
  apply serverHandshake_inv in E as (_ & _ & t & nk & sp & rest & v & E). split; [apply Hs | apply E].
Qed.

Lemma client_result hs cfg nc : ends nc (NewClientConn hs cfg nc).
Proof.
  unfold NewClientConn, newConnection. cbn [fullClientConf cc_config cc_HostKeyCallback SetDefaults Halt]. destruct (cc_HostKeyCallback cfg); [|done].
  rewrite bool_decide_false by done. set (s0 := mkConnection _ _ _ _ _ _ _).
  pose proof (clientHandshake_unopened hs (fullClientConf cfg) (mkIo [] [] [], s0) eq_refl) as Hs.
  destruct (clientHandshake _ _ _) as [[u|e|w] [c s]]; [split; [apply Hs | done] | split; [done | apply Hs] | done].
Qed.

(** ** A client and a server *)

(** A version line that can be sent. *)
Definition version_ok (v : bytes) : Prop := Forall (fun b => 32 <= b2z b) v /\ zlen v <= 253.

Lemma exchange_ok line them rest c s : version_ok line -> version_ok them -> w_fail (net_out (cn_net s)) = None ->
  net_in (cn_net s) = (them ++ [carriageReturn; newline]) ++ rest ->
  exchange line (c, s) = (Ret them, (c, put_net (mkNetConn rest (mkWriter (w_out (net_out (cn_net s)) ++ line ++ [carriageReturn; newline]) None) (net_closed (cn_net s))) s)).
Proof.
  intros [Hl _] [Ht Hz] Hw Hin. unfold exchange. by rewrite (exchangeVersions_ok line _ _ them rest) by (try done; rewrite Hin; by apply readVersion_line).
Qed.

(** The packet that reports the first key exchange. *)
Lemma awaitSession_ok rs out (s : connection) : awaitSession (mkIo (Ret [z2b msgNewKeys] :: rs) [] out, s) = (Ret tt, (mkIo rs [] out, s)).
Proof. reflexivity. Qed.

Lemma orDefault_self v : v <> [] -> orDefault v = v.
Proof. by destruct v. Qed.

(** A client whose transport delivers what its authentication needs. *)
Lemma client_up hs cfg cbk t sv nc rest rs out n :
  cc_HostKeyCallback cfg = Some cbk -> version_ok (orDefault (cc_version cfg)) -> version_ok sv ->
  net_in nc = (sv ++ [carriageReturn; newline]) ++ rest -> w_fail (net_out nc) = None ->
  hs (mkHsConfig (SetDefaults (cc_config cfg)) sv (orDefault (cc_version cfg)) [] (default supportedHostKeyAlgos (cc_HostKeyAlgorithms cfg))) = Some t ->
  ht_io t = mkIo (Ret [z2b msgNewKeys] :: rs) [] [] ->
  clientAuthenticate (ht_sessionID t) (cc_user cfg) (cc_auth cfg) (mkIo rs [] [], 0%nat) = (Ret tt, (mkIo [] [] out, n)) ->
  exists s, NewClientConn hs cfg nc = (Ret tt, (mkIo [] [] out, s)) /\ cn_clientVersion s = orDefault (cc_version cfg) /\ cn_serverVersion s = sv /\
    cn_sessionID s = ht_sessionID t /\ w_out (net_out (cn_net s)) = w_out (net_out nc) ++ orDefault (cc_version cfg) ++ [carriageReturn; newline].
Proof.
  intros Hcb Hv Hsv Hin Hw Ht Hio Ha. unfold NewClientConn, newConnection. cbn [fullClientConf cc_HostKeyCallback cc_config SetDefaults Halt]. rewrite Hcb. cbn iota.
  rewrite bool_decide_false by done.
  unfold clientHandshake. cbn [fullClientConf cc_version cc_config cc_HostKeyAlgorithms cc_user cc_auth]. unfold mbind, auth_bind. cbn [modS fst snd].
  rewrite (exchange_ok _ sv rest) by done. rewrite Ht. cbn [useTransport]. rewrite Hio, awaitSession_ok. unfold authenticateClient. cbn [fst snd]. rewrite Ha.
  eexists. split; [reflexivity | done].
Qed.

Lemma server_up hs libs cfg t cv nc rest rs perms out v cb :
  sc_hostKeys cfg <> [] -> PublicKeyCallback (sc_auth cfg) = Some cb -> version_ok cv -> version_ok (orDefault (sc_version cfg)) ->
  net_in nc = (cv ++ [carriageReturn; newline]) ++ rest -> w_fail (net_out nc) = None ->
  hs (mkHsConfig (SetDefaults (sc_config cfg)) (orDefault (sc_version cfg)) cv (sc_hostKeys cfg) []) = Some t ->
  ht_io t = mkIo (Ret [z2b msgNewKeys] :: Ret (enc (mk_serviceRequestMsg serviceUserAuth)) :: rs) [] [] ->
  serverAuthenticate (withDefaultTries (sc_auth cfg)) (serverEnvOf libs (ht_sessionID t)) (mkIo rs [] [enc (mk_serviceAcceptMsg serviceUserAuth)]) =
    (Ret perms, (mkIo [] [] out, v)) ->
  exists s, NewServerConn hs libs cfg nc = (Ret perms, (mkIo [] [] out, s)) /\ cn_user s = sv_user v /\ cn_clientVersion s = cv /\
    cn_serverVersion s = orDefault (sc_version cfg) /\ cn_sessionID s = ht_sessionID t /\
    w_out (net_out (cn_net s)) = w_out (net_out nc) ++ orDefault (sc_version cfg) ++ [carriageReturn; newline].
Proof.
  intros Hk Hcb Hcv Hv Hin Hw Ht Hio Ha. unfold NewServerConn, newConnection. cbn [fullServerConf sc_config SetDefaults Halt].
  unfold serverHandshake. cbn [fullServerConf sc_version sc_config sc_hostKeys sc_auth]. rewrite bool_decide_false by done.
  assert (noMethods (withDefaultTries (sc_auth cfg)) = false) as -> by (unfold noMethods; cbn; rewrite Hcb; by rewrite !andb_false_r).
  unfold mbind, auth_bind. cbn [modS fst snd]. rewrite (exchange_ok _ cv rest) by done. rewrite Ht. cbn [useTransport]. rewrite Hio, awaitSession_ok.
  cbn [fst snd]. unfold readPacket, mbind, auth_bind, tryRead, lift. cbn [io_in io_errs io_out].
  assert (unmarshalMsg serviceRequestMsg (enc (mk_serviceRequestMsg serviceUserAuth)) = Ret (mk_serviceRequestMsg serviceUserAuth)) as -> by (vm_compute; reflexivity).
  cbn [serviceRequestMsg_Service]. rewrite bool_decide_true by done. cbn [negb].
  rewrite (writeMsg_ok _ (enc (mk_serviceAcceptMsg serviceUserAuth))) by (by apply (enc_Marshal _ [6])). cbn [app]. unfold authenticateServer. cbn [fst snd]. rewrite Ha.
  eexists. split; [reflexivity | done].
Qed.

(** ** Host keys *)

(** [AddHostKey] keeps one key of each type, and replaces only that of its own. *)
Lemma AddHostKey_types key keys : NoDup (map sg_type keys) ->
  NoDup (map sg_type (AddHostKey key keys)) /\ (forall t, t ∈ map sg_type (AddHostKey key keys) <-> t = sg_type key \/ t ∈ map sg_type keys).
Proof.
  induction keys as [|k keys IH]; intros Hnd; [split; [apply NoDup_singleton | intros t; cbn; set_solver]|].
  cbn [map] in Hnd. apply NoDup_cons in Hnd as [Hn Hnd]. cbn [AddHostKey]. destruct (decide (sg_type k = sg_type key)) as [E|E].
  - rewrite bool_decide_true by done. cbn [map]. rewrite <- E. split; [by apply NoDup_cons | intros t; set_solver].
  - rewrite bool_decide_false by done. cbn [map]. destruct (IH Hnd) as [H1 H2]. split; [|intros t; rewrite !elem_of_cons, H2; tauto].
    apply NoDup_cons. split; [|done]. rewrite H2. intros [H|H]; done.
Qed.

Lemma choose_skip a keys h : alg_hostKey a ∉ map sg_type keys ->
  fold_left (fun h k => if bool_decide (alg_hostKey a = sg_type k) then Some k else h) keys h = h.
Proof.
  revert h. induction keys as [|k keys IH]; intros h Hn; [done|]. cbn [map] in Hn. apply not_elem_of_cons in Hn as [Hk Hn]. cbn [fold_left].
  rewrite bool_decide_false by done. by apply IH.
Qed.

(** The key that was added last for a type is the one the handshake signs with. *)
Lemma choose_added a key keys : NoDup (map sg_type keys) -> alg_hostKey a = sg_type key -> chooseHostKey a (AddHostKey key keys) = Some key.
Proof.
  intros Hnd Ha. unfold chooseHostKey. generalize (@None Signer). induction keys as [|k keys IH]; intros h; [cbn; by rewrite bool_decide_true|].
  cbn [map] in Hnd. apply NoDup_cons in Hnd as [Hn Hnd]. cbn [AddHostKey]. destruct (decide (sg_type k = sg_type key)) as [E|E].
  - rewrite bool_decide_true by done. cbn [fold_left]. rewrite (bool_decide_true (alg_hostKey a = sg_type key)) by done. apply choose_skip. by rewrite Ha, <- E.
  - rewrite bool_decide_false by done. cbn [fold_left]. by apply IH.
Qed.

Lemma choose_kept a key keys : alg_hostKey a <> sg_type key -> chooseHostKey a (AddHostKey key keys) = chooseHostKey a keys.
Proof.
  intros Ha. unfold chooseHostKey. generalize (@None Signer). induction keys as [|k keys IH]; intros h; [cbn; by rewrite bool_decide_false|].
  cbn [AddHostKey]. destruct (decide (sg_type k = sg_type key)) as [E|E].
  - rewrite bool_decide_true by done. cbn [fold_left]. by rewrite !bool_decide_false by congruence.
  - rewrite bool_decide_false by done. cbn [fold_left]. apply IH.
Qed.

(** ** Requests *)

(** Without a stop, every request is refused that asks for an answer. *)
Lemma discard_refuses reqs closed : DiscardRequests (replicate (length reqs) (false, false)) (mkGochan reqs closed) =
  Some (mkGochan [] closed, filter (fun r => req_WantReply r = true) reqs, true).
Proof.
  induction reqs as [|r reqs IH]; [done|]. cbn [length replicate DiscardRequests]. unfold discardRound. cbn [gq andb gclosed]. rewrite IH.
  destruct (req_WantReply r) eqn:E; [rewrite filter_cons_True by done | rewrite filter_cons_False by (by rewrite E)]; done.
Qed.

(** After its Go channel was closed the goroutine spins: it neither waits nor ends. *)
Lemma discard_spins n : DiscardRequests (replicate n (false, false)) (mkGochan [] true) = Some (mkGochan [] true, [], true).
Proof. induction n as [|n IH]; [done|]. cbn [replicate DiscardRequests]. unfold discardRound. cbn [gq andb gclosed negb]. by rewrite IH. Qed.

(** ** The claims *)

(** C5: A server connection is an authenticated one.  When [NewServerConn] returns
    a connection, the server had host keys, the handshake transport was made with the
    versions that were exchanged and the configuration with its defaults, its first packet
    reported the key exchange and the second asked for the authentication service, and the
    user of the connection was granted these permissions by a request that arrived after
    them and that satisfies the configuration for the session identifier of this very
    transport; the mux is only then started, and the connection is stopped through the
    halter of the configuration, or through a fresh one when it has none. *)
Theorem server_conn_authenticated hs libs cfg nc perms c s : NewServerConn hs libs cfg nc = (Ret perms, (c, s)) ->
  sc_hostKeys cfg <> [] /\ is_Some (cn_mux s) /\ cn_halt s = Some (default Fresh (Halt (sc_config cfg))) /\
  exists t nk sp rest req,
    hs (mkHsConfig (SetDefaults (sc_config cfg)) (cn_serverVersion s) (cn_clientVersion s) (sc_hostKeys cfg) []) = Some t /\
    io_in (ht_io t) = Ret nk :: Ret sp :: rest /\ option_map b2z (head nk) = Some msgNewKeys /\
    unmarshalMsg serviceRequestMsg sp = Ret (mk_serviceRequestMsg serviceUserAuth) /\
    arrived rest req /\ cn_user s = userAuthRequestMsg_User req /\ cn_sessionID s = ht_sessionID t /\
    grants (withDefaultTries (sc_auth cfg)) (serverEnvOf libs (ht_sessionID t)) req perms.
Proof.
  unfold NewServerConn, newConnection. cbn [fullServerConf sc_config SetDefaults Halt]. set (s0 := mkConnection _ _ _ _ _ _ _).
  pose proof (serverHandshake_unopened hs libs (fullServerConf cfg) (mkIo [] [] [], s0) eq_refl) as Hf.
  destruct (serverHandshake _ _ _ _) as [[perms'|e|w] [c' s']] eqn:E; [|done..]. intros H. injection H as -> -> ->.
  apply serverHandshake_inv in E as (Hk & _ & t & nk & sp & rest & v & Et & Ein & Hnk & Hsp & (c1 & Hc1 & Ha) & Hu & Hid & Hv & Hm & _).
  split; [done|]. split; [done|]. split; [apply Hf|]. rewrite <- Hv in Et.
  unfold serverAuthenticate in Ha. eapply (authLoop_sound _ _ _ (io_in c1)) in Ha; [|split_and!; [done | by constructor | done]].
  destruct Ha as (req & Harr & Hu' & Hg). rewrite Hc1 in Harr. exists t, nk, sp, rest, req. repeat split; try done. by rewrite Hu.
Qed.

(** C37: A failed set-up closes the network connection, on both sides and for every
    configuration (without a halter, without host keys, without a host key check, ...),
    and leaves no mux behind; a set-up that succeeds closes nothing and has a mux. *)
Theorem failed_setup_closes hs libs scfg ccfg nc :
  (forall e c s, NewServerConn hs libs scfg nc = (Fail e, (c, s)) -> net_closed (cn_net s) = true /\ cn_mux s = None) /\
  (forall e c s, NewClientConn hs ccfg nc = (Fail e, (c, s)) -> net_closed (cn_net s) = true /\ cn_mux s = None) /\
  (forall perms c s, NewServerConn hs libs scfg nc = (Ret perms, (c, s)) -> net_closed (cn_net s) = net_closed nc /\ is_Some (cn_mux s)) /\
  (forall u c s, NewClientConn hs ccfg nc = (Ret u, (c, s)) -> net_closed (cn_net s) = net_closed nc /\ is_Some (cn_mux s)).
Proof.
  pose proof (server_result hs libs scfg nc) as Hs. pose proof (client_result hs ccfg nc) as Hc.
  split_and!; intros ? ? ? H; first [rewrite H in Hs; exact Hs | rewrite H in Hc; exact Hc].
Qed.

(** C6: A client and a server that are connected to each other come up.  Each reads
    the version line that the other writes; their handshake transports, made with the same
    two versions, deliver to each end, after the key exchange, the packets that the other
    end writes.  Then, for a key that the server accepts and the client signs with,
    [NewClientConn] and [NewServerConn] both return, the server with the user's name and
    the permissions of the key; the packets that each writes are exactly those the other
    was assumed to read; and both ends have the same versions and session identifier. *)
Theorem login_end_to_end hsC hsS libs scfg ccfg cb cbk user signer key perms sign data sid restC restS ncC ncS :
  let cv := orDefault (cc_version ccfg) in
  let sv := orDefault (sc_version scfg) in
  let a := withDefaultTries (sc_auth scfg) in
  let requests := enc (mk_serviceRequestMsg serviceUserAuth) :: loginRequests user signer sign in
  let answers := enc (mk_serviceAcceptMsg serviceUserAuth) :: loginAnswers a signer in
  sc_hostKeys scfg <> [] -> cc_HostKeyCallback ccfg = Some cbk ->
  version_ok cv -> version_ok sv ->
  net_in ncC = (sv ++ [carriageReturn; newline]) ++ restC -> net_in ncS = (cv ++ [carriageReturn; newline]) ++ restS ->
  w_fail (net_out ncC) = None -> w_fail (net_out ncS) = None ->
  hsC (mkHsConfig (SetDefaults (cc_config ccfg)) sv cv [] (default supportedHostKeyAlgos (cc_HostKeyAlgorithms ccfg))) =
    Some (mkHsTransport sid (mkIo (map Ret ([z2b msgNewKeys] :: answers)) [] [])) ->
  hsS (mkHsConfig (SetDefaults (sc_config scfg)) sv cv (sc_hostKeys scfg) []) =
    Some (mkHsTransport sid (mkIo (map Ret ([z2b msgNewKeys] :: requests)) [] [])) ->
  cc_user ccfg = user -> cc_auth ccfg = [PublicKeyAuth (fun _ => Ret [signer])] ->
  PublicKeyCallback (sc_auth scfg) = Some cb -> NoClientAuth (sc_auth scfg) = false ->
  isAcceptableAlgo (sg_type signer) = true -> sl_ParsePublicKey libs (sg_public signer) = Ret key ->
  queryKey (serverEnvOf libs sid) cb user key = (perms, None) ->
  buildDataSignedForAuth sid (mk_userAuthRequestMsg user serviceSSH (str "publickey") []) (sg_type signer) (sg_public signer) = Ret data ->
  sg_sign signer data = Ret sign -> isAcceptableAlgo (Signature_Format sign) = true -> pk_Verify key data sign = Ret tt ->
  zlen user + zlen (sg_type signer) + zlen (sg_public signer) < 2 ^ 30 -> zlen (Signature_Format sign) + zlen (Signature_Blob sign) < 2 ^ 29 ->
  exists sC sS,
    NewClientConn hsC ccfg ncC = (Ret tt, (mkIo [] [] requests, sC)) /\
    NewServerConn hsS libs scfg ncS = (Ret perms, (mkIo [] [] answers, sS)) /\
    cn_user sS = user /\ cn_clientVersion sC = cn_clientVersion sS /\ cn_serverVersion sC = cn_serverVersion sS /\
    cn_sessionID sC = sid /\ cn_sessionID sS = sid /\
    w_out (net_out (cn_net sC)) = w_out (net_out ncC) ++ cv ++ [carriageReturn; newline] /\
    w_out (net_out (cn_net sS)) = w_out (net_out ncS) ++ sv ++ [carriageReturn; newline].
Proof.
  intros cv sv a requests answers Hk Hcbk Hcv Hsv HinC HinS HwC HwS HtC HtS Hu Hauth Hcb Hno Halg Hparse Hq Hdata Hsign Hfmt Hver Hz1 Hz2.
  destruct (client_up hsC ccfg cbk (mkHsTransport sid (mkIo (map Ret ([z2b msgNewKeys] :: answers)) [] [])) sv ncC restC (map Ret answers) requests 1)
    as (sC & EC & C1 & C2 & C3 & C4); try done.
  { rewrite Hu, Hauth. by eapply (login_client a (serverEnvOf libs sid)). }
  destruct (login_server a (serverEnvOf libs sid) cb user signer key perms sign data Hcb Hno Halg Hparse Hq Hdata Hsign Hfmt Hver Hz1 Hz2
              [enc (mk_serviceAcceptMsg serviceUserAuth)]) as (v & Hserver & Hv).
  destruct (server_up hsS libs scfg (mkHsTransport sid (mkIo (map Ret ([z2b msgNewKeys] :: requests)) [] [])) cv ncS restS
              (map Ret (loginRequests user signer sign)) perms answers v cb) as (sS & ES & S1 & S2 & S3 & S4 & S5); try done.
  exists sC, sS. split; [done|]. split; [done|]. rewrite C1, C2, C3, C4, S1, S2, S3, S4, S5. by repeat split.
Qed.

(** A server with one key for its users, and a client that has it. *)
Definition example_libs : serverLibs := mkServerLibs AddrNil (se_net loginEnv) (se_ParsePublicKey loginEnv).

Definition example_server : serverConfig := mkServerConf (mkConfig None 0 None None None None) [loginSigner] loginConfig [].

Definition example_client : ClientConfig :=
  mkClientConfig (mkConfig None 0 None None None (Some (Given 1))) (str "bob") [PublicKeyAuth (fun _ => Ret [loginSigner])] (Some (fun _ _ => None)) (str "SSH-2.0-client") None.

Definition example_requests : list bytes := enc (mk_serviceRequestMsg serviceUserAuth) :: loginRequests (str "bob") loginSigner loginSign.
Definition example_answers : list bytes := enc (mk_serviceAcceptMsg serviceUserAuth) :: loginAnswers loginConfig loginSigner.

Definition example_transport (packets : list bytes) (_ : hsConfig) : option hsTransport :=
  Some (mkHsTransport (str "session") (mkIo (map Ret ([z2b msgNewKeys] :: packets)) [] [])).

Definition example_net (line : bytes) : netConn := mkNetConn (line ++ [carriageReturn; newline]) (mkWriter [] None) false.

Lemma login_end_to_end_witness : exists sC sS,
  NewClientConn (example_transport example_answers) example_client (example_net packageVersion) = (Ret tt, (mkIo [] [] example_requests, sC)) /\
  NewServerConn (example_transport example_requests) example_libs example_server (example_net (str "SSH-2.0-client")) =
    (Ret (Some loginPerms), (mkIo [] [] example_answers, sS)) /\
  cn_user sS = str "bob" /\ cn_clientVersion sC = cn_clientVersion sS.
Proof.
  destruct (login_end_to_end (example_transport example_answers) (example_transport example_requests) example_libs example_server example_client
    (fun u k => if bool_decide (u = str "bob" /\ pk_Marshal k = str "key") then (Some loginPerms, None) else (None, Some (errNew "denied")))
    (fun _ _ => None) (str "bob") loginSigner loginKey (Some loginPerms) loginSign loginData (str "session") [] []
    (example_net packageVersion) (example_net (str "SSH-2.0-client"))) as (sC & sS & H1 & H2 & H3 & H4 & _).
  - discriminate.
  - reflexivity.
  - split; [repeat (constructor; [decide_vm|]); constructor | decide_vm].
  - split; [repeat (constructor; [decide_vm|]); constructor | decide_vm].
  - reflexivity.
  - reflexivity.
  - reflexivity.
  - reflexivity.
  - reflexivity.
  - reflexivity.
  - reflexivity.
  - reflexivity.
  - reflexivity.
  - reflexivity.
  - vm_compute; reflexivity.
  - vm_compute; reflexivity.
  - vm_compute; reflexivity.
  - vm_compute; reflexivity.
  - vm_compute; reflexivity.
  - vm_compute; reflexivity.
  - vm_compute; reflexivity.
  - vm_compute; reflexivity.
  - vm_compute; reflexivity.
  - exists sC, sS. split; [exact H1|]. split; [exact H2|]. split; [exact H3 | exact H4].
Defined.

Lemma server_conn_authenticated_witness : exists s req,
  NewServerConn (example_transport example_requests) example_libs example_server (example_net (str "SSH-2.0-client")) =
    (Ret (Some loginPerms), (mkIo [] [] example_answers, s)) /\
  cn_user s = userAuthRequestMsg_User req /\ grants loginConfig (serverEnvOf example_libs (str "session")) req (Some loginPerms).
Proof.
  destruct (NewServerConn (example_transport example_requests) example_libs example_server (example_net (str "SSH-2.0-client"))) as [r [c s]] eqn:E.
  assert (Hr : (r, c) = (Ret (Some loginPerms), mkIo [] [] example_answers)) by (vm_compute in E; injection E as <- <- _; vm_compute; reflexivity).
  injection Hr as -> ->. destruct (server_conn_authenticated _ _ _ _ _ _ _ E) as (_ & _ & _ & t & nk & sp & rest & req & Ht & _ & _ & _ & _ & Hu & _ & Hg).
  exists s, req. split; [reflexivity|]. split; [exact Hu|]. unfold example_transport in Ht. injection Ht as <-. exact Hg.
Defined.

(** The fixed host key is the only one that is accepted.  For two well-formed
    keys (certificates included), the callback of [FixedHostKey] accepts the second
    exactly when it is the first. *)
Theorem fixed_host_key_exact `{KeyLib} (k k' : Keys.PublicKey) p p' host :
  key_wf k -> key_fits k -> pub_Marshal k = Ret p -> zlen p < 2 ^ 32 ->
  key_wf k' -> key_fits k' -> pub_Marshal k' = Ret p' -> zlen p' < 2 ^ 32 ->
  FixedHostKey k host k' = Ret None <-> k' = k.
Proof.
  intros W1 F1 M1 L1 W2 F2 M2 L2. unfold FixedHostKey, fixedHostKey_check. rewrite M2, M1. cbn [obind].
  destruct (decide (p' = p)) as [->|Hne].
  - rewrite bool_decide_true by done. split; [|done]. intros _. assert (E1 := parsePublicKey_enc k p _ W1 F1 M1 L1 (Nat.le_refl _)).
    assert (E2 := parsePublicKey_enc k' p _ W2 F2 M2 L2 (Nat.le_refl _)). congruence.
  - rewrite bool_decide_false by done. split; [done|]. intros ->. congruence.
Qed.

Lemma fixed_host_key_exact_witness :
  let k b := ed25519PublicKey (repeat b 32) in
  @FixedHostKey toyKeyLib (k x01) [] (k x02) = Ret None <-> k x02 = k x01.
Proof.
  cbv zeta. eapply (@fixed_host_key_exact toyKeyLib (ed25519PublicKey (repeat x01 32)) (ed25519PublicKey (repeat x02 32)));
    [| | vm_compute; reflexivity | vm_compute; reflexivity | | | vm_compute; reflexivity | vm_compute; reflexivity].
  - vm_compute. done.
  - exact I.
  - vm_compute. done.
  - exact I.
Defined.

(** The host key that was added last for its type is the one a handshake uses.
    Starting from one key per type, [AddHostKey] keeps one key per type; when the agreed
    algorithm is the new key's type the handshake signs with the new key, and for any
    other type with the same key as before. *)
Theorem added_host_key_used a key keys : NoDup (map sg_type keys) ->
  NoDup (map sg_type (AddHostKey key keys)) /\
  chooseHostKey a (AddHostKey key keys) = if decide (alg_hostKey a = sg_type key) then Some key else chooseHostKey a keys.
Proof.
  intros Hnd. split; [by apply AddHostKey_types|]. destruct (decide _) as [E|E]; [by apply choose_added | by apply choose_kept].
Qed.

Definition oldKey : Signer := mkSigner (str "old") KeyAlgoED25519 (fun _ => Fail EOF).

Definition agreedEd25519 : algorithms := Algorithms [] KeyAlgoED25519 (DirectionAlgorithms [] [] []) (DirectionAlgorithms [] [] []).

Lemma added_host_key_used_witness : chooseHostKey agreedEd25519 (AddHostKey loginSigner [oldKey]) = Some loginSigner.
Proof.
  destruct (added_host_key_used agreedEd25519 loginSigner [oldKey]) as [_ ->]; [apply NoDup_singleton|]. by rewrite decide_True.
Defined.
