(* ===== verification/AgentForward.v ===== *)
(** * Agent forwarding (agent/forward.go)

    The channels that a peer opens to reach the agent: [ForwardToAgent] serves them with an
    [Agent] of this process, [ForwardToRemote] copies between them and the socket of another.
    Both are goroutines beside those of the client, whose world (Client.v) they share; a step
    is what one of them does between two points where it can wait, but for a turn of
    [ServeAgent], which is one step with its read and its write ([turnStep]). *)

From S2P Require Import Prelude Text Wire Codec Messages Negotiate Halter Idle Window Buffer Channel Mux Kex Keys Signers KeyFiles Agent AgentWire Session Forward Client.

Definition channelType : bytes := str "auth-agent@openssh.com".

Definition RequestAgentForwarding {Ch : Type} {SC : SessionChannel Ch} : stm (Session Ch) (option error) :=
  mustSucceed "auth-agent-req@openssh.com" [] (errNew "forwarding request denied").

Definition haveHandler : error := errNew "agent: already have handler for auth-agent@openssh.com".

(** ** The socket of another agent *)

(** A goroutine that copies: in [io.Copy]; after it, with the error it returned; after
    [CloseWrite]; after [wg.Done]. *)
Inductive copier := Copying | Copied (err : option error) | HalfClosed (err : option error) | CopierGone (err : option error).

(** [forwardUnixSocket]: before [net.Dial], at [wg.Wait], before each [Close], returned (without
    a connection, when there was none). *)
Inductive socketPC := RelayDial | RelayWait | RelayCloseConn | RelayCloseChannel | RelayReturned (connected : bool).

(** What is done to an end. *)
Inductive call := CallWrite (data : bytes) | CallCloseWrite | CallClose.

(** The direction [true] is from the channel to the socket.  [rl_read] and [rl_eof] are what was
    read in each direction and whether its end was seen, [rl_calls] what was done to the
    destination of each. *)
Record relay := mkRelay {
  rl_pc : socketPC;
  rl_wg : Z;
  rl_copiers : bool -> copier;
  rl_read : bool -> bytes;
  rl_eof : bool -> bool;
  rl_calls : bool -> list call;
  rl_crashed : bool
}.

Definition newRelay : relay := mkRelay RelayDial 0 (fun _ => Copying) (fun _ => []) (fun _ => false) (fun _ => []) false.

Definition with_pc (pc : socketPC) (r : relay) : relay :=
  mkRelay pc (rl_wg r) (rl_copiers r) (rl_read r) (rl_eof r) (rl_calls r) (rl_crashed r).
Definition with_half (d : bool) (c : copier) (r : relay) : relay :=
  mkRelay (rl_pc r) (rl_wg r) (put_stream (rl_copiers r) d c) (rl_read r) (rl_eof r) (rl_calls r) (rl_crashed r).
Definition with_call (d : bool) (c : call) (r : relay) : relay :=
  mkRelay (rl_pc r) (rl_wg r) (rl_copiers r) (rl_read r) (rl_eof r) (put_stream (rl_calls r) d (rl_calls r d ++ [c])) (rl_crashed r).
Definition with_input (d : bool) (data : bytes) (er : option error) (r : relay) : relay :=
  mkRelay (rl_pc r) (rl_wg r) (rl_copiers r) (put_stream (rl_read r) d (rl_read r d ++ data))
    (put_stream (rl_eof r) d (rl_eof r d || bool_decide (er = Some EOF))) (rl_calls r) (rl_crashed r).

(** [wg.Add], which panics when the counter becomes negative. *)
Definition wgAdd (n : Z) (r : relay) : relay :=
  mkRelay (rl_pc r) (rl_wg r + n) (rl_copiers r) (rl_read r) (rl_eof r) (rl_calls r) (rl_crashed r || (rl_wg r + n <? 0)).

Inductive relayEvent :=
| RvDial (err : option error)
| RvRound (d : bool) (data : bytes) (er : option error) (nw : Z) (ew : option error)
| RvCloseWrite (d : bool)
| RvDone (d : bool)
| RvWait
| RvClose.

(** The goroutines that copy exist once the socket is connected. *)
Definition spawned (r : relay) : bool := match rl_pc r with RelayDial | RelayReturned false => false | _ => true end.

(** A round of [io.Copy]: a read, and a write of what was read. *)
Definition relayRound (d : bool) (data : bytes) (er : option error) (nw : Z) (ew : option error) (r : relay) : relay :=
  let r := with_input d data er r in
  let r := match data with [] => r | _ => with_call d (CallWrite (ztake nw data)) r end in
  match copyRound data er nw ew with
  | Some err => with_half d (Copied err) r
  | None => r
  end.

Definition forwardUnixSocket (e : relayEvent) (r : relay) : option relay :=
  if rl_crashed r then None
  else match e with
  | RvDial err =>
      match rl_pc r, err with
      | RelayDial, Some _ => Some (with_pc (RelayReturned false) r)
      | RelayDial, None => Some (with_pc RelayWait (wgAdd 2 r))
      | _, _ => None
      end
  | RvRound d data er nw ew =>
      match spawned r, rl_copiers r d with
      | true, Copying => Some (relayRound d data er nw ew r)
      | _, _ => None
      end
  | RvCloseWrite d =>
      match spawned r, rl_copiers r d with
      | true, Copied err => Some (with_half d (HalfClosed err) (with_call d CallCloseWrite r))
      | _, _ => None
      end
  | RvDone d =>
      match spawned r, rl_copiers r d with
      | true, HalfClosed err => Some (with_half d (CopierGone err) (wgAdd (-1) r))
      | _, _ => None
      end
  | RvWait => match rl_pc r with RelayWait => if rl_wg r =? 0 then Some (with_pc RelayCloseConn r) else None | _ => None end
  | RvClose =>
      match rl_pc r with
      | RelayCloseConn => Some (with_pc RelayCloseChannel (with_call true CallClose r))
      | RelayCloseChannel => Some (with_pc (RelayReturned true) (with_call false CallClose r))
      | _ => None
      end
  end.

Fixpoint relays (es : list relayEvent) (r : relay) : option relay :=
  match es with
  | [] => Some r
  | e :: es => match forwardUnixSocket e r with Some r => relays es r | None => None end
  end.

(** ** The goroutine that takes the channels *)

(** A channel it took: one that could not be accepted, one that is served, one that the server
    left and that is then closed, one whose bytes are relayed. *)
Inductive service (C : Type) :=
| NotAccepted
| Serving (c : C)
| Closing (c : C) (err : error)
| Closed (c : C) (err : error)
| Relaying (r : relay).
Arguments NotAccepted {C}.
Arguments Serving {C} _.
Arguments Closing {C} _ _.
Arguments Closed {C} _ _.
Arguments Relaying {C} _.

(** The two functions that register the goroutine. *)
Inductive target := ToAgent | ToRemote.

(** The world of the client and of the forwarding; [fd_started] is whether the goroutine ranges
    over the channels, and for which function. *)
Record forwarding (M T C : Type) := mkForwarding {
  fd_world : Client.world M;
  fd_agent : T;
  fd_started : option target;
  fd_services : list (NewChannel * service C);
  fd_panicked : bool
}.
Arguments mkForwarding {M T C} _ _ _ _ _.
Arguments fd_world {M T C} _.
Arguments fd_agent {M T C} _.
Arguments fd_started {M T C} _.
Arguments fd_services {M T C} _.
Arguments fd_panicked {M T C} _.

Inductive forwardEvent (M : Type) :=
| FvClient (e : Client.event M)
| FvStart (t : target) (dialed : option error)
| FvAccept
| FvArrive (i : nat) (data : bytes)
| FvTurn (i : nat) (e : env)
| FvClose (i : nat)
| FvRelay (i : nat) (e : relayEvent).
Arguments FvClient {M} _.
Arguments FvStart {M} _ _.
Arguments FvAccept {M}.
Arguments FvArrive {M} _ _.
Arguments FvTurn {M} _ _.
Arguments FvClose {M} _.
Arguments FvRelay {M} _ _.

Section Forwarding.
Context {M : Type} {FC : ForwardConn M} {IP : IPLib} {ET : ErrText}.
Context `{KeyLib, RSALib} {T : Type} `{Agent T} {C : Type} `{Conn C}.

(** The end of a channel that has just been accepted, what arrives on it, and [Close] of a
    channel, whose result is not used. *)
Variable opened : C.
Variable arrive : bytes -> C -> C.
Variable close : nat -> stm M (option error).
Notation "'forwarding'" := (forwarding M T C).

(** [ForwardToAgent] and [ForwardToRemote]: their result and the Go channel they were given.
    The second dials the socket once, to see whether somebody answers. *)
Definition ForwardToAgent : stm (Client M) (option error * inChan) :=
  bind (HandleChannelOpen channelType) (fun channels =>
  ret (match channels with InNil => Some haveHandler | _ => None end, channels)).

Definition ForwardToRemote (dialed : option error) : stm (Client M) (option error * inChan) :=
  bind (HandleChannelOpen channelType) (fun channels =>
  ret (match channels with InNil => Some haveHandler | _ => dialed end, channels)).

Definition with_world (w : Client.world M) (f : forwarding) : forwarding :=
  mkForwarding w (fd_agent f) (fd_started f) (fd_services f) (fd_panicked f).
Definition with_agent (a : T) (f : forwarding) : forwarding :=
  mkForwarding (fd_world f) a (fd_started f) (fd_services f) (fd_panicked f).
Definition with_started (t : option target) (f : forwarding) : forwarding :=
  mkForwarding (fd_world f) (fd_agent f) t (fd_services f) (fd_panicked f).
Definition with_services (l : list (NewChannel * service C)) (f : forwarding) : forwarding :=
  mkForwarding (fd_world f) (fd_agent f) (fd_started f) l (fd_panicked f).
Definition with_service (i : nat) (ch : NewChannel) (s : service C) (f : forwarding) : forwarding :=
  with_services (<[i := (ch, s)]> (fd_services f)) f.
Definition panicked (f : forwarding) : forwarding :=
  mkForwarding (fd_world f) (fd_agent f) (fd_started f) (fd_services f) true.

(** A call of one of the two, by a caller that has the client; its goroutine ranges over the
    channels when there is no error. *)
Definition startStep (t : target) (dialed : option error) (f : forwarding) : option forwarding :=
  match wl_crashed (fd_world f), wl_starting (fd_world f) with Some _, _ | _, _ :: _ => None | None, [] =>
  match (match t with ToAgent => ForwardToAgent | ToRemote => ForwardToRemote dialed end) (wl_client (fd_world f)) with
  | Done (err, ic) c =>
      let w := with_client c (fd_world f) in
      Some (match ic, err with
            | InOf _, None => with_started (Some t) (with_world (with_user (wl_user w ++ [channelType]) w) f)
            | InOf _, Some _ => with_world (with_user (wl_user w ++ [channelType]) w) f
            | _, _ => with_world w f
            end)
  | Blocked _ => None
  | Crash _ => Some (panicked f)
  end end.

(** What the goroutine starts for a channel. *)
Definition startService (t : target) : service C := match t with ToAgent => Serving opened | ToRemote => Relaying newRelay end.

(** A round of the [range]: the next channel, and [Accept]. *)
Definition acceptStep (f : forwarding) : option forwarding :=
  match fd_started f, takeHandler channelType (wl_client (fd_world f)) with
  | Some t, Some (ch, c) =>
      let w := met ch Handled (with_client c (fd_world f)) in
      match fc_Accept (nc_id ch) (cl_conn c) with
      | Done err m =>
          let s := match err with Some _ => NotAccepted | None => startService t end in
          Some (with_services (fd_services f ++ [(ch, s)]) (with_world (with_client (set_conn m c) w) f))
      | Blocked _ => None
      | Crash _ => Some (panicked f)
      end
  | _, _ => None
  end.

(** A turn of [ServeAgent] on a channel: the read of a request, the call of the agent and the
    write of its reply are one step.  Only the agent is shared with the other goroutines, and a
    turn calls it at most once; what is between its read and its write is seen by nobody else.
    [serveRequest] (AgentWire.v) has the failure of each of the three; the claims below take
    the byte queues of [buffer] for the channels, whose writes do not fail. *)
Definition turnStep (i : nat) (e : env) (f : forwarding) : option forwarding :=
  match fd_services f !! i with
  | Some (ch, Serving c) =>
      match serveRequest e (fd_agent f, c) with
      | (Ret _, (a, c)) => Some (with_service i ch (Serving c) (with_agent a f))
      | (Fail err, (a, c)) => Some (with_service i ch (Closing c err) (with_agent a f))
      | (Panic _, (a, _)) => Some (panicked (with_agent a f))
      end
  | _ => None
  end.

(** [channel.Close] after [ServeAgent] has returned. *)
Definition closeStep (i : nat) (f : forwarding) : option forwarding :=
  match fd_services f !! i with
  | Some (ch, Closing c err) =>
      match close (nc_id ch) (cl_conn (wl_client (fd_world f))) with
      | Done _ m => Some (with_service i ch (Closed c err) (with_world (with_client (set_conn m (wl_client (fd_world f))) (fd_world f)) f))
      | Blocked _ => None
      | Crash _ => Some (panicked f)
      end
  | _ => None
  end.

(** The channels of the agent are the goroutine's, not another caller's. *)
Definition ours (e : Client.event M) : bool :=
  match e with EvUserTake typ => bool_decide (typ = channelType) | _ => false end.

Definition forwardStep (e : forwardEvent M) (f : forwarding) : option forwarding :=
  match fd_panicked f, wl_crashed (fd_world f) with true, _ | _, Some _ => None | false, None =>
  match e with
  | FvClient e => if ours e then None else match step e (fd_world f) with Some w => Some (with_world w f) | None => None end
  | FvStart t dialed => startStep t dialed f
  | FvAccept => acceptStep f
  | FvArrive i data =>
      match fd_services f !! i with
      | Some (ch, Serving c) => Some (with_service i ch (Serving (arrive data c)) f)
      | _ => None
      end
  | FvTurn i e => turnStep i e f
  | FvClose i => closeStep i f
  | FvRelay i e =>
      match fd_services f !! i with
      | Some (ch, Relaying r) => match forwardUnixSocket e r with Some r => Some (with_service i ch (Relaying r) f) | None => None end
      | _ => None
      end
  end end.

Fixpoint forwardSteps (es : list (forwardEvent M)) (f : forwarding) : option forwarding :=
  match es with
  | [] => Some f
  | e :: es => match forwardStep e f with Some f => forwardSteps es f | None => None end
  end.

Definition startForwarding (conn : M) (agent : T) : forwarding := mkForwarding (start_world conn) agent None [] false.
End Forwarding.
