(* ===== verification/AgentForwardFacts.v ===== *)
(** * Facts about agent forwarding

    The relay between a channel and a socket, the servers of the forwarded channels over one
    agent, and what is left behind when the socket cannot be reached. *)

From S2P Require Import Prelude Text Wire Codec Messages Negotiate Halter Idle Window Buffer Channel Mux Kex Keys KeysFacts Signers Certs CertsFacts KeyFiles Agent AgentWire AgentFacts AgentWireFacts Session SessionFacts Forward ForwardFacts Client ClientFacts AgentForward.

(** ** The relay *)

(** The end of the calls to a destination: what follows the writes. *)
Definition tailOf (c : copier) (closed : bool) : list call :=
  match c with
  | Copying | Copied _ => []
  | HalfClosed _ => [CallCloseWrite]
  | CopierGone _ => CallCloseWrite :: if closed then [CallClose] else []
  end.

(** The socket is closed before the channel. *)
Definition closedEnd (pc : socketPC) (d : bool) : bool :=
  match pc with
  | RelayCloseChannel => d
  | RelayReturned connected => connected
  | _ => false
  end.

(** The copy has ended, with this error. *)
Definition copyResult (c : copier) : option (option error) :=
  match c with Copying => None | Copied err | HalfClosed err | CopierGone err => Some err end.

Definition isGone (c : copier) : bool := match c with CopierGone _ => true | _ => false end.

(** One direction: the writes are the beginning of what was read, and all of it unless a copy
    failed; then the end is passed on, and the destination closed at the end. *)
Definition directionOk (calls : list call) (c : copier) (read : bytes) (eof closed : bool) : Prop :=
  exists ws, calls = map CallWrite ws ++ tailOf c closed /\ concat ws `prefix_of` read /\
    (copyResult c = None \/ copyResult c = Some None -> concat ws = read) /\ (copyResult c = Some None -> eof = true).

Definition live (c : copier) : Z := if isGone c then 0 else 1.

(** The state of the main goroutine: no copier before it is connected, none when it closes. *)
Definition mainInv (pc : socketPC) (wg : Z) (cs : bool -> copier) : Prop :=
  match pc with
  | RelayDial | RelayReturned false => wg = 0 /\ forall d, cs d = Copying
  | RelayWait => wg = live (cs true) + live (cs false)
  | _ => wg = 0 /\ forall d, isGone (cs d) = true
  end.

Definition relayInv (r : relay) : Prop :=
  rl_crashed r = false /\
  (forall d, directionOk (rl_calls r d) (rl_copiers r d) (rl_read r d) (rl_eof r d) (closedEnd (rl_pc r) d)) /\
  mainInv (rl_pc r) (rl_wg r) (rl_copiers r).

Lemma put_stream_same {A} (f : bool -> A) d v : put_stream f d v d = v.
Proof. unfold put_stream. by rewrite eqb_reflx. Qed.

Lemma put_stream_other {A} (f : bool -> A) d d' v : d' <> d -> put_stream f d v d' = f d'.
Proof. intros Hne. unfold put_stream. by destruct d, d'. Qed.

(** A step that changes one direction only. *)
Lemma direction_step (r r' : relay) d :
  (forall d, directionOk (rl_calls r d) (rl_copiers r d) (rl_read r d) (rl_eof r d) (closedEnd (rl_pc r) d)) ->
  rl_pc r' = rl_pc r -> (forall d', d' <> d -> rl_calls r' d' = rl_calls r d' /\ rl_copiers r' d' = rl_copiers r d' /\ rl_read r' d' = rl_read r d' /\ rl_eof r' d' = rl_eof r d') ->
  directionOk (rl_calls r' d) (rl_copiers r' d) (rl_read r' d) (rl_eof r' d) (closedEnd (rl_pc r') d) ->
  forall d, directionOk (rl_calls r' d) (rl_copiers r' d) (rl_read r' d) (rl_eof r' d) (closedEnd (rl_pc r') d).
Proof.
  intros Hr Hpc Ho Hd d'. destruct (decide (d' = d)) as [->|Hne]; [done|]. destruct (Ho d' Hne) as (-> & -> & -> & ->). rewrite Hpc. apply Hr.
Qed.

Lemma live_bounds c : 0 <= live c <= 1.
Proof. unfold live. destruct (isGone c); lia. Qed.

Lemma live_other r d c : live (put_stream (rl_copiers r) d c true) + live (put_stream (rl_copiers r) d c false) =
  live (rl_copiers r true) + live (rl_copiers r false) - live (rl_copiers r d) + live c.
Proof. unfold put_stream. destruct d; cbn [Bool.eqb]; lia. Qed.

Lemma main_copier r d c : mainInv (rl_pc r) (rl_wg r) (rl_copiers r) -> spawned r = true -> isGone (rl_copiers r d) = false ->
  rl_pc r = RelayWait /\ 1 <= rl_wg r /\ mainInv (rl_pc r) (rl_wg r - 1 + live c) (put_stream (rl_copiers r) d c).
Proof.
  unfold mainInv, spawned. intros Hm Hs Hg. destruct (rl_pc r) as [| | | |[]]; try done; try (by rewrite (proj2 Hm) in Hg).
  rewrite live_other. assert (Hl : live (rl_copiers r d) = 1) by (unfold live; by rewrite Hg).
  pose proof (live_bounds (rl_copiers r true)). pose proof (live_bounds (rl_copiers r false)). split; [done|]. split; [destruct d|]; lia.
Qed.

(** What a round does to its own direction. *)
Lemma round_fields d data er nw ew r (r' := relayRound d data er nw ew r) :
  rl_pc r' = rl_pc r /\ rl_wg r' = rl_wg r /\ rl_crashed r' = rl_crashed r /\
  rl_copiers r' = match copyRound data er nw ew with Some err => put_stream (rl_copiers r) d (Copied err) | None => rl_copiers r end /\
  rl_read r' = put_stream (rl_read r) d (rl_read r d ++ data) /\
  rl_eof r' = put_stream (rl_eof r) d (rl_eof r d || bool_decide (er = Some EOF)) /\
  rl_calls r' = match data with [] => rl_calls r | _ => put_stream (rl_calls r) d (rl_calls r d ++ [CallWrite (ztake nw data)]) end.
Proof. unfold r', relayRound. destruct (copyRound data er nw ew), data; done. Qed.

Lemma round_direction r d data er nw ew (r' := relayRound d data er nw ew r) :
  directionOk (rl_calls r d) (rl_copiers r d) (rl_read r d) (rl_eof r d) (closedEnd (rl_pc r) d) -> rl_copiers r d = Copying ->
  directionOk (rl_calls r' d) (rl_copiers r' d) (rl_read r' d) (rl_eof r' d) (closedEnd (rl_pc r') d).
Proof.
  intros (ws & Hcalls & _ & Hall & _) Hc. rewrite Hc in *. cbn [tailOf copyResult] in *. rewrite app_nil_r in Hcalls.
  specialize (Hall (or_introl eq_refl)). destruct (copyRound_spec data er nw ew _ eq_refl) as [Hpiece Heof].
  destruct (round_fields d data er nw ew r) as (_ & _ & _ & Ec & Er & Ee & Ecalls). fold r' in Ec, Er, Ee, Ecalls. rewrite Er, Ee.
  set (ws' := match data with [] => ws | _ => ws ++ [ztake nw data] end).
  assert (Hws : concat ws' = rl_read r d ++ ztake nw data).
  { unfold ws'. destruct data; [|by rewrite concat_app, Hall; cbn; rewrite app_nil_r]. unfold ztake. by rewrite take_nil, app_nil_r. }
  assert (Hc' : rl_copiers r' d = match copyRound data er nw ew with Some err => Copied err | None => Copying end).
  { rewrite Ec. destruct (copyRound _ _ _ _); [apply put_stream_same|done]. }
  exists ws'. rewrite !put_stream_same, Hc', Hws. split_and!.
  - rewrite Ecalls. unfold ws'. destruct (copyRound data er nw ew), data; cbn [tailOf]; rewrite ?put_stream_same, ?app_nil_r, ?map_app, Hcalls; done.
  - apply prefix_app, prefix_take.
  - intros Hr. rewrite Hpiece; [done|]. destruct (copyRound data er nw ew); cbn in Hr; naive_solver.
  - intros Hr. rewrite Heof; [by rewrite bool_decide_true, orb_true_r by done|]. by destruct (copyRound data er nw ew).
Qed.

Lemma round_inv r d data er nw ew : relayInv r -> spawned r = true -> rl_copiers r d = Copying -> relayInv (relayRound d data er nw ew r).
Proof.
  intros (Hx & Hd & Hm) Hs Hc. pose proof (round_direction r d data er nw ew (Hd d) Hc) as Hround.
  destruct (round_fields d data er nw ew r) as (Epc & Ewg & Ex & Ec & Er & Ee & Ecalls). split; [congruence|]. split.
  - apply (direction_step r _ d); [done..| |done]. intros d' Hne. rewrite Ec, Er, Ee, Ecalls, !put_stream_other by done.
    split_and!; [by destruct data; [|rewrite put_stream_other] | | done..]. by destruct (copyRound _ _ _ _); [rewrite put_stream_other|].
  - rewrite Epc, Ewg, Ec. destruct (copyRound data er nw ew) as [err|]; [|done].
    destruct (main_copier r d (Copied err) Hm Hs) as (_ & _ & Hm'); [by rewrite Hc|]. cbn [live isGone] in Hm'. by rewrite Z.sub_add in Hm'.
Qed.

Lemma halfclose_inv r d err : relayInv r -> spawned r = true -> rl_copiers r d = Copied err ->
  relayInv (with_half d (HalfClosed err) (with_call d CallCloseWrite r)).
Proof.
  intros (Hx & Hd & Hm) Hs Hc. split; [done|]. split.
  - apply (direction_step r _ d); [done..| |]; cbn [rl_calls rl_copiers rl_read rl_eof rl_pc with_half with_call].
    + intros d' Hne. by rewrite !put_stream_other.
    + rewrite !put_stream_same. destruct (Hd d) as (ws & Hcalls & Hrest). rewrite Hc in *. exists ws. rewrite Hcalls. cbn [tailOf copyResult] in *.
      by rewrite app_nil_r.
  - destruct (main_copier r d (HalfClosed err) Hm Hs) as (_ & _ & Hm'); [by rewrite Hc|]. cbn [live isGone] in Hm'. by rewrite Z.sub_add in Hm'.
Qed.

Lemma done_inv r d err : relayInv r -> spawned r = true -> rl_copiers r d = HalfClosed err -> relayInv (with_half d (CopierGone err) (wgAdd (-1) r)).
Proof.
  intros (Hx & Hd & Hm) Hs Hc. destruct (main_copier r d (CopierGone err) Hm Hs) as (Hpc & Hw & Hm'); [by rewrite Hc|]. split; [|split].
  - cbn. rewrite Hx. apply Z.ltb_ge. lia.
  - apply (direction_step r _ d); [done..| |]; cbn [rl_calls rl_copiers rl_read rl_eof rl_pc with_half wgAdd].
    + intros d' Hne. by rewrite !put_stream_other.
    + rewrite !put_stream_same. destruct (Hd d) as (ws & Hcalls & Hrest). rewrite Hc in *. exists ws. rewrite Hcalls, Hpc. done.
  - cbn [live isGone] in Hm'. by rewrite Z.add_0_r in Hm'.
Qed.

Lemma close_inv r : relayInv r -> forall r', forwardUnixSocket RvClose r = Some r' -> relayInv r'.
Proof.
  intros (Hx & Hd & Hm) r' H. unfold forwardUnixSocket in H. rewrite Hx in H.
  assert (Hg : forall d, isGone (rl_copiers r d) = true -> exists err, rl_copiers r d = CopierGone err) by (intros d; destruct (rl_copiers r d); by eauto).
  destruct (rl_pc r) as [| | | |connected] eqn:Epc; try done; injection H as <-; destruct Hm as [Hw Hm]; (split; [done|]); (split; [|done]);
    intros d; destruct (Hd d) as (ws & Hcalls & Hrest), (Hg d (Hm d)) as [err Eerr]; exists ws;
    cbn [rl_calls rl_copiers rl_read rl_eof rl_pc with_pc with_call]; (split; [|done]); rewrite Eerr in *; destruct d;
    rewrite ?put_stream_same, ?put_stream_other, Hcalls by done; rewrite <- ?app_assoc; done.
Qed.

Lemma relay_inv e r r' : relayInv r -> forwardUnixSocket e r = Some r' -> relayInv r'.
Proof.
  intros Hinv H. pose proof Hinv as (Hx & Hd & Hm). destruct e as [err|d data er nw ew|d|d| |]; [..|by eapply close_inv];
    unfold forwardUnixSocket in H; rewrite Hx in H.
  - destruct (rl_pc r) eqn:Epc, err; try done; injection H as <-; destruct Hm as [Hw Hm].
    + split; [done|]. split; [|by split]. exact Hd.
    + split; [cbn; by rewrite Hx, Hw|]. split; [exact Hd|]. cbn. by rewrite Hw, !Hm.
  - destruct (spawned r) eqn:Es, (rl_copiers r d) eqn:Ec; try done. injection H as <-. by apply round_inv.
  - destruct (spawned r) eqn:Es, (rl_copiers r d) eqn:Ec; try done. injection H as <-. by apply halfclose_inv.
  - destruct (spawned r) eqn:Es, (rl_copiers r d) eqn:Ec; try done. injection H as <-. by apply done_inv.
  - destruct (rl_pc r) eqn:Epc; try done. destruct (rl_wg r =? 0) eqn:Ew; [|done]. injection H as <-.
    split; [done|]. split; [exact Hd|]. cbn in Hm |- *. split; [lia|]. apply Z.eqb_eq in Ew.
    pose proof (live_bounds (rl_copiers r true)). pose proof (live_bounds (rl_copiers r false)).
    assert (Hg : forall c, live c = 0 -> isGone c = true) by (intros c; unfold live; by destruct (isGone c)).
    intros d. apply Hg. destruct d; lia.
Qed.

Lemma relays_inv es r r' : relayInv r -> relays es r = Some r' -> relayInv r'.
Proof.
  revert r. induction es as [|e es IH]; intros r Hr H; cbn [relays] in H; [by injection H as <-|].
  destruct (forwardUnixSocket e r) eqn:E; [|done]. by eapply IH; [eapply relay_inv|].
Qed.

Lemma newRelay_inv : relayInv newRelay.
Proof. split; [done|]. split; [|done]. intros d. exists []. split_and!; done. Qed.

(** ** The channels of the agent *)

Section Channels.
Context {M : Type} {FC : ForwardConn M} {IP : IPLib} {ET : ErrText}.
Context `{KeyLib, RSALib} {T : Type} `{Agent T} {C : Type} `{Conn C}.
Context (opened : C) (arrive : bytes -> C -> C) (close : nat -> stm M (option error)).
Notation "'forwarding'" := (forwarding M T C).
Notation "'fstep'" := (forwardStep opened arrive close).
Notation "'fsteps'" := (forwardSteps opened arrive close).

(** The client's part, and the channels that were taken: they follow those that were refused
    before the type was registered. *)
Definition takenInv (f : forwarding) : Prop :=
  worldInv (fd_world f) /\ (fd_started f <> None -> channelType ∈ wl_user (fd_world f)) /\ (fd_started f = None -> fd_services f = []) /\
  if decide (channelType ∈ wl_user (fd_world f))
  then exists pre, userType channelType (pre ++ map fst (fd_services f)) (fd_world f)
  else fd_services f = [].

(** A call of either function registers the type, as [HandleChannelOpen] does. *)
Lemma startStep_world t dialed (f f' : forwarding) : worldInv (fd_world f) -> startStep t dialed f = Some f' ->
  step (EvHandle channelType) (fd_world f) = Some (fd_world f') /\ fd_services f' = fd_services f /\ fd_agent f' = fd_agent f /\ fd_panicked f' = fd_panicked f /\
  (fd_started f' = fd_started f \/ (fd_started f' = Some t /\ channelType ∈ wl_user (fd_world f') /\ (t = ToRemote -> dialed = None))).
Proof.
  intros (_ & (h & Eh & Hr) & _). unfold startStep, step, callerStep, perform. destruct (wl_crashed _); [done|]. destruct (wl_starting (fd_world f)) eqn:Est; [|done].
  assert (Ho : (match t with ToAgent => ForwardToAgent | ToRemote => ForwardToRemote dialed end) (wl_client (fd_world f)) =
    match h !! channelType with
    | Some _ => Done (Some haveHandler, InNil) (wl_client (fd_world f))
    | None => Done (match t with ToAgent => None | ToRemote => dialed end, InOf channelType) (set_handlers (Some (<[channelType := newGochan]> h)) (wl_client (fd_world f)))
    end).
  { destruct t; unfold ForwardToAgent, ForwardToRemote, bind, HandleChannelOpen; rewrite Eh; by destruct (h !! channelType). }
  rewrite Ho. unfold HandleChannelOpen. rewrite Eh. destruct (h !! channelType); [intros [= <-]; split_and!; auto|].
  assert (Hin : forall l, channelType ∈ l ++ [channelType]) by (intros l; apply elem_of_app; right; by left).
  destruct t, dialed; intros [= <-]; cbn; split_and!; try done; auto; right; split_and!; auto; done.
Qed.

(** A round of the [range] is the caller's receive, and [Accept]. *)
Lemma acceptStep_world (f f' : forwarding) : wl_crashed (fd_world f) = None -> takenInv f -> acceptStep opened f = Some f' ->
  f' = panicked f \/ exists w1 m ch s, step (EvUserTake channelType) (fd_world f) = Some w1 /\ step (EvConn m) w1 = Some (fd_world f') /\
    queued channelType (fd_world f) = ch :: queued channelType (fd_world f') /\ settled channelType (fd_world f') = settled channelType (fd_world f) ++ [ch] /\
    wl_user (fd_world f') = wl_user (fd_world f) /\ fd_services f' = fd_services f ++ [(ch, s)] /\
    fd_agent f' = fd_agent f /\ fd_started f' = fd_started f /\ fd_panicked f' = fd_panicked f /\
    match s with NotAccepted => True | Serving c => c = opened | Relaying r => r = newRelay | _ => False end.
Proof.
  intros Hx ((_ & (h & Eh & Hr) & _) & Hst & _ & _). unfold acceptStep. destruct (fd_started f) as [t|] eqn:Et; [|done].
  destruct (takeHandler _ _) as [[ch c]|] eqn:Eh'; [|done]. destruct (takeHandler_spec _ _ _ h ch Eh Eh') as (q & l & Hq & El & ->).
  assert (Hch : nc_type ch = channelType) by (assert (Ht := proj2 (ri_open _ _ _ _ _ _ _ Hr _ _ Hq)); rewrite El in Ht; by apply Forall_inv in Ht).
  destruct (fc_Accept _ _) as [err m|m|x]; [|done|intros [= <-]; by left]. intros [= <-]. right.
  eexists _, m, ch, _. split; [|split; [|split_and!]].
  - unfold step, callerStep. rewrite Hx, (ri_start _ _ _ _ _ _ _ Hr) by (intros Hn; specialize (Hst ltac:(done)); by rewrite Hn in Hst; apply not_elem_of_nil in Hst).
    rewrite bool_decide_true by (apply Hst; done). by rewrite Eh'.
  - unfold step. cbn [met with_client wl_crashed]. rewrite Hx. done.
  - rewrite (queue_at channelType _ h) by done. unfold queueOf at 1. rewrite Hq, El. f_equal. cbn. unfold queued. cbn. unfold queueOf. by rewrite lookup_insert_eq.
  - unfold settled. cbn [fd_world with_services with_world with_client met wl_fates]. rewrite map_app, ofType_app. cbn [map fst]. unfold ofType at 2.
    by rewrite filter_cons, filter_nil, decide_True.
  - done.
  - done.
  - done.
  - done.
  - done.
  - by destruct err, t.
Qed.

(** A step of the client that takes no channel of the agent. *)
Lemma taken_client e w' (f f' : forwarding) : takenInv f -> e <> EvUserTake channelType -> step e (fd_world f) = Some w' ->
  fd_world f' = w' -> fd_services f' = fd_services f -> (fd_started f' <> None -> fd_started f <> None \/ channelType ∈ wl_user w') ->
  (fd_started f' = None -> fd_started f = None) -> takenInv f'.
Proof.
  intros (Hw & Hst & Hnone & Ht) He Hs Ew Es Hst' Hnone'. subst w'. assert (Hw' : worldInv (fd_world f')) by by eapply step_inv.
  destruct (decide (channelType ∈ wl_user (fd_world f))) as [Hu|Hu].
  - destruct Ht as [pre Hp]. pose proof (user_step _ _ _ Hw Hp _ _ He Hs) as Hp'. split; [done|]. split; [intros _; apply Hp'|]. split; [rewrite Es; auto|].
    rewrite decide_True by apply Hp'. exists pre. by rewrite Es.
  - split; [done|]. split; [intros Hn; destruct (Hst' Hn) as [Hn'|]; [by apply Hst in Hn' | done]|]. rewrite Es. split; [auto|]. destruct (decide _) as [Hu'|]; [|done].
    rewrite Ht. exists (settled channelType (fd_world f')). split; [done|]. rewrite (step_registers _ _ _ _ Hw Hs Hu Hu'), app_nil_r.
    split; [change (zlen []) with 0; by vm_compute | done].
Qed.

Lemma taken_accept (f f' : forwarding) : wl_crashed (fd_world f) = None -> takenInv f -> acceptStep opened f = Some f' -> takenInv f'.
Proof.
  intros Hx Hinv Ha. destruct (acceptStep_world _ _ Hx Hinv Ha) as [->|(w1 & m & ch & s & Hs1 & Hs2 & Hq & Hset & Hu & Hsv & _ & Hst & _)]; [done|].
  destruct Hinv as (Hw & Hst0 & _ & Ht). assert (Hu0 : channelType ∈ wl_user (fd_world f)).
  { apply Hst0. unfold acceptStep in Ha. by destruct (fd_started f). }
  assert (Hs0 : fd_started f <> None) by (unfold acceptStep in Ha; by destruct (fd_started f)).
  rewrite decide_True in Ht by done. destruct Ht as (pre & _ & Hcap & Hpre).
  split; [eapply step_inv; [|exact Hs2]; by eapply step_inv|]. rewrite Hu. split; [done|]. split; [by rewrite Hst|]. rewrite decide_True by done.
  exists pre. split; [by rewrite Hu|]. split; [rewrite Hq, zlen_cons in Hcap; lia|]. rewrite Hset, Hpre, Hsv, map_app. by rewrite app_assoc.
Qed.

(** A step of one service leaves the client and the list of the channels alone. *)
Lemma taken_service i ch s s' a m (f : forwarding) : takenInv f -> fd_services f !! i = Some (ch, s) ->
  takenInv (with_service i ch s' (with_agent a (with_world (with_client (set_conn m (wl_client (fd_world f))) (fd_world f)) f))).
Proof.
  intros (Hw & Hst & Hnone & Ht) Hi. destruct Hw as (Hx & (h & Eh & Hr) & Hrest).
  split; [by split; [|split; [exists h|]]|]. split; [done|]. split; [intros Hn; cbn in Hn; by rewrite (Hnone Hn) in Hi|]. cbn [with_service with_services with_agent with_world with_client fd_world fd_services wl_user].
  assert (Em : map fst (<[i := (ch, s')]> (fd_services f)) = map fst (fd_services f)).
  { rewrite list_fmap_insert. apply list_insert_id. rewrite list_lookup_fmap, Hi. done. }
  destruct (decide (channelType ∈ wl_user (fd_world f))) as [Hu|Hu].
  - destruct Ht as [pre Hp]. exists pre. rewrite Em. by eapply userType_same, Hp.
  - by rewrite Ht in Hi.
Qed.

Lemma with_conn_same (w : Client.world M) : with_client (set_conn (cl_conn (wl_client w)) (wl_client w)) w = w.
Proof. unfold with_client, set_conn. destruct w as [c o hs rq cl dn cr st us sn ft ad gt]. by destruct c. Qed.

Lemma taken_service' i ch s s' a (f : forwarding) : takenInv f -> fd_services f !! i = Some (ch, s) -> takenInv (with_service i ch s' (with_agent a f)).
Proof. intros Hinv Hi. pose proof (taken_service i ch s s' a (cl_conn (wl_client (fd_world f))) f Hinv Hi) as Ht. rewrite with_conn_same in Ht. by destruct f. Qed.

Lemma taken_step e (f f' : forwarding) : takenInv f -> fstep e f = Some f' -> takenInv f'.
Proof.
  intros Hinv. unfold forwardStep. destruct (fd_panicked f); [done|]. destruct (wl_crashed _) eqn:Hx; [done|]. destruct e as [e|t dialed| |i data|i e|i|i e].
  - destruct (ours e) eqn:Eo; [done|]. destruct (step e _) as [w|] eqn:Es; [|done]. intros [= <-].
    eapply taken_client; [exact Hinv | | exact Es | done | done | auto | done]. intros ->. cbn in Eo. by apply bool_decide_eq_false in Eo.
  - intros Hs. destruct (startStep_world t dialed f f' (proj1 Hinv) Hs) as (Hs' & Hsv & _ & _ & Hst).
    apply (taken_client (EvHandle channelType) (fd_world f') f); [exact Hinv | done | exact Hs' | done | done | destruct Hst as [->|(_ & Hst & _)]; auto |].
    destruct Hst as [->|(-> & _ & _)]; done.
  - by apply taken_accept.
  - destruct (_ !! i) as [[ch []]|] eqn:Ei; try done. intros [= <-]. pose proof (taken_service' i ch _ (Serving (arrive data c)) (fd_agent f) f Hinv Ei) as Ht. by destruct f.
  - unfold turnStep. destruct (_ !! i) as [[ch []]|] eqn:Ei; try done. destruct (serveRequest _ _) as [[[]|err|x] [a c']]; intros [= <-];
      [by eapply taken_service'..|]. destruct Hinv as (Hw & Hst & Hnone & Ht). by split.
  - unfold closeStep. destruct (_ !! i) as [[ch []]|] eqn:Ei; try done. destruct (close _ _) as [r m|m|x]; [|done|by intros [= <-]]. intros [= <-].
    pose proof (taken_service i ch _ (Closed c err) (fd_agent f) m f Hinv Ei) as Ht. by destruct f.
  - destruct (_ !! i) as [[ch []]|] eqn:Ei; try done. destruct (forwardUnixSocket _ _) as [r'|]; [|done]. intros [= <-].
    pose proof (taken_service' i ch _ (Relaying r') (fd_agent f) f Hinv Ei) as Ht. by destruct f.
Qed.

Lemma taken_steps es (f f' : forwarding) : takenInv f -> fsteps es f = Some f' -> takenInv f'.
Proof.
  revert f. induction es as [|e es IH]; intros f Hf Hs; cbn [forwardSteps] in Hs; [by injection Hs as <-|].
  destruct (fstep e f) eqn:E; [|done]. by eapply IH; [eapply taken_step|].
Qed.

Lemma start_taken conn a : takenInv (startForwarding conn a : forwarding).
Proof. split; [apply start_inv|]. split; [done|]. split; [done|]. cbn. rewrite decide_False; [done|]. apply not_elem_of_nil. Qed.

(** *** After a failed [ForwardToRemote] *)

Definition strandedInv (l : list NewChannel) (f : forwarding) : Prop :=
  worldInv (fd_world f) /\ fd_started f = None /\ fd_services f = [] /\ userType channelType l (fd_world f).

Lemma stranded_step l e (f f' : forwarding) : strandedInv l f -> fstep e f = Some f' -> strandedInv l f'.
Proof.
  intros (Hw & Hst & Hsv & Hu). unfold forwardStep. destruct (fd_panicked f); [done|]. destruct (wl_crashed _) eqn:Hx; [done|].
  destruct e as [e|t dialed| |i data|i e|i|i e]; try (unfold turnStep, closeStep; by rewrite Hsv).
  - destruct (ours e) eqn:Eo; [done|]. destruct (step e _) as [w|] eqn:Es; [|done]. intros [= <-].
    split; [by eapply step_inv|]. split; [done|]. split; [done|]. eapply user_step; [exact Hw | done | | exact Es].
    intros ->. cbn in Eo. by apply bool_decide_eq_false in Eo.
  - intros Hs. destruct (startStep_world t dialed f f' Hw Hs) as (Hs' & Es & _ & _ & Hst').
    split; [by eapply step_inv|]. split; [|split; [by rewrite Es | by apply (user_step _ _ _ Hw Hu (EvHandle channelType))]]. destruct Hst' as [->|(_ & Hin & _)]; [done|].
    unfold startStep in Hs. rewrite Hx in Hs. destruct (wl_starting (fd_world f)); [|done]. destruct Hw as (_ & (h & Eh & Hr) & _). destruct (proj2 (ri_dom _ _ _ _ _ _ _ Hr channelType)) as [q Hq]; [right; apply Hu|].
    assert (Ho : (match t with ToAgent => ForwardToAgent | ToRemote => ForwardToRemote dialed end) (wl_client (fd_world f)) = Done (Some haveHandler, InNil) (wl_client (fd_world f))).
    { destruct t; unfold ForwardToAgent, ForwardToRemote, bind, HandleChannelOpen; by rewrite Eh, Hq. }
    rewrite Ho in Hs. by injection Hs as <-.
  - unfold acceptStep. by rewrite Hst.
Qed.

Lemma stranded_steps l es (f f' : forwarding) : strandedInv l f -> fsteps es f = Some f' -> strandedInv l f'.
Proof.
  revert f. induction es as [|e es IH]; intros f Hf Hs; cbn [forwardSteps] in Hs; [by injection Hs as <-|].
  destruct (fstep e f) eqn:E; [|done]. by eapply IH; [eapply stranded_step|].
Qed.

Lemma failed_start err (f f1 : forwarding) : takenInv f -> fd_started f = None -> startStep ToRemote (Some err) f = Some f1 ->
  channelType ∈ wl_user (fd_world f1) -> strandedInv (settled channelType (fd_world f1)) f1.
Proof.
  intros Hinv Hst Hs Hu. destruct (startStep_world ToRemote (Some err) f f1 (proj1 Hinv) Hs) as (Hs' & Es & _ & _ & Hst').
  assert (Hst1 : fd_started f1 = None) by (destruct Hst' as [->|(_ & _ & Hd)]; [done | by specialize (Hd eq_refl)]).
  assert (Hi1 : takenInv f1) by (apply (taken_client (EvHandle channelType) (fd_world f1) f); [done | done | done | done | done | auto | done]).
  destruct Hi1 as (Hw1 & _ & Hnone & Ht). rewrite decide_True in Ht by done. destruct Ht as (pre & Hpu & Hpq & _).
  split; [done|]. split; [done|]. split; [by apply Hnone | done].
Qed.

(** What has arrived of the agent's type: what is settled, the queue and what the dispatcher
    holds. *)
Lemma stranded_waiting l (f : forwarding) : strandedInv l f ->
  ofType channelType (wl_seen (fd_world f)) = l ++ queued channelType (fd_world f) ++ ofType channelType (opensHeld (wl_opens (fd_world f))).
Proof.
  intros ((_ & (h & Eh & Hr) & _) & _ & _ & Hu & _ & Hl). rewrite (ri_order _ _ _ _ _ _ _ Hr). unfold pipeline.
  rewrite heldIn_none; [by rewrite <- Hl, (queue_at channelType _ h)|]. by eapply user_in.
Qed.
End Channels.

(** ** One agent for all channels *)

Section Serves.
Context {M : Type} {FC : ForwardConn M} {IP : IPLib} {ET : ErrText}.
Context `{KeyLib, RSALib} {T : Type} `{Agent T} (close : nat -> stm M (option error)).
Notation "'forwarding'" := (forwarding M T AgentWireFacts.buffer).

Definition frame (p : bytes) : bytes := be_encode 4 (zlen p) ++ p.
Definition newBuffer : AgentWireFacts.buffer := mkBuffer [] [].
Definition arriveBuffer (data : bytes) (b : AgentWireFacts.buffer) : AgentWireFacts.buffer := mkBuffer (buf_in b ++ data) (buf_out b).
Notation "'fstep'" := (forwardStep newBuffer arriveBuffer close).
Notation "'fsteps'" := (forwardSteps newBuffer arriveBuffer close).

(** The agent alone, with the requests of all channels one after the other: the replies, and its
    state. *)
Fixpoint agentRun (log : list (nat * env * bytes)) (s : T) : option (list (nat * bytes) * T) :=
  match log with
  | [] => Some ([], s)
  | (i, e, req) :: log =>
      match processRequestBytes req e s with
      | (Ret rep, s) => match agentRun log s with Some (reps, s) => Some ((i, rep) :: reps, s) | None => None end
      | (Fail _, s) => agentRun log s
      | (Panic _, _) => None
      end
  end.

Definition ofChannel {A} (i : nat) (l : list (nat * A)) : list A := omap (fun '(j, x) => if decide (j = i) then Some x else None) l.
Definition requestsOf (i : nat) (log : list (nat * env * bytes)) : list bytes := ofChannel i (map (fun '(j, _, req) => (j, req)) log).
Definition framed (l : list bytes) : bytes := concat (map frame l).

(** What has arrived on a channel. *)
Definition arrivedAt (i : nat) (es : list (forwardEvent M)) : bytes :=
  concat (omap (fun e => match e with FvArrive j data => if decide (j = i) then Some data else None | _ => None end) es).

(** The bytes of a channel: the requests of this channel are what it sent, in order, and the
    replies to them are what it was answered. *)
Definition bytesOk (arrived : bytes) (reqs reps : list bytes) (s : option (service AgentWireFacts.buffer)) : Prop :=
  match s with
  | Some (Serving b) => arrived = framed reqs ++ buf_in b /\ buf_out b = framed reps
  | Some (Closing b _ | Closed b _) => framed reqs `prefix_of` arrived /\ buf_out b `prefix_of` framed reps
  | _ => arrived = [] /\ reqs = [] /\ reps = []
  end.

Definition servesInv (a0 : T) (es : list (forwardEvent M)) (f : forwarding) : Prop :=
  exists log reps, agentRun log a0 = Some (reps, fd_agent f) /\
    forall i, bytesOk (arrivedAt i es) (requestsOf i log) (ofChannel i reps) (snd <$> fd_services f !! i).

Lemma agentRun_app log log' s reps s1 reps' s2 : agentRun log s = Some (reps, s1) -> agentRun log' s1 = Some (reps', s2) ->
  agentRun (log ++ log') s = Some (reps ++ reps', s2).
Proof.
  revert s reps. induction log as [|[[i e] req] log IH]; intros s reps Hl Hl'; cbn in Hl |- *; [by injection Hl as <- <-|].
  destruct (processRequestBytes req e s) as [[rep|err|w] s'] eqn:E; [| by apply IH | done].
  destruct (agentRun log s') as [[reps0 s0]|] eqn:E0; [|done]. injection Hl as <- <-. by rewrite (IH s' reps0).
Qed.

Lemma ofChannel_app {A} i (l k : list (nat * A)) : ofChannel i (l ++ k) = ofChannel i l ++ ofChannel i k.
Proof. apply omap_app. Qed.

Lemma requestsOf_app i l k : requestsOf i (l ++ k) = requestsOf i l ++ requestsOf i k.
Proof. unfold requestsOf. by rewrite map_app, ofChannel_app. Qed.

Lemma framed_concat l k : framed (l ++ k) = framed l ++ framed k.
Proof. unfold framed. by rewrite map_app, concat_app. Qed.

Lemma arrivedAt_app i es es' : arrivedAt i (es ++ es') = arrivedAt i es ++ arrivedAt i es'.
Proof. unfold arrivedAt. by rewrite omap_app, concat_app. Qed.

(** A read of a whole frame. *)
Lemma frame_read (s len rest req rest' : bytes) : takeBytes 4 s = Ret (len, rest) -> takeBytes (be_decode len) rest = Ret (req, rest') -> s = frame req ++ rest'.
Proof.
  unfold takeBytes. destruct (zlen s <? 4) eqn:E1; [done|]. intros [= <- <-]. destruct (zlen (zdrop 4 s) <? _) eqn:E2; [done|]. intros [= <- <-].
  unfold frame. pose proof (be_decode_range (ztake 4 s)). rewrite zlen_ztake by lia.
  assert (Hl : length (ztake 4 s) = 4%nat) by (pose proof (zlen_ztake 4 s ltac:(lia)); unfold zlen in *; lia).
  rewrite <- Hl, be_encode_decode, <- app_assoc. by rewrite !ztake_zdrop.
Qed.

(** A turn of the server: it answers the request at the front of its input, or it ends. *)
Lemma serveRequest_cases e (a a' : T) b b' r : serveRequest e (a, b) = (r, (a', b')) ->
  match r with
  | Ret _ => exists req rep, buf_in b = frame req ++ buf_in b' /\ processRequestBytes req e a = (Ret rep, a') /\ buf_out b' = buf_out b ++ frame rep
  | Fail _ => buf_out b' = buf_out b /\
      (a' = a \/ exists req rest res, buf_in b = frame req ++ rest /\ processRequestBytes req e a = (res, a') /\ panics res = false)
  | Panic _ => True
  end.
Proof.
  unfold serveRequest, bindOp, AgentWire.onConn, conn_ReadFull, buffer_Conn. cbn [fst snd].
  destruct (takeBytes 4 (buf_in b)) as [[len rest]|err|w] eqn:E1; [|intros [= <- <- <-]; auto..]. cbn [buf_in buf_out fst snd].
  destruct (_ <? _); [intros [= <- <- <-]; auto|]. cbn [fst snd buf_in buf_out].
  destruct (takeBytes (be_decode len) rest) as [[req rest']|err|w] eqn:E2; [|intros [= <- <- <-]; auto..]. cbn [buf_in buf_out fst snd].
  pose proof (frame_read _ _ _ _ _ E1 E2) as Hf. unfold onAgent. cbn [fst snd].
  destruct (processRequestBytes req e a) as [[rep|err|w] a1] eqn:Ep; cbn [fst snd].
  - destruct (_ <? _); cbn [fst snd conn_Write buf_in buf_out]; intros [= <- <- <-].
    + split; [done|]. right. by exists req, rest', (Ret rep).
    + exists req, rep. cbn. unfold frame. by rewrite <- app_assoc.
  - intros [= <- <- <-]. split; [done|]. right. by exists req, rest', (Fail err).
  - by intros [= <- <- <-].
Qed.

Lemma arrivedAt_quiet i es e : (forall j data, e <> FvArrive j data) -> arrivedAt i (es ++ [e]) = arrivedAt i es.
Proof. intros He. rewrite arrivedAt_app. unfold arrivedAt at 2. destruct e as [| | |j data| | |]; cbn; rewrite ?app_nil_r; try done. by destruct (He j data). Qed.

(** A step that neither receives nor calls the agent. *)
Lemma serves_quiet a0 es e (f f' : forwarding) : servesInv a0 es f -> (forall j data, e <> FvArrive j data) -> fd_agent f' = fd_agent f ->
  (forall i arrived reqs reps, bytesOk arrived reqs reps (snd <$> fd_services f !! i) -> bytesOk arrived reqs reps (snd <$> fd_services f' !! i)) ->
  servesInv a0 (es ++ [e]) f'.
Proof. intros (log & reps & Hr & Hb) He Ha Hs. exists log, reps. rewrite Ha. split; [done|]. intros i. rewrite arrivedAt_quiet by done. by apply Hs. Qed.

(** One service changes. *)
Lemma service_at (f : forwarding) i ch s s' j : fd_services f !! i = Some (ch, s) ->
  snd <$> <[i := (ch, s')]> (fd_services f) !! j = if decide (j = i) then Some s' else snd <$> fd_services f !! j.
Proof.
  intros Hi. case_decide as E; [subst j; by rewrite list_lookup_insert_eq by (by eapply lookup_lt_Some)|by rewrite list_lookup_insert_ne].
Qed.

Lemma quiet_service (f : forwarding) i ch s s' : fd_services f !! i = Some (ch, s) ->
  (forall arrived reqs reps, bytesOk arrived reqs reps (Some s) -> bytesOk arrived reqs reps (Some s')) ->
  forall j arrived reqs reps, bytesOk arrived reqs reps (snd <$> fd_services f !! j) ->
    bytesOk arrived reqs reps (snd <$> <[i := (ch, s')]> (fd_services f) !! j).
Proof. intros Hi Hs j arrived reqs reps Hb. rewrite (service_at f i ch s s' j Hi). case_decide as E; [subst j; rewrite Hi in Hb; by apply Hs | done]. Qed.

Lemma startStep_services t dialed (f f' : forwarding) : startStep t dialed f = Some f' -> fd_services f' = fd_services f /\ fd_agent f' = fd_agent f.
Proof.
  unfold startStep. destruct (wl_crashed _); [done|]. destruct (wl_starting _); [|done]. destruct (_ (wl_client _)) as [[err ic] c|c|x]; [|done|by intros [= <-]]. intros [= <-]. by destruct ic, err.
Qed.

Lemma acceptStep_services (f f' : forwarding) : acceptStep newBuffer f = Some f' ->
  fd_agent f' = fd_agent f /\ (fd_services f' = fd_services f \/
    exists ch s, fd_services f' = fd_services f ++ [(ch, s)] /\ (forall arrived reqs reps, bytesOk arrived reqs reps None -> bytesOk arrived reqs reps (Some s))).
Proof.
  unfold acceptStep. destruct (fd_started f) as [t|]; [|done]. destruct (takeHandler _ _) as [[ch c]|]; [|done].
  destruct (fc_Accept _ _) as [err m|m|x]; [|done|intros [= <-]; auto]. intros [= <-]. split; [done|]. right. eexists ch, _. split; [done|].
  intros arrived reqs reps (-> & -> & ->). by destruct err, t.
Qed.

Lemma turn_serves a0 es i e (f f' : forwarding) : servesInv a0 es f -> turnStep i e f = Some f' -> fd_panicked f' = false -> servesInv a0 (es ++ [FvTurn i e]) f'.
Proof.
  intros (log & reps & Hrun & Hb) Ht Hp. unfold turnStep in Ht. destruct (fd_services f !! i) as [[ch [|b| | |]]|] eqn:Ei; try done.
  destruct (serveRequest e (fd_agent f, b)) as [r [a' b']] eqn:Es. apply serveRequest_cases in Es.
  pose proof (Hb i) as Hbi. rewrite Ei in Hbi. cbn in Hbi. destruct Hbi as [Harr Hout].
  assert (Hone : forall {A} (x : A) j, ofChannel j [(i, x)] = if decide (j = i) then [x] else []) by (intros A x j; unfold ofChannel; cbn; repeat case_decide; congruence).
  assert (Hreq : forall req j, requestsOf j [(i, e, req)] = if decide (j = i) then [req] else []) by (intros req j; apply (Hone bytes)).
  assert (Hfr : forall x, framed [x] = frame x) by (intros x; unfold framed; cbn; by rewrite app_nil_r).
  destruct r as [[]|err|x]; injection Ht as <-; [| |done].
  - destruct Es as (req & rep & Hin & Hproc & Hout'). exists (log ++ [(i, e, req)]), (reps ++ [(i, rep)]). split.
    + apply (agentRun_app _ _ _ _ (fd_agent f)); [done|]. cbn. by rewrite Hproc.
    + intros j. rewrite arrivedAt_quiet, requestsOf_app, ofChannel_app, Hone, Hreq by done. cbn [with_service with_services with_agent fd_services].
      rewrite (service_at f i ch _ _ j Ei). case_decide as E; [subst j|by rewrite !app_nil_r].
      cbn. rewrite !framed_concat, !Hfr, Hout', Hout, Harr, Hin. by rewrite <- app_assoc.
  - destruct Es as (Hout' & [->|(req & rest & res & Hin & Hproc & Hnp)]).
    + exists log, reps. split; [done|]. intros j. rewrite arrivedAt_quiet by done. cbn [with_service with_services with_agent fd_services].
      rewrite (service_at f i ch _ _ j Ei). case_decide as E; [subst j|done]. cbn. rewrite Harr, Hout', Hout. split; [by apply prefix_app_r | done].
    + exists (log ++ [(i, e, req)]), (reps ++ match res with Ret rep => [(i, rep)] | _ => [] end). split.
      * apply (agentRun_app _ _ _ _ (fd_agent f)); [done|]. cbn. rewrite Hproc. by destruct res.
      * intros j. rewrite arrivedAt_quiet, requestsOf_app, ofChannel_app, Hreq by done. cbn [with_service with_services with_agent fd_services].
        rewrite (service_at f i ch _ _ j Ei). case_decide as E; [subst j|].
        -- cbn. rewrite !framed_concat, Hfr, Hout', Hout, Harr, Hin. split; [rewrite app_assoc; by apply prefix_app_r | by apply prefix_app_r].
        -- rewrite app_nil_r. destruct res as [rep| |]; [rewrite Hone, decide_False by done| |]; rewrite ?app_nil_r; apply Hb.
Qed.

Lemma serves_step a0 es e (f f' : forwarding) : servesInv a0 es f -> fstep e f = Some f' -> fd_panicked f' = false -> servesInv a0 (es ++ [e]) f'.
Proof.
  intros Hinv. unfold forwardStep. destruct (fd_panicked f); [done|]. destruct (wl_crashed _); [done|]. destruct e as [e|t dialed| |i data|i e|i|i e].
  - destruct (ours e); [done|]. destruct (step e _); [|done]. intros [= <-] _. by apply serves_quiet with f.
  - intros Hs _. destruct (startStep_services t dialed f f' Hs) as [E1 E2]. apply serves_quiet with f; [done..|]. by rewrite E1.
  - intros Hs _. destruct (acceptStep_services f f' Hs) as [Ea [Es|(ch & s & Es & Hok)]]; apply serves_quiet with f; try done; [by rewrite Es|].
    intros i arrived reqs reps Hb. rewrite Es. destruct (decide (i < length (fd_services f))%nat) as [Hlt|Hge]; [by rewrite lookup_app_l|].
    rewrite lookup_ge_None_2 in Hb by lia. destruct (decide (i = length (fd_services f))) as [->|Hne].
    + rewrite list_lookup_middle by done. by apply Hok.
    + rewrite lookup_ge_None_2 by (rewrite length_app; cbn; lia). done.
  - destruct (_ !! i) as [[ch [|b| | |]]|] eqn:Ei; try done. intros [= <-] _. destruct Hinv as (log & reps & Hr & Hb). exists log, reps. split; [done|].
    intros j. rewrite arrivedAt_app. cbn [with_service with_services fd_services]. rewrite (service_at f i ch _ _ j Ei). unfold arrivedAt at 2. cbn.
    case_decide as E; [subst j|].
    + rewrite decide_True by done. cbn. specialize (Hb i). rewrite Ei in Hb. cbn in Hb. destruct Hb as [-> ->]. by rewrite app_nil_r, <- app_assoc.
    + rewrite decide_False by done. cbn. rewrite app_nil_r. apply Hb.
  - by apply turn_serves.
  - unfold closeStep. destruct (_ !! i) as [[ch []]|] eqn:Ei; try done. destruct (close _ _); [|done|]; intros [= <-] Hp; [|done].
    apply serves_quiet with f; [done..|]. by eapply quiet_service.
  - destruct (_ !! i) as [[ch []]|] eqn:Ei; try done. destruct (forwardUnixSocket _ _); [|done]. intros [= <-] _.
    apply serves_quiet with f; [done..|]. by eapply quiet_service.
Qed.

Lemma panicked_stays es (f f' : forwarding) : fsteps es f = Some f' -> fd_panicked f' = false -> fd_panicked f = false.
Proof.
  revert f. induction es as [|e es IH]; intros f Hs Hp; cbn [forwardSteps] in Hs; [by injection Hs as <-|].
  destruct (fstep e f) as [f1|] eqn:E; [|done]. unfold forwardStep in E. by destruct (fd_panicked f).
Qed.

Lemma serves_steps a0 es0 es (f f' : forwarding) : servesInv a0 es0 f -> fsteps es f = Some f' -> fd_panicked f' = false -> servesInv a0 (es0 ++ es) f'.
Proof.
  revert es0 f. induction es as [|e es IH]; intros es0 f Hf Hs Hp; cbn [forwardSteps] in Hs; [injection Hs as <-; by rewrite app_nil_r|].
  destruct (fstep e f) as [f1|] eqn:E; [|done]. rewrite cons_middle, app_assoc. eapply IH; [|done..]. eapply serves_step; [done..|]. by eapply panicked_stays.
Qed.
End Serves.

(** ** The claims *)

(** C35: The relay is transparent.  However the two copies of [forwardUnixSocket] and its main
    goroutine interleave, and whatever the reads and writes return: the wait group never goes
    below zero; what is written to each end is a beginning of what was read from the other,
    all of it as long as no read or write has failed; after the last write the end is passed
    on once, with [CloseWrite], and only after both directions have done so are the two ends
    closed, each once.  A copy that ended without an error has seen the end of its stream and
    written all of it. *)
Theorem relay_transparent es r : relays es newRelay = Some r ->
  rl_crashed r = false /\
  (forall d, directionOk (rl_calls r d) (rl_copiers r d) (rl_read r d) (rl_eof r d) (closedEnd (rl_pc r) d)) /\
  (forall d, CallClose ∈ rl_calls r d -> isGone (rl_copiers r true) = true /\ isGone (rl_copiers r false) = true) /\
  (rl_pc r = RelayReturned true -> forall d, exists ws err, rl_copiers r d = CopierGone err /\
     rl_calls r d = map CallWrite ws ++ [CallCloseWrite; CallClose] /\ (err = None -> rl_eof r d = true /\ concat ws = rl_read r d)).
Proof.
  intros H. destruct (relays_inv es _ r newRelay_inv H) as (Hx & Hd & Hm). split; [done|]. split; [done|]. split.
  - intros d Hin. destruct (Hd d) as (ws & Hc & _). rewrite Hc in Hin. apply elem_of_app in Hin as [Hin|Hin]; [by apply list_elem_of_fmap in Hin as (x & ? & _)|].
    assert (closedEnd (rl_pc r) d = true) as Hcl.
    { destruct (closedEnd _ _); [done|]. destruct (rl_copiers r d); cbn in Hin; set_solver. }
    unfold mainInv in Hm. destruct (rl_pc r) as [| | | |[]]; try done; by destruct Hm.
  - intros Hpc d. destruct (Hd d) as (ws & Hc & _ & Hall & Heof). rewrite Hpc in *. destruct Hm as [_ Hg]. specialize (Hg d).
    destruct (rl_copiers r d) as [| | |err]; try done. exists ws, err. split; [done|]. split; [done|]. intros ->. split; [by apply Heof | apply Hall; by right].
Qed.

Definition example_relay : list relayEvent :=
  [RvDial None; RvRound true (str "ab") None 2 None; RvRound false (str "x") (Some EOF) 1 None; RvRound true (str "c") (Some EOF) 1 None;
   RvCloseWrite false; RvCloseWrite true; RvDone true; RvDone false; RvWait; RvClose; RvClose].

Lemma relay_transparent_witness :
  match relays example_relay newRelay with
  | Some r => rl_pc r = RelayReturned true /\ rl_calls r true = [CallWrite (str "ab"); CallWrite (str "c"); CallCloseWrite; CallClose] /\ rl_crashed r = false
  | None => False
  end.
Proof.
  destruct (relays example_relay newRelay) as [r|] eqn:E; [|by vm_compute in E]. pose proof (relay_transparent example_relay r E) as (Hx & _).
  vm_compute in E. injection E as <-. split_and!; [reflexivity | reflexivity | exact Hx].
Defined.

(** C14: All forwarded channels are served by one agent.  However the goroutines of the client, of
    [ForwardToAgent] and of its servers interleave, there is an order of the requests of all
    channels in which the agent alone would have reached its present state, and for every
    channel: the requests that were served are, in this order, what it sent, followed by what is
    not yet read, and its output is the replies of the agent to just these requests; on a channel
    whose server has ended, the requests are a beginning of what it sent and its output a
    beginning of the replies. *)
Theorem forwarded_agents_are_one {M : Type} {FC : ForwardConn M} {IP : IPLib} {ET : ErrText} `{KeyLib, RSALib} {T : Type} `{Agent T}
    (close : nat -> stm M (option error)) (conn : M) (a0 : T) es f :
  forwardSteps newBuffer arriveBuffer close es (startForwarding conn a0) = Some f -> fd_panicked f = false ->
  exists log reps, agentRun log a0 = Some (reps, fd_agent f) /\
    forall i, bytesOk (arrivedAt i es) (requestsOf i log) (ofChannel i reps) (snd <$> fd_services f !! i).
Proof.
  intros Hs Hp. apply (serves_steps close a0 [] es (startForwarding conn a0)); [|done..].
  exists [], []. split; [done|]. intros i. done.
Qed.

(** Two channels, each with a request for the list of the keys; the second is served first. *)
Definition example_agent_channel (id : nat) : NewChannel := mkNewChannel id channelType [].
Definition example_forwarded : list (forwardEvent (list (bytes * bytes))) :=
  [FvClient EvRegister; FvClient EvRegister; FvStart ToAgent None; FvClient (EvOpens (Some (example_agent_channel 3))); FvClient EvOpensSend; FvClient (EvOpens (Some (example_agent_channel 4)));
   FvAccept; FvClient EvOpensSend; FvAccept; FvArrive 0 [x00; x00]; FvArrive 1 (frame [z2b agentRequestIdentities]); FvTurn 1 (mkEnv (fun _ => 0) []);
   FvArrive 0 [x00; x01; z2b agentRequestIdentities]; FvTurn 0 (mkEnv (fun _ => 0) []); FvTurn 1 (mkEnv (fun _ => 0) [])].
Definition closeNothing (id : nat) : stm (list (bytes * bytes)) (option error) := fun m => Done None m.

Definition example_served : option (forwarding (list (bytes * bytes)) keyring AgentWireFacts.buffer) :=
  @forwardSteps _ log_conn example_net example_text toyKeyLib toyRSALib keyring (@keyring_Agent toyKeyLib toySignLib) _ buffer_Conn
    newBuffer arriveBuffer closeNothing example_forwarded (startForwarding [] NewKeyring).

(** The error and the output of a server that has ended. *)
Definition endedWith (s : option (NewChannel * service AgentWireFacts.buffer)) : option (error * bytes) :=
  match s with Some (_, Closing b err) => Some (err, buf_out b) | _ => None end.

Lemma forwarded_agents_are_one_witness :
  match example_served with
  | Some f => endedWith (fd_services f !! 1%nat) = Some (EOF, frame [x0c; x00; x00; x00; x00]) /\
      exists log reps, @agentRun toyKeyLib toyRSALib keyring (@keyring_Agent toyKeyLib toySignLib) log NewKeyring = Some (reps, fd_agent f) /\
        forall i, bytesOk (arrivedAt i example_forwarded) (requestsOf i log) (ofChannel i reps) (snd <$> fd_services f !! i)
  | None => False
  end.
Proof.
  assert (H1 : option_map (fun f => (fd_panicked f, endedWith (fd_services f !! 1%nat))) example_served =
    Some (false, Some (EOF, frame [x0c; x00; x00; x00; x00]))) by (vm_compute; reflexivity).
  destruct example_served as [f|] eqn:E; [|discriminate H1]. injection H1 as Hp Hf. split; [exact Hf|].
  exact (@forwarded_agents_are_one _ log_conn example_net example_text toyKeyLib toyRSALib keyring (@keyring_Agent toyKeyLib toySignLib)
    closeNothing [] NewKeyring example_forwarded f E Hp).
Defined.

(** C40: A failed [ForwardToRemote] leaves the client without a way to the agent, and can stop it.
    When the socket cannot be reached, the handler stays registered and nobody receives from it:
    whatever happens later, every call of [ForwardToAgent] and [ForwardToRemote] fails, no channel
    of the agent's type meets any fate (none is accepted or rejected), and once more of them have
    arrived than the Go channel holds, the dispatcher of the client is stuck with one and takes no
    channel of any type until the connection ends. *)
Theorem failed_remote_strands {M : Type} {FC : ForwardConn M} {IP : IPLib} {ET : ErrText} `{KeyLib, RSALib} {T : Type} `{Agent T} {C : Type} `{Conn C}
    opened arrive close (conn : M) (a0 : T) es es' err (f f1 f2 : forwarding M T C) :
  forwardSteps opened arrive close es (startForwarding conn a0) = Some f -> fd_started f = None ->
  startStep ToRemote (Some err) f = Some f1 -> channelType ∈ wl_user (fd_world f1) -> forwardSteps opened arrive close es' f1 = Some f2 ->
  let w := fd_world f2 in
  fd_services f2 = [] /\ settled channelType w = settled channelType (fd_world f1) /\
  (ForwardToAgent (wl_client w) = Done (Some haveHandler, InNil) (wl_client w) /\
   forall dialed, ForwardToRemote dialed (wl_client w) = Done (Some haveHandler, InNil) (wl_client w)) /\
  (chanSize < zlen (ofType channelType (wl_seen w)) - zlen (settled channelType w) ->
   (forall ch, opensStep ch w = None) /\ opensSend w = None).
Proof.
  intros Hs Hst Hstart Hu Hs'. cbn zeta. pose proof (taken_steps _ _ _ es _ f (start_taken conn a0) Hs) as Hinv.
  assert (Hi1 : strandedInv (settled channelType (fd_world f1)) f1) by (by eapply failed_start).
  pose proof (stranded_steps opened arrive close _ es' f1 f2 Hi1 Hs') as Hi2. pose proof (stranded_waiting _ f2 Hi2) as Hseen.
  destruct Hi2 as (Hw & _ & Hsv & Hu2). pose proof Hu2 as (_ & Hcap & Hset). split; [done|]. split; [done|].
  pose proof Hw as (_ & (h & Eh & Hr) & _). destruct (user_registered _ _ _ Hw Hu2 h Eh) as [q Hq]. split.
  - unfold ForwardToAgent, ForwardToRemote, bind, HandleChannelOpen. rewrite Eh, Hq. done.
  - rewrite Hset, Hseen, !zlen_app. intros Hlt. destruct (wl_opens (fd_world f2)) as [|ch|held] eqn:Eo.
    + change (zlen (ofType channelType (opensHeld OIdle))) with 0 in Hlt. lia.
    + split; [intros ch'; unfold opensStep; rewrite Eo; by destruct ch'|]. unfold opensSend. rewrite Eo, Eh. cbn [opensHeld] in Hlt.
      unfold ofType in Hlt. rewrite filter_cons, filter_nil in Hlt. case_decide as Et; [|change (zlen []) with 0 in Hlt; lia].
      rewrite Et, Hq, (proj1 (ri_open _ _ _ _ _ _ _ Hr _ _ Hq)). rewrite (queue_at channelType _ h) in Hlt by done.
      unfold queueOf in Hlt. rewrite Hq in Hlt. change (zlen [ch]) with 1 in Hlt. by replace (zlen (gq q) <? chanSize) with false by lia.
    + split; [intros ch'; unfold opensStep; rewrite Eo; by destruct ch'|]. unfold opensSend. by rewrite Eo.
Qed.

(** The socket cannot be reached; then the peer opens seventeen channels to the agent. *)
Definition example_flood : list (forwardEvent (list (bytes * bytes))) :=
  concat (map (fun i => [FvClient (EvOpens (Some (example_agent_channel i))); FvClient EvOpensSend]) (seq 0 16)) ++
  [FvClient (EvOpens (Some (example_agent_channel 16)))].

Definition example_started : forwarding (list (bytes * bytes)) keyring AgentWireFacts.buffer :=
  mkForwarding started NewKeyring None [] false.

Definition example_failed : option (forwarding (list (bytes * bytes)) keyring AgentWireFacts.buffer) :=
  startStep ToRemote (Some EOF) example_started.

Definition example_flooded (f : forwarding (list (bytes * bytes)) keyring AgentWireFacts.buffer) :=
  @forwardSteps _ log_conn example_net example_text toyKeyLib toyRSALib keyring (@keyring_Agent toyKeyLib toySignLib) _ buffer_Conn
    newBuffer arriveBuffer closeNothing example_flood f.

Lemma failed_remote_strands_witness :
  match example_failed with
  | Some f1 => match example_flooded f1 with
               | Some f2 => opensStep (Some (mkNewChannel 17 (str "x11") [])) (fd_world f2) = None
               | None => False
               end
  | None => False
  end.
Proof.
  assert (H1 : option_map (fun f => (wl_user (fd_world f), option_map (fun f2 => (zlen (ofType channelType (wl_seen (fd_world f2))),
    zlen (settled channelType (fd_world f2)))) (example_flooded f))) example_failed = Some ([channelType], Some (17, 0))) by (vm_compute; reflexivity).
  destruct example_failed as [f1|] eqn:E1; [|discriminate H1]. cbn [option_map] in H1. injection H1 as Hu H2.
  destruct (example_flooded f1) as [f2|] eqn:E2; [|discriminate H2]. injection H2 as Hn Hs.
  destruct (@failed_remote_strands _ log_conn example_net example_text toyKeyLib toyRSALib keyring (@keyring_Agent toyKeyLib toySignLib) _ buffer_Conn
    newBuffer arriveBuffer closeNothing [] NewKeyring [FvClient EvRegister; FvClient EvRegister] example_flood EOF example_started f1 f2) as (_ & _ & _ & Hstuck).
  - reflexivity.
  - reflexivity.
  - exact E1.
  - rewrite Hu. left.
  - exact E2.
  - apply (Hstuck ltac:(rewrite Hn, Hs; vm_compute; reflexivity)).
Defined.
